(* ===== verification/_CoqProject ===== *)
-Q . S2P
Prelude.v
Eluarpc.v
Remotefs.v
RfsServer.v
RfsClient.v
RfsInstance.v
Fifo.v
Buf.v
IntQueue.v
Romfs.v
Salloc.v
Sermux.v
Devman.v
Genstd.v
Xmodem.v
Timers.v
Linenoise.v
Flash.v
CommonFs.v
Common.v
Term.v
Adc.v
AdcSpec.v
Shell.v
ShellFiles.v
ShellSpec.v
LuaApi.v
Bitarray.v
Lpack.v
Rotable.v
Pio.v
Uart.v
Net.v
NetSpec.v
LuaNet.v
Luarpc.v
LuarpcSpec.v
