(* ===== verification/Prelude.v ===== *)
(** * Verification of eLua: the run-time system below the Lua virtual machine

    eLua runs Lua on microcontrollers. This development models, in the C files
    under src/ of the repository, what eLua puts between the Lua virtual machine
    and the platform: devices and files, buffers and interrupts, timers, memory,
    the console, and the protocols that connect a board to a desktop. Every
    definition translates the code its comment names; every theorem is about
    such definitions.

    ** The parts, and how they interact

    - Prelude (this file): machine words, byte buffers, strings, decimal numbers,
      and the generic lemmas and hint databases the others share.
    - Remote procedure calls. Eluarpc (src/eluarpc.c) writes and reads typed
      values in packets; Remotefs (src/remotefs/remotefs.c) gives the eight
      operations of the remote file system their messages; RfsClient
      (src/remotefs/client.c, elua_os_io.c, elua_rfs.c) is the board's side and
      RfsServer (rfs_server_src/server.c, os_io_posix.c, and the memory transport
      of rfs_transports.c) the desktop's. A client call is shown to be the POSIX
      call of the server's system, through both layers and the transport.
      RfsInstance is a concrete system for the laws assumed of POSIX.
    - Buffers and interrupts. Buf (src/buf.c): the circular buffers interrupt
      handlers fill; IntQueue (src/elua_int.c): the queue and hook that take
      interrupts to Lua handlers. Fifo is the class of bounded queues both are
      instances of.
    - Files on the board. Romfs (src/romfs.c): the read-only and the write-once
      file system (WOFS), over a device given by the class [Device]; Flash (flash
      functions of src/common.c, and the hardware part of src/romfs.c): flash
      memory that is written in units and erased in sectors, an instance of
      [Device] over the class [FlashChip].
    - Devman (src/newlib/devman.c, stubs.c): the table of devices and the calls
      of the C library that reach them; Genstd (src/newlib/genstd.c): the console
      device, registered in that table; CommonFs (src/common_fs.c): patterns,
      paths and the walk over directory trees, over those calls.
    - The terminal. Term (src/term.c, and the terminal functions of
      src/common.c): bytes of the serial line to key codes; Linenoise
      (src/linenoise.c): the line editor these keys go to.
    - The shell. Shell (src/shell/shell.c): the command line, the table of
      commands and the loop that reads lines with the line editor; ShellFiles
      (the other files of src/shell): the commands, over the walk of CommonFs and
      calls of the C library given by the class [Libc]. ShellSpec has what cp, mv
      and ls do, for any file system with the laws of [CopyLaws] or [TreeFs].
    - Remote calls of Lua functions. Luarpc (src/modules/luarpc.c,
      inc/luarpc_rpc.h, src/luarpc_elua_uart.c): values on a serial line, the
      client that calls functions and gets and sets variables of another Lua, and
      the server; LuarpcSpec has what the two do together. The Lua machine is the
      class [LuaVM], the numbers of a side the class [LuaNumber].
    - Modules of Lua that work on bytes. Bitarray (src/modules/bitarray.c): arrays
      of small integers; Lpack (src/modules/lpack.c): values packed into strings.
      Pio (src/modules/pio.c): pins and ports as numbers and names, and operations
      on groups of them. Uart (src/modules/uart.c, and src/common_uart.c besides the
      multiplexer): reading from and writing to serial ports, with buffers that
      interrupts fill (Buf, Sermux) and timeouts.
      LuaApi has what these and Luarpc share: results and errors of functions
      called from Lua, numbers, and the reversal of bytes in place.
    - TCP sockets. Net (src/elua_uip.c, what src/uip/uip.c does with a connection,
      and the console over telnet, src/newlib/stdtcp.c): the callback of uIP as a
      state machine, and the calls that wait for it, with an environment that says
      what happens to the connections before each look; LuaNet (src/modules/net.c):
      the module net of Lua; NetSpec: what is sent and received.
    - Rotable (src/lua/lrotable.c, and what ltable.c, ltm.c, lvm.c and lbaselib.c of
      Lua do with such tables): the read-only tables in the program's memory that
      modules and metatables are.
    - Adc (src/elua_adc.c, the ADC functions of src/common.c, the driver of
      src/platform/lm3s and src/modules/adc.c): sampling with moving averages.
      AdcSpec has what a request and an interrupt do.
    - Timers (src/common_tmr.c): virtual timers and the system timer; Salloc
      (src/salloc.c): the simple memory allocator; Sermux (src/common_uart.c and
      mux_src/main.c): several serial ports over one line; Xmodem (src/xmodem.c):
      files received over a serial line; Common (src/common.c): free memory, the
      interrupt handler that serves Lua and C, conversions of numbers.

    ** How the code is represented

    State is passed explicitly: a record per component, with the fields of the
    static variables, and one definition per C function that takes the old state
    and returns the new one with the result. A definition of type [option] is
    [None] where the C code has undefined behaviour - an access outside a buffer,
    a null pointer - or does not return. Integers are Z, with the wrap-around of
    their width written out ([u8], [u16], [u32]); bytes are Z as well, buffers
    lists of them. Names are those of the code; what is compiled for one platform
    and not for another is a parameter. What is not in the repository - hardware,
    POSIX, the functions a caller installs - is a parameter, too, and what the
    code relies on is a law in a class or a hypothesis ([FlashChip], [Device],
    [TreeFs], [CopyLaws], [NumberLaws], [NextLaws], the POSIX laws of RfsServer), each
    with a concrete instance the examples run on. The order in which a Lua goes through
    a table is such a parameter ([vm_next] of [LuaVM]): any order of its entries.

    ** What the theorems show

    - Round trips: messages (Eluarpc, Remotefs), files stored and fetched (Romfs,
      and Flash: after a format of real flash memory), bytes through the serial
      multiplexer in both directions (Sermux), files through damaged packets and
      repetitions (Xmodem), Lua values between machines with different byte orders
      and numbers (LuarpcSpec), values packed with a format (Lpack), bytes as an
      array of bits and back (Bitarray), names and codes of pins (Pio),
      addresses (LuaNet).
    - Refinement of a simple specification: queues (Buf, IntQueue), POSIX calls
      and files as byte strings (RfsServer, RfsClient), two strings for the line
      editor (Linenoise, and from the bytes typed: Term), the standard streams
      (Genstd), a depth-first traversal (CommonFs), files routed to the device
      that opened them (Devman), a typed line as a call with its words (Shell), a
      call of a remote function as its call on the server (LuarpcSpec), a bit array
      as a list of numbers (Bitarray), an access through metatables as a relation on
      lists of entries (Rotable), a serial port as a stream of bytes (Uart), a
      TCP socket as a string that arrives (NetSpec).
    - Functional behaviour of every branch: the allocator (Salloc: blocks as a
      list, with the contents of all other blocks unchanged), the console's lines
      (Genstd), requests for samples (Adc), timer matches (Timers), opening files
      (Romfs), registration (Devman), the words of a command line (Shell), files
      copied, moved and listed (ShellSpec).
    - Invariants and types: tables, heaps and timers stay well formed; safety:
      no access outside a buffer, no mixing of replies or buffers, whatever is
      interleaved; termination and liveness: reads and walks end, the multiplexer
      finds its way back after lost bytes.
    - Equivalence: the CRC is the remainder of a polynomial division (Xmodem), the
      search for a device agrees with what a path names (Devman), reading a
      read-only table is looking a key up in a list (Rotable). Which of the names
      that a pattern describes it matches is in CommonFs.
    The Examples of each file show on concrete inputs where the code does not do
    what it means to.

    ** Bounds and fuel

    A loop that is not structural takes fuel, and the theorems give an amount
    that is always enough: the length of an image plus one for a file system, of
    the input for a console or a line editor, the depth of a directory tree or
    the number of its entries ([need]), the number of sectors, 20 digits for 64
    bits, 32 shifts for 32. Where the code can wait for ever, for a byte that
    does not come, [None] stands for it, and the theorem that a call returns says
    what has to arrive.

    ** Not modelled

    Other projects' code: the vendors' libraries of the platforms, dlmalloc,
    FatFs, NIFFS, uIP below a connection's data, and the Lua virtual machine, but for
    what it does with read-only tables. The drivers of the platforms
    (src/platform), which are register accesses - the ADC of the lm3s, which runs
    the code it shares with the others, is modelled - and what only passes calls and
    bytes to code of these two kinds: the SD card drivers and their file system,
    the network's main loop, semihosting, the serial, UDP and Windows transports, the
    POSIX terminal, main.c. The Lua modules (src/modules) other than adc.c,
    bitarray.c, lpack.c, luarpc.c, net.c, pio.c and uart.c: they only move arguments between
    the Lua stack and the functions of other parts.
    Within the modelled files, what only prints messages or chooses a
    configuration is left out, as each file's own comment says.

    ** This file

    Machine words with their wrap-around, decimal numbers, little-endian byte
    strings, byte buffers with checked accesses, C strings, relations closed
    under steps, and the hint databases the other files use. *)

From Stdlib Require Export Ascii.
From stdpp Require Export prelude list gmap strings list_numbers.
From Stdlib Require Export ZArith Lia.

#[global] Set Default Goal Selector "!".
#[global] Open Scope Z_scope.

(** ** Hint databases

    [words]: rewriting with the word lemmas; [mem]: facts on buffers. *)
Create HintDb words.
Create HintDb mem.
Create Rewrite HintDb mem.

(** Settle a decidable goal by evaluating its decision. *)
Ltac by_decide := apply (bool_decide_unpack _); vm_compute; exact I.

(** ** Status codes of inc/platform.h *)
Definition PLATFORM_ERR : Z := 0.
Definition PLATFORM_OK : Z := 1.
Definition PLATFORM_UNDERFLOW : Z := -1.

(** ** C library constants

    The values <fcntl.h> and <unistd.h> give. *)
Record fcntl := Fcntl {
  O_APPEND : Z; O_CREAT : Z; O_EXCL : Z; O_TRUNC : Z; O_SYNC : Z;
  O_RDONLY : Z; O_WRONLY : Z; O_RDWR : Z;
  SEEK_SET : Z; SEEK_CUR : Z; SEEK_END : Z
}.

(** Newlib's, and those of Linux. *)
Definition newlib_fcntl : fcntl := {|
  O_APPEND := 0x8; O_CREAT := 0x200; O_EXCL := 0x800; O_TRUNC := 0x400; O_SYNC := 0x2000;
  O_RDONLY := 0; O_WRONLY := 1; O_RDWR := 2; SEEK_SET := 0; SEEK_CUR := 1; SEEK_END := 2 |}.
Definition linux_fcntl : fcntl := {|
  O_APPEND := 0x400; O_CREAT := 0x40; O_EXCL := 0x80; O_TRUNC := 0x200; O_SYNC := 0x101000;
  O_RDONLY := 0; O_WRONLY := 1; O_RDWR := 2; SEEK_SET := 0; SEEK_CUR := 1; SEEK_END := 2 |}.

(** Values of <errno.h>. *)
Inductive errno := E_OK | ENFILE | EEXIST | EROFS | EACCES | ENOSPC | ENOENT | EINVAL | EBADF
  | ENODEV | ENOSYS | EPERM | EXDEV | ENOMEM.
#[export] Instance errno_eq_dec : EqDecision errno.
Proof. solve_decision. Defined.

(** ** <strings.h>

    Strings are their characters, without the zero byte that ends them. *)

Definition tolower (c : Z) : Z := if (65 <=? c) && (c <=? 90) then c + 32 else c.
(** [strncasecmp( a, b, n ) == 0], on the strings' characters. *)
Fixpoint strncaseeq (n : nat) (a b : list Z) : bool :=
  match n, a, b with
  | O, _, _ => true
  | S n, x :: a, y :: b => (tolower x =? tolower y) && strncaseeq n a b
  | S _, [], [] => true
  | S _, _, _ => false
  end.

(** [strcasecmp( a, b ) == 0]. *)
Fixpoint strcaseeq (a b : list Z) : bool :=
  match a, b with
  | [], [] => true
  | x :: a, y :: b => (tolower x =? tolower y) && strcaseeq a b
  | _, _ => false
  end.
Lemma strcaseeq_spec a b : strcaseeq a b = true <-> map tolower a = map tolower b.
Proof.
  revert b. induction a as [|x a IH]; intros [|y b]; simpl; [done..|].
  rewrite andb_true_iff, Z.eqb_eq, IH. split; [intros [-> ->]; done|intros [=]; done].
Qed.

(** inc/newlib/devman.h: the longest name of a file, on any file system. *)
Definition DM_MAX_FNAME_LENGTH : nat := 30.

(** ** Words *)

(** A [w]-bit unsigned integer is a [Z]; a store to it wraps around. *)
Definition wrap (w x : Z) : Z := x mod 2 ^ w.
Definition u8 (x : Z) : Z := wrap 8 x.
Definition u16 (x : Z) : Z := wrap 16 x.
Definition u32 (x : Z) : Z := wrap 32 x.
Definition u64 (x : Z) : Z := wrap 64 x.

(** A two's complement reading of a word. *)
Definition swrap (w x : Z) : Z :=
  let y := wrap w x in if y <? 2 ^ (w - 1) then y else y - 2 ^ w.
Definition s32 (x : Z) : Z := swrap 32 x.

(** [is_uw w x]: [x] is representable without wrapping. *)
Definition is_u (w x : Z) : Prop := 0 <= x < 2 ^ w.
Definition is_s (w x : Z) : Prop := - 2 ^ (w - 1) <= x < 2 ^ (w - 1).
Abbreviation is_u8 := (is_u 8).
Abbreviation is_u16 := (is_u 16).
Abbreviation is_u32 := (is_u 32).
Abbreviation is_s32 := (is_s 32).

#[export] Instance is_u_dec w x : Decision (is_u w x).
Proof. unfold is_u. apply _. Defined.
#[export] Instance is_s_dec w x : Decision (is_s w x).
Proof. unfold is_s. apply _. Defined.

(** Unfold the word predicates and powers before [lia]. *)
Ltac words :=
  unfold is_u, is_s in *;
  change (2 ^ 8) with 256 in *; change (2 ^ 16) with 65536 in *;
  change (2 ^ 32) with 4294967296 in *;
  change (2 ^ (32 - 1)) with 2147483648 in *; 
  change (2 ^ (16 - 1)) with 32768 in *.
Ltac word_lia := words; first [lia | Z.to_euclidean_division_equations; lia].

Lemma wrap_is_u w x : 0 <= w -> is_u w (wrap w x).
Proof. intros. unfold is_u, wrap. apply Z.mod_pos_bound. lia. Qed.
Lemma wrap_small w x : is_u w x -> wrap w x = x.
Proof. apply Z.mod_small. Qed.
Lemma u8_is_u8 x : is_u8 (u8 x).
Proof. by apply wrap_is_u. Qed.
Lemma u16_is_u16 x : is_u16 (u16 x).
Proof. by apply wrap_is_u. Qed.
Lemma u32_is_u32 x : is_u32 (u32 x).
Proof. by apply wrap_is_u. Qed.
Lemma u8_small x : is_u8 x -> u8 x = x.
Proof. apply wrap_small. Qed.
Lemma u16_small x : is_u16 x -> u16 x = x.
Proof. apply wrap_small. Qed.
Lemma u32_small x : is_u32 x -> u32 x = x.
Proof. apply wrap_small. Qed.

Lemma u8_u8 x : u8 (u8 x) = u8 x.
Proof. apply u8_small, u8_is_u8. Qed.
Lemma u16_u16 x : u16 (u16 x) = u16 x.
Proof. apply u16_small, u16_is_u16. Qed.
Lemma u32_u32 x : u32 (u32 x) = u32 x.
Proof. apply u32_small, u32_is_u32. Qed.

(** Reading back as signed what was written as unsigned, and conversely. *)
Lemma s32_u32 x : is_s32 x -> s32 (u32 x) = x.
Proof.
  intros H. unfold s32, swrap, u32, wrap. rewrite Z.mod_mod by done.
  change (2 ^ 32) with 4294967296. change (2 ^ (32 - 1)) with 2147483648.
  destruct (decide (0 <= x)).
  - rewrite Z.mod_small by word_lia. destruct (Z.ltb_spec x 2147483648); word_lia.
  - replace (x mod 4294967296) with (x + 4294967296).
    + destruct (Z.ltb_spec (x + 4294967296) 2147483648); word_lia.
    + apply (Z.mod_unique _ _ (-1)); word_lia.
Qed.
Lemma swrap_small w x : is_s w x -> 0 < w -> swrap w x = x.
Proof.
  intros [H1 H2] Hw. unfold swrap, wrap. assert (E : 2 ^ w = 2 * 2 ^ (w - 1)) by (rewrite <- Z.pow_succ_r by lia; f_equal; lia).
  destruct (Z.ltb_spec x 0).
  - rewrite <- (Z.mod_add x 1) by lia. rewrite Z.mod_small by lia. rewrite (proj2 (Z.ltb_ge _ _)) by lia. lia.
  - rewrite Z.mod_small by lia. by rewrite (proj2 (Z.ltb_lt _ _)) by lia.
Qed.
Lemma s32_small x : 0 <= x < 2 ^ 31 -> s32 x = x.
Proof.
  intros H. unfold s32, swrap. rewrite wrap_small by (unfold is_u; lia).
  change (2 ^ (32 - 1)) with (2 ^ 31). destruct (Z.ltb_spec x (2 ^ 31)); lia.
Qed.
Lemma u32_s32 x : is_u32 x -> u32 (s32 x) = x.
Proof.
  intros H. unfold s32, swrap, u32. rewrite (wrap_small 32 x) by done.
  destruct (Z.ltb_spec x (2 ^ (32 - 1))); [by apply wrap_small|].
  unfold wrap. symmetry. apply (Z.mod_unique _ _ (-1)); word_lia.
Qed.

(** A decidable fact about a range, or all bytes, by evaluation. *)
Lemma seqZ_forallb (P : Z -> bool) n x : forallb P (seqZ 0 n) = true -> 0 <= x < n -> P x = true.
Proof. intros H Hx. rewrite forallb_forall in H. apply H, list_elem_of_In, elem_of_seqZ. lia. Qed.
Lemma byte_forall (P : Z -> bool) x : forallb P (seqZ 0 256) = true -> is_u8 x -> P x = true.
Proof.
  intros H Hx. rewrite forallb_forall in H. apply H, list_elem_of_In, elem_of_seqZ.
  word_lia.
Qed.

Lemma s32_is_s32 x : is_s32 (s32 x).
Proof.
  unfold s32, swrap. pose proof (wrap_is_u 32 x ltac:(lia)) as H.
  destruct (Z.ltb_spec (wrap 32 x) (2 ^ (32 - 1))); word_lia.
Qed.

#[export] Hint Resolve u8_is_u8 u16_is_u16 u32_is_u32 s32_is_s32 : words.

(** ** Bit operations as arithmetic *)

Lemma land_255 x : Z.land x 255 = x mod 256.
Proof. change 255 with (Z.ones 8). by rewrite Z.land_ones. Qed.
Lemma land_mask x n : 0 <= n -> Z.land x (2 ^ n - 1) = x mod 2 ^ n.
Proof. intros. rewrite <- Z.land_ones by done. by rewrite Z.ones_equiv, Z.sub_1_r. Qed.
Lemma land_shiftl_0 a b n : 0 <= a < 2 ^ n -> Z.land a (Z.shiftl b n) = 0.
Proof.
  intros Ha. apply Z.bits_inj'. intros i Hi. rewrite Z.land_spec, Z.bits_0.
  destruct (decide (i < n)).
  - rewrite Z.shiftl_spec_low by done. by rewrite andb_false_r.
  - destruct (decide (a = 0)) as [->|]; [by rewrite Z.bits_0|].
    rewrite (Z.bits_above_log2 a i); [done|lia|].
    apply Z.log2_lt_pow2; [lia|]. eapply Z.lt_le_trans; [apply Ha|].
    apply Z.pow_le_mono_r; lia.
Qed.
Lemma lor_shiftl_add a b n : 0 <= n -> 0 <= a < 2 ^ n ->
  Z.lor a (Z.shiftl b n) = a + b * 2 ^ n.
Proof.
  intros Hn Ha. pose proof (land_shiftl_0 a b n Ha) as H.
  rewrite <- Z.shiftl_mul_pow2, <- Z.lxor_lor by done.
  symmetry. by apply Z.add_nocarry_lxor.
Qed.

(** ** Little-endian bytes *)

(** The bytes the code writes for a 16 and a 32-bit word, and the word the
    readers assemble from them with shifts and bitwise or. *)
Definition le16 (x : Z) : list Z := [Z.land x 255; Z.land (Z.shiftr x 8) 255].
Definition le32 (x : Z) : list Z :=
  [Z.land x 255; Z.land (Z.shiftr x 8) 255;
   Z.land (Z.shiftr x 16) 255; Z.land (Z.shiftr x 24) 255].
Definition or16 (a b : Z) : Z := Z.lor a (Z.shiftl b 8).
Definition or32 (a b c d : Z) : Z :=
  Z.lor (Z.lor (Z.lor a (Z.shiftl b 8)) (Z.shiftl c 16)) (Z.shiftl d 24).

Lemma or16_add a b : is_u8 a -> or16 a b = a + b * 256.
Proof. intros. unfold or16. rewrite lor_shiftl_add by word_lia. done. Qed.
Lemma or32_add a b c d : is_u8 a -> is_u8 b -> is_u8 c ->
  or32 a b c d = a + b * 256 + c * 65536 + d * 16777216.
Proof.
  intros. unfold or32. rewrite (lor_shiftl_add a) by word_lia.
  rewrite (lor_shiftl_add (a + _)) by word_lia.
  rewrite lor_shiftl_add by (change (2 ^ 24) with 16777216; word_lia). done.
Qed.
Lemma le16_div x : le16 x = [x mod 256; x / 256 mod 256].
Proof. unfold le16. by rewrite !land_255, Z.shiftr_div_pow2. Qed.
Lemma le32_div x :
  le32 x = [x mod 256; x / 256 mod 256; x / 65536 mod 256; x / 16777216 mod 256].
Proof. unfold le32. by rewrite !land_255, !Z.shiftr_div_pow2. Qed.
Lemma le32_bytes x : Forall is_u8 (le32 x).
Proof. rewrite le32_div. repeat (apply Forall_cons; split); [word_lia..|done]. Qed.
Lemma le16_bytes x : Forall is_u8 (le16 x).
Proof. rewrite le16_div. repeat (apply Forall_cons; split); [word_lia..|done]. Qed.

(** A word survives being written and read back. *)
Lemma or16_le16 x : is_u16 x ->
  or16 (Z.land x 255) (Z.land (Z.shiftr x 8) 255) = x.
Proof.
  intros. rewrite !land_255, Z.shiftr_div_pow2 by done.
  rewrite or16_add by word_lia. change (2 ^ 8) with 256. word_lia.
Qed.
Lemma or32_le32 x : is_u32 x ->
  or32 (Z.land x 255) (Z.land (Z.shiftr x 8) 255)
       (Z.land (Z.shiftr x 16) 255) (Z.land (Z.shiftr x 24) 255) = x.
Proof.
  intros. rewrite !land_255, !Z.shiftr_div_pow2 by done.
  rewrite or32_add by word_lia.
  change (2 ^ 8) with 256; change (2 ^ 16) with 65536; change (2 ^ 24) with 16777216.
  word_lia.
Qed.
Lemma or32_is_u32 a b c d : is_u8 a -> is_u8 b -> is_u8 c -> is_u8 d ->
  is_u32 (or32 a b c d).
Proof. intros. rewrite or32_add by done. word_lia. Qed.
Lemma le32_or32 a b c d : is_u8 a -> is_u8 b -> is_u8 c -> is_u8 d ->
  le32 (or32 a b c d) = [a; b; c; d].
Proof. intros. rewrite le32_div, or32_add by done. repeat f_equal; word_lia. Qed.

(** ** Words in memory *)

(** The bytes of an integer from the lowest to the highest, and back; in the
    order a machine stores them. *)
Fixpoint le_bytes (n : nat) (x : Z) : list Z :=
  match n with O => [] | S n => u8 x :: le_bytes n (Z.shiftr x 8) end.
Fixpoint le_value (bs : list Z) : Z := match bs with [] => 0 | b :: bs => b + 256 * le_value bs end.
Definition stored (little : bool) (bs : list Z) : list Z := if little then bs else reverse bs.

Lemma stored_length b (l : list Z) : length (stored b l) = length l.
Proof. unfold stored. destruct b; [done|apply length_reverse]. Qed.
Lemma stored_bytes b l : Forall is_u8 l -> Forall is_u8 (stored b l).
Proof. unfold stored. destruct b; [done|]. by apply Forall_reverse. Qed.
Lemma le_bytes_length n : forall x, length (le_bytes n x) = n.
Proof. induction n as [|n IH]; intros x; [done|]. cbn. by rewrite IH. Qed.
Lemma le_bytes_u8 n : forall x, Forall is_u8 (le_bytes n x).
Proof. induction n as [|n IH]; intros x; cbn; constructor; [apply u8_is_u8|apply IH]. Qed.
Lemma le_value_bytes n : forall x, le_value (le_bytes n x) = wrap (8 * Z.of_nat n) x.
Proof.
  induction n as [|n IH]; intros x; cbn [le_bytes le_value]; [by rewrite Z.mul_0_r; unfold wrap; rewrite Z.mod_1_r|].
  rewrite IH. unfold u8, wrap. rewrite Z.shiftr_div_pow2 by lia. change (2 ^ 8) with 256.
  replace (2 ^ (8 * Z.of_nat (S n))) with (256 * 2 ^ (8 * Z.of_nat n)).
  - rewrite Z.rem_mul_r by lia. done.
  - replace (8 * Z.of_nat (S n)) with (8 + 8 * Z.of_nat n) by lia. rewrite Z.pow_add_r by lia. done.
Qed.
Lemma le_value_bound bs : Forall is_u8 bs -> 0 <= le_value bs < 2 ^ (8 * Z.of_nat (length bs)).
Proof.
  induction 1 as [|b bs Hb _ IH]; cbn [le_value length]; [done|].
  replace (8 * Z.of_nat (S (length bs))) with (8 + 8 * Z.of_nat (length bs)) by lia. rewrite Z.pow_add_r by lia.
  change (2 ^ 8) with 256. destruct Hb as [? Hb]. change (2 ^ 8) with 256 in Hb. nia.
Qed.

(** ** Decimal numbers

    What [printf] writes for "%u". *)
Fixpoint dec_digits (fuel : nat) (x : Z) (acc : list Z) : list Z :=
  match fuel with
  | O => acc
  | S fuel => let acc := (48 + x mod 10) :: acc in if x / 10 =? 0 then acc else dec_digits fuel (x / 10) acc
  end.
(** Twenty digits are enough for 64 bits. *)
Definition decimal (x : Z) : list Z := dec_digits 20 x [].
Definition dec_value (ds : list Z) : Z := foldl (fun v d => 10 * v + (d - 48)) 0 ds.
Definition is_digit (c : Z) : Prop := 48 <= c <= 57.

Lemma dec_digits_ok fuel : forall x acc, 0 <= x < 10 ^ Z.of_nat fuel -> (0 < fuel)%nat ->
  exists ds, dec_digits fuel x acc = ds ++ acc /\ dec_value ds = x /\ Forall is_digit ds /\ ds <> [] /\
    (length ds <= fuel)%nat.
Proof.
  unfold is_digit. induction fuel as [|fuel IH]; intros x acc Hx Hf; [lia|]. cbn [dec_digits].
  pose proof (Z.div_mod x 10 ltac:(lia)) as Hd. pose proof (Z.mod_pos_bound x 10 ltac:(lia)).
  destruct (Z.eqb_spec (x / 10) 0) as [E|E].
  - exists [48 + x mod 10]. split; [done|]. split; [unfold dec_value; simpl; lia|].
    split; [apply Forall_singleton; lia|]. split; [done|simpl; lia].
  - assert (0 <= x / 10 < 10 ^ Z.of_nat fuel).
    { split; [apply Z.div_pos; lia|]. apply Z.div_lt_upper_bound; [lia|].
      rewrite <- Z.pow_succ_r by lia. replace (Z.succ (Z.of_nat fuel)) with (Z.of_nat (S fuel)) by lia. lia. }
    assert (0 < fuel)%nat by (destruct fuel; [simpl in *; lia|lia]).
    destruct (IH (x / 10) ((48 + x mod 10) :: acc)) as (ds & -> & Hv & Hds & _ & Hlen); [done|done|].
    exists (ds ++ [48 + x mod 10]). rewrite <- app_assoc. split; [done|]. unfold dec_value in *.
    rewrite foldl_app, Hv. split; [simpl; lia|]. split; [apply Forall_app; split; [done|apply Forall_singleton; lia]|].
    split; [by destruct ds|]. rewrite length_app. simpl. lia.
Qed.
Lemma decimal_ok x : 0 <= x < 2 ^ 64 ->
  dec_value (decimal x) = x /\ Forall is_digit (decimal x) /\ decimal x <> [].
Proof.
  intros Hx. destruct (dec_digits_ok 20 x []) as (ds & E & H); [change (Z.of_nat 20) with 20; lia|lia|].
  unfold decimal. rewrite E, app_nil_r. tauto.
Qed.

(** ** Byte buffers

    A C array of bytes is a list; [load] and [store] check the index. *)
Definition load (m : list Z) (p : nat) : option Z := m !! p.
Definition store (m : list Z) (p : nat) (v : Z) : option (list Z) :=
  if decide (p < length m)%nat then Some (<[p := u8 v]> m) else None.
(** [memcpy( m + p, vs, length vs )] *)
Fixpoint stores (m : list Z) (p : nat) (vs : list Z) : option (list Z) :=
  match vs with
  | [] => Some m
  | v :: vs => store m p v ≫= λ m', stores m' (S p) vs
  end.
(** [memcpy( dest, m + p, n )] *)
Definition loads (m : list Z) (p n : nat) : option (list Z) :=
  if decide (p + n <= length m)%nat then Some (take n (drop p m)) else None.

(** The buffer after a copy that stays inside it. *)
Definition splice (m : list Z) (p : nat) (vs : list Z) : list Z :=
  take p m ++ vs ++ drop (p + length vs) m.

Lemma splice_nil m p : (p <= length m)%nat -> splice m p [] = m.
Proof.
  intros. unfold splice. simpl. replace (p + 0)%nat with p by lia. apply take_drop.
Qed.
Lemma length_splice m p vs : (p + length vs <= length m)%nat ->
  length (splice m p vs) = length m.
Proof. intros. unfold splice. rewrite !length_app, length_take, length_drop. lia. Qed.
Lemma splice_insert m p v vs : (p + S (length vs) <= length m)%nat ->
  splice (<[p := v]> m) (S p) vs = splice m p (v :: vs).
Proof.
  intros H. unfold splice. simpl. rewrite drop_insert_lt by lia.
  replace (p + S (length vs))%nat with (S (p + length vs)) by lia.
  rewrite (take_S_r _ p v); [|apply list_lookup_insert_eq; lia].
  rewrite take_insert_ge by lia. by rewrite <- app_assoc.
Qed.
Lemma stores_splice m p vs : Forall is_u8 vs -> (p + length vs <= length m)%nat ->
  stores m p vs = Some (splice m p vs).
Proof.
  revert m p. induction vs as [|v vs IH]; intros m p Hb Hl; simpl in *.
  - by rewrite splice_nil by lia.
  - apply Forall_cons in Hb as [Hv Hb]. unfold store. rewrite decide_True by lia.
    simpl. rewrite IH; [|done|rewrite length_insert; lia].
    by rewrite u8_small, splice_insert by (done || lia).
Qed.
Lemma stores_app m p vs ws :
  stores m p (vs ++ ws) = stores m p vs ≫= λ m', stores m' (p + length vs) ws.
Proof.
  revert m p. induction vs as [|v vs IH]; intros m p; simpl.
  - by rewrite Nat.add_0_r.
  - destruct (store m p v); simpl; [|done]. rewrite IH.
    by rewrite Nat.add_succ_r.
Qed.
Lemma length_stores m p vs m' : stores m p vs = Some m' -> length m' = length m.
Proof.
  revert m p. induction vs as [|v vs IH]; intros m p; simpl; [by intros [= ->]|].
  unfold store. case_decide; simpl; [|done].
  intros ->%IH. apply length_insert.
Qed.
Lemma splice_app m p vs ws : (p + length (vs ++ ws) <= length m)%nat ->
  splice (splice m p vs) (p + length vs) ws = splice m p (vs ++ ws).
Proof.
  rewrite length_app. intros H. unfold splice.
  assert (Hl : length (take p m ++ vs) = (p + length vs)%nat)
    by (rewrite length_app, length_take; lia).
  rewrite (app_assoc (take p m) vs), take_app_length' by done.
  rewrite drop_app_ge by lia. rewrite Hl, drop_drop, length_app, <- !app_assoc.
  do 4 f_equal. lia.
Qed.
Lemma lookup_splice_old m p vs i : (p + length vs <= length m)%nat ->
  (i < p \/ p + length vs <= i)%nat -> splice m p vs !! i = m !! i.
Proof.
  intros Hl Hi. unfold splice. destruct (decide (i < p)%nat).
  - rewrite lookup_app_l by (rewrite length_take; lia). by apply lookup_take_lt.
  - rewrite !lookup_app_r by (rewrite ?length_take; lia). rewrite lookup_drop.
    f_equal. rewrite length_take. lia.
Qed.
Lemma lookup_splice_new m p vs i : (p + length vs <= length m)%nat ->
  (p <= i < p + length vs)%nat -> splice m p vs !! i = vs !! (i - p)%nat.
Proof.
  intros Hl Hi. unfold splice. rewrite lookup_app_r by (rewrite length_take; lia).
  rewrite lookup_app_l by (rewrite length_take; lia). f_equal. rewrite length_take. lia.
Qed.
#[export] Hint Rewrite length_splice using lia : mem.

(** ** Patches

    What a sequence of stores does to a buffer, with the bytes it skips:
    [Some b] is a byte written, [None] a byte left as it was. *)
Abbreviation patch := (list (option Z)).

(** [patched m p a m']: [m'] is [m] with the patch [a] applied at [p]. *)
Definition patched (m : list Z) (p : nat) (a : patch) (m' : list Z) : Prop :=
  length m' = length m /\
  forall i, m' !! i = if decide (p <= i)%nat
                      then default (m !! i) (Some <$> mjoin (a !! (i - p)%nat))
                      else m !! i.

(** [holds m p a]: the buffer [m] has at [p] the bytes the patch names. *)
Definition holds (m : list Z) (p : nat) (a : patch) : Prop :=
  (p + length a <= length m)%nat /\
  forall i b, a !! i = Some (Some b) -> m !! (p + i)%nat = Some b.

Lemma patched_holds m p a m' : (p + length a <= length m)%nat ->
  patched m p a m' -> holds m' p a.
Proof.
  intros Hl [Hlen Hi]. split; [lia|]. intros i b Hb. rewrite Hi, decide_True by lia.
  by replace (p + i - p)%nat with i by lia; rewrite Hb.
Qed.
Lemma holds_patched m p a : holds m p a -> patched m p a m.
Proof.
  intros [_ Hi]. split; [done|]. intros i. case_decide; [|done].
  destruct (a !! (i - p)%nat) as [[b|]|] eqn:E; [|done..].
  apply Hi in E. by replace (p + (i - p))%nat with i in E by lia.
Qed.
Lemma patched_nil m p : patched m p [] m.
Proof. split; [done|]. intros i. by case_decide. Qed.
Lemma patched_app m p a b m1 m2 : patched m p a m1 ->
  patched m1 (p + length a) b m2 -> patched m p (a ++ b) m2.
Proof.
  intros [Hl1 H1] [Hl2 H2]. split; [lia|]. intros i. rewrite H2.
  destruct (decide (p + length a <= i)%nat).
  - rewrite decide_True by lia. rewrite lookup_app_r by lia.
    replace (i - p - length a)%nat with (i - (p + length a))%nat by lia.
    destruct (mjoin _); simpl; [done|]. rewrite H1, decide_True by lia.
    by rewrite (lookup_ge_None_2 a) by lia.
  - rewrite H1. case_decide; [|done]. by rewrite lookup_app_l by lia.
Qed.
(** A later patch may go back to where the first one left a hole. *)
Lemma patched_over m p a b c m1 m2 : length b = length a ->
  Forall (λ x, x = None) a ->
  patched m p (a ++ c) m1 -> patched m1 p b m2 -> patched m p (b ++ c) m2.
Proof.
  intros Hab Ha [Hl1 H1] [Hl2 H2]. split; [lia|]. intros i. rewrite H2, H1.
  destruct (decide (p <= i)%nat); [|done].
  destruct (decide (i - p < length b)%nat).
  - rewrite !lookup_app_l by lia. destruct (b !! (i - p)%nat) as [[x|]|] eqn:E;
      [done| |apply lookup_ge_None in E; lia]. simpl.
    destruct (a !! (i - p)%nat) as [y|] eqn:Ea; [|done].
    rewrite Forall_lookup in Ha. apply Ha in Ea as ->. done.
  - rewrite (lookup_ge_None_2 b) by lia. simpl. rewrite !lookup_app_r by lia.
    by rewrite Hab.
Qed.
Lemma patched_store m p v : is_u8 v -> (p < length m)%nat ->
  patched m p [Some v] (<[p := v]> m).
Proof.
  intros Hv Hp. split; [apply length_insert|]. intros i. case_decide.
  - destruct (decide (i = p)) as [->|].
    + by rewrite Nat.sub_diag, list_lookup_insert_eq.
    + rewrite list_lookup_insert_ne by done. rewrite (lookup_ge_None_2 [_]); [done|].
      simpl. lia.
  - by rewrite list_lookup_insert_ne by lia.
Qed.
Lemma patched_skip m p n : patched m p (replicate n None) m.
Proof.
  split; [done|]. intros i. case_decide; [|done].
  destruct (replicate n None !! _) as [x|] eqn:E; [|done].
  by apply lookup_replicate in E as [-> _].
Qed.
Lemma patched_splice m p vs : (p + length vs <= length m)%nat ->
  patched m p (Some <$> vs) (splice m p vs).
Proof.
  intros Hl. split; [by apply length_splice|]. intros i. rewrite list_lookup_fmap.
  destruct (decide (p <= i)%nat).
  - destruct (decide (i < p + length vs)%nat).
    + rewrite lookup_splice_new by lia.
      destruct (vs !! _) eqn:E; [done|]. apply lookup_ge_None in E. lia.
    + rewrite lookup_splice_old by lia. by rewrite (lookup_ge_None_2 vs) by lia.
  - by rewrite lookup_splice_old by lia.
Qed.
Lemma holds_app m p a b : holds m p (a ++ b) <->
  holds m p a /\ holds m (p + length a) b.
Proof.
  unfold holds. rewrite length_app. split.
  - intros [Hl Hi]. split_and!; [lia| |lia|].
    + intros i x Hx. apply Hi. by apply lookup_app_l_Some.
    + intros i x Hx. replace (p + length a + i)%nat with (p + (length a + i))%nat by lia.
      apply Hi. rewrite lookup_app_r by lia.
      by replace (length a + i - length a)%nat with i by lia.
  - intros [[Hl1 H1] [Hl2 H2]]. split; [lia|]. intros i x Hx.
    apply lookup_app_Some in Hx as [Hx|[Hge Hx]]; [by apply H1|].
    replace (p + i)%nat with (p + length a + (i - length a))%nat by lia. by apply H2.
Qed.
Lemma holds_cons m p v a : holds m p (Some v :: a) <->
  m !! p = Some v /\ holds m (S p) a.
Proof.
  change (Some v :: a) with ([Some v] ++ a). rewrite holds_app. simpl.
  rewrite Nat.add_1_r. split; intros [H1 H2]; (split; [|done]).
  - destruct H1 as [_ H1]. specialize (H1 0%nat v eq_refl). by rewrite Nat.add_0_r in H1.
  - split; [simpl; apply lookup_lt_Some in H1; lia|]. intros [|i] b; simpl; [|done].
    intros [= ->]. by rewrite Nat.add_0_r.
Qed.
Lemma holds_nil m p : holds m p [] <-> (p <= length m)%nat.
Proof. unfold holds. simpl. split; [lia|]. intros. split; [lia|done]. Qed.
Lemma holds_skip m p n : holds m p (replicate n None) <-> (p + n <= length m)%nat.
Proof.
  unfold holds. rewrite length_replicate. split; [tauto|]. intros. split; [done|].
  intros i b [? _]%lookup_replicate. done.
Qed.
Lemma holds_loads m p vs : holds m p (Some <$> vs) <-> loads m p (length vs) = Some vs.
Proof.
  unfold holds, loads. rewrite length_fmap. split.
  - intros [Hl Hi]. rewrite decide_True by done. f_equal. apply list_eq. intros i.
    destruct (decide (i < length vs)%nat).
    + rewrite lookup_take_lt, lookup_drop by done.
      destruct (vs !! i) eqn:E; [|apply lookup_ge_None in E; lia].
      apply Hi. by rewrite list_lookup_fmap, E.
    + rewrite !lookup_ge_None_2; [done|lia|rewrite length_take; lia].
  - case_decide as Hl; [|done]. intros [= H]. split; [done|]. intros i b.
    rewrite list_lookup_fmap. destruct (vs !! i) eqn:E; simpl; [|done].
    intros [= ->]. rewrite <- H in E. apply lookup_take_Some in E as [E _].
    by rewrite lookup_drop in E.
Qed.
(** [holds], by evaluation. *)
Fixpoint holdsb (l : list Z) (a : patch) : bool :=
  match a, l with
  | [], _ => true
  | None :: a, _ :: l => holdsb l a
  | Some b :: a, x :: l => (x =? b) && holdsb l a
  | _ :: _, [] => false
  end.
Lemma holdsb_holds m p a : (p <= length m)%nat -> holdsb (drop p m) a = true -> holds m p a.
Proof.
  revert p. induction a as [|o a IH]; intros p Hp; [by rewrite holds_nil|].
  destruct (drop p m) as [|x l] eqn:E; [by destruct o|].
  assert (m !! p = Some x) as Hx by (rewrite <- (Nat.add_0_r p), <- lookup_drop, E; done).
  assert (drop (S p) m = l) as Hl by (rewrite <- Nat.add_1_r, <- drop_drop, E; reflexivity).
  apply lookup_lt_Some in Hx as Hlt.
  destruct o as [b|]; simpl.
  - intros [Hb%Z.eqb_eq Ha]%andb_true_iff. subst. apply holds_cons. split; [done|].
    apply IH; [lia|done].
  - intros Ha. change (None :: a) with (replicate 1 None ++ a). apply holds_app. split.
    + apply holds_skip. lia.
    + rewrite length_replicate, Nat.add_1_r. apply IH; [lia|by rewrite Hl].
Qed.
(** The bytes alone, without the bound. *)
Definition agrees (m : list Z) (p : nat) (a : patch) : Prop :=
  forall i b, a !! i = Some (Some b) -> m !! (p + i)%nat = Some b.
Lemma agrees_nil m p : agrees m p [].
Proof. intros i b. by rewrite lookup_nil. Qed.
Lemma agrees_cons m p v a : m !! p = Some v -> agrees m (S p) a -> agrees m p (Some v :: a).
Proof.
  intros H1 H2 [|i] b; simpl; [intros [= ->]; by rewrite Nat.add_0_r|].
  intros Hb. rewrite Nat.add_succ_r. by apply H2.
Qed.
Lemma agrees_app m p a b : agrees m p a -> agrees m (p + length a) b -> agrees m p (a ++ b).
Proof.
  intros Ha Hb i x [Hx|[Hge Hx]]%lookup_app_Some; [by apply Ha|].
  replace (p + i)%nat with (p + length a + (i - length a))%nat by lia. by apply Hb.
Qed.
Lemma agrees_skip m p n : agrees m p (replicate n None).
Proof. by intros i b [? _]%lookup_replicate. Qed.
(** A patch of bytes keeps a buffer of bytes one. *)
Definition patch_ok (a : patch) : Prop := Forall (from_option is_u8 True) a.
Lemma patch_ok_fmap vs : Forall is_u8 vs -> patch_ok (Some <$> vs).
Proof. intros H. by apply Forall_fmap. Qed.
Lemma patch_ok_skip n : patch_ok (replicate n None).
Proof. by apply Forall_replicate. Qed.
Lemma patch_ok_app a b : patch_ok a -> patch_ok b -> patch_ok (a ++ b).
Proof. intros. by apply Forall_app. Qed.
Lemma patched_bytes m p a m' : patched m p a m' -> patch_ok a ->
  Forall is_u8 m -> Forall is_u8 m'.
Proof.
  intros [_ Hi] Ha Hm. apply Forall_lookup. intros i x. rewrite Hi.
  assert (m !! i = Some x -> is_u8 x) as Hmi by (intros; by eapply Forall_lookup_1).
  case_decide; [|done]. destruct (a !! (i - p)%nat) as [[b|]|] eqn:E; [|done..].
  simpl. intros [= <-]. by apply (Forall_lookup_1 _ _ _ _ Ha) in E.
Qed.
Lemma splice_bytes m p vs : Forall is_u8 m -> Forall is_u8 vs -> Forall is_u8 (splice m p vs).
Proof.
  intros Hm Hv. unfold splice. apply Forall_app. split; [by apply Forall_take|].
  apply Forall_app. split; [done|by apply Forall_drop].
Qed.
#[export] Hint Resolve patch_ok_skip patch_ok_app patched_bytes splice_bytes : mem.
#[export] Hint Resolve agrees_nil agrees_skip agrees_cons : mem.

(** ** C strings *)

(** A C string is the list of its characters; in memory a zero follows. *)
Definition cstr (s : list Z) : list Z := s ++ [0].
(** The characters of a text of the program. *)
Definition lit (s : string) : list Z := (fun c => Z.of_nat (nat_of_ascii c)) <$> String.list_ascii_of_string s.
Definition strlen (s : list Z) : Z := Z.of_nat (length s).
Definition is_cstr (s : list Z) : Prop := Forall (λ c, is_u8 c /\ c <> 0) s.
#[export] Instance is_cstr_dec s : Decision (is_cstr s).
Proof. unfold is_cstr. apply _. Defined.

(** The length of the C string at [p]: where the first zero is. *)
Fixpoint str_scan (l : list Z) : option (list Z) :=
  match l with
  | [] => None
  | c :: l => if decide (c = 0) then Some [] else cons c <$> str_scan l
  end.
(** The C string the pointer [p] into [m] points to. *)
Definition str_at (m : list Z) (p : nat) : option (list Z) := str_scan (drop p m).

Lemma str_scan_cstr s l : is_cstr s -> str_scan (cstr s ++ l) = Some s.
Proof.
  unfold cstr. induction 1 as [|c s [_ Hc] _ IH]; simpl; [done|].
  rewrite decide_False by done. by rewrite IH.
Qed.
Lemma length_cstr s : length (cstr s) = S (length s).
Proof. unfold cstr. rewrite length_app. simpl. lia. Qed.
Lemma cstr_bytes s : is_cstr s -> Forall is_u8 (cstr s).
Proof.
  intros H. apply Forall_app. split; [|by repeat constructor].
  eapply Forall_impl; [done|]. by intros c [? _].
Qed.
Lemma str_at_loads m p s : is_cstr s -> loads m p (length (cstr s)) = Some (cstr s) ->
  str_at m p = Some s.
Proof.
  intros Hs. unfold loads, str_at. case_decide; [|done]. intros [= Ht].
  rewrite <- (take_drop (length (cstr s)) (drop p m)), Ht. by apply str_scan_cstr.
Qed.

(** ** A state monad with failure

    Code that threads a state and may run into undefined behaviour. *)
Definition M (S A : Type) : Type := S -> option (A * S).
#[export] Instance M_ret S : MRet (M S) := λ A a s, Some (a, s).
#[export] Instance M_bind S : MBind (M S) := λ A B k c s,
  match c s with Some (a, s') => k a s' | None => None end.
Lemma M_bind_run {S A B} (c : M S A) (k : A -> M S B) s a s' :
  c s = Some (a, s') -> (c ≫= k) s = k a s'.
Proof. unfold mbind, M_bind. by intros ->. Qed.
