(* ===== verification/Eluarpc.v ===== *)
(** * Eluarpc: the packet layer of the remote procedure calls

    Models src/src/eluarpc.c (with the constants of src/inc/eluarpc.h and
    src/inc/rtype.h): the typed writers and readers, the packet framing and
    the printf-like [eluarpc_gen_write] / [eluarpc_gen_read].

    A packet buffer is a byte list; a pointer into it is an offset.  An
    access outside the buffer makes the whole operation [None].  The static
    [eluarpc_packet_ptr] is part of the writer's state and the static
    [eluarpc_err_flag] of the reader's. *)

From S2P Require Import Prelude.

(** ** Constants *)

Definition PACKET_SIG : Z := 0x18AFC284.
Definition ELUARPC_OK : Z := 0.
Definition ELUARPC_ERR : Z := 1.
Definition ELUARPC_OP_RES_MOD : Z := 0x80.
Definition ELUARPC_START_OFFSET : nat := 4.
Definition ELUARPC_START_SIZE : nat := 6.
Definition ELUARPC_END_SIZE : nat := 6.
Definition ELUARPC_RESPONSE_SIZE : nat := 1.
Definition ELUARPC_PTR_HEADER_SIZE : nat := 6.
Definition ELUARPC_SMALL_PTR_HEADER_SIZE : nat := 4.
Definition ELUARPC_U32_SIZE : nat := 5.
Definition ELUARPC_OP_ID_SIZE : nat := 2.
Definition ELUARPC_READ_BUF_OFFSET : nat :=
  ELUARPC_START_OFFSET + ELUARPC_START_SIZE + ELUARPC_RESPONSE_SIZE
  + ELUARPC_PTR_HEADER_SIZE.
Definition ELUARPC_WRITE_REQUEST_EXTRA : nat :=
  ELUARPC_START_OFFSET + ELUARPC_START_SIZE + ELUARPC_OP_ID_SIZE
  + ELUARPC_U32_SIZE + ELUARPC_PTR_HEADER_SIZE + ELUARPC_END_SIZE.

Definition TYPE_INT_8 : Z := 0x01.
Definition TYPE_INT_16 : Z := 0x02.
Definition TYPE_INT_32 : Z := 0x03.
Definition TYPE_PTR : Z := 0x04.
Definition TYPE_START : Z := 0x05.
Definition TYPE_END : Z := 0x06.
Definition TYPE_OP_ID : Z := 0x07.
Definition TYPE_SMALL_PTR : Z := 0x08.
Definition TYPE_PKT_SIZE : Z := 0xA5.

(** ** Serialization *)

(** The writer's state: the buffer, the moving pointer [p] and the static
    [eluarpc_packet_ptr]. *)
Record wst := WSt { w_mem : list Z; w_p : nat; w_packet_ptr : nat }.
Definition W : Type := M wst ().

(** [*p ++ = v] *)
Definition emit (v : Z) : W := λ s,
  m' ← store (w_mem s) (w_p s) v; Some (tt, WSt m' (S (w_p s)) (w_packet_ptr s)).

(** [if( src ) memcpy( p, src, srclen ); return p + srclen]; a [src] shorter
    than [srclen] is read past its end. *)
Definition emit_mem (src : option (list Z)) (srclen : Z) : W := λ s,
  let n := Z.to_nat srclen in
  m' ← match src with
       | Some d => if decide (n <= length d)%nat
                   then stores (w_mem s) (w_p s) (take n d) else None
       | None => Some (w_mem s)
       end;
  Some (tt, WSt m' (w_p s + n)%nat (w_packet_ptr s)).

Definition eluarpc_write_u8 (fdata : Z) : W := emit TYPE_INT_8;; emit fdata.

Definition eluarpc_write_op_id (fdata : Z) : W := emit TYPE_OP_ID;; emit fdata.

Definition eluarpc_write_u16 (fdata : Z) : W :=
  emit TYPE_INT_16;;
  emit (Z.land fdata 0xFF);;
  emit (Z.land (Z.shiftr fdata 8) 0xFF).

Definition eluarpc_write_u32 (fdata : Z) : W :=
  emit TYPE_INT_32;;
  emit (Z.land fdata 0xFF);;
  emit (Z.land (Z.shiftr fdata 8) 0xFF);;
  emit (Z.land (Z.shiftr fdata 16) 0xFF);;
  emit (Z.land (Z.shiftr fdata 24) 0xFF).

Definition eluarpc_write_ptr (src : option (list Z)) (srclen : Z) : W :=
  emit TYPE_PTR;; eluarpc_write_u32 srclen;; emit_mem src srclen.

Definition eluarpc_write_small_ptr (src : option (list Z)) (srclen : Z) : W :=
  emit TYPE_SMALL_PTR;; eluarpc_write_u16 srclen;; emit_mem src srclen.

(** [eluarpc_packet_ptr = p; p += ELUARPC_START_OFFSET] *)
Definition set_packet_ptr : W := λ s,
  Some (tt, WSt (w_mem s) (w_p s + ELUARPC_START_OFFSET)%nat (w_p s)).

Definition eluarpc_start_packet : W :=
  set_packet_ptr;; emit TYPE_START;; eluarpc_write_u32 PACKET_SIG.

(** [len = p - eluarpc_packet_ptr; p = eluarpc_packet_ptr; ...] with the
    16-bit [len]. *)
Definition write_packet_size : W := λ s,
  let len := u16 (Z.of_nat (w_p s) - Z.of_nat (w_packet_ptr s)) in
  (emit TYPE_PKT_SIZE;; eluarpc_write_u16 len)
    (WSt (w_mem s) (w_packet_ptr s) (w_packet_ptr s)).

Definition eluarpc_end_packet : W :=
  emit TYPE_END;; eluarpc_write_u32 (u32 (Z.lnot PACKET_SIG));; write_packet_size.

(** The variable arguments of a write: integers and data pointers. *)
Inductive va_w := WInt (z : Z) | WPtr (src : option (list Z)).

(** The loop of [eluarpc_gen_write] over the format; a character that is no
    specifier is skipped, and a missing or ill-typed argument is undefined. *)
Fixpoint gen_write_loop (fmt : string) (ap : list va_w) : W :=
  match fmt with
  | EmptyString => mret tt
  | String c fmt =>
      if decide (c = "o"%char) then
        match ap with WInt z :: ap => eluarpc_write_op_id (u8 z);; gen_write_loop fmt ap
        | _ => λ _, None end
      else if decide (c = "r"%char) then
        match ap with
        | WInt z :: ap => emit (Z.lor ELUARPC_OP_RES_MOD (u8 z));; gen_write_loop fmt ap
        | _ => λ _, None end
      else if decide (c = "c"%char) then
        match ap with WInt z :: ap => eluarpc_write_u8 (u8 z);; gen_write_loop fmt ap
        | _ => λ _, None end
      else if decide (c = "h"%char) then
        match ap with WInt z :: ap => eluarpc_write_u16 (u16 z);; gen_write_loop fmt ap
        | _ => λ _, None end
      else if decide (c = "i"%char \/ c = "l"%char \/ c = "L"%char) then
        match ap with WInt z :: ap => eluarpc_write_u32 (u32 z);; gen_write_loop fmt ap
        | _ => λ _, None end
      else if decide (c = "p"%char) then
        match ap with
        | WPtr src :: WInt n :: ap => eluarpc_write_ptr src (u32 n);; gen_write_loop fmt ap
        | _ => λ _, None end
      else if decide (c = "P"%char) then
        match ap with
        | WPtr src :: WInt n :: ap =>
            eluarpc_write_small_ptr src (u16 n);; gen_write_loop fmt ap
        | _ => λ _, None end
      else gen_write_loop fmt ap
  end.

Definition eluarpc_gen_write (m : list Z) (p : nat) (fmt : string) (ap : list va_w)
  : option (list Z) :=
  '(_, s) ← (eluarpc_start_packet;; gen_write_loop fmt ap;; eluarpc_end_packet) (WSt m p 0);
  Some (w_mem s).

(** ** Deserialization *)

(** The reader's state: the moving pointer and the static
    [eluarpc_err_flag]. The buffer is only read. *)
Record rst := RSt { r_p : nat; r_err : Z }.

(** What a read returns through its pointer arguments: integers, and
    pointers into the packet ([None] for [NULL]). *)
Inductive rval := OInt (z : Z) | OPtr (q : option nat).

(** The arguments of a read: the expected integer of ['o'] and ['r'], a
    pointer where the result goes, or [NULL] in its place. *)
Inductive va_r := RInt (z : Z) | ROut | RNull.

Section Reader.
Variable m : list Z.
Let R (A : Type) : Type := M rst A.

(** [*p ++] *)
Definition fetch : R Z := λ s,
  b ← load m (r_p s); Some (b, RSt (S (r_p s)) (r_err s)).

(** [if( cond ) eluarpc_err_flag = ELUARPC_ERR] *)
Definition err_if (cond : bool) : R () := λ s,
  Some (tt, if cond then RSt (r_p s) ELUARPC_ERR else s).

Definition get_p : R nat := λ s, Some (r_p s, s).
Definition set_p (q : nat) : R () := λ s, Some (tt, RSt q (r_err s)).

Definition eluarpc_read_expect (fdata : Z) : R () :=
  b ← fetch; err_if (negb (b =? fdata)).

Definition eluarpc_read_u8 : R Z := eluarpc_read_expect TYPE_INT_8;; fetch.

Definition eluarpc_read_op_id : R Z := eluarpc_read_expect TYPE_OP_ID;; fetch.

Definition eluarpc_expect_op_id (id : Z) : R () :=
  eluarpc_read_expect TYPE_OP_ID;;
  temp ← fetch;
  err_if (negb (temp =? id)).

Definition eluarpc_read_u16 : R Z :=
  eluarpc_read_expect TYPE_INT_16;;
  b0 ← fetch; b1 ← fetch;
  mret (or16 b0 b1).

Definition eluarpc_read_u32 : R Z :=
  eluarpc_read_expect TYPE_INT_32;;
  b0 ← fetch; b1 ← fetch; b2 ← fetch; b3 ← fetch;
  mret (or32 b0 b1 b2 b3).

(** Both readers of data blocks are called with a [NULL] destination only:
    they return the length and move the pointer past the data. *)
Definition eluarpc_read_ptr : R Z :=
  eluarpc_read_expect TYPE_PTR;;
  len ← eluarpc_read_u32;
  p ← get_p;
  set_p (p + Z.to_nat len)%nat;;
  mret len.

Definition eluarpc_read_small_ptr : R Z :=
  eluarpc_read_expect TYPE_SMALL_PTR;;
  len ← eluarpc_read_u16;
  p ← get_p;
  set_p (p + Z.to_nat len)%nat;;
  mret len.

Definition eluarpc_match_packet_start : R () :=
  p ← get_p;
  set_p (p + ELUARPC_START_OFFSET)%nat;;
  eluarpc_read_expect TYPE_START;;
  fdata ← eluarpc_read_u32;
  err_if (negb (fdata =? PACKET_SIG)).

Definition eluarpc_match_packet_end : R () :=
  eluarpc_read_expect TYPE_END;;
  fdata ← eluarpc_read_u32;
  err_if (negb (fdata =? u32 (Z.lnot PACKET_SIG))).

(** The ['p'] and ['P'] cases: the pointer to the data is [NULL] when the
    block is empty, and the length is returned only if asked for. *)
Definition read_block (read : R Z) (header : nat) (want : bool) : R (list rval) :=
  tempptr ← get_p;
  len ← read;
  p ← get_p;
  let q := if decide (p = tempptr + header)%nat then None else Some (tempptr + header)%nat in
  mret (OPtr q :: if want then [OInt len] else []).

(** The loop of [eluarpc_gen_read]: the values it stores, in order. *)
Fixpoint gen_read_loop (fmt : string) (ap : list va_r) : R (list rval) :=
  match fmt with
  | EmptyString => mret []
  | String c fmt =>
      if decide (c = "o"%char) then
        match ap with
        | RInt z :: ap => eluarpc_expect_op_id (u8 z);; gen_read_loop fmt ap
        | _ => λ _, None end
      else if decide (c = "r"%char) then
        match ap with
        | RInt z :: ap =>
            eluarpc_read_expect (Z.lor ELUARPC_OP_RES_MOD (u8 z));; gen_read_loop fmt ap
        | _ => λ _, None end
      else if decide (c = "c"%char) then
        match ap with
        | ROut :: ap => v ← eluarpc_read_u8; l ← gen_read_loop fmt ap; mret (OInt v :: l)
        | _ => λ _, None end
      else if decide (c = "h"%char) then
        match ap with
        | ROut :: ap => v ← eluarpc_read_u16; l ← gen_read_loop fmt ap; mret (OInt v :: l)
        | _ => λ _, None end
      else if decide (c = "l"%char) then
        match ap with
        | ROut :: ap => v ← eluarpc_read_u32; l ← gen_read_loop fmt ap; mret (OInt v :: l)
        | _ => λ _, None end
      else if decide (c = "L"%char \/ c = "i"%char) then
        match ap with
        | ROut :: ap =>
            v ← eluarpc_read_u32; l ← gen_read_loop fmt ap; mret (OInt (s32 v) :: l)
        | _ => λ _, None end
      else if decide (c = "p"%char) then
        match ap with
        | ROut :: w :: ap =>
            b ← read_block eluarpc_read_ptr ELUARPC_PTR_HEADER_SIZE
                  (match w with ROut => true | _ => false end);
            l ← gen_read_loop fmt ap; mret (b ++ l)
        | _ => λ _, None end
      else if decide (c = "P"%char) then
        match ap with
        | ROut :: w :: ap =>
            b ← read_block eluarpc_read_small_ptr ELUARPC_SMALL_PTR_HEADER_SIZE
                  (match w with ROut => true | _ => false end);
            l ← gen_read_loop fmt ap; mret (b ++ l)
        | _ => λ _, None end
      else gen_read_loop fmt ap
  end.

Definition eluarpc_gen_read (p : nat) (fmt : string) (ap : list va_r)
  : option (Z * list rval) :=
  '(l, s) ← (eluarpc_match_packet_start;;
             l ← gen_read_loop fmt ap;
             eluarpc_match_packet_end;; mret l) (RSt p ELUARPC_OK);
  Some (r_err s, l).

Definition eluarpc_get_request_id (p : nat) : option (Z * Z) :=
  '(id, s) ← (eluarpc_match_packet_start;; eluarpc_read_op_id) (RSt p ELUARPC_OK);
  Some (r_err s, id).

Definition eluarpc_get_packet_size (p : nat) : option (Z * Z) :=
  '(size, s) ← (eluarpc_read_expect TYPE_PKT_SIZE;; eluarpc_read_u16) (RSt p ELUARPC_OK);
  Some (r_err s, size).
End Reader.

Definition eluarpc_replace_flag (val origflag newflag : Z) : Z :=
  if Z.land val origflag =? 0 then 0 else newflag.

(** ** The packets, as data

    An [item] is one argument of a call: a specifier and its value.  The
    abstract contents of a packet is a patch: the bytes a packet has, with
    holes where a [NULL] source leaves the buffer's data in place. *)
Inductive item :=
  | IOp (z : Z) | IRes (z : Z) | IU8 (z : Z) | IU16 (z : Z)
  | IInt (z : Z) | IU32 (z : Z) | IS32 (z : Z)
  | IPtr (src : option (list Z)) (n : Z) (want : bool)
  | ISmallPtr (src : option (list Z)) (n : Z) (want : bool).

Definition item_char (it : item) : ascii :=
  match it with
  | IOp _ => "o" | IRes _ => "r" | IU8 _ => "c" | IU16 _ => "h" | IInt _ => "i"
  | IU32 _ => "l" | IS32 _ => "L" | IPtr _ _ _ => "p" | ISmallPtr _ _ _ => "P"
  end%char.
(** The arguments of the item in a write and in a read. *)
Definition item_w (it : item) : list va_w :=
  match it with
  | IOp z | IRes z | IU8 z | IU16 z | IInt z | IU32 z | IS32 z => [WInt z]
  | IPtr src n _ | ISmallPtr src n _ => [WPtr src; WInt n]
  end.
Definition item_r (it : item) : list va_r :=
  match it with
  | IOp z | IRes z => [RInt z]
  | IU8 _ | IU16 _ | IInt _ | IU32 _ | IS32 _ => [ROut]
  | IPtr _ _ want | ISmallPtr _ _ want => [ROut; if want then ROut else RNull]
  end.

Definition enc_u16 (x : Z) : patch := Some <$> (TYPE_INT_16 :: le16 x).
Definition enc_u32 (x : Z) : patch := Some <$> (TYPE_INT_32 :: le32 x).
Definition enc_data (src : option (list Z)) (n : Z) : patch :=
  match src with
  | Some d => Some <$> take (Z.to_nat n) d
  | None => replicate (Z.to_nat n) None
  end.
Definition item_patch (it : item) : patch :=
  match it with
  | IOp z => [Some TYPE_OP_ID; Some (u8 z)]
  | IRes z => [Some (Z.lor ELUARPC_OP_RES_MOD (u8 z))]
  | IU8 z => [Some TYPE_INT_8; Some (u8 z)]
  | IU16 z => enc_u16 (u16 z)
  | IInt z | IU32 z | IS32 z => enc_u32 (u32 z)
  | IPtr src n _ => Some TYPE_PTR :: enc_u32 n ++ enc_data src n
  | ISmallPtr src n _ => Some TYPE_SMALL_PTR :: enc_u16 n ++ enc_data src n
  end.
(** The values a read of the item at offset [q] returns. *)
Definition block_vals (q : nat) (n : Z) (want : bool) : list rval :=
  OPtr (if decide (n = 0) then None else Some q) :: if want then [OInt n] else [].
Definition item_vals (q : nat) (it : item) : list rval :=
  match it with
  | IOp _ | IRes _ => []
  | IU8 z | IU16 z | IInt z | IU32 z | IS32 z => [OInt z]
  | IPtr _ n want => block_vals (q + ELUARPC_PTR_HEADER_SIZE) n want
  | ISmallPtr _ n want => block_vals (q + ELUARPC_SMALL_PTR_HEADER_SIZE) n want
  end.
Definition data_ok (src : option (list Z)) (n : Z) : Prop :=
  match src with Some d => Forall is_u8 d /\ n <= Z.of_nat (length d) | None => True end.
Definition item_ok (it : item) : Prop :=
  match it with
  | IOp _ | IRes _ => True
  | IU8 z => is_u8 z
  | IU16 z => is_u16 z
  | IInt z | IS32 z => is_s32 z
  | IU32 z => is_u32 z
  | IPtr src n _ => is_u32 n /\ data_ok src n
  | ISmallPtr src n _ => is_u16 n /\ data_ok src n
  end.

Definition items_fmt (its : list item) : string :=
  String.string_of_list_ascii (item_char <$> its).
Definition items_patch (its : list item) : patch := its ≫= item_patch.
Fixpoint items_vals (q : nat) (its : list item) : list rval :=
  match its with
  | [] => []
  | it :: its => item_vals q it ++ items_vals (q + length (item_patch it)) its
  end.

(** The packet: size, start marker, arguments, end marker. *)
Definition start_patch : patch := Some TYPE_START :: enc_u32 PACKET_SIG.
Definition end_patch : patch := Some TYPE_END :: enc_u32 (u32 (Z.lnot PACKET_SIG)).
Definition size_patch (n : nat) : patch := Some TYPE_PKT_SIZE :: enc_u16 (u16 (Z.of_nat n)).
Definition packet_size (its : list item) : nat :=
  (ELUARPC_START_OFFSET + ELUARPC_START_SIZE + length (items_patch its) + ELUARPC_END_SIZE)%nat.
Definition packet_body (its : list item) : patch :=
  start_patch ++ items_patch its ++ end_patch.
Definition packet (its : list item) : patch :=
  size_patch (packet_size its) ++ packet_body its.
(** Where the first argument of a packet is. *)
Definition args_at (p : nat) : nat := (p + ELUARPC_START_OFFSET + ELUARPC_START_SIZE)%nat.

(** ** Writers produce the patches *)

Definition writes (w : W) (a : patch) : Prop := forall s,
  (w_p s + length a <= length (w_mem s))%nat ->
  exists m', w s = Some (tt, WSt m' (w_p s + length a)%nat (w_packet_ptr s)) /\
             patched (w_mem s) (w_p s) a m'.

Create HintDb rpc.

Lemma writes_bind (w1 w2 : W) a b : writes w1 a -> writes w2 b -> writes (w1;; w2) (a ++ b).
Proof.
  intros H1 H2 s Hl. rewrite length_app in Hl.
  destruct (H1 s) as (m1 & E1 & P1); [lia|]. rewrite (M_bind_run _ _ _ _ _ E1).
  destruct (H2 (WSt m1 (w_p s + length a)%nat (w_packet_ptr s))) as (m2 & E2 & P2); simpl.
  { destruct P1 as [-> _]. lia. }
  exists m2. rewrite E2. simpl. rewrite length_app, Nat.add_assoc. split; [done|].
  by eapply patched_app.
Qed.
Lemma writes_emit v b : u8 v = b -> writes (emit v) [Some b].
Proof.
  intros <- s Hl. simpl in Hl. unfold emit, store. rewrite decide_True by lia. simpl.
  eexists. rewrite Nat.add_1_r. split; [done|].
  apply patched_store; [auto with words|lia].
Qed.
Lemma writes_emit_mem src n : 0 <= n -> data_ok src n ->
  writes (emit_mem src n) (enc_data src n).
Proof.
  intros Hn Hd s Hl. unfold emit_mem. destruct src as [d|]; simpl in *.
  - destruct Hd as [Hb Hd]. rewrite length_fmap, length_take in *.
    rewrite decide_True by lia.
    rewrite stores_splice; [|by apply Forall_take|rewrite length_take; lia].
    simpl. eexists. replace (Z.to_nat n `min` length d)%nat with (Z.to_nat n) by lia.
    split; [done|]. apply patched_splice. rewrite length_take. lia.
  - rewrite length_replicate in *. eexists. split; [done|]. apply patched_skip.
Qed.
#[export] Hint Resolve writes_emit_mem : rpc.

(** Split a sequence of writers along a patch made of concatenations. *)
Ltac writes_step :=
  match goal with
  | |- writes (emit _ ≫= _) (?b :: ?a) => apply (writes_bind _ _ [b] a)
  | |- writes (_ ≫= _) (_ ++ _) => apply writes_bind
  | |- writes (emit _) _ => apply writes_emit
  end.

Lemma u8_land x : u8 (Z.land x 255) = Z.land x 255.
Proof. rewrite land_255. apply u8_small. word_lia. Qed.
Lemma writes_u8 x : writes (eluarpc_write_u8 x) [Some TYPE_INT_8; Some (u8 x)].
Proof. unfold eluarpc_write_u8. repeat writes_step; done. Qed.
Lemma writes_op_id x : writes (eluarpc_write_op_id x) [Some TYPE_OP_ID; Some (u8 x)].
Proof. unfold eluarpc_write_op_id. repeat writes_step; done. Qed.
Lemma writes_u16 x : writes (eluarpc_write_u16 x) (enc_u16 x).
Proof.
  unfold eluarpc_write_u16, enc_u16, le16. simpl. repeat writes_step; try done; apply u8_land.
Qed.
Lemma writes_u32 x : writes (eluarpc_write_u32 x) (enc_u32 x).
Proof.
  unfold eluarpc_write_u32, enc_u32, le32. simpl. repeat writes_step; try done; apply u8_land.
Qed.
#[export] Hint Resolve writes_u8 writes_op_id writes_u16 writes_u32 : rpc.

Lemma u8_res z : u8 (Z.lor ELUARPC_OP_RES_MOD (u8 z)) = Z.lor ELUARPC_OP_RES_MOD (u8 z).
Proof.
  apply Z.eqb_eq.
  apply (byte_forall (λ x, u8 (Z.lor ELUARPC_OP_RES_MOD x) =? Z.lor ELUARPC_OP_RES_MOD x));
    [by vm_compute|auto with words].
Qed.

Lemma writes_item it fmt ap k a : item_ok it -> gen_write_loop fmt ap = k -> writes k a ->
  writes (gen_write_loop (String (item_char it) fmt) (item_w it ++ ap)) (item_patch it ++ a).
Proof.
  intros Hok <- Ha.
  enough (exists w, gen_write_loop (String (item_char it) fmt) (item_w it ++ ap)
                    = (w;; gen_write_loop fmt ap) /\ writes w (item_patch it))
    as (w & -> & Hw) by by apply writes_bind.
  destruct it; eexists; (split; [reflexivity|]); simpl in Hok; auto with rpc.
  - pose proof (writes_op_id (u8 z)) as Hw. by rewrite u8_u8 in Hw.
  - apply writes_emit, u8_res.
  - pose proof (writes_u8 (u8 z)) as Hw. by rewrite u8_u8 in Hw.
  - destruct Hok as [Hn Hd]. rewrite u32_small by done.
    unfold eluarpc_write_ptr, item_patch. repeat writes_step; try done; auto with rpc.
    apply writes_emit_mem; [word_lia|done].
  - destruct Hok as [Hn Hd]. rewrite u16_small by done.
    unfold eluarpc_write_small_ptr, item_patch. repeat writes_step; try done; auto with rpc.
    apply writes_emit_mem; [word_lia|done].
Qed.
Lemma writes_items its : Forall item_ok its ->
  writes (gen_write_loop (items_fmt its) (its ≫= item_w)) (items_patch its).
Proof.
  induction 1 as [|it its Hok _ IH].
  - intros s _. exists (w_mem s). unfold items_patch. simpl. rewrite Nat.add_0_r.
    split; [by destruct s|apply patched_nil].
  - by eapply writes_item.
Qed.

(** A write of well-formed arguments into a buffer with enough room is
    defined, fills exactly the packet and leaves the rest of the buffer. *)
Lemma gen_write_patched m p its :
  Forall item_ok its -> (p + packet_size its <= length m)%nat ->
  exists m', eluarpc_gen_write m p (items_fmt its) (its ≫= item_w) = Some m' /\
             patched m p (packet its) m'.
Proof.
  intros Hok Hl. unfold packet_size in Hl.
  assert (Hw : writes (emit TYPE_START;; eluarpc_write_u32 PACKET_SIG) start_patch).
  { unfold start_patch. repeat writes_step; done || auto with rpc. }
  assert (He : writes (emit TYPE_END;; eluarpc_write_u32 (u32 (Z.lnot PACKET_SIG))) end_patch).
  { unfold end_patch. repeat writes_step; done || auto with rpc. }
  assert (Hz : forall n, writes (emit TYPE_PKT_SIZE;; eluarpc_write_u16 (u16 (Z.of_nat n)))
                                (size_patch n)).
  { intros n. unfold size_patch. repeat writes_step; done || auto with rpc. }
  unfold eluarpc_gen_write, eluarpc_start_packet, eluarpc_end_packet, ELUARPC_START_OFFSET,
    ELUARPC_START_SIZE, ELUARPC_END_SIZE in *.
  destruct (Hw (WSt m (p + 4) p)) as (m1 & E1 & P1); [simpl; lia|].
  assert (length m1 = length m) by apply P1.
  destruct (writes_items its Hok (WSt m1 (p + 4 + 6) p)) as (m2 & E2 & P2); [simpl; lia|].
  assert (length m2 = length m) by (destruct P2 as [-> _]; done).
  set (q := (p + 4 + 6 + length (items_patch its))%nat) in *.
  destruct (He (WSt m2 q p)) as (m3 & E3 & P3); [subst q; simpl; lia|].
  assert (length m3 = length m) by (destruct P3 as [-> _]; done).
  destruct (Hz (packet_size its) (WSt m3 p p)) as (m4 & E4 & P4); [simpl; lia|].
  exists m4. split.
  - unfold mbind, M_bind in *. unfold set_packet_ptr, ELUARPC_START_OFFSET. simpl in *.
    destruct (emit TYPE_START _) as [[??]|]; [|done]. rewrite E1. simpl. rewrite E2.
    destruct (emit TYPE_END _) as [[??]|]; [|done]. rewrite E3. unfold write_packet_size.
    simpl. replace (Z.of_nat (q + 6) - Z.of_nat p) with (Z.of_nat (packet_size its)).
    + unfold mbind, M_bind. by rewrite E4.
    + unfold packet_size, ELUARPC_START_OFFSET, ELUARPC_START_SIZE, ELUARPC_END_SIZE.
      subst q. lia.
  - unfold packet, packet_body. apply (patched_over _ _ (replicate 4 None) _ _ m3);
      [done|by repeat constructor| |exact P4].
    apply (patched_app _ _ _ _ m); [apply patched_skip|].
    rewrite length_replicate. eapply patched_app; [apply P1|].
    eapply patched_app; [apply P2|]. apply P3.
Qed.

(** ** Readers accept the patches *)

Section ReaderLemmas.
Context (m : list Z).

Definition reads {A} (r : M rst A) (a : patch) (v : nat -> A) : Prop := forall s,
  holds m (r_p s) a ->
  r s = Some (v (r_p s), RSt (r_p s + length a)%nat (r_err s)).

Lemma reads_bind {A B} (r : M rst A) (k : A -> M rst B) a b v w u :
  reads r a v -> (forall p, reads (k (v p)) b (w p)) ->
  (forall p, u p = w p (p + length a)%nat) ->
  reads (r ≫= k) (a ++ b) u.
Proof.
  intros H1 H2 Hu s [Ha Hb]%holds_app. rewrite (M_bind_run _ _ _ _ _ (H1 s Ha)).
  rewrite (H2 (r_p s)) by done. simpl. by rewrite length_app, Nat.add_assoc, Hu.
Qed.
Lemma reads_fetch b : reads (fetch m) [Some b] (λ _, b).
Proof.
  intros s [Hb _]%holds_cons. unfold fetch, load. rewrite Hb. simpl.
  by rewrite Nat.add_1_r.
Qed.
Lemma reads_ret {A} (v : A) : reads (mret v) [] (λ _, v).
Proof. intros [p e] _. simpl. by rewrite Nat.add_0_r. Qed.
Lemma reads_err_if c : c = false -> reads (err_if c) [] (λ _, tt).
Proof. intros -> [p e] _. simpl. by rewrite Nat.add_0_r. Qed.
Lemma reads_expect b : reads (eluarpc_read_expect m b) [Some b] (λ _, tt).
Proof.
  unfold eluarpc_read_expect.
  apply (reads_bind _ _ [_] [] (λ _, b) (λ _ _, tt)); [apply reads_fetch| |done].
  intros p. apply reads_err_if. by rewrite Z.eqb_refl.
Qed.
Lemma reads_seq {A} (r : M rst ()) (k : M rst A) a b w u :
  reads r a (λ _, tt) -> reads k b w -> (forall p, u p = w (p + length a)%nat) ->
  reads (r;; k) (a ++ b) u.
Proof. intros H1 H2 Hu. by apply (reads_bind _ _ a b (λ _, tt) (λ _, w)). Qed.
(** A value that does not depend on where the bytes are. *)
Lemma reads_seq_const {A} (r : M rst ()) (k : M rst A) a b x :
  reads r a (λ _, tt) -> reads k b (λ _, x) -> reads (r;; k) (a ++ b) (λ _, x).
Proof. intros H1 H2. by eapply (reads_seq r k a b (λ _, x)). Qed.
(** Consume one byte of the patch. *)
Lemma reads_fetch_bind {A} (k : Z -> M rst A) b a u :
  reads (k b) a (λ p, u (p - 1)%nat) -> reads (fetch m ≫= k) (Some b :: a) u.
Proof.
  intros H. apply (reads_bind _ _ [_] a (λ _, b) (λ _ q, u (q - 1)%nat));
    [apply reads_fetch|by intros|]. intros p. f_equal. simpl. lia.
Qed.
Lemma reads_u8 x : reads (eluarpc_read_u8 m) [Some TYPE_INT_8; Some x] (λ _, x).
Proof.
  unfold eluarpc_read_u8. apply (reads_seq_const _ _ [_] [_]);
    [apply reads_expect|apply reads_fetch].
Qed.
Lemma reads_u16 x : is_u16 x -> reads (eluarpc_read_u16 m) (enc_u16 x) (λ _, x).
Proof.
  intros Hx. unfold eluarpc_read_u16, enc_u16, le16. simpl.
  apply (reads_seq_const _ _ [_]); [apply reads_expect|].
  do 2 apply reads_fetch_bind. rewrite or16_le16 by done. apply (reads_ret x).
Qed.
Lemma reads_u32 x : is_u32 x -> reads (eluarpc_read_u32 m) (enc_u32 x) (λ _, x).
Proof.
  intros Hx. unfold eluarpc_read_u32, enc_u32, le32. simpl.
  apply (reads_seq_const _ _ [_]); [apply reads_expect|].
  do 4 apply reads_fetch_bind. rewrite or32_le32 by done. apply (reads_ret x).
Qed.
Lemma length_enc_data src n : 0 <= n -> data_ok src n ->
  length (enc_data src n) = Z.to_nat n.
Proof.
  intros Hn. destruct src; simpl.
  - intros [_ Hd]. rewrite length_fmap, length_take. lia.
  - intros _. apply length_replicate.
Qed.
Lemma reads_skip a n : 0 <= n -> length a = Z.to_nat n ->
  reads (p ← get_p; set_p (p + Z.to_nat n)%nat;; mret n) a (λ _, n).
Proof. intros Hn Ha s _. unfold mbind, M_bind. simpl. by rewrite Ha. Qed.
Lemma reads_ptr src n : is_u32 n -> data_ok src n ->
  reads (eluarpc_read_ptr m) (Some TYPE_PTR :: enc_u32 n ++ enc_data src n) (λ _, n).
Proof.
  intros Hn Hd. unfold eluarpc_read_ptr. apply (reads_seq_const _ _ [_]); [apply reads_expect|].
  apply (reads_bind _ _ _ _ (λ _, n) (λ _ _, n)); [by apply reads_u32| |done]. intros p.
  apply reads_skip; [|apply length_enc_data; [|done]]; word_lia.
Qed.
Lemma reads_small_ptr src n : is_u16 n -> data_ok src n ->
  reads (eluarpc_read_small_ptr m) (Some TYPE_SMALL_PTR :: enc_u16 n ++ enc_data src n)
    (λ _, n).
Proof.
  intros Hn Hd. unfold eluarpc_read_small_ptr.
  apply (reads_seq_const _ _ [_]); [apply reads_expect|].
  apply (reads_bind _ _ _ _ (λ _, n) (λ _ _, n)); [by apply reads_u16| |done]. intros p.
  apply reads_skip; [|apply length_enc_data; [|done]]; word_lia.
Qed.
Lemma reads_block (r : M rst Z) header want a n : 0 <= n -> reads r a (λ _, n) ->
  length a = (header + Z.to_nat n)%nat ->
  reads (read_block r header want) a (λ p, block_vals (p + header) n want).
Proof.
  intros Hn Hr Ha s Hs. unfold read_block, mbind, M_bind. simpl. rewrite (Hr s Hs). simpl.
  rewrite Ha. do 2 f_equal. unfold block_vals. f_equal. f_equal.
  destruct (decide (n = 0)), (decide (_ = _)); lia || done.
Qed.

Lemma reads_item it fmt ap k a u : item_ok it -> gen_read_loop m fmt ap = k ->
  reads k a u ->
  reads (gen_read_loop m (String (item_char it) fmt) (item_r it ++ ap)) (item_patch it ++ a)
    (λ q, item_vals q it ++ u (q + length (item_patch it))%nat).
Proof.
  intros Hok <- Ha.
  assert (forall (r : M rst Z) b x y f, reads r b (λ _, x) -> f x = y ->
    reads (v ← r; l ← gen_read_loop m fmt ap; mret (OInt (f v) :: l)) (b ++ a)
      (λ q, [OInt y] ++ u (q + length b)%nat)) as Hv.
  { intros r b x y f Hr <-. apply (reads_bind _ _ b a (λ _, x) (λ _ q, OInt (f x) :: u q));
      [done| |done].
    intros _. rewrite <- (app_nil_r a).
    apply (reads_bind _ _ a [] u (λ q _, OInt (f x) :: u q)); [done| |done].
    intros q. apply reads_ret. }
  assert (forall (r : M rst Z) h w b n, 0 <= n -> reads r b (λ _, n) ->
    length b = (h + Z.to_nat n)%nat ->
    reads (bs ← read_block r h w; l ← gen_read_loop m fmt ap; mret (bs ++ l)) (b ++ a)
      (λ q, block_vals (q + h) n w ++ u (q + length b)%nat)) as Hp.
  { intros r h w b n Hn Hr Hb.
    apply (reads_bind _ _ b a (λ q, block_vals (q + h) n w)
            (λ p q, block_vals (p + h) n w ++ u q)); [by apply reads_block| |done].
    intros p. rewrite <- (app_nil_r a).
    apply (reads_bind _ _ a [] u (λ q _, block_vals (p + h) n w ++ u q)); [done| |done].
    intros q. apply reads_ret. }
  destruct it; simpl in Hok.
  - apply (reads_seq _ _ _ _ u); [|done|done]. unfold eluarpc_expect_op_id.
    apply (reads_seq_const _ _ [_] [_]); [apply reads_expect|].
    apply reads_fetch_bind, reads_err_if. by rewrite Z.eqb_refl.
  - apply (reads_seq _ _ _ _ u); [apply reads_expect|done|done].
  - apply (Hv _ _ (u8 z) z id); [apply reads_u8|by apply u8_small].
  - apply (Hv _ _ (u16 z) z id); [apply reads_u16; auto with words|by apply u16_small].
  - apply (Hv _ _ (u32 z) z s32); [apply reads_u32; auto with words|by apply s32_u32].
  - apply (Hv _ _ (u32 z) z id); [apply reads_u32; auto with words|by apply u32_small].
  - apply (Hv _ _ (u32 z) z s32); [apply reads_u32; auto with words|by apply s32_u32].
  - destruct Hok as [Hn Hd].
    replace (gen_read_loop _ _ _) with
      (b ← read_block (eluarpc_read_ptr m) ELUARPC_PTR_HEADER_SIZE want;
       l ← gen_read_loop m fmt ap; mret (b ++ l)) by by destruct want.
    apply Hp; [word_lia|by apply reads_ptr|]. simpl. rewrite length_enc_data; word_lia || done.
  - destruct Hok as [Hn Hd].
    replace (gen_read_loop _ _ _) with
      (b ← read_block (eluarpc_read_small_ptr m) ELUARPC_SMALL_PTR_HEADER_SIZE want;
       l ← gen_read_loop m fmt ap; mret (b ++ l)) by by destruct want.
    apply Hp; [word_lia|by apply reads_small_ptr|]. simpl.
    rewrite length_enc_data; word_lia || done.
Qed.
Lemma reads_items its : Forall item_ok its ->
  reads (gen_read_loop m (items_fmt its) (its ≫= item_r)) (items_patch its)
    (λ q, items_vals q its).
Proof. induction 1 as [|it its Hok _ IH];
  [apply reads_ret|exact (reads_item it _ _ _ _ _ Hok eq_refl IH)]. Qed.

Lemma match_start p e : holds m (p + ELUARPC_START_OFFSET) start_patch ->
  eluarpc_match_packet_start m (RSt p e) = Some (tt, RSt (args_at p) e).
Proof.
  assert (reads (eluarpc_read_expect m TYPE_START;;
                 fdata ← eluarpc_read_u32 m; err_if (negb (fdata =? PACKET_SIG)))
                start_patch (λ _, tt)) as Hs.
  { apply (reads_seq_const _ _ [_]); [apply reads_expect|]. rewrite <- (app_nil_r (enc_u32 _)).
    apply (reads_bind _ _ _ [] (λ _, PACKET_SIG) (λ _ _, tt)); [by apply reads_u32| |done].
    intros _. by apply reads_err_if. }
  exact (Hs (RSt (p + ELUARPC_START_OFFSET) e)).
Qed.
Lemma reads_end : reads (eluarpc_match_packet_end m) end_patch (λ _, tt).
Proof.
  apply (reads_seq_const _ _ [_]); [apply reads_expect|]. rewrite <- (app_nil_r (enc_u32 _)).
  apply (reads_bind _ _ _ [] (λ _, u32 (Z.lnot PACKET_SIG)) (λ _ _, tt));
    [by apply reads_u32| |done].
  intros _. by apply reads_err_if.
Qed.

(** A read of a buffer that holds a packet returns its values and no error,
    whatever the size field says. *)
Lemma gen_read_holds p its : Forall item_ok its ->
  holds m (p + ELUARPC_START_OFFSET) (packet_body its) ->
  eluarpc_gen_read m p (items_fmt its) (its ≫= item_r)
  = Some (ELUARPC_OK, items_vals (args_at p) its).
Proof.
  intros Hok [Hb1 [Hb2 Hb3]%holds_app]%holds_app. unfold eluarpc_gen_read.
  rewrite (M_bind_run _ _ _ _ _ (match_start p _ Hb1)).
  rewrite (M_bind_run _ _ _ _ _ (reads_items its Hok (RSt (args_at p) _) Hb2)).
  by rewrite (M_bind_run _ _ _ _ _ (reads_end (RSt (args_at p + _) _) Hb3)).
Qed.
End ReaderLemmas.

(** ** Accepted packets are encodings *)

Section Soundness.
Context (m : list Z) (Hm : Forall is_u8 m).

(** [sound r P]: if [r] ends without the error flag, it started without it
    and [P] relates the position before, the value and the position after. *)
Definition sound {A} (r : M rst A) (P : nat -> A -> nat -> Prop) : Prop :=
  forall s x s', r s = Some (x, s') -> r_err s' = ELUARPC_OK ->
  r_err s = ELUARPC_OK /\ P (r_p s) x (r_p s').

Lemma sound_bind {A B} (r : M rst A) (k : A -> M rst B) P Q :
  sound r P -> (forall x, sound (k x) (Q x)) ->
  sound (r ≫= k) (λ p y p'', exists x p', P p x p' /\ Q x p' y p'').
Proof.
  intros Hr Hk s y s'' E He. unfold mbind, M_bind in E.
  destruct (r s) as [[x s']|] eqn:Er; [|done].
  destruct (Hk x s' y s'' E He) as [He' Hq]. destruct (Hr s x s' Er He') as [? ?].
  split; [done|]. by exists x, (r_p s').
Qed.
Lemma sound_weaken {A} (r : M rst A) (P Q : nat -> A -> nat -> Prop) :
  sound r P -> (forall p x p', P p x p' -> Q p x p') -> sound r Q.
Proof. intros Hr HPQ s x s' E He. destruct (Hr s x s' E He). auto. Qed.
Lemma sound_ret {A} (v : A) : sound (mret v) (λ p x p', x = v /\ p' = p).
Proof. by intros s x s' [= <- <-] He. Qed.
Lemma sound_fetch : sound (fetch m) (λ p x p', m !! p = Some x /\ is_u8 x /\ p' = S p).
Proof.
  intros s x s'. unfold fetch, load. destruct (m !! r_p s) as [b|] eqn:E; simpl; [|done].
  intros [= <- <-] He. simpl in *. split_and!; try done.
  by rewrite Forall_lookup in Hm; apply Hm in E.
Qed.
Lemma sound_err_if c : sound (err_if c) (λ p _ p', c = false /\ p' = p).
Proof. intros s x s' [= <- <-]. by destruct c. Qed.
Lemma sound_get_p : sound get_p (λ p x p', x = p /\ p' = p).
Proof. by intros s x s' [= <- <-]. Qed.
Lemma sound_set_p q : sound (set_p q) (λ _ _ p', p' = q).
Proof. by intros s x s' [= <- <-]. Qed.

(** A reader that consumed exactly the bytes [enc x]. *)
Definition decodes {A} (r : M rst A) (ok : A -> Prop) (enc : A -> patch) : Prop :=
  sound r (λ p x p', ok x /\ agrees m p (enc x) /\ p' = (p + length (enc x))%nat).

Lemma decodes_expect b : decodes (eluarpc_read_expect m b) (λ _, True) (λ _, [Some b]).
Proof.
  unfold decodes, eluarpc_read_expect. eapply sound_weaken.
  { eapply sound_bind; [apply sound_fetch|intros; apply sound_err_if]. }
  intros p [] p'' (x & p' & (Hx & _ & ->) & [Hb%negb_false_iff%Z.eqb_eq ->]).
  subst x. split_and!; [done|auto with mem|simpl; lia].
Qed.
Lemma decodes_expect_bind {A} b (k : M rst A) ok enc :
  decodes k ok enc -> decodes (eluarpc_read_expect m b;; k) ok (λ x, Some b :: enc x).
Proof.
  intros Hk. eapply sound_weaken.
  { eapply sound_bind; [apply decodes_expect|intros; apply Hk]. }
  intros p x p'' ([] & p' & (_ & Hb & ->) & (Hx & Ha & ->)). simpl.
  split_and!; [done|by apply (agrees_app _ _ [_])|lia].
Qed.
Lemma decodes_fetch : decodes (fetch m) is_u8 (λ x, [Some x]).
Proof.
  eapply sound_weaken; [apply sound_fetch|]. simpl. intros p x p' (Hx & Hu & ->).
  split_and!; [done|auto with mem|lia].
Qed.
Lemma decodes_op_id z : decodes (eluarpc_expect_op_id m z) (λ _, True)
  (λ _, [Some TYPE_OP_ID; Some z]).
Proof. apply decodes_expect_bind, decodes_expect. Qed.
Lemma decodes_u8 : decodes (eluarpc_read_u8 m) is_u8 (λ x, [Some TYPE_INT_8; Some x]).
Proof. apply decodes_expect_bind, decodes_fetch. Qed.
Lemma decodes_u16 : decodes (eluarpc_read_u16 m) is_u16 enc_u16.
Proof.
  change enc_u16 with (λ x, Some TYPE_INT_16 :: (Some <$> le16 x)).
  apply decodes_expect_bind. eapply sound_weaken.
  { do 2 (eapply sound_bind; [apply sound_fetch|intro]). apply sound_ret. }
  simpl. intros p x p' (a & p1 & (Ha & Ua & ->) & b & p2 & (Hb & Ub & ->) & [-> ->]).
  assert (is_u16 (or16 a b)) by (rewrite or16_add by done; word_lia).
  split_and!; [done| |lia].
  assert (le16 (or16 a b) = [a; b]) as Hl.
  { rewrite le16_div, or16_add by done. f_equal; [|f_equal]; word_lia. }
  change ([Some _; Some _]) with (Some <$> le16 (or16 a b)). rewrite Hl. simpl. auto with mem.
Qed.
Lemma decodes_u32 : decodes (eluarpc_read_u32 m) is_u32 enc_u32.
Proof.
  change enc_u32 with (λ x, Some TYPE_INT_32 :: (Some <$> le32 x)).
  apply decodes_expect_bind. eapply sound_weaken.
  { do 4 (eapply sound_bind; [apply sound_fetch|intro]). apply sound_ret. }
  simpl. intros p x p' (a & p1 & (Ha & Ua & ->) & b & p2 & (Hb & Ub & ->) &
    c & p3 & (Hc & Uc & ->) & d & p4 & (Hd & Ud & ->) & [-> ->]).
  split_and!; [by apply or32_is_u32| |lia].
  change ([Some _; Some _; Some _; Some _]) with (Some <$> le32 (or32 a b c d)).
  rewrite le32_or32 by done. simpl. auto 6 with mem.
Qed.
Lemma decodes_skip (r : M rst Z) ok enc : decodes r ok enc ->
  decodes (len ← r; p ← get_p; set_p (p + Z.to_nat len)%nat;; mret len) ok
    (λ n, enc n ++ enc_data None n).
Proof.
  intros Hr. eapply sound_weaken.
  { eapply sound_bind; [apply Hr|intro]. eapply sound_bind; [apply sound_get_p|intro].
    eapply sound_bind; [apply sound_set_p|intros; apply sound_ret]. }
  simpl. intros p x p' (n & p1 & (Hn & Ha & ->) & q & p2 & [-> ->] & [] & p3 & -> & [-> ->]).
  split_and!; [done|apply agrees_app; auto with mem|].
  rewrite length_app, length_replicate. lia.
Qed.
Lemma decodes_ptr : decodes (eluarpc_read_ptr m) is_u32
  (λ n, Some TYPE_PTR :: enc_u32 n ++ enc_data None n).
Proof. apply decodes_expect_bind, decodes_skip, decodes_u32. Qed.
Lemma decodes_small_ptr : decodes (eluarpc_read_small_ptr m) is_u16
  (λ n, Some TYPE_SMALL_PTR :: enc_u16 n ++ enc_data None n).
Proof. apply decodes_expect_bind, decodes_skip, decodes_u16. Qed.

(** The same specifier, with the same expected value or result pointers. *)
Definition same_kind (it it' : item) : Prop :=
  item_char it = item_char it' /\ item_r it = item_r it'.

(** One iteration of the read loop, given what the rest satisfies. *)
Definition item_then (it : item) (P : nat -> list rval -> nat -> Prop)
    (p : nat) (l : list rval) (p' : nat) : Prop :=
  exists it' l', same_kind it it' /\ item_ok it' /\ agrees m p (item_patch it') /\
    P (p + length (item_patch it'))%nat l' p' /\ l = item_vals p it' ++ l'.

Lemma sound_value (r : M rst Z) ok enc (k : M rst (list rval)) P f it (c : Z -> item) :
  decodes r ok enc -> sound k P ->
  (forall x, ok x -> same_kind it (c x) /\ item_ok (c x) /\ item_patch (c x) = enc x /\
                     forall q, item_vals q (c x) = [OInt (f x)]) ->
  sound (v ← r; l ← k; mret (OInt (f v) :: l)) (item_then it P).
Proof.
  intros Hr Hk Hc. eapply sound_weaken.
  { eapply sound_bind; [apply Hr|intro]. eapply sound_bind; [apply Hk|intro].
    apply sound_ret. }
  simpl. intros p l p' (x & p1 & (Hx & Ha & ->) & l' & p2 & HP & [-> ->]).
  destruct (Hc x Hx) as (H1 & H2 & H3 & H4). exists (c x), l'.
  rewrite H3, H4. split_and!; done || apply H1.
Qed.
Lemma sound_expected (r : M rst ()) enc (k : M rst (list rval)) P it :
  decodes r (λ _, True) enc -> sound k P -> item_ok it -> item_patch it = enc tt ->
  (forall q, item_vals q it = []) -> sound (r;; k) (item_then it P).
Proof.
  intros Hr Hk Hok He Hv. eapply sound_weaken.
  { eapply sound_bind; [apply Hr|intro; apply Hk]. }
  simpl. intros p l p' ([] & p1 & (_ & Ha & ->) & HP). exists it, l.
  rewrite He, Hv. split_and!; done.
Qed.
Lemma sound_data (r : M rst Z) ok enc header want (k : M rst (list rval)) P it
    (c : Z -> item) :
  decodes r ok enc -> sound k P ->
  (forall x, ok x -> 0 <= x /\ same_kind it (c x) /\ item_ok (c x) /\
     item_patch (c x) = enc x /\ length (enc x) = (header + Z.to_nat x)%nat /\
     forall q, item_vals q (c x) = block_vals (q + header) x want) ->
  sound (b ← read_block r header want; l ← k; mret (b ++ l)) (item_then it P).
Proof.
  intros Hr Hk Hc. unfold read_block. eapply sound_weaken.
  { eapply sound_bind; [|intro; eapply sound_bind; [apply Hk|intro; apply sound_ret]].
    eapply sound_bind; [apply sound_get_p|intro]. eapply sound_bind; [apply Hr|intro].
    eapply sound_bind; [apply sound_get_p|intro; apply sound_ret]. }
  simpl. intros p l p' (b & p1 & (q & p2 & [-> ->] & x & p3 & (Hx & Ha & ->) &
    q' & p4 & [-> ->] & [-> ->]) & l' & p5 & HP & [-> ->]).
  destruct (Hc x Hx) as (H0 & H1 & H2 & H3 & H4 & H5). exists (c x), l'.
  rewrite H3, H5. split_and!; try done; [apply H1..|]. f_equal. unfold block_vals.
  f_equal. f_equal. rewrite H4. destruct (decide (_ = _)), (decide (x = 0)); lia || done.
Qed.
Lemma sound_item it fmt ap P : sound (gen_read_loop m fmt ap) P ->
  sound (gen_read_loop m (String (item_char it) fmt) (item_r it ++ ap)) (item_then it P).
Proof.
  intros Hk. destruct it as [z|z| | | | | |src n want|src n want].
  - eapply sound_expected; [apply decodes_op_id|done..].
  - eapply sound_expected; [apply decodes_expect|done..].
  - eapply (sound_value _ _ _ _ _ id _ IU8); [apply decodes_u8|done|].
    intros x Hx. simpl. by rewrite u8_small.
  - eapply (sound_value _ _ _ _ _ id _ IU16); [apply decodes_u16|done|].
    intros x Hx. simpl. by rewrite u16_small.
  - eapply (sound_value _ _ _ _ _ s32 _ (λ x, IInt (s32 x))); [apply decodes_u32|done|].
    intros x Hx. simpl. rewrite u32_s32 by done. split_and!; done || apply s32_is_s32.
  - eapply (sound_value _ _ _ _ _ id _ IU32); [apply decodes_u32|done|].
    intros x Hx. simpl. by rewrite u32_small.
  - eapply (sound_value _ _ _ _ _ s32 _ (λ x, IS32 (s32 x))); [apply decodes_u32|done|].
    intros x Hx. simpl. rewrite u32_s32 by done. split_and!; done || apply s32_is_s32.
  - replace (gen_read_loop _ _ _) with
      (b ← read_block (eluarpc_read_ptr m) ELUARPC_PTR_HEADER_SIZE want;
       l ← gen_read_loop m fmt ap; mret (b ++ l)) by by destruct want.
    eapply (sound_data _ _ _ _ _ _ _ _ (λ x, IPtr None x want)); [apply decodes_ptr|done|].
    intros x Hx. simpl. rewrite length_replicate. split_and!; done || word_lia.
  - replace (gen_read_loop _ _ _) with
      (b ← read_block (eluarpc_read_small_ptr m) ELUARPC_SMALL_PTR_HEADER_SIZE want;
       l ← gen_read_loop m fmt ap; mret (b ++ l)) by by destruct want.
    eapply (sound_data _ _ _ _ _ _ _ _ (λ x, ISmallPtr None x want));
      [apply decodes_small_ptr|done|].
    intros x Hx. simpl. rewrite length_replicate. split_and!; done || word_lia.
Qed.
Lemma sound_items shape : sound (gen_read_loop m (items_fmt shape) (shape ≫= item_r))
  (λ p l p', exists its, Forall2 same_kind shape its /\ Forall item_ok its /\
     agrees m p (items_patch its) /\ p' = (p + length (items_patch its))%nat /\
     l = items_vals p its).
Proof.
  induction shape as [|it shape IH]; simpl.
  - eapply sound_weaken; [apply sound_ret|]. intros p l p' [-> ->]. exists [].
    split_and!; simpl; auto with mem.
  - eapply sound_weaken; [apply (sound_item it _ _ _ IH)|].
    intros p l p' (it' & l' & Hk & Hok & Ha & (its & Hks & Hoks & Has & -> & ->) & ->).
    exists (it' :: its). unfold items_patch in *. simpl. rewrite length_app, Nat.add_assoc.
    split_and!; [by constructor..|by apply agrees_app|done|done].
Qed.

Lemma decodes_start : sound (eluarpc_match_packet_start m)
  (λ p _ p', agrees m (p + ELUARPC_START_OFFSET) start_patch /\ p' = args_at p).
Proof.
  eapply sound_weaken.
  { eapply sound_bind; [apply sound_get_p|intro]. eapply sound_bind; [apply sound_set_p|intro].
    eapply sound_bind; [apply decodes_expect|intro].
    eapply sound_bind; [apply decodes_u32|intro; apply sound_err_if]. }
  simpl. intros p [] p' (q & p1 & [-> ->] & [] & p2 & -> & [] & p3 & (_ & Ha & ->) & x & p4 &
    (Hx & Hb & ->) & [Hs%negb_false_iff%Z.eqb_eq ->]).
  subst x. split; [by apply (agrees_app _ _ [_])|]. unfold args_at, ELUARPC_START_SIZE. lia.
Qed.
Lemma decodes_end : decodes (eluarpc_match_packet_end m) (λ _, True) (λ _, end_patch).
Proof.
  eapply sound_weaken.
  { eapply sound_bind; [apply decodes_expect|intro].
    eapply sound_bind; [apply decodes_u32|intro; apply sound_err_if]. }
  simpl. intros p [] p' ([] & p3 & (_ & Ha & ->) & x & p4 &
    (Hx & Hb & ->) & [Hs%negb_false_iff%Z.eqb_eq ->]).
  subst x. split_and!; [done|by apply (agrees_app _ _ [_])|]. lia.
Qed.

(** What a successful read says about the buffer. *)
Lemma gen_read_agrees p shape l :
  eluarpc_gen_read m p (items_fmt shape) (shape ≫= item_r) = Some (ELUARPC_OK, l) ->
  exists its, Forall2 same_kind shape its /\ Forall item_ok its /\
    holds m (p + ELUARPC_START_OFFSET) (packet_body its) /\ l = items_vals (args_at p) its.
Proof.
  unfold eluarpc_gen_read. intros H.
  match type of H with ?t ≫= _ = _ => destruct t as [[l' s']|] eqn:E end;
    simpl in H; [|done].
  injection H as He ->.
  assert (Hs : sound (eluarpc_match_packet_start m;;
    l ← gen_read_loop m (items_fmt shape) (shape ≫= item_r);
    eluarpc_match_packet_end m;; mret l)
    (λ p l _, exists its, Forall2 same_kind shape its /\ Forall item_ok its /\
      holds m (p + ELUARPC_START_OFFSET) (packet_body its) /\ l = items_vals (args_at p) its));
    [|apply (Hs _ _ _ E He)].
  eapply sound_weaken.
  { eapply sound_bind; [apply decodes_start|intro].
    eapply sound_bind; [apply sound_items|intro].
    eapply sound_bind; [apply decodes_end|intro; apply sound_ret]. }
  clear. simpl. intros p l p' ([] & p1 & [Ha ->] & l' & p2 & (its & Hk & Hok & Hi & -> & ->) &
    [] & p3 & (_ & He & ->) & [-> _]).
  exists its. split_and!; try done. unfold packet_body. split.
  - specialize (He 5%nat _ eq_refl). apply lookup_lt_Some in He.
    rewrite !length_app. unfold args_at, ELUARPC_START_OFFSET, ELUARPC_START_SIZE in *.
    simpl. lia.
  - apply agrees_app; [done|]. apply agrees_app; done.
Qed.
End Soundness.

(** ** What the packets carry *)

(** The data block of [n] bytes at [q] in [m']: the source's bytes, or, for a
    [NULL] source, the bytes that were already there in [m]. *)
Definition block_data (m m' : list Z) (q : nat) (src : option (list Z)) (n : Z) : Prop :=
  loads m' q (Z.to_nat n) =
    match src with Some d => Some (take (Z.to_nat n) d) | None => loads m q (Z.to_nat n) end.
Definition item_data (m m' : list Z) (q : nat) (it : item) : Prop :=
  match it with
  | IPtr src n _ => block_data m m' (q + ELUARPC_PTR_HEADER_SIZE) src n
  | ISmallPtr src n _ => block_data m m' (q + ELUARPC_SMALL_PTR_HEADER_SIZE) src n
  | _ => True
  end.
Fixpoint items_data (m m' : list Z) (q : nat) (its : list item) : Prop :=
  match its with
  | [] => True
  | it :: its => item_data m m' q it /\ items_data m m' (q + length (item_patch it)) its
  end.

Lemma patched_hole m p a n b m' : patched m p (a ++ replicate n None ++ b) m' ->
  loads m' (p + length a) n = loads m (p + length a) n.
Proof.
  intros [Hl Hi]. unfold loads. rewrite Hl. case_decide; [|done]. f_equal.
  apply list_eq. intros i. destruct (decide (i < n)%nat) as [Hin|];
    [|rewrite !lookup_ge_None_2; [done|rewrite length_take; lia..]].
  rewrite !lookup_take_lt, !lookup_drop by done. rewrite Hi, decide_True by lia.
  rewrite lookup_app_r by lia. rewrite lookup_app_l by (rewrite length_replicate; lia).
  by rewrite lookup_replicate_2 by lia.
Qed.
Lemma patched_data m p a src n b m' : 0 <= n -> data_ok src n ->
  (p + length (a ++ enc_data src n ++ b) <= length m)%nat ->
  patched m p (a ++ enc_data src n ++ b) m' -> block_data m m' (p + length a) src n.
Proof.
  intros Hn Hd Hl Hp. unfold block_data. destruct src as [d|]; [|by eapply patched_hole].
  apply patched_holds in Hp; [|done]. rewrite !holds_app in Hp. destruct Hp as (_ & Hp & _).
  apply holds_loads in Hp. rewrite length_take in Hp. simpl in Hd.
  by replace (Z.to_nat n `min` length d)%nat with (Z.to_nat n) in Hp by lia.
Qed.
Lemma patched_items_data m m' p its : forall a b, Forall item_ok its ->
  (p + length (a ++ items_patch its ++ b) <= length m)%nat ->
  patched m p (a ++ items_patch its ++ b) m' -> items_data m m' (p + length a) its.
Proof.
  induction its as [|it its IH]; intros a b Hok Hl Hp; [done|].
  apply Forall_cons in Hok as [Hit Hok].
  change (items_patch (it :: its)) with (item_patch it ++ items_patch its) in *.
  simpl. split.
  - destruct it as [| | | | | | |src n want|src n want]; try done; simpl in Hit;
      destruct Hit as [Hn Hd]; simpl.
    + rewrite <- Nat.add_assoc.
      replace (length a + ELUARPC_PTR_HEADER_SIZE)%nat with
        (length (a ++ Some TYPE_PTR :: enc_u32 n)) by (rewrite length_app; done).
      apply (patched_data _ _ _ _ _ (items_patch its ++ b)); [word_lia|done|..];
        simpl in *; by rewrite <- !app_assoc in *.
    + rewrite <- Nat.add_assoc.
      replace (length a + ELUARPC_SMALL_PTR_HEADER_SIZE)%nat with
        (length (a ++ Some TYPE_SMALL_PTR :: enc_u16 n)) by (rewrite length_app; done).
      apply (patched_data _ _ _ _ _ (items_patch its ++ b)); [word_lia|done|..];
        simpl in *; by rewrite <- !app_assoc in *.
  - rewrite <- Nat.add_assoc, <- length_app. apply (IH _ b); [done|..];
      by rewrite <- !app_assoc in *.
Qed.
Lemma length_packet its : length (packet its) = packet_size its.
Proof.
  unfold packet, packet_body, packet_size. rewrite !length_app.
  change (length (size_patch _)) with ELUARPC_START_OFFSET.
  change (length start_patch) with ELUARPC_START_SIZE.
  change (length end_patch) with ELUARPC_END_SIZE. lia.
Qed.
Lemma get_packet_size_holds m p n : holds m p (size_patch n) ->
  eluarpc_get_packet_size m p = Some (ELUARPC_OK, u16 (Z.of_nat n)).
Proof.
  intros Hh. unfold eluarpc_get_packet_size.
  assert (Hr : reads m (eluarpc_read_expect m TYPE_PKT_SIZE;; eluarpc_read_u16 m) (size_patch n)
    (λ _, u16 (Z.of_nat n))).
  { apply (reads_seq_const _ _ _ [_]); [apply reads_expect|]. apply reads_u16.
    auto with words. }
  by rewrite (Hr (RSt p ELUARPC_OK) Hh).
Qed.
Lemma get_request_id_holds m p its z : 
  holds m (p + ELUARPC_START_OFFSET) (packet_body (IOp z :: its)) ->
  eluarpc_get_request_id m p = Some (ELUARPC_OK, u8 z).
Proof.
  intros Hh. unfold eluarpc_get_request_id, packet_body in *.
  apply holds_app in Hh as [Hs [Ho _]%holds_app].
  assert (Hid : reads m (eluarpc_read_op_id m) [Some TYPE_OP_ID; Some (u8 z)] (λ _, u8 z)).
  { apply (reads_seq_const _ _ _ [_]); [apply reads_expect|apply reads_fetch]. }
  rewrite (M_bind_run _ _ _ _ _ (match_start m p _ Hs)).
  change (items_patch (IOp z :: its)) with
    ([Some TYPE_OP_ID; Some (u8 z)] ++ items_patch its) in Ho.
  apply holds_app in Ho as [Ho _]. by rewrite (Hid (RSt (args_at p) ELUARPC_OK) Ho).
Qed.

(** A write of well-formed arguments: what the other components use. *)
Lemma gen_write_packet m p its :
  Forall item_ok its -> (p + packet_size its <= length m)%nat ->
  exists m', eluarpc_gen_write m p (items_fmt its) (its ≫= item_w) = Some m' /\
    patched m p (packet its) m' /\ holds m' p (packet its) /\
    items_data m m' (args_at p) its.
Proof.
  intros Hok Hl. destruct (gen_write_patched m p its Hok Hl) as (m' & Hw & Hp).
  exists m'. split_and!; [done|done|apply (patched_holds m); rewrite ?length_packet; done|].
  unfold packet, packet_body in Hp. rewrite app_assoc in Hp.
  unfold args_at. rewrite <- Nat.add_assoc.
  apply (patched_items_data m m' p its (size_patch (packet_size its) ++ start_patch) end_patch);
    [done| |done].
  rewrite <- app_assoc. change (_ ++ _ ++ _) with (packet its). by rewrite length_packet.
Qed.
(** Packets are made of bytes. *)
Lemma enc_u16_ok x : patch_ok (enc_u16 x).
Proof. apply patch_ok_fmap, Forall_cons. split; [done|apply le16_bytes]. Qed.
Lemma enc_u32_ok x : patch_ok (enc_u32 x).
Proof. apply patch_ok_fmap, Forall_cons. split; [done|apply le32_bytes]. Qed.
Lemma enc_data_ok src n : data_ok src n -> patch_ok (enc_data src n).
Proof.
  destruct src; simpl; [|intros; apply patch_ok_skip].
  intros [Hd _]. by apply patch_ok_fmap, Forall_take.
Qed.
Lemma item_patch_ok it : item_ok it -> patch_ok (item_patch it).
Proof.
  assert (forall z, is_u8 (Z.lor ELUARPC_OP_RES_MOD (u8 z))) as Hr.
  { intros z. pose proof (byte_forall (λ x, bool_decide (is_u8 (Z.lor ELUARPC_OP_RES_MOD x)))
      (u8 z) eq_refl (u8_is_u8 z)) as H. by apply bool_decide_eq_true in H. }
  assert (forall a b, is_u8 a -> patch_ok b -> patch_ok (Some a :: b)) as Hc
    by (intros; by apply Forall_cons).
  pose proof enc_u16_ok. pose proof enc_u32_ok. pose proof enc_data_ok.
  destruct it; cbn [item_ok item_patch]; intros; destruct_and?;
    repeat first [done|apply H|apply H0|by apply H1|apply patch_ok_app|apply Hc
                 |apply Forall_nil_2|auto with words].
Qed.
Lemma packet_ok its : Forall item_ok its -> patch_ok (packet its).
Proof.
  assert (forall a b, is_u8 a -> patch_ok b -> patch_ok (Some a :: b)) as Hc
    by (intros; by apply Forall_cons).
  intros H. unfold packet, packet_body, size_patch, start_patch, end_patch.
  repeat first [done|apply enc_u16_ok|apply enc_u32_ok|apply patch_ok_app|apply Hc].
  unfold items_patch. induction H; [constructor|].
  apply patch_ok_app; [by apply item_patch_ok|done].
Qed.
(** A packet that is in a buffer carries its data. *)
Lemma holds_items_data m p its : Forall item_ok its -> holds m p (packet its) ->
  items_data m m (args_at p) its.
Proof.
  intros Hok Hh. assert (Hl := Hh). destruct Hl as [Hl _]. apply holds_patched in Hh.
  unfold packet, packet_body in Hh, Hl. rewrite app_assoc in Hh, Hl.
  unfold args_at. rewrite <- Nat.add_assoc.
  by apply (patched_items_data m m p its (size_patch (packet_size its) ++ start_patch) end_patch).
Qed.
Lemma packet_size_ok m p its : Z.of_nat (packet_size its) < 2 ^ 16 -> holds m p (packet its) ->
  eluarpc_get_packet_size m p = Some (ELUARPC_OK, Z.of_nat (packet_size its)).
Proof.
  intros Hs [Hsz _]%holds_app. rewrite (get_packet_size_holds _ _ _ Hsz).
  by rewrite u16_small by (unfold is_u; lia).
Qed.

(** ** The contract of the packet layer *)

(** C34: a packet written by [eluarpc_gen_write] into a buffer with room for it
    stays inside the packet's bytes, announces its own size, and is read back
    by [eluarpc_gen_read] with the same format: no error, the same integers,
    and pointers to the same data (for a [NULL] source, to the data the buffer
    already had there). *)
Theorem rpc_roundtrip m p its :
  Forall item_ok its -> (p + packet_size its <= length m)%nat ->
  Z.of_nat (packet_size its) < 2 ^ 16 ->
  exists m', eluarpc_gen_write m p (items_fmt its) (its ≫= item_w) = Some m' /\
    eluarpc_gen_read m' p (items_fmt its) (its ≫= item_r)
      = Some (ELUARPC_OK, items_vals (args_at p) its) /\
    items_data m m' (args_at p) its /\
    eluarpc_get_packet_size m' p = Some (ELUARPC_OK, Z.of_nat (packet_size its)) /\
    length m' = length m /\
    (forall i, (i < p \/ p + packet_size its <= i)%nat -> m' !! i = m !! i).
Proof.
  intros Hok Hl Hs. destruct (gen_write_packet m p its Hok Hl) as (m' & Hw & Hp & Hh & Hd).
  exists m'. split_and!; [done| |done|by apply packet_size_ok|apply Hp|].
  - apply holds_app in Hh as [_ Hb]. by apply gen_read_holds.
  - destruct Hp as [_ Hi]. intros i Hr. rewrite Hi. case_decide; [|done].
    rewrite (lookup_ge_None_2 (packet its)); [done|]. rewrite length_packet. lia.
Qed.

(** Whatever bytes are in the buffer, a read that reports success found a
    complete packet of the requested format: the buffer holds the encoding of
    some arguments of the expected kinds, with the markers, signatures and
    expected operation in place, and those are the values returned. *)
Theorem rpc_read_sound m p shape l :
  Forall is_u8 m ->
  eluarpc_gen_read m p (items_fmt shape) (shape ≫= item_r) = Some (ELUARPC_OK, l) ->
  exists its, Forall2 same_kind shape its /\ Forall item_ok its /\
    holds m (p + ELUARPC_START_OFFSET) (packet_body its) /\ l = items_vals (args_at p) its.
Proof. intros Hm. by apply gen_read_agrees. Qed.

(** A read whose length field is wrong follows it out of the buffer: the
    length of a data block is never checked against the size of the packet. *)
Example gen_read_out_of_bounds :
  let m := replicate 4 0 ++ [5; 3; 0x84; 0xC2; 0xAF; 0x18; 7; 6; 4; 3; 255; 255; 0; 0;
                             47; 0; 6; 3; 0x7B; 0x3D; 0x50; 0xE7] ++ replicate 100 0 in
  eluarpc_gen_read m 0 "op" [RInt 6; ROut; RNull] = None.
Proof. vm_compute. done. Qed.
