(* ===== verification/Remotefs.v ===== *)
(** * Remotefs: the messages of the remote file system

    Models src/src/remotefs/remotefs.c (constants of
    src/inc/remotefs/remotefs.h): for each of the eight operations, how the
    request and the response are written into and read out of a packet.
    Everything goes through the interface of Eluarpc. *)

From S2P Require Import Prelude Eluarpc.

Definition RFS_OP_OPEN : Z := 0x01.
Definition RFS_OP_FIRST : Z := RFS_OP_OPEN.
Definition RFS_OP_WRITE : Z := 0x02.
Definition RFS_OP_READ : Z := 0x03.
Definition RFS_OP_CLOSE : Z := 0x04.
Definition RFS_OP_LSEEK : Z := 0x05.
Definition RFS_OP_OPENDIR : Z := 0x06.
Definition RFS_OP_READDIR : Z := 0x07.
Definition RFS_OP_CLOSEDIR : Z := 0x08.
Definition RFS_OP_LAST : Z := RFS_OP_CLOSEDIR.

Section Messages.
Variables (m : list Z) (p : nat).

Definition remotefs_open_write_response (result : Z) :=
  eluarpc_gen_write m p "ri" [WInt RFS_OP_OPEN; WInt result].
Definition remotefs_open_read_response :=
  eluarpc_gen_read m p "ri" [RInt RFS_OP_OPEN; ROut].
Definition remotefs_open_write_request (pathname : list Z) (flags mode : Z) :=
  eluarpc_gen_write m p "opii"
    [WInt RFS_OP_OPEN; WPtr (Some (cstr pathname)); WInt (strlen pathname + 1);
     WInt flags; WInt mode].
Definition remotefs_open_read_request :=
  eluarpc_gen_read m p "opii" [RInt RFS_OP_OPEN; ROut; RNull; ROut; ROut].

Definition remotefs_write_write_response (result : Z) :=
  eluarpc_gen_write m p "rl" [WInt RFS_OP_WRITE; WInt result].
Definition remotefs_write_read_response :=
  eluarpc_gen_read m p "rl" [RInt RFS_OP_WRITE; ROut].
Definition remotefs_write_write_request (fd : Z) (buf : list Z) (count : Z) :=
  eluarpc_gen_write m p "oip" [WInt RFS_OP_WRITE; WInt fd; WPtr (Some buf); WInt count].
Definition remotefs_write_read_request :=
  eluarpc_gen_read m p "oip" [RInt RFS_OP_WRITE; ROut; ROut; ROut].

Definition remotefs_read_write_response (readbytes : Z) :=
  eluarpc_gen_write m p "rp" [WInt RFS_OP_READ; WPtr None; WInt readbytes].
Definition remotefs_read_read_response :=
  eluarpc_gen_read m p "rp" [RInt RFS_OP_READ; ROut; ROut].
Definition remotefs_read_write_request (fd count : Z) :=
  eluarpc_gen_write m p "oil" [WInt RFS_OP_READ; WInt fd; WInt count].
Definition remotefs_read_read_request :=
  eluarpc_gen_read m p "oil" [RInt RFS_OP_READ; ROut; ROut].

Definition remotefs_close_write_response (result : Z) :=
  eluarpc_gen_write m p "ri" [WInt RFS_OP_CLOSE; WInt result].
Definition remotefs_close_read_response :=
  eluarpc_gen_read m p "ri" [RInt RFS_OP_CLOSE; ROut].
Definition remotefs_close_write_request (fd : Z) :=
  eluarpc_gen_write m p "oi" [WInt RFS_OP_CLOSE; WInt fd].
Definition remotefs_close_read_request :=
  eluarpc_gen_read m p "oi" [RInt RFS_OP_CLOSE; ROut].

Definition remotefs_lseek_write_response (result : Z) :=
  eluarpc_gen_write m p "rL" [WInt RFS_OP_LSEEK; WInt result].
Definition remotefs_lseek_read_response :=
  eluarpc_gen_read m p "rL" [RInt RFS_OP_LSEEK; ROut].
Definition remotefs_lseek_write_request (fd offset whence : Z) :=
  eluarpc_gen_write m p "oiLi" [WInt RFS_OP_LSEEK; WInt fd; WInt offset; WInt whence].
Definition remotefs_lseek_read_request :=
  eluarpc_gen_read m p "oiLi" [RInt RFS_OP_LSEEK; ROut; ROut; ROut].

Definition remotefs_opendir_write_response (d : Z) :=
  eluarpc_gen_write m p "rl" [WInt RFS_OP_OPENDIR; WInt d].
Definition remotefs_opendir_read_response :=
  eluarpc_gen_read m p "rl" [RInt RFS_OP_OPENDIR; ROut].
Definition remotefs_opendir_write_request (name : list Z) :=
  eluarpc_gen_write m p "op"
    [WInt RFS_OP_OPENDIR; WPtr (Some (cstr name)); WInt (strlen name + 1)].
Definition remotefs_opendir_read_request :=
  eluarpc_gen_read m p "op" [RInt RFS_OP_OPENDIR; ROut; RNull].

Definition remotefs_readdir_write_response (name : option (list Z)) (size ftime : Z) :=
  eluarpc_gen_write m p "rpll"
    [WInt RFS_OP_READDIR; WPtr (cstr <$> name);
     WInt (match name with Some s => strlen s + 1 | None => 0 end); WInt size; WInt ftime].
Definition remotefs_readdir_read_response :=
  eluarpc_gen_read m p "rpll" [RInt RFS_OP_READDIR; ROut; RNull; ROut; ROut].
Definition remotefs_readdir_write_request (d : Z) :=
  eluarpc_gen_write m p "ol" [WInt RFS_OP_READDIR; WInt d].
Definition remotefs_readdir_read_request :=
  eluarpc_gen_read m p "ol" [RInt RFS_OP_READDIR; ROut].

Definition remotefs_closedir_write_response (d : Z) :=
  eluarpc_gen_write m p "ri" [WInt RFS_OP_CLOSEDIR; WInt d].
Definition remotefs_closedir_read_response :=
  eluarpc_gen_read m p "ri" [RInt RFS_OP_CLOSEDIR; ROut].
Definition remotefs_closedir_write_request (d : Z) :=
  eluarpc_gen_write m p "ol" [WInt RFS_OP_CLOSEDIR; WInt d].
Definition remotefs_closedir_read_request :=
  eluarpc_gen_read m p "ol" [RInt RFS_OP_CLOSEDIR; ROut].
End Messages.

(** ** The sixteen messages *)

Inductive rfs_msg :=
  | OpenReq (pathname : list Z) (flags mode : Z) | OpenRes (result : Z)
  | WriteReq (fd : Z) (buf : list Z) | WriteRes (result : Z)
  | ReadReq (fd count : Z) | ReadRes (readbytes : Z)
  | CloseReq (fd : Z) | CloseRes (result : Z)
  | LseekReq (fd offset whence : Z) | LseekRes (result : Z)
  | OpendirReq (name : list Z) | OpendirRes (d : Z)
  | ReaddirReq (d : Z) | ReaddirRes (name : option (list Z)) (size ftime : Z)
  | ClosedirReq (d : Z) | ClosedirRes (result : Z).

(** The code's writer and reader of each message. *)
Definition write_msg (m : list Z) (p : nat) (msg : rfs_msg) : option (list Z) :=
  match msg with
  | OpenReq s f md => remotefs_open_write_request m p s f md
  | OpenRes r => remotefs_open_write_response m p r
  | WriteReq fd b => remotefs_write_write_request m p fd b (Z.of_nat (length b))
  | WriteRes r => remotefs_write_write_response m p r
  | ReadReq fd n => remotefs_read_write_request m p fd n
  | ReadRes n => remotefs_read_write_response m p n
  | CloseReq fd => remotefs_close_write_request m p fd
  | CloseRes r => remotefs_close_write_response m p r
  | LseekReq fd o w => remotefs_lseek_write_request m p fd o w
  | LseekRes r => remotefs_lseek_write_response m p r
  | OpendirReq s => remotefs_opendir_write_request m p s
  | OpendirRes d => remotefs_opendir_write_response m p d
  | ReaddirReq d => remotefs_readdir_write_request m p d
  | ReaddirRes s sz t => remotefs_readdir_write_response m p s sz t
  | ClosedirReq d => remotefs_closedir_write_request m p d
  | ClosedirRes r => remotefs_closedir_write_response m p r
  end.
Definition read_msg (m : list Z) (p : nat) (msg : rfs_msg) : option (Z * list rval) :=
  match msg with
  | OpenReq _ _ _ => remotefs_open_read_request m p
  | OpenRes _ => remotefs_open_read_response m p
  | WriteReq _ _ => remotefs_write_read_request m p
  | WriteRes _ => remotefs_write_read_response m p
  | ReadReq _ _ => remotefs_read_read_request m p
  | ReadRes _ => remotefs_read_read_response m p
  | CloseReq _ => remotefs_close_read_request m p
  | CloseRes _ => remotefs_close_read_response m p
  | LseekReq _ _ _ => remotefs_lseek_read_request m p
  | LseekRes _ => remotefs_lseek_read_response m p
  | OpendirReq _ => remotefs_opendir_read_request m p
  | OpendirRes _ => remotefs_opendir_read_response m p
  | ReaddirReq _ => remotefs_readdir_read_request m p
  | ReaddirRes _ _ _ => remotefs_readdir_read_response m p
  | ClosedirReq _ => remotefs_closedir_read_request m p
  | ClosedirRes _ => remotefs_closedir_read_response m p
  end.

(** The operation and the direction of a message. *)
Definition msg_op (msg : rfs_msg) : Z :=
  match msg with
  | OpenReq _ _ _ | OpenRes _ => RFS_OP_OPEN
  | WriteReq _ _ | WriteRes _ => RFS_OP_WRITE
  | ReadReq _ _ | ReadRes _ => RFS_OP_READ
  | CloseReq _ | CloseRes _ => RFS_OP_CLOSE
  | LseekReq _ _ _ | LseekRes _ => RFS_OP_LSEEK
  | OpendirReq _ | OpendirRes _ => RFS_OP_OPENDIR
  | ReaddirReq _ | ReaddirRes _ _ _ => RFS_OP_READDIR
  | ClosedirReq _ | ClosedirRes _ => RFS_OP_CLOSEDIR
  end.
Definition is_request (msg : rfs_msg) : bool :=
  match msg with
  | OpenReq _ _ _ | WriteReq _ _ | ReadReq _ _ | CloseReq _ | LseekReq _ _ _
  | OpendirReq _ | ReaddirReq _ | ClosedirReq _ => true
  | _ => false
  end.

(** The arguments after the operation. *)
Definition msg_args (msg : rfs_msg) : list item :=
  match msg with
  | OpenReq s f md => [IPtr (Some (cstr s)) (strlen s + 1) false; IInt f; IInt md]
  | OpenRes r | CloseRes r | ClosedirRes r => [IInt r]
  | WriteReq fd b => [IInt fd; IPtr (Some b) (Z.of_nat (length b)) true]
  | WriteRes r => [IU32 r]
  | ReadReq fd n => [IInt fd; IU32 n]
  | ReadRes n => [IPtr None n true]
  | CloseReq fd => [IInt fd]
  | LseekReq fd o w => [IInt fd; IS32 o; IInt w]
  | LseekRes r => [IS32 r]
  | OpendirReq s => [IPtr (Some (cstr s)) (strlen s + 1) false]
  | OpendirRes d | ReaddirReq d | ClosedirReq d => [IU32 d]
  | ReaddirRes s sz t =>
      [IPtr (cstr <$> s) (match s with Some s => strlen s + 1 | None => 0 end) false;
       IU32 sz; IU32 t]
  end.
Definition msg_items (msg : rfs_msg) : list item :=
  (if is_request msg then IOp (msg_op msg) else IRes (msg_op msg)) :: msg_args msg.

(** The values of the message are in the range of their C types. *)
Definition msg_ok (msg : rfs_msg) : Prop :=
  match msg with
  | OpenReq s f md => is_cstr s /\ strlen s + 1 < 2 ^ 32 /\ is_s32 f /\ is_s32 md
  | OpenRes r | CloseRes r | ClosedirRes r | LseekRes r => is_s32 r
  | WriteReq fd b => is_s32 fd /\ Forall is_u8 b /\ Z.of_nat (length b) < 2 ^ 32
  | WriteRes r => is_u32 r
  | ReadReq fd n => is_s32 fd /\ is_u32 n
  | ReadRes n => is_u32 n
  | CloseReq fd => is_s32 fd
  | LseekReq fd o w => is_s32 fd /\ is_s32 o /\ is_s32 w
  | OpendirReq s => is_cstr s /\ strlen s + 1 < 2 ^ 32
  | OpendirRes d | ReaddirReq d | ClosedirReq d => is_u32 d
  | ReaddirRes s sz t =>
      match s with Some s => is_cstr s /\ strlen s + 1 < 2 ^ 32 | None => True end /\
      is_u32 sz /\ is_u32 t
  end.
#[export] Instance msg_ok_dec msg : Decision (msg_ok msg).
Proof. destruct msg as [| | | | | | | | | | | | |[s|]| |]; apply _. Defined.

Lemma write_msg_items m p msg :
  write_msg m p msg = eluarpc_gen_write m p (items_fmt (msg_items msg)) (msg_items msg ≫= item_w).
Proof. by destruct msg. Qed.
Lemma read_msg_items m p msg :
  read_msg m p msg = eluarpc_gen_read m p (items_fmt (msg_items msg)) (msg_items msg ≫= item_r).
Proof. by destruct msg. Qed.
Lemma cstr_data_ok s : is_cstr s -> strlen s + 1 < 2 ^ 32 ->
  is_u32 (strlen s + 1) /\ data_ok (Some (cstr s)) (strlen s + 1).
Proof.
  intros Hs Hl. split; [unfold is_u, strlen in *; lia|]. split; [by apply cstr_bytes|].
  rewrite length_cstr. unfold strlen. lia.
Qed.
Lemma msg_items_ok msg : msg_ok msg -> Forall item_ok (msg_items msg).
Proof.
  intros Hm. apply Forall_cons. split; [by destruct (is_request msg)|].
  destruct msg as [| | | | | | | | | | | | |[s|]| |]; simpl in *; destruct_and?;
    repeat (apply Forall_cons; split); try apply Forall_nil_2; try done; simpl;
    try by apply cstr_data_ok.
  unfold is_u; split; [lia|done].
Qed.

(** What the reader of a message returns, with the offsets of the data. *)
Definition request_data_at (p : nat) : nat := (args_at p + 2 + ELUARPC_PTR_HEADER_SIZE)%nat.
Definition response_data_at (p : nat) : nat := (p + ELUARPC_READ_BUF_OFFSET)%nat.
Definition data_ptr (q : nat) (n : Z) : rval := OPtr (if decide (n = 0) then None else Some q).
Definition msg_vals (p : nat) (msg : rfs_msg) : list rval :=
  match msg with
  | OpenReq s f md => [OPtr (Some (request_data_at p)); OInt f; OInt md]
  | OpenRes r | CloseRes r | ClosedirRes r | LseekRes r | WriteRes r => [OInt r]
  | WriteReq fd b =>
      let n := Z.of_nat (length b) in
      [OInt fd; data_ptr (request_data_at p + ELUARPC_U32_SIZE) n; OInt n]
  | ReadReq fd n => [OInt fd; OInt n]
  | ReadRes n => [data_ptr (response_data_at p) n; OInt n]
  | CloseReq fd => [OInt fd]
  | LseekReq fd o w => [OInt fd; OInt o; OInt w]
  | OpendirReq s => [OPtr (Some (request_data_at p))]
  | OpendirRes d | ReaddirReq d | ClosedirReq d => [OInt d]
  | ReaddirRes s sz t =>
      [OPtr (match s with Some _ => Some (response_data_at p) | None => None end);
       OInt sz; OInt t]
  end.

(** The data a message carries is in the buffer [m'] where the reader's
    pointers point; a read response carries what was there in [m]. *)
Definition msg_data (m m' : list Z) (p : nat) (msg : rfs_msg) : Prop :=
  match msg with
  | OpenReq s _ _ | OpendirReq s => str_at m' (request_data_at p) = Some s
  | WriteReq _ b => loads m' (request_data_at p + ELUARPC_U32_SIZE) (length b) = Some b
  | ReadRes n =>
      loads m' (response_data_at p) (Z.to_nat n) = loads m (response_data_at p) (Z.to_nat n)
  | ReaddirRes (Some s) _ _ => str_at m' (response_data_at p) = Some s
  | _ => True
  end.

Lemma msg_vals_items p msg : items_vals (args_at p) (msg_items msg) = msg_vals p msg.
Proof.
  assert (forall s, strlen s + 1 <> 0) as Hs by (unfold strlen; lia).
  unfold msg_items, msg_vals, data_ptr, request_data_at, response_data_at.
  destruct msg as [| | | | | | | | | | | | |[s|]| |]; simpl; unfold block_vals, args_at;
    try rewrite (decide_False (P := _ + 1 = 0)) by apply Hs; simpl;
    unfold ELUARPC_READ_BUF_OFFSET, ELUARPC_START_OFFSET, ELUARPC_START_SIZE,
      ELUARPC_U32_SIZE, ELUARPC_PTR_HEADER_SIZE, ELUARPC_RESPONSE_SIZE;
    repeat (f_equal; try lia).
  all: case_decide; [done|f_equal; lia].
Qed.
Lemma str_at_data m m' q s n : is_cstr s -> n = strlen s + 1 ->
  block_data m m' q (Some (cstr s)) n -> str_at m' q = Some s.
Proof.
  intros Hs -> Hb. apply str_at_loads; [done|]. unfold block_data, strlen in Hb.
  rewrite length_cstr. replace (Z.to_nat _) with (S (length s)) in Hb by lia.
  rewrite Hb, take_ge; [done|]. rewrite length_cstr. lia.
Qed.
Lemma msg_data_items m m' p msg : msg_ok msg ->
  items_data m m' (args_at p) (msg_items msg) -> msg_data m m' p msg.
Proof.
  intros Hok H.
  assert (response_data_at p = args_at p + 1 + ELUARPC_PTR_HEADER_SIZE)%nat as Hr.
  { unfold response_data_at, args_at, ELUARPC_READ_BUF_OFFSET, ELUARPC_RESPONSE_SIZE. lia. }
  destruct msg as [s f md| |fd b| | |n| | | | |s| | |[s|]| |]; try done;
    simpl in *; destruct_and?; try rewrite Hr; try by eapply str_at_data.
  - unfold block_data in *. rewrite Nat2Z.id in *. rewrite take_ge in * by done.
    unfold request_data_at. by rewrite <- Nat.add_assoc, (Nat.add_comm _ ELUARPC_U32_SIZE), 
      Nat.add_assoc.
  - done.
Qed.

Definition msg_size (msg : rfs_msg) : nat := packet_size (msg_items msg).

(** The packet of a message is in the buffer. *)
Definition holds_msg (m : list Z) (p : nat) (msg : rfs_msg) : Prop :=
  holds m p (packet (msg_items msg)).

Lemma write_msg_holds m p msg : msg_ok msg -> (p + msg_size msg <= length m)%nat ->
  exists m', write_msg m p msg = Some m' /\ holds_msg m' p msg /\ msg_data m m' p msg /\
    length m' = length m /\ (Forall is_u8 m -> Forall is_u8 m').
Proof.
  intros Hok Hl.
  destruct (gen_write_packet m p (msg_items msg)) as (m' & Hw & Hp & Hh & Hd);
    [by apply msg_items_ok|done|].
  exists m'. rewrite write_msg_items.
  pose proof (patched_bytes m p _ m' Hp (packet_ok _ (msg_items_ok _ Hok))).
  split_and!; [done|done|by apply msg_data_items|apply Hp|done].
Qed.
Lemma read_msg_holds m p msg : msg_ok msg -> holds_msg m p msg ->
  read_msg m p msg = Some (ELUARPC_OK, msg_vals p msg).
Proof.
  intros Hok [_ Hb]%holds_app. rewrite read_msg_items, <- msg_vals_items.
  apply gen_read_holds; [by apply msg_items_ok|done].
Qed.

Lemma holds_msg_data m p msg : msg_ok msg -> holds_msg m p msg -> msg_data m m p msg.
Proof.
  intros Hok Hh. apply msg_data_items; [done|]. by apply holds_items_data; [apply msg_items_ok|].
Qed.
Lemma holds_msg_size m p msg : Z.of_nat (msg_size msg) < 2 ^ 16 -> holds_msg m p msg ->
  eluarpc_get_packet_size m p = Some (ELUARPC_OK, Z.of_nat (msg_size msg)).
Proof. apply packet_size_ok. Qed.
Lemma holds_msg_id m p msg : is_request msg = true -> holds_msg m p msg ->
  eluarpc_get_request_id m p = Some (ELUARPC_OK, msg_op msg).
Proof.
  intros Hr [_ Hb]%holds_app. unfold msg_items in Hb. rewrite Hr in Hb.
  rewrite (get_request_id_holds _ _ _ _ Hb). by destruct msg.
Qed.

(** Every request and response of the remote file system that one side
    writes, the other side reads back: the same status, integers and data,
    whatever the two buffers held before (a read response returns the bytes
    the server put in its buffer ahead of the packet's end). *)
Theorem rfs_message_roundtrip m p msg :
  msg_ok msg -> (p + msg_size msg <= length m)%nat ->
  exists m', write_msg m p msg = Some m' /\
    read_msg m' p msg = Some (ELUARPC_OK, msg_vals p msg) /\ msg_data m m' p msg.
Proof.
  intros Hok Hl. destruct (write_msg_holds m p msg Hok Hl) as (m' & Hw & Hh & Hd & _).
  exists m'. split_and!; [done|by apply read_msg_holds|done].
Qed.

(** The first argument of a packet tells the messages apart. *)
Lemma holds_first m p it its q b : holds m (p + ELUARPC_START_OFFSET) (packet_body (it :: its)) ->
  item_patch it !! q = Some (Some b) -> m !! (args_at p + q)%nat = Some b.
Proof.
  intros [_ [[[_ Hi] _]%holds_app _]%holds_app]%holds_app Hq.
  change (args_at p) with (p + ELUARPC_START_OFFSET + length start_patch)%nat.
  apply Hi. done.
Qed.
Lemma same_first m p its its' x y :
  holds m (p + ELUARPC_START_OFFSET) (packet_body (x :: its)) ->
  holds m (p + ELUARPC_START_OFFSET) (packet_body (y :: its')) ->
  forall q b c, item_patch x !! q = Some (Some b) -> item_patch y !! q = Some (Some c) -> b = c.
Proof.
  intros Hx Hy q b c Hb Hc. apply (holds_first _ _ _ _ _ _ Hx) in Hb.
  apply (holds_first _ _ _ _ _ _ Hy) in Hc. congruence.
Qed.

(** Messages are never confused: in a buffer that holds one message, the
    reader of a different operation, or of a response instead of a request,
    never reports success. *)
Theorem rfs_no_confusion m p msg msg' l :
  Forall is_u8 m -> holds_msg m p msg ->
  (is_request msg, msg_op msg) <> (is_request msg', msg_op msg') ->
  read_msg m p msg' <> Some (ELUARPC_OK, l).
Proof.
  intros Hm [_ Hb]%holds_app Hne Hr. rewrite read_msg_items in Hr.
  apply gen_read_agrees in Hr as (its & Hk & _ & Hb' & _); [|done].
  apply Hne. unfold msg_items in *. inversion Hk as [|x y ? its' [Hc Hr] _]; subst.
  assert (y = if is_request msg' then IOp (msg_op msg') else IRes (msg_op msg')) as ->.
  { destruct (is_request msg'), y; simplify_eq/=; congruence. }
  pose proof (same_first _ _ _ _ _ _ Hb Hb') as Hs. clear -Hs.
  destruct (is_request msg), (is_request msg').
  - f_equal. specialize (Hs 1%nat _ _ eq_refl eq_refl). by destruct msg, msg'.
  - specialize (Hs 0%nat _ _ eq_refl eq_refl). by destruct msg'.
  - specialize (Hs 0%nat _ _ eq_refl eq_refl). by destruct msg.
  - f_equal. specialize (Hs 0%nat _ _ eq_refl eq_refl). by destruct msg, msg'.
Qed.
