(* ===== verification/RfsServer.v ===== *)
(** * RfsServer: the remote file system server

    Models rfs_server_src/server.c (the handlers and the dispatch),
    rfs_server_src/os_io_posix.c (the operating system adapter) and the memory
    transport of rfs_server_src/rfs_transports.c (the state machine that
    collects a request byte by byte).

    The POSIX calls are not part of the repository: they are a record of
    functions over an abstract system state, [posix]. *)

From S2P Require Import Prelude Eluarpc Remotefs.

Definition SERVER_OK : Z := 0.
Definition SERVER_ERR : Z := 1.
Definition PLATFORM_PATH_SEPARATOR : Z := 47.
Definition PLATFORM_MAX_FNAME_LEN : nat := 2048.
Definition RFS_MAX_FNAME_SIZE : nat := 31.

(** Platform independent constants for the flags of [open] and the seek modes. *)
Definition RFS_OPEN_FLAG_APPEND : Z := 0x01.
Definition RFS_OPEN_FLAG_CREAT : Z := 0x02.
Definition RFS_OPEN_FLAG_EXCL : Z := 0x04.
Definition RFS_OPEN_FLAG_TRUNC : Z := 0x08.
Definition RFS_OPEN_FLAG_SYNC : Z := 0x10.
Definition RFS_OPEN_FLAG_RDONLY : Z := 0x20.
Definition RFS_OPEN_FLAG_WRONLY : Z := 0x40.
Definition RFS_OPEN_FLAG_RDWR : Z := 0x80.
Definition RFS_LSEEK_SET : Z := 0x01.
Definition RFS_LSEEK_CUR : Z := 0x02.
Definition RFS_LSEEK_END : Z := 0x03.

(** ** The system below *)

(** The POSIX calls the server uses. [px_read] also returns the bytes it
    stores, [px_readdir] the name of the next entry and whether its [d_type]
    has the regular file bit. *)
Record posix (St : Type) := Posix {
  px_fcntl : fcntl;
  px_open : list Z -> Z -> St -> Z * St;
  px_write : Z -> list Z -> St -> Z * St;
  px_read : Z -> Z -> St -> Z * list Z * St;
  px_close : Z -> St -> Z * St;
  px_lseek : Z -> Z -> Z -> St -> Z * St;
  px_opendir : list Z -> St -> Z * St;
  px_readdir : Z -> St -> option (list Z * bool) * St;
  px_closedir : Z -> St -> Z * St
}.
Arguments px_fcntl {St} _. Arguments px_open {St} _ _ _ _. Arguments px_write {St} _ _ _ _.
Arguments px_read {St} _ _ _ _. Arguments px_close {St} _ _ _. Arguments px_lseek {St} _ _ _ _ _.
Arguments px_opendir {St} _ _ _. Arguments px_readdir {St} _ _ _.
Arguments px_closedir {St} _ _ _.

(** Documented behaviour of the calls: results fit their C types, a read
    stores at most what was asked for and exactly what it reports. *)
Class PosixLaws {St} (px : posix St) := {
  px_open_range path fl st : is_s32 (px_open px path fl st).1;
  px_write_range fd b st : is_s32 (px_write px fd b st).1;
  px_read_range fd n st : 0 <= n ->
    let '(r, b, _) := px_read px fd n st in
    is_s32 r /\ r <= n /\ length b = Z.to_nat r /\ Forall is_u8 b;
  px_close_range fd st : is_s32 (px_close px fd st).1;
  px_lseek_range fd o w st : is_s32 (px_lseek px fd o w st).1;
  px_opendir_range path st : is_u32 (px_opendir px path st).1;
  px_readdir_name d st :
    match (px_readdir px d st).1 with Some (nm, _) => is_cstr nm | None => True end;
  px_closedir_range d st : is_s32 (px_closedir px d st).1
}.

Section Server.
Context {St : Type} (px : posix St).
(** [server_basedir], set once by [server_setup]. *)
Variable basedir : list Z.

(** *** os_io_posix.c *)

Definition os_open_realflags (flags : Z) : Z :=
  let c := px_fcntl px in
  let f := eluarpc_replace_flag flags RFS_OPEN_FLAG_APPEND (O_APPEND c) in
  let f := Z.lor f (eluarpc_replace_flag flags RFS_OPEN_FLAG_CREAT (O_CREAT c)) in
  let f := Z.lor f (eluarpc_replace_flag flags RFS_OPEN_FLAG_EXCL (O_EXCL c)) in
  let f := Z.lor f (eluarpc_replace_flag flags RFS_OPEN_FLAG_TRUNC (O_TRUNC c)) in
  let f := Z.lor f (eluarpc_replace_flag flags RFS_OPEN_FLAG_SYNC (O_SYNC c)) in
  let f := Z.lor f (eluarpc_replace_flag flags RFS_OPEN_FLAG_RDONLY (O_RDONLY c)) in
  let f := Z.lor f (eluarpc_replace_flag flags RFS_OPEN_FLAG_WRONLY (O_WRONLY c)) in
  Z.lor f (eluarpc_replace_flag flags RFS_OPEN_FLAG_RDWR (O_RDWR c)).

(** The creation mode is fixed: the [mode] argument is not used. *)
Definition os_open (pathname : list Z) (flags mode : Z) (st : St) : Z * St :=
  px_open px pathname (os_open_realflags flags) st.

Definition os_write (fd : Z) (buf : list Z) (st : St) : Z * St := px_write px fd buf st.
Definition os_read (fd count : Z) (st : St) : Z * list Z * St := px_read px fd count st.
Definition os_close (fd : Z) (st : St) : Z * St := px_close px fd st.

Definition os_lseek (fd offset whence : Z) (st : St) : Z * St :=
  let c := px_fcntl px in
  if whence =? RFS_LSEEK_SET then px_lseek px fd offset (SEEK_SET c) st
  else if whence =? RFS_LSEEK_CUR then px_lseek px fd offset (SEEK_CUR c) st
  else if whence =? RFS_LSEEK_END then px_lseek px fd offset (SEEK_END c) st
  else (-1, st).

(** [name] is never [NULL] here, so the test of the code always succeeds. *)
Definition os_opendir (name : list Z) (st : St) : Z * St := px_opendir px name st.

(** Skip the entries that are no regular files; the name is cut to what
    [realname] can hold. *)
Fixpoint os_readdir (fuel : nat) (d : Z) (st : St) : option (option (list Z) * St) :=
  match fuel with
  | O => None
  | S fuel =>
      match px_readdir px d st with
      | (None, st) => Some (None, st)
      | (Some (d_name, true), st) => Some (Some (take RFS_MAX_FNAME_SIZE d_name), st)
      | (Some (_, false), st) => os_readdir fuel d st
      end
  end.

Definition os_closedir (d : Z) (st : St) : Z * St := px_closedir px d st.

(** *** server.c *)

(** The name of a file under the served directory, as the handlers build it
    in [server_fullname]: [None] if it does not fit the buffer (an overflow)
    or if the directory is empty ([server_fullname[ -1 ]] is read). *)
Definition server_get_fullname (name : option (list Z)) : option (list Z) :=
  let full := take PLATFORM_MAX_FNAME_LEN basedir in
  match name with
  | None | Some [] => Some full
  | Some name =>
      c ← last full;
      let full := if decide (c = PLATFORM_PATH_SEPARATOR) then full
                  else full ++ [PLATFORM_PATH_SEPARATOR] in
      let full := full ++ take PLATFORM_MAX_FNAME_LEN name in
      if decide (length full <= PLATFORM_MAX_FNAME_LEN)%nat then Some full else None
  end.

(** A C string argument read through a pointer that may be [NULL]. *)
Definition opt_str (m : list Z) (q : option nat) : option (option (list Z)) :=
  match q with None => Some None | Some q => Some <$> str_at m q end.

(** A handler: the packet buffer and the system, with the status. *)
Definition handler : Type := list Z -> St -> option (Z * list Z * St).
Definition fail : handler := λ m st, Some (SERVER_ERR, m, st).
Definition respond (m : option (list Z)) (st : St) : option (Z * list Z * St) :=
  m ← m; Some (SERVER_OK, m, st).

Definition server_open : handler := λ m st,
  '(e, l) ← remotefs_open_read_request m 0;
  if e =? ELUARPC_ERR then fail m st else
  match l with
  | [OPtr filename; OInt flags; OInt mode] =>
      name ← opt_str m filename;
      full ← server_get_fullname name;
      let '(fd, st) := os_open full flags mode st in
      respond (remotefs_open_write_response m 0 fd) st
  | _ => None
  end.

Definition server_write : handler := λ m st,
  '(e, l) ← remotefs_write_read_request m 0;
  if e =? ELUARPC_ERR then fail m st else
  match l with
  | [OInt fd; OPtr buf; OInt count] =>
      data ← match buf with Some q => loads m q (Z.to_nat count) | None => Some [] end;
      let '(r, st) := os_write fd data st in
      respond (remotefs_write_write_response m 0 (u32 r)) st
  | _ => None
  end.

(** The data is read straight to where the response's block will be. *)
Definition server_read : handler := λ m st,
  '(e, l) ← remotefs_read_read_request m 0;
  if e =? ELUARPC_ERR then fail m st else
  match l with
  | [OInt fd; OInt count] =>
      let '(r, data, st) := os_read fd count st in
      m ← stores m ELUARPC_READ_BUF_OFFSET data;
      respond (remotefs_read_write_response m 0 (u32 r)) st
  | _ => None
  end.

Definition server_close : handler := λ m st,
  '(e, l) ← remotefs_close_read_request m 0;
  if e =? ELUARPC_ERR then fail m st else
  match l with
  | [OInt fd] =>
      let '(r, st) := os_close fd st in
      respond (remotefs_close_write_response m 0 r) st
  | _ => None
  end.

Definition server_lseek : handler := λ m st,
  '(e, l) ← remotefs_lseek_read_request m 0;
  if e =? ELUARPC_ERR then fail m st else
  match l with
  | [OInt fd; OInt offset; OInt whence] =>
      let '(r, st) := os_lseek fd offset whence st in
      respond (remotefs_lseek_write_response m 0 r) st
  | _ => None
  end.

Definition server_opendir : handler := λ m st,
  '(e, l) ← remotefs_opendir_read_request m 0;
  if e =? ELUARPC_ERR then fail m st else
  match l with
  | [OPtr q] =>
      name ← opt_str m q;
      full ← server_get_fullname name;
      let '(d, st) := os_opendir full st in
      respond (remotefs_opendir_write_response m 0 d) st
  | _ => None
  end.

(** The size of a listed file: open it, seek to its end, close it. The
    test after [os_open] is [if( fd )]. *)
Definition server_readdir (fuel : nat) : handler := λ m st,
  '(e, l) ← remotefs_readdir_read_request m 0;
  if e =? ELUARPC_ERR then fail m st else
  match l with
  | [OInt d] =>
      '(name, st) ← os_readdir fuel d st;
      match name with
      | None => respond (remotefs_readdir_write_response m 0 None 0 0) st
      | Some nm =>
          full ← server_get_fullname (Some nm);
          let '(fd, st) := os_open full RFS_OPEN_FLAG_RDONLY 0 st in
          if decide (fd <> 0) then
            let '(fsize, st) := os_lseek fd 0 RFS_LSEEK_END st in
            let '(_, st) := os_close fd st in
            respond (remotefs_readdir_write_response m 0 (Some nm) (u32 fsize) 0) st
          else respond (remotefs_readdir_write_response m 0 None 0 0) st
      end
  | _ => None
  end.

(** The response carries [d], not the result of [os_closedir]. *)
Definition server_closedir : handler := λ m st,
  '(e, l) ← remotefs_closedir_read_request m 0;
  if e =? ELUARPC_ERR then fail m st else
  match l with
  | [OInt d] =>
      let '(res, st) := os_closedir d st in
      respond (remotefs_closedir_write_response m 0 (s32 d)) st
  | _ => None
  end.

(** [fuel] bounds the entries one [readdir] request skips. *)
Definition server_handlers (fuel : nat) : list handler :=
  [server_open; server_write; server_read; server_close; server_lseek;
   server_opendir; server_readdir fuel; server_closedir].

Definition server_execute_request (fuel : nat) : handler := λ m st,
  '(e, req) ← eluarpc_get_request_id m 0;
  if e =? ELUARPC_ERR then fail m st
  else if (RFS_OP_FIRST <=? req) && (req <=? RFS_OP_LAST) then
    h ← server_handlers fuel !! Z.to_nat (req - RFS_OP_FIRST); h m st
  else fail m st.
End Server.

(** ** The memory transport

    rfs_server_src/rfs_transports.c, the part the serial multiplexer uses:
    bytes of a request come one at a time. *)

Inductive mem_state := MEM_STATE_READ_LENGTH | MEM_STATE_READ_REQUEST | MEM_STATE_REQUEST_DONE.
#[export] Instance mem_state_eq_dec : EqDecision mem_state.
Proof. solve_decision. Defined.

(** The static variables of the transport; [rfs_buffer] has
    [MAX_PACKET_SIZE + ELUARPC_WRITE_REQUEST_EXTRA] bytes. *)
Record transport := Transport {
  rfs_buffer : list Z;
  mem_read_len : Z;
  mem_expected_len : Z;
  mem_read_state : mem_state;
  mem_response_flag : bool
}.
Definition MAX_PACKET_SIZE : nat := 4096.
Definition RFS_SERVER_BUFFER_SIZE : nat := (MAX_PACKET_SIZE + ELUARPC_WRITE_REQUEST_EXTRA)%nat.

Definition rfs_mem_start_request (t : transport) : transport :=
  Transport (rfs_buffer t) 0 0 MEM_STATE_READ_LENGTH false.

(** One byte [c] of a request, or -1 to start over. *)
Definition rfs_mem_read_request_packet (t : transport) (c : Z) : option (Z * transport) :=
  if c =? -1 then Some (0, rfs_mem_start_request t) else
  match mem_read_state t with
  | MEM_STATE_READ_LENGTH =>
      buf ← store (rfs_buffer t) (Z.to_nat (mem_read_len t)) c;
      let len := mem_read_len t + 1 in
      if len =? Z.of_nat ELUARPC_START_OFFSET then
        '(e, temp16) ← eluarpc_get_packet_size buf 0;
        if e =? ELUARPC_ERR then
          Some (0, Transport buf 0 (mem_expected_len t) MEM_STATE_REQUEST_DONE
                     (mem_response_flag t))
        else
          Some (1, Transport buf 0 (temp16 - Z.of_nat ELUARPC_START_OFFSET)
                     MEM_STATE_READ_REQUEST (mem_response_flag t))
      else Some (1, Transport buf len (mem_expected_len t) MEM_STATE_READ_LENGTH
                      (mem_response_flag t))
  | MEM_STATE_READ_REQUEST =>
      buf ← store (rfs_buffer t) (ELUARPC_START_OFFSET + Z.to_nat (mem_read_len t)) c;
      let len := mem_read_len t + 1 in
      if len =? mem_expected_len t then
        Some (1, Transport buf len (mem_expected_len t) MEM_STATE_REQUEST_DONE true)
      else
        Some (1, Transport buf len (mem_expected_len t) MEM_STATE_READ_REQUEST
                   (mem_response_flag t))
  | MEM_STATE_REQUEST_DONE => Some (1, t)
  end.

Definition rfs_mem_has_response (t : transport) : bool := mem_response_flag t.

(** Execute the request; the response is the packet left in the buffer, and
    empty if its size cannot be read. *)
Definition rfs_mem_write_response {St} (px : posix St) basedir fuel (t : transport) (st : St)
  : option (list Z * transport * St) :=
  '(_, buf, st) ← server_execute_request px basedir fuel (rfs_buffer t) st;
  let t := Transport buf (mem_read_len t) (mem_expected_len t) (mem_read_state t)
             (mem_response_flag t) in
  '(e, plen) ← eluarpc_get_packet_size buf 0;
  if e =? ELUARPC_ERR then Some ([], t, st)
  else resp ← loads buf 0 (Z.to_nat plen); Some (resp, t, st).

(** What the multiplexer does with each byte for the file server: feed it, and
    when a response is ready collect it and start a new request. *)
Definition mem_feed {St} (px : posix St) basedir fuel (ts : transport * St) (c : Z)
  : option (list Z * (transport * St)) :=
  let '(t, st) := ts in
  '(_, t) ← rfs_mem_read_request_packet t c;
  if rfs_mem_has_response t then
    '(resp, t, st) ← rfs_mem_write_response px basedir fuel t st;
    Some (resp, (rfs_mem_start_request t, st))
  else Some ([], (t, st)).
Fixpoint mem_feeds {St} (px : posix St) basedir fuel (ts : transport * St) (cs : list Z)
  : option (list Z * (transport * St)) :=
  match cs with
  | [] => Some ([], ts)
  | c :: cs =>
      '(out, ts) ← mem_feed px basedir fuel ts c;
      '(outs, ts) ← mem_feeds px basedir fuel ts cs;
      Some (out ++ outs, ts)
  end.

(** ** The server as a function on messages *)

#[local] Arguments server_get_fullname : simpl never.
#[local] Arguments os_open : simpl never.
#[local] Arguments Z.shiftr : simpl never.

Section Spec.
Context {St : Type} (px : posix St) `{!PosixLaws px} (basedir : list Z) (fuel : nat).

(** What the server is to do with a request: the response, the bytes a read
    response carries, and the new state of the system.  [None] where the
    code misbehaves: a file name that does not fit, or a failed read. *)
Definition serve (req : rfs_msg) (st : St) : option (rfs_msg * list Z * St) :=
  match req with
  | OpenReq s flags mode =>
      full ← server_get_fullname basedir (Some s);
      let '(fd, st) := os_open px full flags mode st in Some (OpenRes fd, [], st)
  | WriteReq fd buf =>
      let '(r, st) := os_write px fd buf st in Some (WriteRes (u32 r), [], st)
  | ReadReq fd count =>
      let '(r, data, st) := os_read px fd count st in
      if decide (0 <= r) then Some (ReadRes r, data, st) else None
  | CloseReq fd => let '(r, st) := os_close px fd st in Some (CloseRes r, [], st)
  | LseekReq fd o w => let '(r, st) := os_lseek px fd o w st in Some (LseekRes r, [], st)
  | OpendirReq s =>
      full ← server_get_fullname basedir (Some s);
      let '(d, st) := os_opendir px full st in Some (OpendirRes d, [], st)
  | ReaddirReq d =>
      '(name, st) ← os_readdir px fuel d st;
      match name with
      | None => Some (ReaddirRes None 0 0, [], st)
      | Some nm =>
          full ← server_get_fullname basedir (Some nm);
          let '(fd, st) := os_open px full RFS_OPEN_FLAG_RDONLY 0 st in
          if decide (fd <> 0) then
            let '(fsize, st) := os_lseek px fd 0 RFS_LSEEK_END st in
            let '(_, st) := os_close px fd st in
            Some (ReaddirRes (Some nm) (u32 fsize) 0, [], st)
          else Some (ReaddirRes None 0 0, [], st)
      end
  | ClosedirReq d =>
      let '(_, st) := os_closedir px d st in Some (ClosedirRes (s32 d), [], st)
  | _ => None
  end.

(** The data of a response, where the client will find it. *)
Definition carries (m : list Z) (p : nat) (res : rfs_msg) (data : list Z) : Prop :=
  match res with
  | ReadRes n => n = Z.of_nat (length data) /\
                 loads m (response_data_at p) (length data) = Some data
  | ReaddirRes (Some s) _ _ => str_at m (response_data_at p) = Some s
  | _ => True
  end.

(** The response fits the server's buffer. *)
Lemma respond_holds m (st : St) res : msg_ok res -> (msg_size res <= length m)%nat ->
  exists m', respond (write_msg m 0 res) st = Some (SERVER_OK, m', st) /\
    holds_msg m' 0 res /\ msg_data m m' 0 res /\ length m' = length m /\
    (Forall is_u8 m -> Forall is_u8 m').
Proof.
  intros Hok Hl. destruct (write_msg_holds m 0 res Hok) as (m' & Hw & H); [lia|].
  exists m'. unfold respond. by rewrite Hw.
Qed.
Lemma respond_carries m (st : St) res : msg_ok res -> (msg_size res <= length m)%nat ->
  (forall n, res <> ReadRes n) ->
  exists m', respond (write_msg m 0 res) st = Some (SERVER_OK, m', st) /\
    holds_msg m' 0 res /\ carries m' 0 res [] /\ length m' = length m /\
    (Forall is_u8 m -> Forall is_u8 m').
Proof.
  intros Hok Hl Hr. destruct (respond_holds m st res Hok Hl) as (m' & H1 & H2 & H3 & H4 & H5).
  exists m'. split_and!; try done. destruct res; try done. by destruct (Hr readbytes).
Qed.

Lemma os_open_range path fl md st : is_s32 (os_open px path fl md st).1.
Proof. apply px_open_range. Qed.
Lemma os_lseek_range fd o w st : is_s32 (os_lseek px fd o w st).1.
Proof.
  unfold os_lseek. repeat case_match; try apply px_lseek_range. simpl. word_lia.
Qed.
Lemma os_readdir_name n d st nm st' : os_readdir px n d st = Some (Some nm, st') ->
  is_cstr nm /\ (length nm <= RFS_MAX_FNAME_SIZE)%nat.
Proof.
  revert st. induction n as [|n IH]; intros st; [done|]. cbn [os_readdir].
  pose proof (px_readdir_name d st) as Hn.
  destruct (px_readdir px d st) as [[[d_name [|]]|] st1]; simpl in *; [|by apply IH|done].
  intros [= <- <-]. split; [by apply Forall_take|]. rewrite length_take. lia.
Qed.

Lemma serve_ok req st res data st' : msg_ok req ->
  serve req st = Some (res, data, st') -> msg_ok res.
Proof.
  intros Hok. destruct req; simpl in *; try done.
  - destruct (server_get_fullname _ _) as [full|]; simpl; [|done].
    pose proof (os_open_range full flags mode st). destruct (os_open _ _ _ _ _).
    by intros [= <- <- <-].
  - destruct (os_write _ _ _ _). intros [= <- <- <-]. simpl. auto with words.
  - pose proof (px_read_range fd count st ltac:(apply Hok)) as H. unfold os_read.
    destruct (px_read _ _ _ _) as [[r b] st1]. case_decide; [|done].
    intros [= <- <- <-]. simpl. destruct H as (H & _). word_lia.
  - pose proof (px_close_range fd st). unfold os_close. destruct (px_close _ _ _).
    by intros [= <- <- <-].
  - pose proof (os_lseek_range fd offset whence st). destruct (os_lseek _ _ _ _ _).
    by intros [= <- <- <-].
  - destruct (server_get_fullname _ _) as [full|]; simpl; [|done].
    pose proof (px_opendir_range full st). unfold os_opendir. destruct (px_opendir _ _ _).
    by intros [= <- <- <-].
  - destruct (os_readdir _ _ _ _) as [[[nm|] st1]|] eqn:E; simpl; [| |done].
    + destruct (server_get_fullname _ _) as [full|]; simpl; [|done].
      destruct (os_open _ _ _ _ _) as [fd st2]. apply os_readdir_name in E as [Hn Hl].
      case_decide; [|intros [= <- <- <-]; done].
      destruct (os_lseek _ _ _ _ _) as [fs st3], (os_close _ _ _) as [? st4].
      intros [= <- <- <-]. simpl. unfold strlen, RFS_MAX_FNAME_SIZE in *.
      split_and!; [done|lia|auto with words|done].
    + by intros [= <- <- <-].
  - destruct (os_closedir _ _ _). intros [= <- <- <-]. simpl. auto with words.
Qed.

(** The handlers of server.c, on a buffer that holds the request, do what
    [serve] says and leave the response in the same buffer. *)
Definition implements (h : handler) (req : rfs_msg) : Prop := forall m st res data st',
  msg_ok req -> holds_msg m 0 req -> serve req st = Some (res, data, st') ->
  (msg_size res <= length m)%nat ->
  exists m', h m st = Some (SERVER_OK, m', st') /\ holds_msg m' 0 res /\
    carries m' 0 res data /\ length m' = length m /\ (Forall is_u8 m -> Forall is_u8 m').

(** Run a handler up to the system call. *)
Ltac start_handler req :=
  intros m st res data st' Hok Hh Hs Hl;
  pose proof (serve_ok _ _ _ _ _ Hok Hs) as Hres;
  pose proof (read_msg_holds m 0 req Hok Hh) as Hr;
  pose proof (holds_msg_data m 0 req Hok Hh) as Hd;
  simpl in Hr, Hd, Hs.

Lemma server_open_ok s f md : implements (server_open px basedir) (OpenReq s f md).
Proof.
  start_handler (OpenReq s f md). unfold server_open. rewrite Hr. simpl. rewrite Hd. simpl.
  destruct (server_get_fullname _ _) as [full|]; simpl in *; [|done].
  destruct (os_open _ _ _ _ _) as [fd st1]. injection Hs as <- <- <-.
  by apply (respond_carries m st1 (OpenRes fd)).
Qed.
Lemma server_write_ok fd b : implements (server_write px) (WriteReq fd b).
Proof.
  start_handler (WriteReq fd b). unfold server_write. rewrite Hr. simpl.
  unfold data_ptr. case_decide as Hb; simpl;
    [assert (b = []) as -> by (destruct b; [done|simpl in Hb; lia])
    |rewrite Nat2Z.id, Hd; simpl];
    destruct (os_write _ _ _ _) as [r st1]; injection Hs as <- <- <-;
    by apply (respond_carries m st1 (WriteRes (u32 r))).
Qed.
Lemma server_close_ok fd : implements (server_close px) (CloseReq fd).
Proof.
  start_handler (CloseReq fd). unfold server_close. rewrite Hr. simpl.
  destruct (os_close _ _ _) as [r st1]. injection Hs as <- <- <-.
  by apply (respond_carries m st1 (CloseRes r)).
Qed.
Lemma server_lseek_ok fd o w : implements (server_lseek px) (LseekReq fd o w).
Proof.
  start_handler (LseekReq fd o w). unfold server_lseek. rewrite Hr. simpl.
  destruct (os_lseek _ _ _ _ _) as [r st1]. injection Hs as <- <- <-.
  by apply (respond_carries m st1 (LseekRes r)).
Qed.
Lemma server_opendir_ok s : implements (server_opendir px basedir) (OpendirReq s).
Proof.
  start_handler (OpendirReq s). unfold server_opendir. rewrite Hr. simpl. rewrite Hd. simpl.
  destruct (server_get_fullname _ _) as [full|]; simpl in *; [|done].
  destruct (os_opendir _ _ _) as [d st1]. injection Hs as <- <- <-.
  by apply (respond_carries m st1 (OpendirRes d)).
Qed.
Lemma server_closedir_ok d : implements (server_closedir px) (ClosedirReq d).
Proof.
  start_handler (ClosedirReq d). unfold server_closedir. rewrite Hr. simpl.
  destruct (os_closedir _ _ _) as [r st1]. injection Hs as <- <- <-.
  by apply (respond_carries m st1 (ClosedirRes (s32 d))).
Qed.
Lemma server_readdir_ok d : implements (server_readdir px basedir fuel) (ReaddirReq d).
Proof.
  start_handler (ReaddirReq d). unfold server_readdir. rewrite Hr. simpl.
  destruct (os_readdir _ _ _ _) as [[[nm|] st1]|]; simpl in *; [| |done].
  - destruct (server_get_fullname _ _) as [full|]; simpl in *; [|done].
    destruct (os_open _ _ _ _ _) as [fd st2]. destruct (decide (fd <> 0)).
    + destruct (os_lseek _ _ _ _ _) as [fs st3], (os_close _ _ _) as [? st4].
      injection Hs as <- <- <-.
      by apply (respond_carries m st4 (ReaddirRes (Some nm) (u32 fs) 0)).
    + injection Hs as <- <- <-. by apply (respond_carries m st2 (ReaddirRes None 0 0)).
  - injection Hs as <- <- <-. by apply (respond_carries m st1 (ReaddirRes None 0 0)).
Qed.
Lemma server_read_ok fd n : implements (server_read px) (ReadReq fd n).
Proof.
  start_handler (ReadReq fd n). unfold server_read. rewrite Hr. simpl.
  pose proof (px_read_range fd n st ltac:(apply Hok)) as Hp. unfold os_read in *.
  destruct (px_read _ _ _ _) as [[r b] st1]. destruct Hp as (Hr32 & Hrn & Hlb & Hbb).
  case_decide; [|done]. injection Hs as <- <- <-.
  assert (msg_size (ReadRes r) = ELUARPC_READ_BUF_OFFSET + length b + 6)%nat as Hsz.
  { unfold msg_size, packet_size, items_patch, ELUARPC_END_SIZE, ELUARPC_READ_BUF_OFFSET. simpl.
    rewrite !length_app, length_replicate. simpl. lia. }
  rewrite stores_splice by (done || lia). simpl. rewrite u32_small by done.
  destruct (respond_holds (splice m ELUARPC_READ_BUF_OFFSET b) st1 (ReadRes r))
    as (m' & H1 & H2 & H3 & H4 & H5); [done|rewrite length_splice; lia|].
  rewrite length_splice in H4 by lia. exists m'.
  split_and!; try done; [lia| |by intros; apply H5, splice_bytes].
  simpl in H3. rewrite <- Hlb in H3. rewrite H3.
  change (response_data_at 0) with ELUARPC_READ_BUF_OFFSET.
  apply holds_loads, (patched_holds m); [rewrite length_fmap; lia|].
  apply patched_splice. lia.
Qed.

Lemma execute_ok req : implements (server_execute_request px basedir fuel) req.
Proof.
  intros m st res data st' Hok Hh Hs Hl.
  assert (is_request req = true) as Hreq by (destruct req; done).
  pose proof (holds_msg_id m 0 req Hreq Hh) as Hid.
  unfold server_execute_request. rewrite Hid. simpl.
  destruct req as [s f md| |fd b| |fd n| |fd| |fd o w| |s| |d| |d|]; try done; simpl.
  - by apply (server_open_ok s f md).
  - by apply (server_write_ok fd b).
  - by apply (server_read_ok fd n).
  - by apply (server_close_ok fd).
  - by apply (server_lseek_ok fd o w).
  - by apply (server_opendir_ok s).
  - by apply (server_readdir_ok d).
  - by apply (server_closedir_ok d).
Qed.

(** ** The memory transport delivers requests *)

(** The whole of a request is in the buffer: execute it and start over. *)
Definition finish (buf : list Z) (len : nat) (st : St) : option (list Z * (transport * St)) :=
  ('(resp, t, st) ← rfs_mem_write_response px basedir fuel
     (Transport buf (Z.of_nat len) (Z.of_nat len) MEM_STATE_REQUEST_DONE true) st;
   Some (resp, (rfs_mem_start_request t, st))).

(** A byte that completes nothing changes the transport only. *)
Lemma feeds_quiet t r t' st c cs :
  rfs_mem_read_request_packet t c = Some (r, t') -> mem_response_flag t' = false ->
  mem_feeds px basedir fuel (t, st) (c :: cs) = mem_feeds px basedir fuel (t', st) cs.
Proof.
  intros Hr Hf. cbn [mem_feeds]. unfold mem_feed. rewrite Hr.
  cbn [mbind option_bind]. unfold rfs_mem_has_response. rewrite Hf.
  cbn [mbind option_bind]. by destruct (mem_feeds _ _ _ _ _) as [[??]|].
Qed.
Lemma not_restart c : is_u8 c -> (c =? -1) = false.
Proof. intros. apply Z.eqb_neq. word_lia. Qed.

Lemma feed_request rest : forall buf k st, rest <> [] -> Forall is_u8 rest ->
  (ELUARPC_START_OFFSET + k + length rest <= length buf)%nat ->
  mem_feeds px basedir fuel
    (Transport buf (Z.of_nat k) (Z.of_nat (k + length rest)) MEM_STATE_READ_REQUEST false, st) rest
  = finish (splice buf (ELUARPC_START_OFFSET + k) rest) (k + length rest) st.
Proof.
  induction rest as [|c rest IH]; intros buf k st Hne Hb Hl; [done|].
  apply Forall_cons in Hb as [Hc Hb]. cbn [length] in Hl |- *.
  pose proof (not_restart c Hc) as Hc1.
  destruct rest as [|c' rest].
  - cbn [mem_feeds length]. unfold mem_feed, rfs_mem_read_request_packet. rewrite Hc1.
    cbn [mem_read_state rfs_buffer mem_read_len mem_expected_len].
    unfold store. rewrite Nat2Z.id, u8_small, decide_True by (done || (cbn [length] in Hl; lia)).
    cbn [mbind option_bind].
    rewrite (proj2 (Z.eqb_eq (Z.of_nat k + 1) (Z.of_nat (k + 1)))) by lia.
    cbn [mbind option_bind rfs_mem_has_response mem_response_flag].
    rewrite <- splice_insert, splice_nil by (rewrite ?length_insert; cbn [length] in *; lia).
    unfold finish. replace (Z.of_nat k + 1) with (Z.of_nat (k + 1)) by lia.
    destruct (rfs_mem_write_response _ _ _ _ _) as [[[??]?]|]; [|done].
    cbn [mbind option_bind]. by rewrite app_nil_r.
  - rewrite (feeds_quiet _ 1 (Transport (<[(ELUARPC_START_OFFSET + k)%nat := c]> buf) (Z.of_nat (S k))
      (Z.of_nat (S k + length (c' :: rest))) MEM_STATE_READ_REQUEST false)); [|..|done].
    + rewrite IH; [|done..|rewrite length_insert; cbn [length] in *; lia].
      rewrite Nat.add_succ_r, splice_insert by (cbn [length] in *; lia).
      f_equal. cbn [length]. lia.
    + unfold rfs_mem_read_request_packet. rewrite Hc1.
      cbn [mem_read_state rfs_buffer mem_read_len mem_expected_len].
      unfold store. rewrite Nat2Z.id, u8_small, decide_True by (done || (cbn [length] in Hl; lia)).
      cbn [mbind option_bind]. cbn [length].
      rewrite (proj2 (Z.eqb_neq (Z.of_nat k + 1) (Z.of_nat (k + S (S (length rest)))))) by lia.
      do 3 f_equal; lia.
Qed.

Lemma feed_length_byte buf k c e st cs : is_u8 c -> (k < length buf)%nat -> (k < 3)%nat ->
  mem_feeds px basedir fuel (Transport buf (Z.of_nat k) e MEM_STATE_READ_LENGTH false, st) (c :: cs)
  = mem_feeds px basedir fuel
      (Transport (<[k := c]> buf) (Z.of_nat (S k)) e MEM_STATE_READ_LENGTH false, st) cs.
Proof.
  intros Hc Hl Hk. apply (feeds_quiet _ 1); [|done].
  unfold rfs_mem_read_request_packet. rewrite (not_restart c Hc).
  cbn [mem_read_state rfs_buffer mem_read_len mem_expected_len mem_response_flag].
  unfold store. rewrite Nat2Z.id, u8_small, decide_True by done.
  cbn [mbind option_bind]. unfold ELUARPC_START_OFFSET.
  rewrite (proj2 (Z.eqb_neq (Z.of_nat k + 1) (Z.of_nat 4))) by lia.
  do 3 f_equal; lia.
Qed.
Lemma feed_last_length_byte buf n c e st cs : is_u8 c -> (4 <= length buf)%nat ->
  is_u16 (Z.of_nat n) -> (4 <= n)%nat -> holds (<[3%nat := c]> buf) 0 (size_patch n) ->
  mem_feeds px basedir fuel (Transport buf 3 e MEM_STATE_READ_LENGTH false, st) (c :: cs)
  = mem_feeds px basedir fuel (Transport (<[3%nat := c]> buf) 0 (Z.of_nat (n - 4))
      MEM_STATE_READ_REQUEST false, st) cs.
Proof.
  intros Hc Hl Hn Hn4 Hh. apply (feeds_quiet _ 1); [|done].
  unfold rfs_mem_read_request_packet. rewrite (not_restart c Hc).
  cbn [mem_read_state rfs_buffer mem_read_len mem_expected_len mem_response_flag].
  unfold store. change (Z.to_nat 3) with 3%nat. rewrite u8_small, decide_True by (done || lia).
  cbn [mbind option_bind]. rewrite (get_packet_size_holds _ _ _ Hh), u16_small by done.
  change (3 + 1 =? Z.of_nat ELUARPC_START_OFFSET) with true. cbn [mbind option_bind].
  change (ELUARPC_OK =? ELUARPC_ERR) with false. do 3 f_equal. unfold ELUARPC_START_OFFSET. lia.
Qed.

(** The bytes of a packet, fed one by one, fill the buffer and have the
    request executed. *)
Lemma feed_packet bs t st :
  Forall is_u8 bs -> holds bs 0 (size_patch (length bs)) -> is_u16 (Z.of_nat (length bs)) ->
  (ELUARPC_START_OFFSET < length bs <= length (rfs_buffer t))%nat ->
  mem_feeds px basedir fuel (rfs_mem_start_request t, st) bs
  = finish (splice (rfs_buffer t) 0 bs) (length bs - ELUARPC_START_OFFSET) st.
Proof.
  intros Hb Hh Hs Hl. unfold ELUARPC_START_OFFSET in *.
  destruct bs as [|b0 [|b1 [|b2 [|b3 rest]]]]; simpl in Hl; [lia..|].
  remember (length (b0 :: b1 :: b2 :: b3 :: rest)) as N eqn:HN.
  assert (HN' : N = (4 + length rest)%nat) by done.
  do 4 (let H := fresh "Hb" in apply Forall_cons in Hb as [H Hb]).
  unfold rfs_mem_start_request. set (buf := rfs_buffer t) in *.
  rewrite (feed_length_byte buf 0), (feed_length_byte _ 1), (feed_length_byte _ 2)
    by (done || (rewrite ?length_insert; lia)).
  rewrite (feed_last_length_byte _ N); try done.
  - replace (N - 4)%nat with (0 + length rest)%nat by lia. change 0 with (Z.of_nat 0) at 1.
    rewrite feed_request; [|destruct rest; simpl in *; [lia|done]|done|].
    + f_equal. unfold ELUARPC_START_OFFSET. simpl.
      by rewrite !splice_insert by (rewrite ?length_insert; simpl; lia).
    + rewrite !length_insert. unfold ELUARPC_START_OFFSET. lia.
  - rewrite !length_insert. lia.
  - lia.
  - destruct Hh as [_ Hh]. split; [rewrite !length_insert; simpl in *; lia|].
    intros i b Hi. specialize (Hh i b Hi). pose proof (lookup_lt_Some _ _ _ Hi) as Hi4.
    simpl in Hi4, Hh |- *.
    destruct i as [|[|[|[|i]]]]; [..|simpl in Hi4; lia]; simpl in Hh |- *; injection Hh as ->;
      repeat first [rewrite list_lookup_insert_eq by (rewrite ?length_insert; lia); done
                   |rewrite list_lookup_insert_ne by lia].
Qed.

Lemma holds_splice m p vs a : (p + length vs <= length m)%nat ->
  holds vs 0 a -> holds (splice m p vs) p a.
Proof.
  intros Hl [Hal Ha]. split; [rewrite length_splice; lia|]. intros i b Hi.
  pose proof (lookup_lt_Some _ _ _ Hi). rewrite lookup_splice_new by lia.
  replace (p + i - p)%nat with i by lia. by apply Ha.
Qed.
Lemma holds_take n m p a : (p + length a <= n)%nat -> holds m p a -> holds (take n m) p a.
Proof.
  intros Hn [Hal Ha]. split; [rewrite length_take; lia|]. intros i b Hi.
  pose proof (lookup_lt_Some _ _ _ Hi). rewrite lookup_take_lt by lia. by apply Ha.
Qed.
Lemma loads_take n m p k : (p + k <= n)%nat -> (p + k <= length m)%nat ->
  loads (take n m) p k = loads m p k.
Proof.
  intros Hn Hl. unfold loads. rewrite !decide_True by (rewrite ?length_take; lia).
  rewrite skipn_firstn_comm.
  rewrite take_take. by rewrite Nat.min_l by lia.
Qed.

(** What is left of a response once the bytes behind it are gone. *)
Lemma carries_take m res data : msg_ok res -> holds_msg m 0 res -> carries m 0 res data ->
  carries (take (msg_size res) m) 0 res data.
Proof.
  intros Hok Hh Hc.
  assert (length (packet (msg_items res)) = msg_size res) as Hlen by apply length_packet.
  pose proof Hh as [Hl _].
  assert (holds_msg (take (msg_size res) m) 0 res) as Ht by (apply holds_take; [lia|done]).
  pose proof (holds_msg_data _ _ _ Hok Ht) as Hd.
  destruct res as [| | | | |n| | | | | | | |[s|]| |]; try done.
  destruct Hc as [-> Hc]. split; [done|].
  rewrite loads_take; [done| |rewrite Hlen in Hl;
    revert Hl; unfold msg_size, packet_size, items_patch; simpl].
  - unfold msg_size, packet_size, items_patch, response_data_at, ELUARPC_END_SIZE,
      ELUARPC_READ_BUF_OFFSET. simpl. rewrite !length_app, length_replicate. simpl. lia.
  - unfold response_data_at, ELUARPC_END_SIZE, ELUARPC_READ_BUF_OFFSET.
    rewrite !length_app, length_replicate. simpl. lia.
Qed.

(** A transport between two requests. *)
Definition idle (t : transport) : Prop := rfs_mem_start_request t = t.

(** Request and response fit a buffer of [n] bytes and the length field. *)
Definition fits (req res : rfs_msg) (n : nat) : Prop :=
  (msg_size req <= n)%nat /\ (msg_size res <= n)%nat /\
  is_u16 (Z.of_nat (msg_size req)) /\ is_u16 (Z.of_nat (msg_size res)).

Lemma msg_size_min msg : (ELUARPC_START_OFFSET < msg_size msg)%nat.
Proof.
  unfold msg_size, packet_size, ELUARPC_START_OFFSET, ELUARPC_START_SIZE, ELUARPC_END_SIZE. lia.
Qed.

Lemma serve_request req bs t st res data st' :
  msg_ok req -> Forall is_u8 bs -> length bs = msg_size req -> holds_msg bs 0 req ->
  idle t -> serve req st = Some (res, data, st') -> fits req res (length (rfs_buffer t)) ->
  exists resp t',
    mem_feeds px basedir fuel (t, st) bs = Some (resp, (t', st')) /\
    idle t' /\ length (rfs_buffer t') = length (rfs_buffer t) /\
    length resp = msg_size res /\ holds_msg resp 0 res /\ carries resp 0 res data /\
    (Forall is_u8 (rfs_buffer t) -> Forall is_u8 (rfs_buffer t') /\ Forall is_u8 resp).
Proof.
  intros Hok Hb Hlen Hh Ht Hs (Hf1 & Hf2 & Hf3 & Hf4).
  pose proof (msg_size_min req) as Hmin. pose proof (msg_size_min res) as Hmin'.
  pose proof (serve_ok _ _ _ _ _ Hok Hs) as Hres.
  rewrite <- Ht, feed_packet; [|done|..|by rewrite Hlen|by rewrite Hlen].
  2:{ rewrite Hlen. apply holds_app in Hh as [Hh _]. exact Hh. }
  set (buf := splice (rfs_buffer t) 0 bs).
  assert (length buf = length (rfs_buffer t)) as Hbl by (apply length_splice; lia).
  destruct (execute_ok req buf st res data st') as (m' & Hx & Hm' & Hc & Hl' & Hb'); try done.
  { apply holds_splice; [lia|done]. }
  { by rewrite Hbl. }
  unfold finish, rfs_mem_write_response. cbn [rfs_buffer]. rewrite Hx. cbn [mbind option_bind].
  rewrite (holds_msg_size m' 0 res) by (done || apply Hf4). cbn [mbind option_bind].
  change (ELUARPC_OK =? ELUARPC_ERR) with false. cbv iota.
  unfold loads. rewrite Nat2Z.id, decide_True by lia. cbn [mbind option_bind].
  eexists _, _. split; [reflexivity|]. simpl. rewrite drop_0.
  split_and!; [done|by rewrite Hl', Hbl|rewrite length_take; lia| |by apply carries_take|].
  - apply holds_take; [|done]. by rewrite length_packet.
  - intros Hbt. assert (Forall is_u8 m') by by apply Hb', splice_bytes.
    split; [done|by apply Forall_take].
Qed.
End Spec.

(** C33: the file server, fed a request one byte at a time through the memory
    transport, answers each kind of request as the abstract server does: it
    makes exactly those system calls, and returns one response packet that
    carries their results and data; the transport is then ready for the next
    request. *)
Theorem server_refines_serve {St} (px : posix St) `{!PosixLaws px} basedir fuel
    req bs t st res data st' :
  msg_ok req -> Forall is_u8 bs -> length bs = msg_size req -> holds_msg bs 0 req ->
  idle t -> serve px basedir fuel req st = Some (res, data, st') ->
  fits req res (length (rfs_buffer t)) ->
  exists resp t',
    mem_feeds px basedir fuel (t, st) bs = Some (resp, (t', st')) /\ idle t' /\
    length resp = msg_size res /\
    read_msg resp 0 res = Some (ELUARPC_OK, msg_vals 0 res) /\ carries resp 0 res data.
Proof.
  intros Hok Hb Hlen Hh Ht Hs Hf.
  destruct (serve_request px basedir fuel req bs t st res data st')
    as (resp & t' & H1 & H2 & _ & H3 & H4 & H5 & _); try done.
  exists resp, t'. split_and!; try done. apply read_msg_holds; [|done].
  exact (serve_ok px basedir fuel _ _ _ _ _ Hok Hs).
Qed.

(** What comes after a request that cannot be read is ignored. *)
Lemma feeds_done {St} (px : posix St) basedir fuel cs buf k e st : Forall is_u8 cs ->
  mem_feeds px basedir fuel (Transport buf k e MEM_STATE_REQUEST_DONE false, st) cs
  = Some ([], (Transport buf k e MEM_STATE_REQUEST_DONE false, st)).
Proof.
  induction cs as [|c cs IH]; intros Hb; [done|]. apply Forall_cons in Hb as [Hc Hb].
  rewrite (feeds_quiet px basedir fuel _ 1 (Transport buf k e MEM_STATE_REQUEST_DONE false));
    [by apply IH| |done].
  unfold rfs_mem_read_request_packet. by rewrite not_restart.
Qed.
Lemma get_packet_size_bad m b : m !! 0%nat = Some b -> b <> TYPE_PKT_SIZE -> (4 <= length m)%nat ->
  exists n, eluarpc_get_packet_size m 0 = Some (ELUARPC_ERR, n).
Proof.
  intros Hb Hne Hl. destruct m as [|b0 [|b1 [|b2 [|b3 m]]]]; simpl in Hl; [lia..|].
  injection Hb as ->. unfold eluarpc_get_packet_size, eluarpc_read_u16, eluarpc_read_expect.
  unfold mbind, M_bind, fetch, load, err_if, mret, M_ret. cbn -[TYPE_PKT_SIZE TYPE_INT_16 or16].
  rewrite (proj2 (Z.eqb_neq b TYPE_PKT_SIZE)) by done. cbn -[TYPE_INT_16 or16].
  by destruct (b1 =? TYPE_INT_16); eexists.
Qed.

(** A request whose size field cannot be read (its first byte is not the
    packet size marker) leaves the memory transport where no further byte is
    ever looked at and no response is ever made, until it is reset. *)
Theorem mem_transport_stuck {St} (px : posix St) basedir fuel t st b cs :
  idle t -> length (rfs_buffer t) = RFS_SERVER_BUFFER_SIZE ->
  is_u8 b -> b <> TYPE_PKT_SIZE -> (length cs >= 3)%nat -> Forall is_u8 cs ->
  exists t', mem_feeds px basedir fuel (t, st) (b :: cs) = Some ([], (t', st)) /\
    mem_read_state t' = MEM_STATE_REQUEST_DONE /\ rfs_mem_has_response t' = false.
Proof.
  intros Ht Hl Hb Hne Hn Hcs. destruct cs as [|c1 [|c2 [|c3 cs]]]; simpl in Hn; [lia..|].
  do 3 (let H := fresh "Hb" in apply Forall_cons in Hcs as [H Hcs]).
  rewrite <- Ht. unfold rfs_mem_start_request.
  assert (4 <= length (rfs_buffer t))%nat as Hl4 by (rewrite Hl; vm_compute; lia).
  set (buf := rfs_buffer t) in *.
  rewrite (feed_length_byte px basedir fuel buf 0), (feed_length_byte px basedir fuel _ 1),
    (feed_length_byte px basedir fuel _ 2) by (done || (rewrite ?length_insert; lia)).
  set (buf3 := <[2%nat := c2]> _). set (buf4 := <[3%nat := c3]> buf3).
  exists (Transport buf4 0 0 MEM_STATE_REQUEST_DONE false). split; [|done].
  rewrite (feeds_quiet px basedir fuel _ 0 (Transport buf4 0 0 MEM_STATE_REQUEST_DONE false));
    [by apply feeds_done| |done].
  unfold rfs_mem_read_request_packet. rewrite (not_restart c3) by done.
  cbn [mem_read_state rfs_buffer mem_read_len mem_expected_len mem_response_flag].
  assert (length buf3 = length buf) as Hl3 by (unfold buf3; by rewrite !length_insert).
  unfold store. change (Z.to_nat (Z.of_nat 3)) with 3%nat.
  rewrite u8_small, decide_True by (done || lia). cbn [mbind option_bind].
  change (Z.of_nat 3 + 1 =? Z.of_nat ELUARPC_START_OFFSET) with true. cbv iota.
  fold buf4. destruct (get_packet_size_bad buf4 b) as [n ->]; [| |..|done].
  - unfold buf4, buf3. rewrite !list_lookup_insert_ne by lia.
    apply list_lookup_insert_eq. lia.
  - done.
  - unfold buf4. rewrite length_insert. lia.
Qed.
