(* ===== verification/RfsClient.v ===== *)
(** * RfsClient: the remote file system client and its round trip

    Models src/remotefs/client.c (one request, one response), the flag and
    seek mode translation of src/remotefs/elua_os_io.c, and the chunked
    transfers of src/remotefs/elua_rfs.c.  [rfsc_send] and [rfsc_recv], the
    functions [rfsc_setup] installs, are arguments.

    The second half connects the client to the server of RfsServer through the
    memory transport and shows that a client call is the server's call. *)

From S2P Require Import Prelude Eluarpc Remotefs RfsServer.

Definition CLIENT_OK : Z := 0.
Definition CLIENT_ERR : Z := 1.

(** ** elua_os_io.c *)

Section OsIo.
(** eLua's own <fcntl.h> values. *)
Variable c : fcntl.

Definition os_open_sys_flags_to_rfs_flags (sysflags : Z) : Z :=
  let f := eluarpc_replace_flag sysflags (O_APPEND c) RFS_OPEN_FLAG_APPEND in
  let f := Z.lor f (eluarpc_replace_flag sysflags (O_CREAT c) RFS_OPEN_FLAG_CREAT) in
  let f := Z.lor f (eluarpc_replace_flag sysflags (O_EXCL c) RFS_OPEN_FLAG_EXCL) in
  let f := Z.lor f (eluarpc_replace_flag sysflags (O_TRUNC c) RFS_OPEN_FLAG_TRUNC) in
  let f := Z.lor f (eluarpc_replace_flag sysflags (O_SYNC c) RFS_OPEN_FLAG_SYNC) in
  let f := Z.lor f (eluarpc_replace_flag sysflags (O_RDONLY c) RFS_OPEN_FLAG_RDONLY) in
  let f := Z.lor f (eluarpc_replace_flag sysflags (O_WRONLY c) RFS_OPEN_FLAG_WRONLY) in
  Z.lor f (eluarpc_replace_flag sysflags (O_RDWR c) RFS_OPEN_FLAG_RDWR).

Definition os_lseek_sys_whence_to_rfs_whence (syswhence : Z) : Z :=
  if syswhence =? SEEK_SET c then RFS_LSEEK_SET
  else if syswhence =? SEEK_CUR c then RFS_LSEEK_CUR
  else if syswhence =? SEEK_END c then RFS_LSEEK_END
  else 0.
End OsIo.

(** ** client.c *)

Section Client.
Context {L : Type}.
(** The link: send bytes and report how many went out; receive at most a
    number of bytes within a timeout. *)
Variable rfsc_send : list Z -> L -> option (Z * L).
Variable rfsc_recv : Z -> Z -> L -> option (list Z * L).
Variable rfsc_timeout : Z.
Variable c : fcntl.
(** [ELUA_CPU_LINUX]: the simulator does not empty the receive buffer. *)
Variable linux : bool.
(** Bound on the bytes the emptying loop drops. *)
Variable fuel : nat.

(** Receive [size] bytes to the buffer at [p]. *)
Definition recv_at (buf : list Z) (p : nat) (size timeout : Z) (l : L)
  : option (Z * list Z * L) :=
  '(bs, l) ← rfsc_recv size timeout l;
  buf ← stores buf p bs;
  Some (Z.of_nat (length bs), buf, l).

(** [while( rfsc_recv( rfsc_buffer, 1, 0 ) == 1 );] *)
Fixpoint rfsch_empty (fuel : nat) (buf : list Z) (l : L) : option (list Z * L) :=
  match fuel with
  | O => None
  | S fuel =>
      '(n, buf, l) ← recv_at buf 0 1 0 l;
      if n =? 1 then rfsch_empty fuel buf l else Some (buf, l)
  end.

Definition rfsch_send_request_read_response (buf : list Z) (l : L)
  : option (Z * list Z * L) :=
  '(buf, l) ← (if linux then Some (buf, l) else rfsch_empty fuel buf l);
  '(e, temp16) ← eluarpc_get_packet_size buf 0;
  if e =? ELUARPC_ERR then Some (CLIENT_ERR, buf, l) else
  req ← loads buf 0 (Z.to_nat temp16);
  '(sent, l) ← rfsc_send req l;
  if negb (sent =? temp16) then Some (CLIENT_ERR, buf, l) else
  '(readbytes, buf, l) ← recv_at buf 0 (Z.of_nat ELUARPC_START_OFFSET) rfsc_timeout l;
  if negb (readbytes =? Z.of_nat ELUARPC_START_OFFSET) then Some (CLIENT_ERR, buf, l) else
  '(e, temp16) ← eluarpc_get_packet_size buf 0;
  if e =? ELUARPC_ERR then Some (CLIENT_ERR, buf, l) else
  let rest := u32 (temp16 - Z.of_nat ELUARPC_START_OFFSET) in
  '(readbytes, buf, l) ← recv_at buf ELUARPC_START_OFFSET rest rfsc_timeout l;
  if negb (readbytes =? rest) then Some (CLIENT_ERR, buf, l)
  else Some (CLIENT_OK, buf, l).

(** The body all operations share: a written request is sent, the response
    is read; [err] where the code returns its error value. *)
Definition exchange (request : option (list Z))
  (read : list Z -> nat -> option (Z * list rval)) (l : L)
  : option (option (list rval) * list Z * L) :=
  buf ← request;
  '(e, buf, l) ← rfsch_send_request_read_response buf l;
  if e =? CLIENT_ERR then Some (None, buf, l) else
  '(e, vs) ← read buf 0%nat;
  if e =? ELUARPC_ERR then Some (None, buf, l) else Some (Some vs, buf, l).

Definition int_result (err : Z) (r : option (option (list rval) * list Z * L))
  : option (Z * list Z * L) :=
  '(vs, buf, l) ← r;
  match vs with
  | None => Some (err, buf, l)
  | Some [OInt v] => Some (v, buf, l)
  | _ => None
  end.

Definition rfsc_open (pathname : list Z) (flags mode : Z) (buf : list Z) (l : L) :=
  int_result (-1) (exchange
    (remotefs_open_write_request buf 0 pathname (os_open_sys_flags_to_rfs_flags c flags) mode)
    remotefs_open_read_response l).

Definition rfsc_write (fd : Z) (data : list Z) (buf : list Z) (l : L) :=
  '(count, buf, l) ← int_result (-1) (exchange
    (remotefs_write_write_request buf 0 fd data (Z.of_nat (length data)))
    remotefs_write_read_response l);
  Some (s32 count, buf, l).

(** Also returns the bytes copied to the caller's buffer. *)
Definition rfsc_read (fd count : Z) (buf : list Z) (l : L)
  : option (Z * list Z * list Z * L) :=
  '(vs, buf, l) ← exchange (remotefs_read_write_request buf 0 fd count)
                    remotefs_read_read_response l;
  match vs with
  | None => Some (-1, [], buf, l)
  | Some [OPtr resbuf; OInt count] =>
      data ← match resbuf with Some q => loads buf q (Z.to_nat count)
             | None => if count =? 0 then Some [] else None end;
      Some (s32 count, data, buf, l)
  | _ => None
  end.

Definition rfsc_lseek (fd offset whence : Z) (buf : list Z) (l : L) :=
  int_result (-1) (exchange
    (remotefs_lseek_write_request buf 0 fd offset (os_lseek_sys_whence_to_rfs_whence c whence))
    remotefs_lseek_read_response l).

Definition rfsc_close (fd : Z) (buf : list Z) (l : L) :=
  int_result (-1) (exchange (remotefs_close_write_request buf 0 fd)
    remotefs_close_read_response l).

Definition rfsc_opendir (name : list Z) (buf : list Z) (l : L) :=
  int_result 0 (exchange (remotefs_opendir_write_request buf 0 name)
    remotefs_opendir_read_response l).

(** The name the caller finds through [*pname], with the size and the time;
    [None]: [*pname] is [NULL]. *)
Definition rfsc_readdir (d : Z) (buf : list Z) (l : L)
  : option (option (list Z * Z * Z) * list Z * L) :=
  '(vs, buf, l) ← exchange (remotefs_readdir_write_request buf 0 d)
                    remotefs_readdir_read_response l;
  match vs with
  | None | Some [OPtr None; OInt _; OInt _] => Some (None, buf, l)
  | Some [OPtr (Some q); OInt size; OInt time] =>
      name ← str_at buf q; Some (Some (name, size, time), buf, l)
  | _ => None
  end.

Definition rfsc_closedir (d : Z) (buf : list Z) (l : L) :=
  int_result (-1) (exchange (remotefs_closedir_write_request buf 0 d)
    remotefs_closedir_read_response l).

(** ** elua_rfs.c: transfers in pieces the buffer can hold *)

(** [1 << RFS_BUFFER_SIZE], less what a write request adds. *)
Definition RFS_REAL_BUFFER_SIZE (buf : list Z) : Z :=
  Z.of_nat (length buf) - Z.of_nat ELUARPC_WRITE_REQUEST_EXTRA.

(** [total], a signed 32-bit number in the code, is at most the number of bytes asked
    for; it is not cut to its width, since only 2^31 bytes, more than the memory of
    these boards, would exceed it. *)
Fixpoint rfs_write_loop (n : nat) (fd : Z) (p : list Z) (total : Z) (buf : list Z) (l : L)
  : option (Z * list Z * L) :=
  match n with
  | O => None
  | S n =>
      let len := Z.of_nat (length p) in
      if len =? 0 then Some (total, buf, l) else
      let towrite := if len >? RFS_REAL_BUFFER_SIZE buf then RFS_REAL_BUFFER_SIZE buf else len in
      '(res, buf, l) ← rfsc_write fd (take (Z.to_nat towrite) p) buf l;
      if res =? -1 then Some (total, buf, l)
      else if u32 res <? towrite then Some (total + res, buf, l)
      else rfs_write_loop n fd (drop (Z.to_nat towrite) p) (total + res) buf l
  end.
Definition rfs_write_r (fd : Z) (p : list Z) (buf : list Z) (l : L) :=
  rfs_write_loop (S (length p)) fd p 0 buf l.

Fixpoint rfs_read_loop (n : nat) (fd len total : Z) (acc : list Z) (buf : list Z) (l : L)
  : option (Z * list Z * list Z * L) :=
  match n with
  | O => None
  | S n =>
      if len =? 0 then Some (total, acc, buf, l) else
      let toread := if len >? RFS_REAL_BUFFER_SIZE buf then RFS_REAL_BUFFER_SIZE buf else len in
      '(res, data, buf, l) ← rfsc_read fd toread buf l;
      if res =? -1 then Some (total, acc, buf, l)
      else if u32 res <? toread then Some (total + res, acc ++ data, buf, l)
      else rfs_read_loop n fd (len - toread) (total + res) (acc ++ data) buf l
  end.
Definition rfs_read_r (fd len : Z) (buf : list Z) (l : L) :=
  rfs_read_loop (S (Z.to_nat len)) fd len 0 [] buf l.
End Client.

(** ** Flags across the link *)

(** The flags eLua's [open] is given, in the server's own values: a flag that
    is set contributes the server's value of the same name. *)
Definition if_set (flags f r : Z) : Z := if Z.land flags f =? 0 then 0 else r.
Definition translate_open_flags (c s : fcntl) (flags : Z) : Z :=
  foldl (λ acc fr, Z.lor acc (if_set flags fr.1 fr.2)) 0
    [(O_APPEND c, O_APPEND s); (O_CREAT c, O_CREAT s); (O_EXCL c, O_EXCL s);
     (O_TRUNC c, O_TRUNC s); (O_SYNC c, O_SYNC s); (O_RDONLY c, O_RDONLY s);
     (O_WRONLY c, O_WRONLY s); (O_RDWR c, O_RDWR s)].

(** The flags on the wire, from what is set. *)
Definition bit_of (b : bool) (f : Z) : Z := if b then 0 else f.
Definition wire_flags (b0 b1 b2 b3 b4 b5 b6 b7 : bool) : Z :=
  Z.lor (Z.lor (Z.lor (Z.lor (Z.lor (Z.lor (Z.lor (bit_of b0 RFS_OPEN_FLAG_APPEND)
    (bit_of b1 RFS_OPEN_FLAG_CREAT)) (bit_of b2 RFS_OPEN_FLAG_EXCL))
    (bit_of b3 RFS_OPEN_FLAG_TRUNC)) (bit_of b4 RFS_OPEN_FLAG_SYNC))
    (bit_of b5 RFS_OPEN_FLAG_RDONLY)) (bit_of b6 RFS_OPEN_FLAG_WRONLY))
    (bit_of b7 RFS_OPEN_FLAG_RDWR).
Lemma wire_flags_test b0 b1 b2 b3 b4 b5 b6 b7 :
  let w := wire_flags b0 b1 b2 b3 b4 b5 b6 b7 in
  (λ f, Z.land w f =? 0) <$> [RFS_OPEN_FLAG_APPEND; RFS_OPEN_FLAG_CREAT; RFS_OPEN_FLAG_EXCL;
     RFS_OPEN_FLAG_TRUNC; RFS_OPEN_FLAG_SYNC; RFS_OPEN_FLAG_RDONLY; RFS_OPEN_FLAG_WRONLY;
     RFS_OPEN_FLAG_RDWR] = [b0; b1; b2; b3; b4; b5; b6; b7].
Proof. by destruct b0, b1, b2, b3, b4, b5, b6, b7. Qed.

(** The flags survive the trip over the link, whatever values the two C
    libraries give them. *)
Lemma open_flags_translated {St} (px : posix St) c flags :
  os_open_realflags px (os_open_sys_flags_to_rfs_flags c flags)
  = translate_open_flags c (px_fcntl px) flags.
Proof.
  assert (os_open_sys_flags_to_rfs_flags c flags = wire_flags
    (Z.land flags (O_APPEND c) =? 0) (Z.land flags (O_CREAT c) =? 0)
    (Z.land flags (O_EXCL c) =? 0) (Z.land flags (O_TRUNC c) =? 0)
    (Z.land flags (O_SYNC c) =? 0) (Z.land flags (O_RDONLY c) =? 0)
    (Z.land flags (O_WRONLY c) =? 0) (Z.land flags (O_RDWR c) =? 0)) as -> by done.
  unfold os_open_realflags, eluarpc_replace_flag, translate_open_flags, if_set.
  cbn [foldl fst snd]. generalize (Z.land flags (O_APPEND c) =? 0), (Z.land flags (O_CREAT c) =? 0),
    (Z.land flags (O_EXCL c) =? 0), (Z.land flags (O_TRUNC c) =? 0),
    (Z.land flags (O_SYNC c) =? 0), (Z.land flags (O_RDONLY c) =? 0),
    (Z.land flags (O_WRONLY c) =? 0), (Z.land flags (O_RDWR c) =? 0).
  intros b0 b1 b2 b3 b4 b5 b6 b7. pose proof (wire_flags_test b0 b1 b2 b3 b4 b5 b6 b7) as H.
  cbv zeta in H. cbn [fmap list_fmap] in H. set (w := wire_flags _ _ _ _ _ _ _ _) in *.
  clearbody w. injection H as <- <- <- <- <- <- <- <-. by rewrite Z.lor_0_l.
Qed.

Lemma wire_flags_range c flags : is_s32 (os_open_sys_flags_to_rfs_flags c flags).
Proof.
  change (os_open_sys_flags_to_rfs_flags c flags) with (wire_flags
    (Z.land flags (O_APPEND c) =? 0) (Z.land flags (O_CREAT c) =? 0)
    (Z.land flags (O_EXCL c) =? 0) (Z.land flags (O_TRUNC c) =? 0)
    (Z.land flags (O_SYNC c) =? 0) (Z.land flags (O_RDONLY c) =? 0)
    (Z.land flags (O_WRONLY c) =? 0) (Z.land flags (O_RDWR c) =? 0)).
  generalize (Z.land flags (O_APPEND c) =? 0), (Z.land flags (O_CREAT c) =? 0),
    (Z.land flags (O_EXCL c) =? 0), (Z.land flags (O_TRUNC c) =? 0),
    (Z.land flags (O_SYNC c) =? 0), (Z.land flags (O_RDONLY c) =? 0),
    (Z.land flags (O_WRONLY c) =? 0), (Z.land flags (O_RDWR c) =? 0).
  intros b0 b1 b2 b3 b4 b5 b6 b7. apply (bool_decide_unpack _).
  by destruct b0, b1, b2, b3, b4, b5, b6, b7.
Qed.
(** A seek mode in the server's values; [None]: no mode the client knows. *)
Definition translate_whence (c s : fcntl) (whence : Z) : option Z :=
  if whence =? SEEK_SET c then Some (SEEK_SET s)
  else if whence =? SEEK_CUR c then Some (SEEK_CUR s)
  else if whence =? SEEK_END c then Some (SEEK_END s)
  else None.
Lemma whence_range c whence : is_s32 (os_lseek_sys_whence_to_rfs_whence c whence).
Proof. unfold os_lseek_sys_whence_to_rfs_whence. by repeat case_match; apply (bool_decide_unpack _). Qed.
Lemma whence_translated {St} (px : posix St) c fd off whence st :
  os_lseek px fd off (os_lseek_sys_whence_to_rfs_whence c whence) st =
  match translate_whence c (px_fcntl px) whence with
  | Some w => px_lseek px fd off w st
  | None => (-1, st)
  end.
Proof.
  unfold os_lseek, os_lseek_sys_whence_to_rfs_whence, translate_whence.
  by repeat case_match.
Qed.

(** ** The client and the server, connected *)

(** The link: the server's transport and system, and the bytes of responses
    the client has not read yet. *)
Definition link (St : Type) : Type := transport * St * list Z.

#[local] Arguments server_get_fullname : simpl never.
#[local] Arguments os_open : simpl never.

Section System.
Context {St : Type} (px : posix St) `{!PosixLaws px} (basedir : list Z) (skips : nat).
Context (c : fcntl) (linux : bool) (timeout : Z) (fuel : nat) (Hfuel : (0 < fuel)%nat).

Definition link_send (bs : list Z) (l : link St) : option (Z * link St) :=
  let '(t, st, q) := l in
  '(out, (t, st)) ← mem_feeds px basedir skips (t, st) bs;
  Some (Z.of_nat (length bs), (t, st, q ++ out)).
Definition link_recv (size timeout : Z) (l : link St) : option (list Z * link St) :=
  let '(t, st, q) := l in
  Some (take (Z.to_nat size) q, (t, st, drop (Z.to_nat size) q)).

Lemma link_recv_at buf p size to t st bs q : Forall is_u8 bs ->
  Z.to_nat size = length bs -> (p + length bs <= length buf)%nat ->
  recv_at link_recv buf p size to (t, st, bs ++ q)
  = Some (Z.of_nat (length bs), splice buf p bs, (t, st, q)).
Proof.
  intros Hb Hs Hl. unfold recv_at, link_recv. rewrite Hs, take_app_length, drop_app_length.
  cbn [mbind option_bind]. by rewrite stores_splice by done.
Qed.
Lemma link_empty buf t st :
  rfsch_empty link_recv fuel buf (t, st, []) = Some (buf, (t, st, [])).
Proof.
  destruct fuel; [lia|]. cbn [rfsch_empty]. unfold recv_at, link_recv.
  rewrite take_nil, drop_nil. done.
Qed.

(** Request and response also fit the client's buffer. *)
Definition fits_link (req res : rfs_msg) (buf : list Z) (t : transport) : Prop :=
  fits req res (length buf) /\ fits req res (length (rfs_buffer t)).

Definition send_request buf l :=
  rfsch_send_request_read_response link_send link_recv timeout linux fuel buf l.

Lemma carries_splice buf resp res data : msg_ok res -> holds_msg resp 0 res ->
  carries resp 0 res data -> (length resp <= length buf)%nat -> length resp = msg_size res ->
  holds_msg (splice buf 0 resp) 0 res /\ carries (splice buf 0 resp) 0 res data.
Proof.
  intros Hok Hh Hc Hl Hsz.
  assert (holds_msg (splice buf 0 resp) 0 res) as Hh' by (apply holds_splice; [lia|done]).
  split; [done|]. pose proof (holds_msg_data _ _ _ Hok Hh') as Hd.
  destruct res as [| | | | |n| | | | | | | |[s|]| |]; try done.
  destruct Hc as [-> Hc]. split; [done|]. apply holds_loads in Hc. apply holds_loads.
  destruct Hc as [Hc1 Hc2]. split; [rewrite length_splice; lia|]. intros i b Hi.
  pose proof (lookup_lt_Some _ _ _ Hi). rewrite lookup_splice_new by lia.
  rewrite Nat.sub_0_r. by apply Hc2.
Qed.

Lemma send_request_serves req buf t st res data st' :
  msg_ok req -> Forall is_u8 buf -> Forall is_u8 (rfs_buffer t) -> holds_msg buf 0 req ->
  idle t -> serve px basedir skips req st = Some (res, data, st') -> fits_link req res buf t ->
  exists buf' t', send_request buf (t, st, []) = Some (CLIENT_OK, buf', (t', st', [])) /\
    idle t' /\ length (rfs_buffer t') = length (rfs_buffer t) /\
    Forall is_u8 buf' /\ Forall is_u8 (rfs_buffer t') /\
    holds_msg buf' 0 res /\ carries buf' 0 res data /\ length buf' = length buf.
Proof.
  intros Hok Hb Hbt Hh Ht Hs [(Hf1 & Hf2 & Hf3 & Hf4) Hf].
  pose proof (serve_ok px basedir skips _ _ _ _ _ Hok Hs) as Hres.
  pose proof (msg_size_min res) as Hmin.
  set (bs := take (msg_size req) buf).
  assert (length bs = msg_size req) as Hlen by (unfold bs; rewrite length_take; lia).
  destruct (serve_request px basedir skips req bs t st res data st')
    as (resp & t' & Hx & Ht' & Htl & Hrl & Hrh & Hrc & Hby); try done.
  { by apply Forall_take. }
  { apply holds_take; [|done]. by rewrite length_packet. }
  destruct (Hby Hbt) as [Hbt' Hbr].
  destruct (carries_splice buf resp res data) as [Hh' Hc']; [done..|lia|done|].
  exists (splice buf 0 resp), t'. split; [|split_and!; try done];
    [|by apply splice_bytes|by apply length_splice; lia].
  unfold send_request, rfsch_send_request_read_response.
  replace (if linux then _ else _) with (Some (buf, (t, st, @nil Z)))
    by (destruct linux; [done|by rewrite link_empty]).
  cbn [mbind option_bind]. rewrite (holds_msg_size buf 0 req) by (done || apply Hf3).
  cbn [mbind option_bind]. change (ELUARPC_OK =? ELUARPC_ERR) with false. cbv iota.
  unfold loads. rewrite Nat2Z.id, decide_True by lia. cbn [mbind option_bind].
  rewrite drop_0. fold bs. unfold link_send. rewrite Hx. cbn [mbind option_bind].
  rewrite Hlen, Z.eqb_refl. cbn [negb app].
  pose proof (take_drop ELUARPC_START_OFFSET resp) as Hsplit.
  assert (length (take ELUARPC_START_OFFSET resp) = ELUARPC_START_OFFSET) as Hl4
    by (rewrite length_take; lia).
  rewrite <- Hsplit at 1.
  rewrite link_recv_at; [|by apply Forall_take|by rewrite Hl4, Nat2Z.id|lia].
  cbn [mbind option_bind]. rewrite Hl4, Z.eqb_refl. cbn [negb].
  rewrite (get_packet_size_holds _ 0 (msg_size res)).
  2:{ apply holds_splice; [lia|]. apply holds_app in Hrh as [Hrh _].
      apply holds_take; [simpl; unfold ELUARPC_START_OFFSET; lia|exact Hrh]. }
  cbn [mbind option_bind]. change (ELUARPC_OK =? ELUARPC_ERR) with false. cbv iota.
  rewrite (u16_small (Z.of_nat (msg_size res))) by done.
  rewrite u32_small by (unfold ELUARPC_START_OFFSET in *; word_lia).
  rewrite <- (app_nil_r (drop ELUARPC_START_OFFSET resp)).
  rewrite link_recv_at; [|by apply Forall_drop|rewrite length_drop; lia
    |rewrite length_drop, length_splice; lia].
  cbn [mbind option_bind]. rewrite length_drop.
  rewrite (proj2 (Z.eqb_eq _ _)) by lia. cbn [negb]. do 3 f_equal.
  rewrite <- Hl4 at 2. rewrite <- (Nat.add_0_l (length _)), splice_app; rewrite Hsplit;
    [done|lia].
Qed.

(** Between two calls: the client's buffer and the server's transport, of
    fixed sizes, hold bytes; nothing is on its way. *)
Definition ready (n k : nat) (buf : list Z) (l : link St) : Prop :=
  let '(t, st, q) := l in
  Forall is_u8 buf /\ Forall is_u8 (rfs_buffer t) /\ idle t /\ q = [] /\
  length buf = n /\ length (rfs_buffer t) = k.
Definition link_st (l : link St) : St := l.1.2.

Abbreviation rfsc_exchange := (exchange link_send link_recv timeout linux fuel).

(** A call returns [a], the system is then [st'], and all is ready again. *)
Definition answers {A} (n k : nat) (call : option (A * list Z * link St)) (a : A) (st' : St)
  : Prop :=
  exists buf' l', call = Some (a, buf', l') /\ ready n k buf' l' /\ link_st l' = st'.

Lemma exchange_serves n k req buf l res data st' :
  ready n k buf l -> msg_ok req -> (msg_size req <= n)%nat ->
  serve px basedir skips req (link_st l) = Some (res, data, st') ->
  fits req res n -> fits req res k ->
  exists buf' l', rfsc_exchange (write_msg buf 0 req) (λ m p, read_msg m p res) l
      = Some (Some (msg_vals 0 res), buf', l') /\
    ready n k buf' l' /\ link_st l' = st' /\ carries buf' 0 res data.
Proof.
  destruct l as [[t st] q]. intros (Hb & Hbt & Ht & -> & Hn & Hk) Hok Hsz Hs Hfn Hfk.
  destruct (write_msg_holds buf 0 req Hok) as (m & Hw & Hh & _ & Hl & Hbm); [lia|].
  destruct (send_request_serves req m t st res data st')
    as (buf' & t' & Hx & Ht' & Htl & Hb' & Hbt' & Hh' & Hc & Hl');
    [done|by apply Hbm|done..|by split; [rewrite Hl, Hn|rewrite Hk]|].
  exists buf', (t', st', []). unfold exchange. rewrite Hw. cbn [mbind option_bind].
  unfold send_request in Hx. rewrite Hx. cbn [mbind option_bind].
  change (CLIENT_OK =? CLIENT_ERR) with false. cbv iota.
  rewrite read_msg_holds; [|by eapply serve_ok|done]. cbn [mbind option_bind].
  change (ELUARPC_OK =? ELUARPC_ERR) with false. cbv iota.
  unfold ready. split_and!; try done; congruence.
Qed.

(** Messages with a fixed layout need little room. *)
Lemma fits_small req res n : (msg_size req <= 80)%nat -> (msg_size res <= 80)%nat ->
  (80 <= n)%nat -> fits req res n.
Proof. intros. unfold fits. split_and!; word_lia. Qed.

Abbreviation client f := (f link_send link_recv timeout linux fuel).

(** A call whose response is one number returns it. *)
Lemma int_call_serves n k err req buf l res v data st' :
  ready n k buf l -> msg_ok req -> (msg_size req <= n)%nat ->
  serve px basedir skips req (link_st l) = Some (res, data, st') ->
  fits req res n -> fits req res k -> msg_vals 0 res = [OInt v] ->
  answers n k (int_result err (rfsc_exchange (write_msg buf 0 req)
      (λ m p, read_msg m p res) l)) v st'.
Proof.
  intros Hr Hok Hsz Hs Hfn Hfk Hv.
  destruct (exchange_serves n k req buf l res data st') as (buf' & l' & Hx & Hr' & Hl & _);
    try done.
  exists buf', l'. unfold int_result. rewrite Hx. cbn [mbind option_bind]. by rewrite Hv.
Qed.

Lemma write_req_size fd bs :
  msg_size (WriteReq fd bs) = (length bs + ELUARPC_WRITE_REQUEST_EXTRA)%nat.
Proof.
  unfold msg_size, packet_size, items_patch. simpl.
  rewrite !length_app. simpl. rewrite length_fmap, length_take. simpl.
  rewrite Nat2Z.id. unfold ELUARPC_WRITE_REQUEST_EXTRA, ELUARPC_START_OFFSET,
    ELUARPC_START_SIZE, ELUARPC_OP_ID_SIZE, ELUARPC_U32_SIZE, ELUARPC_PTR_HEADER_SIZE,
    ELUARPC_END_SIZE. lia.
Qed.
Lemma read_res_size r :
  msg_size (ReadRes r) = (Z.to_nat r + ELUARPC_READ_BUF_OFFSET + ELUARPC_END_SIZE)%nat.
Proof.
  unfold msg_size, packet_size, items_patch. simpl.
  rewrite !length_app. simpl. rewrite length_replicate.
  unfold ELUARPC_READ_BUF_OFFSET, ELUARPC_START_OFFSET, ELUARPC_START_SIZE,
    ELUARPC_RESPONSE_SIZE, ELUARPC_PTR_HEADER_SIZE, ELUARPC_END_SIZE. simpl. lia.
Qed.

(** Sizes of the two buffers: the client's is not larger than the server's. *)
Definition sizes (n k : nat) : Prop := (80 <= n <= k)%nat /\ Z.of_nat n < 2 ^ 16.

Lemma rfsc_write_serves n k fd bs buf l :
  sizes n k -> ready n k buf l -> is_s32 fd -> Forall is_u8 bs ->
  (length bs + ELUARPC_WRITE_REQUEST_EXTRA <= n)%nat ->
  answers n k (client rfsc_write fd bs buf l)
    (px_write px fd bs (link_st l)).1 (px_write px fd bs (link_st l)).2.
Proof.
  intros [Hnk Hn] Hr Hfd Hb Hl. pose proof (px_write_range fd bs (link_st l)) as Hrange.
  destruct (px_write px fd bs (link_st l)) as [r st'] eqn:E. simpl in Hrange |- *.
  pose proof (write_req_size fd bs) as Hsz.
  assert (forall m, (n <= m)%nat -> fits (WriteReq fd bs) (WriteRes (u32 r)) m) as Hf.
  { intros m Hm. change (msg_size (WriteRes (u32 r))) with 22%nat in *.
    unfold fits. change (msg_size (WriteRes (u32 r))) with 22%nat.
    rewrite Hsz. split_and!; word_lia. }
  destruct (int_call_serves n k (-1) (WriteReq fd bs) buf l (WriteRes (u32 r)) (u32 r) [] st')
    as (buf' & l' & Hx & Hr' & Hs'); [done| |lia| |by apply Hf|by apply Hf; lia|done|].
  - split_and!; [done|done|word_lia].
  - simpl. unfold os_write. by rewrite E.
  - exists buf', l'. split_and!; [|done|done]. unfold rfsc_write.
    change (int_result _ _) with (int_result (-1) (rfsc_exchange
      (write_msg buf 0 (WriteReq fd bs)) (λ m p, read_msg m p (WriteRes (u32 r))) l)).
    rewrite Hx. cbn [mbind option_bind]. by rewrite s32_u32.
Qed.

Lemma rfsc_read_serves n k fd count buf l :
  sizes n k -> ready n k buf l -> is_s32 fd -> 0 <= count ->
  (Z.to_nat count + ELUARPC_WRITE_REQUEST_EXTRA <= n)%nat ->
  let '(r, data, st') := px_read px fd count (link_st l) in 0 <= r ->
  answers n k (client rfsc_read fd count buf l) (r, data) st'.
Proof.
  intros [Hnk Hn] Hr Hfd Hc Hl. pose proof (px_read_range fd count (link_st l) Hc) as Hrange.
  destruct (px_read px fd count (link_st l)) as [[r data] st'] eqn:E. intros Hr0.
  destruct Hrange as (Hr32 & Hrc & Hdl & Hdb).
  pose proof (read_res_size r) as Hsz.
  assert (forall m, (n <= m)%nat -> fits (ReadReq fd count) (ReadRes r) m) as Hf.
  { intros m Hm. unfold fits. change (msg_size (ReadReq fd count)) with 28%nat.
    rewrite Hsz. unfold ELUARPC_READ_BUF_OFFSET, ELUARPC_WRITE_REQUEST_EXTRA,
      ELUARPC_START_OFFSET, ELUARPC_START_SIZE, ELUARPC_RESPONSE_SIZE, ELUARPC_OP_ID_SIZE,
      ELUARPC_U32_SIZE, ELUARPC_PTR_HEADER_SIZE, ELUARPC_END_SIZE in *.
    split_and!; word_lia. }
  destruct (exchange_serves n k (ReadReq fd count) buf l (ReadRes r) data st')
    as (buf' & l' & Hx & Hr' & Hs' & Hcd & Hload);
    [done|split; [done|word_lia]|change (msg_size _) with 28%nat; lia| |by apply Hf
    |by apply Hf; lia|].
  - simpl. unfold os_read. rewrite E. by rewrite decide_True.
  - exists buf', l'. split_and!; [|done|done]. unfold rfsc_read.
    change (exchange _ _ _ _ _ _ _ _) with (rfsc_exchange
      (write_msg buf 0 (ReadReq fd count)) (λ m p, read_msg m p (ReadRes r)) l).
    rewrite Hx. cbn [mbind option_bind msg_vals]. unfold data_ptr.
    rewrite (s32_small r) by word_lia. case_decide as Hz.
    + subst r. simpl in Hdl. by destruct data.
    + by rewrite Hdl, Hload in *.
Qed.

(** What [readdir] tells the caller about the next regular file. *)
Definition dir_entry (res : rfs_msg) : option (list Z * Z * Z) :=
  match res with ReaddirRes (Some s) size time => Some (s, size, time) | _ => None end.

Lemma serve_readdir_inv d st res data st' :
  serve px basedir skips (ReaddirReq d) st = Some (res, data, st') ->
  exists s size time, res = ReaddirRes s size time /\
    (from_option length 0 s <= RFS_MAX_FNAME_SIZE)%nat.
Proof.
  simpl. destruct (os_readdir _ _ _ _) as [[[nm|] st1]|] eqn:E; simpl; [| |done].
  - destruct (os_readdir_name _ _ _ _ _ _ E) as [_ Hl].
    destruct (server_get_fullname _ _); simpl; [|done].
    destruct (os_open _ _ _ _ _), (decide _);
      [destruct (os_lseek _ _ _ _ _), (os_close _ _ _)|]; intros [= <- <- <-];
      do 3 eexists; (split; [done|simpl; unfold RFS_MAX_FNAME_SIZE in *; lia]).
  - intros [= <- <- <-]. do 3 eexists. split; [done|simpl; lia].
Qed.
Lemma rfsc_readdir_serves n k d buf l res data st' :
  sizes n k -> ready n k buf l -> is_u32 d ->
  serve px basedir skips (ReaddirReq d) (link_st l) = Some (res, data, st') ->
  answers n k (client rfsc_readdir d buf l) (dir_entry res) st'.
Proof.
  intros [Hnk Hn] Hr Hd Hs.
  destruct (serve_readdir_inv _ _ _ _ _ Hs) as (s & size & time & -> & Hl).
  assert (msg_size (ReaddirRes s size time) <= 80)%nat as Hsz.
  { destruct s as [s|]; [|by_decide].
    unfold msg_size, packet_size, items_patch. simpl. rewrite !length_app. simpl.
    rewrite length_fmap, length_take, length_cstr.
    unfold RFS_MAX_FNAME_SIZE, ELUARPC_END_SIZE in *. simpl in Hl. lia. }
  assert (forall m, (80 <= m)%nat -> fits (ReaddirReq d) (ReaddirRes s size time) m) as Hf.
  { intros. apply fits_small; [change (msg_size _) with 23%nat|..]; lia. }
  destruct (exchange_serves n k (ReaddirReq d) buf l (ReaddirRes s size time) data st')
    as (buf' & l' & Hx & Hr' & Hs' & Hc);
    [done|done|change (msg_size _) with 23%nat; lia|done|apply Hf; lia..|].
  exists buf', l'. split_and!; [|done|done]. unfold rfsc_readdir.
  change (exchange _ _ _ _ _ _ _ _) with (rfsc_exchange (write_msg buf 0 (ReaddirReq d))
    (λ m p, read_msg m p (ReaddirRes s size time)) l).
  rewrite Hx. cbn [mbind option_bind msg_vals].
  destruct s as [s|]; [|done]. simpl in Hc |- *. by rewrite Hc.
Qed.

Lemma open_req_size s f md : (msg_size (OpenReq s f md) <= length s + 40)%nat.
Proof.
  unfold msg_size, packet_size, items_patch. simpl. rewrite !length_app. simpl.
  rewrite length_fmap, length_take, length_cstr. unfold ELUARPC_END_SIZE. lia.
Qed.
Lemma opendir_req_size s : (msg_size (OpendirReq s) <= length s + 40)%nat.
Proof.
  unfold msg_size, packet_size, items_patch. simpl. rewrite !length_app. simpl.
  rewrite length_fmap, length_take, length_cstr. unfold ELUARPC_END_SIZE. lia.
Qed.

(** [rfsc_open] on the client is [open] on the server: the file is the
    one of that name under the served directory, each flag is the one the
    caller set, and the caller gets the descriptor; both sides are then
    ready for the next request. *)
Theorem rfs_open_end_to_end n k path flags mode full buf l :
  sizes n k -> ready n k buf l -> is_cstr path -> (length path + 40 <= n)%nat -> is_s32 mode ->
  server_get_fullname basedir (Some path) = Some full ->
  let '(fd, st') := px_open px full (translate_open_flags c (px_fcntl px) flags) (link_st l) in
  answers n k (rfsc_open link_send link_recv timeout c linux fuel path flags mode buf l) fd st'.
Proof.
  intros [Hnk Hn] Hr Hp Hl Hm Hf. rewrite <- open_flags_translated.
  set (f := os_open_sys_flags_to_rfs_flags c flags).
  destruct (px_open px full (os_open_realflags px f) (link_st l)) as [fd st'] eqn:E.
  pose proof (open_req_size path f mode) as Hsz.
  assert (forall m, (n <= m)%nat -> fits (OpenReq path f mode) (OpenRes fd) m) as Hfit.
  { intros m Hm'. unfold fits. change (msg_size (OpenRes fd)) with 22%nat.
    split_and!; word_lia. }
  apply (int_call_serves n k (-1) (OpenReq path f mode) buf l (OpenRes fd) fd [] st');
    [done| |lia| |by apply Hfit|by apply Hfit; lia|done].
  - split_and!; [done|unfold strlen; word_lia|apply wire_flags_range|done].
  - simpl. rewrite Hf. simpl. unfold os_open. by rewrite E.
Qed.

(** The other calls that take no data reach the server's system and
    return its results: [close] and [lseek] (with the caller's seek mode, or
    -1 and no call for a mode it does not know), [opendir], and [readdir],
    which gives the caller name and size of the next regular file.  The
    result of [closedir] is the exception: the caller gets back the handle. *)
Theorem rfs_calls_end_to_end n k buf l (st := link_st l) :
  sizes n k -> ready n k buf l ->
  (forall fd, is_s32 fd -> answers n k (client rfsc_close fd buf l)
     (px_close px fd st).1 (px_close px fd st).2) /\
  (forall fd off whence, is_s32 fd -> is_s32 off ->
     let '(r, st') := match translate_whence c (px_fcntl px) whence with
                      | Some w => px_lseek px fd off w st | None => (-1, st) end in
     answers n k (rfsc_lseek link_send link_recv timeout c linux fuel fd off whence buf l) r st') /\
  (forall name full, is_cstr name -> (length name + 40 <= n)%nat ->
     server_get_fullname basedir (Some name) = Some full ->
     answers n k (client rfsc_opendir name buf l)
       (px_opendir px full st).1 (px_opendir px full st).2) /\
  (forall d res data st', is_u32 d ->
     serve px basedir skips (ReaddirReq d) st = Some (res, data, st') ->
     answers n k (client rfsc_readdir d buf l) (dir_entry res) st') /\
  (forall d, is_u32 d -> answers n k (client rfsc_closedir d buf l)
     (s32 d) (px_closedir px d st).2).
Proof.
  subst st. intros Hsz Hr. pose proof Hsz as [Hnk Hn].
  assert (forall req res m, (msg_size req <= 80)%nat -> (msg_size res <= 80)%nat ->
    (n <= m)%nat -> fits req res m) as Hfit by (intros; apply fits_small; lia).
  split_and!.
  - intros fd Hfd. destruct (px_close px fd (link_st l)) as [r st'] eqn:E. simpl.
    apply (int_call_serves n k (-1) (CloseReq fd) buf l (CloseRes r) r [] st');
      try done; [vm_compute; lia| |apply Hfit; vm_compute; lia..].
    simpl. unfold os_close. by rewrite E.
  - intros fd off whence Hfd Hoff. rewrite <- whence_translated.
    destruct (os_lseek px fd off _ (link_st l)) as [r st'] eqn:E.
    apply (int_call_serves n k (-1)
      (LseekReq fd off (os_lseek_sys_whence_to_rfs_whence c whence)) buf l (LseekRes r) r [] st');
      try done; [|vm_compute; lia| |apply Hfit; vm_compute; lia..].
    + split_and!; [done|done|apply whence_range].
    + simpl. by rewrite E.
  - intros name full Hnm Hl Hf. destruct (px_opendir px full (link_st l)) as [d st'] eqn:E. simpl.
    pose proof (opendir_req_size name) as Hreq.
    assert (forall m, (n <= m)%nat -> fits (OpendirReq name) (OpendirRes d) m) as Hfo.
    { intros m Hm'. unfold fits. change (msg_size (OpendirRes d)) with 22%nat.
      split_and!; word_lia. }
    apply (int_call_serves n k 0 (OpendirReq name) buf l (OpendirRes d) d [] st');
      [done|split; [done|unfold strlen; word_lia]|lia| |apply Hfo; lia..|done].
    simpl. rewrite Hf. simpl. unfold os_opendir. by rewrite E.
  - intros d res data st' Hd Hs. by apply (rfsc_readdir_serves n k d buf l res data st').
  - intros d Hd. destruct (px_closedir px d (link_st l)) as [r st'] eqn:E. simpl.
    apply (int_call_serves n k (-1) (ClosedirReq d) buf l (ClosedirRes (s32 d)) (s32 d) [] st');
      try done; [vm_compute; lia| |apply Hfit; vm_compute; lia..].
    simpl. unfold os_closedir. by rewrite E.
Qed.

(** *** Transfers in pieces *)

(** A file that [write] appends to: as many bytes as it reports, at least
    one if any are given. *)
Definition appends (file : St -> list Z) (fd : Z) : Prop := forall data st,
  let '(r, st') := px_write px fd data st in
  -1 <= r <= Z.of_nat (length data) /\
  file st' = file st ++ take (Z.to_nat r) data.

(** Writes of the sizes the client makes are never cut short. *)
Definition takes_all (fd : Z) : Prop := forall data st, Z.of_nat (length data) < 2 ^ 16 ->
  (px_write px fd data st).1 = Z.of_nat (length data).

Lemma rfs_write_loop_appends n k file fd m : forall p total buf l,
  sizes n k -> ready n k buf l -> is_s32 fd -> appends file fd ->
  Forall is_u8 p -> (length p < m)%nat ->
  exists r, 0 <= r <= Z.of_nat (length p) /\
    exists buf' l', rfs_write_loop link_send link_recv timeout linux fuel m fd p total buf l
      = Some (total + r, buf', l') /\ ready n k buf' l' /\
    file (link_st l') = file (link_st l) ++ take (Z.to_nat r) p /\
    (takes_all fd -> r = Z.of_nat (length p)).
Proof.
  induction m as [|m IH]; intros p total buf l Hs Hr Hfd Hap Hb Hm; [lia|].
  cbn [rfs_write_loop]. destruct (Z.eqb_spec (Z.of_nat (length p)) 0) as [Hz|Hz].
  { exists 0. split; [lia|]. exists buf, l. rewrite Z.add_0_r, take_0, app_nil_r. done. }
  pose proof Hs as [Hnk Hn].
  assert (length buf = n) as Hbl by (destruct l as [[??]?]; apply Hr).
  unfold RFS_REAL_BUFFER_SIZE. rewrite Hbl.
  assert (Z.of_nat ELUARPC_WRITE_REQUEST_EXTRA = 29) as Hex by done.
  set (towrite := if _ >? _ then _ else _).
  assert (0 < towrite <= Z.of_nat (length p) /\ towrite <= Z.of_nat n - 29) as Ht.
  { unfold towrite. rewrite Hex, Z.gtb_ltb.
    destruct (Z.ltb_spec (Z.of_nat n - 29) (Z.of_nat (length p))); lia. }
  clearbody towrite. set (piece := take (Z.to_nat towrite) p).
  assert (length piece = Z.to_nat towrite) as Hpl by (unfold piece; rewrite length_take; lia).
  destruct (rfsc_write_serves n k fd piece buf l Hs Hr Hfd) as (buf1 & l1 & Hw & Hr1 & Hl1).
  { by apply Forall_take. }
  { lia. }
  rewrite Hw. cbn [mbind option_bind]. pose proof (Hap piece (link_st l)) as Hp.
  assert (takes_all fd -> (px_write px fd piece (link_st l)).1 = towrite) as Hall
    by (intros Ha; rewrite Ha; word_lia).
  destruct (px_write px fd piece (link_st l)) as [r st1]. simpl in Hl1, Hw, Hall |- *.
  destruct Hp as [Hrr Hfile]. rewrite Hpl in Hrr.
  destruct (Z.eqb_spec r (-1)) as [->|Hne].
  { exists 0. split; [lia|]. exists buf1, l1. rewrite Z.add_0_r. split_and!; [done|done| |intros Ha; specialize (Hall Ha); lia].
    rewrite Hl1, Hfile. done. }
  rewrite u32_small by word_lia. destruct (Z.ltb_spec r towrite) as [Hlt|Hge].
  - exists r. split; [lia|]. exists buf1, l1. split_and!; [done|done| |intros Ha; specialize (Hall Ha); lia].
    rewrite Hl1, Hfile. unfold piece. rewrite take_take. do 2 f_equal. lia.
  - destruct (IH (drop (Z.to_nat towrite) p) (total + r) buf1 l1)
      as (r2 & Hr2 & buf2 & l2 & Hx & Hrd & Hf2 & Hall2); try done.
    { by apply Forall_drop. }
    { rewrite length_drop. lia. }
    rewrite length_drop in Hr2, Hall2. exists (r + r2). split; [lia|]. exists buf2, l2.
    rewrite Z.add_assoc. split_and!; [done|done| |intros Ha; specialize (Hall2 Ha); lia].
    rewrite Hf2, Hl1, Hfile. rewrite <- app_assoc. f_equal.
    replace r with towrite in * by lia. unfold piece.
    by rewrite take_take, Nat.min_id, Z2Nat.inj_add, take_take_drop by lia.
Qed.

(** C1: [rfs_write_r] appends to the file on the server exactly the first
    bytes of the caller's data, as many as it returns, for data of any
    length and whatever pieces the buffer size imposes; it is all of them
    unless the server's system cuts a write short. *)
Theorem rfs_write_r_appends n k file fd p buf l :
  sizes n k -> ready n k buf l -> is_s32 fd -> appends file fd -> Forall is_u8 p ->
  exists r st', answers n k (client rfs_write_r fd p buf l) r st' /\
    0 <= r <= Z.of_nat (length p) /\
    file st' = file (link_st l) ++ take (Z.to_nat r) p /\
    (takes_all fd -> r = Z.of_nat (length p)).
Proof.
  intros Hs Hr Hfd Ha Hb.
  destruct (rfs_write_loop_appends n k file fd (S (length p)) p 0 buf l)
    as (r & Hr2 & buf' & l' & Hx & Hrd & Hf & Hall); try done; [lia|].
  exists r, (link_st l'). split_and!; try done; [|lia..]. exists buf', l'. done.
Qed.

(** A regular file: a read takes what was asked for, or what is left. *)
Definition reads_file (rest : St -> list Z) (fd : Z) : Prop := forall count st,
  0 <= count < 2 ^ 16 ->
  let '(r, data, st') := px_read px fd count st in
  r = Z.min count (Z.of_nat (length (rest st))) /\
  data = take (Z.to_nat r) (rest st) /\ rest st' = drop (Z.to_nat r) (rest st).

Lemma rfs_read_loop_reads n k rest fd m : forall len total acc buf l,
  sizes n k -> ready n k buf l -> is_s32 fd -> reads_file rest fd ->
  0 <= len < Z.of_nat m ->
  let r := Z.min len (Z.of_nat (length (rest (link_st l)))) in
  exists buf' l', rfs_read_loop link_send link_recv timeout linux fuel m fd len total acc buf l
      = Some (total + r, acc ++ take (Z.to_nat r) (rest (link_st l)), buf', l') /\
    ready n k buf' l' /\ rest (link_st l') = drop (Z.to_nat r) (rest (link_st l)).
Proof.
  induction m as [|m IH]; intros len total acc buf l Hs Hr Hfd Hrf Hm r; [lia|].
  cbn [rfs_read_loop]. destruct (Z.eqb_spec len 0) as [->|Hz].
  { exists buf, l. subst r. rewrite Z.min_l by lia. rewrite Z.add_0_r, take_0, app_nil_r. done. }
  pose proof Hs as [Hnk Hn].
  assert (length buf = n) as Hbl by (destruct l as [[??]?]; apply Hr).
  unfold RFS_REAL_BUFFER_SIZE. rewrite Hbl.
  assert (Z.of_nat ELUARPC_WRITE_REQUEST_EXTRA = 29) as Hex by done.
  set (toread := if _ >? _ then _ else _).
  assert (0 < toread <= len /\ toread <= Z.of_nat n - 29) as Ht.
  { unfold toread. rewrite Hex, Z.gtb_ltb.
    destruct (Z.ltb_spec (Z.of_nat n - 29) len); lia. }
  clearbody toread. pose proof (Hrf toread (link_st l)) as Hp.
  pose proof (rfsc_read_serves n k fd toread buf l Hs Hr Hfd) as Hc.
  destruct (px_read px fd toread (link_st l)) as [[r1 data] st1].
  destruct Hp as (Hr1 & Hdata & Hrest); [word_lia|].
  destruct Hc as (buf1 & l1 & Hc & Hrd1 & Hl1); [lia..|].
  rewrite Hc. cbn [mbind option_bind]. rewrite (proj2 (Z.eqb_neq r1 (-1))) by lia.
  rewrite u32_small by word_lia. destruct (Z.ltb_spec r1 toread) as [Hlt|Hge].
  - exists buf1, l1. replace r with r1 by (subst r; lia). subst data. by rewrite Hl1.
  - replace r1 with toread in * by lia.
    destruct (IH (len - toread) (total + toread) (acc ++ data) buf1 l1)
      as (buf2 & l2 & Hx & Hrd & Hf2); try done; [lia|].
    exists buf2, l2. rewrite Hx, Hf2, Hl1, Hrest, drop_drop, length_drop.
    assert (r = toread + Z.min (len - toread)
      (Z.of_nat (length (rest (link_st l)) - Z.to_nat toread))) as -> by (subst r; lia).
    rewrite Z2Nat.inj_add by lia. split_and!; [|done|done]. rewrite Z.add_assoc.
    do 3 f_equal. subst data. rewrite <- app_assoc.
    by rewrite take_take_drop.
Qed.

(** [rfs_read_r] returns what is left of a regular file on the server,
    up to the length asked for, however many requests that takes, and the
    file has advanced by as much. *)
Theorem rfs_read_r_reads n k rest fd len buf l :
  sizes n k -> ready n k buf l -> is_s32 fd -> reads_file rest fd -> 0 <= len ->
  let r := Z.min len (Z.of_nat (length (rest (link_st l)))) in
  exists st', answers n k (client rfs_read_r fd len buf l)
      (r, take (Z.to_nat r) (rest (link_st l))) st' /\
    rest st' = drop (Z.to_nat r) (rest (link_st l)).
Proof.
  intros Hs Hr Hfd Hrf Hl r.
  destruct (rfs_read_loop_reads n k rest fd (S (Z.to_nat len)) len 0 [] buf l)
    as (buf' & l' & Hx & Hrd & Hf); try done; [lia|].
  exists (link_st l'). split; [|done]. exists buf', l'. done.
Qed.

(** Emptying the receive buffer drops what is there, and the last byte
    dropped is left in the first byte of the client's buffer. *)
Lemma link_empty_stale q : forall m buf t st, (length q < m)%nat -> Forall is_u8 q ->
  (0 < length buf)%nat ->
  rfsch_empty link_recv m buf (t, st, q)
  = Some (match last q with Some b => <[0%nat := b]> buf | None => buf end, (t, st, [])).
Proof.
  induction q as [|b q IH]; intros [|m] buf t st Hm Hb Hl; simpl in Hm; try lia.
  - cbn [rfsch_empty]. unfold recv_at, link_recv. by rewrite take_nil, drop_nil.
  - apply Forall_cons in Hb as [Hb Hq]. cbn [rfsch_empty].
    change (b :: q) with ([b] ++ q) at 1.
    rewrite link_recv_at by (done || by apply Forall_singleton).
    cbn [mbind option_bind length]. change (Z.of_nat 1 =? 1) with true. cbv iota.
    rewrite <- splice_insert, splice_nil by (rewrite ?length_insert; simpl; lia).
    rewrite IH; [|lia|done|by rewrite length_insert].
    destruct q as [|b' q]; [done|]. rewrite last_cons_cons.
    destruct (last (b' :: q)) eqn:E; [by rewrite list_insert_insert_eq|].
    by apply last_None in E.
Qed.

(** Emptying the receive buffer (everywhere but in the simulator) is done
    after the request has been written to the buffer it receives into: if
    anything is there whose last byte is not the packet size marker, the
    request is spoiled, nothing is sent, and the call fails. *)
Theorem stale_bytes_fail_call req buf m t st q b read :
  linux = false -> (length q < fuel)%nat -> Forall is_u8 q -> last q = Some b ->
  b <> TYPE_PKT_SIZE -> (4 <= length m)%nat -> write_msg buf 0 req = Some m ->
  exchange link_send link_recv timeout linux fuel (write_msg buf 0 req) read (t, st, q)
  = Some (None, <[0%nat := b]> m, (t, st, [])).
Proof.
  intros Hlin Hfl Hq Hlast Hb Hl Hw. unfold exchange. rewrite Hw. cbn [mbind option_bind].
  unfold rfsch_send_request_read_response. rewrite Hlin, link_empty_stale by (done || lia).
  rewrite Hlast. cbn [mbind option_bind].
  destruct (get_packet_size_bad (<[0%nat := b]> m) b) as [x Hx]; [|done| |].
  - apply list_lookup_insert_eq. lia.
  - by rewrite length_insert.
  - by rewrite Hx.
Qed.
End System.
