(* ===== verification/RfsInstance.v ===== *)
(** * RfsInstance: the remote file system on a system of one file

    A concrete POSIX system (one regular file, descriptor 3, and one directory
    that lists it) that satisfies the laws the theorems of the remote file
    system assume, and the theorems applied to it. *)

From S2P Require Import Prelude Eluarpc Remotefs RfsServer RfsClient.

(** The contents of the file and how far it has been read. *)
Record ram := Ram { ram_data : list Z; ram_pos : nat }.

Definition ram_rest (s : ram) : list Z := u8 <$> drop (ram_pos s) (ram_data s).

Definition ram_write (fd : Z) (data : list Z) (s : ram) : Z * ram :=
  if decide (Z.of_nat (length data) < 2 ^ 16)
  then (Z.of_nat (length data), Ram (ram_data s ++ data) (ram_pos s)) else (-1, s).
Definition ram_read (fd count : Z) (s : ram) : Z * list Z * ram :=
  if decide (0 <= count < 2 ^ 16) then
    let r := Z.min count (Z.of_nat (length (ram_rest s))) in
    (r, take (Z.to_nat r) (ram_rest s), Ram (ram_data s) (ram_pos s + Z.to_nat r))
  else (-1, [], s).
Definition ram_posix : posix ram := {|
  px_fcntl := linux_fcntl;
  px_open := λ path flags s, (3, s);
  px_write := ram_write;
  px_read := ram_read;
  px_close := λ fd s, (0, s);
  px_lseek := λ fd off w s, (if w =? 2 then s32 (Z.of_nat (length (ram_data s))) else 0, s);
  px_opendir := λ path s, (1, s);
  px_readdir := λ d s, (Some ([97; 46; 108], true), s);
  px_closedir := λ d s, (0, s)
|}.

#[export] Instance ram_posix_laws : PosixLaws ram_posix.
Proof.
  split; try done; simpl.
  - intros fd b st. unfold ram_write. case_decide; simpl; word_lia.
  - intros fd n st Hn. unfold ram_read. case_decide.
    + split_and!; [word_lia|lia| |].
      * rewrite length_take. lia.
      * apply Forall_take. unfold ram_rest. apply Forall_fmap, Forall_true.
        intros. apply u8_is_u8.
    + split_and!; [word_lia|lia|done|done].
  - intros fd o w st. case_match; simpl; [apply s32_is_s32|word_lia].
  - intros. by_decide.
Defined.

Lemma ram_appends fd : appends ram_posix ram_data fd.
Proof.
  intros data st. simpl. unfold ram_write. case_decide; simpl.
  - split; [lia|]. by rewrite Nat2Z.id, firstn_all.
  - split; [lia|]. by rewrite app_nil_r.
Qed.
Lemma ram_takes_all fd : takes_all ram_posix fd.
Proof. intros data st H. simpl. unfold ram_write. by rewrite decide_True. Qed.
Lemma ram_reads_file fd : reads_file ram_posix ram_rest fd.
Proof.
  intros count st Hc. simpl. unfold ram_read. rewrite decide_True by done.
  split_and!; [done|done|]. unfold ram_rest. simpl. by rewrite <- fmap_drop, drop_drop.
Qed.

(** ** The system at rest *)

Definition ram_base : list Z := [47; 116; 109; 112].
Definition ram_file : ram := Ram [1; 2; 3; 4; 5; 6; 7; 8] 2.
Definition ram_transport : transport :=
  rfs_mem_start_request (Transport (replicate 256 0) 0 0 MEM_STATE_READ_LENGTH false).
Definition ram_link : link ram := (ram_transport, ram_file, []).
Definition ram_buf : list Z := replicate 128 0.

Lemma ram_ready : ready 128 256 ram_buf ram_link.
Proof. unfold ready. simpl. split_and!; try done; by_decide. Qed.
Lemma ram_sizes : sizes 128 256.
Proof. split; lia. Qed.

(** ** Witnesses *)

Definition open_req : rfs_msg := OpenReq [97; 46; 108] 0x20 0.

Lemma rpc_roundtrip_witness : let its := [IOp 6; IPtr (Some [97; 98; 0]) 3 false; IInt (-2)] in
  exists m', eluarpc_gen_write (replicate 64 9) 1 "opi" (its ≫= item_w) = Some m' /\
    eluarpc_gen_read m' 1 "opi" (its ≫= item_r) = Some (ELUARPC_OK, items_vals (args_at 1) its).
Proof.
  intros its. destruct (rpc_roundtrip (replicate 64 9) 1 its) as (m' & H1 & H2 & _).
  - repeat (apply Forall_cons; split); try done; by_decide.
  - by_decide.
  - done.
  - exists m'. split; [exact H1|exact H2].
Defined.

Definition close_packet : list Z :=
  default [] (write_msg (replicate 30 0) 0 (CloseReq 3)).
Lemma rpc_read_sound_witness : exists its, Forall2 same_kind [IOp RFS_OP_CLOSE; IInt 0] its /\
  holds close_packet 4 (packet_body its) /\ [OInt 3] = items_vals (args_at 0) its.
Proof.
  destruct (rpc_read_sound close_packet 0 [IOp RFS_OP_CLOSE; IInt 0] [OInt 3])
    as (its & H1 & _ & H2 & H3).
  - by_decide.
  - by vm_compute.
  - exists its. split_and!; done.
Defined.

Lemma rfs_message_roundtrip_witness : exists m', write_msg (replicate 64 9) 2 open_req = Some m' /\
  read_msg m' 2 open_req = Some (ELUARPC_OK, msg_vals 2 open_req).
Proof.
  destruct (rfs_message_roundtrip (replicate 64 9) 2 open_req) as (m' & H1 & H2 & _);
    [by_decide..|].
  exists m'. split; [exact H1|exact H2].
Defined.

Lemma rfs_no_confusion_witness :
  remotefs_open_read_request close_packet 0 <> Some (ELUARPC_OK, [OInt 3]).
Proof.
  apply (rfs_no_confusion close_packet 0 (CloseReq 3) open_req).
  - by_decide.
  - apply holdsb_holds; [lia|by vm_compute].
  - done.
Defined.

Lemma server_refines_serve_witness : exists resp t',
  mem_feeds ram_posix ram_base 1 (ram_transport, ram_file) (take 23 close_packet)
    = Some (resp, (t', ram_file)) /\
  read_msg resp 0 (CloseRes 0) = Some (ELUARPC_OK, [OInt 0]).
Proof.
  destruct (server_refines_serve ram_posix ram_base 1 (CloseReq 3) (take 23 close_packet)
    ram_transport ram_file (CloseRes 0) [] ram_file) as (resp & t' & H1 & _ & _ & H2 & _).
  - done.
  - by_decide.
  - by vm_compute.
  - apply holdsb_holds; [lia|by vm_compute].
  - done.
  - done.
  - by_decide.
  - exists resp, t'. split; [exact H1|exact H2].
Defined.

Lemma mem_transport_stuck_witness : exists t',
  mem_feeds ram_posix ram_base 1
    (rfs_mem_start_request (Transport (replicate RFS_SERVER_BUFFER_SIZE 0) 0 0
       MEM_STATE_READ_LENGTH false), ram_file) ([10] ++ take 23 close_packet)
    = Some ([], (t', ram_file)) /\
  mem_read_state t' = MEM_STATE_REQUEST_DONE /\ rfs_mem_has_response t' = false.
Proof.
  apply mem_transport_stuck.
  - done.
  - by vm_compute.
  - by_decide.
  - done.
  - vm_compute; lia.
  - by_decide.
Defined.

Lemma rfs_open_end_to_end_witness :
  answers 128 256 (rfsc_open (link_send ram_posix ram_base 1) link_recv 100 newlib_fcntl false 5
    [97; 46; 108] 0x601 0 ram_buf ram_link) 3 ram_file.
Proof.
  apply (rfs_open_end_to_end ram_posix ram_base 1 newlib_fcntl false 100 5 ltac:(lia) 128 256
    [97; 46; 108] 0x601 0 [47; 116; 109; 112; 47; 97; 46; 108] ram_buf ram_link).
  - exact ram_sizes.
  - exact ram_ready.
  - by_decide.
  - by_decide.
  - done.
  - by vm_compute.
Defined.

Lemma rfs_calls_end_to_end_witness :
  answers 128 256 (rfsc_lseek (link_send ram_posix ram_base 1) link_recv 100 newlib_fcntl true 5
    3 0 2 ram_buf ram_link) 8 ram_file /\
  answers 128 256 (rfsc_readdir (link_send ram_posix ram_base 1) link_recv 100 true 5
    1 ram_buf ram_link) (Some ([97; 46; 108], 8, 0)) ram_file.
Proof.
  destruct (rfs_calls_end_to_end ram_posix ram_base 1 newlib_fcntl true 100 5 ltac:(lia) 128 256
    ram_buf ram_link ram_sizes ram_ready) as (_ & H1 & _ & H2 & _).
  split.
  - by apply (H1 3 0 2).
  - by apply (H2 1 (ReaddirRes (Some [97; 46; 108]) 8 0) [] ram_file).
Defined.

Lemma rfs_write_r_appends_witness : exists r st',
  answers 128 256 (rfs_write_r (link_send ram_posix ram_base 1) link_recv 100 true 5 3
    (replicate 250 7) ram_buf ram_link) r st' /\
  ram_data st' = ram_data ram_file ++ take (Z.to_nat r) (replicate 250 7) /\ r = 250.
Proof.
  destruct (rfs_write_r_appends ram_posix ram_base 1 true 100 5 ltac:(lia) 128 256 ram_data 3
    (replicate 250 7) ram_buf ram_link) as (r & st' & H1 & _ & H2 & H3).
  - exact ram_sizes.
  - exact ram_ready.
  - done.
  - apply ram_appends.
  - by_decide.
  - exists r, st'. split_and!; [exact H1|exact H2|apply H3, ram_takes_all].
Defined.

Lemma rfs_read_r_reads_witness : exists st',
  answers 128 256 (rfs_read_r (link_send ram_posix ram_base 1) link_recv 100 true 5 3 1000
    ram_buf ram_link) (6, [3; 4; 5; 6; 7; 8]) st' /\ ram_rest st' = [].
Proof.
  apply (rfs_read_r_reads ram_posix ram_base 1 true 100 5 ltac:(lia) 128 256 ram_rest 3 1000
    ram_buf ram_link).
  - exact ram_sizes.
  - exact ram_ready.
  - done.
  - apply ram_reads_file.
  - done.
Defined.

Definition stale_buf : list Z := default [] (write_msg ram_buf 0 (CloseReq 3)).
Lemma stale_bytes_fail_call_witness :
  exchange (link_send ram_posix ram_base 1) link_recv 100 false 5
    (write_msg ram_buf 0 (CloseReq 3)) remotefs_close_read_response
    (ram_transport, ram_file, [13; 10])
  = Some (None, <[0%nat := 10]> stale_buf, (ram_transport, ram_file, [])).
Proof.
  apply (stale_bytes_fail_call ram_posix ram_base 1 false 100 5 ltac:(lia) (CloseReq 3) ram_buf
    stale_buf ram_transport ram_file [13; 10] 10 remotefs_close_read_response).
  - done.
  - simpl. lia.
  - by_decide.
  - done.
  - done.
  - vm_compute. lia.
  - by vm_compute.
Defined.
