(* ===== verification/Fifo.v ===== *)
(** * Fifo: bounded queues as an interface

    What the character buffers (Buf) and the interrupt queue (IntQueue) promise
    to their clients: elements come out in the order they went in, up to a
    capacity.  Clients are verified against the class, the two implementations
    are its instances. *)

From S2P Require Import Prelude.

Class Fifo (Q E : Type) := {
  (** Well-formed states, and the elements a state accepts. *)
  fifo_ok : Q -> Prop;
  fifo_elem : Q -> E -> Prop;
  fifo_cap : Q -> nat;
  fifo_list : Q -> list E;
  (** [None]: refused. *)
  fifo_put : E -> Q -> option Q;
  fifo_get : Q -> option (E * Q)
}.

(** Two states of the same queue over time. *)
Definition fifo_same {Q E} `{Fifo Q E} (q q' : Q) : Prop :=
  fifo_cap q' = fifo_cap q /\ forall e, fifo_elem q' e <-> fifo_elem q e.

Class FifoLaws (Q E : Type) `{Fifo Q E} := {
  fifo_put_ok q e : fifo_ok q -> fifo_elem q e -> (length (fifo_list q) < fifo_cap q)%nat ->
    exists q', fifo_put e q = Some q' /\ fifo_ok q' /\ fifo_same q q' /\
      fifo_list q' = fifo_list q ++ [e];
  fifo_get_ok q e l : fifo_ok q -> fifo_list q = e :: l ->
    exists q', fifo_get q = Some (e, q') /\ fifo_ok q' /\ fifo_same q q' /\ fifo_list q' = l;
  fifo_get_empty q : fifo_ok q -> fifo_list q = [] -> fifo_get q = None
}.

(** ** Traces *)

Inductive fifo_op (E : Type) := Put (e : E) | Get.
Arguments Put {E} e. Arguments Get {E}.

Section Traces.
Context {Q E : Type} `{FifoLaws Q E}.

(** The producer (an interrupt handler) and the consumer take turns in any
  order; what the consumer gets, and the final state.  [None]: a put was
  refused. *)
Fixpoint fifo_run (ops : list (fifo_op E)) (q : Q) : option (list E * Q) :=
match ops with
| [] => Some ([], q)
| Put e :: ops => q ← fifo_put e q; fifo_run ops q
| Get :: ops =>
    match fifo_get q with
    | None => fifo_run ops q
    | Some (e, q) => '(es, q) ← fifo_run ops q; Some (e :: es, q)
    end
end.

(** What was put in. *)
Fixpoint puts (ops : list (fifo_op E)) : list E :=
match ops with [] => [] | Put e :: ops => e :: puts ops | Get :: ops => puts ops end.
(** At no time are there more than [cap] elements, starting with [n]. *)
Fixpoint room (cap n : nat) (ops : list (fifo_op E)) : Prop :=
match ops with
| [] => True
| Put _ :: ops => (n < cap)%nat /\ room cap (S n) ops
| Get :: ops => room cap (pred n) ops
end.

Lemma fifo_run_order ops : forall q, fifo_ok q -> Forall (fifo_elem q) (puts ops) ->
room (fifo_cap q) (length (fifo_list q)) ops ->
exists out q', fifo_run ops q = Some (out, q') /\ fifo_ok q' /\ fifo_same q q' /\
  fifo_list q ++ puts ops = out ++ fifo_list q'.
Proof.
induction ops as [|[e|] ops IH]; intros q Hok He Hr; simpl in *.
- exists [], q. unfold fifo_same. by rewrite app_nil_r.
- apply Forall_cons in He as [He Hes]. destruct Hr as [Hl Hr].
  destruct (fifo_put_ok q e Hok He Hl) as (q1 & -> & Hok1 & [Hc1 He1] & Hl1). simpl.
  destruct (IH q1) as (out & q' & Hrun & Hok' & [Hc' He'] & Hl').
  + done.
  + eapply Forall_impl; [exact Hes|]. intros x. apply He1.
  + rewrite Hc1, Hl1, length_app. simpl. by rewrite Nat.add_1_r.
  + exists out, q'. split_and!; [done|done|split; [congruence|]|].
    * intros x. by rewrite He', He1.
    * by rewrite <- Hl', Hl1, <- app_assoc.
- destruct (fifo_list q) as [|e l] eqn:Hl.
  + rewrite (fifo_get_empty q Hok Hl).
    destruct (IH q Hok He) as (out & q' & Hrun & Hok' & Hs' & Hl'); [by rewrite Hl|].
    exists out, q'. split_and!; try done. by rewrite <- Hl', Hl.
  + destruct (fifo_get_ok q e l Hok Hl) as (q1 & -> & Hok1 & [Hc1 He1] & Hl1).
    destruct (IH q1) as (out & q' & Hrun & Hok' & [Hc' He'] & Hl').
    * done.
    * eapply Forall_impl; [exact He|]. intros x. apply He1.
    * by rewrite Hc1, Hl1.
    * exists (e :: out), q'. rewrite Hrun. simpl. split_and!; [done|done|split; [congruence|]|].
      -- intros x. by rewrite He', He1.
      -- by rewrite <- Hl', Hl1.
Qed.
End Traces.

(** ** Rings

    [n] cells of a circular store of [N] cells, from cell [r] on; [f] says
    what a cell holds. *)
Section Ring.
Context {A : Type}.
Implicit Types f g : nat -> A.

Definition ring f (N r n : nat) : list A := (λ i, f ((r + i) mod N)%nat) <$> seq 0 n.

Lemma length_ring f N r n : length (ring f N r n) = n.
Proof. unfold ring. by rewrite length_fmap, length_seq. Qed.
Lemma ring_snoc f N r n : ring f N r (S n) = ring f N r n ++ [f ((r + n) mod N)%nat].
Proof. unfold ring. by rewrite seq_S, fmap_app. Qed.
Lemma ring_cons f N r n : ring f N r (S n) = f (r mod N)%nat :: ring f N (S r) n.
Proof.
unfold ring. cbn [seq fmap list_fmap]. rewrite Nat.add_0_r. f_equal.
rewrite <- seq_shift, <- list_fmap_compose. apply list_fmap_ext. intros i x _. simpl.
by rewrite Nat.add_succ_r.
Qed.
Lemma ring_mod f N r n : (0 < N)%nat -> ring f N (r mod N) n = ring f N r n.
Proof.
intros. unfold ring. apply list_fmap_ext. intros i x _. by rewrite Nat.Div0.add_mod_idemp_l.
Qed.
Lemma mod_add_self a N : ((a + N) mod N = a mod N)%nat.
Proof. rewrite <- (Nat.mul_1_l N) at 1. apply Nat.Div0.mod_add. Qed.
(** The cells of a ring that is not full are not the next one. *)
Lemma ring_next_fresh N r n i : (i < n < N)%nat -> ((r + i) mod N <> (r + n) mod N)%nat.
Proof.
intros Hi He. assert (N <> 0)%nat as HN by lia.
pose proof (Nat.div_mod_eq (r + i) N). pose proof (Nat.div_mod_eq (r + n) N).
assert (N * ((r + n) / N) - N * ((r + i) / N) = n - i)%nat as Hd by lia.
destruct (decide ((r + n) / N <= (r + i) / N)%nat) as [Hle|Hgt].
- assert (N * ((r + n) / N) <= N * ((r + i) / N))%nat by (by apply Nat.mul_le_mono_l). lia.
- assert (N * S ((r + i) / N) <= N * ((r + n) / N))%nat by (apply Nat.mul_le_mono_l; lia). lia.
Qed.
Lemma ring_put f g N r n e : (n < N)%nat ->
(forall k, (k < N)%nat -> g k = if decide (k = (r + n) mod N)%nat then e else f k) ->
ring g N r (S n) = ring f N r n ++ [e].
Proof.
intros Hn Hg. rewrite ring_snoc, Hg, decide_True
  by (done || (apply Nat.mod_upper_bound; lia)). f_equal.
unfold ring. apply list_fmap_ext. intros i x [-> Hx]%lookup_seq. simpl.
rewrite Hg, decide_False; [done|by apply ring_next_fresh|apply Nat.mod_upper_bound; lia].
Qed.
End Ring.
