(* ===== verification/Buf.v ===== *)
(** * Buf: the character device buffers

    Models src/buf.c and the structure of inc/buf.h: circular buffers of
    elements of 1, 2 or 4 bytes, written by interrupt handlers and read by the
    program.  A buffer descriptor is a record; the descriptors of all devices
    are the array [buf_desc_array]. *)

From S2P Require Import Prelude Fifo.

Definition BUF_SIZE_NONE : Z := 0.

(** ** inc/utils.h: Duff's device

    How many times [DUFF_DEVICE_8( count, action )] runs its action: what is
    left of a multiple of eight first (eight if nothing is), then the rest of
    the passes of eight while [--_times > 0]. *)
Definition duff_count (count : Z) : Z :=
  let times := Z.shiftr (count + 7) 3 in
  let first := if Z.land count 7 =? 0 then 8 else Z.land count 7 in
  first + 8 * Z.max 0 (times - 1).

Lemma duff_count_pos n : 1 <= n -> duff_count n = n.
Proof.
  intros Hn. unfold duff_count.
  rewrite (land_mask n 3 ltac:(lia) : Z.land n 7 = n mod 8), (Z.shiftr_div_pow2 _ 3) by lia.
  change (2 ^ 3) with 8.
  destruct (Z.eqb_spec (n mod 8) 0); Z.to_euclidean_division_equations; lia.
Qed.

(** ** Descriptors *)

Record buf_desc := BufDesc {
  logsize : Z;
  logdsize : Z;
  wptr : Z;
  rptr : Z;
  count : Z;
  buf : option (list Z)
}.
Definition set_wptr (d : buf_desc) x :=
  BufDesc (logsize d) (logdsize d) x (rptr d) (count d) (buf d).
Definition set_rptr (d : buf_desc) x :=
  BufDesc (logsize d) (logdsize d) (wptr d) x (count d) (buf d).
Definition set_count (d : buf_desc) x :=
  BufDesc (logsize d) (logdsize d) (wptr d) (rptr d) x (buf d).
Definition set_data (d : buf_desc) b :=
  BufDesc (logsize d) (logdsize d) (wptr d) (rptr d) (count d) (Some b).

Definition BUF_MOD_INCR (d : buf_desc) (m : Z) : Z :=
  u16 (Z.land (m + Z.shiftl 1 (logdsize d)) (Z.shiftl 1 (logsize d) - 1)).
Definition BUF_REALSIZE (d : buf_desc) : Z := Z.shiftl 1 (logsize d - logdsize d).
Definition BUF_BYTESIZE (d : buf_desc) : Z := Z.shiftl 1 (logsize d).
Definition BUF_REALDSIZE (d : buf_desc) : Z := Z.shiftl 1 (logdsize d).

(** The number of bytes an element's copy moves. *)
Definition copy_size (d : buf_desc) : nat := Z.to_nat (duff_count (BUF_REALDSIZE d)).

(** [realloc] answers with the new block, [None] if there is no memory. *)
Definition buf_set_desc (realloc : option (list Z) -> Z -> option (list Z)) (lsize ldsize : Z)
  (d : buf_desc) : Z * buf_desc :=
  let ls := u8 (lsize + ldsize) in
  match realloc (buf d) (Z.shiftl 1 ls) with
  | Some b => (PLATFORM_OK, BufDesc ls ldsize (wptr d) (rptr d) (count d) (Some b))
  | None =>
      (if lsize =? BUF_SIZE_NONE then PLATFORM_OK else PLATFORM_ERR,
       BufDesc BUF_SIZE_NONE ldsize 0 0 0 None)
  end.

Definition buf_flush_desc (d : buf_desc) : buf_desc :=
  BufDesc (logsize d) (logdsize d) 0 0 0 (buf d).

Definition buf_write_desc (data : list Z) (d : buf_desc) : option (Z * buf_desc) :=
  if logsize d =? BUF_SIZE_NONE then Some (PLATFORM_ERR, d)
  else if count d >? BUF_REALSIZE d then Some (PLATFORM_ERR, d)
  else
    b ← buf d;
    src ← loads data 0 (copy_size d);
    b ← stores b (Z.to_nat (wptr d)) src;
    let d := set_data d b in
    let d := set_wptr d (BUF_MOD_INCR d (wptr d)) in
    Some (PLATFORM_OK, set_count d (u16 (count d + 1))).

Definition buf_is_enabled_desc (d : buf_desc) : bool := negb (logsize d =? BUF_SIZE_NONE).
Definition buf_get_size_desc (d : buf_desc) : Z :=
  if logsize d =? BUF_SIZE_NONE then 0 else BUF_REALSIZE d.
Definition buf_get_count_desc (d : buf_desc) : Z := count d.

(** A read, with the points where an interrupt handler may run: after the
    test, after the copy, and after the count, which is updated with the
    interrupts disabled.  The address [s] is computed first. *)
Definition buf_read_isr (isr1 isr2 isr3 : buf_desc -> option buf_desc) (d : buf_desc)
  : option (Z * list Z * buf_desc) :=
  let s := Z.to_nat (rptr d) in
  if (logsize d =? BUF_SIZE_NONE) || (count d =? 0) then Some (PLATFORM_UNDERFLOW, [], d)
  else
    d ← isr1 d;
    b ← buf d;
    data ← loads b s (copy_size d);
    d ← isr2 d;
    let d := set_count d (u16 (count d - 1)) in
    d ← isr3 d;
    Some (PLATFORM_OK, data, set_rptr d (BUF_MOD_INCR d (rptr d))).
Definition buf_read_desc (d : buf_desc) : option (Z * list Z * buf_desc) :=
  buf_read_isr Some Some Some d.

(** ** The array of descriptors

    By resource ([BUF_ID_UART], [BUF_ID_ADC]) and number. *)

Definition BUF_ID_UART : nat := 0.
Definition BUF_ID_ADC : nat := 1.
Definition SERMUX_SERVICE_ID_FIRST : Z := 0xD0.
Definition CDC_UART_ID : Z := 0xB0.

Abbreviation buf_array := (list (list buf_desc)).

Section Array.
(** The platform: [NUM_UART], [NUM_VUART_BUFS]. *)
Variables NUM_UART NUM_VUART_BUFS : Z.

Definition bufh_check_resnum (resid : nat) (resnum : Z) : Z :=
if decide (resid = BUF_ID_UART /\ (SERMUX_SERVICE_ID_FIRST <= resnum \/ resnum = CDC_UART_ID))
then if resnum =? CDC_UART_ID then resnum - CDC_UART_ID + NUM_UART + NUM_VUART_BUFS
     else resnum - SERMUX_SERVICE_ID_FIRST + NUM_UART
else resnum.

(** [BUF_CHECK_RESNUM] and [BUF_GETPTR]; [None]: outside the array. *)
Definition buf_getptr (a : buf_array) (resid : nat) (resnum : Z) : option buf_desc :=
l ← a !! resid; l !! Z.to_nat (bufh_check_resnum resid resnum).
Definition buf_putptr (a : buf_array) (resid : nat) (resnum : Z) (d : buf_desc) : buf_array :=
alter (λ l, <[Z.to_nat (bufh_check_resnum resid resnum) := d]> l) resid a.

Definition buf_set realloc resid resnum lsize ldsize (a : buf_array) : option (Z * buf_array) :=
d ← buf_getptr a resid resnum;
let '(r, d) := buf_set_desc realloc lsize ldsize d in
Some (r, buf_putptr a resid resnum d).
Definition buf_flush resid resnum (a : buf_array) : option buf_array :=
d ← buf_getptr a resid resnum; Some (buf_putptr a resid resnum (buf_flush_desc d)).
Definition buf_write resid resnum data (a : buf_array) : option (Z * buf_array) :=
d ← buf_getptr a resid resnum;
'(r, d) ← buf_write_desc data d;
Some (r, buf_putptr a resid resnum d).
Definition buf_is_enabled resid resnum (a : buf_array) : option bool :=
buf_is_enabled_desc <$> buf_getptr a resid resnum.
Definition buf_get_size resid resnum (a : buf_array) : option Z :=
buf_get_size_desc <$> buf_getptr a resid resnum.
Definition buf_get_count resid resnum (a : buf_array) : option Z :=
buf_get_count_desc <$> buf_getptr a resid resnum.
Definition buf_read resid resnum (a : buf_array) : option (Z * list Z * buf_array) :=
d ← buf_getptr a resid resnum;
'(r, data, d) ← buf_read_desc d;
Some (r, data, buf_putptr a resid resnum d).
End Array.

(** ** Well-formed buffers *)

(** Element size in bytes, and number of elements. *)
Definition dsize (d : buf_desc) : nat := Z.to_nat (BUF_REALDSIZE d).
Definition nelem (d : buf_desc) : nat := Z.to_nat (BUF_REALSIZE d).
(** Element [k] of the block. *)
Definition slot (d : buf_desc) (k : nat) : list Z :=
  take (dsize d) (drop (k * dsize d) (default [] (buf d))).

(** [buf_wf o d r n]: the read pointer is at element [r] and [n] elements are
    queued from element [r + o] on; [o] is 1 only in the middle of a read,
    where the count is down but the read pointer is not up yet. *)
Record buf_wf (o : nat) (d : buf_desc) (r n : nat) : Prop := {
  wf_logdsize : 0 <= logdsize d <= 2;
  wf_logsize : logdsize d <= logsize d <= Z.min 16 (logdsize d + 15) /\ logsize d <> 0;
  wf_buf : exists b, buf d = Some b /\ Z.of_nat (length b) = BUF_BYTESIZE d;
  wf_rptr : rptr d = Z.of_nat (r * dsize d) /\ (r < nelem d)%nat;
  wf_wptr : wptr d = Z.of_nat ((r + o + n) mod nelem d * dsize d);
  wf_count : count d = Z.of_nat n /\ (n <= nelem d)%nat
}.
Definition buf_queue (o : nat) (d : buf_desc) (r n : nat) : list (list Z) :=
  ring (slot d) (nelem d) (r + o) n.

Lemma pow2_pos n : 0 <= n -> 1 <= 2 ^ n.
Proof. intros. pose proof (Z.pow_pos_nonneg 2 n). lia. Qed.

Section Wf.
Context (o : nat) (d : buf_desc) (r n : nat) (Hwf : buf_wf o d r n).

Lemma bytesize_split : BUF_BYTESIZE d = Z.of_nat (nelem d * dsize d) /\
(0 < nelem d)%nat /\ (0 < dsize d <= 4)%nat /\ BUF_BYTESIZE d <= 2 ^ 16.
Proof.
destruct Hwf as [[H1 H2] [[H3 H4] H5] _ _ _ _].
unfold nelem, dsize, BUF_BYTESIZE, BUF_REALSIZE, BUF_REALDSIZE.
rewrite !Z.shiftl_1_l.
pose proof (pow2_pos (logdsize d)). pose proof (pow2_pos (logsize d - logdsize d)).
split_and!; try lia.
- rewrite Nat2Z.inj_mul, !Z2Nat.id, <- Z.pow_add_r by lia. f_equal. lia.
- assert (2 ^ logdsize d <= 2 ^ 2) by (apply Z.pow_le_mono_r; lia). lia.
- apply Z.pow_le_mono_r; lia.
Qed.

Lemma copy_size_ok : copy_size d = dsize d.
Proof.
unfold copy_size, dsize. rewrite duff_count_pos; [done|].
unfold BUF_REALDSIZE. rewrite Z.shiftl_1_l. apply pow2_pos. apply Hwf.
Qed.

Lemma nelem_max : Z.of_nat (nelem d) <= 2 ^ 15.
Proof.
destruct Hwf as [? [? ?] _ _ _ _]. unfold nelem, BUF_REALSIZE. rewrite Z.shiftl_1_l.
rewrite Z2Nat.id by (apply Z.pow_nonneg; lia). apply Z.pow_le_mono_r; lia.
Qed.

(** Moving a pointer to the next element. *)
Lemma mod_incr k : (k < nelem d)%nat ->
BUF_MOD_INCR d (Z.of_nat (k * dsize d)) = Z.of_nat (S k mod nelem d * dsize d).
Proof.
intros Hk. destruct bytesize_split as (Hb & Hn & Hd & Hmax).
assert (0 <= logsize d) as Hls by (destruct Hwf; lia).
assert (Z.shiftl 1 (logdsize d) = Z.of_nat (dsize d)) as Hds.
{ unfold dsize, BUF_REALDSIZE. rewrite Z.shiftl_1_l.
  pose proof (pow2_pos (logdsize d)). destruct Hwf. lia. }
unfold BUF_MOD_INCR. unfold BUF_BYTESIZE in *. rewrite Hds, Z.shiftl_1_l in *.
rewrite land_mask by done. rewrite Hb.
rewrite <- Nat2Z.inj_add, <- Nat2Z.inj_mod. rewrite u16_small.
- f_equal. replace (k * dsize d + dsize d)%nat with (S k * dsize d)%nat by lia.
  by rewrite Nat.Div0.mul_mod_distr_r.
- pose proof (Nat.mod_upper_bound (k * dsize d + dsize d) (nelem d * dsize d)).
  unfold is_u. lia.
Qed.
End Wf.

(** ** Operations on well-formed buffers *)

Lemma slot_len o d r n k : buf_wf o d r n -> (k < nelem d)%nat -> length (slot d k) = dsize d.
Proof.
  intros Hwf Hk. destruct (bytesize_split o d r n Hwf) as (Hb & _).
  destruct (wf_buf _ _ _ _ Hwf) as (b & Hbuf & Hl). unfold slot. rewrite Hbuf. simpl.
  rewrite length_take, length_drop. nia.
Qed.
Lemma slot_bound o d r n k b : buf_wf o d r n -> buf d = Some b -> (k < nelem d)%nat ->
  (k * dsize d + dsize d <= length b)%nat.
Proof.
  intros Hwf Hb Hk. destruct (bytesize_split o d r n Hwf) as (Hs & _).
  destruct (wf_buf _ _ _ _ Hwf) as (b' & Hbuf & Hl).
  assert (b' = b) as -> by congruence. nia.
Qed.
Lemma loads_slot o d r n k b : buf_wf o d r n -> buf d = Some b -> (k < nelem d)%nat ->
  loads b (k * dsize d) (dsize d) = Some (slot d k).
Proof.
  intros Hwf Hb Hk. pose proof (slot_bound o d r n k b Hwf Hb Hk).
  unfold loads. rewrite decide_True by done. unfold slot. by rewrite Hb.
Qed.

(** Storing an element replaces one slot. *)
Lemma slot_splice o d r n k b e j : buf_wf o d r n -> buf d = Some b -> (k < nelem d)%nat ->
  length e = dsize d -> (j < nelem d)%nat ->
  take (dsize d) (drop (j * dsize d) (splice b (k * dsize d) e))
  = if decide (j = k) then e else slot d j.
Proof.
  intros Hwf Hb Hk He Hj. pose proof (slot_bound o d r n k b Hwf Hb Hk) as Hkb.
  pose proof (slot_bound o d r n j b Hwf Hb Hj) as Hjb.
  assert (k * dsize d + length e <= length b)%nat as Hl by lia.
  apply list_eq. intros i. destruct (decide (i < dsize d)%nat) as [Hi|Hi].
  - rewrite lookup_take_lt, lookup_drop by done. case_decide as Hjk.
    + subst j. rewrite lookup_splice_new by lia. f_equal. lia.
    + rewrite lookup_splice_old; [|done|].
      * unfold slot. rewrite Hb, lookup_take_lt by done. simpl. by rewrite lookup_drop.
      * destruct (decide (j < k)%nat); [left|right]; nia.
  - rewrite lookup_take_ge by lia. symmetry. apply lookup_ge_None.
    case_decide; [lia|]. rewrite (slot_len o d r n j Hwf Hj). lia.
Qed.

(** What a write does as long as the guard lets it through: also when the
    buffer is full. *)
Definition written (d : buf_desc) (w n : nat) (b e : list Z) : buf_desc :=
  BufDesc (logsize d) (logdsize d) (Z.of_nat (S w mod nelem d * dsize d)) (rptr d)
    (Z.of_nat (S n)) (Some (splice b (w * dsize d) e)).
Lemma write_raw o d r n e b : buf_wf o d r n -> buf d = Some b ->
  Forall is_u8 e -> length e = dsize d ->
  buf_write_desc e d = Some (PLATFORM_OK, written d ((r + o + n) mod nelem d) n b e).
Proof.
  intros Hwf Hbuf Hb He. pose proof (nelem_max o d r n Hwf) as Hmax15.
  pose proof (bytesize_split o d r n Hwf) as (Hbs & Hne & Hds & Hmax).
  pose proof Hwf as [Hld [Hls Hls0] _ [Hr Hrn] Hw [Hc Hcn]].
  set (w := ((r + o + n) mod nelem d)%nat) in *.
  assert (w < nelem d)%nat as Hwn by (apply Nat.mod_upper_bound; lia).
  pose proof (slot_bound o d r n w b Hwf Hbuf Hwn) as Hwb.
  unfold buf_write_desc.
  rewrite (proj2 (Z.eqb_neq (logsize d) BUF_SIZE_NONE)) by done.
  assert (BUF_REALSIZE d = Z.of_nat (nelem d)) as Hrs.
  { unfold nelem. rewrite Z2Nat.id; [done|]. unfold BUF_REALSIZE. rewrite Z.shiftl_1_l.
    apply Z.pow_nonneg. lia. }
  rewrite Z.gtb_ltb, (proj2 (Z.ltb_ge _ _)) by lia.
  rewrite Hbuf, (copy_size_ok o d r n Hwf). cbn [mbind option_bind].
  unfold loads. rewrite decide_True by lia. cbn [mbind option_bind].
  rewrite drop_0, take_ge by lia. rewrite Hw, Nat2Z.id.
  rewrite stores_splice by (done || lia). cbn [mbind option_bind]. unfold written.
  assert (u16 (count d + 1) = Z.of_nat (S n)) as Hcu
    by (rewrite Hc, u16_small by (unfold is_u; lia); lia).
  change (BUF_MOD_INCR _ _) with (BUF_MOD_INCR d (wptr d)).
  rewrite Hw, (mod_incr o d r n Hwf w Hwn). unfold set_count, set_wptr, set_data. simpl.
  by rewrite Hcu.
Qed.
Lemma slot_written o d r n m b e k : buf_wf o d r n -> buf d = Some b ->
  length e = dsize d -> (k < nelem d)%nat ->
  slot (written d ((r + o + n) mod nelem d) m b e) k
  = if decide (k = (r + o + n) mod nelem d)%nat then e else slot d k.
Proof.
  intros Hwf Hb He Hk. pose proof (bytesize_split o d r n Hwf) as (_ & Hne & _).
  apply (slot_splice o d r n ((r + o + n) mod nelem d) b e k); try done.
  apply Nat.mod_upper_bound. lia.
Qed.

(** The next free element. *)
Lemma write_ok o d r n e : buf_wf o d r n -> (n < nelem d)%nat ->
  Forall is_u8 e -> length e = dsize d ->
  exists d', buf_write_desc e d = Some (PLATFORM_OK, d') /\ buf_wf o d' r (S n) /\
    buf_queue o d' r (S n) = buf_queue o d r n ++ [e] /\
    logsize d' = logsize d /\ logdsize d' = logdsize d.
Proof.
  intros Hwf Hn Hb He. pose proof (bytesize_split o d r n Hwf) as (Hbs & Hne & Hds & Hmax).
  pose proof Hwf as [Hld Hls (b & Hbuf & Hbl) Hr Hw Hc].
  assert ((r + o + n) mod nelem d < nelem d)%nat as Hwn by (apply Nat.mod_upper_bound; lia).
  pose proof (slot_bound o d r n _ b Hwf Hbuf Hwn) as Hwb.
  exists (written d ((r + o + n) mod nelem d) n b e).
  split_and!; [by apply (write_raw o d r n e b)|split| |done|done]; try done.
  - eexists. split; [done|]. by rewrite length_splice by lia.
  - simpl. change (nelem (written _ _ _ _ _)) with (nelem d).
    change (dsize (written _ _ _ _ _)) with (dsize d). do 2 f_equal.
    rewrite <- (Nat.add_1_r ((r + o + n) mod nelem d)), Nat.Div0.add_mod_idemp_l. f_equal. lia.
  - unfold buf_queue. apply ring_put; [done|]. intros k.
    by apply (slot_written o d r n).
Qed.

(** Writes one after the other. *)
Fixpoint buf_writes (es : list (list Z)) (d : buf_desc) : option buf_desc :=
  match es with
  | [] => Some d
  | e :: es => '(_, d) ← buf_write_desc e d; buf_writes es d
  end.
Lemma writes_ok es : forall o d r n, buf_wf o d r n -> (n + length es <= nelem d)%nat ->
  Forall (λ e, Forall is_u8 e /\ length e = dsize d) es ->
  exists d', buf_writes es d = Some d' /\ buf_wf o d' r (n + length es) /\
    buf_queue o d' r (n + length es) = buf_queue o d r n ++ es /\
    logsize d' = logsize d /\ logdsize d' = logdsize d.
Proof.
  induction es as [|e es IH]; intros o d r n Hwf Hn Hes.
  - exists d. cbn [length]. rewrite Nat.add_0_r, app_nil_r. done.
  - apply Forall_cons in Hes as [[Hb He] Hes]. cbn [length] in *.
    destruct (write_ok o d r n e Hwf) as (d1 & Hw & Hwf1 & Hq1 & Hs1 & Hd1); [lia|done|done|].
    assert (nelem d1 = nelem d /\ dsize d1 = dsize d) as [Hne Hds]
      by (unfold nelem, dsize, BUF_REALSIZE, BUF_REALDSIZE; by rewrite Hs1, Hd1).
    destruct (IH o d1 r (S n)) as (d2 & Hw2 & Hwf2 & Hq2 & Hs2 & Hd2);
      [done|lia|by rewrite Hds|].
    exists d2. cbn [buf_writes]. rewrite Hw. cbn [mbind option_bind].
    replace (n + S (length es))%nat with (S n + length es)%nat by lia.
    split_and!; [done|done| |congruence|congruence].
    by rewrite Hq2, Hq1, <- app_assoc.
Qed.

(** ** Reads *)

(** The count goes down: the first element leaves the queue. *)
Lemma count_down d r n : buf_wf 0 d r (S n) ->
  buf_wf 1 (set_count d (u16 (count d - 1))) r n /\
  buf_queue 0 d r (S n) = slot d r :: buf_queue 1 (set_count d (u16 (count d - 1))) r n.
Proof.
  intros Hwf. pose proof (nelem_max 0 d r (S n) Hwf) as Hmax15.
  destruct Hwf as [Hld Hls Hbuf [Hr Hrn] Hw [Hc Hcn]]. split; [split|]; try done; simpl.
  - replace (r + 1 + n)%nat with (r + 0 + S n)%nat by lia. exact Hw.
  - rewrite Hc, u16_small by (unfold is_u; lia).
    change (nelem (set_count _ _)) with (nelem d). lia.
  - unfold buf_queue. rewrite ring_cons, Nat.add_0_r, Nat.mod_small by done.
    by rewrite Nat.add_1_r.
Qed.
(** The read pointer goes up. *)
Lemma rptr_up d r n : buf_wf 1 d r n ->
  buf_wf 0 (set_rptr d (BUF_MOD_INCR d (rptr d))) (S r mod nelem d) n /\
  buf_queue 0 (set_rptr d (BUF_MOD_INCR d (rptr d))) (S r mod nelem d) n = buf_queue 1 d r n.
Proof.
  intros Hwf. destruct (bytesize_split 1 d r n Hwf) as (_ & Hne & _).
  pose proof Hwf as [Hld Hls Hbuf [Hr Hrn] Hw Hc]. split; [split|]; try done; simpl.
  - split; [by rewrite Hr, (mod_incr 1 d r n Hwf)|].
    apply (Nat.mod_upper_bound (S r) (nelem d)). lia.
  - rewrite Hw. change (nelem (set_rptr _ _)) with (nelem d).
    change (dsize (set_rptr _ _)) with (dsize d). do 2 f_equal.
    rewrite Nat.add_0_r, Nat.Div0.add_mod_idemp_l. f_equal. lia.
  - unfold buf_queue. rewrite Nat.add_0_r. change (nelem (set_rptr _ _)) with (nelem d).
    rewrite ring_mod by done. by rewrite Nat.add_1_r.
Qed.

(** Element lists an interrupt handler may queue. *)
Definition elems (d : buf_desc) (es : list (list Z)) : Prop :=
  Forall (λ e, Forall is_u8 e /\ length e = dsize d) es.
Lemma same_sizes d d' : logsize d' = logsize d -> logdsize d' = logdsize d ->
  nelem d' = nelem d /\ dsize d' = dsize d.
Proof.
  intros Hs Hd. unfold nelem, dsize, BUF_REALSIZE, BUF_REALDSIZE. by rewrite Hs, Hd.
Qed.
Lemma elems_same d d' es : dsize d' = dsize d -> elems d es -> elems d' es.
Proof. unfold elems. by intros ->. Qed.

Lemma read_start d r n : buf_wf 0 d r (S n) ->
  (logsize d =? BUF_SIZE_NONE) || (count d =? 0) = false /\
  Z.to_nat (rptr d) = (r * dsize d)%nat.
Proof.
  intros [_ [_ Hls] _ [Hr _] _ [Hc _]]. rewrite (proj2 (Z.eqb_neq (logsize d) BUF_SIZE_NONE)) by done.
  rewrite (proj2 (Z.eqb_neq _ _)) by lia. split; [done|]. by rewrite Hr, Nat2Z.id.
Qed.

Lemma queue_head d r n : buf_wf 0 d r n -> (0 < n)%nat ->
  head (buf_queue 0 d r n) = Some (slot d r).
Proof.
  intros Hwf Hn. destruct n as [|n]; [lia|]. unfold buf_queue.
  rewrite ring_cons, Nat.add_0_r, Nat.mod_small; [done|]. apply (wf_rptr _ _ _ _ Hwf).
Qed.

Lemma read_isr_ok d r n es1 es2 es3 : buf_wf 0 d r (S n) ->
  elems d es1 -> elems d es2 -> elems d es3 ->
  (S n + length es1 + length es2 <= nelem d)%nat ->
  (n + length es1 + length es2 + length es3 <= nelem d)%nat ->
  exists e q d', buf_queue 0 d r (S n) = e :: q /\
    buf_read_isr (buf_writes es1) (buf_writes es2) (buf_writes es3) d
      = Some (PLATFORM_OK, e, d') /\
    let n' := (n + length es1 + length es2 + length es3)%nat in
    buf_wf 0 d' (S r mod nelem d) n' /\
    buf_queue 0 d' (S r mod nelem d) n' = q ++ es1 ++ es2 ++ es3 /\
    logsize d' = logsize d /\ logdsize d' = logdsize d.
Proof.
  intros Hwf He1 He2 He3 Hn12 Hn123. destruct (read_start d r n Hwf) as [Hg Hs].
  destruct (writes_ok es1 0 d r (S n) Hwf) as (d1 & Hw1 & Hwf1 & Hq1 & Hs1 & Hd1); [lia|done|].
  destruct (same_sizes d d1) as [Hne1 Hds1]; [done..|].
  destruct (writes_ok es2 0 d1 r (S n + length es1)) as (d2 & Hw2 & Hwf2 & Hq2 & Hs2 & Hd2);
    [done|lia|by apply (elems_same d)|].
  destruct (same_sizes d1 d2) as [Hne2 Hds2]; [done..|].
  set (m := (n + length es1 + length es2)%nat) in *.
  replace (S n + length es1 + length es2)%nat with (S m) in * by lia.
  destruct (count_down d2 r m Hwf2) as [Hwf3 Hq3]. set (d3 := set_count d2 _) in *.
  destruct (writes_ok es3 1 d3 r m Hwf3) as (d4 & Hw4 & Hwf4 & Hq4 & Hs4 & Hd4);
    [change (nelem d3) with (nelem d2); lia|apply (elems_same d); [|done];
     change (dsize d3) with (dsize d2); congruence|].
  assert (nelem d4 = nelem d) as Hne4
    by (destruct (same_sizes d3 d4) as [Hne _]; [done..|]; rewrite Hne, <- Hne1, <- Hne2; done).
  destruct (rptr_up d4 r (m + length es3) Hwf4) as [Hwf5 Hq5]. rewrite Hne4 in Hwf5, Hq5.
  pose proof (queue_head d r (S n) Hwf ltac:(lia)) as Hh0.
  pose proof (queue_head d1 r _ Hwf1 ltac:(lia)) as Hh1.
  pose proof (queue_head d2 r _ Hwf2 ltac:(lia)) as Hh2.
  destruct (buf_queue 0 d r (S n)) as [|e q] eqn:Hq0; [done|]. injection Hh0 as ->.
  rewrite Hq1 in Hq2, Hh1. rewrite Hq2 in Hh2. injection Hh1 as Hsl1. injection Hh2 as Hsl2.
  exists (slot d r), q. eexists. split; [done|]. split.
  - unfold buf_read_isr. rewrite Hg, Hw1. cbn [mbind option_bind].
    destruct (wf_buf _ _ _ _ Hwf1) as (b & Hb & _). rewrite Hb. cbn [mbind option_bind].
    rewrite Hs, <- Hds1, (copy_size_ok 0 d1 r _ Hwf1).
    rewrite (loads_slot 0 d1 r _ r b Hwf1 Hb) by apply (wf_rptr _ _ _ _ Hwf1).
    cbn [mbind option_bind]. rewrite Hw2. cbn [mbind option_bind]. fold d3. rewrite Hw4.
    cbn [mbind option_bind]. rewrite <- Hsl1. reflexivity.
  - change (logsize d3) with (logsize d2) in Hs4. change (logdsize d3) with (logdsize d2) in Hd4.
    simpl. split_and!; [exact Hwf5| |simpl; congruence..].
    rewrite Hq5, Hq4. rewrite Hq3 in Hq2. simpl in Hq2. injection Hq2 as _ ->.
    by rewrite <- !app_assoc.
Qed.

(** ** The queue interface *)

(** Where the read pointer is, and how much is queued. *)
Definition head_at (d : buf_desc) : nat := (Z.to_nat (rptr d) / dsize d)%nat.
Definition queued (d : buf_desc) : nat := Z.to_nat (count d).
Lemma wf_head d r n : buf_wf 0 d r n -> head_at d = r /\ queued d = n.
Proof.
  intros Hwf. destruct (bytesize_split 0 d r n Hwf) as (_ & _ & Hds & _).
  unfold head_at, queued. destruct (wf_rptr _ _ _ _ Hwf) as [-> _].
  destruct (wf_count _ _ _ _ Hwf) as [-> _]. rewrite !Nat2Z.id, Nat.div_mul by lia. done.
Qed.

#[export] Instance buf_fifo : Fifo buf_desc (list Z) := {
  fifo_ok d := buf_wf 0 d (head_at d) (queued d);
  fifo_elem d e := Forall is_u8 e /\ length e = dsize d;
  fifo_cap d := nelem d;
  fifo_list d := buf_queue 0 d (head_at d) (queued d);
  fifo_put e d :=
    match buf_write_desc e d with
    | Some (r, d) => if r =? PLATFORM_OK then Some d else None
    | None => None
    end;
  fifo_get d :=
    match buf_read_desc d with
    | Some (r, e, d) => if r =? PLATFORM_OK then Some (e, d) else None
    | None => None
    end
}.
#[export] Instance buf_fifo_laws : FifoLaws buf_desc (list Z).
Proof.
  split; simpl.
  - intros d e Hok [Hb He]. unfold buf_queue at 1. rewrite length_ring. intros Hl.
    destruct (write_ok 0 d _ _ e Hok Hl Hb He) as (d' & Hw & Hwf & Hq & Hs & Hd).
    exists d'. rewrite Hw. destruct (wf_head d' _ _ Hwf) as [-> ->].
    destruct (same_sizes d d') as [Hne Hds]; [done..|]. unfold fifo_same. simpl.
    rewrite Hne, Hds. done.
  - intros d e l Hok Hq. destruct (queued d) as [|n] eqn:Hn; [done|].
    pose proof (wf_count _ _ _ _ Hok) as [_ Hn'].
    destruct (read_isr_ok d _ n [] [] [] Hok) as (e' & q & d' & Hq' & Hr & Hwf & Hl & Hs & Hd);
      [by constructor..|simpl; lia|simpl; lia|].
    rewrite Hq' in Hq. injection Hq as -> ->. exists d'.
    unfold buf_read_desc. change (buf_read_isr Some Some Some d) with
      (buf_read_isr (buf_writes []) (buf_writes []) (buf_writes []) d). rewrite Hr.
    destruct (wf_head d' _ _ Hwf) as [-> ->].
    destruct (same_sizes d d') as [Hne Hds]; [done..|]. unfold fifo_same. simpl.
    rewrite Hne, Hds. split_and!; try done. etransitivity; [exact Hl|].
    by rewrite !app_nil_r.
  - intros d Hok Hq. apply (f_equal length) in Hq. unfold buf_queue in Hq.
    rewrite length_ring in Hq. simpl in Hq. destruct (wf_count _ _ _ _ Hok) as [Hc _].
    unfold buf_read_desc, buf_read_isr. rewrite Hc, Hq, orb_true_r. done.
Qed.


(** C23: whatever the order in which elements are written and read, as long as
    no more are queued than the buffer holds, every write is accepted, and the
    elements read followed by those still queued are those queued at the start
    followed by those written: nothing is lost, repeated or reordered. *)
Theorem buf_fifo_order ops d : buf_wf 0 d (head_at d) (queued d) -> elems d (puts ops) ->
  room (nelem d) (queued d) ops ->
  exists out d', fifo_run ops d = Some (out, d') /\ buf_wf 0 d' (head_at d') (queued d') /\
    buf_queue 0 d (head_at d) (queued d) ++ puts ops
    = out ++ buf_queue 0 d' (head_at d') (queued d').
Proof.
  intros Hok He Hr. destruct (fifo_run_order ops d) as (out & d' & H1 & H2 & _ & H3);
    [done|done|simpl; unfold buf_queue; by rewrite length_ring|]. by exists out, d'.
Qed.

(** The guard of [buf_write] lets one write too many through: on a full
    buffer the write is accepted and overwrites the oldest element, so that the
    next read returns the newest element first. *)
Theorem buf_write_full d r e : buf_wf 0 d r (nelem d) -> Forall is_u8 e -> length e = dsize d ->
  exists d', buf_write_desc e d = Some (PLATFORM_OK, d') /\
    count d' = Z.of_nat (S (nelem d)) /\
    exists d'', buf_read_desc d' = Some (PLATFORM_OK, e, d'').
Proof.
  intros Hwf Hb He. destruct (wf_buf _ _ _ _ Hwf) as (b & Hbuf & Hbl).
  pose proof (bytesize_split 0 d r _ Hwf) as (_ & Hne & _).
  destruct (wf_rptr _ _ _ _ Hwf) as [Hr Hrn].
  assert ((r + 0 + nelem d) mod nelem d = r)%nat as Hw.
  { rewrite Nat.add_0_r, mod_add_self. by apply Nat.mod_small. }
  pose proof (slot_written 0 d r _ (nelem d) b e r Hwf Hbuf He Hrn) as Hsl.
  pose proof (slot_bound 0 d r _ r b Hwf Hbuf Hrn) as Hbound.
  rewrite Hw, decide_True in Hsl by done.
  eexists. split; [by apply (write_raw 0 d r (nelem d) e b)|]. rewrite Hw. split; [done|].
  eexists. unfold buf_read_desc, buf_read_isr. cbn [logsize count rptr buf written].
  rewrite (proj2 (Z.eqb_neq (logsize d) BUF_SIZE_NONE)) by apply (wf_logsize _ _ _ _ Hwf).
  rewrite (proj2 (Z.eqb_neq (Z.of_nat (S (nelem d))) 0)) by lia. cbn [orb mbind option_bind].
  cbn [logsize count rptr buf written].
  change (copy_size (written d r (nelem d) b e)) with (copy_size d).
  rewrite Hr, Nat2Z.id, (copy_size_ok 0 d r _ Hwf). cbn [mbind option_bind].
  unfold loads. rewrite length_splice, decide_True by lia.
  unfold slot in Hsl. cbn [buf written default from_option id] in Hsl; unfold id in Hsl.
  change (dsize (written _ _ _ _ _)) with (dsize d) in Hsl. rewrite Hsl. reflexivity.
Qed.

(** ** Setting up a buffer *)

(** A buffer set up for [2 ^ lsize] elements of [2 ^ ldsize] bytes is well
    formed, empty and has that size; if there is no memory the call fails and
    the buffer is off: it takes nothing and gives nothing. *)
Theorem buf_set_empty realloc lsize ldsize d : 0 <= ldsize <= 2 -> 1 <= lsize ->
  ldsize + lsize <= Z.min 16 (ldsize + 15) -> rptr d = 0 -> wptr d = 0 -> count d = 0 ->
  (forall p n b, 0 <= n -> realloc p n = Some b -> Z.of_nat (length b) = n) ->
  let '(r, d') := buf_set_desc realloc lsize ldsize d in
  if r =? PLATFORM_OK then
    buf_wf 0 d' 0 0 /\ buf_get_size_desc d' = 2 ^ lsize /\ buf_read_desc d' = Some (PLATFORM_UNDERFLOW, [], d')
  else
    buf_is_enabled_desc d' = false /\ buf_get_size_desc d' = 0 /\ buf_get_count_desc d' = 0 /\
    (forall e, buf_write_desc e d' = Some (PLATFORM_ERR, d')) /\
    buf_read_desc d' = Some (PLATFORM_UNDERFLOW, [], d').
Proof.
  intros Hds Hls Hmax Hr Hw Hc Hre. unfold buf_set_desc.
  rewrite u8_small by word_lia.
  destruct (realloc (buf d) (Z.shiftl 1 (lsize + ldsize))) as [b|] eqn:E.
  - apply Hre in E; [|rewrite Z.shiftl_1_l; apply Z.pow_nonneg; lia]. change (PLATFORM_OK =? PLATFORM_OK) with true. cbv iota.
    rewrite Hr, Hw, Hc. set (d' := BufDesc _ _ _ _ _ _).
    assert (BUF_REALSIZE d' = 2 ^ lsize) as Hsz
      by (unfold BUF_REALSIZE; simpl; rewrite Z.shiftl_1_l; f_equal; lia).
    pose proof (pow2_pos lsize ltac:(lia)) as Hp.
    split_and!.
    + split; simpl; [lia|lia|by exists b|split; [done|]|by rewrite Nat.Div0.mod_0_l|split; [done|lia]].
      unfold nelem. rewrite Hsz. lia.
    + unfold buf_get_size_desc. rewrite Hsz. simpl.
      by rewrite (proj2 (Z.eqb_neq (lsize + ldsize) BUF_SIZE_NONE)) by (unfold BUF_SIZE_NONE; lia).
    + unfold buf_read_desc, buf_read_isr. simpl. by rewrite orb_true_r.
  - rewrite (proj2 (Z.eqb_neq lsize BUF_SIZE_NONE)) by (unfold BUF_SIZE_NONE; lia). done.
Qed.

(** A buffer that is made smaller while it is in use keeps its pointers: the
    next write can be outside of the new block. *)
Definition resized (p : option (list Z)) (n : Z) : option (list Z) :=
  Some (replicate (Z.to_nat n) 0).
Definition shrink_in_use : option (Z * option (Z * buf_desc)) :=
  let d := (buf_set_desc resized 3 0 (BufDesc 0 0 0 0 0 None)).2 in
  d ← buf_writes [[1]; [2]; [3]; [4]; [5]] d;
  '(_, _, d) ← buf_read_desc d; '(_, _, d) ← buf_read_desc d;
  '(_, _, d) ← buf_read_desc d; '(_, _, d) ← buf_read_desc d;
  let '(r, d) := buf_set_desc resized 1 0 d in
  Some (r, buf_write_desc [6] d).
Example buf_set_shrink_out_of_bounds : shrink_in_use = Some (PLATFORM_OK, None).
Proof. by vm_compute. Qed.

(** ** The array *)

(** The UARTs: physical, virtual, and the one on USB. *)
Definition uart_exists (nu nv resnum : Z) : Prop :=
  0 <= resnum < nu \/ SERMUX_SERVICE_ID_FIRST <= resnum < SERMUX_SERVICE_ID_FIRST + nv \/
  resnum = CDC_UART_ID.

Lemma check_resnum_inj nu nv x y : 0 <= nu <= CDC_UART_ID -> 0 <= nv ->
  uart_exists nu nv x -> uart_exists nu nv y ->
  bufh_check_resnum nu nv BUF_ID_UART x = bufh_check_resnum nu nv BUF_ID_UART y -> x = y.
Proof.
  unfold uart_exists, bufh_check_resnum, CDC_UART_ID, SERMUX_SERVICE_ID_FIRST.
  intros. repeat case_decide; try lia; destruct (Z.eqb_spec x 176), (Z.eqb_spec y 176); lia.
Qed.
Lemma check_resnum_range nu nv x : 0 <= nu <= CDC_UART_ID -> 0 <= nv -> uart_exists nu nv x ->
  0 <= bufh_check_resnum nu nv BUF_ID_UART x < nu + nv + 1.
Proof.
  unfold uart_exists, bufh_check_resnum, CDC_UART_ID, SERMUX_SERVICE_ID_FIRST.
  intros. repeat case_decide; try lia; destruct (Z.eqb_spec x 176); lia.
Qed.

Lemma getptr_putptr nu nv a resid x d : is_Some (buf_getptr nu nv a resid x) ->
  buf_getptr nu nv (buf_putptr nu nv a resid x d) resid x = Some d.
Proof.
  unfold buf_getptr, buf_putptr. intros [d0 H]. destruct (a !! resid) as [l|] eqn:E; [|done].
  simpl in H. rewrite list_lookup_alter_eq, E. simpl.
  apply list_lookup_insert_eq. by apply lookup_lt_Some in H.
Qed.
Lemma getptr_putptr_ne nu nv a x y d : 0 <= nu <= CDC_UART_ID -> 0 <= nv ->
  uart_exists nu nv x -> uart_exists nu nv y -> x <> y ->
  buf_getptr nu nv (buf_putptr nu nv a BUF_ID_UART x d) BUF_ID_UART y
  = buf_getptr nu nv a BUF_ID_UART y.
Proof.
  intros Hnu Hnv Hx Hy Hne. unfold buf_getptr, buf_putptr. rewrite list_lookup_alter_eq.
  destruct (a !! BUF_ID_UART) as [l|]; [|done]. simpl. apply list_lookup_insert_ne.
  intros Heq. apply Hne, (check_resnum_inj nu nv); try done.
  pose proof (check_resnum_range nu nv x Hnu Hnv Hx).
  pose proof (check_resnum_range nu nv y Hnu Hnv Hy). lia.
Qed.

(** The buffers of the physical, virtual and USB UARTs are separate
    queues: a write to one of them is a write to its descriptor, a read from
    it then sees what was written there, and every other UART's buffer is
    unchanged. *)
Theorem buf_write_isolated nu nv a x y data d r d' : 0 <= nu <= CDC_UART_ID -> 0 <= nv ->
  uart_exists nu nv x -> uart_exists nu nv y -> x <> y ->
  buf_getptr nu nv a BUF_ID_UART x = Some d -> buf_write_desc data d = Some (r, d') ->
  exists a', buf_write nu nv BUF_ID_UART x data a = Some (r, a') /\
    buf_get_count nu nv BUF_ID_UART x a' = Some (count d') /\
    (forall e d'', buf_read_desc d' = Some (PLATFORM_OK, e, d'') ->
       exists a'', buf_read nu nv BUF_ID_UART x a' = Some (PLATFORM_OK, e, a'')) /\
    buf_getptr nu nv a' BUF_ID_UART y = buf_getptr nu nv a BUF_ID_UART y.
Proof.
  intros Hnu Hnv Hx Hy Hne Hget Hw. exists (buf_putptr nu nv a BUF_ID_UART x d').
  assert (buf_getptr nu nv (buf_putptr nu nv a BUF_ID_UART x d') BUF_ID_UART x = Some d') as Hg
    by (apply getptr_putptr; by eexists).
  split_and!.
  - unfold buf_write. rewrite Hget. cbn [mbind option_bind]. by rewrite Hw.
  - unfold buf_get_count. by rewrite Hg.
  - intros e d'' Hr. unfold buf_read. rewrite Hg. cbn [mbind option_bind]. rewrite Hr.
    by eexists.
  - by apply getptr_putptr_ne.
Qed.

(** ** Witnesses *)

Definition two_bytes : buf_desc :=
  BufDesc 3 1 2 6 2 (Some [3; 4; 5; 6; 7; 8; 1; 2]).
Lemma two_bytes_wf : buf_wf 0 two_bytes 3 2.
Proof.
  split; [by vm_compute|split; by vm_compute|by eexists|split; [done|vm_compute; lia]
    |done|split; [done|vm_compute; lia]].
Qed.

Lemma buf_fifo_order_witness : exists out d',
  fifo_run [Put [9; 9]; Get; Put [8; 8]; Get; Get; Get] two_bytes = Some (out, d') /\
  [[1; 2]; [3; 4]; [9; 9]; [8; 8]] = out ++ buf_queue 0 d' (head_at d') (queued d').
Proof.
  destruct (buf_fifo_order [Put [9; 9]; Get; Put [8; 8]; Get; Get; Get] two_bytes)
    as (out & d' & H1 & _ & H2).
  - exact two_bytes_wf.
  - by_decide.
  - vm_compute. lia.
  - exists out, d'. split; [exact H1|exact H2].
Defined.
Definition full_buf : buf_desc := BufDesc 1 0 1 1 2 (Some [1; 2]).
Lemma buf_write_full_witness : exists d', buf_write_desc [7] full_buf = Some (PLATFORM_OK, d') /\
  exists d'', buf_read_desc d' = Some (PLATFORM_OK, [7], d'').
Proof.
  destruct (buf_write_full full_buf 1 [7]) as (d' & H1 & _ & H2).
  - split; [by vm_compute|split; by vm_compute|by eexists|split; [done|vm_compute; lia]
    |done|split; [done|vm_compute; lia]].
  - by_decide.
  - done.
  - exists d'. split; [exact H1|exact H2].
Defined.
Lemma buf_set_empty_witness :
  let d' := (buf_set_desc resized 4 1 (BufDesc 0 0 0 0 0 None)).2 in
  buf_wf 0 d' 0 0 /\ buf_get_size_desc d' = 16.
Proof.
  pose proof (buf_set_empty resized 4 1 (BufDesc 0 0 0 0 0 None)) as H.
  destruct H as (H1 & H2 & _); [lia..|done|done|done| |split; [exact H1|exact H2]].
  intros p n b Hn. unfold resized. intros [= <-]. rewrite length_replicate. lia.
Defined.
Definition uart_bufs : buf_array := [replicate 7 full_buf; []].
Lemma buf_write_isolated_witness :
  exists a', buf_write 2 4 BUF_ID_UART 0xD1 [5] uart_bufs = Some (PLATFORM_OK, a') /\
    buf_getptr 2 4 a' BUF_ID_UART 0xB0 = Some full_buf.
Proof.
  destruct (buf_write_isolated 2 4 uart_bufs 0xD1 0xB0 [5] full_buf PLATFORM_OK
    (BufDesc 1 0 0 1 3 (Some [1; 5]))) as (a' & H1 & _ & _ & H2).
  - unfold CDC_UART_ID. lia.
  - lia.
  - right. left. unfold SERMUX_SERVICE_ID_FIRST. lia.
  - right. right. done.
  - lia.
  - done.
  - by vm_compute.
  - exists a'. split; [exact H1|exact H2].
Defined.
