(* ===== verification/IntQueue.v ===== *)
(** * IntQueue: interrupts for Lua code

    Models src/elua_int.c: the queue that takes interrupts from the hardware
    handlers to the Lua program, the flags that enable each source, the count
    hook that empties the queue, and the table of C handlers.  The Lua virtual
    machine is represented by what the code does to it: whether the hook is
    installed, and which handler calls are made. *)

From S2P Require Import Prelude Fifo.

Definition ELUA_INT_EMPTY_SLOT : Z := 0.
Definition ELUA_INT_FIRST_ID : Z := 1.
Definition LUA_INT_MAX_SOURCES : Z := 128.

(** An element: interrupt number and resource number. *)
Abbreviation elua_int_element := (Z * Z)%type.

Record int_state := IntState {
  elua_int_read_idx : Z;
  elua_int_write_idx : Z;
  elua_int_queue : list elua_int_element;
  elua_int_flags : list Z;
  (** [lua_sethook]: the count hook is installed. *)
  hook_set : bool
}.
Definition set_flags (s : int_state) fl :=
  IntState (elua_int_read_idx s) (elua_int_write_idx s) (elua_int_queue s) fl (hook_set s).

(** ** Flags *)

Definition elua_int_enable (inttype : Z) (s : int_state) : option int_state :=
  if inttype <? LUA_INT_MAX_SOURCES then
    let i := Z.to_nat (Z.shiftr inttype 5) in
    w ← elua_int_flags s !! i;
    Some (set_flags s
      (<[i := Z.lor w (Z.shiftl 1 (Z.land inttype 0x1F))]> (elua_int_flags s)))
  else Some s.
Definition elua_int_disable (inttype : Z) (s : int_state) : option int_state :=
  if inttype <? LUA_INT_MAX_SOURCES then
    let i := Z.to_nat (Z.shiftr inttype 5) in
    w ← elua_int_flags s !! i;
    Some (set_flags s
      (<[i := Z.land w (Z.lnot (Z.shiftl 1 (Z.land inttype 0x1F)))]> (elua_int_flags s)))
  else Some s.
Definition elua_int_is_enabled (inttype : Z) (s : int_state) : option bool :=
  if inttype <? LUA_INT_MAX_SOURCES then
    w ← elua_int_flags s !! Z.to_nat (Z.shiftr inttype 5);
    Some (negb (Z.land w (Z.shiftl 1 (Z.land inttype 0x1F)) =? 0))
  else Some false.
(** [for( i = 0; i < LUA_INT_MAX_SOURCES >> 5; i ++ )] *)
Definition elua_int_disable_all (s : int_state) : int_state :=
  set_flags s (imap (λ i w, if decide (Z.of_nat i < Z.shiftr LUA_INT_MAX_SOURCES 5) then 0 else w)
    (elua_int_flags s)).
Definition elua_int_cleanup (s : int_state) : int_state :=
  let s := elua_int_disable_all s in
  IntState 0 0 ((λ _, (ELUA_INT_EMPTY_SLOT, 0)) <$> elua_int_queue s) (elua_int_flags s) (hook_set s).

(** ** The queue *)

Section Queue.
(** [PLATFORM_INT_QUEUE_LOG_SIZE] and [INT_ELUA_LAST]. *)
Context (logsize : nat) (INT_ELUA_LAST : Z).

Definition INT_IDX_MASK : Z := Z.shiftl 1 (Z.of_nat logsize) - 1.
Definition next_idx (i : Z) : Z := u8 (Z.land (i + 1) INT_IDX_MASK).

(** [lua_running]: [lua_getstate() != NULL]. *)
Definition elua_int_add (lua_running : bool) (inttype resnum : Z) (s : int_state)
: option (Z * int_state) :=
if (inttype <? ELUA_INT_FIRST_ID) || (INT_ELUA_LAST <? inttype) then Some (PLATFORM_ERR, s)
else
  enabled ← elua_int_is_enabled inttype s;
  if negb lua_running || negb enabled then Some (PLATFORM_ERR, s)
  else
    slot ← elua_int_queue s !! Z.to_nat (elua_int_write_idx s);
    if negb (slot.1 =? ELUA_INT_EMPTY_SLOT) then Some (PLATFORM_ERR, s)
    else Some (PLATFORM_OK,
      IntState (elua_int_read_idx s) (next_idx (elua_int_write_idx s))
        (<[Z.to_nat (elua_int_write_idx s) := (inttype, resnum)]> (elua_int_queue s))
        (elua_int_flags s) true).

(** The hook first takes an element off the queue. *)
Definition hook_take (s : int_state) : option (elua_int_element * int_state) :=
crt ← elua_int_queue s !! Z.to_nat (elua_int_read_idx s);
Some (crt, IntState (next_idx (elua_int_read_idx s)) (elua_int_write_idx s)
  (<[Z.to_nat (elua_int_read_idx s) := (ELUA_INT_EMPTY_SLOT, crt.2)]> (elua_int_queue s))
  (elua_int_flags s) (hook_set s)).
(** At its end, with interrupts disabled, it removes itself if nothing is
  queued any more. *)
Definition hook_end (s : int_state) : option int_state :=
slot ← elua_int_queue s !! Z.to_nat (elua_int_read_idx s);
Some (if slot.1 =? ELUA_INT_EMPTY_SLOT
      then IntState (elua_int_read_idx s) (elua_int_write_idx s) (elua_int_queue s)
             (elua_int_flags s) false
      else s).

(** [handlers]: which interrupts have a Lua function; [lua]: what happens to
  the state while the function runs (it may change flags, and interrupts may
  arrive).  Also returns the call made. *)
Definition elua_int_hook (handlers : Z -> bool) (lua : elua_int_element -> int_state -> option int_state)
(s : int_state) : option (option elua_int_element * int_state) :=
'(crt, s) ← hook_take s;
enabled ← elua_int_is_enabled crt.1 s;
if enabled && handlers crt.1 then
  s ← lua crt s; s ← hook_end s; Some (Some crt, s)
else s ← hook_end s; Some (None, s).
End Queue.

(** ** C handlers *)

Section CHandlers.
(** A handler, [None] for [NULL]; the table has [INT_ELUA_LAST] entries. *)
Context {handler : Type} (INT_ELUA_LAST : Z).

Definition elua_int_set_c_handler (inttype : Z) (phandler : option handler)
(l : list (option handler)) : option (option handler * list (option handler)) :=
if (inttype <? ELUA_INT_FIRST_ID) || (INT_ELUA_LAST <? inttype) then Some (None, l)
else
  let i := Z.to_nat (inttype - ELUA_INT_FIRST_ID) in
  crthandler ← l !! i; Some (crthandler, <[i := phandler]> l).
Definition elua_int_get_c_handler (inttype : Z) (l : list (option handler))
: option (option handler) :=
if (inttype <? ELUA_INT_FIRST_ID) || (INT_ELUA_LAST <? inttype) then Some None
else l !! Z.to_nat (inttype - ELUA_INT_FIRST_ID).
End CHandlers.

(** ** Flags as a set of sources *)

Definition flags_wf (s : int_state) : Prop := length (elua_int_flags s) = 4%nat.
Definition source (i : Z) : Prop := 0 <= i < LUA_INT_MAX_SOURCES.
Definition enabled (s : int_state) (i : Z) : bool := default false (elua_int_is_enabled i s).

Lemma land_bit w k : 0 <= k -> negb (Z.land w (Z.shiftl 1 k) =? 0) = Z.testbit w k.
Proof.
  intros Hk. rewrite Z.shiftl_1_l. destruct (Z.testbit w k) eqn:E.
  - apply negb_true_iff, Z.eqb_neq. intros H.
    assert (Z.testbit (Z.land w (2 ^ k)) k = true) as Ht
      by (by rewrite Z.land_spec, Z.pow2_bits_true, E).
    by rewrite H, Z.bits_0 in Ht.
  - apply negb_false_iff, Z.eqb_eq, Z.bits_inj'. intros i Hi.
    rewrite Z.land_spec, Z.bits_0. destruct (decide (i = k)) as [->|]; [by rewrite E|].
    by rewrite Z.pow2_bits_false, andb_false_r by lia.
Qed.

(** Word and bit of a source. *)
Lemma source_split i : source i ->
  (Z.to_nat (Z.shiftr i 5) < 4)%nat /\ 0 <= Z.land i 0x1F < 32 /\
  i = 32 * Z.of_nat (Z.to_nat (Z.shiftr i 5)) + Z.land i 0x1F.
Proof.
  unfold source, LUA_INT_MAX_SOURCES. intros H.
  rewrite (land_mask i 5 ltac:(lia) : Z.land i 0x1F = i mod 32).
  rewrite Z.shiftr_div_pow2 by lia. change (2 ^ 5) with 32.
  Z.to_euclidean_division_equations. lia.
Qed.
Lemma enabled_bit s i w : source i -> elua_int_flags s !! Z.to_nat (Z.shiftr i 5) = Some w ->
  enabled s i = Z.testbit w (Z.land i 0x1F).
Proof.
  intros Hi Hw. unfold enabled, elua_int_is_enabled.
  rewrite (proj2 (Z.ltb_lt i LUA_INT_MAX_SOURCES)) by apply Hi. rewrite Hw. simpl.
  apply land_bit. by apply source_split.
Qed.
Lemma source_word s i : flags_wf s -> source i ->
  exists w, elua_int_flags s !! Z.to_nat (Z.shiftr i 5) = Some w.
Proof.
  intros Hf Hi. apply lookup_lt_is_Some. unfold flags_wf in Hf.
  destruct (source_split i Hi). lia.
Qed.

(** Changing one bit of one word changes one source. *)
Lemma flags_update s i f : flags_wf s -> source i ->
  (forall w k, 0 <= k < 32 -> k <> Z.land i 0x1F -> Z.testbit (f w) k = Z.testbit w k) ->
  forall w, elua_int_flags s !! Z.to_nat (Z.shiftr i 5) = Some w ->
  let s' := set_flags s (<[Z.to_nat (Z.shiftr i 5) := f w]> (elua_int_flags s)) in
  flags_wf s' /\ enabled s' i = Z.testbit (f w) (Z.land i 0x1F) /\
  forall j, source j -> j <> i -> enabled s' j = enabled s j.
Proof.
  intros Hf Hi Hbits w Hw s'. pose proof (source_split i Hi) as (Hi4 & Hib & Hie).
  unfold flags_wf in *. split_and!.
  - simpl. by rewrite length_insert.
  - apply enabled_bit; [done|]. simpl. apply list_lookup_insert_eq. lia.
  - intros j Hj Hne. pose proof (source_split j Hj) as (Hj4 & Hjb & Hje).
    destruct (source_word s j Hf Hj) as [wj Hwj]. rewrite (enabled_bit s j wj) by done.
    destruct (decide (Z.to_nat (Z.shiftr j 5) = Z.to_nat (Z.shiftr i 5))) as [Heq|Hneq].
    + rewrite (enabled_bit s' j (f w)); [|done|].
      * assert (wj = w) as -> by congruence. apply Hbits; [lia|]. congruence.
      * simpl. rewrite Heq. apply list_lookup_insert_eq. lia.
    + apply enabled_bit; [done|]. simpl. by rewrite list_lookup_insert_ne by done.
Qed.

(** The flag words are a set of sources: enabling adds one source,
    disabling removes it, and neither changes what [elua_int_is_enabled] says
    of any other; disabling all leaves none. *)
Theorem flags_as_set s i : flags_wf s -> source i ->
  (exists s', elua_int_enable i s = Some s' /\ flags_wf s' /\
     forall j, source j -> elua_int_is_enabled j s' = Some ((j =? i) || enabled s j)) /\
  (exists s', elua_int_disable i s = Some s' /\ flags_wf s' /\
     forall j, source j -> elua_int_is_enabled j s' = Some (negb (j =? i) && enabled s j)) /\
  (forall j, source j -> elua_int_is_enabled j (elua_int_disable_all s) = Some false).
Proof.
  intros Hf Hi. destruct (source_word s i Hf Hi) as [w Hw].
  pose proof (source_split i Hi) as (_ & Hb & _).
  assert (forall s' j b, flags_wf s' -> source j -> enabled s' j = b ->
    elua_int_is_enabled j s' = Some b) as Hen.
  { intros s' j b Hf' Hj <-. unfold enabled. destruct (source_word s' j Hf' Hj) as [w' Hw'].
    unfold elua_int_is_enabled. rewrite (proj2 (Z.ltb_lt j LUA_INT_MAX_SOURCES)) by apply Hj.
    by rewrite Hw'. }
  unfold elua_int_enable, elua_int_disable.
  rewrite !(proj2 (Z.ltb_lt i LUA_INT_MAX_SOURCES)) by apply Hi. rewrite Hw. simpl.
  split_and!; [eexists; split; [reflexivity|]..|].
  - destruct (flags_update s i (λ w, Z.lor w (Z.shiftl 1 (Z.land i 0x1F))) Hf Hi) with (w := w)
      as (H1 & H2 & H3); [|done|].
    { intros w' k Hk Hne. rewrite Z.lor_spec, Z.shiftl_1_l, Z.pow2_bits_false by lia.
      by rewrite orb_false_r. }
    split; [done|]. intros j Hj. apply Hen; [done|done|].
    destruct (Z.eqb_spec j i) as [->|]; [|by apply H3].
    by rewrite H2, Z.lor_spec, Z.shiftl_1_l, Z.pow2_bits_true, orb_true_r by lia.
  - destruct (flags_update s i (λ w, Z.land w (Z.lnot (Z.shiftl 1 (Z.land i 0x1F)))) Hf Hi)
      with (w := w) as (H1 & H2 & H3); [|done|].
    { intros w' k Hk Hne. rewrite Z.land_spec, Z.lnot_spec, Z.shiftl_1_l,
        Z.pow2_bits_false by lia. by rewrite andb_true_r. }
    split; [done|]. intros j Hj. apply Hen; [done|done|].
    destruct (Z.eqb_spec j i) as [->|]; [|by apply H3].
    by rewrite H2, Z.land_spec, Z.lnot_spec, Z.shiftl_1_l, Z.pow2_bits_true, andb_false_r by lia.
  - intros j Hj. destruct (source_word s j Hf Hj) as [w' Hw'].
    destruct (source_split j Hj) as [Hj4 _].
    unfold elua_int_is_enabled. rewrite (proj2 (Z.ltb_lt j LUA_INT_MAX_SOURCES)) by apply Hj.
    simpl. rewrite list_lookup_imap, Hw'. simpl. rewrite decide_True; [done|].
    change (Z.shiftr LUA_INT_MAX_SOURCES 5) with 4. lia.
Qed.

#[local] Arguments elua_int_add : simpl never.
#[local] Arguments elua_int_hook : simpl never.
#[local] Arguments elua_int_is_enabled : simpl never.

(** ** The queue as a ring *)

Section Ring.
Context (logsize : nat) (INT_ELUA_LAST : Z).
Definition qsize : nat := 2 ^ logsize.
Definition cell (s : int_state) (k : nat) : elua_int_element :=
default (0, 0) (elua_int_queue s !! k).

(** [n] interrupts are queued from slot [r] on; the other slots are marked
  empty, and the hook is installed if anything is queued. *)
Record q_wf (s : int_state) (r n : nat) : Prop := {
q_len : length (elua_int_queue s) = qsize;
q_log : (logsize <= 8)%nat;
q_read : elua_int_read_idx s = Z.of_nat r /\ (r < qsize)%nat;
q_write : elua_int_write_idx s = Z.of_nat ((r + n) mod qsize);
q_count : (n <= qsize)%nat;
q_full : forall k, (k < n)%nat -> (cell s ((r + k) mod qsize)).1 <> ELUA_INT_EMPTY_SLOT;
q_empty : forall k, (n <= k < qsize)%nat ->
  (cell s ((r + k) mod qsize)).1 = ELUA_INT_EMPTY_SLOT;
q_hook : (0 < n)%nat -> hook_set s = true
}.
Definition q_list (s : int_state) (r n : nat) : list elua_int_element :=
ring (cell s) qsize r n.

Lemma qsize_pos : (0 < qsize)%nat.
Proof. unfold qsize. pose proof (Nat.pow_nonzero 2 logsize). lia. Qed.

Lemma next_idx_mod k : (logsize <= 8)%nat -> (k < qsize)%nat ->
next_idx logsize (Z.of_nat k) = Z.of_nat (S k mod qsize).
Proof.
intros Hl Hk. unfold next_idx, INT_IDX_MASK. rewrite Z.shiftl_1_l, land_mask by lia.
assert (2 ^ Z.of_nat logsize = Z.of_nat qsize) as Hq by (unfold qsize; by rewrite Nat2Z.inj_pow).
assert (qsize <= 256)%nat as Hq8.
{ unfold qsize. change 256%nat with (2 ^ 8)%nat. apply Nat.pow_le_mono_r; lia. }
rewrite Hq, u8_small.
- rewrite Nat2Z.inj_mod. f_equal. lia.
- pose proof (Z.mod_pos_bound (Z.of_nat k + 1) (Z.of_nat qsize)). word_lia.
Qed.
Lemma cell_lookup s k : length (elua_int_queue s) = qsize -> (k < qsize)%nat ->
elua_int_queue s !! k = Some (cell s k).
Proof.
intros Hl Hk. unfold cell. destruct (elua_int_queue s !! k) eqn:E; [done|].
apply lookup_ge_None in E. lia.
Qed.
Lemma cell_insert q k e j : (k < length q)%nat ->
default (0, 0) (<[k := e]> q !! j) = if decide (j = k) then e else default (0, 0) (q !! j : option elua_int_element).
Proof.
intros Hk. case_decide as Hj; [subst; by rewrite list_lookup_insert_eq|].
by rewrite list_lookup_insert_ne.
Qed.
Lemma mod_bound r k : ((r + k) mod qsize < qsize)%nat.
Proof. apply Nat.mod_upper_bound. pose proof qsize_pos. lia. Qed.
(** Slots at different distances are different. *)
Lemma slots_differ r i j : (i < qsize)%nat -> (j < qsize)%nat -> i <> j ->
((r + i) mod qsize <> (r + j) mod qsize)%nat.
Proof.
intros Hi Hj Hne. destruct (decide (i < j)%nat).
- apply ring_next_fresh. lia.
- intros H. symmetry in H. revert H. apply ring_next_fresh. lia.
Qed.

(** ** Adding *)

Lemma add_ok s r n id res : q_wf s r n -> (n < qsize)%nat ->
ELUA_INT_FIRST_ID <= id <= INT_ELUA_LAST -> elua_int_is_enabled id s = Some true ->
exists s', elua_int_add logsize INT_ELUA_LAST true id res s = Some (PLATFORM_OK, s') /\
  q_wf s' r (S n) /\ q_list s' r (S n) = q_list s r n ++ [(id, res)] /\
  elua_int_flags s' = elua_int_flags s /\ hook_set s' = true.
Proof.
intros [Hlen Hlog [Hr Hrn] Hw Hc Hfull Hempty Hhook] Hn Hid He.
set (w := ((r + n) mod qsize)%nat) in *. assert (w < qsize)%nat as Hwn by apply mod_bound.
unfold elua_int_add. rewrite (proj2 (Z.ltb_ge id _)), (proj2 (Z.ltb_ge INT_ELUA_LAST id)) by lia.
rewrite He. cbn [orb negb mbind option_bind]. rewrite Hw, Nat2Z.id, (cell_lookup s w) by done.
cbn [mbind option_bind]. unfold w at 1. rewrite Hempty, Z.eqb_refl by lia. cbn [negb].
eexists. split; [reflexivity|]. rewrite next_idx_mod by done.
assert (forall k, cell (IntState (elua_int_read_idx s) (Z.of_nat (S w mod qsize))
    (<[w := (id, res)]> (elua_int_queue s)) (elua_int_flags s) true) k
  = if decide (k = w) then (id, res) else cell s k) as Hcell.
{ intros k. unfold cell. simpl. apply cell_insert. lia. }
split_and!; [split| |done|done]; simpl; try done.
- by rewrite length_insert.
- f_equal. unfold w. rewrite <- (Nat.add_1_r (_ mod _)), Nat.Div0.add_mod_idemp_l. f_equal. lia.
- intros k Hk. rewrite Hcell. case_decide as Hkw; [unfold ELUA_INT_FIRST_ID, ELUA_INT_EMPTY_SLOT in *; simpl; lia|]. apply Hfull.
  destruct (decide (k = n)) as [->|]; [done|lia].
- intros k Hk. rewrite Hcell, decide_False; [by apply Hempty; lia|].
  apply slots_differ; lia.
- unfold q_list. apply ring_put; [done|]. intros k _. apply Hcell.
Qed.

(** ** Taking *)

Lemma take_ok s r n : q_wf s r (S n) ->
exists s', hook_take logsize s = Some (cell s r, s') /\ q_wf s' (S r mod qsize) n /\
  q_list s r (S n) = cell s r :: q_list s' (S r mod qsize) n /\
  elua_int_flags s' = elua_int_flags s.
Proof.
intros [Hlen Hlog [Hr Hrn] Hw Hc Hfull Hempty Hhook].
pose proof qsize_pos as Hq. unfold hook_take.
rewrite Hr, Nat2Z.id, (cell_lookup s r) by done. cbn [mbind option_bind].
eexists. split; [reflexivity|]. rewrite next_idx_mod by done.
assert (forall k, cell (IntState (Z.of_nat (S r mod qsize)) (elua_int_write_idx s)
    (<[r := (ELUA_INT_EMPTY_SLOT, (cell s r).2)]> (elua_int_queue s))
    (elua_int_flags s) (hook_set s)) k
  = if decide (k = r) then (ELUA_INT_EMPTY_SLOT, (cell s r).2) else cell s k) as Hcell.
{ intros k. unfold cell at 1. simpl. apply cell_insert. lia. }
assert (forall k, ((S r mod qsize + k) mod qsize = (r + S k) mod qsize)%nat) as Hshift.
{ intros k. rewrite Nat.Div0.add_mod_idemp_l. f_equal. lia. }
assert (forall k, (S k < qsize)%nat -> ((r + S k) mod qsize <> r)%nat) as Hne.
{ intros k Hk Heq. pose proof (slots_differ r (S k) 0 Hk Hq ltac:(lia)) as Hd.
  rewrite Nat.add_0_r, (Nat.mod_small r) in Hd by done. done. }
split_and!; [split| |done]; simpl; try done.
- by rewrite length_insert.
- split; [done|]. apply Nat.mod_upper_bound. lia.
- rewrite Hw. by rewrite Hshift.
- lia.
- intros k Hk. rewrite Hshift, Hcell, decide_False by (apply Hne; lia). apply Hfull. lia.
- intros k Hk. rewrite Hshift, Hcell. case_decide; [done|]. apply Hempty.
  destruct (decide (S k = qsize)) as [Heq|]; [|lia].
  exfalso. assert ((r + S k) mod qsize = r)%nat; [|done].
  rewrite Heq, mod_add_self. by apply Nat.mod_small.
- intros. apply Hhook. lia.
- unfold q_list. rewrite ring_cons, Nat.mod_small by done. f_equal.
  rewrite ring_mod by done. unfold ring. apply list_fmap_ext.
  intros i x [-> Hi]%lookup_seq. simpl. rewrite Hcell, decide_False; [done|].
  replace (S (r + i))%nat with (r + S i)%nat by lia. apply Hne. lia.
Qed.

Lemma end_ok s r n : q_wf s r n ->
exists s', hook_end s = Some s' /\ q_wf s' r n /\ q_list s' r n = q_list s r n /\
  elua_int_flags s' = elua_int_flags s /\ ((0 < n)%nat -> hook_set s' = true) /\
  (n = 0%nat -> hook_set s' = false).
Proof.
intros Hwf. pose proof Hwf as [Hlen Hlog [Hr Hrn] Hw Hc Hfull Hempty Hhook].
pose proof qsize_pos. unfold hook_end. rewrite Hr, Nat2Z.id, (cell_lookup s r) by done.
cbn [mbind option_bind]. eexists. split; [reflexivity|].
assert ((r + 0) mod qsize = r)%nat as Hr0 by (rewrite Nat.add_0_r; by apply Nat.mod_small).
destruct (decide (n = 0%nat)) as [->|Hn].
- pose proof (Hempty 0%nat ltac:(lia)) as H0. rewrite Hr0 in H0. rewrite H0. simpl.
  split_and!; try done; [|lia]. split; simpl; done || lia.
- pose proof (Hfull 0%nat ltac:(lia)) as H0. rewrite Hr0 in H0.
  rewrite (proj2 (Z.eqb_neq _ _)) by done. split_and!; try done.
Qed.
(** ** The queue interface *)

(** How many slots from [r] on are taken. *)
Fixpoint run_len (l : list elua_int_element) : nat :=
match l with
| [] => 0
| e :: l => if e.1 =? ELUA_INT_EMPTY_SLOT then 0 else S (run_len l)
end.
Definition q_head (s : int_state) : nat := Z.to_nat (elua_int_read_idx s).
Definition q_n (s : int_state) : nat := run_len (q_list s (q_head s) qsize).

Lemma run_len_app l e : Forall (λ x, x.1 <> ELUA_INT_EMPTY_SLOT) l ->
Forall (λ x, x.1 = ELUA_INT_EMPTY_SLOT) e -> run_len (l ++ e) = length l.
Proof.
intros Hl He. induction Hl as [|x l Hx _ IH]; simpl.
- destruct He as [|x e Hx]; [done|]. simpl. by rewrite Hx.
- rewrite (proj2 (Z.eqb_neq _ _)) by done. by rewrite IH.
Qed.
Lemma wf_q_n s r n : q_wf s r n -> q_head s = r /\ q_n s = n.
Proof.
intros [Hlen Hlog [Hr Hrn] Hw Hc Hfull Hempty Hhook].
assert (q_head s = r) as Hh by (unfold q_head; by rewrite Hr, Nat2Z.id).
split; [done|]. unfold q_n. rewrite Hh. unfold q_list, ring.
assert (seq 0 qsize = seq 0 n ++ seq n (qsize - n)) as ->
  by (etransitivity; [|exact (seq_app n (qsize - n) 0)]; f_equal; lia).
rewrite fmap_app.
rewrite run_len_app; [by rewrite length_fmap, length_seq|..]; apply Forall_fmap, Forall_forall;
  intros i [? Hi]%elem_of_seq; [apply Hfull|apply Hempty]; lia.
Qed.

(** The producer is [elua_int_add] with Lua running; the consumer the hook,
  when it is installed, for interrupts that are enabled and have a handler. *)
#[export] Instance int_fifo : Fifo int_state elua_int_element := {
fifo_ok s := q_wf s (q_head s) (q_n s) /\
  Forall (λ e, elua_int_is_enabled e.1 s = Some true) (q_list s (q_head s) (q_n s));
fifo_elem s e := ELUA_INT_FIRST_ID <= e.1 <= INT_ELUA_LAST /\
  elua_int_is_enabled e.1 s = Some true;
fifo_cap _ := qsize;
fifo_list s := q_list s (q_head s) (q_n s);
fifo_put e s :=
  match elua_int_add logsize INT_ELUA_LAST true e.1 e.2 s with
  | Some (r, s) => if r =? PLATFORM_OK then Some s else None
  | None => None
  end;
fifo_get s :=
  if (0 <? q_n s)%nat then
    match elua_int_hook logsize (λ _, true) (λ _, Some) s with
    | Some (Some e, s) => Some (e, s)
    | _ => None
    end
  else None
}.

Lemma is_enabled_flags s s' i : elua_int_flags s' = elua_int_flags s ->
elua_int_is_enabled i s' = elua_int_is_enabled i s.
Proof. unfold elua_int_is_enabled. by intros ->. Qed.

#[export] Instance int_fifo_laws : FifoLaws int_state elua_int_element.
Proof.
split; simpl.
- intros s [id res] [Hok Hen] [Hid He]. unfold q_list at 1. rewrite length_ring. intros Hn.
  destruct (add_ok s _ _ id res Hok Hn Hid He) as (s' & Ha & Hwf & Hl & Hf & _).
  exists s'. cbn [fst snd]. rewrite Ha. destruct (wf_q_n s' _ _ Hwf) as [-> ->]. unfold fifo_same. simpl.
  split_and!; try done.
  + rewrite Hl. apply Forall_app. split; [|by apply Forall_singleton; rewrite (is_enabled_flags s)].
    eapply Forall_impl; [exact Hen|]. intros x. by rewrite (is_enabled_flags s).
  + intros x. by rewrite (is_enabled_flags s).
- intros s e l [Hok Hen] Hl. destruct (q_n s) as [|n] eqn:Hn; [done|].
  destruct (take_ok s _ n Hok) as (s1 & Ht & Hwf1 & Hq & Hf1).
  destruct (end_ok s1 _ n Hwf1) as (s2 & He & Hwf2 & Hq2 & Hf2 & _).
  rewrite Hq in Hl. injection Hl as <- <-. rewrite Hq in Hen.
  apply Forall_cons in Hen as [Hen0 Hen]. exists s2. unfold elua_int_hook.
  rewrite Ht. cbn [mbind option_bind]. rewrite (is_enabled_flags s), Hen0 by done.
  cbn [mbind option_bind andb]. rewrite He. destruct (wf_q_n s2 _ _ Hwf2) as [-> ->].
  unfold fifo_same. simpl. split_and!; try done.
  + rewrite Hq2. eapply Forall_impl; [exact Hen|]. intros x.
    by rewrite (is_enabled_flags s) by congruence.
  + intros x. by rewrite (is_enabled_flags s) by congruence.
- intros s [Hok _] Hl. apply (f_equal length) in Hl. unfold q_list in Hl.
  rewrite length_ring in Hl. simpl in Hl. by rewrite Hl.
Qed.
End Ring.

(** [elua_int_add] on every branch: an interrupt number out of range, no
    running Lua state, a disabled interrupt or a full queue is refused and
    changes nothing (in particular nothing that is queued is lost); otherwise
    the interrupt goes to the end of the queue and the hook is installed. *)
Theorem elua_int_add_branches logsize last running id res s r n en :
  q_wf logsize s r n -> elua_int_is_enabled id s = Some en ->
  let valid := bool_decide (ELUA_INT_FIRST_ID <= id <= last) && running && en in
  if valid && bool_decide (n < qsize logsize)%nat then
    exists s', elua_int_add logsize last running id res s = Some (PLATFORM_OK, s') /\
      q_wf logsize s' r (S n) /\
      q_list logsize s' r (S n) = q_list logsize s r n ++ [(id, res)] /\ hook_set s' = true
  else elua_int_add logsize last running id res s = Some (PLATFORM_ERR, s).
Proof.
  intros Hwf He valid.
  destruct (valid && _) eqn:Hv.
  - subst valid. apply andb_true_iff in Hv as [[[Hid Hrun]%andb_true_iff Hen]%andb_true_iff Hn].
    apply bool_decide_eq_true in Hid, Hn. subst running en.
    destruct (add_ok logsize last s r n id res Hwf Hn Hid He) as (s' & H1 & H2 & H3 & _ & H4).
    by exists s'.
  - unfold elua_int_add. destruct (Z.ltb_spec id ELUA_INT_FIRST_ID); [done|].
    destruct (Z.ltb_spec last id); [done|]. cbn [orb]. rewrite He. cbn [mbind option_bind].
    subst valid. rewrite (bool_decide_eq_true_2 (ELUA_INT_FIRST_ID <= id <= last)) in Hv by lia.
    destruct running, en; try done. cbn [negb orb andb] in *.
    apply bool_decide_eq_false in Hv.
    pose proof Hwf as [Hlen Hlog [Hr Hrn] Hw Hc Hfull Hempty Hhook].
    assert (n = qsize logsize) as -> by lia.
    rewrite Hw, Nat2Z.id, (cell_lookup logsize) by (done || apply mod_bound).
    cbn [mbind option_bind].
    pose proof (Hfull 0%nat ltac:(lia)) as Hf0.
    replace ((r + qsize logsize) mod qsize logsize)%nat with ((r + 0) mod qsize logsize)%nat.
    + by rewrite (proj2 (Z.eqb_neq _ _)).
    + by rewrite mod_add_self, Nat.add_0_r.
Qed.

(** What arrives while a handler runs. *)
Fixpoint int_adds (logsize : nat) (last : Z) (es : list elua_int_element) (s : int_state)
  : option int_state :=
  match es with
  | [] => Some s
  | e :: es => '(_, s) ← elua_int_add logsize last true e.1 e.2 s; int_adds logsize last es s
  end.
Lemma int_adds_ok logsize last es : forall s r n, q_wf logsize s r n ->
  (n + length es <= qsize logsize)%nat ->
  Forall (λ e, ELUA_INT_FIRST_ID <= e.1 <= last /\ elua_int_is_enabled e.1 s = Some true) es ->
  exists s', int_adds logsize last es s = Some s' /\ q_wf logsize s' r (n + length es) /\
    q_list logsize s' r (n + length es) = q_list logsize s r n ++ es /\
    elua_int_flags s' = elua_int_flags s.
Proof.
  induction es as [|[id res] es IH]; intros s r n Hwf Hn Hes; simpl in *.
  - exists s. by rewrite Nat.add_0_r, app_nil_r.
  - apply Forall_cons in Hes as [[Hid He] Hes].
    destruct (add_ok logsize last s r n id res Hwf) as (s1 & H1 & Hwf1 & Hl1 & Hf1 & _);
      [lia|done|done|].
    rewrite H1. cbn [mbind option_bind].
    destruct (IH s1 r (S n) Hwf1) as (s2 & H2 & Hwf2 & Hl2 & Hf2); [lia| |].
    { eapply Forall_impl; [exact Hes|]. intros x [? ?]. split; [done|].
      by rewrite (is_enabled_flags s). }
    exists s2. rewrite H2. replace (n + S (length es))%nat with (S n + length es)%nat by lia.
    split_and!; try done; [by rewrite Hl2, Hl1, <- app_assoc|congruence].
Qed.

(** One run of the hook takes the oldest interrupt, calls its handler
    exactly if the interrupt is still enabled and has one, and leaves the rest
    followed by what arrived meanwhile; afterwards the hook is installed if and
    only if something is queued, so no interrupt is ever stuck in the queue. *)
Theorem elua_int_hook_delivers logsize last handlers es s r n en :
  q_wf logsize s r (S n) -> elua_int_is_enabled (cell s r).1 s = Some en ->
  (n + length es <= qsize logsize)%nat ->
  Forall (λ e, ELUA_INT_FIRST_ID <= e.1 <= last /\ elua_int_is_enabled e.1 s = Some true) es ->
  let called := en && handlers (cell s r).1 in
  exists e q s', q_list logsize s r (S n) = e :: q /\
    elua_int_hook logsize handlers (λ _, int_adds logsize last es) s
      = Some (if called then Some e else None, s') /\
    let r' := (S r mod qsize logsize)%nat in
    let new := if called then es else [] in
    q_wf logsize s' r' (n + length new) /\
    q_list logsize s' r' (n + length new) = q ++ new /\
    hook_set s' = bool_decide (0 < n + length new)%nat.
Proof.
  intros Hwf Hen Hn Hes called.
  destruct (take_ok logsize s r n Hwf) as (s1 & Ht & Hwf1 & Hq & Hf1).
  set (r' := (S r mod qsize logsize)%nat) in *.
  assert (forall s2 m, q_wf logsize s2 r' m -> exists s', hook_end s2 = Some s' /\
    q_wf logsize s' r' m /\ q_list logsize s' r' m = q_list logsize s2 r' m /\
    hook_set s' = bool_decide (0 < m)%nat) as Hend.
  { intros s2 m Hwf2. destruct (end_ok logsize s2 r' m Hwf2) as (s' & H1 & H2 & H3 & _ & H4 & H5).
    exists s'. split_and!; try done. destruct m as [|m]; [by apply H5|].
    rewrite bool_decide_eq_true_2 by lia. apply H4. lia. }
  exists (cell s r), (q_list logsize s1 r' n). unfold elua_int_hook. rewrite Ht.
  cbn [mbind option_bind]. rewrite (is_enabled_flags s), Hen by done. cbn [mbind option_bind].
  fold called. destruct called.
  - destruct (int_adds_ok logsize last es s1 r' n Hwf1 Hn) as (s2 & Ha & Hwf2 & Hl2 & _).
    { eapply Forall_impl; [exact Hes|]. intros x [? ?]. split; [done|].
      by rewrite (is_enabled_flags s). }
    rewrite Ha. cbn [mbind option_bind].
    destruct (Hend s2 _ Hwf2) as (s' & He & Hwf' & Hl' & Hk'). rewrite He.
    exists s'. split_and!; try done. by rewrite Hl', Hl2.
  - destruct (Hend s1 _ Hwf1) as (s' & He & Hwf' & Hl' & Hk'). rewrite He.
    exists s'. simpl. rewrite Nat.add_0_r, app_nil_r. done.
Qed.

(** C24: interrupts reach Lua in the order in which they were queued, however
    the additions and the runs of the hook interleave, as long as the queue is
    not overfilled. *)
Theorem interrupts_in_order logsize last ops s :
  q_wf logsize s (q_head s) (q_n logsize s) ->
  Forall (λ e, elua_int_is_enabled e.1 s = Some true) (q_list logsize s (q_head s) (q_n logsize s)) ->
  Forall (λ e, ELUA_INT_FIRST_ID <= e.1 <= last /\ elua_int_is_enabled e.1 s = Some true)
    (puts ops) ->
  room (qsize logsize) (q_n logsize s) ops ->
  exists out s', fifo_run (H := int_fifo logsize last) ops s = Some (out, s') /\
    q_wf logsize s' (q_head s') (q_n logsize s') /\
    q_list logsize s (q_head s) (q_n logsize s) ++ puts ops
    = out ++ q_list logsize s' (q_head s') (q_n logsize s').
Proof.
  intros Hok Hen He Hr.
  destruct (fifo_run_order (H := int_fifo logsize last) (H0 := int_fifo_laws logsize last) ops s)
    as (out & s' & H1 & [H2 _] & _ & H3).
  - by split.
  - done.
  - simpl. unfold q_list. by rewrite length_ring.
  - by exists out, s'.
Qed.

(** The table of C handlers: a handler that was set is the one found and
    the one the next call to set it returns; other interrupts keep theirs. *)
Theorem c_handlers_set_get {handler} last (l : list (option handler)) id id' h :
  Z.of_nat (length l) = last -> ELUA_INT_FIRST_ID <= id <= last ->
  exists old l', elua_int_set_c_handler last id h l = Some (old, l') /\
    elua_int_get_c_handler last id l = Some old /\
    elua_int_get_c_handler last id l' = Some h /\ length l' = length l /\
    (id' <> id -> elua_int_get_c_handler last id' l' = elua_int_get_c_handler last id' l).
Proof.
  intros Hl Hid. unfold elua_int_set_c_handler, elua_int_get_c_handler.
  unfold ELUA_INT_FIRST_ID in *.
  rewrite (proj2 (Z.ltb_ge id 1)), (proj2 (Z.ltb_ge last id)) by lia. cbn [orb].
  destruct (l !! Z.to_nat (id - 1)) as [old|] eqn:E; [|apply lookup_ge_None in E; lia].
  exists old, (<[Z.to_nat (id - 1) := h]> l). simpl. split_and!; try done.
  - apply list_lookup_insert_eq. by apply lookup_lt_Some in E.
  - apply length_insert.
  - intros Hne. destruct (Z.ltb_spec id' 1), (Z.ltb_spec last id'); try done. simpl.
    apply list_lookup_insert_ne. lia.
Qed.

(** ** Witnesses *)

(** Four slots, two interrupts queued from slot 3 on; sources 3, 5 and 40 are
    enabled. *)
Definition two_ints : int_state :=
  IntState 3 1 [(5, 7); (0, 0); (0, 9); (3, 1)] [0x28; 0x100; 0; 0] true.
Lemma two_ints_wf : q_wf 2 two_ints 3 2.
Proof.
  split; [done|lia|split; [done|unfold qsize; simpl; lia]|done|unfold qsize; simpl; lia|..|done].
  - intros k Hk. destruct k as [|[|k]]; [done|done|lia].
  - intros k Hk. unfold qsize in Hk. simpl in Hk.
    destruct k as [|[|[|[|k]]]]; [lia|lia|done|done|lia].
Qed.

Lemma flags_as_set_witness :
  exists s', elua_int_enable 70 two_ints = Some s' /\
    forall j, source j -> elua_int_is_enabled j s' = Some ((j =? 70) || enabled two_ints j).
Proof.
  destruct (flags_as_set two_ints 70) as [(s' & H1 & _ & H2) _].
  - done.
  - unfold source, LUA_INT_MAX_SOURCES. lia.
  - exists s'. split; [exact H1|exact H2].
Defined.
Lemma elua_int_add_branches_witness :
  exists s', elua_int_add 2 50 true 40 6 two_ints = Some (PLATFORM_OK, s') /\
    q_list 2 s' 3 3 = [(3, 1); (5, 7); (40, 6)] /\ hook_set s' = true.
Proof.
  destruct (elua_int_add_branches 2 50 true 40 6 two_ints 3 2 true two_ints_wf eq_refl)
    as (s' & H1 & _ & H2 & H3).
  exists s'. split_and!; [exact H1|exact H2|exact H3].
Defined.
Lemma elua_int_hook_delivers_witness : exists e q s',
  [(3, 1); (5, 7)] = e :: q /\
  elua_int_hook 2 (λ _, true) (λ _, int_adds 2 50 [(40, 1)]) two_ints = Some (Some e, s') /\
  q_list 2 s' 0 2 = q ++ [(40, 1)] /\ hook_set s' = true.
Proof.
  destruct (elua_int_hook_delivers 2 50 (λ _, true) [(40, 1)] two_ints 3 1 true two_ints_wf)
    as (e & q & s' & H1 & H2 & _ & H3 & H4).
  - done.
  - vm_compute. lia.
  - by_decide.
  - exists e, q, s'. split_and!; [exact H1|exact H2|exact H3|exact H4].
Defined.
Lemma interrupts_in_order_witness : exists out s',
  fifo_run (H := int_fifo 2 50) [Put (40, 1); Get; Get; Put (3, 8); Get] two_ints = Some (out, s') /\
  [(3, 1); (5, 7); (40, 1); (3, 8)] = out ++ q_list 2 s' (q_head s') (q_n 2 s').
Proof.
  destruct (interrupts_in_order 2 50 [Put (40, 1); Get; Get; Put (3, 8); Get] two_ints)
    as (out & s' & H1 & _ & H2).
  - exact two_ints_wf.
  - by_decide.
  - by_decide.
  - vm_compute. lia.
  - exists out, s'. split; [exact H1|exact H2].
Defined.
Lemma c_handlers_set_get_witness : exists old l',
  elua_int_set_c_handler 3 2 (Some 7%nat) [None; Some 1%nat; Some 2%nat] = Some (old, l') /\
  elua_int_get_c_handler 3 2 l' = Some (Some 7%nat).
Proof.
  destruct (c_handlers_set_get 3 [None; Some 1%nat; Some 2%nat] 2 1 (Some 7%nat))
    as (old & l' & H1 & _ & H2 & _).
  - done.
  - unfold ELUA_INT_FIRST_ID. lia.
  - exists old, l'. split; [exact H1|exact H2].
Defined.
