(* ===== verification/Romfs.v ===== *)
(** * Romfs: the read-only and the write-once file system

    Models src/romfs.c and inc/romfs.h.  Both file systems keep their files one
    after the other in a contiguous image: name, size and contents; a write-once
    file system (WOFS) also has a field that marks a file as deleted, and only
    ever writes to erased (0xFF) bytes, so that it can live in flash memory.

    How the image is read and written is not part of this file: the functions
    [readf] and [writef] of [FSDATA] are parameters, with the laws of
    [Device]. *)

From S2P Require Import Prelude.

Definition TOTAL_MAX_FDS : nat := 8.
Definition ROMFS_ALIGN : Z := 4.
Definition WOFS_END_MARKER_CHAR : Z := 0xFF.
Definition WOFS_DEL_FIELD_SIZE : Z := ROMFS_ALIGN.
Definition WOFS_FILE_DELETED : Z := 0xAA.
Definition ROMFS_SIZE_LEN : Z := 4.
Definition WOFS_MIN_NEEDED_SIZE : Z := 11.

Definition ROMFS_FILE_FLAG_READ : Z := 0x01.
Definition ROMFS_FILE_FLAG_WRITE : Z := 0x02.
Definition ROMFS_FILE_FLAG_APPEND : Z := 0x04.
Definition ROMFS_FS_FLAG_DIRECT : Z := 0x01.
Definition ROMFS_FS_FLAG_WO : Z := 0x02.
Definition ROMFS_FS_FLAG_WRITING : Z := 0x04.

(** A file descriptor; an unused one has all ones in its words. *)
Record FD := mkFD { baseaddr : Z; offset : Z; size : Z; fd_flags : Z }.
Definition empty_fd : FD := mkFD 0xFFFFFFFF 0xFFFFFFFF 0xFFFFFFFF 0.

(** A file system instance, with the memory its [pbase] or its device holds. *)
Record FSDATA := mkFS { image : list Z; fs_flags : Z; max_size : Z }.

(** The static variables of romfs.c together with one instance. *)
Record romfs := mkRomfs {
  fd_table : list FD; romfs_num_fd : Z; romfs_dir_data : Z; pfs : FSDATA
}.

Definition align (x : Z) : Z := Z.land (u32 (x + ROMFS_ALIGN - 1)) (u32 (Z.lnot (ROMFS_ALIGN - 1))).

Section Romfs.
(** [readf( to, fromaddr, size )] on an image returns the bytes it reads,
    [writef( from, toaddr, size )] the image after the write. *)
Variable readf : list Z -> Z -> Z -> option (list Z).
Variable writef : list Z -> list Z -> Z -> option (list Z).
(** The platform's <fcntl.h>. *)
Variable c : fcntl.

Definition is_set (flags f : Z) : bool := negb (Z.land flags f =? 0).

Definition romfs_find_empty_fd (t : list FD) : Z :=
  match list_find (λ f, baseaddr f = 0xFFFFFFFF /\ offset f = 0xFFFFFFFF /\ size f = 0xFFFFFFFF)
          (take TOTAL_MAX_FDS t) with
  | Some (i, _) => Z.of_nat i
  | None => -1
  end.
Definition romfs_close_fd (fd : nat) (t : list FD) : list FD := <[fd := empty_fd]> t.

Definition romfsh_read8 (addr : Z) (fs : FSDATA) : option Z :=
  if is_set (fs_flags fs) ROMFS_FS_FLAG_DIRECT then image fs !! Z.to_nat addr
  else bs ← readf (image fs) addr 1; head bs.
Definition romfsh_is_wofs (fs : FSDATA) : bool := is_set (fs_flags fs) ROMFS_FS_FLAG_WO.

(** [writef] changes the image of the instance. *)
Definition fs_write (data : list Z) (addr : Z) (fs : FSDATA) : option FSDATA :=
  img ← writef (image fs) data addr; Some (mkFS img (fs_flags fs) (max_size fs)).

(** Read a file name of at most [n] characters: the characters before the
    zero byte that ends it. *)
Fixpoint read_name (n : nat) (a : Z) (fs : FSDATA) : option (list Z) :=
  match n with
  | O => Some []
  | S n =>
      b ← romfsh_read8 a fs;
      if b =? 0 then Some [] else l ← read_name n (u32 (a + 1)) fs; Some (b :: l)
  end.
Definition read_size (a : Z) (fs : FSDATA) : option Z :=
  b0 ← romfsh_read8 a fs; b1 ← romfsh_read8 (u32 (a + 1)) fs;
  b2 ← romfsh_read8 (u32 (a + 2)) fs; b3 ← romfsh_read8 (u32 (a + 3)) fs;
  Some (u32 (b0 + Z.shiftl b1 8 + Z.shiftl b2 16 + Z.shiftl b3 24)).

Inductive lookup :=
  | FS_FILE_NOT_FOUND (last : Z)
  | FS_FILE_OK (base fsize nameaddr : Z).

(** The search loop from the entry at [i] on. *)
Fixpoint romfs_open_file (fuel : nat) (fname : list Z) (fs : FSDATA) (i : Z) : option lookup :=
  match fuel with
  | O => None
  | S fuel =>
      b ← romfsh_read8 i fs;
      if b =? WOFS_END_MARKER_CHAR then Some (FS_FILE_NOT_FOUND i)
      else
        fsname ← read_name DM_MAX_FNAME_LENGTH i fs;
        let j := u32 (i + Z.of_nat (length fsname) + 1) in
        let j := align j in
        '(is_deleted, j) ← (if romfsh_is_wofs fs
          then d ← romfsh_read8 j fs; Some (d =? WOFS_FILE_DELETED, u32 (j + WOFS_DEL_FIELD_SIZE))
          else Some (false, j));
        fsize ← read_size j fs;
        let j := u32 (j + ROMFS_SIZE_LEN) in
        if strncaseeq DM_MAX_FNAME_LENGTH fname fsname && negb is_deleted
        then Some (FS_FILE_OK j fsize i)
        else
          let i := u32 (j + fsize) in
          romfs_open_file fuel fname fs (if romfsh_is_wofs fs then align i else i)
  end.

(** ** Operations

    Each returns its result, [errno] and the new state. *)

Definition err (e : errno) (s : romfs) : option (Z * errno * romfs) := Some (-1, e, s).
Definition with_fs (s : romfs) (fs : FSDATA) : romfs :=
  mkRomfs (fd_table s) (romfs_num_fd s) (romfs_dir_data s) fs.
Definition set_fd (s : romfs) (fd : nat) (f : FD) : romfs :=
  mkRomfs (<[fd := f]> (fd_table s)) (romfs_num_fd s) (romfs_dir_data s) (pfs s).

Definition fuel_of (fs : FSDATA) : nat := S (length (image fs)).

Definition new_fd (s : romfs) (f : FD) (i : Z) : option (Z * errno * romfs) :=
  Some (i, E_OK, mkRomfs (<[Z.to_nat i := f]> (fd_table s)) (romfs_num_fd s + 1)
                   (romfs_dir_data s) (pfs s)).

Definition romfs_open_r (path : list Z) (flags mode : Z) (s : romfs) : option (Z * errno * romfs) :=
  if romfs_num_fd s =? Z.of_nat TOTAL_MAX_FDS then err ENFILE s else
  found ← romfs_open_file (fuel_of (pfs s)) path (pfs s) 0;
  let exists_ := match found with FS_FILE_OK _ _ _ => true | _ => false end in
  if is_set flags (O_CREAT c) && is_set flags (O_EXCL c) && exists_ then err EEXIST s else
  let must_create := is_set flags (O_CREAT c) && negb exists_ in
  let must_create := must_create ||
    (is_set flags (O_TRUNC c) && is_set flags (Z.lor (O_WRONLY c) (O_RDWR c)) && exists_) in
  if must_create && negb (is_set (fs_flags (pfs s)) ROMFS_FS_FLAG_WO) then err EROFS s else
  let lflags :=
    if is_set flags (O_WRONLY c) then ROMFS_FILE_FLAG_WRITE
    else if is_set flags (O_RDWR c) then Z.lor ROMFS_FILE_FLAG_READ ROMFS_FILE_FLAG_WRITE
    else ROMFS_FILE_FLAG_READ in
  let lflags := if is_set flags (O_APPEND c) then Z.lor lflags ROMFS_FILE_FLAG_APPEND else lflags in
  let wants_write := is_set lflags (Z.lor ROMFS_FILE_FLAG_WRITE ROMFS_FILE_FLAG_APPEND) in
  if wants_write && negb must_create then err EACCES s else
  if wants_write && is_set (fs_flags (pfs s)) ROMFS_FS_FLAG_WRITING then err EROFS s else
  if must_create then
    fs ← match found with
         | FS_FILE_OK base _ _ =>
             fs_write [WOFS_FILE_DELETED; 0xFF; 0xFF; 0xFF]
               (u32 (base - ROMFS_SIZE_LEN - WOFS_DEL_FIELD_SIZE)) (pfs s)
         | FS_FILE_NOT_FOUND _ => Some (pfs s)
         end;
    let s := with_fs s fs in
    last ← romfs_open_file (fuel_of fs) [1] fs 0;
    (* a file of that name leaves [firstfree] as the first search set it *)
    firstfree ← match last, found with
                | FS_FILE_NOT_FOUND l, _ | _, FS_FILE_NOT_FOUND l => Some l
                | _, _ => None
                end;
    let len := Z.of_nat (length path) + 1 in
    if u32 (max_size fs - firstfree + 1) <? len + WOFS_MIN_NEEDED_SIZE + WOFS_DEL_FIELD_SIZE
    then err ENOSPC s else
    let i := romfs_find_empty_fd (fd_table s) in
    if i <? 0 then err ENFILE s else
    fs ← fs_write (cstr path) firstfree fs;
    let firstfree := align (u32 (firstfree + len)) in
    let firstfree := u32 (firstfree + ROMFS_SIZE_LEN + WOFS_DEL_FIELD_SIZE) in
    let fs := mkFS (image fs) (Z.lor (fs_flags fs) ROMFS_FS_FLAG_WRITING) (max_size fs) in
    new_fd (with_fs s fs) (mkFD firstfree 0 0 lflags) i
  else
    match found with
    | FS_FILE_NOT_FOUND _ => err ENOENT s
    | FS_FILE_OK base fsize _ =>
        let i := romfs_find_empty_fd (fd_table s) in
        if i <? 0 then err ENFILE s else new_fd s (mkFD base 0 fsize lflags) i
    end.

Definition can_write (f : FD) : bool :=
  is_set (fd_flags f) (Z.lor ROMFS_FILE_FLAG_WRITE ROMFS_FILE_FLAG_APPEND).

Definition romfs_close_r (fd : nat) (s : romfs) : option (Z * romfs) :=
  f ← fd_table s !! fd;
  fs ← (if can_write f
        then fs ← fs_write (le32 (size f)) (u32 (baseaddr f - ROMFS_SIZE_LEN)) (pfs s);
             Some (mkFS (image fs)
               (Z.land (fs_flags fs) (u8 (Z.lnot ROMFS_FS_FLAG_WRITING))) (max_size fs))
        else Some (pfs s));
  Some (0, mkRomfs (romfs_close_fd fd (fd_table s)) (romfs_num_fd s - 1) (romfs_dir_data s) fs).

(** [data] are the [len] bytes at [ptr]. *)
Definition romfs_write_r (fd : nat) (data : list Z) (s : romfs) : option (Z * errno * romfs) :=
  f ← fd_table s !! fd;
  if negb (can_write f) then err EINVAL s else
  let f := if is_set (fd_flags f) ROMFS_FILE_FLAG_APPEND
           then mkFD (baseaddr f) (size f) (size f) (fd_flags f) else f in
  let s := set_fd s fd f in
  if negb (offset f =? size f) then Some (0, E_OK, s) else
  let len := Z.of_nat (length data) in
  let limit := u32 (max_size (pfs s) - ROMFS_ALIGN) in
  let len := if u32 (baseaddr f + size f + len) >? limit
             then u32 (max_size (pfs s) - (baseaddr f + size f) - ROMFS_ALIGN) else len in
  src ← loads data 0 (Z.to_nat len);
  fs ← fs_write src (u32 (offset f + baseaddr f)) (pfs s);
  Some (len, E_OK,
    set_fd (with_fs s fs) fd
      (mkFD (baseaddr f) (u32 (offset f + len)) (u32 (size f + len)) (fd_flags f))).

(** Also returns the bytes stored at [ptr]. *)
Definition romfs_read_r (fd : nat) (len : Z) (s : romfs)
  : option (Z * errno * list Z * romfs) :=
  f ← fd_table s !! fd;
  let left := u32 (size f - offset f) in
  let actlen := if len <? left then len else left in
  if negb (is_set (fd_flags f) ROMFS_FILE_FLAG_READ) then Some (-1, EBADF, [], s) else
  let addr := u32 (offset f + baseaddr f) in
  bs ← (if is_set (fs_flags (pfs s)) ROMFS_FS_FLAG_DIRECT
        then loads (image (pfs s)) (Z.to_nat addr) (Z.to_nat actlen)
        else readf (image (pfs s)) addr actlen);
  let actlen := Z.of_nat (length bs) in
  Some (actlen, E_OK, bs,
    set_fd s fd (mkFD (baseaddr f) (u32 (offset f + actlen)) (size f) (fd_flags f))).

Definition romfs_lseek_r (fd : nat) (off whence : Z) (s : romfs) : option (Z * romfs) :=
  f ← fd_table s !! fd;
  let newpos :=
    if whence =? SEEK_SET c then Some (u32 off)
    else if whence =? SEEK_CUR c then Some (u32 (offset f + off))
    else if whence =? SEEK_END c then Some (u32 (size f + off))
    else None in
  match newpos with
  | None => Some (-1, s)
  | Some newpos =>
      if newpos >? size f then Some (-1, s)
      else Some (newpos, set_fd s fd (mkFD (baseaddr f) newpos (size f) (fd_flags f)))
  end.

(** *** Directories *)

(** [true]: the address of [romfs_dir_data] is returned; [false]: [NULL]. *)
Definition romfs_opendir_r (dname : option (list Z)) (s : romfs) : bool * romfs :=
  let ok := match dname with
            | None | Some [] => true
            | Some n => bool_decide (n = [47])
            end in
  if ok then (true, mkRomfs (fd_table s) (romfs_num_fd s) 0 (pfs s)) else (false, s).

(** The bytes up to and including the next zero byte; [fuel] bounds the length
    of a name, which the code does not. *)
Fixpoint read_dir_name (fuel : nat) (a : Z) (fs : FSDATA) : option (list Z) :=
  match fuel with
  | O => None
  | S fuel =>
      b ← romfsh_read8 a fs;
      if b =? 0 then Some [] else l ← read_dir_name fuel (u32 (a + 1)) fs; Some (b :: l)
  end.
(** The next entry from [off] on: name and size, and the new offset. A name
    that does not fit [dm_shared_fname] is an overflow. *)
Fixpoint romfs_readdir_loop (fuel : nat) (off : Z) (fs : FSDATA)
  : option (option (list Z * Z * Z)) :=
  match fuel with
  | O => None
  | S fuel =>
      b ← romfsh_read8 off fs;
      if b =? WOFS_END_MARKER_CHAR then Some None
      else
        name ← read_dir_name (S DM_MAX_FNAME_LENGTH) off fs;
        let off := align (u32 (off + Z.of_nat (length name) + 1)) in
        '(is_deleted, off) ← (if romfsh_is_wofs fs
          then d ← romfsh_read8 off fs;
               Some (d =? WOFS_FILE_DELETED, u32 (off + WOFS_DEL_FIELD_SIZE))
          else Some (false, off));
        fsize ← read_size off fs;
        let off := u32 (off + ROMFS_SIZE_LEN + fsize) in
        let off := if romfsh_is_wofs fs then align off else off in
        if is_deleted : bool then romfs_readdir_loop fuel off fs
        else Some (Some (name, fsize, off))
  end.
(** [None]: no more entries. *)
Definition romfs_readdir_r (s : romfs) : option (option (list Z * Z) * romfs) :=
  r ← romfs_readdir_loop (fuel_of (pfs s)) (romfs_dir_data s) (pfs s);
  match r with
  | None => Some (None, s)
  | Some (name, fsize, off) =>
      Some (Some (name, fsize), mkRomfs (fd_table s) (romfs_num_fd s) off (pfs s))
  end.
Definition romfs_closedir_r (s : romfs) : Z * romfs :=
  (0, mkRomfs (fd_table s) (romfs_num_fd s) 0 (pfs s)).

(** The address of a file's contents; [None]: [NULL]. *)
Definition romfs_getaddr_r (fd : nat) (s : romfs) : option (option Z) :=
  f ← fd_table s !! fd;
  Some (if is_set (fs_flags (pfs s)) ROMFS_FS_FLAG_DIRECT then Some (baseaddr f) else None).

(** [romfs_init]: no descriptor in use. *)
Definition romfs_init (fs : FSDATA) : romfs :=
  mkRomfs (replicate TOTAL_MAX_FDS empty_fd) 0 0 fs.
(** [wofs_format] of the simulator. *)
Definition wofs_format (fs : FSDATA) : FSDATA :=
  mkFS (replicate (Z.to_nat (max_size fs)) WOFS_END_MARKER_CHAR) (fs_flags fs) (max_size fs).
End Romfs.

(** ** The device below *)

Definition erased (img : list Z) (a n : nat) : Prop :=
  forall k, (a <= k < a + n)%nat -> img !! k = Some WOFS_END_MARKER_CHAR.

(** What a device promises: it reads what is there, and it can write to bytes
    that are erased.  Nothing is promised for other bytes, where flash memory
    would mix the old and the new value. *)
Class Device (readf : list Z -> Z -> Z -> option (list Z))
    (writef : list Z -> list Z -> Z -> option (list Z)) := {
  device_read img a n : 0 <= a -> 0 <= n -> a + n <= Z.of_nat (length img) ->
    readf img a n = loads img (Z.to_nat a) (Z.to_nat n);
  device_write img data a : 0 <= a -> Forall is_u8 data ->
    (length img mod 4 = 0)%nat -> Z.of_nat (length img) < 2 ^ 31 ->
    (Z.to_nat a + length data <= length img)%nat -> erased img (Z.to_nat a) (length data) ->
    writef img data a = Some (splice img (Z.to_nat a) data)
}.

(** A plain file, as in the simulator. *)
Definition file_read (img : list Z) (a n : Z) : option (list Z) :=
  loads img (Z.to_nat a) (Z.to_nat n).
Definition file_write (img data : list Z) (a : Z) : option (list Z) :=
  stores img (Z.to_nat a) data.
(** NOR flash: programming can only clear bits. *)
Fixpoint flash_program (img : list Z) (a : nat) (data : list Z) : option (list Z) :=
  match data with
  | [] => Some img
  | b :: data => o ← img !! a; flash_program (<[a := Z.land o b]> img) (S a) data
  end.
Definition flash_write (img data : list Z) (a : Z) : option (list Z) :=
  flash_program img (Z.to_nat a) data.

Lemma erased_bound img a n : (0 < n)%nat -> erased img a n -> (a + n <= length img)%nat.
Proof.
  intros Hn He. specialize (He (a + n - 1)%nat ltac:(lia)). apply lookup_lt_Some in He. lia.
Qed.
#[export] Instance file_device : Device file_read file_write.
Proof.
  split; [done|]. intros img data a Ha Hb _ _ Hl He. by apply stores_splice.
Qed.
Lemma flash_program_splice data : forall img a, Forall is_u8 data -> erased img a (length data) ->
  flash_program img a data = Some (splice img a data).
Proof.
  induction data as [|b data IH]; intros img a Hb He.
  - simpl. f_equal. unfold splice. simpl. by rewrite Nat.add_0_r, take_drop.
  - apply Forall_cons in Hb as [Hb0 Hb]. cbn [flash_program length] in *.
    pose proof (erased_bound img a (S (length data)) ltac:(lia) He) as Hl.
    rewrite (He a) by lia. cbn [mbind option_bind].
    assert (Z.land WOFS_END_MARKER_CHAR b = b) as ->.
    { unfold WOFS_END_MARKER_CHAR. rewrite Z.land_comm, land_255. apply Z.mod_small. word_lia. }
    rewrite IH; [by rewrite splice_insert by lia|done|].
    intros k Hk. rewrite list_lookup_insert_ne by lia. apply He. lia.
Qed.
#[export] Instance flash_device : Device file_read flash_write.
Proof.
  split; [done|]. intros img data a Ha Hb _ _ _ He. by apply flash_program_splice.
Qed.

(** ** Files in an image *)

Record rfile := RFile { f_name : list Z; f_deleted : bool; f_data : list Z }.

Definition align4 (x : nat) : nat := (4 * ((x + 3) / 4))%nat.

(** A name that can be stored. *)
Definition name_ok (nm : list Z) : Prop :=
  is_cstr nm /\ (length nm <= DM_MAX_FNAME_LENGTH)%nat /\ head nm <> Some WOFS_END_MARKER_CHAR.

Definition del_field (del : bool) : list Z := [if del then WOFS_FILE_DELETED else 0xFF; 0xFF; 0xFF; 0xFF].

Section Layout.
(** [wo]: a write-once file system. *)
Variable wo : bool.

(** Where the fields of the file at [off] with a name of [n] characters are. *)
Definition del_at (off n : nat) : nat := align4 (off + n + 1).
Definition size_at (off n : nat) : nat := (del_at off n + if wo then 4 else 0)%nat.
Definition base_at (off n : nat) : nat := (size_at off n + 4)%nat.
Definition next_at (off n len : nat) : nat :=
  let e := (base_at off n + len)%nat in if wo then align4 e else e.

(** The image holds [f] at [off]. *)
Record file_at (img : list Z) (off : nat) (f : rfile) : Prop := {
  fa_name : name_ok (f_name f);
  fa_holds : loads img off (S (length (f_name f))) = Some (cstr (f_name f));
  fa_del : if wo then loads img (del_at off (length (f_name f))) 4 = Some (del_field (f_deleted f))
           else f_deleted f = false;
  fa_size : loads img (size_at off (length (f_name f))) 4
            = Some (le32 (Z.of_nat (length (f_data f))));
  fa_data : loads img (base_at off (length (f_name f))) (length (f_data f)) = Some (f_data f)
}.
(** The files from [off] to [e]. *)
Inductive files_at (img : list Z) : nat -> list rfile -> nat -> Prop :=
  | files_nil off : files_at img off [] off
  | files_cons off f fs e :
      file_at img off f ->
      files_at img (next_at off (length (f_name f)) (length (f_data f))) fs e ->
      files_at img off (f :: fs) e.

(** The entry a search finds: the first that is not deleted and whose name
    agrees up to case; with its offset. *)
Definition matches (fname : list Z) (f : rfile) : bool :=
  strncaseeq DM_MAX_FNAME_LENGTH fname (f_name f) && negb (f_deleted f).
Fixpoint locate (off : nat) (fs : list rfile) (fname : list Z) : option (nat * rfile) :=
  match fs with
  | [] => None
  | f :: fs =>
      if matches fname f then Some (off, f)
      else locate (next_at off (length (f_name f)) (length (f_data f))) fs fname
  end.

Lemma align4_spec x : (x <= align4 x < x + 4)%nat /\ (align4 x mod 4 = 0)%nat.
Proof.
  unfold align4. pose proof (Nat.div_mod_eq (x + 3) 4). pose proof (Nat.mod_upper_bound (x + 3) 4).
  split; [lia|]. rewrite Nat.mul_comm. apply Nat.Div0.mod_mul.
Qed.
Lemma next_at_bounds off n len :
  (off + n + 1 + 4 + len <= next_at off n len <= off + n + len + 15)%nat.
Proof.
  unfold next_at, base_at, size_at, del_at. pose proof (align4_spec (off + n + 1)).
  destruct wo; pose proof (align4_spec (align4 (off + n + 1) + 4 + 4 + len)); lia.
Qed.
Lemma next_at_ge off n len : (base_at off n + len <= next_at off n len)%nat.
Proof.
  unfold next_at. pose proof (align4_spec (base_at off n + len)). destruct wo; lia.
Qed.
Lemma files_at_bounds img off fs e : files_at img off fs e -> (off + length fs <= e)%nat.
Proof.
  induction 1 as [|off f fs e Hf Hfs IH]; simpl; [lia|].
  pose proof (next_at_bounds off (length (f_name f)) (length (f_data f))). lia.
Qed.
Lemma files_at_app img off fs1 fs2 e : files_at img off (fs1 ++ fs2) e <->
  exists m, files_at img off fs1 m /\ files_at img m fs2 e.
Proof.
  revert off. induction fs1 as [|f fs1 IH]; intros off; simpl; split.
  - intros H. exists off. split; [constructor|done].
  - intros (m & H1 & H2). by inversion H1; subst.
  - inversion 1 as [|? ? ? ? Hf Hfs]; subst. apply IH in Hfs as (m & H1 & H2).
    exists m. split; [by constructor|done].
  - intros (m & H1 & H2). inversion H1 as [|? ? ? ? Hf Hfs]; subst. constructor; [done|].
    apply IH. by exists m.
Qed.
End Layout.

Lemma align_align4 x : Z.of_nat x + 3 < 2 ^ 32 -> align (Z.of_nat x) = Z.of_nat (align4 x).
Proof.
  intros Hx. unfold align, ROMFS_ALIGN, align4.
  rewrite u32_small by word_lia. change (u32 (Z.lnot (4 - 1))) with (Z.ldiff (2 ^ 32 - 1) 3).
  assert (Z.land (Z.of_nat x + 4 - 1) (Z.ldiff (2 ^ 32 - 1) 3)
    = Z.ldiff (Z.of_nat x + 3) (Z.ones 2)) as ->.
  { apply Z.bits_inj'. intros i Hi. replace (Z.of_nat x + 4 - 1) with (Z.of_nat x + 3) by lia.
    rewrite Z.land_spec, !Z.ldiff_spec. change (2 ^ 32 - 1) with (Z.ones 32). change (Z.ones 2) with 3.
    destruct (decide (i < 32)).
    - by rewrite (Z.ones_spec_low 32) by lia.
    - rewrite (Z.bits_above_log2 (Z.of_nat x + 3) i); [done|lia|].
      destruct (decide (Z.of_nat x + 3 = 0)); [lia|].
      apply Z.log2_lt_pow2; [lia|]. eapply Z.lt_le_trans; [exact Hx|].
      apply Z.pow_le_mono_r; lia. }
  rewrite Z.ldiff_ones_r, Z.shiftr_div_pow2, Z.shiftl_mul_pow2 by lia.
  change (2 ^ 2) with 4. rewrite Nat2Z.inj_mul, Nat2Z.inj_div, Nat2Z.inj_add. lia.
Qed.

(** ** Reading the image *)

Lemma loads_lookup img a n bs i : loads img a n = Some bs -> (i < n)%nat ->
  img !! (a + i)%nat = bs !! i.
Proof.
  unfold loads. case_decide; [|done]. intros [= <-] Hi.
  by rewrite lookup_take_lt, lookup_drop by done.
Qed.
Lemma loads_bound img a n bs : loads img a n = Some bs -> (a + n <= length img)%nat.
Proof. unfold loads. by case_decide. Qed.
Lemma loads_ext img img' a n : (a + n <= length img')%nat ->
  (forall k, (a <= k < a + n)%nat -> img' !! k = img !! k) -> (a + n <= length img)%nat ->
  loads img' a n = loads img a n.
Proof.
  intros Hl Hk Hl'. unfold loads. rewrite !decide_True by done. f_equal. apply list_eq.
  intros i. destruct (decide (i < n)%nat).
  - rewrite !lookup_take_lt, !lookup_drop by done. apply Hk. lia.
  - by rewrite !lookup_take_ge by lia.
Qed.

Lemma loads_sub img a n bs i m : loads img a n = Some bs -> (i + m <= n)%nat ->
  loads img (a + i) m = Some (take m (drop i bs)).
Proof.
  intros H Hm. pose proof (loads_bound _ _ _ _ H). unfold loads in *.
  rewrite decide_True in H by done. injection H as <-. rewrite decide_True by lia. f_equal.
  by rewrite skipn_firstn_comm, take_take, Nat.min_l, drop_drop by lia.
Qed.
Section Reading.
Context (readf : list Z -> Z -> Z -> option (list Z))
  (writef : list Z -> list Z -> Z -> option (list Z)) `{!Device readf writef}.
Context (fs : FSDATA) (Hsmall : Z.of_nat (length (image fs)) < 2 ^ 31).
Abbreviation img := (image fs).
Abbreviation wo := (romfsh_is_wofs fs).

Lemma read8_ok k b : img !! k = Some b -> romfsh_read8 readf (Z.of_nat k) fs = Some b.
Proof.
  intros Hb. pose proof (lookup_lt_Some _ _ _ Hb). unfold romfsh_read8. rewrite Nat2Z.id.
  case_match; [done|]. rewrite device_read, Nat2Z.id by lia. change (Z.to_nat 1) with 1%nat.
  destruct (loads img k 1) as [bs|] eqn:E.
  - simpl. rewrite head_lookup, <- (loads_lookup img k 1 bs 0 E) by lia. by rewrite Nat.add_0_r.
  - unfold loads in E. rewrite decide_True in E by lia. done.
Qed.
Lemma u32_img k : (k <= length img + 64)%nat -> u32 (Z.of_nat k) = Z.of_nat k.
Proof. intros. apply u32_small. word_lia. Qed.

Lemma read_name_ok nm : forall n k, is_cstr nm -> (length nm <= n)%nat ->
  loads img k (S (length nm)) = Some (cstr nm) -> read_name readf n (Z.of_nat k) fs = Some nm.
Proof.
  induction nm as [|b nm IH]; intros [|n] k Hs Hn Hl; simpl in Hn; try lia; cbn [read_name]; try done.
  - pose proof (loads_lookup _ _ _ _ 0 Hl ltac:(lia)) as H0. rewrite Nat.add_0_r in H0.
    by rewrite (read8_ok k 0 H0).
  - apply Forall_cons in Hs as [[Hb Hb0] Hs].
    pose proof (loads_lookup _ _ _ _ 0 Hl ltac:(simpl; lia)) as H0. rewrite Nat.add_0_r in H0.
    rewrite (read8_ok k b H0). cbn [mbind option_bind].
    rewrite (proj2 (Z.eqb_neq b 0)) by done.
    pose proof (loads_bound _ _ _ _ Hl) as Hbd. simpl in Hbd.
    replace (Z.of_nat k + 1) with (Z.of_nat (S k)) by lia. rewrite u32_img by lia.
    rewrite (IH n (S k)); [done|done|lia|].
    revert Hl. unfold loads. simpl length. rewrite !decide_True by lia.
    intros [= Hl]. f_equal.
    destruct (drop k img) as [|x l] eqn:E; [done|]. simpl in Hl. injection Hl as _ Hl.
    assert (drop (S k) img = l) as -> by (rewrite <- Nat.add_1_r, <- drop_drop, E; reflexivity).
    exact Hl.
Qed.
Lemma read_size_ok k x : is_u32 x -> loads img k 4 = Some (le32 x) ->
  read_size readf (Z.of_nat k) fs = Some x.
Proof.
  intros Hx Hl. pose proof (loads_bound _ _ _ _ Hl) as Hbd.
  assert (forall i, (i < 4)%nat -> img !! (k + i)%nat = le32 x !! i) as Hi
    by (intros; by apply (loads_lookup _ _ 4)).
  pose proof (Hi 0%nat ltac:(lia)) as H0. pose proof (Hi 1%nat ltac:(lia)) as H1.
  pose proof (Hi 2%nat ltac:(lia)) as H2. pose proof (Hi 3%nat ltac:(lia)) as H3.
  rewrite le32_div in H0, H1, H2, H3. simpl in H0, H1, H2, H3. rewrite Nat.add_0_r in H0.
  unfold read_size.
  replace (Z.of_nat k + 1) with (Z.of_nat (k + 1)) by lia.
  replace (Z.of_nat k + 2) with (Z.of_nat (k + 2)) by lia.
  replace (Z.of_nat k + 3) with (Z.of_nat (k + 3)) by lia.
  rewrite !u32_img by lia.
  rewrite (read8_ok _ _ H0), (read8_ok _ _ H1), (read8_ok _ _ H2), (read8_ok _ _ H3).
  cbn [mbind option_bind]. f_equal. rewrite !Z.shiftl_mul_pow2 by lia.
  change (2 ^ 8) with 256. change (2 ^ 16) with 65536. change (2 ^ 24) with 16777216.
  rewrite u32_small by word_lia. word_lia.
Qed.

(** The fields of the entry at [k], as the two loops read them. *)
Lemma entry_fields k f : file_at wo img k f ->
  exists b, romfsh_read8 readf (Z.of_nat k) fs = Some b /\ b <> WOFS_END_MARKER_CHAR /\
    read_name readf DM_MAX_FNAME_LENGTH (Z.of_nat k) fs = Some (f_name f) /\
    align (u32 (Z.of_nat k + Z.of_nat (length (f_name f)) + 1))
      = Z.of_nat (del_at k (length (f_name f))) /\
    (if wo then romfsh_read8 readf (Z.of_nat (del_at k (length (f_name f)))) fs
                = Some (if f_deleted f then WOFS_FILE_DELETED else 0xFF)
     else f_deleted f = false) /\
    u32 (Z.of_nat (del_at k (length (f_name f))) + WOFS_DEL_FIELD_SIZE)
      = Z.of_nat (del_at k (length (f_name f)) + 4) /\
    read_size readf (Z.of_nat (size_at wo k (length (f_name f)))) fs
      = Some (Z.of_nat (length (f_data f))) /\
    u32 (Z.of_nat (size_at wo k (length (f_name f))) + ROMFS_SIZE_LEN)
      = Z.of_nat (base_at wo k (length (f_name f))) /\
    (base_at wo k (length (f_name f)) + length (f_data f) <= length img)%nat.
Proof.
  intros [(Hs & Hn & Hh) Hname Hdel Hsize Hdata].
  pose proof (loads_bound _ _ _ _ Hname). pose proof (loads_bound _ _ _ _ Hdata) as Hbd.
  pose proof (loads_bound _ _ _ _ Hsize) as Hbs.
  pose proof (align4_spec (k + length (f_name f) + 1)) as [Ha _].
  assert (del_at k (length (f_name f)) <= size_at wo k (length (f_name f)))%nat as Hds
    by (unfold size_at; lia).
  pose proof (loads_lookup _ _ _ _ 0 Hname ltac:(lia)) as H0. rewrite Nat.add_0_r in H0.
  assert (exists b, img !! k = Some b /\ b <> WOFS_END_MARKER_CHAR) as (b & Hb & Hb').
  { rewrite H0. unfold cstr. destruct (f_name f) as [|b nm]; [by exists 0|].
    exists b. split; [done|]. intros ->. by apply Hh. }
  exists b. split_and!; try done.
  - by apply read8_ok.
  - by apply read_name_ok.
  - replace (Z.of_nat k + Z.of_nat (length (f_name f)) + 1)
      with (Z.of_nat (k + length (f_name f) + 1)) by lia.
    rewrite u32_img by lia. apply align_align4. lia.
  - destruct wo; [|done]. apply read8_ok. rewrite <- (Nat.add_0_r (del_at _ _)).
    rewrite (loads_lookup _ _ _ _ 0 Hdel) by lia. done.
  - unfold WOFS_DEL_FIELD_SIZE, ROMFS_ALIGN.
    rewrite <- (Nat2Z.inj_add _ 4). apply u32_img. unfold base_at in *. lia.
  - apply read_size_ok; [|done]. word_lia.
  - unfold ROMFS_SIZE_LEN, base_at in *. rewrite <- (Nat2Z.inj_add _ 4). apply u32_img. lia.
Qed.
(** Where the next entry starts. *)
Lemma entry_next k f : file_at wo img k f ->
  let i := u32 (Z.of_nat (base_at wo k (length (f_name f))) + Z.of_nat (length (f_data f))) in
  (if wo then align i else i) = Z.of_nat (next_at wo k (length (f_name f)) (length (f_data f))).
Proof.
  intros Hf i. subst i. destruct (entry_fields k f Hf) as (_ & _ & _ & _ & _ & _ & _ & _ & _ & Hb).
  rewrite <- Nat2Z.inj_add, u32_img by lia. unfold next_at. destruct wo; [|done].
  apply align_align4. lia.
Qed.

(** One turn of the search loop. *)
Lemma open_file_step fname f k fuel : file_at wo img k f ->
  romfs_open_file readf (S fuel) fname fs (Z.of_nat k) =
  if matches fname f
  then Some (FS_FILE_OK (Z.of_nat (base_at wo k (length (f_name f))))
               (Z.of_nat (length (f_data f))) (Z.of_nat k))
  else romfs_open_file readf fuel fname fs
         (Z.of_nat (next_at wo k (length (f_name f)) (length (f_data f)))).
Proof.
  intros Hf. cbn [romfs_open_file].
  destruct (entry_fields k f Hf) as (b & -> & Hb & -> & Hdel & Hread & Hskip & Hsize & Hbase & _).
  pose proof (entry_next k f Hf) as Hnext. simpl in Hnext.
  cbn [mbind option_bind]. rewrite (proj2 (Z.eqb_neq _ _)) by done. rewrite Hdel.
  assert ((if wo then d ← romfsh_read8 readf (Z.of_nat (del_at k (length (f_name f)))) fs;
            Some (d =? WOFS_FILE_DELETED,
              u32 (Z.of_nat (del_at k (length (f_name f))) + WOFS_DEL_FIELD_SIZE))
           else Some (false, Z.of_nat (del_at k (length (f_name f)))))
    = Some (f_deleted f, Z.of_nat (size_at wo k (length (f_name f))))) as ->.
  { unfold size_at. destruct wo.
    - rewrite Hread. cbn [mbind option_bind]. rewrite Hskip. by destruct (f_deleted f).
    - by rewrite Hread, Nat.add_0_r. }
  cbn [mbind option_bind]. rewrite Hsize. cbn [mbind option_bind]. rewrite Hbase.
  unfold matches. destruct (_ && _); [done|]. by rewrite Hnext.
Qed.

Definition found_at (off : nat) (f : rfile) : lookup :=
  FS_FILE_OK (Z.of_nat (base_at wo off (length (f_name f)))) (Z.of_nat (length (f_data f)))
    (Z.of_nat off).
Lemma open_file_found fname files : forall k e fuel off f, files_at wo img k files e ->
  locate wo k files fname = Some (off, f) -> (length files <= fuel)%nat ->
  romfs_open_file readf fuel fname fs (Z.of_nat k) = Some (found_at off f).
Proof.
  induction files as [|g files IH]; intros k e fuel off f Hfs Hl Hfuel; [done|].
  destruct fuel as [|fuel]; simpl in Hfuel; [lia|].
  inversion Hfs as [|? ? ? ? Hf Hrest]; subst. rewrite (open_file_step fname g) by done.
  cbn [locate] in Hl. destruct (matches fname g); [by injection Hl as <- <-|].
  eapply IH; [exact Hrest|exact Hl|lia].
Qed.
Lemma open_file_none fname files : forall k e fuel, files_at wo img k files e ->
  img !! e = Some WOFS_END_MARKER_CHAR -> locate wo k files fname = None ->
  (length files < fuel)%nat ->
  romfs_open_file readf fuel fname fs (Z.of_nat k) = Some (FS_FILE_NOT_FOUND (Z.of_nat e)).
Proof.
  induction files as [|f files IH]; intros k e fuel Hfs He Hl Hfuel;
    (destruct fuel as [|fuel]; simpl in Hfuel; [lia|]).
  - inversion Hfs; subst. cbn [romfs_open_file]. by rewrite (read8_ok _ _ He).
  - inversion Hfs as [|? ? ? ? Hf Hrest]; subst. rewrite (open_file_step fname f) by done.
    cbn [locate] in Hl. destruct (matches fname f); [done|]. apply IH; [done|done|done|lia].
Qed.

(** *** Directory entries *)

Lemma read_dir_name_ok nm : forall n k, is_cstr nm -> (length nm < n)%nat ->
  loads img k (S (length nm)) = Some (cstr nm) ->
  read_dir_name readf n (Z.of_nat k) fs = Some nm.
Proof.
  induction nm as [|x nm IH]; intros [|n] k Hc Hl Hld; simpl in Hl; try lia;
    pose proof (loads_bound _ _ _ _ Hld);
    pose proof (loads_lookup _ _ _ _ 0 Hld ltac:(lia)) as H0; rewrite Nat.add_0_r in H0;
    cbn [read_dir_name].
  - by rewrite (read8_ok _ 0).
  - apply Forall_cons in Hc as [Hx Hc]. rewrite (read8_ok _ x) by done. cbn [mbind option_bind].
    rewrite (proj2 (Z.eqb_neq _ _)) by (destruct Hx; lia).
    replace (Z.of_nat k + 1) with (Z.of_nat (S k)) by lia. rewrite u32_img by (simpl in *; lia).
    rewrite IH; [done|done|lia|].
    change (cstr (x :: nm)) with (x :: cstr nm) in Hld.
    replace (S k) with (k + 1)%nat by lia.
    pose proof (loads_sub _ _ _ _ 1 (S (length nm)) Hld ltac:(simpl; lia)) as ->.
    f_equal. change (drop 1 (x :: cstr nm)) with (cstr nm). apply take_ge.
    by rewrite length_cstr.
Qed.
Lemma readdir_step f k fuel : file_at wo img k f ->
  romfs_readdir_loop readf (S fuel) (Z.of_nat k) fs =
  if f_deleted f
  then romfs_readdir_loop readf fuel (Z.of_nat (next_at wo k (length (f_name f)) (length (f_data f)))) fs
  else Some (Some (f_name f, Z.of_nat (length (f_data f)),
         Z.of_nat (next_at wo k (length (f_name f)) (length (f_data f))))).
Proof.
  intros Hf. cbn [romfs_readdir_loop].
  destruct (entry_fields k f Hf) as (b & -> & Hb & _ & Hdel & Hread & Hskip & Hsize & Hbase & Hbd).
  pose proof (entry_next k f Hf) as Hnext. simpl in Hnext.
  cbn [mbind option_bind]. rewrite (proj2 (Z.eqb_neq _ _)) by done.
  pose proof Hf as [(Hs & Hn & _) Hname _ _ _].
  rewrite (read_dir_name_ok (f_name f)) by (done || lia). cbn [mbind option_bind]. rewrite Hdel.
  assert ((if wo then d ← romfsh_read8 readf (Z.of_nat (del_at k (length (f_name f)))) fs;
            Some (d =? WOFS_FILE_DELETED,
              u32 (Z.of_nat (del_at k (length (f_name f))) + WOFS_DEL_FIELD_SIZE))
           else Some (false, Z.of_nat (del_at k (length (f_name f)))))
    = Some (f_deleted f, Z.of_nat (size_at wo k (length (f_name f))))) as ->.
  { unfold size_at. destruct wo.
    - rewrite Hread. cbn [mbind option_bind]. rewrite Hskip. by destruct (f_deleted f).
    - by rewrite Hread, Nat.add_0_r. }
  cbn [mbind option_bind]. rewrite Hsize. cbn [mbind option_bind].
  assert (Z.of_nat (size_at wo k (length (f_name f))) + ROMFS_SIZE_LEN + Z.of_nat (length (f_data f))
    = Z.of_nat (base_at wo k (length (f_name f))) + Z.of_nat (length (f_data f))) as ->
    by (unfold base_at, ROMFS_SIZE_LEN; lia).
  by rewrite Hnext.
Qed.
(** What a directory listing shows of [files]. *)
Definition entries (files : list rfile) : list (list Z * Z) :=
  map (fun f => (f_name f, Z.of_nat (length (f_data f))))
    (filter (fun f => f_deleted f = false) files).
Lemma readdir_loop_ok files : forall k e fuel, files_at wo img k files e ->
  img !! e = Some WOFS_END_MARKER_CHAR -> (length files < fuel)%nat ->
  exists r, romfs_readdir_loop readf fuel (Z.of_nat k) fs = Some r /\
    match r with
    | None => entries files = []
    | Some (nm, sz, off) => exists k' rest, off = Z.of_nat k' /\ files_at wo img k' rest e /\
        entries files = (nm, sz) :: entries rest /\ (length rest < length files)%nat
    end.
Proof.
  induction files as [|f files IH]; intros k e fuel Hfs He Hfuel;
    (destruct fuel as [|fuel]; simpl in Hfuel; [lia|]); inversion Hfs as [|? ? ? ? Hf Hrest]; subst.
  - cbn [romfs_readdir_loop]. rewrite (read8_ok _ _ He). by exists None.
  - rewrite (readdir_step f) by done. unfold entries. rewrite filter_cons.
    destruct (f_deleted f) eqn:Hd.
    + rewrite decide_False by done. destruct (IH _ _ fuel Hrest He ltac:(lia)) as (r & -> & Hr).
      exists r. split; [done|]. destruct r as [[[nm sz] off]|]; [|done].
      destruct Hr as (k' & rest & ? & ? & ? & ?). exists k', rest. split_and!; [done..|simpl; lia].
    + rewrite decide_True by done. eexists. split; [reflexivity|]. eexists _, files.
      split_and!; [done|done|done|simpl; lia].
Qed.
End Reading.

(** ** The descriptor table *)

Definition unused (f : FD) : Prop :=
  baseaddr f = 0xFFFFFFFF /\ offset f = 0xFFFFFFFF /\ size f = 0xFFFFFFFF.
#[export] Instance unused_dec f : Decision (unused f).
Proof. unfold unused. apply _. Defined.
Definition in_use (t : list FD) : nat := length (filter (λ f, ~ unused f) t).

(** The count of open files is right. *)
Definition fds_ok (s : romfs) : Prop :=
  length (fd_table s) = TOTAL_MAX_FDS /\ romfs_num_fd s = Z.of_nat (in_use (fd_table s)).

Lemma in_use_insert t i f g : t !! i = Some f ->
  (in_use (<[i := g]> t) + (if decide (unused f) then 0 else 1)
   = in_use t + (if decide (unused g) then 0 else 1))%nat.
Proof.
  intros Hi. pose proof (lookup_lt_Some _ _ _ Hi) as Hl. unfold in_use.
  rewrite insert_take_drop by done.
  rewrite <- (take_drop_middle t i f Hi) at 3. rewrite !filter_app, !filter_cons, !length_app.
  destruct (decide (unused f)), (decide (unused g));
    rewrite ?(decide_True (P := ~ unused f)), ?(decide_True (P := ~ unused g)),
      ?(decide_False (P := ~ unused f)), ?(decide_False (P := ~ unused g)) by tauto; simpl; lia.
Qed.
Lemma in_use_le t : (in_use t <= length t)%nat.
Proof. apply length_filter. Qed.
Lemma find_empty_fd t : length t = TOTAL_MAX_FDS -> (in_use t < TOTAL_MAX_FDS)%nat ->
  exists i f, romfs_find_empty_fd t = Z.of_nat i /\ t !! i = Some f /\ unused f.
Proof.
  intros Hl Hu. unfold romfs_find_empty_fd. rewrite take_ge by lia.
  destruct (list_find _ t) as [[i f]|] eqn:E.
  - apply list_find_Some in E as (Hi & Hf & _). by exists i, f.
  - exfalso. apply list_find_None in E. revert Hu. unfold in_use. rewrite <- Hl.
    assert (filter (λ f, ~ unused f) t = t) as ->; [|lia].
    clear Hl. induction E as [|f t Hf _ IH]; [done|]. rewrite filter_cons, IH.
    by rewrite decide_True.
Qed.

Lemma fds_open s f i g : fds_ok s -> fd_table s !! i = Some g -> unused g -> ~ unused f ->
  fds_ok (mkRomfs (<[i := f]> (fd_table s)) (romfs_num_fd s + 1) (romfs_dir_data s) (pfs s)).
Proof.
  intros [Hl Hn] Hi Hg Hf. split; [simpl; by rewrite length_insert|]. simpl. rewrite Hn.
  pose proof (in_use_insert _ _ _ f Hi) as H. rewrite decide_True, decide_False in H by done. lia.
Qed.
Lemma fds_close s i g fs : fds_ok s -> fd_table s !! i = Some g -> ~ unused g ->
  fds_ok (mkRomfs (romfs_close_fd i (fd_table s)) (romfs_num_fd s - 1) (romfs_dir_data s) fs).
Proof.
  intros [Hl Hn] Hi Hg. unfold romfs_close_fd. split; [simpl; by rewrite length_insert|].
  simpl. rewrite Hn. pose proof (in_use_insert _ _ _ empty_fd Hi) as H.
  rewrite decide_False, decide_True in H by done. lia.
Qed.
Lemma fds_update s i g f : fds_ok s -> fd_table s !! i = Some g -> ~ unused g -> ~ unused f ->
  fds_ok (set_fd s i f).
Proof.
  intros [Hl Hn] Hi Hg Hf. split; [simpl; by rewrite length_insert|]. simpl. rewrite Hn.
  pose proof (in_use_insert _ _ _ f Hi) as H. rewrite !decide_False in H by done. lia.
Qed.

(** ** Mounted file systems *)

(** The image holds the files, and an end marker at [e]. *)
Record mounted (fs : FSDATA) (files : list rfile) (e : nat) : Prop := {
  mt_files : files_at (romfsh_is_wofs fs) (image fs) 0 files e;
  mt_end : image fs !! e = Some WOFS_END_MARKER_CHAR;
  mt_small : Z.of_nat (length (image fs)) < 2 ^ 31
}.
(** A write-once file system on which no file is open for writing: all is
    erased behind the last file. *)
Record wofs_idle (fs : FSDATA) (files : list rfile) (e : nat) : Prop := {
  wi_mounted : mounted fs files e;
  wi_wofs : romfsh_is_wofs fs = true;
  wi_writing : is_set (fs_flags fs) ROMFS_FS_FLAG_WRITING = false;
  wi_erased : erased (image fs) e (length (image fs) - e);
  wi_size : max_size fs = Z.of_nat (length (image fs)) /\ (length (image fs) mod 4 = 0)%nat
}.
(** One on which the file [nm] is being written: the bytes of its name and its
    contents so far are there; its size, and all that follows, is erased. *)
Record wofs_writing (fs : FSDATA) (files : list rfile) (e : nat) (nm data : list Z) : Prop := {
  ww_files : files_at true (image fs) 0 files e;
  ww_wofs : romfsh_is_wofs fs = true;
  ww_writing : is_set (fs_flags fs) ROMFS_FS_FLAG_WRITING = true;
  ww_name_ok : name_ok nm;
  ww_name : loads (image fs) e (S (length nm)) = Some (cstr nm);
  ww_header : erased (image fs) (e + S (length nm))
                (base_at true e (length nm) - (e + S (length nm)));
  ww_data : loads (image fs) (base_at true e (length nm)) (length data) = Some data;
  ww_bytes : Forall is_u8 data;
  ww_erased : erased (image fs) (base_at true e (length nm) + length data)
                (length (image fs) - (base_at true e (length nm) + length data));
  ww_room : (base_at true e (length nm) + length data + 4 <= length (image fs))%nat;
  ww_size : max_size fs = Z.of_nat (length (image fs)) /\ (length (image fs) mod 4 = 0)%nat /\
            Z.of_nat (length (image fs)) < 2 ^ 31;
  ww_aligned : (e mod 4 = 0)%nat
}.

(** Entries depend only on the bytes from their start to their end. *)
Lemma file_at_ext wo img img' off f : file_at wo img off f -> length img' = length img ->
  (forall k, (off <= k < base_at wo off (length (f_name f)) + length (f_data f))%nat ->
     img' !! k = img !! k) -> file_at wo img' off f.
Proof.
  intros [Hok Hn Hd Hs Hdt] Hl Hk.
  pose proof (align4_spec (off + length (f_name f) + 1)).
  assert (forall a n bs, loads img a n = Some bs -> (off <= a)%nat ->
    (a + n <= base_at wo off (length (f_name f)) + length (f_data f))%nat ->
    loads img' a n = Some bs) as Hld.
  { intros a n bs H1 Ha H2. rewrite <- H1. pose proof (loads_bound _ _ _ _ H1).
    apply loads_ext; [lia| |lia]. intros k Hkk. apply Hk. lia. }
  unfold base_at, size_at, del_at in *.
  split; [done|..]; unfold base_at, size_at, del_at in *;
    [| |by apply Hld; [|destruct wo; lia|lia]|by apply Hld; [|destruct wo; lia|]].
  - apply Hld; [done|lia|]. destruct wo; lia.
  - destruct wo; [|done]. apply Hld; [done|lia|lia].
Qed.
Lemma files_at_ext wo img img' off files e : files_at wo img off files e ->
  length img' = length img -> (forall k, (off <= k < e)%nat -> img' !! k = img !! k) ->
  files_at wo img' off files e.
Proof.
  induction 1 as [|off f files e Hf Hfs IH]; intros Hl Hk; constructor;
    pose proof (files_at_bounds _ _ _ _ _ Hfs);
    pose proof (next_at_ge wo off (length (f_name f)) (length (f_data f)));
    pose proof (next_at_bounds wo off (length (f_name f)) (length (f_data f))).
  - apply (file_at_ext wo img); [done|done|]. intros k Hkk. apply Hk. lia.
  - apply IH; [done|]. intros k Hkk. apply Hk. lia.
Qed.
Lemma files_at_aligned img off files e : files_at true img off files e -> (off mod 4 = 0)%nat ->
  (e mod 4 = 0)%nat.
Proof.
  induction 1 as [|off f files e Hf Hfs IH]; intros Ho; [done|]. apply IH.
  unfold next_at. apply align4_spec.
Qed.

Lemma is_set_lor x a b : is_set x (Z.lor a b) = is_set x a || is_set x b.
Proof.
  unfold is_set. rewrite Z.land_lor_distr_r.
  destruct (Z.eqb_spec (Z.land x a) 0) as [Ha|Ha], (Z.eqb_spec (Z.land x b) 0) as [Hb|Hb];
    destruct (Z.eqb_spec (Z.lor (Z.land x a) (Z.land x b)) 0) as [H|H]; try done; exfalso.
  - apply H. by rewrite Ha, Hb.
  - by apply Z.lor_eq_0_iff in H as [_ ?].
  - by apply Z.lor_eq_0_iff in H as [? _].
  - by apply Z.lor_eq_0_iff in H as [? _].
Qed.

Section Ops.
Context (readf : list Z -> Z -> Z -> option (list Z))
  (writef : list Z -> list Z -> Z -> option (list Z)) `{!Device readf writef} (c : fcntl).

Lemma files_fuel fs files e : files_at (romfsh_is_wofs fs) (image fs) 0 files e ->
  (e <= length (image fs))%nat -> (length files < fuel_of fs)%nat.
Proof. intros Hf He. pose proof (files_at_bounds _ _ _ _ _ Hf). unfold fuel_of. lia. Qed.
Lemma fd_of_base f b : baseaddr f = Z.of_nat b -> Z.of_nat b < 2 ^ 31 -> ~ unused f.
Proof. intros Hb Hs [H _]. lia. Qed.

(** The access mode the flags ask for. *)
Definition wants_write (flags : Z) : bool :=
  is_set flags (O_WRONLY c) || is_set flags (O_RDWR c) || is_set flags (O_APPEND c).
Definition file_mode (flags : Z) : Z :=
  let m := if is_set flags (O_WRONLY c) then 2 else if is_set flags (O_RDWR c) then 3 else 1 in
  if is_set flags (O_APPEND c) then Z.lor m 4 else m.
Lemma file_mode_write flags :
  is_set (file_mode flags) (Z.lor ROMFS_FILE_FLAG_WRITE ROMFS_FILE_FLAG_APPEND) = wants_write flags.
Proof. unfold file_mode, wants_write. by repeat case_match. Qed.

(** Whether the flags ask for a new file when [found] tells if there is one. *)
Definition creates (flags : Z) (found : bool) : bool :=
  (is_set flags (O_CREAT c) && negb found) ||
  (is_set flags (O_TRUNC c) && (is_set flags (O_WRONLY c) || is_set flags (O_RDWR c)) && found).

(** [romfs_open_r] once the search has an answer. *)
Definition opened (path : list Z) (flags : Z) (found : lookup) (s : romfs)
  : option (Z * errno * romfs) :=
  let exists_ := match found with FS_FILE_OK _ _ _ => true | _ => false end in
  if is_set flags (O_CREAT c) && is_set flags (O_EXCL c) && exists_ then err EEXIST s
  else if creates flags exists_ && negb (romfsh_is_wofs (pfs s)) then err EROFS s
  else if wants_write flags && negb (creates flags exists_) then err EACCES s
  else if wants_write flags && is_set (fs_flags (pfs s)) ROMFS_FS_FLAG_WRITING then err EROFS s
  else if creates flags exists_ then
    fs ← match found with
         | FS_FILE_OK base _ _ =>
             fs_write writef (del_field true) (u32 (base - 4 - 4)) (pfs s)
         | FS_FILE_NOT_FOUND _ => Some (pfs s)
         end;
    let s := with_fs s fs in
    last ← romfs_open_file readf (fuel_of fs) [1] fs 0;
    firstfree ← match last, found with
                | FS_FILE_NOT_FOUND l, _ | _, FS_FILE_NOT_FOUND l => Some l
                | _, _ => None
                end;
    let len := Z.of_nat (length path) + 1 in
    if u32 (max_size fs - firstfree + 1) <? len + 11 + 4 then err ENOSPC s else
    let i := romfs_find_empty_fd (fd_table s) in
    if i <? 0 then err ENFILE s else
    fs ← fs_write writef (cstr path) firstfree fs;
    let firstfree := u32 (align (u32 (firstfree + len)) + 4 + 4) in
    let fs := mkFS (image fs) (Z.lor (fs_flags fs) ROMFS_FS_FLAG_WRITING) (max_size fs) in
    new_fd (with_fs s fs) (mkFD firstfree 0 0 (file_mode flags)) i
  else
    match found with
    | FS_FILE_NOT_FOUND _ => err ENOENT s
    | FS_FILE_OK base fsize _ =>
        let i := romfs_find_empty_fd (fd_table s) in
        if i <? 0 then err ENFILE s else new_fd s (mkFD base 0 fsize (file_mode flags)) i
    end.
Lemma open_opened path flags mode s found : (in_use (fd_table s) < TOTAL_MAX_FDS)%nat -> fds_ok s ->
  romfs_open_file readf (fuel_of (pfs s)) path (pfs s) 0 = Some found ->
  romfs_open_r readf writef c path flags mode s = opened path flags found s.
Proof.
  intros Hu [Hl Hn] Hf. unfold romfs_open_r. rewrite (proj2 (Z.eqb_neq _ _)) by lia.
  rewrite Hf. cbn [mbind option_bind].
  set (ex := match found with FS_FILE_OK _ _ _ => true | _ => false end).
  rewrite (is_set_lor flags (O_WRONLY c)).
  change (is_set (fs_flags (pfs s)) ROMFS_FS_FLAG_WO) with (romfsh_is_wofs (pfs s)).
  change (if is_set flags (O_APPEND c) then _ else _) with (file_mode flags).
  rewrite file_mode_write. reflexivity.
Qed.

(** *** Opening for reading *)

Lemma open_read_ok s files e path flags mode off f : fds_ok s ->
  (in_use (fd_table s) < TOTAL_MAX_FDS)%nat ->
  files_at (romfsh_is_wofs (pfs s)) (image (pfs s)) 0 files e ->
  Z.of_nat (length (image (pfs s))) < 2 ^ 31 -> (e <= length (image (pfs s)))%nat ->
  locate (romfsh_is_wofs (pfs s)) 0 files path = Some (off, f) ->
  wants_write flags = false -> is_set flags (O_CREAT c) && is_set flags (O_EXCL c) = false ->
  exists i g, fd_table s !! i = Some g /\ unused g /\
    romfs_open_r readf writef c path flags mode s
    = new_fd s (mkFD (Z.of_nat (base_at (romfsh_is_wofs (pfs s)) off (length (f_name f)))) 0
        (Z.of_nat (length (f_data f))) ROMFS_FILE_FLAG_READ) (Z.of_nat i).
Proof.
  intros Hfd Hu Hfs Hsm He Hloc Hw Hx.
  destruct (find_empty_fd (fd_table s)) as (i & g & Hi & Hg & Hun); [apply Hfd|done|].
  exists i, g. split_and!; [done|done|].
  rewrite (open_opened path flags mode s (found_at (pfs s) off f)); [|done|done|].
  - unfold opened, found_at, creates. rewrite Hx. cbn [negb].
    pose proof Hw as Hw'. unfold wants_write in Hw'.
    apply orb_false_iff in Hw' as [[Hwr Hrw]%orb_false_iff Hap].
    rewrite Hw, Hwr, Hrw. cbn [orb andb negb]. rewrite !andb_false_r. cbn [orb andb].
    rewrite Hi. rewrite (proj2 (Z.ltb_ge _ _)) by lia.
    unfold file_mode. by rewrite Hwr, Hrw, Hap.
  - apply (open_file_found readf writef (pfs s) Hsm path files 0 e); [done|done|].
    pose proof (files_fuel _ _ _ Hfs He). lia.
Qed.
(** *** Writing to erased bytes *)

Lemma fs_write_erased fs data a : (length (image fs) mod 4 = 0)%nat -> Z.of_nat (length (image fs)) < 2 ^ 31 ->
  Forall is_u8 data -> (a + length data <= length (image fs))%nat ->
  erased (image fs) a (length data) ->
  fs_write writef data (Z.of_nat a) fs
  = Some (mkFS (splice (image fs) a data) (fs_flags fs) (max_size fs)).
Proof.
  intros H4 Hs Hb Hl He. unfold fs_write. rewrite (device_write (readf := readf)); rewrite ?Nat2Z.id;
    [done|lia|done..].
Qed.
Lemma erased_sub img a n b m : erased img a n -> (a <= b)%nat -> (b + m <= a + n)%nat ->
  erased img b m.
Proof. intros He Ha Hb k Hk. apply He. lia. Qed.
Lemma erased_splice img a bs b m : erased img b m -> (a + length bs <= length img)%nat ->
  (b + m <= a \/ a + length bs <= b)%nat -> erased (splice img a bs) b m.
Proof. intros He Hl Hd k Hk. rewrite lookup_splice_old by lia. by apply He. Qed.
Lemma loads_splice_old img a bs b m : (a + length bs <= length img)%nat ->
  (b + m <= a \/ a + length bs <= b)%nat -> (b + m <= length img)%nat ->
  loads (splice img a bs) b m = loads img b m.
Proof.
  intros Hl Hd Hb. apply loads_ext; [by rewrite length_splice|..]; [|done].
  intros k Hk. apply lookup_splice_old; [done|lia].
Qed.
Lemma loads_splice_new img a bs : (a + length bs <= length img)%nat ->
  loads (splice img a bs) a (length bs) = Some bs.
Proof.
  intros Hl. unfold loads. rewrite length_splice, decide_True by lia. f_equal.
  unfold splice. rewrite drop_app_length' by (rewrite length_take; lia).
  by rewrite take_app_length.
Qed.

(** *** Deleting *)

Fixpoint mark_deleted (fname : list Z) (files : list rfile) : list rfile :=
  match files with
  | [] => []
  | f :: files =>
      if matches fname f then RFile (f_name f) true (f_data f) :: files
      else f :: mark_deleted fname files
  end.

Lemma locate_spec wo fname files : forall off img e o f, files_at wo img off files e ->
  locate wo off files fname = Some (o, f) ->
  file_at wo img o f /\ f_deleted f = false /\ (off <= o)%nat /\
  (next_at wo o (length (f_name f)) (length (f_data f)) <= e)%nat.
Proof.
  induction files as [|g files IH]; intros off img e o f Hfs Hl; [done|].
  inversion Hfs as [|? ? ? ? Hf Hrest]; subst. cbn [locate] in Hl.
  pose proof (next_at_bounds wo off (length (f_name g)) (length (f_data g))).
  destruct (matches fname g) eqn:E.
  - injection Hl as <- <-. apply andb_true_iff in E as [_ E%negb_true_iff].
    pose proof (files_at_bounds _ _ _ _ _ Hrest). split_and!; [done|done|lia|lia].
  - destruct (IH _ _ _ _ _ Hrest Hl) as (H1 & H2 & H3 & H4). split_and!; try done. lia.
Qed.

Lemma file_at_delete img o f : file_at true img o f ->
  file_at true (splice img (del_at o (length (f_name f))) (del_field true)) o
    (RFile (f_name f) true (f_data f)).
Proof.
  intros [Hok Hn Hd Hs Hdt]. pose proof (loads_bound _ _ _ _ Hd) as Hb.
  pose proof (loads_bound _ _ _ _ Hn). pose proof (loads_bound _ _ _ _ Hs).
  pose proof (loads_bound _ _ _ _ Hdt).
  pose proof (align4_spec (o + length (f_name f) + 1)) as [Ha _].
  assert (length (del_field true) = 4%nat) as Hd4 by done.
  split; cbn [f_name f_data f_deleted]; [done|..].
  - rewrite loads_splice_old; [done|lia|left; unfold del_at; lia|lia].
  - apply (loads_splice_new img _ (del_field true)). lia.
  - rewrite loads_splice_old; [done|lia|right; unfold size_at; lia|lia].
  - rewrite loads_splice_old; [done|lia|right; unfold base_at, size_at; lia|lia].
Qed.

Lemma files_at_delete fname files : forall off img e o f, files_at true img off files e ->
  locate true off files fname = Some (o, f) -> 
  files_at true (splice img (del_at o (length (f_name f))) (del_field true)) off
    (mark_deleted fname files) e.
Proof.
  induction files as [|g files IH]; intros off img e o f Hfs Hl; [done|].
  destruct (locate_spec true fname _ _ _ _ _ _ Hfs Hl) as (Hof & _ & _ & _).
  destruct Hof as [_ _ Hd _ _]. pose proof (loads_bound _ _ _ _ Hd) as Hdb.
  assert (length (del_field true) = 4%nat) as Hd4 by done.
  pose proof (align4_spec (o + length (f_name f) + 1)) as [Ha _]. unfold del_at in *.
  inversion Hfs as [|? ? ? ? Hf Hrest]; subst. cbn [locate mark_deleted] in *.
  pose proof (next_at_ge true off (length (f_name g)) (length (f_data g))) as Hge.
  destruct (matches fname g) eqn:E.
  - injection Hl as -> ->. constructor; [by apply file_at_delete|]. cbn [f_name f_data].
    eapply files_at_ext; [exact Hrest|apply length_splice; lia|].
    intros k Hk. apply lookup_splice_old; [lia|]. right.
    unfold base_at, size_at, del_at in Hge. lia.
  - destruct (locate_spec true fname _ _ _ _ _ _ Hrest Hl) as (_ & _ & Ho & _).
    constructor; [|by apply IH].
    apply (file_at_ext true img); [done|apply length_splice; lia|].
    intros k Hk. apply lookup_splice_old; [lia|]. left. lia.
Qed.
(** *** Creating *)

(** Room for a new entry: its name, and [WOFS_MIN_NEEDED_SIZE] and the deleted
    field behind it. *)
Definition room_for (fs : FSDATA) (e : nat) (path : list Z) : Prop :=
  (e + length path + 15 <= length (image fs))%nat.
#[export] Instance room_for_dec fs e path : Decision (room_for fs e path).
Proof. unfold room_for. apply _. Defined.
(** The file system with the name of a new file written. *)
Definition begun (fs : FSDATA) (e : nat) (path : list Z) : FSDATA :=
  mkFS (splice (image fs) e (cstr path)) (Z.lor (fs_flags fs) ROMFS_FS_FLAG_WRITING) (max_size fs).

Lemma flags_begun fl : is_set (Z.lor fl 4) 2 = is_set fl 2 /\ is_set (Z.lor fl 4) 4 = true.
Proof.
  unfold is_set. rewrite !Z.land_lor_distr_l. change (Z.land 4 2) with 0.
  change (Z.land 4 4) with 4. rewrite Z.lor_0_r. split; [done|].
  apply negb_true_iff, Z.eqb_neq. intros [_ H]%Z.lor_eq_0_iff. done.
Qed.
Lemma flags_ended fl : is_set (Z.land fl (u8 (Z.lnot 4))) 2 = is_set fl 2 /\
  is_set (Z.land fl (u8 (Z.lnot 4))) 4 = false.
Proof.
  unfold is_set. rewrite <- !Z.land_assoc. change (Z.land (u8 (Z.lnot 4)) 2) with 2.
  change (Z.land (u8 (Z.lnot 4)) 4) with 0. by rewrite Z.land_0_r.
Qed.

Lemma idle_end fs files e : wofs_idle fs files e -> (e < length (image fs))%nat /\ (e mod 4 = 0)%nat.
Proof.
  intros [[Hfs Hend _] Hwo _ _ _]. split; [by apply lookup_lt_Some in Hend|].
  rewrite Hwo in Hfs. by apply (files_at_aligned _ _ _ _ Hfs).
Qed.

Lemma begun_writing fs files e path : wofs_idle fs files e -> name_ok path -> room_for fs e path ->
  wofs_writing (begun fs e path) files e path [].
Proof.
  intros Hidle Hok Hroom. destruct (idle_end fs files e Hidle) as [He Hea].
  destruct Hidle as [[Hfs Hend Hsm] Hwo Hnw Her [Hmax Hm4]]. unfold room_for in Hroom.
  rewrite Hwo in Hfs. pose proof (length_cstr path) as Hcl.
  pose proof (align4_spec (e + length path + 1)) as [Ha Ham].
  destruct (flags_begun (fs_flags fs)) as [Hf2 Hf4].
  assert (base_at true e (length path) = align4 (e + length path + 1) + 8)%nat as Hb
    by (unfold base_at, size_at, del_at; lia).
  assert (length (image (begun fs e path)) = length (image fs)) as Hlen
    by (simpl; apply length_splice; lia).
  assert (base_at true e (length path) + 4 <= length (image fs))%nat as Hroom4.
  { assert ((base_at true e (length path)) mod 4 = 0)%nat as Hbm.
    { rewrite Hb. rewrite <- (Nat.Div0.add_mod_idemp_l _ 8), Ham. done. }
    pose proof (Nat.div_mod_eq (base_at true e (length path)) 4).
    pose proof (Nat.div_mod_eq (length (image fs)) 4). lia. }
  split; try done; rewrite ?Hlen.
  - eapply files_at_ext; [exact Hfs|done|]. intros k Hk. apply lookup_splice_old; lia.
  - exact (eq_trans Hf2 Hwo).
  - simpl. rewrite <- Hcl. apply loads_splice_new. lia.
  - simpl. apply erased_splice; [|lia|lia]. eapply erased_sub; [exact Her|lia|lia].
  - unfold loads. simpl. rewrite decide_True; [done|]. rewrite length_splice; lia.
  - simpl. apply erased_splice; [|lia|lia]. eapply erased_sub; [exact Her|lia|lia].
  - simpl. lia.
  - by split_and!.
Qed.

(** What [opened] does once a file is to be created and any old one is gone. *)
Definition create_tail (path : list Z) (flags : Z) (found : lookup) (s : romfs)
  : option (Z * errno * romfs) :=
  last ← romfs_open_file readf (fuel_of (pfs s)) [1] (pfs s) 0;
  firstfree ← match last, found with
              | FS_FILE_NOT_FOUND l, _ | _, FS_FILE_NOT_FOUND l => Some l
              | _, _ => None
              end;
  let len := Z.of_nat (length path) + 1 in
  if u32 (max_size (pfs s) - firstfree + 1) <? len + 11 + 4 then err ENOSPC s else
  let i := romfs_find_empty_fd (fd_table s) in
  if i <? 0 then err ENFILE s else
  fs ← fs_write writef (cstr path) firstfree (pfs s);
  let firstfree := u32 (align (u32 (firstfree + len)) + 4 + 4) in
  let fs := mkFS (image fs) (Z.lor (fs_flags fs) ROMFS_FS_FLAG_WRITING) (max_size fs) in
  new_fd (with_fs s fs) (mkFD firstfree 0 0 (file_mode flags)) i.

Lemma create_tail_ok path flags found s files e : fds_ok s ->
  (in_use (fd_table s) < TOTAL_MAX_FDS)%nat -> wofs_idle (pfs s) files e -> name_ok path ->
  locate true 0 files [1] = None ->
  if decide (room_for (pfs s) e path) then
    exists i g, fd_table s !! i = Some g /\ unused g /\
      create_tail path flags found s
      = new_fd (with_fs s (begun (pfs s) e path))
          (mkFD (Z.of_nat (base_at true e (length path))) 0 0 (file_mode flags)) (Z.of_nat i)
  else create_tail path flags found s = err ENOSPC s.
Proof.
  intros Hfd Hu Hidle Hok Hloc. destruct (idle_end _ _ _ Hidle) as [He Hea].
  destruct Hidle as [[Hfs Hend Hsm] Hwo Hnw Her [Hmax Hm4]]. unfold create_tail.
  rewrite Hwo in Hfs.
  assert (romfs_open_file readf (fuel_of (pfs s)) [1] (pfs s) 0
    = Some (FS_FILE_NOT_FOUND (Z.of_nat e))) as ->.
  { apply (open_file_none readf writef (pfs s) Hsm [1] files 0 e); rewrite ?Hwo; try done.
    pose proof (files_at_bounds _ _ _ _ _ Hfs). unfold fuel_of. lia. }
  cbn [mbind option_bind]. rewrite Hmax.
  rewrite (u32_small (_ - _ + 1)) by word_lia.
  pose proof (length_cstr path) as Hcl. unfold room_for. case_decide as Hroom.
  - rewrite (proj2 (Z.ltb_ge _ _)) by lia.
    destruct (find_empty_fd (fd_table s)) as (i & g & Hi & Hg & Hun); [apply Hfd|done|].
    exists i, g. split_and!; [done|done|]. rewrite Hi, (proj2 (Z.ltb_ge _ _)) by lia.
    rewrite fs_write_erased; [|done|lia|by apply cstr_bytes, Hok|rewrite length_cstr; lia|eapply erased_sub; [exact Her|lia|lia]].
    cbn [mbind option_bind image fs_flags max_size]. unfold begun.
    replace (Z.of_nat e + (Z.of_nat (length path) + 1)) with (Z.of_nat (e + length path + 1)) by lia.
    rewrite (u32_small (Z.of_nat _)) by word_lia. rewrite align_align4 by lia.
    pose proof (align4_spec (e + length path + 1)) as [Ha Ham].
    rewrite u32_small by word_lia.
    assert (Z.of_nat (align4 (e + length path + 1)) + 4 + 4
      = Z.of_nat (base_at true e (length path))) as ->
      by (unfold base_at, size_at, del_at; lia).
    done.
  - destruct (Z.ltb_spec (Z.of_nat (length (image (pfs s))) - Z.of_nat e + 1)
      (Z.of_nat (length path) + 1 + 11 + 4)); [done|lia].
Qed.
(** *** Writing *)

(** Descriptor [fd] is the one the file [nm] is written through. *)
Record writer (s : romfs) (fd : nat) (files : list rfile) (e : nat) (nm data : list Z) : Prop := {
  wr_fds : fds_ok s;
  wr_writing : wofs_writing (pfs s) files e nm data;
  wr_fd : exists fl, fd_table s !! fd = Some (mkFD (Z.of_nat (base_at true e (length nm)))
            (Z.of_nat (length data)) (Z.of_nat (length data)) fl) /\
            is_set fl (Z.lor ROMFS_FILE_FLAG_WRITE ROMFS_FILE_FLAG_APPEND) = true
}.

Lemma loads_0 bs n : (n <= length bs)%nat -> loads bs 0 n = Some (take n bs).
Proof. intros. unfold loads. by rewrite decide_True, drop_0 by lia. Qed.
Lemma loads_app img a xs ys : loads img a (length xs) = Some xs ->
  loads img (a + length xs) (length ys) = Some ys ->
  loads img a (length (xs ++ ys)) = Some (xs ++ ys).
Proof.
  rewrite <- !holds_loads, fmap_app, holds_app, length_fmap. done.
Qed.

Lemma written_more fs files e nm data bs : wofs_writing fs files e nm data -> Forall is_u8 bs ->
  (base_at true e (length nm) + length data + length bs + 4 <= length (image fs))%nat ->
  wofs_writing (mkFS (splice (image fs) (base_at true e (length nm) + length data) bs)
    (fs_flags fs) (max_size fs)) files e nm (data ++ bs).
Proof.
  intros [Hfs Hwo Hww Hok Hn Hh Hd Hdb He Hroom (Hs & Hm & Hsm) Ha] Hb Hl.
  pose proof (loads_bound _ _ _ _ Hn). pose proof (align4_spec (e + length nm + 1)).
  assert (e + S (length nm) <= base_at true e (length nm))%nat as Hbase
    by (unfold base_at, size_at, del_at; lia).
  assert (length (splice (image fs) (base_at true e (length nm) + length data) bs)
    = length (image fs)) as Hlen by (apply length_splice; lia).
  split; try done; cbn [image fs_flags max_size]; rewrite ?Hlen, ?length_app; try lia.
  - eapply files_at_ext; [exact Hfs|done|]. intros k Hk. apply lookup_splice_old; lia.
  - rewrite loads_splice_old by lia. done.
  - apply erased_splice; [done|lia|lia].
  - rewrite <- length_app. apply loads_app; [|by apply loads_splice_new; lia].
    by rewrite loads_splice_old by lia.
  - by apply Forall_app.
  - apply erased_splice; [|lia|lia]. eapply erased_sub; [exact He|lia|lia].
Qed.

(** What a write of [bs] takes of it: one byte for the end marker and three
    for the alignment stay free. *)
Definition fits_in (fs : FSDATA) (e : nat) (nm data bs : list Z) : nat :=
  length bs `min` (length (image fs) - 4 - (base_at true e (length nm) + length data)).

Lemma write_r_ok s fd files e nm data bs : writer s fd files e nm data -> Forall is_u8 bs ->
  Z.of_nat (length bs) < 2 ^ 31 ->
  let n := fits_in (pfs s) e nm data bs in
  exists s', romfs_write_r writef fd bs s = Some (Z.of_nat n, E_OK, s') /\
    writer s' fd files e nm (data ++ take n bs) /\
    length (image (pfs s')) = length (image (pfs s)).
Proof.
  intros [Hfds Hww (fl & Hfd & Hfl)] Hb Hbl n.
  pose proof Hww as [Hfs Hwo _ Hok Hn Hh Hd Hdb He Hroom (Hs & Hm & Hsm) Ha].
  set (base := base_at true e (length nm)) in *.
  unfold romfs_write_r. rewrite Hfd. cbn [mbind option_bind].
  unfold can_write. cbn [fd_flags]. rewrite Hfl. cbn [negb offset size baseaddr fd_flags].
  set (f := mkFD (Z.of_nat base) (Z.of_nat (length data)) (Z.of_nat (length data)) fl) in *.
  assert ((if is_set fl ROMFS_FILE_FLAG_APPEND then f else f) = f) as -> by (by destruct (is_set fl ROMFS_FILE_FLAG_APPEND)).
  assert (set_fd s fd f = s) as ->.
  { unfold set_fd. rewrite list_insert_id by done. by destruct s. }
  cbn [offset size baseaddr fd_flags f]. rewrite Z.eqb_refl. cbn [negb]. rewrite Hs.
  unfold ROMFS_ALIGN. rewrite (u32_small (_ - 4)) by word_lia.
  rewrite (u32_small (_ + _ + _)) by word_lia.
  assert (Z.of_nat n = if Z.of_nat base + Z.of_nat (length data) + Z.of_nat (length bs) >?
      Z.of_nat (length (image (pfs s))) - 4
    then u32 (Z.of_nat (length (image (pfs s))) - (Z.of_nat base + Z.of_nat (length data)) - 4)
    else Z.of_nat (length bs)) as <-.
  { unfold n, fits_in. fold base. rewrite Z.gtb_ltb.
    destruct (Z.ltb_spec (Z.of_nat (length (image (pfs s))) - 4)
      (Z.of_nat base + Z.of_nat (length data) + Z.of_nat (length bs))); [|lia].
    rewrite u32_small by word_lia. lia. }
  assert (n <= length bs /\ base + length data + n + 4 <= length (image (pfs s)))%nat as [Hnb Hnr]
    by (unfold n, fits_in; fold base; lia).
  rewrite Nat2Z.id, loads_0 by done. cbn [mbind option_bind].
  assert (length (take n bs) = n) as Hln by (rewrite length_take; lia).
  rewrite (u32_small (Z.of_nat (length data) + Z.of_nat base)) by word_lia.
  replace (Z.of_nat (length data) + Z.of_nat base) with (Z.of_nat (base + length data)) by lia.
  rewrite fs_write_erased; [|done|lia|by apply Forall_take|lia|eapply erased_sub; [exact He|lia|lia]].
  cbn [mbind option_bind]. eexists. split; [reflexivity|]. cbn [fd_flags f].
  rewrite <- !Nat2Z.inj_add, u32_small by word_lia.
  split; [split|].
  - apply (fds_update _ fd f); [by destruct Hfds|done|..];
      apply (fd_of_base _ base); done || lia.
  - apply written_more; [done|by apply Forall_take|]. fold base. lia.
  - exists fl. split; [|done]. simpl. rewrite list_lookup_insert_eq.
    + by rewrite length_app, Hln.
    + by apply lookup_lt_Some in Hfd.
  - simpl. apply length_splice. lia.
Qed.

(** *** Closing *)

Lemma closed_idle fs files e nm data : wofs_writing fs files e nm data ->
  wofs_idle (mkFS (splice (image fs) (base_at true e (length nm) - 4)
      (le32 (Z.of_nat (length data)))) (Z.land (fs_flags fs) (u8 (Z.lnot ROMFS_FS_FLAG_WRITING)))
      (max_size fs))
    (files ++ [RFile nm false data]) (next_at true e (length nm) (length data)).
Proof.
  intros [Hfs Hwo Hww Hok Hn Hh Hd Hdb He Hroom (Hs & Hm & Hsm) Ha].
  pose proof (loads_bound _ _ _ _ Hn). pose proof (align4_spec (e + length nm + 1)) as [Hal _].
  assert (base_at true e (length nm) = align4 (e + length nm + 1) + 8)%nat as Hb
    by (unfold base_at, size_at, del_at; lia).
  assert (size_at true e (length nm) = align4 (e + length nm + 1) + 4)%nat as Hsz
    by (unfold size_at, del_at; lia).
  set (l := le32 (Z.of_nat (length data))). assert (length l = 4%nat) as Hl4 by done.
  set (img' := splice (image fs) (base_at true e (length nm) - 4) l).
  assert (length img' = length (image fs)) as Hlen by (apply length_splice; lia).
  pose proof (align4_spec (base_at true e (length nm) + length data)) as [Hnx Hnx4].
  assert (next_at true e (length nm) (length data)
    = align4 (base_at true e (length nm) + length data)) as Hnext by done.
  destruct (flags_ended (fs_flags fs)) as [Hf2 Hf4].
  assert (erased img' (base_at true e (length nm) + length data)
    (length (image fs) - (base_at true e (length nm) + length data))) as Her
    by (apply erased_splice; [done|lia|lia]).
  split; [split| | | |]; cbn [image fs_flags max_size]; rewrite ?Hlen, ?Hnext; try done.
  - change (romfsh_is_wofs _) with (is_set (Z.land (fs_flags fs) (u8 (Z.lnot 4))) 2).
    rewrite Hf2. change (is_set (fs_flags fs) 2) with (romfsh_is_wofs fs). rewrite Hwo.
    apply files_at_app. exists e. split.
    + eapply files_at_ext; [exact Hfs|done|]. intros k Hk. apply lookup_splice_old; lia.
    + constructor; [|cbn [f_name f_data]; rewrite Hnext; constructor].
      split; cbn [f_name f_deleted f_data]; unfold img'.
      * done.
      * rewrite loads_splice_old by lia. done.
      * rewrite loads_splice_old by (unfold del_at; lia).
        unfold loads. rewrite decide_True by (unfold del_at; lia). f_equal.
        apply list_eq. intros i. unfold del_at.
        destruct (decide (i < 4)%nat) as [Hi|Hi].
        -- rewrite lookup_take_lt, lookup_drop, (Hh (_ + i)%nat) by lia.
           by destruct i as [|[|[|[|i]]]]; [..|lia].
        -- rewrite lookup_take_ge by lia. symmetry. apply lookup_ge_None. simpl. lia.
      * replace (size_at true e (length nm)) with (base_at true e (length nm) - 4)%nat by lia.
        apply (loads_splice_new (image fs) _ l). lia.
      * rewrite loads_splice_old by lia. done.
  - apply Her. lia.
  - exact (eq_trans Hf2 Hwo).
  - eapply erased_sub; [exact Her|lia|lia].
Qed.

Lemma close_r_ok s fd files e nm data : writer s fd files e nm data ->
  exists s', romfs_close_r writef fd s = Some (0, s') /\ fds_ok s' /\
    wofs_idle (pfs s') (files ++ [RFile nm false data]) (next_at true e (length nm) (length data)) /\
    in_use (fd_table s') = pred (in_use (fd_table s)).
Proof.
  intros [Hfds Hww (fl & Hfd & Hfl)].
  pose proof Hww as [_ _ _ _ _ Hh Hd _ _ Hroom (_ & Hm4 & Hsm) _].
  unfold romfs_close_r. rewrite Hfd. cbn [mbind option_bind].
  unfold can_write. cbn [fd_flags size baseaddr]. rewrite Hfl.
  pose proof (align4_spec (e + length nm + 1)) as [Hal _].
  assert (base_at true e (length nm) = align4 (e + length nm + 1) + 8)%nat as Hb
    by (unfold base_at, size_at, del_at; lia).
  unfold ROMFS_SIZE_LEN.
  replace (Z.of_nat (base_at true e (length nm)) - 4)
    with (Z.of_nat (base_at true e (length nm) - 4)) by lia.
  rewrite u32_small by word_lia.
  rewrite fs_write_erased; [|done|lia|apply le32_bytes|change (length (le32 _)) with 4%nat; lia|].
  2:{ eapply erased_sub; [exact Hh|lia|]. change (length (le32 _)) with 4%nat. lia. }
  cbn [mbind option_bind image fs_flags max_size]. eexists. split; [reflexivity|].
  assert (~ unused (mkFD (Z.of_nat (base_at true e (length nm))) (Z.of_nat (length data))
    (Z.of_nat (length data)) fl)) as Hun by (eapply fd_of_base; [done|lia]).
  split_and!.
  - eapply fds_close; done.
  - by apply closed_idle.
  - simpl. unfold romfs_close_fd. pose proof (in_use_insert _ _ _ empty_fd Hfd) as Hi.
    rewrite decide_False, decide_True in Hi by done. lia.
Qed.

(** *** Opening: all outcomes *)

Lemma mark_deleted_none wo fname files : forall off, locate wo off files fname = None ->
  mark_deleted fname files = files.
Proof.
  induction files as [|f files IH]; intros off; [done|]. cbn [locate mark_deleted].
  destruct (matches fname f); [done|]. intros H. by rewrite (IH _ H).
Qed.
Lemma locate_deleted wo fname nm files : forall off, locate wo off files nm = None ->
  locate wo off (mark_deleted fname files) nm = None.
Proof.
  induction files as [|f files IH]; intros off; [done|]. cbn [locate mark_deleted].
  destruct (matches nm f) eqn:E; [done|]. intros H. destruct (matches fname f).
  - cbn [locate f_name f_data]. unfold matches at 1. cbn [f_name f_deleted].
    by rewrite andb_false_r.
  - cbn [locate]. rewrite E. by apply IH.
Qed.

(** The entry of [path], as the search reports it. *)
Definition find_result (wo : bool) (files : list rfile) (e : nat) (path : list Z) : lookup :=
  match locate wo 0 files path with
  | Some (o, f) => FS_FILE_OK (Z.of_nat (base_at wo o (length (f_name f))))
                     (Z.of_nat (length (f_data f))) (Z.of_nat o)
  | None => FS_FILE_NOT_FOUND (Z.of_nat e)
  end.
Lemma find_ok fs files e path : mounted fs files e ->
  romfs_open_file readf (fuel_of fs) path fs 0
  = Some (find_result (romfsh_is_wofs fs) files e path).
Proof.
  intros [Hfs Hend Hsm]. unfold find_result.
  assert (e < length (image fs))%nat as He by (by apply lookup_lt_Some in Hend).
  pose proof (files_fuel _ _ _ Hfs ltac:(lia)) as Hfuel.
  destruct (locate _ 0 files path) as [[o f]|] eqn:E.
  - apply (open_file_found readf writef fs Hsm path files 0 e); [done|done|lia].
  - by apply (open_file_none readf writef fs Hsm path files 0 e).
Qed.

Lemma del_field_erased img o f : file_at true img o f -> f_deleted f = false ->
  erased img (del_at o (length (f_name f))) (length (del_field true)).
Proof.
  intros [_ _ Hd _ _] Hf k Hk. rewrite Hf in Hd. change (length (del_field true)) with 4%nat in Hk.
  replace k with (del_at o (length (f_name f)) + (k - del_at o (length (f_name f))))%nat by lia.
  rewrite (loads_lookup _ _ _ _ _ Hd) by lia.
  by destruct (k - _)%nat as [|[|[|[|i]]]] eqn:?; [..|lia].
Qed.

(** The deletion that truncating a file starts with. *)
Lemma truncated fs files e path : wofs_idle fs files e ->
  exists fs', match find_result true files e path with
              | FS_FILE_OK base _ _ => fs_write writef (del_field true) (u32 (base - 4 - 4)) fs
              | FS_FILE_NOT_FOUND _ => Some fs
              end = Some fs' /\
    wofs_idle fs' (mark_deleted path files) e /\ fs_flags fs' = fs_flags fs /\
    length (image fs') = length (image fs).
Proof.
  intros Hidle. destruct (idle_end _ _ _ Hidle) as [He _].
  pose proof Hidle as [[Hfs Hend Hsm] Hwo Hnw Her [Hmax Hm4]]. rewrite Hwo in Hfs.
  unfold find_result. destruct (locate true 0 files path) as [[o f]|] eqn:E.
  - destruct (locate_spec true _ _ _ _ _ _ _ Hfs E) as (Hf & Hdel & _ & Hoe).
    pose proof (next_at_ge true o (length (f_name f)) (length (f_data f))) as Hnx.
    pose proof (files_at_delete _ _ _ _ _ _ _ Hfs E) as Hfs'.
    assert (base_at true o (length (f_name f)) = del_at o (length (f_name f)) + 8)%nat as Hb
      by (unfold base_at, size_at; lia).
    rewrite (u32_small (_ - 4 - 4)) by word_lia.
    replace (Z.of_nat (base_at true o (length (f_name f))) - 4 - 4)
      with (Z.of_nat (del_at o (length (f_name f)))) by lia.
    rewrite fs_write_erased; [|done|lia|by_decide|simpl; lia|by apply del_field_erased].
    eexists. split; [reflexivity|].
    assert (del_at o (length (f_name f)) + length (del_field true) <= length (image fs))%nat as Hl
      by (simpl; lia).
    split_and!; [|done|by apply length_splice].
    split; [split| | | |]; cbn [image fs_flags max_size]; rewrite ?length_splice by done; try done.
    + change (romfsh_is_wofs _) with (romfsh_is_wofs fs). by rewrite Hwo.
    + rewrite lookup_splice_old; [done|done|]. right. simpl. lia.
    + apply erased_splice; [done|done|]. right. simpl. lia.
  - exists fs. split_and!; [done| |done|done]. by rewrite (mark_deleted_none true path files 0).
Qed.

Lemma find_result_exists wo files e path :
  match find_result wo files e path with FS_FILE_OK _ _ _ => true | _ => false end
  = bool_decide (is_Some (locate wo 0 files path)).
Proof. unfold find_result. by destruct (locate _ _ _ _) as [[o f]|]. Qed.

(** Creating: a file of that name is deleted first. *)
Lemma open_creates path flags s files e : fds_ok s -> (in_use (fd_table s) < TOTAL_MAX_FDS)%nat ->
  wofs_idle (pfs s) files e -> name_ok path -> locate true 0 files [1] = None ->
  exists r s',
    (fs ← match find_result true files e path with
          | FS_FILE_OK base _ _ => fs_write writef (del_field true) (u32 (base - 4 - 4)) (pfs s)
          | FS_FILE_NOT_FOUND _ => Some (pfs s)
          end;
     create_tail path flags (find_result true files e path) (with_fs s fs))
    = Some (r, if bool_decide (room_for (pfs s) e path) then E_OK else ENOSPC, s') /\
    if bool_decide (room_for (pfs s) e path)
    then exists fd g, r = Z.of_nat fd /\ fd_table s !! fd = Some g /\ unused g /\ fds_ok s' /\
           wofs_writing (pfs s') (mark_deleted path files) e path [] /\
           fd_table s' !! fd
           = Some (mkFD (Z.of_nat (base_at true e (length path))) 0 0 (file_mode flags))
    else r = -1 /\ fd_table s' = fd_table s /\ wofs_idle (pfs s') (mark_deleted path files) e.
Proof.
  intros Hfd Hu Hidle Hok H1.
  destruct (truncated _ _ _ path Hidle) as (fs' & -> & Hidle' & _ & Hlen).
  cbn [mbind option_bind].
  pose proof (create_tail_ok path flags (find_result true files e path) (with_fs s fs') _ e
    Hfd Hu Hidle' Hok (locate_deleted _ path _ _ _ H1)) as Hc.
  cbn [pfs fd_table with_fs] in Hc.
  assert (room_for fs' e path <-> room_for (pfs s) e path) as Hr by (unfold room_for; lia).
  case_decide as Hd; [rewrite bool_decide_true by tauto|rewrite bool_decide_false by tauto].
  - destruct Hc as (i & g & Hg & Hun & ->). eexists _, _. split; [reflexivity|].
    rewrite Nat2Z.id. exists i, g.
    pose proof (begun_writing _ _ _ _ Hidle' Hok Hd) as Hw.
    split_and!; [done|done|done| |exact Hw|].
    + pose proof (fds_open (with_fs s (begun fs' e path))
        (mkFD (Z.of_nat (base_at true e (length path))) 0 0 (file_mode flags)) i g) as Ho.
      apply Ho; [done|done|done|]. eapply fd_of_base; [done|].
      destruct Hw as [_ _ _ _ _ _ _ _ _ Hroom (_ & _ & Hsm) _]. lia.
    + simpl. apply list_lookup_insert_eq. by apply lookup_lt_Some in Hg.
  - rewrite Hc. eexists _, _. split; [reflexivity|]. by split_and!.
Qed.

(** What opening [path] reports on a write-once file system that nobody writes
    to: [full] when no descriptor is free, [found] when the file exists, [room]
    when a new entry fits. *)
Definition open_errno (flags : Z) (full found room : bool) : errno :=
  if full then ENFILE
  else if is_set flags (O_CREAT c) && is_set flags (O_EXCL c) && found then EEXIST
  else if creates flags found then (if room then E_OK else ENOSPC)
  else if wants_write flags then EACCES
  else if found then E_OK else ENOENT.

(** Every outcome of opening a file of an idle write-once file system.
    The error is that of [open_errno]; the call fails with -1 exactly when
    there is one.  On success the result is a free descriptor: for a new file
    nothing is written yet but its name, and the descriptor is the one it is
    written through; an existing file is opened at its start.  A file that is
    truncated is deleted, even when there is then no room to create it again;
    in all other error cases nothing changes. *)
Theorem wofs_open_spec path flags mode s files e : fds_ok s -> wofs_idle (pfs s) files e ->
  name_ok path -> locate true 0 files [1] = None ->
  let full := bool_decide (in_use (fd_table s) = TOTAL_MAX_FDS) in
  let found := locate true 0 files path in
  let room := bool_decide (room_for (pfs s) e path) in
  exists r s', romfs_open_r readf writef c path flags mode s
      = Some (r, open_errno flags full (bool_decide (is_Some found)) room, s') /\
    match open_errno flags full (bool_decide (is_Some found)) room with
    | E_OK => exists fd g, r = Z.of_nat fd /\ fd_table s !! fd = Some g /\ unused g /\ fds_ok s' /\
        if creates flags (bool_decide (is_Some found))
        then wofs_writing (pfs s') (mark_deleted path files) e path [] /\
             fd_table s' !! fd
             = Some (mkFD (Z.of_nat (base_at true e (length path))) 0 0 (file_mode flags))
        else exists o f, found = Some (o, f) /\ pfs s' = pfs s /\
             fd_table s' !! fd
             = Some (mkFD (Z.of_nat (base_at true o (length (f_name f)))) 0
                       (Z.of_nat (length (f_data f))) (file_mode flags))
    | ENOSPC => r = -1 /\ fd_table s' = fd_table s /\
        wofs_idle (pfs s') (mark_deleted path files) e
    | _ => r = -1 /\ s' = s
    end.
Proof.
  intros Hfd Hidle Hok H1 full found room. pose proof Hidle as [Hmt Hwo Hnw _ _].
  unfold full. case_bool_decide as Hfull.
  { exists (-1), s. unfold open_errno. split; [|done]. unfold romfs_open_r.
    destruct Hfd as [_ ->]. by rewrite (proj2 (Z.eqb_eq _ _)) by lia. }
  assert (in_use (fd_table s) < TOTAL_MAX_FDS)%nat as Hu
    by (pose proof (in_use_le (fd_table s)); destruct Hfd; lia).
  pose proof (find_ok _ _ _ path Hmt) as Hfind. rewrite Hwo in Hfind.
  rewrite (open_opened path flags mode s _ Hu Hfd Hfind). unfold opened.
  rewrite find_result_exists. fold found. rewrite Hwo, Hnw. unfold open_errno.
  set (ex := bool_decide (is_Some found)).
  destruct (is_set flags (O_CREAT c) && is_set flags (O_EXCL c) && ex); [by eauto|].
  cbn [negb]. rewrite !andb_false_r.
  destruct (creates flags ex) eqn:Hcr; cbn [negb]; rewrite ?andb_false_r, ?andb_true_r.
  - destruct (open_creates path flags s files e Hfd Hu Hidle Hok H1) as (r & s' & Heq & Hr).
    fold room in Heq, Hr. exists r, s'. split; [exact Heq|]. by destruct room.
  - destruct (wants_write flags) eqn:Hww; [by eauto|].
    unfold find_result. fold found. unfold ex. destruct found as [[o f]|] eqn:Hfo; [|by exists (-1), s].
    cbn [bool_decide]. destruct (find_empty_fd (fd_table s)) as (i & g & Hi & Hg & Hun);
      [apply Hfd|done|].
    rewrite Hi, (proj2 (Z.ltb_ge _ _)) by lia. eexists _, _. split; [reflexivity|].
    rewrite Nat2Z.id. exists i, g. split_and!; [done|done|done| |].
    + eapply fds_open; [done|done|done|]. eapply fd_of_base; [done|].
      destruct Hmt as [Hfs Hend Hsm]. rewrite Hwo in Hfs. apply lookup_lt_Some in Hend.
      destruct (locate_spec true _ _ _ _ _ _ _ Hfs Hfo) as (_ & _ & _ & Hoe).
      pose proof (next_at_ge true o (length (f_name f)) (length (f_data f))). lia.
    + exists o, f. split_and!; [done|done|]. simpl. apply list_lookup_insert_eq.
      by apply lookup_lt_Some in Hg.
Qed.

(** *** Reading *)

(** Descriptor [fd] reads the file [f] at [o] and is at position [pos]. *)
Record reader (s : romfs) (fd : nat) (o : nat) (f : rfile) (pos : nat) : Prop := {
  rd_small : Z.of_nat (length (image (pfs s))) < 2 ^ 31;
  rd_file : file_at (romfsh_is_wofs (pfs s)) (image (pfs s)) o f;
  rd_pos : (pos <= length (f_data f))%nat;
  rd_fd : exists fl, fd_table s !! fd
    = Some (mkFD (Z.of_nat (base_at (romfsh_is_wofs (pfs s)) o (length (f_name f))))
        (Z.of_nat pos) (Z.of_nat (length (f_data f))) fl) /\ is_set fl ROMFS_FILE_FLAG_READ = true
}.

Lemma reader_set s fd o f pos pos' fl : reader s fd o f pos -> (pos' <= length (f_data f))%nat ->
  is_set fl ROMFS_FILE_FLAG_READ = true ->
  reader (set_fd s fd (mkFD (Z.of_nat (base_at (romfsh_is_wofs (pfs s)) o (length (f_name f))))
    (Z.of_nat pos') (Z.of_nat (length (f_data f))) fl)) fd o f pos'.
Proof.
  intros [Hsm Hf Hp (fl' & Hfd & _)] Hp' Hfl. split; [done|done|done|].
  exists fl. split; [|done]. simpl. apply list_lookup_insert_eq. by apply lookup_lt_Some in Hfd.
Qed.

Lemma read_r_ok s fd o f pos len : reader s fd o f pos -> is_u32 len ->
  let n := (Z.to_nat len `min` (length (f_data f) - pos))%nat in
  exists s', romfs_read_r readf fd len s
      = Some (Z.of_nat n, E_OK, take n (drop pos (f_data f)), s') /\
    reader s' fd o f (pos + n) /\ pfs s' = pfs s.
Proof.
  intros Hr Hlen n. pose proof Hr as [Hsm Hf Hp (fl & Hfd & Hfl)].
  pose proof (fa_data _ _ _ _ Hf) as Hd. pose proof (loads_bound _ _ _ _ Hd) as Hb.
  set (base := base_at _ o _) in *.
  unfold romfs_read_r. rewrite Hfd. cbn [mbind option_bind size offset baseaddr fd_flags].
  rewrite Hfl. cbn [negb].
  rewrite (u32_small (Z.of_nat (length (f_data f)) - Z.of_nat pos)) by word_lia.
  assert (Z.of_nat n = if len <? Z.of_nat (length (f_data f)) - Z.of_nat pos
    then len else Z.of_nat (length (f_data f)) - Z.of_nat pos) as <-.
  { unfold n. destruct (Z.ltb_spec len (Z.of_nat (length (f_data f)) - Z.of_nat pos)); word_lia. }
  rewrite (u32_small (Z.of_nat pos + Z.of_nat base)) by word_lia.
  assert (loads (image (pfs s)) (Z.to_nat (Z.of_nat pos + Z.of_nat base)) (Z.to_nat (Z.of_nat n))
    = Some (take n (drop pos (f_data f)))) as Hl.
  { rewrite Nat2Z.id. replace (Z.to_nat (Z.of_nat pos + Z.of_nat base)) with (base + pos)%nat by lia.
    apply (loads_sub _ _ _ _ _ _ Hd). unfold n. lia. }
  assert (length (take n (drop pos (f_data f))) = n) as Hln
    by (rewrite length_take, length_drop; unfold n; lia).
  rewrite (device_read (writef := writef)) by (unfold n in *; lia). rewrite Hl.
  assert (forall b : bool, (if b then Some (take n (drop pos (f_data f)))
    else Some (take n (drop pos (f_data f)))) = Some (take n (drop pos (f_data f)))) as Hif
    by (by intros []).
  rewrite Hif. cbn [mbind option_bind]. rewrite Hln.
  rewrite (u32_small (Z.of_nat pos + Z.of_nat n)) by (unfold n; word_lia).
  rewrite <- Nat2Z.inj_add. eexists. split; [reflexivity|]. split; [|done].
  apply (reader_set s fd o f pos); [done|unfold n; lia|done].
Qed.

Lemma take_min_drop {A} (l : list A) a b k : k = length l ->
  take (a `min` k) l ++ take b (drop (a `min` k) l) = take (a + b) l.
Proof.
  intros ->. rewrite take_take_drop. destruct (decide (a <= length l)%nat).
  - by rewrite Nat.min_l by done.
  - rewrite !take_ge by lia. done.
Qed.

(** Reads of the given lengths, one after the other: what they return. *)
Fixpoint read_all (fd : nat) (lens : list Z) (s : romfs) : option (list (list Z) * romfs) :=
  match lens with
  | [] => Some ([], s)
  | n :: lens =>
      '(_, _, bs, s) ← romfs_read_r readf fd n s;
      '(rest, s) ← read_all fd lens s; Some (bs :: rest, s)
  end.
(** As many bytes as the reads ask for, summed up. *)
Definition total (lens : list Z) : nat := sum_list (map Z.to_nat lens).

(** Reading a file in pieces of any sizes yields its bytes in order: the
    pieces together are the next bytes of the file, as many as were asked for
    or all that are left, and reads at the end return nothing. *)
Theorem romfs_reads_in_order lens s fd o f pos : reader s fd o f pos -> Forall is_u32 lens ->
  exists pieces s', read_all fd lens s = Some (pieces, s') /\
    concat pieces = take (total lens) (drop pos (f_data f)) /\
    reader s' fd o f ((pos + total lens) `min` length (f_data f)).
Proof.
  revert s pos. induction lens as [|n lens IH]; intros s pos Hr Hl.
  - exists [], s. split_and!; [done|done|]. cbn [total map sum_list].
    replace ((pos + 0) `min` length (f_data f))%nat with pos; [done|].
    destruct Hr as [_ _ Hp _]. unfold total. simpl. lia.
  - apply Forall_cons in Hl as [Hn Hl]. cbn [read_all].
    destruct (read_r_ok s fd o f pos n Hr Hn) as (s1 & -> & Hr1 & _). cbn [mbind option_bind].
    destruct (IH s1 _ Hr1 Hl) as (ps & s2 & -> & Hps & Hr2). cbn [mbind option_bind].
    eexists _, _. split_and!; [reflexivity| |].
    + cbn [concat]. rewrite Hps.
      change (total (n :: lens)) with (Z.to_nat n + total lens)%nat.
      rewrite <- drop_drop. apply take_min_drop. by rewrite length_drop.
    + change (total (n :: lens)) with (Z.to_nat n + total lens)%nat.
      destruct Hr as [_ _ Hp _]. revert Hr2.
      replace ((pos + Z.to_nat n `min` (length (f_data f) - pos) + total lens)
        `min` length (f_data f))%nat
        with ((pos + (Z.to_nat n + total lens)) `min` length (f_data f))%nat by lia. done.
Qed.

Lemma open_reader s files e path flags mode o f : fds_ok s ->
  (in_use (fd_table s) < TOTAL_MAX_FDS)%nat -> mounted (pfs s) files e ->
  locate (romfsh_is_wofs (pfs s)) 0 files path = Some (o, f) ->
  wants_write flags = false -> is_set flags (O_CREAT c) && is_set flags (O_EXCL c) = false ->
  exists fd s', romfs_open_r readf writef c path flags mode s = Some (Z.of_nat fd, E_OK, s') /\
    reader s' fd o f 0 /\ pfs s' = pfs s.
Proof.
  intros Hfd Hu [Hfs Hend Hsm] Hloc Hw Hx. apply lookup_lt_Some in Hend.
  destruct (open_read_ok s files e path flags mode o f) as (i & g & Hg & _ & ->); try done; [lia|].
  eexists i, _. split; [unfold new_fd; by rewrite Nat2Z.id|]. split; [|done].
  destruct (locate_spec _ _ _ _ _ _ _ _ Hfs Hloc) as (Hf & _).
  split; [done|done|simpl; lia|]. exists ROMFS_FILE_FLAG_READ. split; [|done]. simpl.
  apply list_lookup_insert_eq. by apply lookup_lt_Some in Hg.
Qed.

(** *** Seeking *)

(** The position an [lseek] asks for. *)
Definition seek_target (pos sz off whence : Z) : option Z :=
  if whence =? SEEK_SET c then Some off
  else if whence =? SEEK_CUR c then Some (pos + off)
  else if whence =? SEEK_END c then Some (sz + off)
  else None.

(** Seeking moves to exactly the position asked for when it lies in the
    file or at its end, and fails with -1 without any effect otherwise: a
    negative position wraps to an unsigned one beyond the end of any file. *)
Theorem romfs_lseek_spec s fd o f pos off whence : reader s fd o f pos -> - 2 ^ 31 <= off < 2 ^ 31 ->
  match seek_target (Z.of_nat pos) (Z.of_nat (length (f_data f))) off whence with
  | Some p =>
      if bool_decide (0 <= p <= Z.of_nat (length (f_data f)))
      then exists s', romfs_lseek_r c fd off whence s = Some (p, s') /\
             reader s' fd o f (Z.to_nat p) /\ pfs s' = pfs s
      else romfs_lseek_r c fd off whence s = Some (-1, s)
  | None => romfs_lseek_r c fd off whence s = Some (-1, s)
  end.
Proof.
  intros Hr Hoff. pose proof Hr as [Hsm Hf Hp (fl & Hfd & Hfl)].
  pose proof (loads_bound _ _ _ _ (fa_data _ _ _ _ Hf)) as Hb.
  assert (forall p, - 2 ^ 31 <= p < 2 ^ 32 ->
    let r := if u32 p >? Z.of_nat (length (f_data f)) then Some (-1, s)
             else Some (u32 p, set_fd s fd (mkFD
               (Z.of_nat (base_at (romfsh_is_wofs (pfs s)) o (length (f_name f))))
               (u32 p) (Z.of_nat (length (f_data f))) fl)) in
    if bool_decide (0 <= p <= Z.of_nat (length (f_data f)))
    then exists s', r = Some (p, s') /\ reader s' fd o f (Z.to_nat p) /\ pfs s' = pfs s
    else r = Some (-1, s)) as Hgo.
  { intros p Hpr r. unfold r. rewrite Z.gtb_ltb. case_bool_decide as Hin.
    - rewrite u32_small by word_lia. rewrite (proj2 (Z.ltb_ge _ _)) by lia.
      eexists. split; [reflexivity|]. split; [|done].
      rewrite <- (Z2Nat.id p) at 1 by lia. apply (reader_set s fd o f pos); [done|lia|done].
    - rewrite (proj2 (Z.ltb_lt _ _)); [done|].
      destruct (decide (0 <= p)).
      + rewrite u32_small by word_lia. lia.
      + assert (u32 p = p + 2 ^ 32) as ->; [|lia].
        unfold u32, wrap. rewrite <- (Z_mod_plus_full p 1). apply Z.mod_small. lia. }
  unfold romfs_lseek_r, seek_target. rewrite Hfd. cbn [mbind option_bind offset size baseaddr fd_flags].
  destruct (_ =? _); [by apply Hgo; lia|]. destruct (_ =? _); [by apply Hgo; lia|].
  destruct (_ =? _); [by apply Hgo; lia|done].
Qed.

(** *** Storing a file and fetching it again *)

(** Writes of the given pieces, one after the other: what they return. *)
Fixpoint write_all (fd : nat) (pieces : list (list Z)) (s : romfs) : option (list Z * romfs) :=
  match pieces with
  | [] => Some ([], s)
  | bs :: pieces =>
      '(n, _, s) ← romfs_write_r writef fd bs s;
      '(rest, s) ← write_all fd pieces s; Some (n :: rest, s)
  end.

Lemma write_num fd bs s n er s' : romfs_write_r writef fd bs s = Some (n, er, s') ->
  romfs_num_fd s' = romfs_num_fd s.
Proof.
  unfold romfs_write_r, err. intros H. destruct (fd_table s !! fd) as [f|]; [|done].
  cbn [mbind option_bind] in H. destruct (negb (can_write f)); [by inversion H|].
  destruct (negb _); [by inversion H|].
  destruct (loads bs 0 _); [|done]. cbn [mbind option_bind] in H.
  destruct (fs_write _ _ _ _); [|done]. by inversion H.
Qed.
Lemma write_all_ok fd files e nm pieces : forall s data, writer s fd files e nm data ->
  Forall (fun bs => Forall is_u8 bs /\ Z.of_nat (length bs) < 2 ^ 31) pieces ->
  (base_at true e (length nm) + length (data ++ concat pieces) + 4 <= length (image (pfs s)))%nat ->
  exists s', write_all fd pieces s = Some (map (fun bs => Z.of_nat (length bs)) pieces, s') /\
    writer s' fd files e nm (data ++ concat pieces) /\ in_use (fd_table s') = in_use (fd_table s).
Proof.
  induction pieces as [|bs pieces IH]; intros s data Hw Hb Hfit; cbn [write_all map concat] in *.
  { exists s. by rewrite app_nil_r. }
  apply Forall_cons in Hb as [[Hb Hbl] Hbs].
  destruct (write_r_ok s fd files e nm data bs Hw Hb Hbl) as (s1 & Heq & Hw1 & Hlen).
  rewrite !length_app in Hfit.
  assert (fits_in (pfs s) e nm data bs = length bs) as Hn by (unfold fits_in; lia).
  rewrite Hn in Heq, Hw1. rewrite take_ge in Hw1 by lia. rewrite Heq. cbn [mbind option_bind].
  destruct (IH s1 (data ++ bs) Hw1 Hbs) as (s2 & -> & Hw2 & Hu2);
    [rewrite !length_app, Hlen; lia|].
  cbn [mbind option_bind]. rewrite <- app_assoc in Hw2. exists s2. split_and!; [done|done|].
  rewrite Hu2. destruct Hw as [[_ Hc] _ _], Hw1 as [[_ Hc1] _ _].
  apply write_num in Heq. lia.
Qed.

Lemma locate_app wo fname fs1 fs2 e : forall off img, files_at wo img off fs1 e ->
  locate wo off fs1 fname = None -> locate wo off (fs1 ++ fs2) fname = locate wo e fs2 fname.
Proof.
  induction fs1 as [|f fs1 IH]; intros off img Hfs Hl; inversion Hfs as [|? ? ? ? Hf Hr]; subst;
    [done|]. cbn [app locate] in *. destruct (matches fname f); [done|]. by apply (IH _ img).
Qed.
Lemma matches_self nm data : (length nm <= DM_MAX_FNAME_LENGTH)%nat ->
  matches nm (RFile nm false data) = true.
Proof.
  intros _. unfold matches. cbn [f_name f_deleted negb]. rewrite andb_true_r.
  generalize DM_MAX_FNAME_LENGTH. induction nm as [|x nm IH]; intros [|n]; [done..|].
  cbn [strncaseeq]. by rewrite Z.eqb_refl, IH.
Qed.

(** A new file is opened for writing. *)
Lemma open_new path flags mode s files e : fds_ok s -> (in_use (fd_table s) < TOTAL_MAX_FDS)%nat ->
  wofs_idle (pfs s) files e -> name_ok path -> locate true 0 files [1] = None ->
  locate true 0 files path = None -> is_set flags (O_CREAT c) = true -> wants_write flags = true ->
  room_for (pfs s) e path ->
  exists fd s', romfs_open_r readf writef c path flags mode s = Some (Z.of_nat fd, E_OK, s') /\
    writer s' fd files e path [] /\ length (image (pfs s')) = length (image (pfs s)) /\
    in_use (fd_table s') = S (in_use (fd_table s)).
Proof.
  intros Hfd Hu Hidle Hok H1 Hnew Hcreat Hww Hroom.
  pose proof Hidle as [Hmt Hwo Hnw _ _]. pose proof (find_ok _ _ _ path Hmt) as Hfind.
  rewrite Hwo in Hfind. unfold find_result in Hfind. rewrite Hnew in Hfind.
  rewrite (open_opened path flags mode s _ Hu Hfd Hfind). unfold opened, creates.
  rewrite Hcreat, Hwo, Hnw, Hww. cbn [andb orb negb]. rewrite !andb_false_r. cbn [mbind option_bind].
  pose proof (create_tail_ok path flags (FS_FILE_NOT_FOUND (Z.of_nat e)) s files e
    Hfd Hu Hidle Hok H1) as Hc. rewrite decide_True in Hc by done.
  destruct Hc as (i & g & Hg & Hun & Hc).
  assert (with_fs s (pfs s) = s) as -> by (by destruct s).
  exists i. eexists. split; [exact Hc|]. cbn [new_fd].
  pose proof (begun_writing _ _ _ _ Hidle Hok Hroom) as Hw.
  set (f := mkFD _ _ _ _). assert (~ unused f) as Hf.
  { eapply (fd_of_base f); [reflexivity|].
    destruct Hw as [_ _ _ _ _ _ _ _ _ Hr (_ & _ & Hsm) _]. lia. }
  rewrite Nat2Z.id. split_and!.
  - split; [by apply (fds_open (with_fs s (begun (pfs s) e path)) f i g)|exact Hw|].
    exists (file_mode flags). split; [|by rewrite file_mode_write]. simpl.
    apply list_lookup_insert_eq. by apply lookup_lt_Some in Hg.
  - simpl. apply length_splice. unfold room_for in Hroom. pose proof (length_cstr path). lia.
  - pose proof (in_use_insert (fd_table s) i g f Hg) as Hi.
    rewrite decide_True, decide_False in Hi by done. cbn [fd_table with_fs] in *. lia.
Qed.

(** What [wofs_store_fetch] states, for use on other devices. *)
Lemma store_fetch path flags mode rflags rmode pieces n s files e :
  fds_ok s -> (in_use (fd_table s) < TOTAL_MAX_FDS)%nat -> wofs_idle (pfs s) files e ->
  name_ok path -> locate true 0 files [1] = None -> locate true 0 files path = None ->
  is_set flags (O_CREAT c) = true -> wants_write flags = true ->
  wants_write rflags = false -> is_set rflags (O_CREAT c) = false ->
  Forall (fun bs => Forall is_u8 bs /\ Z.of_nat (length bs) < 2 ^ 31) pieces ->
  room_for (pfs s) e path ->
  (base_at true e (length path) + length (concat pieces) + 4 <= length (image (pfs s)))%nat ->
  is_u32 n -> Z.of_nat (length (concat pieces)) <= n ->
  exists fd fd' s1 s2 s3 s4 s5,
    romfs_open_r readf writef c path flags mode s = Some (Z.of_nat fd, E_OK, s1) /\
    write_all fd pieces s1 = Some (map (fun bs => Z.of_nat (length bs)) pieces, s2) /\
    romfs_close_r writef fd s2 = Some (0, s3) /\
    wofs_idle (pfs s3) (files ++ [RFile path false (concat pieces)])
      (next_at true e (length path) (length (concat pieces))) /\
    romfs_open_r readf writef c path rflags rmode s3 = Some (Z.of_nat fd', E_OK, s4) /\
    romfs_read_r readf fd' n s4
    = Some (Z.of_nat (length (concat pieces)), E_OK, concat pieces, s5).
Proof.
  intros Hfd Hu Hidle Hok H1 Hnew Hcreat Hww Hrw Hrc Hb Hroom Hfit Hn Hnl.
  pose proof Hidle as [[Hfs _ _] Hwo _ _ _]. rewrite Hwo in Hfs.
  destruct (open_new path flags mode s files e) as (fd & s1 & Ho & Hw1 & Hlen & Hu1); try done.
  destruct (write_all_ok fd files e path pieces s1 [] Hw1 Hb) as (s2 & Hw & Hw2 & Hu2);
    [simpl; lia|]. simpl in Hw2.
  destruct (close_r_ok s2 fd files e path _ Hw2) as (s3 & Hc & Hfd3 & Hidle3 & Hu3).
  pose proof Hidle3 as [Hmt3 Hwo3 _ _ _].
  assert (locate (romfsh_is_wofs (pfs s3)) 0 (files ++ [RFile path false (concat pieces)]) path
    = Some (e, RFile path false (concat pieces))) as Hl.
  { rewrite Hwo3, (locate_app _ _ _ _ _ _ _ Hfs Hnew). cbn [locate].
    rewrite matches_self; [done|apply Hok]. }
  destruct (open_reader s3 _ _ path rflags rmode _ _ Hfd3 ltac:(lia) Hmt3 Hl Hrw)
    as (fd' & s4 & Ho4 & Hr4 & _); [by rewrite Hrc|].
  destruct (read_r_ok s4 fd' _ _ 0 n Hr4 Hn) as (s5 & Hr5 & _).
  exists fd, fd', s1, s2, s3, s4, s5. split_and!; [done..|]. rewrite Hr5. cbn [f_data].
  rewrite drop_0, Nat.sub_0_r, Nat.min_r by lia. by rewrite take_ge by lia.
Qed.
(** C2: a file stored in a write-once file system can be fetched again.
    Creating a file that does not exist, writing its contents in pieces of any
    sizes as long as they fit, and closing it leaves the file system idle with
    the file behind those that were there before; and opening it then and
    reading as many bytes as it has, or more, returns exactly what was written.
    Every step returns what it should: a descriptor, the length of each piece,
    0, a descriptor, and the length of the file. *)
Theorem wofs_store_fetch path flags mode rflags rmode pieces n s files e :
  fds_ok s -> (in_use (fd_table s) < TOTAL_MAX_FDS)%nat -> wofs_idle (pfs s) files e ->
  name_ok path -> locate true 0 files [1] = None -> locate true 0 files path = None ->
  is_set flags (O_CREAT c) = true -> wants_write flags = true ->
  wants_write rflags = false -> is_set rflags (O_CREAT c) = false ->
  Forall (fun bs => Forall is_u8 bs /\ Z.of_nat (length bs) < 2 ^ 31) pieces ->
  room_for (pfs s) e path ->
  (base_at true e (length path) + length (concat pieces) + 4 <= length (image (pfs s)))%nat ->
  is_u32 n -> Z.of_nat (length (concat pieces)) <= n ->
  exists fd fd' s1 s2 s3 s4 s5,
    romfs_open_r readf writef c path flags mode s = Some (Z.of_nat fd, E_OK, s1) /\
    write_all fd pieces s1 = Some (map (fun bs => Z.of_nat (length bs)) pieces, s2) /\
    romfs_close_r writef fd s2 = Some (0, s3) /\
    wofs_idle (pfs s3) (files ++ [RFile path false (concat pieces)])
      (next_at true e (length path) (length (concat pieces))) /\
    romfs_open_r readf writef c path rflags rmode s3 = Some (Z.of_nat fd', E_OK, s4) /\
    romfs_read_r readf fd' n s4
    = Some (Z.of_nat (length (concat pieces)), E_OK, concat pieces, s5).
Proof. apply store_fetch. Qed.

(** *** Listing *)

(** [n] calls of [readdir]: what they return. *)
Fixpoint readdir_all (n : nat) (s : romfs) : option (list (option (list Z * Z)) * romfs) :=
  match n with
  | O => Some ([], s)
  | S n =>
      '(r, s) ← romfs_readdir_r readf s;
      '(rest, s) ← readdir_all n s; Some (r :: rest, s)
  end.

Lemma readdir_all_ok n : forall s k files all e, mounted (pfs s) all e ->
  romfs_dir_data s = Z.of_nat k -> files_at (romfsh_is_wofs (pfs s)) (image (pfs s)) k files e ->
  exists s', readdir_all n s
      = Some (take n (map Some (entries files)) ++
              replicate (n - length (entries files)) None, s') /\ pfs s' = pfs s.
Proof.
  induction n as [|n IH]; intros s k files all e Hmt Hk Hfs; [by exists s|].
  cbn [readdir_all]. unfold romfs_readdir_r. rewrite Hk. destruct Hmt as [Hall Hend Hsm] eqn:Em.
  pose proof (lookup_lt_Some _ _ _ Hend) as Hlt. pose proof (files_at_bounds _ _ _ _ _ Hfs).
  destruct (readdir_loop_ok readf writef (pfs s) Hsm files k e (fuel_of (pfs s)) Hfs Hend)
    as (r & -> & Hr); [unfold fuel_of; lia|]. cbn [mbind option_bind].
  destruct r as [[[nm sz] off]|].
  - destruct Hr as (k' & rest & -> & Hrest & -> & _).
    cbn [mbind option_bind map length take Nat.sub app].
    destruct (IH (mkRomfs (fd_table s) (romfs_num_fd s) (Z.of_nat k') (pfs s)) k' rest all e
      Hmt eq_refl Hrest) as (s' & -> & Hs'). by exists s'.
  - rewrite Hr. cbn [mbind option_bind map length take Nat.sub app replicate].
    destruct (IH s k files all e Hmt Hk Hfs) as (s' & -> & Hs'). exists s'. split; [|done].
    cbn [mbind option_bind]. rewrite Hr. cbn [map length]. rewrite Nat.sub_0_r. by destruct n.
Qed.

(** Listing the root directory of a mounted file system yields its files
    that are not deleted, each once, in the order in which they are stored,
    with their names and sizes; every further call reports the end. *)
Theorem romfs_readdir_lists s files e n : mounted (pfs s) files e ->
  exists s', readdir_all (length (entries files) + n) (snd (romfs_opendir_r (Some [47]) s))
      = Some (map Some (entries files) ++ replicate n None, s') /\ pfs s' = pfs s.
Proof.
  intros Hmt. pose proof Hmt as [Hfs _ _].
  destruct (readdir_all_ok (length (entries files) + n) (snd (romfs_opendir_r (Some [47]) s))
    0 files files e Hmt eq_refl Hfs) as (s' & -> & Hs'). exists s'. split; [|done].
  rewrite take_ge by (rewrite length_map; apply Nat.le_add_r).
  do 4 f_equal. rewrite Nat.add_comm. apply Nat.add_sub.
Qed.

(** *** Creating a file for reading only *)

(** A file system on which a file is created for reading only never
    accepts another writer.  The creation succeeds and marks the file system
    as being written to; the mark is removed by closing a descriptor that is
    open for writing, and this one is not, so it stays after the close, and
    the new entry has no size: the bytes of the size field are still erased. *)
Theorem wofs_create_readonly path flags mode s files e : fds_ok s ->
  (in_use (fd_table s) < TOTAL_MAX_FDS)%nat -> wofs_idle (pfs s) files e -> name_ok path ->
  locate true 0 files [1] = None -> locate true 0 files path = None ->
  is_set flags (O_CREAT c) = true -> wants_write flags = false -> room_for (pfs s) e path ->
  exists fd s1 s2,
    romfs_open_r readf writef c path flags mode s = Some (Z.of_nat fd, E_OK, s1) /\
    romfs_close_r writef fd s1 = Some (0, s2) /\
    is_set (fs_flags (pfs s2)) ROMFS_FS_FLAG_WRITING = true /\
    erased (image (pfs s2)) (size_at true e (length path)) 4.
Proof.
  intros Hfd Hu Hidle Hok H1 Hnew Hcreat Hww Hroom.
  pose proof Hidle as [Hmt Hwo Hnw _ _]. pose proof (find_ok _ _ _ path Hmt) as Hfind.
  rewrite Hwo in Hfind. unfold find_result in Hfind. rewrite Hnew in Hfind.
  rewrite (open_opened path flags mode s _ Hu Hfd Hfind). unfold opened, creates.
  rewrite Hcreat, Hwo, Hww. cbn [andb orb negb]. rewrite !andb_false_r. cbn [mbind option_bind].
  pose proof (create_tail_ok path flags (FS_FILE_NOT_FOUND (Z.of_nat e)) s files e
    Hfd Hu Hidle Hok H1) as Hc. rewrite decide_True in Hc by done.
  destruct Hc as (i & g & Hg & Hun & Hc).
  assert (with_fs s (pfs s) = s) as -> by (by destruct s).
  pose proof (begun_writing _ _ _ _ Hidle Hok Hroom) as [_ _ Hw _ _ Hh _ _ _ _ _ _].
  exists i. eexists _, _. split; [exact Hc|]. split.
  - unfold romfs_close_r. cbn [fd_table]. rewrite Nat2Z.id, list_lookup_insert_eq
      by (by apply lookup_lt_Some in Hg). cbn [mbind option_bind].
    assert (can_write (mkFD (Z.of_nat (base_at true e (length path))) 0 0 (file_mode flags)) = false)
      as -> by (unfold can_write; cbn [fd_flags]; by rewrite file_mode_write).
    reflexivity.
  - cbn [pfs]. split; [exact Hw|]. pose proof (align4_spec (e + length path + 1)).
    eapply erased_sub; [exact Hh|..]; unfold base_at, size_at, del_at; lia.
Qed.
End Ops.

(** ** Concrete file systems *)

(** A write-once file system of 64 bytes in flash, and a read-only one that
    holds one file, "a" with the contents "hi". *)
Definition blank : romfs :=
  romfs_init (wofs_format (mkFS (replicate 64 0) ROMFS_FS_FLAG_WO 64)).
Definition one_file : romfs :=
  romfs_init (mkFS ([97; 0; 0; 0] ++ le32 2 ++ [104; 105; 0xFF]) ROMFS_FS_FLAG_DIRECT 11).

Lemma blank_idle : wofs_idle (pfs blank) [] 0.
Proof.
  split; [split| | | |]; try by_decide.
  - constructor.
  - intros k Hk. change (length (image (pfs blank)) - 0)%nat with 64%nat in Hk.
    change (image (pfs blank)) with (replicate 64 WOFS_END_MARKER_CHAR).
    apply lookup_replicate_2. lia.
Qed.
Lemma init_fds fs : fds_ok (romfs_init fs).
Proof. by_decide. Qed.
Definition file_a : rfile := RFile [97] false [104; 105].
Lemma one_file_at : file_at false (image (pfs one_file)) 0 file_a.
Proof. split; by_decide. Qed.
Lemma one_file_mounted : mounted (pfs one_file) [file_a] 10.
Proof.
  split; [|by_decide|by_decide]. change (romfsh_is_wofs (pfs one_file)) with false.
  constructor; [exact one_file_at|constructor].
Qed.
Definition one_file_open : romfs :=
  mkRomfs (<[0%nat := mkFD 8 0 2 ROMFS_FILE_FLAG_READ]> (fd_table one_file)) 1 0 (pfs one_file).
Lemma one_file_reader : reader one_file_open 0 0 file_a 0.
Proof.
  split; [by_decide|exact one_file_at|simpl; lia|].
  exists ROMFS_FILE_FLAG_READ. split; reflexivity.
Qed.

Lemma wofs_open_spec_witness : exists r s',
  romfs_open_r file_read flash_write newlib_fcntl [98] 0x201 0 blank = Some (r, E_OK, s').
Proof.
  destruct (wofs_open_spec file_read flash_write newlib_fcntl [98] 0x201 0 blank [] 0
    (init_fds _) blank_idle ltac:(by_decide) eq_refl) as (r & s' & H & _).
  exists r, s'. exact H.
Defined.

Lemma wofs_store_fetch_witness : exists fd fd' s1 s2 s3 s4 s5,
  romfs_open_r file_read flash_write newlib_fcntl [98] 0x201 0 blank = Some (Z.of_nat fd, E_OK, s1) /\
  write_all flash_write fd [[1; 2; 3]; []; [4]] s1 = Some ([3; 0; 1], s2) /\
  romfs_close_r flash_write fd s2 = Some (0, s3) /\
  romfs_open_r file_read flash_write newlib_fcntl [98] 0 0 s3 = Some (Z.of_nat fd', E_OK, s4) /\
  romfs_read_r file_read fd' 10 s4 = Some (4, E_OK, [1; 2; 3; 4], s5).
Proof.
  destruct (wofs_store_fetch file_read flash_write newlib_fcntl [98] 0x201 0 0 0
    [[1; 2; 3]; []; [4]] 10 blank [] 0) as (fd & fd' & s1 & s2 & s3 & s4 & s5 & H1 & H2 & H3 & _ & H4 & H5);
    try by_decide.
  - exact blank_idle.
  - by exists fd, fd', s1, s2, s3, s4, s5.
Defined.

Lemma romfs_reads_in_order_witness : exists pieces s',
  read_all file_read 0 [1; 5; 3] one_file_open = Some (pieces, s') /\ concat pieces = [104; 105].
Proof.
  destruct (romfs_reads_in_order file_read flash_write [1; 5; 3] one_file_open 0 0 file_a 0
    one_file_reader ltac:(by_decide)) as (ps & s' & H & Hc & _).
  exists ps, s'. split; [exact H|]. rewrite Hc. reflexivity.
Defined.

Lemma romfs_lseek_spec_witness :
  romfs_lseek_r newlib_fcntl 0 (-1) (SEEK_SET newlib_fcntl) one_file_open = Some (-1, one_file_open).
Proof.
  exact (romfs_lseek_spec newlib_fcntl one_file_open 0 0 file_a 0 (-1) (SEEK_SET newlib_fcntl)
    one_file_reader ltac:(lia)).
Defined.

Lemma romfs_readdir_lists_witness : exists s',
  readdir_all file_read 3 (snd (romfs_opendir_r (Some [47]) one_file))
  = Some ([Some ([97], 2); None; None], s').
Proof.
  destruct (romfs_readdir_lists file_read flash_write one_file [file_a] 10 2 one_file_mounted)
    as (s' & H & _). exists s'. exact H.
Defined.

Lemma wofs_create_readonly_witness : exists fd s1 s2,
  romfs_open_r file_read flash_write newlib_fcntl [98] 0x200 0 blank = Some (Z.of_nat fd, E_OK, s1) /\
  romfs_close_r flash_write fd s1 = Some (0, s2) /\
  is_set (fs_flags (pfs s2)) ROMFS_FS_FLAG_WRITING = true.
Proof.
  destruct (wofs_create_readonly file_read flash_write newlib_fcntl [98] 0x200 0 blank [] 0)
    as (fd & s1 & s2 & H1 & H2 & H3 & _); try by_decide.
  - exact blank_idle.
  - by exists fd, s1, s2.
Defined.

(** While a file is written its size field still holds ones, so that a search
    that passes it wraps around to the file's contents and takes them for
    entries: here they are the name "b", a deleted field and a size of 0, and
    a file "b" that nobody created is found. *)
Example found_in_data : (
    '(fd, _, s) ← romfs_open_r file_read flash_write newlib_fcntl [97] 0x201 0 blank;
    '(_, _, s) ← romfs_write_r flash_write (Z.to_nat fd)
      [98; 0; 0; 0; 255; 255; 255; 255; 0; 0; 0; 0] s;
    fst <$> romfs_open_r file_read flash_write newlib_fcntl [98] 0 0 s) = Some (1, E_OK).
Proof. reflexivity. Qed.
