(* ===== verification/Salloc.v ===== *)
(** * Salloc: the simple memory allocator

    Models src/salloc.c: blocks of memory, free or taken, in a doubly linked
    list per RAM region; every block starts with two 32-bit words that hold
    the addresses of its neighbours divided by eight, the first one also the
    mark of a taken block.  The memory is one list of bytes that both the
    allocator and its clients access; an access outside it is [None]. *)

From S2P Require Import Prelude.

Definition DYN_SIZE_MULT : Z := 8.
Definition DYN_SIZE_MULT_SHIFT : Z := 3.
Definition DYN_HEADER_SIZE : Z := 8.
Definition DYN_MIN_SPLIT_SIZE : Z := 16.

(** The bytes from address 0 on. *)
Abbreviation mem := (list Z).

Definition load32 (m : mem) (a : Z) : option Z :=
  match loads m (Z.to_nat a) 4 with
  | Some [b0; b1; b2; b3] => Some (or32 b0 b1 b2 b3)
  | _ => None
  end.
Definition store32 (m : mem) (a v : Z) : option mem := stores m (Z.to_nat a) (le32 v).

(** ** Blocks *)

Definition s_act_size (size : Z) : Z :=
  if negb (Z.land size (DYN_SIZE_MULT - 1) =? 0)
  then u32 (Z.shiftl (Z.shiftr size DYN_SIZE_MULT_SHIFT + 1) DYN_SIZE_MULT_SHIFT) else size.

Definition s_get_next_block (m : mem) (ptr : Z) : option Z :=
  w ← load32 m ptr; Some (u32 (Z.shiftl (Z.land w 0x7FFFFFFF) DYN_SIZE_MULT_SHIFT)).
Definition s_set_next_block (m : mem) (ptr next : Z) : option mem :=
  w ← load32 m ptr;
  store32 m ptr (Z.lor (Z.land w 0x80000000) (Z.shiftr next DYN_SIZE_MULT_SHIFT)).
Definition s_get_prev_block (m : mem) (ptr : Z) : option Z :=
  w ← load32 m (ptr + 4); Some (u32 (Z.shiftl (Z.land w 0x7FFFFFFF) DYN_SIZE_MULT_SHIFT)).
Definition s_set_prev_block (m : mem) (ptr prev : Z) : option mem :=
  w ← load32 m (ptr + 4);
  store32 m (ptr + 4) (Z.lor (Z.land w 0x80000000) (Z.shiftr prev DYN_SIZE_MULT_SHIFT)).
Definition s_get_block_size (m : mem) (ptr : Z) : option Z :=
  next ← s_get_next_block m ptr; Some (if next =? 0 then 0 else u32 (next - ptr)).
Definition s_mark_block_taken (m : mem) (where_ : Z) : option mem :=
  w ← load32 m where_; store32 m where_ (Z.lor w 0x80000000).
Definition s_mark_block_free (m : mem) (where_ : Z) : option mem :=
  w ← load32 m where_; store32 m where_ (Z.land w 0x7FFFFFFF).
Definition s_is_block_free (m : mem) (where_ : Z) : option bool :=
  w ← load32 m where_; Some (Z.land w 0x80000000 =? 0).
Definition s_create_new_block (m : mem) (where_ next prev : Z) : option mem :=
  m ← store32 m where_ (Z.shiftr next DYN_SIZE_MULT_SHIFT);
  store32 m (where_ + 4) (Z.shiftr prev DYN_SIZE_MULT_SHIFT).

(** The loops follow the links; [fuel] bounds the number of blocks. *)
Fixpoint free_back (fuel : nat) (m : mem) (p : Z) : option Z :=
  match fuel with
  | O => None
  | S fuel =>
      f ← s_is_block_free m p;
      if f : bool then p ← s_get_prev_block m p; free_back fuel m p else Some p
  end.
Fixpoint free_ahead (fuel : nat) (m : mem) (p : Z) : option Z :=
  match fuel with
  | O => None
  | S fuel =>
      f ← s_is_block_free m p;
      if f : bool then p ← s_get_next_block m p; free_ahead fuel m p else Some p
  end.
Definition blocks_fuel (m : mem) : nat := S (length m).

Definition s_compact_free (m : mem) (ptr : Z) : option mem :=
  m ← s_mark_block_free m ptr;
  temp1 ← free_back (blocks_fuel m) m ptr;
  temp1 ← s_get_next_block m temp1;
  temp2 ← free_ahead (blocks_fuel m) m ptr;
  join ← (if negb (temp1 =? ptr) then Some true
          else p ← s_get_prev_block m temp2; Some (negb (p =? ptr)));
  if join : bool then m ← s_set_next_block m temp1 temp2; s_set_prev_block m temp2 temp1
  else Some m.

(** The best-fit search: the block found, 0 for none, and its size. *)
Fixpoint best_fit (fuel : nat) (m : mem) (size temp pblock minsize : Z) : option (Z * Z) :=
  match fuel with
  | O => None
  | S fuel =>
      if temp =? 0 then Some (pblock, minsize)
      else
        f ← s_is_block_free m temp;
        '(pblock, minsize) ← (if f : bool
          then bsize ← s_get_block_size m temp;
               Some (if (size <=? bsize) && (bsize <? minsize) then (temp, bsize)
                     else (pblock, minsize))
          else Some (pblock, minsize));
        temp ← s_get_next_block m temp;
        best_fit fuel m size temp pblock minsize
  end.

(** The stores that cut the block at [pblock] after [size] bytes. *)
Definition s_split (m : mem) (pblock size : Z) : option mem :=
  let temp := u32 (pblock + size) in
  next ← s_get_next_block m pblock;
  m ← s_set_prev_block m temp pblock;
  m ← s_set_next_block m temp next;
  m ← s_set_prev_block m next temp;
  m ← s_set_next_block m pblock temp;
  s_compact_free m temp.

Definition s_get_free_block (m : mem) (size pstart : Z) : option (Z * mem) :=
  if size =? 0 then Some (0, m) else
  let size := s_act_size (u32 (size + DYN_HEADER_SIZE)) in
  temp ← s_get_next_block m pstart;
  '(pblock, minsize) ← best_fit (blocks_fuel m) m size temp 0 0xFFFFFFFF;
  if pblock =? 0 then Some (0, m) else
  m ← s_mark_block_taken m pblock;
  m ← (if (minsize >? size) && (u32 (minsize - size) >=? DYN_MIN_SPLIT_SIZE)
       then s_split m pblock size else Some m);
  Some (u32 (pblock + DYN_HEADER_SIZE), m).

Definition s_free_block (m : mem) (ptr : Z) : option mem :=
  s_compact_free m (u32 (ptr - DYN_HEADER_SIZE)).
Definition s_get_actual_block_size (m : mem) (ptr : Z) : option Z :=
  n ← s_get_block_size m (u32 (ptr - DYN_HEADER_SIZE)); Some (u32 (n - DYN_HEADER_SIZE)).
Definition s_shrink_block (m : mem) (pblock size : Z) : option mem :=
  let pblock := u32 (pblock - DYN_HEADER_SIZE) in
  let size := s_act_size (u32 (size + DYN_HEADER_SIZE)) in
  n ← s_get_block_size m pblock;
  if (size >=? n) || (u32 (n - size) <? DYN_MIN_SPLIT_SIZE) then Some m
  else s_split m pblock size.

(** ** The interface

    [ram]: what [platform_get_first_free_ram( i )] and
    [platform_get_last_free_ram( i )] return for i = 0, 1, ... until the first
    of them is [NULL]. *)

Fixpoint s_init_regions (ram : list (Z * Z)) (m : mem) : option mem :=
  match ram with
  | [] => Some m
  | (pstart, plast) :: ram =>
      let memspace := u32 (plast - pstart) in
      let g1 := pstart in
      let crt := u32 (g1 + DYN_SIZE_MULT) in
      let g2 := u32 (g1 + memspace - DYN_SIZE_MULT) in
      m ← s_create_new_block m g1 crt 0;
      m ← s_create_new_block m crt g2 g1;
      m ← s_create_new_block m g2 0 crt;
      m ← s_mark_block_taken m g1;
      m ← s_mark_block_taken m g2;
      m ← s_mark_block_free m crt;
      s_init_regions ram m
  end.

Record salloc := mkSalloc { s_initialized : bool; s_mem : mem }.

Section Interface.
Variable ram : list (Z * Z).

Definition s_init (s : salloc) : option salloc :=
  m ← s_init_regions ram (s_mem s); Some (mkSalloc true m).
Definition init_once (s : salloc) : option salloc :=
  if s_initialized s then Some s else s_init s.

Fixpoint smalloc_regions (ram : list (Z * Z)) (size : Z) (m : mem) : option (Z * mem) :=
  match ram with
  | [] => Some (0, m)
  | (pstart, _) :: ram =>
      '(ptr, m) ← s_get_free_block m size pstart;
      if negb (ptr =? 0) then Some (ptr, m) else smalloc_regions ram size m
  end.
Definition smalloc (size : Z) (s : salloc) : option (Z * salloc) :=
  s ← init_once s;
  '(ptr, m) ← smalloc_regions ram size (s_mem s); Some (ptr, mkSalloc (s_initialized s) m).
Definition sfree (ptr : Z) (s : salloc) : option salloc :=
  if (ptr =? 0) || negb (s_initialized s) then Some s
  else m ← s_free_block (s_mem s) ptr; Some (mkSalloc (s_initialized s) m).
Definition scalloc (nmemb size : Z) (s : salloc) : option (Z * salloc) :=
  s ← init_once s;
  '(ptr, s) ← smalloc (u32 (nmemb * size)) s;
  if negb (ptr =? 0) then
    m ← stores (s_mem s) (Z.to_nat ptr) (replicate (Z.to_nat (u32 (nmemb * size))) 0);
    Some (ptr, mkSalloc (s_initialized s) m)
  else Some (ptr, s).
Definition srealloc (ptr size : Z) (s : salloc) : option (Z * salloc) :=
  s ← init_once s;
  if ptr =? 0 then smalloc size s
  else if size =? 0 then s ← sfree ptr s; Some (0, s)
  else
    n ← s_get_actual_block_size (s_mem s) ptr;
    if n =? size then Some (ptr, s)
    else if size <? n then
      m ← s_shrink_block (s_mem s) ptr size; Some (ptr, mkSalloc (s_initialized s) m)
    else
      '(newptr, s) ← smalloc size s;
      if newptr =? 0 then Some (0, s)
      else
        n ← s_get_actual_block_size (s_mem s) ptr;
        bs ← loads (s_mem s) (Z.to_nat ptr) (Z.to_nat n);
        m ← stores (s_mem s) (Z.to_nat newptr) bs;
        s ← sfree ptr (mkSalloc (s_initialized s) m);
        Some (newptr, s).
End Interface.

(** ** Words in memory *)

(** The two memories agree outside [n] bytes at [a]. *)
Record upd (m m' : mem) (a n : Z) : Prop := {
  upd_len : length m' = length m;
  upd_bytes : Forall is_u8 m';
  upd_old : forall x, 0 <= x -> ~ (a <= x < a + n) -> m' !! Z.to_nat x = m !! Z.to_nat x
}.
Lemma upd_refl m a n : Forall is_u8 m -> upd m m a n.
Proof. by split. Qed.
Lemma upd_trans m m' m'' a n : upd m m' a n -> upd m' m'' a n -> upd m m'' a n.
Proof.
  intros [L1 _ H1] [L2 B2 H2]. split; [by rewrite L2|done|].
  intros x Hx Hn. by rewrite H2, H1.
Qed.
Lemma upd_mono m m' a n b k : upd m m' a n -> b <= a -> a + n <= b + k -> upd m m' b k.
Proof. intros [L B H] Hb Hk. split; [done|done|]. intros x Hx Hn. apply H; [done|lia]. Qed.

(** The [n] bytes at [a] are the same in both. *)
Definition kept (m m' : mem) (a n : Z) : Prop :=
  forall x, a <= x < a + n -> m' !! Z.to_nat x = m !! Z.to_nat x.
Lemma upd_kept m m' b k a n : upd m m' b k -> 0 <= a -> a + n <= b \/ b + k <= a -> kept m m' a n.
Proof. intros [_ _ H] Ha Hd x Hx. apply H; lia. Qed.
Lemma kept_trans m m' m'' a n : kept m m' a n -> kept m' m'' a n -> kept m m'' a n.
Proof. intros H1 H2 x Hx. by rewrite H2, H1. Qed.

Lemma load32_word m a : 0 <= a -> a + 4 <= Z.of_nat (length m) -> Forall is_u8 m ->
  exists w, load32 m a = Some w /\ is_u32 w.
Proof.
  intros Ha Hl Hb. unfold load32, loads. rewrite decide_True by lia.
  set (l := take 4 (drop (Z.to_nat a) m)).
  assert (length l = 4%nat) as Hl4 by (unfold l; rewrite length_take, length_drop; lia).
  assert (Forall is_u8 l) as Hbl by (by apply Forall_take, Forall_drop).
  destruct l as [|b0 [|b1 [|b2 [|b3 [|]]]]]; try done.
  rewrite !Forall_cons in Hbl. destruct Hbl as (H0 & H1 & H2 & H3 & _).
  eexists. split; [reflexivity|]. by apply or32_is_u32.
Qed.
Lemma load32_bound m a w : load32 m a = Some w -> (Z.to_nat a + 4 <= length m)%nat.
Proof. unfold load32, loads. case_decide; [done|done]. Qed.

Lemma load32_ext m m' a : 0 <= a -> length m' = length m ->
  (forall x, a <= x < a + 4 -> m' !! Z.to_nat x = m !! Z.to_nat x) ->
  load32 m' a = load32 m a.
Proof.
  intros Ha Hl Hx. unfold load32, loads. rewrite Hl. case_decide as Hd; [|done].
  assert (take 4 (drop (Z.to_nat a) m') = take 4 (drop (Z.to_nat a) m)) as ->; [|done].
  apply list_eq. intros i. destruct (decide (i < 4)%nat).
  - rewrite !lookup_take_lt, !lookup_drop by done.
    rewrite <- (Nat2Z.id (Z.to_nat a + i)). apply Hx. lia.
  - rewrite !lookup_take_ge by lia. done.
Qed.
Lemma load32_upd m m' a n b : upd m m' a n -> 0 <= b -> b + 4 <= a \/ a + n <= b ->
  load32 m' b = load32 m b.
Proof.
  intros [Hl _ Ho] Hb Hd. apply load32_ext; [done|done|]. intros x Hx. apply Ho; lia.
Qed.

Lemma store32_ok m a v : 0 <= a -> a + 4 <= Z.of_nat (length m) -> Forall is_u8 m -> is_u32 v ->
  exists m', store32 m a v = Some m' /\ upd m m' a 4 /\ load32 m' a = Some v.
Proof.
  intros Ha Hl Hb Hv. unfold store32. exists (splice m (Z.to_nat a) (le32 v)).
  assert (length (le32 v) = 4%nat) as H4 by done.
  split; [apply stores_splice; [apply le32_bytes|lia]|]. split.
  - split; [apply length_splice; lia| |].
    + unfold splice. repeat apply Forall_app_2; auto using Forall_take, Forall_drop, le32_bytes.
    + intros x Hx Hn. apply lookup_splice_old; lia.
  - unfold load32, loads. rewrite length_splice, decide_True by lia.
    unfold splice. rewrite drop_app_length' by (rewrite length_take; lia).
    change 4%nat with (length (le32 v)). rewrite take_app_length. unfold le32. f_equal.
    pose proof (or32_le32 v Hv) as H. exact H.
Qed.

(** ** Block headers *)

Definition mark (t : bool) : Z := if t then 0x80000000 else 0.

Section MarkBits.
Context (k : Z) (Hk : 0 <= k < 2 ^ 31).
Lemma mark_lor t : Z.lor (mark t) k = mark t + k.
Proof.
  rewrite Z.lor_comm. destruct t; [|by rewrite Z.lor_0_r].
  change (mark true) with (Z.shiftl 1 31). rewrite lor_shiftl_add by lia.
  change (Z.shiftl 1 31) with (1 * 2 ^ 31). lia.
Qed.
Lemma mark_low t : Z.land (mark t + k) 0x7FFFFFFF = k.
Proof. change 0x7FFFFFFF with (2 ^ 31 - 1). rewrite land_mask by lia. destruct t; simpl; word_lia. Qed.
Lemma mark_high t : Z.land (mark t + k) 0x80000000 = mark t.
Proof.
  rewrite <- mark_lor, Z.land_lor_distr_l. change 0x80000000 with (Z.shiftl 1 31) at 2.
  rewrite land_shiftl_0 by done. by destruct t.
Qed.
Lemma mark_set t : Z.lor (mark t + k) 0x80000000 = mark true + k.
Proof.
  rewrite <- !mark_lor, <- Z.lor_assoc, (Z.lor_comm k), Z.lor_assoc. by destruct t.
Qed.
End MarkBits.
Lemma word_mark w : is_u32 w -> exists t k, w = mark t + k /\ 0 <= k < 2 ^ 31.
Proof.
  intros Hw. exists (bool_decide (2 ^ 31 <= w)), (w mod 2 ^ 31). split; [|word_lia].
  case_bool_decide; simpl; word_lia.
Qed.

(** Addresses of blocks. *)
Definition aligned (a : Z) : Prop := a mod 8 = 0 /\ is_u32 a.

(** The fields of the header at [a]; the mark in the second word means
    nothing. *)
Definition raw_hdr (m : mem) (a kp kn : Z) (t : bool) : Prop :=
  load32 m a = Some (mark t + kn) /\ exists g, load32 m (a + 4) = Some (mark g + kp).
Definition hdr (m : mem) (a prev next : Z) (t : bool) : Prop :=
  raw_hdr m a (prev / 8) (next / 8) t.
Definition in_mem (m : mem) (a : Z) : Prop :=
  0 <= a /\ a + 8 <= Z.of_nat (length m) /\ Forall is_u8 m.

Lemma shr3 x : Z.shiftr x 3 = x / 8.
Proof. by rewrite Z.shiftr_div_pow2. Qed.
Lemma shl3_div x : aligned x -> u32 (Z.shiftl (x / 8) 3) = x.
Proof.
  intros [Hx Hu]. rewrite Z.shiftl_mul_pow2 by lia.
  rewrite u32_small; word_lia.
Qed.
Lemma aligned_div x : aligned x -> 0 <= x / 8 < 2 ^ 31.
Proof. intros [_ ?]. word_lia. Qed.
Lemma mark_word t k : 0 <= k < 2 ^ 31 -> is_u32 (mark t + k).
Proof. intros. destruct t; simpl; word_lia. Qed.

Section Access.
Context (m : mem) (a prev next : Z) (t : bool) (Hh : hdr m a prev next t)
  (Hp : aligned prev) (Hn : aligned next).
Lemma get_next_ok : s_get_next_block m a = Some next.
Proof.
  destruct Hh as [H _]. unfold s_get_next_block. rewrite H. cbn [mbind option_bind].
  rewrite mark_low by (by apply aligned_div). unfold DYN_SIZE_MULT_SHIFT. by rewrite shl3_div.
Qed.
Lemma get_prev_ok : s_get_prev_block m a = Some prev.
Proof.
  destruct Hh as [_ [g H]]. unfold s_get_prev_block. rewrite H. cbn [mbind option_bind].
  rewrite mark_low by (by apply aligned_div). unfold DYN_SIZE_MULT_SHIFT. by rewrite shl3_div.
Qed.
Lemma is_free_ok : s_is_block_free m a = Some (negb t).
Proof.
  destruct Hh as [H _]. unfold s_is_block_free. rewrite H. cbn [mbind option_bind].
  rewrite mark_high by (by apply aligned_div). by destruct t.
Qed.
Lemma block_size_ok : s_get_block_size m a = Some (if next =? 0 then 0 else u32 (next - a)).
Proof. unfold s_get_block_size. by rewrite get_next_ok. Qed.
End Access.

Section Change.
Context (m : mem) (a kp kn : Z) (t : bool) (Hh : raw_hdr m a kp kn t)
  (Hp : 0 <= kp < 2 ^ 31) (Hn : 0 <= kn < 2 ^ 31) (Hm : in_mem m a).
(** A store to the first or the second word. *)
Lemma first_ok t' k : 0 <= k < 2 ^ 31 ->
  exists m', store32 m a (mark t' + k) = Some m' /\ upd m m' a 8 /\ raw_hdr m' a kp k t'.
Proof.
  intros Hk. destruct Hh as [_ [g Hg]], Hm as (Ha & Hl & Hb).
  destruct (store32_ok m a (mark t' + k)) as (m' & Hs & Hu & Hld);
    [done|lia|done|by apply mark_word|].
  exists m'. split_and!; [done|eapply upd_mono; [exact Hu|lia|lia]|].
  split; [done|]. exists g. rewrite <- Hg. apply (load32_upd m m' a 4); [done|lia|lia].
Qed.
Lemma second_ok g k : 0 <= k < 2 ^ 31 ->
  exists m', store32 m (a + 4) (mark g + k) = Some m' /\ upd m m' a 8 /\ raw_hdr m' a k kn t.
Proof.
  intros Hk. destruct Hh as [H _], Hm as (Ha & Hl & Hb).
  destruct (store32_ok m (a + 4) (mark g + k)) as (m' & Hs & Hu & Hld);
    [lia|lia|done|by apply mark_word|].
  exists m'. split_and!; [done|eapply upd_mono; [exact Hu|lia|lia]|].
  split; [|by exists g]. rewrite <- H. apply (load32_upd m m' (a + 4) 4); [done|lia|lia].
Qed.
Lemma mark_taken_ok :
  exists m', s_mark_block_taken m a = Some m' /\ upd m m' a 8 /\ raw_hdr m' a kp kn true.
Proof.
  destruct (first_ok true kn Hn) as (m' & Hs & Hr). exists m'. split; [|done].
  unfold s_mark_block_taken. destruct Hh as [-> _]. cbn [mbind option_bind]. by rewrite mark_set.
Qed.
Lemma mark_free_ok :
  exists m', s_mark_block_free m a = Some m' /\ upd m m' a 8 /\ raw_hdr m' a kp kn false.
Proof.
  destruct (first_ok false kn Hn) as (m' & Hs & Hr). exists m'. split; [|done].
  unfold s_mark_block_free. destruct Hh as [-> _]. cbn [mbind option_bind]. by rewrite mark_low.
Qed.
Lemma set_next_ok next : aligned next ->
  exists m', s_set_next_block m a next = Some m' /\ upd m m' a 8 /\ raw_hdr m' a kp (next / 8) t.
Proof.
  intros Ha. destruct (first_ok t (next / 8) (aligned_div _ Ha)) as (m' & Hs & Hr).
  exists m'. split; [|done]. unfold s_set_next_block, DYN_SIZE_MULT_SHIFT.
  destruct Hh as [-> _]. cbn [mbind option_bind].
  rewrite mark_high, shr3, mark_lor by (done || by apply aligned_div). done.
Qed.
Lemma set_prev_ok prev : aligned prev ->
  exists m', s_set_prev_block m a prev = Some m' /\ upd m m' a 8 /\ raw_hdr m' a (prev / 8) kn t.
Proof.
  intros Ha. pose proof Hh as [_ [g Hg]].
  destruct (second_ok g (prev / 8) (aligned_div _ Ha)) as (m' & Hs & Hr).
  exists m'. split; [|done]. unfold s_set_prev_block, DYN_SIZE_MULT_SHIFT.
  rewrite Hg. cbn [mbind option_bind].
  rewrite mark_high, shr3, mark_lor by (done || by apply aligned_div). done.
Qed.
End Change.

(** Any eight bytes are a header. *)
Lemma some_hdr m a : in_mem m a ->
  exists kp kn t, raw_hdr m a kp kn t /\ 0 <= kp < 2 ^ 31 /\ 0 <= kn < 2 ^ 31.
Proof.
  intros (Ha & Hl & Hb).
  destruct (load32_word m a) as (w & Hw & Huw); [lia|lia|done|].
  destruct (load32_word m (a + 4)) as (v & Hv & Huv); [lia|lia|done|].
  destruct (word_mark w Huw) as (t & k & -> & Hk), (word_mark v Huv) as (g & l & -> & Hl').
  exists l, k, t. split; [|done]. split; [exact Hw|]. exists g. exact Hv.
Qed.
Lemma hdr_upd m m' a prev next t b n : hdr m a prev next t -> upd m m' b n -> 0 <= a ->
  a + 8 <= b \/ b + n <= a -> hdr m' a prev next t.
Proof.
  intros [H1 [g H2]] Hu Ha Hd. split; [|exists g].
  - rewrite <- H1. apply (load32_upd m m' b n); [done|lia|lia].
  - rewrite <- H2. apply (load32_upd m m' b n); [done|lia|lia].
Qed.
Lemma in_mem_upd m m' a b n : in_mem m a -> upd m m' b n -> in_mem m' a.
Proof. intros (Ha & Hl & _) [Hlen Hb _]. split_and!; [done|by rewrite Hlen|done]. Qed.

(** ** Chains of blocks

    A block is its size and its mark; a chain is a list of adjacent blocks. *)

Abbreviation blocks := (list (Z * bool)).
Definition total (bs : blocks) : Z := foldr (fun b n => b.1 + n) 0 bs.
(** The address of the last block of a chain at [a], [p] if there is none. *)
Fixpoint last_addr (p a : Z) (bs : blocks) : Z :=
  match bs with [] => p | (n, _) :: bs => last_addr a (a + n) bs end.

(** The headers of the chain at [a]: the block before it is [p], the last one's
    next block is [nx]. *)
Fixpoint chain (m : mem) (p a : Z) (bs : blocks) (nx : Z) : Prop :=
  match bs with
  | [] => True
  | (n, t) :: bs =>
      hdr m a p (match bs with [] => nx | _ => a + n end) t /\ chain m a (a + n) bs nx
  end.

Definition sizes_ok (bs : blocks) : Prop := Forall (fun b => 8 <= b.1 /\ b.1 mod 8 = 0) bs.
(** The chain at [a] lies in memory. *)
Record placed (m : mem) (a : Z) (bs : blocks) : Prop := {
  pl_start : 8 <= a /\ a mod 8 = 0;
  pl_sizes : sizes_ok bs;
  pl_end : a + total bs <= Z.of_nat (length m);
  pl_mem : Z.of_nat (length m) <= 2 ^ 32 /\ Forall is_u8 m
}.

Lemma total_cons b bs : total (b :: bs) = b.1 + total bs.
Proof. done. Qed.
Lemma total_app xs ys : total (xs ++ ys) = total xs + total ys.
Proof. induction xs as [|x xs IH]; [done|]. rewrite <- app_comm_cons, !total_cons, IH. lia. Qed.
Lemma total_nonneg bs : sizes_ok bs -> 0 <= total bs.
Proof.
  induction 1 as [|b bs [H _] _ IH]; [done|]. rewrite total_cons. lia.
Qed.
Lemma total_aligned bs : sizes_ok bs -> total bs mod 8 = 0.
Proof.
  induction 1 as [|b bs [_ H] _ IH]; [done|]. rewrite total_cons. word_lia.
Qed.
Lemma total_length bs : sizes_ok bs -> Z.of_nat (length bs) <= total bs.
Proof. induction 1 as [|b bs [H _] _ IH]; [done|]. rewrite total_cons. simpl. lia. Qed.
Lemma last_addr_app p a xs n t : last_addr p a (xs ++ [(n, t)]) = a + total xs.
Proof.
  revert p a. induction xs as [|[k u] xs IH]; intros p a; [simpl; lia|].
  cbn [app last_addr]. rewrite IH, total_cons. simpl. lia.
Qed.

Lemma chain_app m xs : forall p a y ys nx, chain m p a (xs ++ y :: ys) nx <->
  chain m p a xs (a + total xs) /\ chain m (last_addr p a xs) (a + total xs) (y :: ys) nx.
Proof.
  induction xs as [|[n t] xs IH]; intros p a y ys nx.
  - cbn [app last_addr]. change (total []) with 0. rewrite Z.add_0_r. split; [by split|by intros [_ ?]].
  - cbn [app last_addr]. rewrite total_cons. cbn [fst]. rewrite Z.add_assoc.
    change (chain m p a ((n, t) :: xs ++ y :: ys) nx) with
      (hdr m a p (match xs ++ y :: ys with [] => nx | _ => a + n end) t /\
       chain m a (a + n) (xs ++ y :: ys) nx).
    change (chain m p a ((n, t) :: xs) (a + n + total xs)) with
      (hdr m a p (match xs with [] => a + n + total xs | _ => a + n end) t /\
       chain m a (a + n) xs (a + n + total xs)).
    rewrite IH. destruct xs as [|x xs]; [|simpl; tauto].
    cbn [app]. change (total []) with 0. rewrite Z.add_0_r. simpl. tauto.
Qed.

Lemma chain_upd m m' bs : forall p a nx b k, chain m p a bs nx -> sizes_ok bs -> upd m m' b k ->
  0 <= a -> a + total bs <= b \/ b + k <= a -> chain m' p a bs nx.
Proof.
  induction bs as [|[n t] bs IH]; intros p a nx b k Hc Hs Hu Ha Hd; [done|].
  destruct Hc as [Hh Hc]. apply Forall_cons in Hs as [[Hn _] Hs]. cbn [fst] in *.
  rewrite total_cons in Hd. cbn [fst] in Hd. pose proof (total_nonneg _ Hs). split.
  - eapply hdr_upd; [exact Hh|exact Hu|done|lia].
  - eapply IH; [exact Hc|done|exact Hu|lia|lia].
Qed.

Lemma placed_upd m m' a bs b k : placed m a bs -> upd m m' b k -> placed m' a bs.
Proof. intros [? ? ? [? ?]] [Hl Hb _]. split; rewrite ?Hl; done. Qed.
(** Another division of the same bytes into blocks. *)
Lemma placed_change m a bs bs' : placed m a bs -> sizes_ok bs' -> total bs' = total bs ->
  placed m a bs'.
Proof. intros [? ? ? ?] Hs Ht. split; rewrite ?Ht; done. Qed.

(** A block of a chain: its address, and what [placed] says of it. *)
Lemma placed_block m a xs n t ys : placed m a (xs ++ (n, t) :: ys) ->
  aligned (a + total xs) /\ in_mem m (a + total xs) /\ 8 <= n /\ n mod 8 = 0 /\
  8 <= a + total xs /\ a + total xs + n + total ys <= Z.of_nat (length m) /\
  0 <= total xs /\ 0 <= total ys.
Proof.
  intros [[Ha Ha8] Hs He [Hm Hb]]. apply Forall_app in Hs as [Hx Hs].
  apply Forall_cons in Hs as [[Hn Hn8] Hy]. cbn [fst] in *.
  rewrite total_app, total_cons in He. cbn [fst] in He.
  pose proof (total_nonneg _ Hx). pose proof (total_nonneg _ Hy).
  pose proof (total_aligned _ Hx). split_and!; try lia; [split; [|word_lia]|split_and!; [lia|lia|done]].
  word_lia.
Qed.
Lemma last_addr_aligned m p a xs n t ys : aligned p -> placed m a (xs ++ (n, t) :: ys) ->
  aligned (last_addr p a xs) /\ (xs = [] \/ a <= last_addr p a xs < a + total xs).
Proof.
  intros Hp. induction xs as [|[k u] xs _] using rev_ind; [by auto|].
  rewrite last_addr_app, <- app_assoc. intros Hpl. cbn [app] in Hpl.
  destruct (placed_block _ _ _ _ _ _ Hpl) as (Ha & _ & Hk & _ & _ & _ & Hx & _).
  split; [done|right]. rewrite total_app. simpl. lia.
Qed.

Definition next_addr (a n : Z) (ys : blocks) (nx : Z) : Z :=
  match ys with [] => nx | _ => a + n end.

Section Walk.
Context (m : mem) (p a nx : Z) (Hp : aligned p) (Hnx : aligned nx).

Lemma block_hdr xs n t ys : placed m a (xs ++ (n, t) :: ys) -> chain m p a (xs ++ (n, t) :: ys) nx ->
  hdr m (a + total xs) (last_addr p a xs) (next_addr (a + total xs) n ys nx) t /\
  aligned (last_addr p a xs) /\ aligned (next_addr (a + total xs) n ys nx).
Proof.
  intros Hpl Hc. apply chain_app in Hc as [_ [Hh _]]. split; [exact Hh|].
  destruct (last_addr_aligned _ p _ _ _ _ _ Hp Hpl) as [Hl _]. split; [done|].
  destruct ys as [|[k u] ys]; [done|]. cbn [next_addr].
  rewrite (cons_middle (n, t)), app_assoc in Hpl.
  destruct (placed_block _ _ _ _ _ _ Hpl) as (Ha & _). rewrite total_app in Ha.
  revert Ha. simpl. by rewrite Z.add_0_r, Z.add_assoc.
Qed.

Lemma free_ahead_ok fs : forall fuel xs n ys,
  placed m a (xs ++ fs ++ (n, true) :: ys) -> chain m p a (xs ++ fs ++ (n, true) :: ys) nx ->
  Forall (fun b => b.2 = false) fs -> (length fs < fuel)%nat ->
  free_ahead fuel m (a + total xs) = Some (a + total xs + total fs).
Proof.
  induction fs as [|[k u] fs IH]; intros [|fuel] xs n ys Hpl Hc Hf Hfuel; simpl in Hfuel; try lia.
  - destruct (block_hdr _ _ _ _ Hpl Hc) as (Hh & Hla & Hna). cbn [free_ahead].
    rewrite (is_free_ok _ _ _ _ _ Hh Hna). cbn [mbind option_bind negb].
    change (total []) with 0. by rewrite Z.add_0_r.
  - apply Forall_cons in Hf as [Hu Hf]. cbn [snd] in Hu. subst u. cbn [app] in Hpl, Hc.
    destruct (block_hdr _ _ _ _ Hpl Hc) as (Hh & Hla & Hna). cbn [free_ahead].
    rewrite (is_free_ok _ _ _ _ _ Hh Hna), (get_next_ok _ _ _ _ _ Hh Hna).
    cbn [mbind option_bind negb].
    rewrite (cons_middle (k, false)), app_assoc in Hpl, Hc.
    assert (next_addr (a + total xs) k (fs ++ (n, true) :: ys) nx = a + total (xs ++ [(k, false)])) as ->.
    { rewrite total_app. unfold next_addr. destruct fs; simpl; lia. }
    rewrite (IH fuel _ n ys Hpl Hc Hf ltac:(lia)). f_equal.
    rewrite total_app, !total_cons. simpl. lia.
Qed.

Lemma free_back_ok fs : forall fuel xs n k ys,
  placed m a (xs ++ (n, true) :: fs ++ (k, false) :: ys) ->
  chain m p a (xs ++ (n, true) :: fs ++ (k, false) :: ys) nx ->
  Forall (fun b => b.2 = false) fs -> (S (length fs) < fuel)%nat ->
  free_back fuel m (a + total xs + n + total fs) = Some (a + total xs).
Proof.
  induction fs as [|[j u] fs IH] using rev_ind; intros [|fuel] xs n k ys Hpl Hc Hf Hfuel; try lia.
  - pose proof Hpl as Hpl'. pose proof Hc as Hc'. cbn [app] in Hpl', Hc'.
    destruct (block_hdr _ _ _ _ Hpl' Hc') as (Hh & Hla & Hna).
    rewrite (cons_middle (n, true)), app_assoc in Hpl', Hc'.
    destruct (block_hdr _ _ _ _ Hpl' Hc') as (Hh' & Hla' & Hna').
    rewrite last_addr_app in Hh', Hla'. rewrite total_app in Hh', Hna'. simpl in Hh', Hna'.
    change (total []) with 0. rewrite !Z.add_0_r in *. rewrite Z.add_assoc in Hh', Hna'.
    cbn [free_back]. rewrite (is_free_ok _ _ _ _ _ Hh' Hna'), (get_prev_ok _ _ _ _ _ Hh' Hla').
    cbn [mbind option_bind negb]. destruct fuel as [|fuel]; [simpl in Hfuel; lia|].
    cbn [free_back]. by rewrite (is_free_ok _ _ _ _ _ Hh Hna).
  - apply Forall_app in Hf as [Hf Hu]. apply Forall_cons in Hu as [Hu _]. cbn [snd] in Hu. subst u.
    rewrite length_app in Hfuel. simpl in Hfuel.
    rewrite <- app_assoc in Hpl, Hc. cbn [app] in Hpl, Hc.
    pose proof Hpl as Hpl'. pose proof Hc as Hc'.
    assert (xs ++ (n, true) :: fs ++ (j, false) :: (k, false) :: ys
      = (xs ++ (n, true) :: fs ++ [(j, false)]) ++ (k, false) :: ys) as E
      by (by rewrite <- app_assoc, <- app_comm_cons, <- app_assoc).
    rewrite E in Hpl', Hc'.
    destruct (block_hdr _ _ _ _ Hpl' Hc') as (Hh & Hla & Hna).
    assert (a + total (xs ++ (n, true) :: fs ++ [(j, false)])
      = a + total xs + n + total (fs ++ [(j, false)])) as Et
      by (rewrite !total_app, total_cons, !total_app; simpl; lia).
    assert (last_addr p a (xs ++ (n, true) :: fs ++ [(j, false)])
      = a + total xs + n + total fs) as El.
    { rewrite app_comm_cons, app_assoc, last_addr_app, total_app, total_cons. simpl. lia. }
    rewrite Et in Hh, Hna. rewrite El in Hh, Hla. cbn [free_back].
    rewrite (is_free_ok _ _ _ _ _ Hh Hna), (get_prev_ok _ _ _ _ _ Hh Hla).
    cbn [mbind option_bind negb]. apply (IH fuel xs n j ((k, false) :: ys)); [done|done|done|lia].
Qed.
End Walk.

(** ** Changing a chain *)

Lemma last_addr_ne p q a bs : bs <> [] -> last_addr p a bs = last_addr q a bs.
Proof. by destruct bs. Qed.
Lemma last_addr_app' p a xs ys : ys <> [] ->
  last_addr p a (xs ++ ys) = last_addr (last_addr p a xs) (a + total xs) ys.
Proof.
  intros Hy. revert p a. induction xs as [|[n t] xs IH]; intros p a.
  - cbn [app last_addr]. change (total []) with 0. by rewrite Z.add_0_r.
  - cbn [app last_addr]. rewrite IH, total_cons. cbn [fst]. by rewrite Z.add_assoc.
Qed.

Section ChangeChain.
Context (p a nx : Z) (Hp : aligned p) (Hnx : aligned nx).

(** The parts of a chain around some blocks in the middle. *)
Lemma chain_mid m xs mid n t ys : mid <> [] ->
  chain m p a (xs ++ mid ++ (n, t) :: ys) nx <->
  let b := a + total xs in let c := b + total mid in
  chain m p a xs b /\ chain m (last_addr p a xs) b mid c /\
  hdr m c (last_addr (last_addr p a xs) b mid) (next_addr c n ys nx) t /\ chain m c (c + n) ys nx.
Proof.
  intros Hm. destruct mid as [|y mid]; [done|]. cbn [app]. rewrite chain_app.
  change ((y :: mid ++ (n, t) :: ys)) with ((y :: mid) ++ (n, t) :: ys). rewrite chain_app. done.
Qed.

(** New blocks in the place of some, when only their bytes and the header
    behind them change. *)
Lemma chain_mid_change m m' xs mid mid' n t ys :
  placed m a (xs ++ mid ++ (n, t) :: ys) -> chain m p a (xs ++ mid ++ (n, t) :: ys) nx ->
  mid <> [] -> mid' <> [] -> sizes_ok mid' -> total mid' = total mid ->
  let b := a + total xs in let c := b + total mid in
  upd m m' b (total mid + 8) -> chain m' (last_addr p a xs) b mid' c ->
  hdr m' c (last_addr (last_addr p a xs) b mid') (next_addr c n ys nx) t ->
  chain m' p a (xs ++ mid' ++ (n, t) :: ys) nx /\ placed m' a (xs ++ mid' ++ (n, t) :: ys).
Proof.
  intros Hpl Hc Hm Hm' Hs' Ht b c Hu Hmid Hh. apply chain_mid in Hc as (Hx & _ & _ & Hy); [|done].
  fold b c in Hx, Hy. pose proof Hpl as [[Ha _] Hs _ _]. pose proof Hpl as Hpl'.
  rewrite app_assoc in Hpl'.
  destruct (placed_block _ _ _ _ _ _ Hpl') as (_ & _ & Hn & _ & _ & _ & Hxm & _).
  apply Forall_app in Hs as [Hsx Hs]. pose proof Hs as [Hsm Hsy]%Forall_app.
  apply Forall_cons in Hsy as [_ Hsy]. pose proof (total_nonneg _ Hsx).
  pose proof (total_nonneg _ Hsm). split.
  - apply chain_mid; [done|]. fold b. rewrite Ht. fold c. split_and!; [|done|done|].
    + eapply chain_upd; [exact Hx|done|exact Hu|lia|unfold b; lia].
    + eapply chain_upd; [exact Hy|done|exact Hu|unfold b, c; lia|unfold b, c; lia].
  - eapply placed_upd; [|exact Hu]. eapply placed_change; [exact Hpl|..].
    + apply Forall_app. split; [done|]. apply Forall_app. split; [done|].
      by apply Forall_app in Hs as [_ ?].
    + rewrite !total_app, Ht. done.
Qed.

(** Marking a block. *)
Lemma chain_mark m xs n t y ys t' : placed m a (xs ++ (n, t) :: y :: ys) ->
  chain m p a (xs ++ (n, t) :: y :: ys) nx ->
  let b := a + total xs in
  exists m', (if t' : bool then s_mark_block_taken m b else s_mark_block_free m b) = Some m' /\
    upd m m' b 8 /\ chain m' p a (xs ++ (n, t') :: y :: ys) nx /\
    placed m' a (xs ++ (n, t') :: y :: ys).
Proof.
  intros Hpl Hc. destruct (block_hdr m p a nx Hp Hnx _ _ _ _ Hpl Hc) as (Hh & Hla & Hna).
  destruct (placed_block _ _ _ _ _ _ Hpl) as (Hb & Hmem & Hn & Hn8 & Hb8 & _).
  set (b := a + total xs) in *. intros b'. subst b'.
  assert (exists m', (if t' then s_mark_block_taken m b else s_mark_block_free m b) = Some m' /\
    upd m m' b 8 /\ hdr m' b (last_addr p a xs) (next_addr b n (y :: ys) nx) t')
    as (m' & Hm' & Hu & Hh').
  { destruct t'; [eapply mark_taken_ok|eapply mark_free_ok];
      [exact Hh|by apply aligned_div|done|exact Hh|by apply aligned_div|done]. }
  exists m'. split; [done|]. split; [done|]. destruct y as [k u].
  apply (chain_mid_change m m' xs [(n, t)] [(n, t')] k u ys); try done.
  - apply Forall_singleton. done.
  - eapply upd_mono; [exact Hu|lia|simpl; lia].
  - cbn [chain]. split; [|done]. cbn [next_addr] in Hh'.
    change (total [(n, t)]) with (n + 0). by rewrite Z.add_0_r.
  - apply (chain_mid m xs [(n, t)] k u ys) in Hc as (_ & _ & Hc & _); [|done].
    fold b in Hc. eapply hdr_upd; [exact Hc|exact Hu|simpl; lia|simpl; lia].
Qed.

(** Joining the blocks between two. *)
Lemma chain_join m xs mid n t ys : placed m a (xs ++ mid ++ (n, t) :: ys) ->
  chain m p a (xs ++ mid ++ (n, t) :: ys) nx -> head (snd <$> mid) = Some false ->
  let b := a + total xs in let c := b + total mid in
  exists m', (m ← s_set_next_block m b c; s_set_prev_block m c b) = Some m' /\
    upd m m' b (total mid + 8) /\
    chain m' p a (xs ++ (total mid, false) :: (n, t) :: ys) nx /\
    placed m' a (xs ++ (total mid, false) :: (n, t) :: ys).
Proof.
  intros Hpl Hc Hhd. destruct mid as [|[k u] mid]; [done|]. injection Hhd as Hu. cbn in Hu.
  subst u. destruct (block_hdr m p a nx Hp Hnx _ _ _ _ Hpl Hc) as (Hh & Hla & Hna).
  destruct (placed_block _ _ _ _ _ _ Hpl) as (Hb & Hmem & Hk & Hk8 & Hb8 & _).
  pose proof Hpl as Hpl2. pose proof Hc as Hc2. rewrite app_assoc in Hpl2, Hc2.
  destruct (block_hdr m p a nx Hp Hnx _ _ _ _ Hpl2 Hc2) as (Hh2 & Hla2 & Hna2).
  destruct (placed_block _ _ _ _ _ _ Hpl2) as (Hc' & Hmem2 & _).
  rewrite total_app, Z.add_assoc in Hh2, Hna2, Hc', Hmem2.
  set (b := a + total xs) in *. set (c := b + total ((k, false) :: mid)) in *.
  intros b' c'. subst b' c'. fold c.
  pose proof (pl_sizes _ _ _ Hpl) as Hs. apply Forall_app in Hs as [_ Hs].
  apply Forall_app in Hs as [Hsm _]. pose proof Hsm as [_ Hsm']%Forall_cons.
  pose proof (total_nonneg _ Hsm').
  assert (total ((k, false) :: mid) = k + total mid) as Et by done.
  destruct (set_next_ok m b _ _ false Hh (aligned_div _ Hna) Hmem c Hc')
    as (m1 & Hm1 & Hu1 & Hh1).
  assert (hdr m1 c (last_addr p a (xs ++ (k, false) :: mid)) (next_addr c n ys nx) t) as Hh3
    by (eapply hdr_upd; [exact Hh2|exact Hu1|unfold c; lia|unfold c; lia]).
  destruct (set_prev_ok m1 c _ _ t Hh3 (aligned_div _ Hla2)
    (in_mem_upd _ _ _ _ _ Hmem2 Hu1) b Hb) as (m2 & Hm2 & Hu2 & Hh4).
  exists m2. rewrite Hm1. cbn [mbind option_bind].
  assert (upd m m2 b (total ((k, false) :: mid) + 8)) as Hu.
  { eapply upd_trans; [eapply upd_mono; [exact Hu1|lia|lia]|].
    eapply upd_mono; [exact Hu2|unfold c; lia|unfold c; lia]. }
  split; [done|]. split; [done|].
  apply (chain_mid_change m m2 xs ((k, false) :: mid) [(total ((k, false) :: mid), false)] n t ys);
    try done.
  - apply Forall_singleton. cbn [fst]. split; [lia|by apply total_aligned].
  - rewrite total_cons. change (total []) with 0. cbn [fst]. lia.
  - cbn [chain]. split; [|done].
    eapply hdr_upd; [exact Hh1|exact Hu2|lia|unfold c; lia].
Qed.
End ChangeChain.

(** ** Freeing *)

Definition all_free (fs : blocks) : Prop := Forall (fun b => b.2 = false) fs.

Lemma placed_fuel m a bs : placed m a bs -> (length bs < blocks_fuel m)%nat.
Proof.
  intros [[Ha _] Hs He _]. pose proof (total_length _ Hs). unfold blocks_fuel. lia.
Qed.

Section Compact.
Context (p a nx : Z) (Hp : aligned p) (Hnx : aligned nx).

(** The block before a header: where it is. *)
Lemma last_addr_ge q b n u fs : sizes_ok fs -> 0 < n -> fs <> [] ->
  last_addr q b ((n, u) :: fs) <> b.
Proof.
  intros Hs Hn Hf. destruct fs as [|f fs _] using rev_ind; [done|]. destruct f as [k v].
  rewrite app_comm_cons, last_addr_app, total_cons. cbn [fst].
  apply Forall_app in Hs as [Hs _]. pose proof (total_nonneg _ Hs). lia.
Qed.
Lemma total_pos fs : sizes_ok fs -> fs <> [] -> 0 < total fs.
Proof.
  intros Hs Hf. destruct fs as [|[k v] fs]; [done|]. apply Forall_cons in Hs as [[Hk _] Hs].
  pose proof (total_nonneg _ Hs). rewrite total_cons. cbn [fst] in *. lia.
Qed.

Lemma compact_ok m xs n0 fs1 n t fs2 n1 ys :
  placed m a (xs ++ (n0, true) :: fs1 ++ (n, t) :: fs2 ++ (n1, true) :: ys) ->
  chain m p a (xs ++ (n0, true) :: fs1 ++ (n, t) :: fs2 ++ (n1, true) :: ys) nx ->
  all_free fs1 -> all_free fs2 ->
  let b := a + total xs + n0 in let k := total fs1 + n + total fs2 in
  exists m', s_compact_free m (b + total fs1) = Some m' /\ upd m m' b (k + 8) /\
    chain m' p a (xs ++ (n0, true) :: (k, false) :: (n1, true) :: ys) nx /\
    placed m' a (xs ++ (n0, true) :: (k, false) :: (n1, true) :: ys).
Proof.
  intros Hpl Hc Hf1 Hf2 b k. set (front := xs ++ (n0, true) :: fs1).
  assert (forall u, xs ++ (n0, true) :: fs1 ++ (n, u) :: fs2 ++ (n1, true) :: ys
    = front ++ (n, u) :: fs2 ++ (n1, true) :: ys) as Efront
    by (intros u; unfold front; by rewrite <- app_assoc).
  assert (a + total front = b + total fs1) as Etf
    by (unfold front, b; rewrite total_app, total_cons; simpl; lia).
  rewrite Efront in Hpl, Hc.
  assert (exists y zs, fs2 ++ (n1, true) :: ys = y :: zs) as (y & zs & Ey)
    by (destruct fs2 as [|f fs2]; eauto).
  rewrite Ey in Hpl, Hc.
  destruct (chain_mark p a nx Hp Hnx m front n t y zs false Hpl Hc)
    as (m1 & Hm1 & Hu1 & Hc1 & Hpl1).
  rewrite <- Ey in Hpl1, Hc1. rewrite Etf in Hm1, Hu1. unfold s_compact_free. rewrite Hm1.
  cbn [mbind option_bind].
  pose proof (placed_fuel _ _ _ Hpl1) as Hfuel. unfold front in Hfuel.
  rewrite !length_app in Hfuel. cbn [length] in Hfuel. rewrite !length_app in Hfuel.
  pose proof (placed_block _ _ _ _ _ _ Hpl1) as (_ & _ & Hn & Hn8 & _ & _ & _ & Htot).
  pose proof (pl_sizes _ _ _ Hpl1) as Hs. apply Forall_app in Hs as [Hsf Hs].
  apply Forall_cons in Hs as [_ Hs]. apply Forall_app in Hs as [Hs2 _].
  unfold front in Hsf. apply Forall_app in Hsf as [_ Hsf]. apply Forall_cons in Hsf as [_ Hs1].
  pose proof (total_nonneg _ Hs1). pose proof (total_nonneg _ Hs2).
  pose proof Hpl1 as Hplb. pose proof Hc1 as Hcb. rewrite <- Efront in Hplb, Hcb.
  assert (free_back (blocks_fuel m1) m1 (b + total fs1) = Some (a + total xs)) as ->
    by (apply (free_back_ok m1 p a nx Hp Hnx fs1 _ xs n0 n _ Hplb Hcb Hf1); lia).
  cbn [mbind option_bind].
  destruct (block_hdr m1 p a nx Hp Hnx _ _ _ _ Hplb Hcb) as (Hh0 & Hla0 & Hna0).
  rewrite (get_next_ok _ _ _ _ _ Hh0 Hna0). cbn [mbind option_bind].
  assert (next_addr (a + total xs) n0 (fs1 ++ (n, false) :: fs2 ++ (n1, true) :: ys) nx = b) as ->
    by (unfold next_addr, b; by destruct fs1).
  rewrite <- Etf.
  rewrite (free_ahead_ok m1 p a nx Hp Hnx ((n, false) :: fs2) _ front n1 ys Hpl1 Hc1);
    [|by constructor|simpl; lia].
  cbn [mbind option_bind]. rewrite total_cons. cbn [fst]. rewrite Etf.
  pose proof Hpl1 as Hpl2. pose proof Hc1 as Hc2.
  change ((n, false) :: fs2 ++ (n1, true) :: ys)
    with (((n, false) :: fs2) ++ (n1, true) :: ys) in Hpl2, Hc2.
  rewrite app_assoc in Hpl2, Hc2.
  destruct (block_hdr m1 p a nx Hp Hnx _ _ _ _ Hpl2 Hc2) as (Hh2 & Hla2 & Hna2).
  rewrite total_app, Z.add_assoc, Etf, last_addr_app', Etf, total_cons in Hh2 by done.
  rewrite last_addr_app', Etf in Hla2 by done. cbn [fst] in Hh2.
  assert (forall u : bool, u = negb (b =? b + total fs1) || negb (last_addr (last_addr p a front)
      (b + total fs1) ((n, false) :: fs2) =? b + total fs1) ->
    (if negb (b =? b + total fs1) then Some true
     else p0 ← s_get_prev_block m1 (b + total fs1 + (n + total fs2));
          Some (negb (p0 =? b + total fs1))) = Some u) as Hjoin.
  { intros u ->. destruct (negb (b =? b + total fs1)); [done|].
    by rewrite (get_prev_ok _ _ _ _ _ Hh2 Hla2). }
  rewrite (Hjoin _ eq_refl). cbn [mbind option_bind].
  destruct (decide (fs1 = [] /\ fs2 = [])) as [[-> ->]|Hne].
  - unfold k. change (total []) with 0. rewrite !Z.add_0_r, Z.eqb_refl. cbn [last_addr negb orb].
    rewrite Z.eqb_refl. exists m1. split; [done|].
    split; [eapply upd_mono; [exact Hu1|simpl; lia|simpl; lia]|].
    rewrite Z.add_0_l. rewrite <- Efront in Hc1, Hpl1. done.
  - assert (negb (b =? b + total fs1) || negb (last_addr (last_addr p a front)
      (b + total fs1) ((n, false) :: fs2) =? b + total fs1) = true) as ->.
    { destruct (decide (fs1 = [])) as [->|Hn1].
      - apply orb_true_iff. right. apply negb_true_iff, Z.eqb_neq, last_addr_ge; [done|lia|tauto].
      - apply orb_true_iff. left. pose proof (total_pos _ Hs1 Hn1).
        apply negb_true_iff, Z.eqb_neq. lia. }
    assert (forall r, xs ++ (n0, true) :: fs1 ++ (n, false) :: fs2 ++ r
      = (xs ++ [(n0, true)]) ++ (fs1 ++ (n, false) :: fs2) ++ r) as E
      by (intros r; by rewrite <- !app_assoc).
    rewrite E in Hplb, Hcb.
    destruct (chain_join p a nx Hp Hnx m1 _ _ _ _ _ Hplb Hcb) as (m2 & Hm2 & Hu2 & Hc3 & Hpl3).
    { destruct fs1 as [|[j v] fs1]; [done|]. apply Forall_cons in Hf1 as [Hv _]. simpl in *. congruence. }
    assert (a + total (xs ++ [(n0, true)]) = b) as Eb by (unfold b; rewrite total_app; simpl; lia).
    assert (total (fs1 ++ (n, false) :: fs2) = k) as Ek
      by (unfold k; rewrite total_app, total_cons; simpl; lia).
    rewrite Eb, Ek in Hm2, Hu2. rewrite Ek in Hc3, Hpl3. rewrite <- app_assoc in Hc3, Hpl3.
    exists m2. split; [|split; [|done]].
    + assert (b + total fs1 + (n + total fs2) = b + k) as -> by (unfold k; lia). exact Hm2.
    + eapply upd_trans; [eapply upd_mono; [exact Hu1|lia|unfold k; lia]|exact Hu2].
Qed.
End Compact.

(** ** Cutting a block *)

Section Split.
Context (p a nx : Z) (Hp : aligned p) (Hnx : aligned nx).

Lemma cut_ok m xs n t j u ys k : placed m a (xs ++ (n, t) :: (j, u) :: ys) ->
  chain m p a (xs ++ (n, t) :: (j, u) :: ys) nx -> 8 <= k -> k mod 8 = 0 -> 8 <= n - k ->
  let b := a + total xs in
  exists m' g, (m ← s_set_prev_block m (b + k) b; m ← s_set_next_block m (b + k) (b + n);
                m ← s_set_prev_block m (b + n) (b + k); s_set_next_block m b (b + k)) = Some m' /\
    upd m m' b (n + 8) /\ kept m m' (b + 8) (k - 8) /\
    chain m' p a (xs ++ (k, t) :: (n - k, g) :: (j, u) :: ys) nx /\
    placed m' a (xs ++ (k, t) :: (n - k, g) :: (j, u) :: ys).
Proof.
  intros Hpl Hc Hk Hk8 Hnk.
  destruct (block_hdr m p a nx Hp Hnx _ _ _ _ Hpl Hc) as (Hh & Hla & Hna).
  destruct (placed_block _ _ _ _ _ _ Hpl) as (Hb & Hmem & Hn & Hn8 & Hb8 & Hend & _ & Hty).
  pose proof Hpl as Hpl2. pose proof Hc as Hc2. rewrite (cons_middle (n, t)), app_assoc in Hpl2, Hc2.
  destruct (block_hdr m p a nx Hp Hnx _ _ _ _ Hpl2 Hc2) as (Hh2 & Hla2 & Hna2).
  destruct (placed_block _ _ _ _ _ _ Hpl2) as (Hbn & Hmem2 & _ & _ & _ & Hend2 & _).
  rewrite last_addr_app in Hh2, Hla2. rewrite total_app, total_cons in Hh2, Hna2, Hbn, Hmem2, Hend2.
  change (total []) with 0 in *. cbn [fst] in *. rewrite Z.add_0_r, Z.add_assoc in *.
  set (b := a + total xs) in *.
  assert (aligned (b + k)) as Hbk by (destruct Hb, Hbn; split; word_lia).
  assert (in_mem m (b + k)) as Hmk by (destruct Hmem as (? & ? & ?); split_and!; [lia|lia|done]).
  cbn [next_addr] in Hh, Hna.
  destruct (some_hdr m (b + k) Hmk) as (kp & kn & g & Hg & Hkp & Hkn).
  destruct (set_prev_ok _ _ _ _ _ Hg Hkp Hmk b Hb) as (m1 & -> & Hu1 & Hg1).
  cbn [mbind option_bind]. pose proof (in_mem_upd _ _ _ _ _ Hmk Hu1) as Hmk1.
  destruct (set_next_ok _ _ _ _ _ Hg1 Hkn Hmk1 (b + n) Hbn) as (m2 & -> & Hu2 & Hg2).
  cbn [mbind option_bind].
  assert (upd m m2 (b + k) 8) as Hu12 by (by eapply upd_trans).
  assert (hdr m2 (b + n) b (next_addr (b + n) j ys nx) u) as Hh3
    by (eapply hdr_upd; [exact Hh2|exact Hu12|lia|lia]).
  destruct (set_prev_ok _ _ _ _ _ Hh3 (aligned_div _ Hla2) (in_mem_upd _ _ _ _ _ Hmem2 Hu12)
    (b + k) Hbk) as (m3 & -> & Hu3 & Hh4). cbn [mbind option_bind].
  assert (upd m m3 (b + k) (n - k + 8)) as Hu13.
  { eapply upd_trans; [eapply upd_mono; [exact Hu12|lia|lia]|].
    eapply upd_mono; [exact Hu3|lia|lia]. }
  assert (hdr m3 b (last_addr p a xs) (b + n) t) as Hh5
    by (eapply hdr_upd; [exact Hh|exact Hu13|lia|lia]).
  destruct (set_next_ok _ _ _ _ _ Hh5 (aligned_div _ Hbn) (in_mem_upd _ _ _ _ _ Hmem Hu13)
    (b + k) Hbk) as (m4 & -> & Hu4 & Hh6).
  assert (upd m m4 b (n + 8)) as Hu.
  { eapply upd_trans; [eapply upd_mono; [exact Hu13|lia|lia]|].
    eapply upd_mono; [exact Hu4|lia|lia]. }
  exists m4, g. split; [done|]. split; [done|]. split.
  { eapply kept_trans; eapply upd_kept; [exact Hu13|lia|lia|exact Hu4|lia|lia]. }
  apply (chain_mid_change p a nx m m4 xs [(n, t)] [(k, t); (n - k, g)] j u ys);
    cbn [total foldr fst]; rewrite ?Z.add_0_r; try done.
  - repeat apply Forall_cons_2; [cbn [fst]; word_lia..|constructor].
  - lia.
  - fold b. cbn [chain]. split; [done|]. split; [|done].
    eapply hdr_upd; [|exact Hu4|lia|lia]. eapply hdr_upd; [exact Hg2|exact Hu3|lia|lia].
  - fold b. cbn [last_addr]. eapply hdr_upd; [exact Hh4|exact Hu4|lia|lia].
Qed.

Lemma split_ok m xs n fs n1 ys k : placed m a (xs ++ (n, true) :: fs ++ (n1, true) :: ys) ->
  chain m p a (xs ++ (n, true) :: fs ++ (n1, true) :: ys) nx -> all_free fs ->
  8 <= k -> k mod 8 = 0 -> 8 <= n - k ->
  let b := a + total xs in
  exists m', s_split m b k = Some m' /\ upd m m' b (n + total fs + 8) /\ kept m m' (b + 8) (k - 8) /\
    chain m' p a (xs ++ (k, true) :: (n - k + total fs, false) :: (n1, true) :: ys) nx /\
    placed m' a (xs ++ (k, true) :: (n - k + total fs, false) :: (n1, true) :: ys).
Proof.
  intros Hpl Hc Hf Hk Hk8 Hnk. pose proof (pl_sizes _ _ _ Hpl) as Hs.
  apply Forall_app in Hs as [_ Hs]. apply Forall_cons in Hs as [_ Hs]. apply Forall_app in Hs as [Hs _].
  pose proof (total_nonneg _ Hs).
  assert (exists j u zs, fs ++ (n1, true) :: ys = (j, u) :: zs) as (j & u & zs & E)
    by (destruct fs as [|[j u] fs]; simpl; eauto).
  pose proof Hpl as Hpl'. pose proof Hc as Hc'. rewrite E in Hpl, Hc.
  destruct (block_hdr m p a nx Hp Hnx _ _ _ _ Hpl Hc) as (Hh & Hla & Hna).
  destruct (placed_block _ _ _ _ _ _ Hpl) as (Hb & Hmem & Hn & Hn8 & Hb8 & Hend & _ & Hty).
  destruct (cut_ok m xs n true j u zs k Hpl Hc Hk Hk8 Hnk) as (m1 & g & Hm1 & Hu1 & Hk1 & Hc1 & Hpl1).
  cbv zeta in *. set (b := a + total xs) in *. unfold s_split.
  rewrite (get_next_ok _ _ _ _ _ Hh Hna). cbn [mbind option_bind next_addr].
  assert (is_u32 (b + k)) as Hu32 by (destruct Hb as [_ Hb], Hpl as [_ _ _ [Hl _]]; word_lia).
  rewrite (u32_small _ Hu32).
  destruct (s_set_prev_block m (b + k) b) as [m2|]; [|done]. cbn [mbind option_bind] in *.
  destruct (s_set_next_block m2 (b + k) (b + n)) as [m3|]; [|done]. cbn [mbind option_bind] in *.
  destruct (s_set_prev_block m3 (b + n) (b + k)) as [m4|]; [|done]. cbn [mbind option_bind] in *.
  rewrite Hm1. cbn [mbind option_bind]. rewrite <- E in Hc1, Hpl1.
  destruct (compact_ok p a nx Hp Hnx m1 xs k [] (n - k) g fs n1 ys Hpl1 Hc1 ltac:(constructor) Hf)
    as (m5 & Hm5 & Hu5 & Hc5 & Hpl5).
  cbv zeta in *. fold b in Hm5, Hu5. change (total []) with 0 in *. rewrite Z.add_0_r in Hm5.
  rewrite Z.add_0_l in *. exists m5. split; [done|]. split; [|split; [|done]].
  - eapply upd_trans; [eapply upd_mono; [exact Hu1|lia|lia]|].
    eapply upd_mono; [exact Hu5|lia|lia].
  - eapply kept_trans; [exact Hk1|]. eapply upd_kept; [exact Hu5|lia|lia].
Qed.
End Split.

(** ** The search *)

(** The best-fit search on the sizes. *)
Fixpoint scan (size a : Z) (bs : blocks) (acc : Z * Z) : Z * Z :=
  match bs with
  | [] => acc
  | (n, t) :: bs =>
      scan size (a + n) bs (if negb t && (size <=? n) && (n <? acc.2) then (a, n) else acc)
  end.

Lemma best_fit_ok m p a size bs : forall fuel xs n acc,
  placed m a (xs ++ bs ++ [(n, true)]) -> chain m p a (xs ++ bs ++ [(n, true)]) 0 ->
  aligned p -> (S (length bs) < fuel)%nat ->
  best_fit fuel m size (a + total xs) acc.1 acc.2 = Some (scan size (a + total xs) bs acc).
Proof.
  induction bs as [|[k t] bs IH]; intros [|fuel] xs n acc Hpl Hc Hp Hfuel; try lia.
  - cbn [app] in Hpl, Hc. assert (aligned 0) as H0 by done.
    destruct (block_hdr m p a 0 Hp H0 _ _ _ _ Hpl Hc) as (Hh & Hla & Hna).
    destruct (placed_block _ _ _ _ _ _ Hpl) as (_ & _ & _ & _ & Hb8 & _).
    cbn [best_fit]. rewrite (proj2 (Z.eqb_neq _ _)) by lia.
    rewrite (is_free_ok _ _ _ _ _ Hh Hna). cbn [mbind option_bind negb].
    rewrite (get_next_ok _ _ _ _ _ Hh Hna). cbn [mbind option_bind next_addr].
    destruct fuel as [|fuel]; [simpl in Hfuel; lia|]. cbn [best_fit scan]. by destruct acc.
  - cbn [app] in Hpl, Hc. assert (aligned 0) as H0 by done.
    destruct (block_hdr m p a 0 Hp H0 _ _ _ _ Hpl Hc) as (Hh & Hla & Hna).
    destruct (placed_block _ _ _ _ _ _ Hpl) as (Hb & _ & Hk & _ & Hb8 & Hend & _).
    pose proof (pl_mem _ _ _ Hpl) as [Hlen _].
    assert (next_addr (a + total xs) k (bs ++ [(n, true)]) 0 = a + total xs + k) as Hnext
      by (by destruct bs).
    rewrite Hnext in Hh, Hna. cbn [best_fit]. rewrite (proj2 (Z.eqb_neq _ _)) by lia.
    rewrite (is_free_ok _ _ _ _ _ Hh Hna), (block_size_ok _ _ _ _ _ Hh Hna),
      (get_next_ok _ _ _ _ _ Hh Hna). cbn [mbind option_bind].
    rewrite (proj2 (Z.eqb_neq _ 0)) by lia. rewrite u32_small by (destruct Hna; word_lia).
    replace (a + total xs + k - (a + total xs)) with k by lia.
    assert ((if negb t then Some (if (size <=? k) && (k <? acc.2) then (a + total xs, k)
        else (acc.1, acc.2)) else Some (acc.1, acc.2))
      = Some (if negb t && (size <=? k) && (k <? acc.2) then (a + total xs, k) else acc)) as ->
      by (destruct acc, t; cbn [negb andb]; by try destruct (_ && _)).
    cbn [mbind option_bind scan].
    set (acc' := if negb t && (size <=? k) && (k <? acc.2) then (a + total xs, k) else acc).
    rewrite (cons_middle (k, t)), app_assoc in Hpl, Hc.
    specialize (IH fuel (xs ++ [(k, t)]) n acc' Hpl Hc Hp ltac:(simpl in Hfuel; lia)).
    rewrite total_app in IH. simpl in IH. rewrite Z.add_0_r, Z.add_assoc in IH.
    by destruct acc'.
Qed.

(** What the search finds: nothing only if every free block is too small, and
    else a free block that is large enough, and none that is smaller. *)
Lemma scan_spec size bs : forall a acc, sizes_ok bs ->
  let r := scan size a bs acc in
  (r = acc /\ forall n, (n, false) ∈ bs -> n < size \/ acc.2 <= n) \/
  (exists xs n ys, bs = xs ++ (n, false) :: ys /\ r = (a + total xs, n) /\ size <= n < acc.2 /\
     forall k, (k, false) ∈ bs -> size <= k -> n <= k).
Proof.
  induction bs as [|[n t] bs IH]; intros a acc Hs r.
  - left. split; [done|]. intros n Hn. by apply elem_of_nil in Hn.
  - subst r. cbn [scan]. apply Forall_cons in Hs as [_ Hs].
    set (acc' := if negb t && (size <=? n) && (n <? acc.2) then (a, n) else acc).
    destruct (IH (a + n) acc' Hs)
      as [[-> Hall]|(xs & k & ys & -> & -> & Hk & Hall)].
    + subst acc'. destruct (negb t && (size <=? n) && (n <? acc.2)) eqn:E.
      * right. destruct t; [done|]. exists [], n, bs. cbn [fst snd negb andb] in *.
        split_and!; [done|f_equal; simpl; lia|lia|lia|]. intros k Hk Hsk.
        apply elem_of_cons in Hk as [[= ->]|Hk]; [lia|]. destruct (Hall _ Hk); lia.
      * left. split; [done|]. intros k Hk. apply elem_of_cons in Hk as [[= <- <-]|Hk]; [|by apply Hall].
        cbn [negb andb] in E. lia.
    + right. exists ((n, t) :: xs), k, ys. rewrite total_cons. cbn [fst].
      assert (acc'.2 <= acc.2 /\ (negb t = true -> size <= n -> acc'.2 <= n)) as [Ha Hn].
      { subst acc'. destruct (negb t && (size <=? n) && (n <? acc.2)) eqn:E; cbn [snd]; [lia|].
        split; [lia|]. intros Ht Hle. rewrite Ht in E. cbn [andb] in E. lia. }
      split_and!; [done|f_equal; lia|lia|lia|]. intros i Hi Hsi.
      apply elem_of_cons in Hi as [[= <- <-]|Hi]; [|by apply Hall]. specialize (Hn eq_refl). lia.
Qed.

(** ** Regions *)

(** A region of RAM: its blocks between the two guards. *)
Definition guarded (bs : blocks) : blocks := (8, true) :: bs ++ [(8, true)].

Definition first_taken (bs : blocks) : bool := from_option snd true (head bs).
Definition last_taken (bs : blocks) : bool := from_option snd true (last bs).
(** No two free blocks are neighbours. *)
Fixpoint coalesced (bs : blocks) : Prop :=
  match bs with
  | [] => True
  | (_, t) :: bs => (t = false -> first_taken bs = true) /\ coalesced bs
  end.

Record region (m : mem) (s : Z) (bs : blocks) : Prop := {
  rg_placed : placed m s (guarded bs);
  rg_chain : chain m 0 s (guarded bs) 0;
  rg_coalesced : coalesced bs
}.

(** The blocks in use: where the client's bytes are, and how many. *)
Fixpoint live (a : Z) (bs : blocks) : list (Z * Z) :=
  match bs with
  | [] => []
  | (n, t) :: bs => if t then (a + 8, n - 8) :: live (a + n) bs else live (a + n) bs
  end.

Lemma coalesced_app xs ys : coalesced (xs ++ ys) <->
  coalesced xs /\ coalesced ys /\ (last_taken xs = true \/ first_taken ys = true).
Proof.
  unfold last_taken. induction xs as [|[n t] xs IH]; [simpl; tauto|].
  cbn [app coalesced]. rewrite IH. destruct xs as [|x xs].
  - cbn [app last from_option coalesced snd]. change (first_taken []) with true.
    clear IH. destruct t, (first_taken ys); intuition congruence.
  - change (first_taken ((x :: xs) ++ ys)) with (first_taken (x :: xs)).
    change (last ((n, t) :: x :: xs)) with (last (x :: xs)). tauto.
Qed.
Lemma live_app a xs ys : live a (xs ++ ys) = live a xs ++ live (a + total xs) ys.
Proof.
  revert a. induction xs as [|[n t] xs IH]; intros a.
  - cbn [app live]. change (total []) with 0. by rewrite Z.add_0_r.
  - cbn [app live]. rewrite IH, total_cons. cbn [fst]. rewrite Z.add_assoc. by destruct t.
Qed.
Lemma live_free a fs : all_free fs -> live a fs = [].
Proof.
  intros Hf. revert a. induction Hf as [|[n t] fs Ht _ IH]; intros a; [done|].
  cbn [snd] in Ht. subst t. apply IH.
Qed.
Lemma live_range bs p k : forall a, sizes_ok bs -> (p, k) ∈ live a bs ->
  a + 8 <= p /\ p + k <= a + total bs /\ 0 <= k.
Proof.
  induction bs as [|[n t] bs IH]; intros a Hs Hin; [by apply elem_of_nil in Hin|].
  apply Forall_cons in Hs as [[Hn _] Hs]. cbn [fst] in Hn. rewrite total_cons. cbn [fst live] in *.
  pose proof (total_nonneg _ Hs).
  assert ((p, k) = (a + 8, n - 8) \/ (p, k) ∈ live (a + n) bs) as [[= -> ->]|Hin'].
  { destruct t; [|by right]. by apply elem_of_cons. }
  - lia.
  - destruct (IH _ Hs Hin'). lia.
Qed.

Lemma split_back xs : exists xs' fs, xs = xs' ++ fs /\ all_free fs /\ last_taken xs' = true.
Proof.
  induction xs as [|[n t] xs IH] using rev_ind.
  { exists [], []. split_and!; [done|constructor|done]. }
  destruct t.
  - exists (xs ++ [(n, true)]), []. unfold last_taken. rewrite last_snoc. split_and!; [by rewrite app_nil_r|constructor|done].
  - destruct IH as (xs' & fs & -> & Hf & Ht). exists xs', (fs ++ [(n, false)]).
    split_and!; [by rewrite app_assoc| |done]. apply Forall_app. split; [done|by apply Forall_singleton].
Qed.
Lemma split_ahead ys : exists fs ys', ys = fs ++ ys' /\ all_free fs /\ first_taken ys' = true.
Proof.
  induction ys as [|[n t] ys (fs & ys' & -> & Hf & Ht)].
  { exists [], []. split_and!; [done|constructor|done]. }
  destruct t.
  - exists [], ((n, true) :: fs ++ ys'). split_and!; [done|constructor|done].
  - exists ((n, false) :: fs), ys'. split_and!; [done|by constructor|done].
Qed.
(** The guards: what comes before and behind is taken. *)
Lemma guard_front xs : last_taken xs = true -> exists pre n0, (8, true) :: xs = pre ++ [(n0, true)].
Proof.
  unfold last_taken. destruct xs as [|[n t] xs _] using rev_ind; [by exists [], 8|].
  rewrite last_snoc. cbn. intros ->. by exists ((8, true) :: xs), n.
Qed.
Lemma guard_back ys : first_taken ys = true -> exists n1 post, ys ++ [(8, true)] = (n1, true) :: post.
Proof.
  destruct ys as [|[n t] ys]; [by exists 8, []|]. cbn. intros ->. by exists n, (ys ++ [(8, true)]).
Qed.

Lemma act_size_ok x : 0 <= x -> x + 7 < 2 ^ 32 -> s_act_size x = 8 * ((x + 7) / 8).
Proof.
  intros Hx Hs. unfold s_act_size, DYN_SIZE_MULT, DYN_SIZE_MULT_SHIFT.
  change (8 - 1) with (2 ^ 3 - 1). rewrite land_mask by lia. change (2 ^ 3) with 8.
  destruct (Z.eqb_spec (x mod 8) 0) as [H|H]; cbn [negb].
  - word_lia.
  - rewrite Z.shiftr_div_pow2, Z.shiftl_mul_pow2 by lia. change (2 ^ 3) with 8.
    rewrite u32_small; word_lia.
Qed.

(** ** The operations on a region *)

Lemma guarded_app xs ys : guarded (xs ++ ys) = ((8, true) :: xs) ++ ys ++ [(8, true)].
Proof. unfold guarded. by rewrite <- app_assoc. Qed.
Lemma aligned_0 : aligned 0.
Proof. done. Qed.

Lemma region_sizes m s bs : region m s bs -> sizes_ok bs.
Proof.
  intros [[_ Hs _ _] _ _]. apply Forall_cons in Hs as [_ Hs]. by apply Forall_app in Hs as [? _].
Qed.
Lemma region_bounds m s bs : region m s bs ->
  8 <= s /\ s + 16 + total bs <= Z.of_nat (length m) /\ Z.of_nat (length m) <= 2 ^ 32 /\
  s mod 8 = 0 /\ 0 <= total bs.
Proof.
  intros H. pose proof (total_nonneg _ (region_sizes _ _ _ H)).
  destruct H as [[[? ?] _ He [? _]] _ _]. unfold guarded in He.
  rewrite total_cons, total_app in He. simpl in He. lia.
Qed.

(** What an allocation of [need] bytes, header included, makes of the free
    block of [n] bytes it takes. *)
Definition carve (need n : Z) : blocks :=
  if n - need <? DYN_MIN_SPLIT_SIZE then [(n, true)] else [(need, true); (n - need, false)].
Lemma total_carve need n : total (carve need n) = n.
Proof. unfold carve. destruct (_ <? _); simpl; lia. Qed.

(** Free neighbours of a taken block are followed by a taken one. *)
Lemma coalesced_free_next xs n ys : coalesced (xs ++ (n, false) :: ys) ->
  first_taken ys = true /\ last_taken xs = true /\ coalesced xs /\ coalesced ys.
Proof.
  intros (Hx & [Hy Hy'] & Hl)%coalesced_app. destruct Hl as [Hl|]; [by auto|done].
Qed.
Lemma coalesced_taken xs n ys : coalesced xs -> coalesced ys -> coalesced (xs ++ (n, true) :: ys).
Proof. intros Hx Hy. apply coalesced_app. split_and!; [done|by split|by right]. Qed.

Definition need_of (size : Z) : Z := 8 * ((size + 15) / 8).
Lemma need_ok size : 0 < size -> size + 16 <= 2 ^ 32 ->
  s_act_size (u32 (size + DYN_HEADER_SIZE)) = need_of size /\ size + 8 <= need_of size < size + 16 /\
  need_of size mod 8 = 0.
Proof.
  intros Hz Hs. unfold DYN_HEADER_SIZE, need_of. rewrite u32_small by word_lia.
  rewrite act_size_ok by lia. split_and!; [f_equal; f_equal; lia|word_lia|word_lia|word_lia].
Qed.

Lemma get_free_block_need m s bs size need : region m s bs -> size <> 0 ->
  s_act_size (u32 (size + DYN_HEADER_SIZE)) = need -> 8 <= need -> need mod 8 = 0 ->
  exists r m', s_get_free_block m size s = Some (r, m') /\
    ((r = 0 /\ m' = m /\ forall n, (n, false) ∈ bs -> n < need) \/
     exists xs n ys, bs = xs ++ (n, false) :: ys /\ r = s + 8 + total xs + 8 /\
       need <= n /\ (forall k, (k, false) ∈ bs -> need <= k -> n <= k) /\
       region m' s (xs ++ carve (need) n ++ ys) /\ upd m m' (s + 8 + total xs) (n + 8)).
Proof.
  intros Hr Hz Hneed Hnb Hn8.
  pose proof (region_bounds _ _ _ Hr) as (Hs8 & He & Hl & _ & _).
  pose proof (region_sizes _ _ _ Hr) as Hsizes. destruct Hr as [Hpl Hc Hco].
  unfold s_get_free_block. rewrite (proj2 (Z.eqb_neq _ _)) by done. rewrite Hneed.
  destruct (block_hdr m 0 s 0 aligned_0 aligned_0 [] 8 true _ Hpl Hc) as (Hh & _ & Hna).
  change (total []) with 0 in Hh, Hna. rewrite Z.add_0_r in Hh, Hna.
  assert (next_addr s 8 (bs ++ [(8, true)]) 0 = s + total [(8, true)]) as Hnext by (by destruct bs).
  rewrite Hnext in Hh, Hna. rewrite (get_next_ok _ _ _ _ _ Hh Hna). cbn [mbind option_bind].
  pose proof (placed_fuel _ _ _ Hpl) as Hfuel. unfold guarded in Hfuel. simpl in Hfuel.
  rewrite length_app in Hfuel. simpl in Hfuel.
  pose proof (best_fit_ok m 0 s (need) bs (blocks_fuel m) [(8, true)] 8 (0, 0xFFFFFFFF)
    Hpl Hc aligned_0 ltac:(lia)) as Hfit. cbn [fst snd] in Hfit. rewrite Hfit.
  change (total [(8, true)]) with 8. cbn [mbind option_bind].
  destruct (scan_spec (need) bs (s + 8) (0, 0xFFFFFFFF) Hsizes)
    as [[-> Hall]|(xs & n & ys & -> & -> & Hn & Hall)].
  - exists 0, m. split; [done|]. left. split_and!; [done|done|]. intros n Hn.
    destruct (Hall n Hn) as [|Hbig]; [done|]. cbn [snd] in Hbig.
    assert (n <= total bs) as Hle; [|lia].
    apply list_elem_of_split in Hn as (l1 & l2 & ->). apply Forall_app in Hsizes as [H1 H2].
    apply Forall_cons in H2 as [_ H2]. rewrite total_app, total_cons. cbn [fst].
    pose proof (total_nonneg _ H1). pose proof (total_nonneg _ H2). lia.
  - cbn [snd] in Hn. rewrite (guarded_app xs ((n, false) :: ys)) in Hpl, Hc.
    destruct (coalesced_free_next _ _ _ Hco) as (Hft & _ & Hcx & Hcy).
    destruct (guard_back ys Hft) as (n1 & post & Eg).
    cbn [app] in Hpl, Hc. rewrite app_comm_cons, Eg in Hpl, Hc.
    destruct (placed_block _ _ _ _ _ _ Hpl) as (Hb & _ & _ & Hnn8 & _ & Hend & Htx & Hty).
    assert (s + total ((8, true) :: xs) = s + 8 + total xs) as Eb by (rewrite total_cons; simpl; lia).
    assert (8 <= total ((n1, true) :: post)) as Hpost.
    { pose proof (pl_sizes _ _ _ Hpl) as Hps. apply Forall_app in Hps as [_ Hps].
      apply Forall_cons in Hps as [_ Hps]. apply Forall_cons in Hps as [[Hn1 _] Hps].
      pose proof (total_nonneg _ Hps). rewrite total_cons. cbn [fst] in *. lia. }
    rewrite (proj2 (Z.eqb_neq _ _)) by (rewrite total_cons in Htx; simpl in Htx; lia).
    destruct (chain_mark 0 s 0 aligned_0 aligned_0 m _ n false _ _ true Hpl Hc)
      as (m1 & Hm1 & Hu1 & Hc1 & Hpl1).
    rewrite Eb in Hm1, Hu1, Hend. rewrite Hm1. cbn [mbind option_bind].
    assert (u32 (s + 8 + total xs + DYN_HEADER_SIZE) = s + 8 + total xs + 8) as ->
      by (apply u32_small; destruct Hb; unfold DYN_HEADER_SIZE; word_lia).
    rewrite u32_small, Z.gtb_ltb, Z.geb_leb by word_lia.
    destruct (Z.ltb_spec (n - need) DYN_MIN_SPLIT_SIZE) as [Hlt|Hge].
    + rewrite (proj2 (Z.leb_gt _ _)), andb_false_r by lia. exists (s + 8 + total xs + 8), m1.
      split; [done|]. right. exists xs, n, ys.
      assert (carve (need) n = [(n, true)]) as ->
        by (unfold carve; by rewrite (proj2 (Z.ltb_lt _ _) Hlt)).
      split_and!; try done; try lia; [split|].
      * rewrite guarded_app. cbn [app]. by rewrite Eg.
      * rewrite guarded_app. cbn [app]. by rewrite Eg.
      * by apply coalesced_taken.
      * eapply upd_mono; [exact Hu1|lia|lia].
    + unfold DYN_MIN_SPLIT_SIZE in *. rewrite (proj2 (Z.leb_le _ _)), (proj2 (Z.ltb_lt _ _)) by lia.
      cbn [andb].
      destruct (split_ok 0 s 0 aligned_0 aligned_0 m1 ((8, true) :: xs) n [] n1 post (need)
        Hpl1 Hc1 ltac:(constructor)) as (m2 & Hm2 & Hu2 & _ & Hc2 & Hpl2); [lia|done|lia|].
      cbv zeta in *. rewrite Eb in *. rewrite Hm2. cbn [mbind option_bind].
      change (total []) with 0 in *. rewrite Z.add_0_r in *.
      exists (s + 8 + total xs + 8), m2. split; [done|]. right. exists xs, n, ys.
      assert (carve (need) n = [(need, true); (n - need, false)]) as ->
        by (unfold carve, DYN_MIN_SPLIT_SIZE; by rewrite (proj2 (Z.ltb_ge _ _) Hge)).
      split_and!; try done; try lia; [split|].
      * rewrite guarded_app. cbn [app]. by rewrite Eg.
      * rewrite guarded_app. cbn [app]. by rewrite Eg.
      * cbn [app]. apply coalesced_taken; [done|]. by split.
      * eapply upd_trans; [eapply upd_mono; [exact Hu1|lia|lia]|exact Hu2].
Qed.

Lemma get_free_block_ok m s bs size : region m s bs -> 0 < size -> size + 16 <= 2 ^ 32 ->
  exists r m', s_get_free_block m size s = Some (r, m') /\
    ((r = 0 /\ m' = m /\ forall n, (n, false) ∈ bs -> n < need_of size) \/
     exists xs n ys, bs = xs ++ (n, false) :: ys /\ r = s + 8 + total xs + 8 /\
       need_of size <= n /\ (forall k, (k, false) ∈ bs -> need_of size <= k -> n <= k) /\
       region m' s (xs ++ carve (need_of size) n ++ ys) /\ upd m m' (s + 8 + total xs) (n + 8)).
Proof.
  intros Hr Hz Hsz. destruct (need_ok size Hz Hsz) as (Hneed & Hnb & Hn8).
  apply get_free_block_need; [done|lia|done|lia|done].
Qed.

(** The blocks a region has after a taken one is freed. *)
Lemma free_region_ok m s xs n ys : region m s (xs ++ (n, true) :: ys) ->
  exists m' xs' fs1 fs2 ys', s_free_block m (s + 8 + total xs + 8) = Some m' /\
    xs = xs' ++ fs1 /\ ys = fs2 ++ ys' /\ all_free fs1 /\ all_free fs2 /\
    region m' s (xs' ++ (total fs1 + n + total fs2, false) :: ys') /\
    upd m m' (s + 8 + total xs') (total fs1 + n + total fs2 + 8).
Proof.
  intros Hr. pose proof (region_bounds _ _ _ Hr) as (Hs8 & He & Hl & _ & _).
  destruct Hr as [Hpl Hc Hco].
  destruct (split_back xs) as (xs' & fs1 & -> & Hf1 & Ht1).
  destruct (split_ahead ys) as (fs2 & ys' & -> & Hf2 & Ht2).
  destruct (guard_front xs' Ht1) as (pre & n0 & E0). destruct (guard_back ys' Ht2) as (n1 & post & E1).
  assert (forall mid, guarded (xs' ++ mid ++ ys') = pre ++ (n0, true) :: mid ++ (n1, true) :: post) as E.
  { intros mid. rewrite guarded_app, E0, <- E1, <- !app_assoc. done. }
  assert ((xs' ++ fs1) ++ (n, true) :: fs2 ++ ys' = xs' ++ (fs1 ++ (n, true) :: fs2) ++ ys') as Em
    by (by rewrite <- !app_assoc).
  rewrite Em, E in Hpl, Hc. rewrite <- app_assoc in Hpl, Hc. cbn [app] in Hpl, Hc.
  pose proof Hpl as Hpl'. rewrite (cons_middle (n0, true)), app_assoc, app_assoc in Hpl'.
  destruct (placed_block _ _ _ _ _ _ Hpl') as (Hb & _).
  assert (s + total pre + n0 = s + 8 + total xs') as Eb.
  { pose proof (f_equal total E0) as Et. rewrite total_cons, total_app, total_cons in Et.
    change (total []) with 0 in Et. cbn [fst] in Et. lia. }
  assert (s + total ((pre ++ [(n0, true)]) ++ fs1) = s + 8 + total xs' + total fs1) as Ebf
    by (rewrite !total_app; simpl; lia).
  rewrite Ebf in Hb.
  destruct (compact_ok 0 s 0 aligned_0 aligned_0 m pre n0 fs1 n true fs2 n1 post Hpl Hc Hf1 Hf2)
    as (m' & Hm' & Hu & Hc' & Hpl2). cbv zeta in *. rewrite Eb in *.
  exists m', xs', fs1, fs2, ys'. split.
  { unfold s_free_block, DYN_HEADER_SIZE. rewrite total_app, u32_small by (destruct Hb; word_lia).
    rewrite <- Hm'. f_equal. lia. }
  split_and!; try done. split.
  - rewrite (cons_middle _ xs'), E. exact Hpl2.
  - rewrite (cons_middle _ xs'), E. exact Hc'.
  - apply coalesced_app in Hco as (Hcx & [_ Hcy] & _). apply coalesced_app in Hcx as (Hcx & _).
    apply coalesced_app in Hcy as (_ & Hcy & _).
    apply coalesced_app. split_and!; [done|by split|by left].
Qed.

Lemma region_block m s xs n t ys : region m s (xs ++ (n, t) :: ys) ->
  let b := s + 8 + total xs in
  s_get_block_size m b = Some n /\ 8 <= n /\ n mod 8 = 0 /\ aligned b /\
  0 <= total xs /\ b + n + 8 <= Z.of_nat (length m) <= 2 ^ 32.
Proof.
  intros Hr. pose proof (region_bounds _ _ _ Hr) as (Hs8 & He & Hl & _ & _).
  pose proof (region_sizes _ _ _ Hr) as Hs. rewrite total_app, total_cons in He.
  apply Forall_app in Hs as [Hsx Hs]. apply Forall_cons in Hs as [_ Hs].
  pose proof (total_nonneg _ Hs). pose proof (total_nonneg _ Hsx). cbn [fst] in He. destruct Hr as [Hpl Hc _].
  rewrite guarded_app in Hpl, Hc. cbn [app] in Hpl, Hc. rewrite app_comm_cons in Hpl, Hc.
  destruct (block_hdr m 0 s 0 aligned_0 aligned_0 _ _ _ _ Hpl Hc) as (Hh & _ & Hna).
  destruct (placed_block _ _ _ _ _ _ Hpl) as (Hb & _ & Hn & Hn8 & Hb8 & _).
  rewrite total_cons in *. cbn [fst] in *. rewrite Z.add_assoc in *.
  assert (next_addr (s + 8 + total xs) n (ys ++ [(8, true)]) 0 = s + 8 + total xs + n) as E
    by (by destruct ys).
  rewrite E in Hh, Hna. rewrite (block_size_ok _ _ _ _ _ Hh Hna).
  rewrite (proj2 (Z.eqb_neq _ 0)) by lia. rewrite u32_small by word_lia.
  split_and!; try done; try lia. f_equal. lia.
Qed.

Lemma actual_size_ok m s xs n t ys : region m s (xs ++ (n, t) :: ys) ->
  s_get_actual_block_size m (s + 8 + total xs + 8) = Some (n - 8).
Proof.
  intros Hr. destruct (region_block _ _ _ _ _ _ Hr) as (Hsize & Hn & _ & [_ Hb] & _ & Hl).
  unfold s_get_actual_block_size, DYN_HEADER_SIZE. rewrite u32_small by word_lia.
  replace (s + 8 + total xs + 8 - 8) with (s + 8 + total xs) by lia. rewrite Hsize.
  cbn [mbind option_bind]. by rewrite u32_small by word_lia.
Qed.

(** Shrinking a block cuts it if enough is left over, which then joins the
    free block behind it. *)
Lemma shrink_region_ok m s xs n ys size : region m s (xs ++ (n, true) :: ys) ->
  0 < size -> size < n - 8 -> size + 16 <= 2 ^ 32 ->
  let b := s + 8 + total xs in
  exists m' k fs ys', s_shrink_block m (b + 8) size = Some m' /\
    size + 8 <= k <= n /\ k < size + 32 /\ ys = fs ++ ys' /\ all_free fs /\
    (exists rest, (rest = [] /\ fs = [] /\ k = n \/ exists j, rest = [(j, false)] /\ j = n + total fs - k) /\
       region m' s (xs ++ (k, true) :: rest ++ ys')) /\
    upd m m' b (n + total fs + 8) /\ kept m m' (b + 8) (k - 8).
Proof.
  intros Hr Hz Hsn Hsz b. destruct (region_block _ _ _ _ _ _ Hr) as (Hsize & Hn & Hn8 & [_ Hb] & Htx & Hl).
  destruct (need_ok size Hz Hsz) as (Hneed & Hnb & Hneed8).
  pose proof (region_bounds _ _ _ Hr) as (Hs8 & _ & _ & _ & _).
  assert (need_of size <= n) as Hle by word_lia. fold b in Hsize, Hb, Hl.
  unfold s_shrink_block. rewrite Hneed. unfold DYN_HEADER_SIZE.
  rewrite (u32_small (b + 8 - 8)) by word_lia. replace (b + 8 - 8) with b by lia.
  rewrite Hsize. cbn [mbind option_bind]. rewrite u32_small, Z.geb_leb by word_lia.
  destruct (Z.leb_spec n (need_of size)) as [Hge|Hlt]; cbn [orb];
    [|destruct (Z.ltb_spec (n - need_of size) DYN_MIN_SPLIT_SIZE) as [Hlt16|Hge16]].
  1,2: exists m, n, [], ys; unfold DYN_MIN_SPLIT_SIZE in *; split_and!; try done; try lia;
    [constructor|exists []; split; [by left|done]|by apply upd_refl, (pl_mem _ _ _ (rg_placed _ _ _ Hr))].
  unfold DYN_MIN_SPLIT_SIZE in *. destruct Hr as [Hpl Hc Hco].
  destruct (split_ahead ys) as (fs & ys' & -> & Hf & Ht).
  destruct (guard_back ys' Ht) as (n1 & post & E1).
  assert (forall mid, guarded (xs ++ mid ++ ys') = ((8, true) :: xs) ++ mid ++ (n1, true) :: post) as E.
  { intros mid. by rewrite guarded_app, <- E1, <- !app_assoc. }
  change (xs ++ (n, true) :: fs ++ ys') with (xs ++ ((n, true) :: fs) ++ ys') in Hpl, Hc, Hco.
  rewrite E in Hpl, Hc.
  destruct (split_ok 0 s 0 aligned_0 aligned_0 m ((8, true) :: xs) n fs n1 post (need_of size)
    Hpl Hc Hf ltac:(lia) Hneed8 ltac:(lia)) as (m' & Hm' & Hu & Hk & Hc' & Hpl').
  assert (s + total ((8, true) :: xs) = b) as Eb by (rewrite total_cons; unfold b; simpl; lia).
  cbv zeta in *. rewrite Eb in *.
  exists m', (need_of size), fs, ys'. split_and!; try done; try lia.
  exists [(n - need_of size + total fs, false)]. split.
  - right. eexists. split; [done|lia].
  - change ((need_of size, true) :: [(n - need_of size + total fs, false)] ++ ys')
      with ([(need_of size, true); (n - need_of size + total fs, false)] ++ ys').
    split; rewrite ?E; [done|done|].
    apply coalesced_app in Hco as (Hcx & Hcy & _). apply coalesced_app in Hcy as (_ & Hcy & _).
    cbn [app]. apply coalesced_taken; [done|]. by split.
Qed.

(** ** The heap *)

Definition rend (r : Z * blocks) : Z := r.1 + 16 + total r.2.
(** All regions, which do not overlap. *)
Record heap (m : mem) (rs : list (Z * blocks)) : Prop := {
  hp_regions : Forall (fun r => region m r.1 r.2) rs;
  hp_disjoint : ForallOrdPairs (fun r q => rend r <= q.1 \/ rend q <= r.1) rs
}.
(** What the platform says of them. *)
Definition bounds (rs : list (Z * blocks)) : list (Z * Z) := map (fun r => (r.1, rend r)) rs.
Definition all_live (rs : list (Z * blocks)) : list (Z * Z) :=
  flat_map (fun r => live (r.1 + 8) r.2) rs.

Lemma total_guarded bs : total (guarded bs) = 16 + total bs.
Proof. unfold guarded. rewrite total_cons, total_app. simpl. lia. Qed.

Lemma region_upd m m' s bs b k : region m s bs -> upd m m' b k ->
  s + 16 + total bs <= b \/ b + k <= s -> region m' s bs.
Proof.
  intros [Hpl Hc Hco] Hu Hd. split; [by eapply placed_upd| |done].
  eapply chain_upd; [exact Hc|apply Hpl|exact Hu| |rewrite total_guarded; lia].
  destruct (pl_start _ _ _ Hpl). lia.
Qed.
Lemma ordpairs_app {A} (R : A -> A -> Prop) xs ys : ForallOrdPairs R (xs ++ ys) <->
  ForallOrdPairs R xs /\ ForallOrdPairs R ys /\ Forall (fun x => Forall (R x) ys) xs.
Proof.
  induction xs as [|x xs IH]; cbn [app].
  - split; [intros H; split_and!; [constructor|done|constructor]|tauto].
  - split.
    + inversion 1 as [|? ? Hx Hr]; subst. apply IH in Hr as (H1 & H2 & H3).
      apply Forall_app in Hx as [Hx Hy]. split_and!; [by constructor|done|by constructor].
    + intros (H1 & H2 & H3). inversion H1; subst. apply Forall_cons in H3 as [Hx Hy].
      constructor; [apply Forall_app; done|]. apply IH. done.
Qed.
Lemma heap_regions m l1 s bs l2 : heap m (l1 ++ (s, bs) :: l2) ->
  region m s bs /\
  (forall r, r ∈ l1 \/ r ∈ l2 -> region m r.1 r.2 /\ (rend r <= s \/ s + 16 + total bs <= r.1)).
Proof.
  intros [Hr Hd]. apply Forall_app in Hr as [H1 Hr]. apply Forall_cons in Hr as [Hs H2].
  apply ordpairs_app in Hd as (_ & Hd2 & Hd12). inversion Hd2 as [|? ? Hd2' _]; subst.
  split; [done|]. rewrite !Forall_forall in *. intros r [Hin|Hin].
  - split; [by apply H1|]. specialize (Hd12 r Hin). rewrite Forall_forall in Hd12.
    destruct (Hd12 (s, bs) (list_elem_of_here _ _)) as [?|?]; [by left|by right].
  - split; [by apply H2|]. destruct (Hd2' r Hin) as [?|?]; [by right|by left].
Qed.
(** One region changes. *)
Lemma heap_change m m' l1 s bs bs' l2 b k : heap m (l1 ++ (s, bs) :: l2) -> region m' s bs' ->
  total bs' = total bs -> upd m m' b k -> s <= b -> b + k <= s + 16 + total bs ->
  heap m' (l1 ++ (s, bs') :: l2) /\ bounds (l1 ++ (s, bs') :: l2) = bounds (l1 ++ (s, bs) :: l2).
Proof.
  intros Hh Hr Ht Hu Hb Hk. pose proof (heap_regions _ _ _ _ _ Hh) as [_ Hother].
  destruct Hh as [_ Hd]. split; [split|].
  - apply Forall_app. split; [|apply Forall_cons; split; [done|]]; apply Forall_forall; intros r Hin;
      (destruct (Hother r) as [Hrr Hro]; [by auto|]);
      (eapply region_upd; [exact Hrr|exact Hu|]); unfold rend in Hro; lia.
  - apply ordpairs_app in Hd as (H1 & H2 & H12). apply ordpairs_app.
    assert (forall r, rend (s, bs') <= r <-> rend (s, bs) <= r) as E by (unfold rend; simpl; lia).
    inversion H2 as [|? ? H2a H2b]; subst. split_and!; [done| |].
    + constructor; [|done]. eapply Forall_impl; [exact H2a|]. intros q. cbn [fst]. by rewrite E.
    + eapply Forall_impl; [exact H12|]. intros q Hq. apply Forall_cons in Hq as [Hq Hq'].
      constructor; [|done]. cbn [fst] in *. by rewrite E.
  - unfold bounds. rewrite !map_app. cbn [map]. unfold rend. cbn [fst snd]. by rewrite Ht.
Qed.

Lemma all_live_app l1 l2 : all_live (l1 ++ l2) = all_live l1 ++ all_live l2.
Proof. apply flat_map_app. Qed.
Lemma all_live_cons r l : all_live (r :: l) = live (r.1 + 8) r.2 ++ all_live l.
Proof. done. Qed.
Lemma all_live_in l p k : (p, k) ∈ all_live l <-> exists r, r ∈ l /\ (p, k) ∈ live (r.1 + 8) r.2.
Proof.
  unfold all_live. rewrite list_elem_of_In, in_flat_map.
  split; intros (r & H1 & H2); exists r; rewrite list_elem_of_In in *; by rewrite ?list_elem_of_In in *.
Qed.

(** The blocks in use besides some blocks of a region are outside those and the
    header behind them. *)
Lemma live_outside m l1 s xs mid ys l2 p k : heap m (l1 ++ (s, xs ++ mid ++ ys) :: l2) ->
  (p, k) ∈ all_live l1 ++ live (s + 8) xs ++ live (s + 8 + total xs + total mid) ys ++ all_live l2 ->
  let b := s + 8 + total xs in 0 <= p /\ (p + k <= b \/ b + total mid + 8 <= p).
Proof.
  intros Hh Hin b. destruct (heap_regions _ _ _ _ _ Hh) as [Hr Hother].
  pose proof (region_bounds _ _ _ Hr) as (Hs8 & _).
  pose proof (region_sizes _ _ _ Hr) as Hs. apply Forall_app in Hs as [Hsx Hs].
  apply Forall_app in Hs as [Hsm Hsy]. pose proof (total_nonneg _ Hsx).
  pose proof (total_nonneg _ Hsm). pose proof (total_nonneg _ Hsy). rewrite !total_app in Hother.
  assert ((p, k) ∈ all_live l1 \/ (p, k) ∈ all_live l2 ->
    0 <= p /\ (p + k <= b \/ b + total mid + 8 <= p)) as Hfar.
  { intros Hl. assert (exists r, (r ∈ l1 \/ r ∈ l2) /\ (p, k) ∈ live (r.1 + 8) r.2) as (r & Hrl & Hpr)
      by (destruct Hl as [Hl|Hl]; apply all_live_in in Hl as (r & ? & ?); eauto).
    destruct (Hother r Hrl) as [Hrr Hro]. pose proof (region_bounds _ _ _ Hrr) as (? & _).
    destruct (live_range _ _ _ _ (region_sizes _ _ _ Hrr) Hpr). unfold rend in Hro. unfold b. lia. }
  rewrite !elem_of_app in Hin. destruct Hin as [Hin|[Hin|[Hin|Hin]]]; [by auto|..|by auto].
  - destruct (live_range _ _ _ _ Hsx Hin). unfold b. lia.
  - destruct (live_range _ _ _ _ Hsy Hin). unfold b. lia.
Qed.
(** A block in use is one of a region. *)
Lemma live_split p n bs : forall a, (p, n) ∈ live a bs ->
  exists xs j ys, bs = xs ++ (j, true) :: ys /\ p = a + total xs + 8 /\ n = j - 8.
Proof.
  induction bs as [|[j t] bs IH]; intros a Hin; [by apply elem_of_nil in Hin|].
  assert ((t = true /\ (p, n) = (a + 8, j - 8)) \/ (p, n) ∈ live (a + j) bs) as [[-> [= -> ->]]|Hin'].
  { cbn [live] in Hin. destruct t; [|by right]. apply elem_of_cons in Hin as [?|?]; auto. }
  - exists [], j, bs. split_and!; [done|simpl; lia|done].
  - destruct (IH _ Hin') as (xs & i & ys & -> & -> & ->). exists ((j, t) :: xs), i, ys.
    split_and!; [done|rewrite total_cons; simpl; lia|done].
Qed.
Lemma all_live_split rs p n : (p, n) ∈ all_live rs ->
  exists l1 s xs j ys l2, rs = l1 ++ (s, xs ++ (j, true) :: ys) :: l2 /\
    p = s + 8 + total xs + 8 /\ n = j - 8.
Proof.
  intros Hin. apply all_live_in in Hin as ([s bs] & Hr & Hp).
  apply list_elem_of_split in Hr as (l1 & l2 & ->).
  destruct (live_split _ _ _ _ Hp) as (xs & j & ys & Eb & -> & ->). cbn in Eb. subst bs.
  by exists l1, s, xs, j, ys, l2.
Qed.
(** The blocks in use besides those of [mid]; [c] is where those behind it
    start. *)
Definition others (l1 : list (Z * blocks)) (s : Z) (xs : blocks) (c : Z) (ys : blocks)
  (l2 : list (Z * blocks)) : list (Z * Z) :=
  all_live l1 ++ live (s + 8) xs ++ live c ys ++ all_live l2.
Lemma all_live_mid l1 s xs mid ys l2 :
  all_live (l1 ++ (s, xs ++ mid ++ ys) :: l2)
  ≡ₚ live (s + 8 + total xs) mid ++ others l1 s xs (s + 8 + total xs + total mid) ys l2.
Proof.
  unfold others. rewrite all_live_app, all_live_cons. cbn [fst snd].
  rewrite !live_app, <- !app_assoc.
  rewrite (Permutation_app_swap_app (live (s + 8) xs) (live _ mid)).
  by rewrite (Permutation_app_swap_app (all_live l1) (live _ mid)).
Qed.

(** *** Allocation *)

Definition too_small (rs : list (Z * blocks)) (size : Z) : Prop :=
  forall r n, r ∈ rs -> (n, false) ∈ r.2 -> n < need_of size.

(** What an allocation promises: [r] is a new block of [n] bytes, and those
    already in use are left alone. *)
Record allocated (m : mem) (rs : list (Z * blocks)) (size r n : Z) (m' : mem)
  (rs' : list (Z * blocks)) : Prop := {
  al_heap : heap m' rs';
  al_bounds : bounds rs' = bounds rs;
  al_live : all_live rs' ≡ₚ (r, n) :: all_live rs;
  al_size : size <= n < size + 24;
  al_aligned : r mod 8 = 0 /\ 0 < r;
  al_kept : forall p k, (p, k) ∈ all_live rs -> kept m m' p k /\ (p + k <= r \/ r + n <= p)
}.

Lemma carve_live need n a : 8 <= need -> need <= n ->
  exists j, live a (carve need n) = [(a + 8, j - 8)] /\ need <= j <= n /\ j < need + 16.
Proof.
  intros Hn Hle. unfold carve, DYN_MIN_SPLIT_SIZE. destruct (Z.ltb_spec (n - need) 16).
  - exists n. split; [done|lia].
  - exists need. split; [done|lia].
Qed.

Lemma smalloc_regions_ok size l2 : forall l1 m, heap m (l1 ++ l2) -> 0 < size -> size + 16 <= 2 ^ 32 ->
  too_small l1 size ->
  exists r m', smalloc_regions (bounds l2) size m = Some (r, m') /\
    if decide (r = 0) then m' = m /\ too_small (l1 ++ l2) size
    else exists n rs', allocated m (l1 ++ l2) size r n m' rs'.
Proof.
  induction l2 as [|[s bs] l2 IH]; intros l1 m Hh Hz Hsz Hno.
  { exists 0, m. split; [done|]. by rewrite decide_True, app_nil_r by done. }
  cbn [bounds map smalloc_regions fst]. destruct (heap_regions _ _ _ _ _ Hh) as [Hr _].
  pose proof (region_bounds _ _ _ Hr) as (Hs8 & _).
  destruct (get_free_block_ok m s bs size Hr Hz Hsz) as (r & m' & -> & Hcase).
  cbn [mbind option_bind]. destruct Hcase as [(-> & -> & Hsmall)|
    (xs & n & ys & -> & Er & Hn & _ & Hr' & Hu)].
  - cbn [negb Z.eqb]. rewrite (cons_middle (s, bs)), app_assoc in Hh |- *.
    apply IH; [done..|]. intros q k Hq Hk. apply elem_of_app in Hq as [Hq|Hq]; [by apply (Hno q)|].
    apply list_elem_of_singleton in Hq as ->. by apply Hsmall.
  - destruct (need_ok size Hz Hsz) as (_ & Hnb & Hn8).
    destruct (region_block _ _ _ _ _ _ Hr) as (_ & _ & _ & [Ha8 _] & Htx & _).
    rewrite (proj2 (Z.eqb_neq r 0)) by lia. cbn [negb]. exists r, m'. split; [done|].
    rewrite decide_False by lia. pose proof (region_sizes _ _ _ Hr) as Hs.
    apply Forall_app in Hs as [_ Hs]. apply Forall_cons in Hs as [_ Hs].
    pose proof (total_nonneg _ Hs) as Hty.
    destruct (carve_live (need_of size) n (s + 8 + total xs) ltac:(lia) Hn) as (j & Ej & Hj & Hj16).
    rewrite (cons_middle _ xs) in Hh |- *.
    destruct (heap_change m m' l1 s _ (xs ++ carve (need_of size) n ++ ys) l2 (s + 8 + total xs)
      (n + 8) Hh Hr') as [Hh' Hb'].
    { rewrite !total_app, total_carve. simpl. lia. }
    { done. }
    { lia. }
    { rewrite !total_app. simpl. lia. }
    exists (j - 8), (l1 ++ (s, xs ++ carve (need_of size) n ++ ys) :: l2).
    assert (all_live (l1 ++ (s, xs ++ [(n, false)] ++ ys) :: l2)
      ≡ₚ others l1 s xs (s + 8 + total xs + n) ys l2) as Hold.
    { rewrite all_live_mid. simpl. by rewrite Z.add_0_r. }
    split; [done|done| | | |].
    + rewrite Hold, all_live_mid, Ej, total_carve, Er. done.
    + lia.
    + rewrite Er. split; [word_lia|lia].
    + intros p k Hp. rewrite Hold in Hp.
      destruct (live_outside m l1 s xs [(n, false)] ys l2 p k Hh) as [Hp0 Hd].
      { simpl. by rewrite Z.add_0_r. }
      simpl in Hd. rewrite Z.add_0_r in Hd. split; [|lia].
      eapply upd_kept; [exact Hu|lia|lia].
Qed.

(** C20: allocation.  In any heap, for any size the 32-bit arithmetic can
    round, [smalloc] returns: [NULL], with nothing changed, and then no free
    block in any region has room for the size and a header; or the address,
    a multiple of eight, of a block of at least the size (and less than 24
    bytes more).  The heap is again a heap, over the same regions, whose
    blocks in use are the new one and those before, the new block overlaps
    none of them, and their contents are untouched.  No access leaves the
    memory. *)
Theorem smalloc_spec m rs size : heap m rs -> 0 < size -> size + 16 <= 2 ^ 32 ->
  exists r s', smalloc (bounds rs) size (mkSalloc true m) = Some (r, s') /\ s_initialized s' = true /\
    if decide (r = 0) then s_mem s' = m /\ too_small rs size
    else exists n rs', allocated m rs size r n (s_mem s') rs'.
Proof.
  intros Hh Hz Hsz. destruct (smalloc_regions_ok size rs [] m Hh Hz Hsz) as (r & m' & Heq & Hr).
  { intros q n Hq. by apply elem_of_nil in Hq. }
  exists r, (mkSalloc true m'). unfold smalloc, init_once. cbn [s_initialized mbind option_bind s_mem].
  by rewrite Heq.
Qed.

(** *** Freeing *)

Lemma sfree_ok m rs p n : heap m rs -> (p, n) ∈ all_live rs ->
  exists m' rs' rest, sfree p (mkSalloc true m) = Some (mkSalloc true m') /\
    heap m' rs' /\ bounds rs' = bounds rs /\
    all_live rs ≡ₚ (p, n) :: rest /\ all_live rs' ≡ₚ rest /\
    forall q k, (q, k) ∈ rest -> kept m m' q k.
Proof.
  intros Hh Hp. destruct (all_live_split _ _ _ Hp) as (l1 & s & xs & j & ys & l2 & -> & -> & ->).
  destruct (heap_regions _ _ _ _ _ Hh) as [Hr _].
  pose proof (region_bounds _ _ _ Hr) as (Hs8 & _).
  destruct (region_block _ _ _ _ _ _ Hr) as (_ & Hj & _ & _ & Htx & _).
  unfold sfree. rewrite (proj2 (Z.eqb_neq _ _)) by lia. cbn [s_initialized negb orb s_mem].
  destruct (free_region_ok m s xs j ys Hr)
    as (m' & xs' & fs1 & fs2 & ys' & -> & -> & -> & Hf1 & Hf2 & Hr' & Hu).
  cbn [mbind option_bind].
  assert (forall q, xs' ++ fs1 ++ (j, true) :: fs2 ++ q = xs' ++ (fs1 ++ (j, true) :: fs2) ++ q) as E
    by (intros q; by rewrite <- app_assoc).
  rewrite <- app_assoc, E in Hh, Hp |- *. clear Hp.
  set (mid := fs1 ++ (j, true) :: fs2) in *. set (c := s + 8 + total xs' + total mid).
  assert (total mid = total fs1 + j + total fs2) as Et
    by (unfold mid; rewrite total_app, total_cons; simpl; lia).
  assert (live (s + 8 + total xs') mid = [(s + 8 + total (xs' ++ fs1) + 8, j - 8)]) as El.
  { unfold mid. rewrite live_app, (live_free _ fs1 Hf1). cbn [app live].
    rewrite (live_free _ fs2 Hf2), total_app. do 2 f_equal. lia. }
  pose proof (region_sizes _ _ _ Hr') as Hs. apply Forall_app in Hs as [Hsx Hs].
  apply Forall_cons in Hs as [_ Hsy]. pose proof (total_nonneg _ Hsx). pose proof (total_nonneg _ Hsy).
  destruct (heap_change m m' l1 s _ (xs' ++ (total fs1 + j + total fs2, false) :: ys') l2
    (s + 8 + total xs') (total fs1 + j + total fs2 + 8) Hh Hr') as [Hh' Hb'].
  { rewrite !total_app, total_cons, Et. simpl. lia. }
  { done. }
  { lia. }
  { rewrite !total_app, Et. lia. }
  exists m', (l1 ++ (s, xs' ++ (total fs1 + j + total fs2, false) :: ys') :: l2),
    (others l1 s xs' c ys' l2).
  split_and!; [done|done|done| | |].
  - rewrite all_live_mid, El. done.
  - rewrite (cons_middle _ xs'), all_live_mid. simpl. rewrite Z.add_0_r. unfold c. by rewrite Et.
  - intros q k Hq. destruct (live_outside m l1 s xs' mid ys' l2 q k Hh Hq) as [Hq0 Hd].
    eapply upd_kept; [exact Hu|lia|]. lia.
Qed.

(** C21: freeing a block in use takes exactly it out of the blocks in use and
    leaves the contents of all others untouched; the result is a heap over the
    same regions, in which free neighbours have been joined. *)
Theorem sfree_spec m rs p n : heap m rs -> (p, n) ∈ all_live rs ->
  exists s' rs', sfree p (mkSalloc true m) = Some s' /\ heap (s_mem s') rs' /\
    bounds rs' = bounds rs /\ all_live rs ≡ₚ (p, n) :: all_live rs' /\
    forall q k, (q, k) ∈ all_live rs' -> kept m (s_mem s') q k.
Proof.
  intros Hh Hp. destruct (sfree_ok m rs p n Hh Hp) as (m' & rs' & rest & ? & ? & ? & Hl & Hl' & Hk).
  exists (mkSalloc true m'), rs'. split_and!; [done|done|done|by rewrite Hl'|].
  intros q k Hq. rewrite Hl' in Hq. by apply Hk.
Qed.

(** *** The bytes of a block belong to the client *)

Lemma region_write m m' s xs j ys q k : region m s (xs ++ (j, true) :: ys) -> upd m m' q k ->
  s + 8 + total xs + 8 <= q -> q + k <= s + 8 + total xs + j -> region m' s (xs ++ (j, true) :: ys).
Proof.
  intros Hr Hu Hq Hk. pose proof (region_bounds _ _ _ Hr) as (Hs8 & _).
  destruct (region_block _ _ _ _ _ _ Hr) as (_ & Hj & _ & _ & Htx & _).
  destruct Hr as [Hpl Hc Hco]. split; [by eapply placed_upd| |done].
  pose proof (pl_sizes _ _ _ Hpl) as Hs. rewrite guarded_app in Hc, Hs |- *.
  cbn [app] in Hc, Hs |- *. rewrite app_comm_cons in Hc, Hs |- *.
  apply Forall_app in Hs as [Hs1 Hs2]. apply Forall_cons in Hs2 as [_ Hs2].
  apply chain_app in Hc as [H1 [Hh H2]]. rewrite total_cons in *. cbn [fst] in *.
  apply chain_app. rewrite total_cons. cbn [fst]. refine (conj _ (conj _ _)).
  - eapply chain_upd; [exact H1|done|exact Hu|lia|rewrite total_cons; simpl; lia].
  - eapply hdr_upd; [exact Hh|exact Hu|lia|lia].
  - eapply chain_upd; [exact H2|done|exact Hu|lia|lia].
Qed.
Lemma heap_write m m' rs p n q k : heap m rs -> (p, n) ∈ all_live rs -> upd m m' q k ->
  p <= q -> q + k <= p + n -> heap m' rs.
Proof.
  intros Hh Hp Hu Hq Hk. destruct (all_live_split _ _ _ Hp) as (l1 & s & xs & j & ys & l2 & -> & -> & ->).
  destruct (heap_regions _ _ _ _ _ Hh) as [Hr _].
  destruct (region_block _ _ _ _ _ _ Hr) as (_ & Hj & _ & _ & Htx & _).
  pose proof (region_sizes _ _ _ Hr) as Hs. apply Forall_app in Hs as [_ Hs].
  apply Forall_cons in Hs as [_ Hs]. pose proof (total_nonneg _ Hs).
  eapply (heap_change m m' l1 s _ _ l2 q k Hh); [|done|done|lia|].
  - eapply region_write; [exact Hr|exact Hu|lia|lia].
  - rewrite total_app, total_cons. simpl. lia.
Qed.
Lemma live_facts m rs p n : heap m rs -> (p, n) ∈ all_live rs ->
  s_get_actual_block_size m p = Some n /\ 16 <= p /\ 0 <= n /\ p + n <= Z.of_nat (length m) <= 2 ^ 32.
Proof.
  intros Hh Hp. destruct (all_live_split _ _ _ Hp) as (l1 & s & xs & j & ys & l2 & -> & -> & ->).
  destruct (heap_regions _ _ _ _ _ Hh) as [Hr _].
  pose proof (region_bounds _ _ _ Hr) as (Hs8 & _).
  destruct (region_block _ _ _ _ _ _ Hr) as (_ & Hj & _ & _ & Htx & Hl).
  rewrite (actual_size_ok _ _ _ _ _ _ Hr). split; [done|lia].
Qed.
Lemma stores_upd m a bs : 0 <= a -> Forall is_u8 bs -> Forall is_u8 m ->
  a + Z.of_nat (length bs) <= Z.of_nat (length m) ->
  exists m', stores m (Z.to_nat a) bs = Some m' /\ upd m m' a (Z.of_nat (length bs)) /\
    forall x, 0 <= x < Z.of_nat (length bs) -> m' !! Z.to_nat (a + x) = bs !! Z.to_nat x.
Proof.
  intros Ha Hb Hm Hl. exists (splice m (Z.to_nat a) bs).
  split; [apply stores_splice; [done|lia]|]. split; [split|].
  - apply length_splice. lia.
  - unfold splice. repeat apply Forall_app_2; auto using Forall_take, Forall_drop.
  - intros x Hx Hn. apply lookup_splice_old; lia.
  - intros x Hx. rewrite lookup_splice_new by lia. f_equal. lia.
Qed.

(** *** Resizing *)

(** What resizing the block [n] bytes at [p] promises: the [n'] bytes at [r]
    take its place, with its contents as far as both go; all other blocks in
    use stay. *)
Record resized (m : mem) (rs : list (Z * blocks)) (p n size r n' : Z) (m' : mem)
  (rs' : list (Z * blocks)) : Prop := {
  rz_heap : heap m' rs';
  rz_bounds : bounds rs' = bounds rs;
  rz_size : size <= n';
  rz_live : exists rest, all_live rs ≡ₚ (p, n) :: rest /\ all_live rs' ≡ₚ (r, n') :: rest /\
    forall q k, (q, k) ∈ rest -> kept m m' q k;
  rz_contents : forall x, 0 <= x < Z.min n size -> m' !! Z.to_nat (r + x) = m !! Z.to_nat (p + x)
}.

Lemma live_rest rs p n : (p, n) ∈ all_live rs -> exists rest, all_live rs ≡ₚ (p, n) :: rest.
Proof. intros H. by apply elem_of_Permutation in H. Qed.

Lemma shrink_heap_ok m rs p n size : heap m rs -> (p, n) ∈ all_live rs -> 0 < size < n ->
  size + 16 <= 2 ^ 32 ->
  exists m' n' rs', s_shrink_block m p size = Some m' /\ resized m rs p n size p n' m' rs'.
Proof.
  intros Hh Hp Hz Hsz. destruct (all_live_split _ _ _ Hp) as (l1 & s & xs & j & ys & l2 & -> & -> & ->).
  destruct (heap_regions _ _ _ _ _ Hh) as [Hr _].
  pose proof (region_bounds _ _ _ Hr) as (Hs8 & _).
  destruct (region_block _ _ _ _ _ _ Hr) as (_ & Hj & _ & _ & Htx & _).
  destruct (shrink_region_ok m s xs j ys size Hr ltac:(lia) ltac:(lia) Hsz)
    as (m' & k & fs & ys' & -> & Hk & _ & -> & Hf & (rest & Hrest & Hr') & Hu & Hkept).
  exists m', (k - 8). change ((j, true) :: fs ++ ys') with (((j, true) :: fs) ++ ys') in *.
  change ((k, true) :: rest ++ ys') with (((k, true) :: rest) ++ ys') in Hr'.
  exists (l1 ++ (s, xs ++ ((k, true) :: rest) ++ ys') :: l2). split; [done|].
  assert (all_free rest /\ total rest = j + total fs - k) as [Hfr Htr].
  { destruct Hrest as [(-> & -> & ->)|(i & -> & ->)].
    - split; [constructor|simpl; lia].
    - split; [by apply Forall_singleton|simpl; lia]. }
  assert (total ((k, true) :: rest) = total ((j, true) :: fs)) as Et
    by (rewrite !total_cons; cbn [fst]; lia).
  pose proof (region_sizes _ _ _ Hr) as Hs. apply Forall_app in Hs as [_ Hs].
  apply Forall_app in Hs as [Hsf Hsy]. apply Forall_cons in Hsf as [_ Hsf].
  pose proof (total_nonneg _ Hsf). pose proof (total_nonneg _ Hsy).
  destruct (heap_change m m' l1 s _ _ l2 (s + 8 + total xs) (j + total fs + 8) Hh Hr') as [Hh' Hb'].
  { rewrite !total_app, Et. done. }
  { done. }
  { lia. }
  { rewrite !total_app, total_cons. cbn [fst]. lia. }
  split; [done|done|lia| |].
  - exists (others l1 s xs (s + 8 + total xs + total ((j, true) :: fs)) ys' l2).
    split_and!.
    + rewrite all_live_mid. cbn [live]. by rewrite (live_free _ fs Hf).
    + rewrite all_live_mid, Et. cbn [live]. by rewrite (live_free _ rest Hfr).
    + intros q i Hq. destruct (live_outside _ _ _ _ _ _ _ _ _ Hh Hq) as [Hq0 Hd].
      rewrite total_cons in Hd. cbn [fst] in Hd. eapply upd_kept; [exact Hu|lia|lia].
  - intros x Hx. apply Hkept. lia.
Qed.

Lemma copy_ok m rs size r n m1 rs1 p k : allocated m rs size r n m1 rs1 -> heap m rs ->
  (p, k) ∈ all_live rs -> k <= n ->
  exists bs m2, loads m1 (Z.to_nat p) (Z.to_nat k) = Some bs /\ stores m1 (Z.to_nat r) bs = Some m2 /\
    heap m2 rs1 /\ upd m1 m2 r k /\
    forall x, 0 <= x < k -> m2 !! Z.to_nat (r + x) = m !! Z.to_nat (p + x).
Proof.
  intros [Hh1 Hb1 Hl1 Hs1 Hr1 Hk1] Hh Hp Hkn. destruct (Hk1 p k Hp) as [Hkept _].
  assert ((r, n) ∈ all_live rs1) as Hrn by (rewrite Hl1; apply list_elem_of_here).
  assert ((p, k) ∈ all_live rs1) as Hp1 by (rewrite Hl1; by apply list_elem_of_further).
  destruct (live_facts _ _ _ _ Hh1 Hrn) as (_ & Hr16 & Hn0 & Hrl).
  destruct (live_facts _ _ _ _ Hh1 Hp1) as (_ & Hp16 & Hk0 & Hpl).
  assert (Forall is_u8 m1) as Hm1.
  { destruct (all_live_split _ _ _ Hp1) as (l1 & s & xs & j & ys & l2 & -> & _).
    destruct (heap_regions _ _ _ _ _ Hh1) as [[[_ _ _ [_ ?]] _ _] _]. done. }
  set (bs := take (Z.to_nat k) (drop (Z.to_nat p) m1)).
  assert (Z.of_nat (length bs) = k) as Hbl
    by (unfold bs; rewrite length_take, length_drop; lia).
  exists bs. destruct (stores_upd m1 r bs) as (m2 & Hm2 & Hu & Hx);
    [lia|by apply Forall_take, Forall_drop|done|lia|].
  rewrite Hbl in Hu. exists m2. split_and!; [|done| |done|].
  - unfold loads. by rewrite decide_True by lia.
  - eapply (heap_write m1 m2 rs1 r n r k); [done|done|done|lia|lia].
  - intros x Hxk. rewrite Hx by lia. unfold bs. rewrite lookup_take_lt, lookup_drop by lia.
    rewrite <- Z2Nat.inj_add by lia. apply Hkept. lia.
Qed.

(** Resizing a block in use, to a size that is not 0, returns [NULL] with
    nothing changed when the block must grow and no block is large enough; or
    else the address of a block that has at least the new size and starts with
    the contents of the old one, as many bytes of it as fit.  It takes the
    place of the old block; the other blocks in use, and their contents, stay
    as they are. *)
Theorem srealloc_spec m rs p n size : heap m rs -> (p, n) ∈ all_live rs -> 0 < size ->
  size + 16 <= 2 ^ 32 ->
  exists r s', srealloc (bounds rs) p size (mkSalloc true m) = Some (r, s') /\
    if decide (r = 0) then s' = mkSalloc true m /\ n < size /\ too_small rs size
    else exists n' rs', resized m rs p n size r n' (s_mem s') rs'.
Proof.
  intros Hh Hp Hz Hsz. destruct (live_facts _ _ _ _ Hh Hp) as (Hsize & Hp16 & Hn0 & Hpl).
  destruct (live_rest _ _ _ Hp) as (rest & Hrest).
  unfold srealloc, init_once. cbn [s_initialized mbind option_bind s_mem].
  rewrite (proj2 (Z.eqb_neq p 0)), (proj2 (Z.eqb_neq size 0)) by lia.
  rewrite Hsize. cbn [mbind option_bind].
  destruct (Z.eqb_spec n size) as [->|Hne]; [|destruct (Z.ltb_spec size n) as [Hlt|Hge]].
  - eexists _, _. split; [reflexivity|]. rewrite decide_False by lia. exists size, rs.
    split; [done|done|lia| |done]. by exists rest.
  - destruct (shrink_heap_ok m rs p n size Hh Hp ltac:(lia) Hsz) as (m' & n' & rs' & -> & Hrz).
    eexists _, _. split; [reflexivity|]. rewrite decide_False by lia. by exists n', rs'.
  - destruct (smalloc_regions_ok size rs [] m Hh Hz Hsz) as (r & m1 & Heq & Hr);
      [intros q k Hq; by apply elem_of_nil in Hq|]. cbn [app] in Hr.
    unfold smalloc, init_once. cbn [s_initialized mbind option_bind s_mem]. rewrite Heq.
    cbn [mbind option_bind s_mem]. destruct (Z.eqb_spec r 0) as [->|Hr0].
    { rewrite decide_True in Hr by done. destruct Hr as [-> Hno]. eexists _, _.
      split; [reflexivity|]. rewrite decide_True by done. split_and!; [done|lia|done]. }
    rewrite decide_False in Hr by done. destruct Hr as (n1 & rs1 & Hal).
    pose proof Hal as [Hh1 Hb1 Hl1 Hs1 Hr1 Hk1].
    assert ((p, n) ∈ all_live rs1) as Hp1 by (rewrite Hl1; by apply list_elem_of_further).
    destruct (live_facts _ _ _ _ Hh1 Hp1) as (-> & _). cbn [mbind option_bind].
    destruct (copy_ok _ _ _ _ _ _ _ _ _ Hal Hh Hp ltac:(lia))
      as (bs & m2 & -> & Hm2 & Hh2 & Hu2 & Hc2). cbn [mbind option_bind]. rewrite Hm2.
    cbn [mbind option_bind s_initialized].
    destruct (sfree_ok m2 rs1 p n Hh2 Hp1) as (m3 & rs3 & rest3 & -> & Hh3 & Hb3 & Hl3 & Hl3' & Hk3).
    cbn [mbind option_bind]. eexists _, _. split; [reflexivity|]. rewrite decide_False by done.
    assert (rest3 ≡ₚ (r, n1) :: rest) as Hr3.
    { apply (Permutation_cons_inv (a := (p, n))). rewrite <- Hl3, Hl1, Hrest. apply perm_swap. }
    assert (forall q k, (q, k) ∈ rest -> (q, k) ∈ all_live rs) as Hin
      by (intros q k Hq; rewrite Hrest; by apply list_elem_of_further).
    exists n1, rs3. cbn [s_mem]. split; [done|by rewrite Hb3|lia| |].
    + exists rest. split_and!; [done|by rewrite Hl3'|]. intros q k Hq.
      destruct (Hk1 q k (Hin q k Hq)) as [Hkq Hdq].
      destruct (live_facts _ _ _ _ Hh (Hin q k Hq)) as (_ & Hq16 & _).
      eapply kept_trans; [exact Hkq|]. eapply kept_trans.
      * eapply upd_kept; [exact Hu2|lia|lia].
      * apply Hk3. rewrite Hr3. by apply list_elem_of_further.
    + intros x Hx. rewrite <- Hc2 by lia.
      apply (Hk3 r n1); [rewrite Hr3; apply list_elem_of_here|lia].
Qed.

(** *** Start *)

Lemma create_ok m a next prev : in_mem m a -> aligned next -> aligned prev ->
  exists m', s_create_new_block m a next prev = Some m' /\ upd m m' a 8 /\ hdr m' a prev next false.
Proof.
  intros (Ha & Hl & Hb) Hn Hp. unfold s_create_new_block, DYN_SIZE_MULT_SHIFT. rewrite !shr3.
  pose proof (aligned_div _ Hn). pose proof (aligned_div _ Hp).
  destruct (store32_ok m a (next / 8)) as (m1 & -> & Hu1 & H1); [done|lia|done|word_lia|].
  cbn [mbind option_bind]. destruct Hu1 as [Hl1 Hb1 Ho1] eqn:E.
  destruct (store32_ok m1 (a + 4) (prev / 8)) as (m2 & -> & Hu2 & H2); [lia|lia|done|word_lia|].
  exists m2. split; [done|]. split.
  - eapply upd_trans; (eapply upd_mono; [eassumption|lia|lia]).
  - split.
    + rewrite (load32_upd m1 m2 (a + 4) 4); [by rewrite Z.add_0_l|done|lia|lia].
    + exists false. by rewrite Z.add_0_l.
Qed.

(** A region of RAM: whole words of eight bytes, with room for the guards and a
    block. *)
Definition ram_ok (m : mem) (r : Z * Z) : Prop :=
  8 <= r.1 /\ r.1 mod 8 = 0 /\ r.2 mod 8 = 0 /\ r.1 + 24 <= r.2 <= Z.of_nat (length m).
Definition fresh (r : Z * Z) : Z * blocks := (r.1, [(r.2 - r.1 - 16, false)]).

Lemma init_region_ok m f l ram : Z.of_nat (length m) <= 2 ^ 32 -> Forall is_u8 m -> ram_ok m (f, l) ->
  l < 2 ^ 32 ->
  exists m', s_init_regions ((f, l) :: ram) m = s_init_regions ram m' /\ upd m m' f (l - f) /\
    region m' f [(l - f - 16, false)].
Proof.
  intros Hlen Hb (Hf & Hf8 & Hl8 & Hl). cbn [fst snd] in *. intros Hl32.
  cbn [s_init_regions]. unfold DYN_SIZE_MULT.
  rewrite (u32_small (l - f)), (u32_small (f + 8)), (u32_small (f + (l - f) - 8)) by word_lia.
  replace (f + (l - f) - 8) with (l - 8) by lia.
  assert (forall a, a mod 8 = 0 -> 0 <= a -> a + 8 <= l -> aligned a /\ in_mem m a) as Hok
    by (intros a Ha Ha0 Hal; split; [split; [done|word_lia]|split_and!; [done|lia|done]]).
  destruct (Hok f) as [Af Mf]; [done|lia|lia|].
  destruct (Hok (f + 8)) as [Ac Mc]; [word_lia|lia|lia|].
  destruct (Hok (l - 8)) as [Al Ml]; [word_lia|lia|lia|].
  destruct (create_ok m f (f + 8) 0 Mf Ac aligned_0) as (m1 & -> & U1 & H1). cbn [mbind option_bind].
  destruct (create_ok m1 (f + 8) (l - 8) f (in_mem_upd _ _ _ _ _ Mc U1) Al Af) as (m2 & -> & U2 & H2).
  cbn [mbind option_bind].
  assert (upd m m2 f 16) as U12
    by (eapply upd_trans; (eapply upd_mono; [eassumption|lia|lia])).
  destruct (create_ok m2 (l - 8) 0 (f + 8) (in_mem_upd _ _ _ _ _ Ml U12) aligned_0 Ac)
    as (m3 & -> & U3 & H3). cbn [mbind option_bind].
  assert (upd m m3 f (l - f)) as U13
    by (eapply upd_trans; (eapply upd_mono; [eassumption|lia|lia])).
  assert (hdr m3 f 0 (f + 8) false) as H1'
    by (eapply hdr_upd; [eapply hdr_upd; [exact H1|exact U2|lia|lia]|exact U3|lia|lia]).
  destruct (mark_taken_ok m3 f _ _ _ H1' (aligned_div _ Ac) (in_mem_upd _ _ _ _ _ Mf U13))
    as (m4 & -> & U4 & H4). cbn [mbind option_bind].
  assert (upd m m4 f (l - f)) as U14
    by (eapply upd_trans; [exact U13|eapply upd_mono; [exact U4|lia|lia]]).
  assert (hdr m4 (l - 8) (f + 8) 0 false) as H3'
    by (eapply hdr_upd; [exact H3|exact U4|lia|lia]).
  destruct (mark_taken_ok m4 (l - 8) _ _ _ H3' (aligned_div _ aligned_0) (in_mem_upd _ _ _ _ _ Ml U14))
    as (m5 & -> & U5 & H5). cbn [mbind option_bind].
  assert (upd m m5 f (l - f)) as U15
    by (eapply upd_trans; [exact U14|eapply upd_mono; [exact U5|lia|lia]]).
  assert (hdr m5 (f + 8) f (l - 8) false) as H2'.
  { eapply hdr_upd; [|exact U5|lia|lia]. eapply hdr_upd; [|exact U4|lia|lia].
    eapply hdr_upd; [exact H2|exact U3|lia|lia]. }
  destruct (mark_free_ok m5 (f + 8) _ _ _ H2' (aligned_div _ Al) (in_mem_upd _ _ _ _ _ Mc U15))
    as (m6 & -> & U6 & H6). cbn [mbind option_bind]. exists m6. split; [done|]. split.
  { eapply upd_trans; [exact U15|eapply upd_mono; [exact U6|lia|lia]]. }
  pose proof U15 as [L15 _ _]. pose proof U6 as [L6 B6 _]. split; [split|..|done].
  - done.
  - unfold guarded. repeat constructor; simpl; word_lia.
  - simpl. lia.
  - split; [|done]. lia.
  - unfold guarded. cbn [chain app].
    replace (f + 8 + (l - f - 16)) with (l - 8) by lia. split_and!; [..|exact H6| |done].
    + eapply hdr_upd; [|exact U6|lia|lia]. eapply hdr_upd; [exact H4|exact U5|lia|lia].
    + eapply hdr_upd; [exact H5|exact U6|lia|lia].
Qed.

Lemma init_regions_ok ram : forall m, Z.of_nat (length m) < 2 ^ 32 -> Forall is_u8 m ->
  Forall (ram_ok m) ram -> ForallOrdPairs (fun r q => r.2 <= q.1 \/ q.2 <= r.1) ram ->
  exists m', s_init_regions ram m = Some m' /\
    Forall (fun r => region m' (fresh r).1 (fresh r).2) ram /\
    forall s bs, region m s bs -> Forall (fun r => s + 16 + total bs <= r.1 \/ r.2 <= s) ram ->
      region m' s bs.
Proof.
  induction ram as [|[f l] ram IH]; intros m Hl Hb Hok Hd.
  { exists m. split_and!; [done|constructor|done]. }
  apply Forall_cons in Hok as [Hfl Hok]. inversion Hd as [|? ? Hd1 Hd2]; subst.
  pose proof Hfl as (_ & _ & _ & Hfl'). cbn [fst snd] in Hfl'.
  destruct (init_region_ok m f l ram ltac:(lia) Hb Hfl ltac:(lia)) as (m1 & -> & Hu & Hr).
  pose proof Hu as [Hlen Hb1 _].
  destruct (IH m1) as (m' & -> & Hrs & Hkeep); [by rewrite Hlen|done| |done|].
  { eapply Forall_impl; [exact Hok|]. intros r. unfold ram_ok. by rewrite Hlen. }
  exists m'. split_and!; [done| |].
  - apply Forall_cons. split; [|done]. apply Hkeep; [exact Hr|].
    eapply Forall_impl; [exact Hd1|]. intros r. cbn [fst snd fresh]. simpl. lia.
  - intros s bs Hs Hf. apply Forall_cons in Hf as [Hf1 Hf2]. apply Hkeep; [|done].
    eapply region_upd; [exact Hs|exact Hu|]. cbn [fst snd] in Hf1. lia.
Qed.

(** The first use of the allocator makes a heap of the RAM regions the
    platform names, if they are made of whole words of eight bytes, do not
    overlap and have room for one block each: every region is one free block,
    and nothing is in use. *)
Theorem init_heap ram m : Z.of_nat (length m) < 2 ^ 32 -> Forall is_u8 m ->
  Forall (ram_ok m) ram -> ForallOrdPairs (fun r q => r.2 <= q.1 \/ q.2 <= r.1) ram ->
  exists m', init_once ram (mkSalloc false m) = Some (mkSalloc true m') /\
    heap m' (map fresh ram) /\ bounds (map fresh ram) = ram /\ all_live (map fresh ram) = [].
Proof.
  intros Hl Hb Hok Hd. destruct (init_regions_ok ram m Hl Hb Hok Hd) as (m' & Heq & Hrs & _).
  exists m'. unfold init_once, s_init. cbn [s_initialized s_mem]. rewrite Heq. split; [done|].
  assert (forall r, rend (fresh r) = r.2) as Hend by (intros [f l]; unfold rend; simpl; lia).
  split_and!; [split| |].
  - by apply Forall_map.
  - clear - Hd Hend. induction Hd as [|r ram Hr _ IH]; cbn [map]; constructor; [|done].
    apply Forall_map. eapply Forall_impl; [exact Hr|]. intros q. cbn. by rewrite !Hend.
  - unfold bounds. rewrite map_map. transitivity (map (fun r : Z * Z => r) ram); [|apply map_id].
    apply map_ext. intros [f l]. by rewrite Hend.
  - clear. induction ram as [|r ram IH]; [done|exact IH].
Qed.

(** *** Sizes that overflow *)

(** A size so large that adding the header to it wraps around is not
    refused.  For the seven largest sizes the allocator looks for a block of
    eight bytes, a header only: when the first region has a free block (and
    none of less than 24 bytes), it returns an address, which is not [NULL], of
    a block without room for a single byte. *)
Theorem smalloc_wraps m s bs n l2 size : heap m ((s, bs) :: l2) -> 2 ^ 32 - 7 <= size < 2 ^ 32 ->
  (n, false) ∈ bs -> (forall k, (k, false) ∈ bs -> 24 <= k) ->
  exists r s', smalloc (bounds ((s, bs) :: l2)) size (mkSalloc true m) = Some (r, s') /\ r <> 0 /\
    s_get_actual_block_size (s_mem s') r = Some 0.
Proof.
  intros Hh Hsz Hn Hall. destruct (heap_regions m [] s bs l2 Hh) as [Hr _].
  pose proof (region_bounds _ _ _ Hr) as (Hs8 & _).
  assert (s_act_size (u32 (size + DYN_HEADER_SIZE)) = 8) as Hneed.
  { assert (u32 (size + DYN_HEADER_SIZE) = size + 8 - 2 ^ 32) as ->.
    { unfold DYN_HEADER_SIZE, u32, wrap. rewrite <- (Z_mod_plus_full _ (-1)). apply Z.mod_small. lia. }
    rewrite act_size_ok by lia. word_lia. }
  destruct (get_free_block_need m s bs size 8 Hr ltac:(lia) Hneed ltac:(lia) eq_refl)
    as (r & m' & Heq & Hcase).
  unfold smalloc, init_once. cbn [s_initialized mbind option_bind s_mem bounds map smalloc_regions fst].
  rewrite Heq. cbn [mbind option_bind].
  destruct Hcase as [(_ & _ & Hno)|(xs & k & ys & -> & -> & Hk & _ & Hr' & _)].
  { pose proof (Hno n Hn). pose proof (Hall n Hn). lia. }
  destruct (region_block _ _ _ _ _ _ Hr) as (_ & _ & _ & _ & Htx & _).
  rewrite (proj2 (Z.eqb_neq _ _)) by lia. cbn [negb mbind option_bind].
  eexists _, _. split; [reflexivity|]. split; [lia|]. cbn [s_mem].
  assert (24 <= k) as Hk24 by (apply Hall, elem_of_app; right; apply list_elem_of_here).
  assert (carve 8 k = [(8, true); (k - 8, false)]) as Ec
    by (unfold carve, DYN_MIN_SPLIT_SIZE; by rewrite (proj2 (Z.ltb_ge _ _)) by lia).
  rewrite Ec in Hr'. cbn [app] in Hr'. by rewrite (actual_size_ok _ _ _ _ _ _ Hr').
Qed.

(** ** A concrete heap *)

(** Eight words of RAM from address 16 to 80, after the allocator's first
    use. *)
Definition small_ram : list (Z * Z) := [(16, 80)].
Definition small_mem : mem := default [] (s_init_regions small_ram (replicate 80 0)).

Lemma small_fresh : Z.of_nat (length (replicate 80 0)) < 2 ^ 32 /\ Forall is_u8 (replicate 80 0) /\
  Forall (ram_ok (replicate 80 0)) small_ram /\
  ForallOrdPairs (fun r q : Z * Z => r.2 <= q.1 \/ q.2 <= r.1) small_ram.
Proof.
  split_and!; [by_decide|by_decide| |repeat constructor]. constructor; [|constructor].
  unfold ram_ok. split_and!; by_decide.
Qed.
Lemma small_heap : heap small_mem (map fresh small_ram).
Proof.
  destruct small_fresh as (H1 & H2 & H3 & H4).
  destruct (init_regions_ok small_ram _ H1 H2 H3 H4) as (m' & Heq & Hrs & _).
  unfold small_mem. rewrite Heq. cbn [default from_option id]. split; [|repeat constructor].
  by apply Forall_map.
Qed.
(** The same with a block of 16 bytes in use. *)
Definition used_mem : mem := match smalloc small_ram 16 (mkSalloc true small_mem) with
  | Some (_, s) => s_mem s | None => [] end.
Lemma used_heap : exists rs, heap used_mem rs /\ bounds rs = small_ram /\ all_live rs = [(32, 16)].
Proof.
  destruct (smalloc_regions_ok 16 (map fresh small_ram) [] small_mem small_heap) as (r & m' & Heq & Hr);
    [lia|lia|intros q n Hq; by apply elem_of_nil in Hq|].
  assert (r = 32 /\ m' = used_mem) as [-> ->]
    by (vm_compute in Heq; injection Heq as <- <-; split; reflexivity).
  rewrite decide_False in Hr by done. destruct Hr as (n & rs' & [Hh Hb Hl _ _ _]).
  exists rs'. split_and!; [done|done|].
  change (all_live ([] ++ map fresh small_ram)) with (@nil (Z * Z)) in Hl.
  assert (n = 16) as ->; [|by apply Permutation_singleton_r in Hl].
  assert ((32, n) ∈ all_live rs') as Hin by (rewrite Hl; apply list_elem_of_here).
  destruct (live_facts _ _ _ _ Hh Hin) as (Hs & _). vm_compute in Hs. congruence.
Qed.

Lemma init_heap_witness : exists m', init_once small_ram (mkSalloc false (replicate 80 0))
  = Some (mkSalloc true m') /\ all_live (map fresh small_ram) = [].
Proof.
  destruct (init_heap small_ram (replicate 80 0)) as (m' & H & _ & _ & Hl); [apply small_fresh..|].
  by exists m'.
Defined.
Lemma smalloc_spec_witness : exists r s', smalloc small_ram 16 (mkSalloc true small_mem) = Some (r, s').
Proof.
  destruct (smalloc_spec small_mem (map fresh small_ram) 16 small_heap ltac:(lia) ltac:(lia))
    as (r & s' & H & _). exists r, s'. exact H.
Defined.
Lemma sfree_spec_witness : exists s', sfree 32 (mkSalloc true used_mem) = Some s'.
Proof.
  destruct used_heap as (rs & Hh & Hb & Hl).
  destruct (sfree_spec used_mem rs 32 16 Hh) as (s' & rs' & H & _);
    [rewrite Hl; apply list_elem_of_here|]. by exists s'.
Defined.
Lemma srealloc_spec_witness : exists r s', srealloc small_ram 32 8 (mkSalloc true used_mem) = Some (r, s').
Proof.
  destruct used_heap as (rs & Hh & Hb & Hl). rewrite <- Hb.
  destruct (srealloc_spec used_mem rs 32 16 8 Hh) as (r & s' & H & _);
    [rewrite Hl; apply list_elem_of_here|lia|lia|]. by exists r, s'.
Defined.
Lemma smalloc_wraps_witness : exists r s',
  smalloc small_ram (2 ^ 32 - 1) (mkSalloc true small_mem) = Some (r, s') /\ r <> 0 /\
  s_get_actual_block_size (s_mem s') r = Some 0.
Proof.
  apply (smalloc_wraps small_mem 16 [(48, false)] 48 [] (2 ^ 32 - 1) small_heap);
    [lia|apply list_elem_of_here|].
  intros k Hk. apply list_elem_of_singleton in Hk as [= ->]. lia.
Defined.

(** Nor is the product of a [scalloc] checked: an array of 2^28 + 1 elements of
    16 bytes is given 16 bytes. *)
Example scalloc_overflow :
  ('(r, s) ← scalloc small_ram (2 ^ 28 + 1) 16 (mkSalloc true small_mem);
   n ← s_get_actual_block_size (s_mem s) r; Some (r, n)) = Some (32, 16).
Proof. vm_compute. reflexivity. Qed.
