(* ===== verification/Sermux.v ===== *)
(** * Sermux: virtual serial ports over one serial line

    Models the UART functions of src/common_uart.c, with the serial multiplexer
    and with buffers built in, and the main loop of mux_src/main.c, the program
    at the other end of the line.  Both ends put a service byte (0xD0 - 0xD7)
    before the data when the port changes, escape data bytes that have a
    meaning of their own, and ask for the service byte again (0xFF) when they
    do not know which port a byte is for. *)

From S2P Require Import Prelude Eluarpc Remotefs RfsServer RfsClient RfsInstance Buf.

Definition SERMUX_SERVICE_ID_LAST : Z := 0xD7.
Definition SERMUX_ESCAPE_CHAR : Z := 0xC0.
Definition SERMUX_FORCE_SID_CHAR : Z := 0xFF.
Definition SERMUX_ESCAPE_XOR_MASK : Z := 0x20.
Definition SERMUX_ESC_MASK : Z := 0x100.

(** ** The board *)

(** The static variables; [bufs]: the buffers of buf.c; [sent]: what
    [platform_s_uart_send] was called with, the UART and the byte. *)
Record uart := mkUart {
  uart_service_id_in : Z; uart_service_id_out : Z; uart_got_esc : bool; uart_last_sent : Z;
  bufs : buf_array; sent : list (Z * Z)
}.
Definition uart_init (b : buf_array) : uart := mkUart (-1) (-1) false (-1) b [].

Section Board.
(** The platform's numbers. *)
Variables NUM_UART NUM_VUART_BUFS SERMUX_NUM_VUART SERMUX_PHYS_ID : Z.

Definition platform_s_uart_send (id data : Z) (s : uart) : uart :=
  mkUart (uart_service_id_in s) (uart_service_id_out s) (uart_got_esc s) (uart_last_sent s)
    (bufs s) (sent s ++ [(id, u8 data)]).
Definition set_in (s : uart) (x : Z) : uart :=
  mkUart x (uart_service_id_out s) (uart_got_esc s) (uart_last_sent s) (bufs s) (sent s).
Definition set_out (s : uart) (x : Z) : uart :=
  mkUart (uart_service_id_in s) x (uart_got_esc s) (uart_last_sent s) (bufs s) (sent s).
Definition set_esc (s : uart) (x : bool) : uart :=
  mkUart (uart_service_id_in s) (uart_service_id_out s) x (uart_last_sent s) (bufs s) (sent s).
Definition set_last (s : uart) (x : Z) : uart :=
  mkUart (uart_service_id_in s) (uart_service_id_out s) (uart_got_esc s) x (bufs s) (sent s).
Definition rx_write (id data : Z) (s : uart) : option uart :=
  '(_, b) ← buf_write NUM_UART NUM_VUART_BUFS BUF_ID_UART id [data] (bufs s);
  Some (mkUart (uart_service_id_in s) (uart_service_id_out s) (uart_got_esc s) (uart_last_sent s)
    b (sent s)).

Definition is_vuart (id : Z) : bool :=
  (SERMUX_SERVICE_ID_FIRST <=? id) && (id <? SERMUX_SERVICE_ID_FIRST + SERMUX_NUM_VUART).
Definition platform_uart_exists (id : Z) : bool :=
  is_vuart id || (id =? CDC_UART_ID) || (id <? NUM_UART).

Definition cmn_rx_handler (usart_id data : Z) (s : uart) : option uart :=
  if usart_id =? SERMUX_PHYS_ID then
    if negb (data =? SERMUX_ESCAPE_CHAR) then
      if is_vuart data then Some (set_in s data)
      else if (data =? SERMUX_FORCE_SID_CHAR) && negb (uart_last_sent s =? -1) then
        let s' := platform_s_uart_send SERMUX_PHYS_ID (uart_service_id_out s) s in
        let s' := if negb (Z.land (uart_last_sent s) SERMUX_ESC_MASK =? 0)
                  then platform_s_uart_send SERMUX_PHYS_ID SERMUX_ESCAPE_CHAR s' else s' in
        let s' := platform_s_uart_send SERMUX_PHYS_ID (Z.land (uart_last_sent s) 0xFF) s' in
        Some (set_last s' (-1))
      else
        let '(data, s) := if uart_got_esc s
          then (Z.lxor data SERMUX_ESCAPE_XOR_MASK, set_esc s false) else (data, s) in
        if uart_service_id_in s =? -1
        then Some (platform_s_uart_send SERMUX_PHYS_ID SERMUX_FORCE_SID_CHAR s)
        else rx_write (uart_service_id_in s) data s
    else Some (set_esc s true)
  else rx_write usart_id data s.

Definition must_escape (data : Z) : bool :=
  (data =? SERMUX_ESCAPE_CHAR) || (data =? SERMUX_FORCE_SID_CHAR) ||
  ((SERMUX_SERVICE_ID_FIRST <=? data) && (data <=? SERMUX_SERVICE_ID_LAST)).

Definition platform_uart_send (id data : Z) (s : uart) : uart :=
  let s :=
    if is_vuart id then
      let s := if negb (id =? uart_service_id_out s) then platform_s_uart_send SERMUX_PHYS_ID id s
               else s in
      let s := set_last s data in
      let s :=
        if must_escape data then
          let s := platform_s_uart_send SERMUX_PHYS_ID SERMUX_ESCAPE_CHAR s in
          let s := platform_s_uart_send SERMUX_PHYS_ID (Z.lxor data SERMUX_ESCAPE_XOR_MASK) s in
          set_last s (Z.lor SERMUX_ESC_MASK (Z.lxor data SERMUX_ESCAPE_XOR_MASK))
        else platform_s_uart_send SERMUX_PHYS_ID data s in
      set_out s id
    else s in
  if (id <? NUM_UART) || (id =? CDC_UART_ID) then platform_s_uart_send id data s else s.

(** The receive interrupt: [bytes] are what [platform_s_uart_recv] returns
    before -1. *)
Fixpoint rx_bytes (resnum : Z) (bytes : list Z) (s : uart) : option uart :=
  match bytes with
  | [] => Some s
  | b :: bytes => s ← cmn_rx_handler resnum b s; rx_bytes resnum bytes s
  end.
Definition cmn_uart_rx_inthandler (prev : option (Z -> uart -> option uart)) (resnum : Z)
  (bytes : list Z) (s : uart) : option uart :=
  enabled ← buf_is_enabled NUM_UART NUM_VUART_BUFS BUF_ID_UART resnum (bufs s);
  s ← (if enabled || (resnum =? SERMUX_PHYS_ID) then rx_bytes resnum bytes s else Some s);
  match prev with Some h => h resnum s | None => Some s end.

(** [cmn_recv_helper] without waiting: the byte, -1 if there is none.
    [recv]: what the UART itself answers, [platform_s_uart_recv( id, 0 )]. *)
Definition cmn_recv_helper (recv : Z -> Z) (id : Z) (s : uart) : option (Z * uart) :=
  enabled ← buf_is_enabled NUM_UART NUM_VUART_BUFS BUF_ID_UART id (bufs s);
  if enabled : bool then
    '(r, data, b) ← buf_read NUM_UART NUM_VUART_BUFS BUF_ID_UART id (bufs s);
    if r =? PLATFORM_UNDERFLOW then Some (-1, s)
    else
      d ← head data;
      Some (d, mkUart (uart_service_id_in s) (uart_service_id_out s) (uart_got_esc s)
                 (uart_last_sent s) b (sent s))
  else if (id <? NUM_UART) || (id =? CDC_UART_ID) then Some (recv id, s) else Some (-1, s).
End Board.

(** ** The multiplexer *)

Definition HND_TRANSPORT_OFFSET : Z := 0.
Definition HND_FIRST_VOFFSET : Z := 1.
Definition RFS_PSEUDO_SELIDX : Z := 0xFF.

(** What it sends: to the transport, or to a virtual port by number. *)
Inductive mux_out := ToTransport (b : Z) | ToService (k : Z) (b : Z).

(** The variables of the loop; [rfs_pending]: the [rfs_size] bytes at
    [rfs_ptr]. *)
Record mux {St : Type} := mkMux {
  service_id_in : Z; service_id_out : Z; prev_sent : Z; got_esc : bool;
  rfs_pending : list Z; rfs_server : transport * St
}.
Arguments mux : clear implicits.

(** A turn goes on, ends the program with an error, or is an access outside an
    array. *)
Inductive turn (A : Type) := Next (a : A) | Exit | Fault.
Arguments Next {A} _.
Arguments Exit {A}.
Arguments Fault {A}.

Section Mux.
Context {St : Type} (px : posix St) (basedir : list Z) (fuel : nat).
(** [rfs_service_id], [service_offset] of the mode and the number of ports. *)
Variables rfs_service_id service_offset vport_num : Z.

Definition mux_set_in (m : mux St) x := mkMux St x (service_id_out m) (prev_sent m) (got_esc m)
  (rfs_pending m) (rfs_server m).
Definition mux_set_esc (m : mux St) x := mkMux St (service_id_in m) (service_id_out m) (prev_sent m) x
  (rfs_pending m) (rfs_server m).
Definition mux_sent (m : mux St) out prev := mkMux St (service_id_in m) out prev (got_esc m)
  (rfs_pending m) (rfs_server m).

(** A data byte for the port [service_id_in]. *)
Definition mux_deliver (c : Z) (m : mux St) : turn (list mux_out * mux St) :=
  if service_id_in m =? -1 then Next ([ToTransport SERMUX_FORCE_SID_CHAR], m)
  else if service_id_in m =? rfs_service_id then
    match mem_feed px basedir fuel (rfs_server m) c with
    | None => Fault
    | Some (resp, ts) => Next ([], mkMux St (service_id_in m) (service_id_out m) (prev_sent m)
                                  (got_esc m) (rfs_pending m ++ resp) ts)
    end
  else
    let k := service_id_in m - SERMUX_SERVICE_ID_FIRST - service_offset in
    if bool_decide (0 <= k < vport_num) then Next ([ToService k c], m) else Fault.

Definition mux_transport_byte (c : Z) (m : mux St) : turn (list mux_out * mux St) :=
  if negb (c =? SERMUX_ESCAPE_CHAR) then
    if (SERMUX_SERVICE_ID_FIRST <=? c) && (c <=? SERMUX_SERVICE_ID_LAST) then Next ([], mux_set_in m c)
    else if c =? SERMUX_FORCE_SID_CHAR then
      if prev_sent m =? -1 then Exit
      else Next ([ToTransport (u8 (service_id_out m))] ++
                 (if negb (Z.land (prev_sent m) SERMUX_ESC_MASK =? 0)
                  then [ToTransport SERMUX_ESCAPE_CHAR] else []) ++
                 [ToTransport (Z.land (prev_sent m) 0xFF)],
                 mux_sent m (service_id_out m) (-1))
    else if got_esc m then
      let c := Z.lxor c SERMUX_ESCAPE_XOR_MASK in
      if negb (c =? SERMUX_ESCAPE_CHAR) && negb (c =? SERMUX_FORCE_SID_CHAR) &&
         ((c <? SERMUX_SERVICE_ID_FIRST) || (c >? SERMUX_SERVICE_ID_LAST)) then Exit
      else mux_deliver c (mux_set_esc m false)
    else mux_deliver c m
  else Next ([], mux_set_esc m true).

Definition mux_service_byte (selidx c : Z) (m : mux St) : list mux_out * mux St :=
  let temp := if selidx =? RFS_PSEUDO_SELIDX then SERMUX_SERVICE_ID_FIRST
              else SERMUX_SERVICE_ID_FIRST + selidx - HND_FIRST_VOFFSET + service_offset in
  let sid := if negb (temp =? service_id_out m) then [ToTransport (u8 temp)] else [] in
  if must_escape c then
    (sid ++ [ToTransport SERMUX_ESCAPE_CHAR; ToTransport (Z.lxor c SERMUX_ESCAPE_XOR_MASK)],
     mux_sent m temp (Z.lor SERMUX_ESC_MASK (Z.lxor c SERMUX_ESCAPE_XOR_MASK)))
  else (sid ++ [ToTransport c], mux_sent m temp c).

(** One turn of the loop: a byte of a pending response, or the byte [c] that
    [ser_select_byte] finds on handler [selidx]. *)
Definition mux_pending (m : mux St) : option (list mux_out * mux St) :=
  match rfs_pending m with
  | [] => None
  | c :: rest => Some (mux_service_byte RFS_PSEUDO_SELIDX c
      (mkMux St (service_id_in m) (service_id_out m) (prev_sent m) (got_esc m) rest (rfs_server m)))
  end.
Definition mux_select (selidx c : Z) (m : mux St) : turn (list mux_out * mux St) :=
  if selidx =? HND_TRANSPORT_OFFSET then mux_transport_byte c m
  else Next (mux_service_byte selidx c m).
End Mux.

(** ** The code on the line *)

(** A data byte, and a data byte for port [id] after one for [out]. *)
Definition coded (c : Z) : list Z :=
  if must_escape c then [SERMUX_ESCAPE_CHAR; Z.lxor c SERMUX_ESCAPE_XOR_MASK] else [c].
Definition line (out id c : Z) : list Z := (if id =? out then [] else [id]) ++ coded c.

Definition plain (c : Z) : bool :=
  negb (c =? SERMUX_ESCAPE_CHAR) && negb (c =? SERMUX_FORCE_SID_CHAR) &&
  negb ((SERMUX_SERVICE_ID_FIRST <=? c) && (c <=? SERMUX_SERVICE_ID_LAST)).
Lemma plain_spec c : plain c = negb (must_escape c).
Proof. unfold plain, must_escape. by rewrite !negb_orb. Qed.
(** Flipping the bit of a byte that must be escaped gives one that need not. *)
Lemma escaped_plain c : is_u8 c -> must_escape c = true ->
  plain (Z.lxor c SERMUX_ESCAPE_XOR_MASK) = true /\ is_u8 (Z.lxor c SERMUX_ESCAPE_XOR_MASK) /\
  Z.land (Z.lor SERMUX_ESC_MASK (Z.lxor c SERMUX_ESCAPE_XOR_MASK)) SERMUX_ESC_MASK <> 0 /\
  Z.land (Z.lor SERMUX_ESC_MASK (Z.lxor c SERMUX_ESCAPE_XOR_MASK)) 0xFF
  = Z.lxor c SERMUX_ESCAPE_XOR_MASK.
Proof.
  intros Hc. pattern c. apply (byte_forall (fun c => implb (must_escape c)
    (plain (Z.lxor c SERMUX_ESCAPE_XOR_MASK) && (0 <=? Z.lxor c SERMUX_ESCAPE_XOR_MASK) &&
     (Z.lxor c SERMUX_ESCAPE_XOR_MASK <? 256) &&
     negb (Z.land (Z.lor SERMUX_ESC_MASK (Z.lxor c SERMUX_ESCAPE_XOR_MASK)) SERMUX_ESC_MASK =? 0) &&
     (Z.land (Z.lor SERMUX_ESC_MASK (Z.lxor c SERMUX_ESCAPE_XOR_MASK)) 0xFF
      =? Z.lxor c SERMUX_ESCAPE_XOR_MASK)))) in Hc; [|vm_compute; reflexivity].
  intros He. rewrite He in Hc. cbn [implb] in Hc.
  rewrite !andb_true_iff, negb_true_iff, Z.eqb_neq, Z.eqb_eq in Hc.
  destruct Hc as ((((? & ?) & ?) & ?) & ?). split_and!; [done|split; lia|done|done].
Qed.
Lemma lxor_back c : Z.lxor (Z.lxor c SERMUX_ESCAPE_XOR_MASK) SERMUX_ESCAPE_XOR_MASK = c.
Proof. by rewrite Z.lxor_assoc, Z.lxor_nilpotent, Z.lxor_0_r. Qed.
Lemma plain_facts c : plain c = true ->
  (c =? SERMUX_ESCAPE_CHAR) = false /\ (c =? SERMUX_FORCE_SID_CHAR) = false /\
  (SERMUX_SERVICE_ID_FIRST <=? c) && (c <=? SERMUX_SERVICE_ID_LAST) = false.
Proof. unfold plain. rewrite !andb_true_iff, !negb_true_iff. tauto. Qed.
Lemma line_id c : (SERMUX_SERVICE_ID_FIRST <=? c) && (c <=? SERMUX_SERVICE_ID_LAST) = true ->
  (c =? SERMUX_ESCAPE_CHAR) = false /\ is_u8 c.
Proof.
  unfold SERMUX_SERVICE_ID_FIRST, SERMUX_SERVICE_ID_LAST, SERMUX_ESCAPE_CHAR.
  intros [?%Z.leb_le ?%Z.leb_le]%andb_true_iff. split; [apply Z.eqb_neq; lia|word_lia].
Qed.

Definition line_bytes (outs : list mux_out) : list Z :=
  omap (fun o => match o with ToTransport b => Some b | ToService _ _ => None end) outs.

(** *** The board as a receiver *)

Section BoardSide.
Context (NUM_UART NUM_VUART_BUFS SERMUX_NUM_VUART SERMUX_PHYS_ID : Z).
Context (Hnum : 0 <= NUM_UART <= SERMUX_SERVICE_ID_FIRST)
  (Hv : 0 <= SERMUX_NUM_VUART <= SERMUX_SERVICE_ID_LAST - SERMUX_SERVICE_ID_FIRST + 1).

Abbreviation rx := (rx_bytes NUM_UART NUM_VUART_BUFS SERMUX_NUM_VUART SERMUX_PHYS_ID SERMUX_PHYS_ID).
Abbreviation vuart := (is_vuart SERMUX_NUM_VUART).
Abbreviation send := (platform_uart_send NUM_UART SERMUX_NUM_VUART SERMUX_PHYS_ID).
Abbreviation write := (rx_write NUM_UART NUM_VUART_BUFS).

Lemma vuart_range id : vuart id = true ->
  (SERMUX_SERVICE_ID_FIRST <=? id) && (id <=? SERMUX_SERVICE_ID_LAST) = true /\ id <> -1.
Proof.
  unfold is_vuart, SERMUX_SERVICE_ID_FIRST, SERMUX_SERVICE_ID_LAST in *.
  intros [?%Z.leb_le ?%Z.ltb_lt]%andb_true_iff. split; [|lia].
  apply andb_true_iff. split; apply Z.leb_le; lia.
Qed.
Lemma not_vuart c : (SERMUX_SERVICE_ID_FIRST <=? c) && (c <=? SERMUX_SERVICE_ID_LAST) = false ->
  vuart c = false.
Proof. intros H. destruct (vuart c) eqn:E; [|done]. apply vuart_range in E as [E _]. congruence. Qed.

Lemma rx_app bs1 bs2 : forall s, rx (bs1 ++ bs2) s = (s ← rx bs1 s; rx bs2 s).
Proof.
  induction bs1 as [|b bs1 IH]; intros s; [done|]. cbn [app rx_bytes].
  destruct (cmn_rx_handler _ _ _ _ _ b s) as [s1|]; [apply IH|done].
Qed.
Lemma rx_sid id s : vuart id = true -> rx [id] s = Some (set_in s id).
Proof.
  intros Hid. destruct (vuart_range id Hid) as [Hr _]. destruct (line_id id Hr) as [He _].
  cbn [rx_bytes]. unfold cmn_rx_handler. rewrite Z.eqb_refl, He, Hid. done.
Qed.
(** What a data byte does, escaped or not. *)
Definition board_data (c : Z) (s : uart) : option uart :=
  if uart_service_id_in s =? -1
  then Some (platform_s_uart_send SERMUX_PHYS_ID SERMUX_FORCE_SID_CHAR s)
  else write (uart_service_id_in s) c s.
Lemma rx_escape s :
  cmn_rx_handler NUM_UART NUM_VUART_BUFS SERMUX_NUM_VUART SERMUX_PHYS_ID SERMUX_PHYS_ID
    SERMUX_ESCAPE_CHAR s = Some (set_esc s true).
Proof. unfold cmn_rx_handler. by rewrite Z.eqb_refl. Qed.
Lemma rx_coded c s : is_u8 c -> uart_got_esc s = false -> rx (coded c) s = board_data c s.
Proof.
  intros Hc He. unfold coded. destruct (must_escape c) eqn:Em.
  - destruct (escaped_plain c Hc Em) as (Hp & _).
    destruct (plain_facts _ Hp) as (H1 & H2 & H3). cbn [rx_bytes].
    rewrite rx_escape. cbn [mbind option_bind].
    unfold cmn_rx_handler. rewrite Z.eqb_refl, H1, (not_vuart _ H3), H2. cbn [negb andb].
    change (uart_got_esc (set_esc s true)) with true. cbv iota. rewrite lxor_back.
    assert (set_esc (set_esc s true) false = s) as -> by (destruct s; simpl in *; by subst).
    unfold board_data. destruct (uart_service_id_in s =? -1); [done|]. by destruct (rx_write _ _ _ c s).
  - assert (plain c = true) as Hp by (by rewrite plain_spec, Em).
    destruct (plain_facts _ Hp) as (H1 & H2 & H3). cbn [rx_bytes].
    unfold cmn_rx_handler. rewrite Z.eqb_refl, H1, (not_vuart _ H3), H2. cbn [negb andb].
    rewrite He. unfold board_data. destruct (uart_service_id_in s =? -1); [done|].
    by destruct (rx_write _ _ _ c s).
Qed.
Lemma rx_line id c s : vuart id = true -> is_u8 c -> uart_got_esc s = false ->
  rx (line (uart_service_id_in s) id c) s = write id c (set_in s id).
Proof.
  intros Hid Hc He. destruct (vuart_range id Hid) as [_ Hne]. unfold line.
  destruct (Z.eqb_spec id (uart_service_id_in s)) as [E|E]; cbn [app].
  - rewrite rx_coded by done. unfold board_data.
    rewrite <- E, (proj2 (Z.eqb_neq _ _)) by done. f_equal. by destruct s; simpl in *; subst.
  - change (id :: coded c) with ([id] ++ coded c). rewrite rx_app, rx_sid by done.
    cbn [mbind option_bind]. rewrite rx_coded by done. unfold board_data. cbn [set_in uart_service_id_in].
    by rewrite (proj2 (Z.eqb_neq _ _)) by done.
Qed.

(** The bytes delivered to the buffers of their ports, in order. *)
Fixpoint deliver_all (evs : list (Z * Z)) (b : buf_array) : option buf_array :=
  match evs with
  | [] => Some b
  | (id, c) :: evs =>
      '(_, b) ← buf_write NUM_UART NUM_VUART_BUFS BUF_ID_UART id [c] b; deliver_all evs b
  end.
Definition with_bufs (s : uart) (b : buf_array) : uart :=
  mkUart (uart_service_id_in s) (uart_service_id_out s) (uart_got_esc s) (uart_last_sent s) b (sent s).
(** The code of a sequence of bytes for ports, after one for [out]; and the
    last port. *)
Fixpoint lines (out : Z) (evs : list (Z * Z)) : list Z :=
  match evs with [] => [] | (id, c) :: evs => line out id c ++ lines id evs end.
Definition last_id (out : Z) (evs : list (Z * Z)) : Z := foldl (fun _ e => e.1) out evs.

Lemma rx_lines evs : forall s, Forall (fun e => vuart e.1 = true /\ is_u8 e.2) evs ->
  uart_got_esc s = false ->
  rx (lines (uart_service_id_in s) evs) s
  = (b ← deliver_all evs (bufs s); Some (with_bufs (set_in s (last_id (uart_service_id_in s) evs)) b)).
Proof.
  induction evs as [|[id c] evs IH]; intros s Hev He.
  - cbn [lines rx_bytes deliver_all mbind option_bind last_id foldl]. f_equal. by destruct s.
  - apply Forall_cons in Hev as [[Hid Hc] Hev]. cbn [fst snd lines deliver_all] in *.
    rewrite rx_app, rx_line by done. unfold rx_write. cbn [set_in bufs].
    destruct (buf_write _ _ _ id [c] (bufs s)) as [[r b]|]; [|done]. cbn [mbind option_bind].
    etransitivity; [exact (IH (with_bufs (set_in s id) b) Hev He)|]. cbn [with_bufs set_in bufs].
    destruct (deliver_all evs b); done.
Qed.

(** *** The board as a sender *)

Lemma send_line id c s : vuart id = true -> is_u8 c ->
  exists last, send id c s = mkUart (uart_service_id_in s) id (uart_got_esc s) last (bufs s)
    (sent s ++ map (pair SERMUX_PHYS_ID) (line (uart_service_id_out s) id c)).
Proof.
  intros Hid Hc. destruct (vuart_range id Hid) as [Hr _]. pose proof Hr as Hr'.
  destruct (line_id id Hr) as [_ Hu]. unfold SERMUX_SERVICE_ID_FIRST, SERMUX_SERVICE_ID_LAST in Hr', Hnum.
  apply andb_true_iff in Hr' as [?%Z.leb_le ?%Z.leb_le].
  unfold platform_uart_send. rewrite Hid.
  assert ((id <? NUM_UART) || (id =? CDC_UART_ID) = false) as ->.
  { apply orb_false_iff. unfold CDC_UART_ID. split; [apply Z.ltb_ge|apply Z.eqb_neq]; lia. }
  unfold line, coded, platform_s_uart_send, set_last, set_out.
  destruct (id =? uart_service_id_out s), (must_escape c) eqn:Em; cbn [negb uart_service_id_in
    uart_service_id_out uart_got_esc uart_last_sent bufs sent app map];
    rewrite <- ?app_assoc; cbn [app];
    rewrite ?(u8_small c), ?(u8_small id) by done;
    try (destruct (escaped_plain c Hc Em) as (_ & Hx & _); rewrite (u8_small _ Hx));
    eexists; reflexivity.
Qed.
Fixpoint send_all (evs : list (Z * Z)) (s : uart) : uart :=
  match evs with [] => s | (id, c) :: evs => send_all evs (send id c s) end.
Lemma send_lines evs : forall s, Forall (fun e => vuart e.1 = true /\ is_u8 e.2) evs ->
  uart_service_id_out (send_all evs s) = last_id (uart_service_id_out s) evs /\
  bufs (send_all evs s) = bufs s /\
  sent (send_all evs s)
  = sent s ++ map (pair SERMUX_PHYS_ID) (lines (uart_service_id_out s) evs).
Proof.
  induction evs as [|[id c] evs IH]; intros s Hev.
  - cbn [send_all lines map]. by rewrite app_nil_r.
  - apply Forall_cons in Hev as [[Hid Hc] Hev]. cbn [fst snd send_all lines] in *.
    destruct (send_line id c s Hid Hc) as (last & Hs).
    destruct (IH (send id c s) Hev) as (H1 & H2 & H3). rewrite H1, H2, H3, Hs.
    cbn [uart_service_id_out bufs sent]. by rewrite map_app, app_assoc.
Qed.
End BoardSide.

(** *** The multiplexer as a sender and as a receiver *)

Section MuxSide.
Context {St : Type} (px : posix St) (basedir : list Z) (fuel : nat).
Context (rfs_service_id service_offset vport_num : Z).

Abbreviation service_byte := (mux_service_byte service_offset).
Abbreviation transport_byte :=
  (mux_transport_byte px basedir fuel rfs_service_id service_offset vport_num).

(** The port of the handler [selidx]. *)
Definition sel_id (selidx : Z) : Z :=
  if selidx =? RFS_PSEUDO_SELIDX then SERMUX_SERVICE_ID_FIRST
  else SERMUX_SERVICE_ID_FIRST + selidx - HND_FIRST_VOFFSET + service_offset.

Lemma service_byte_ok selidx c (m : mux St) : is_u8 c -> is_u8 (sel_id selidx) ->
  exists outs prev, service_byte selidx c m = (outs, mux_sent m (sel_id selidx) prev) /\
    line_bytes outs = line (service_id_out m) (sel_id selidx) c /\ prev <> -1 /\
    (if negb (Z.land prev SERMUX_ESC_MASK =? 0) then [SERMUX_ESCAPE_CHAR] else [])
      ++ [Z.land prev 0xFF] = coded c.
Proof.
  intros Hc Hid. unfold mux_service_byte. fold (sel_id selidx). unfold line, coded.
  destruct (must_escape c) eqn:Em.
  - destruct (escaped_plain c Hc Em) as (_ & Hx & Hm & Hlow).
    eexists _, _. split; [reflexivity|].
    split; [|split; [|by rewrite Hlow, (proj2 (Z.eqb_neq _ _))]].
    + destruct (sel_id selidx =? service_id_out m); cbn [negb app line_bytes omap list_omap];
        rewrite ?(u8_small _ Hid); done.
    + intros E. assert (0 <= Z.lor SERMUX_ESC_MASK (Z.lxor c SERMUX_ESCAPE_XOR_MASK)) as H; [|lia].
      apply Z.lor_nonneg. split; [done|apply Hx].
  - eexists _, _. split; [reflexivity|]. split; [|split; [destruct Hc; lia|]].
    + destruct (sel_id selidx =? service_id_out m); cbn [negb app line_bytes omap list_omap];
        rewrite ?(u8_small _ Hid); done.
    + change SERMUX_ESC_MASK with (Z.shiftl 1 8). rewrite land_shiftl_0 by exact Hc.
      rewrite land_255, Z.mod_small by (destruct Hc; lia). done.
Qed.

(** The bytes the ports send, in order: what goes on the line. *)
Fixpoint service_bytes (evs : list (Z * Z)) (m : mux St) : list mux_out * mux St :=
  match evs with
  | [] => ([], m)
  | (selidx, c) :: evs =>
      let '(o1, m) := service_byte selidx c m in
      let '(o2, m) := service_bytes evs m in (o1 ++ o2, m)
  end.
Definition on_line (evs : list (Z * Z)) : list (Z * Z) := map (fun e => (sel_id e.1, e.2)) evs.
Lemma service_bytes_ok evs : forall m : mux St,
  Forall (fun e => is_u8 (sel_id e.1) /\ is_u8 e.2) evs ->
  let '(outs, m') := service_bytes evs m in
  line_bytes outs = lines (service_id_out m) (on_line evs) /\
  service_id_out m' = last_id (service_id_out m) (on_line evs).
Proof.
  induction evs as [|[selidx c] evs IH]; intros m Hev; [done|].
  apply Forall_cons in Hev as [[Hid Hc] Hev]. cbn [fst snd service_bytes] in *.
  destruct (service_byte_ok selidx c m Hc Hid) as (o1 & prev & -> & Hl & _).
  specialize (IH (mux_sent m (sel_id selidx) prev) Hev).
  destruct (service_bytes evs _) as [o2 m']. destruct IH as [H1 H2]. split; [|exact H2].
  unfold line_bytes in *. rewrite omap_app, Hl, H1. done.
Qed.

(** Bytes from the line. *)
Fixpoint transport_bytes (bs : list Z) (m : mux St) : turn (list mux_out * mux St) :=
  match bs with
  | [] => Next ([], m)
  | b :: bs =>
      match transport_byte b m with
      | Next (o1, m) =>
          match transport_bytes bs m with
          | Next (o2, m) => Next (o1 ++ o2, m) | Exit => Exit | Fault => Fault
          end
      | Exit => Exit | Fault => Fault
      end
  end.
Lemma transport_app bs1 bs2 : forall m,
  transport_bytes (bs1 ++ bs2) m =
  match transport_bytes bs1 m with
  | Next (o1, m) =>
      match transport_bytes bs2 m with
      | Next (o2, m) => Next (o1 ++ o2, m) | Exit => Exit | Fault => Fault
      end
  | Exit => Exit | Fault => Fault
  end.
Proof.
  induction bs1 as [|b bs1 IH]; intros m; cbn [app transport_bytes].
  - by destruct (transport_bytes bs2 m) as [[o2 m']| |].
  - destruct (transport_byte b m) as [[o m1]| |]; [|done|done]. rewrite IH.
    destruct (transport_bytes bs1 m1) as [[o1 m2]| |]; [|done|done].
    destruct (transport_bytes bs2 m2) as [[o2 m3]| |]; [|done|done]. by rewrite app_assoc.
Qed.
Lemma transport_sid id m : (SERMUX_SERVICE_ID_FIRST <=? id) && (id <=? SERMUX_SERVICE_ID_LAST) = true ->
  transport_bytes [id] m = Next ([], mux_set_in m id).
Proof.
  intros Hr. destruct (line_id id Hr) as [He _]. cbn [transport_bytes]. unfold mux_transport_byte.
  by rewrite He, Hr.
Qed.
Lemma transport_escape m : transport_byte SERMUX_ESCAPE_CHAR m = Next ([], mux_set_esc m true).
Proof. done. Qed.
(** A coded byte reaches the port it is for. *)
Lemma transport_coded c m : is_u8 c -> got_esc m = false ->
  transport_bytes (coded c) m
  = mux_deliver px basedir fuel rfs_service_id service_offset vport_num c m.
Proof.
  intros Hc He. unfold coded. destruct (must_escape c) eqn:Em.
  - destruct (escaped_plain c Hc Em) as (Hp & _).
    destruct (plain_facts _ Hp) as (H1 & H2 & H3). cbn [transport_bytes].
    rewrite transport_escape. unfold mux_transport_byte. rewrite H1, H3, H2. cbn [negb].
    change (got_esc (mux_set_esc m true)) with true. cbv iota. rewrite lxor_back.
    assert (negb (c =? SERMUX_ESCAPE_CHAR) && negb (c =? SERMUX_FORCE_SID_CHAR) &&
      ((c <? SERMUX_SERVICE_ID_FIRST) || (c >? SERMUX_SERVICE_ID_LAST)) = false) as ->.
    { unfold must_escape in Em. rewrite Z.ltb_antisym, Z.gtb_ltb, Z.ltb_antisym, <- negb_andb.
      destruct (c =? SERMUX_ESCAPE_CHAR); [done|]. destruct (c =? SERMUX_FORCE_SID_CHAR); [done|].
      cbn [orb] in Em. rewrite Em. done. }
    assert (mux_set_esc (mux_set_esc m true) false = m) as -> by (destruct m; simpl in *; by subst).
    destruct (mux_deliver _ _ _ _ _ _ c m) as [[o m']| |]; [|done|done]. by rewrite app_nil_r.
  - assert (plain c = true) as Hp by (by rewrite plain_spec, Em).
    destruct (plain_facts _ Hp) as (H1 & H2 & H3). cbn [transport_bytes].
    unfold mux_transport_byte. rewrite H1, H3, H2, He. cbn [negb].
    destruct (mux_deliver _ _ _ _ _ _ c m) as [[o m']| |]; [|done|done]. by rewrite app_nil_r.
Qed.

(** A port that is open, and not that of the file server. *)
Definition port (id : Z) : Prop :=
  (SERMUX_SERVICE_ID_FIRST <=? id) && (id <=? SERMUX_SERVICE_ID_LAST) = true /\
  id <> rfs_service_id /\ 0 <= id - SERMUX_SERVICE_ID_FIRST - service_offset < vport_num.
Definition to_port (e : Z * Z) : mux_out :=
  ToService (e.1 - SERMUX_SERVICE_ID_FIRST - service_offset) e.2.

Lemma transport_line id c m : port id -> is_u8 c -> got_esc m = false ->
  transport_bytes (line (service_id_in m) id c) m = Next ([to_port (id, c)], mux_set_in m id).
Proof.
  intros (Hr & Hne & Hk) Hc He.
  assert (forall m', got_esc m' = false -> service_id_in m' = id ->
    transport_bytes (coded c) m' = Next ([to_port (id, c)], m')) as Hgo.
  { intros m' He' Hin. rewrite transport_coded by done. unfold mux_deliver. rewrite Hin.
    assert (id <> -1) as H1.
    { unfold SERMUX_SERVICE_ID_FIRST in Hr. apply andb_true_iff in Hr as [?%Z.leb_le _]. lia. }
    rewrite (proj2 (Z.eqb_neq _ _) H1), (proj2 (Z.eqb_neq _ _) Hne).
    by rewrite bool_decide_true. }
  unfold line. destruct (Z.eqb_spec id (service_id_in m)) as [E|E]; cbn [app].
  - rewrite Hgo by done. do 2 f_equal. by destruct m; simpl in *; subst.
  - change (id :: coded c) with ([id] ++ coded c). rewrite transport_app, transport_sid by done.
    by rewrite Hgo by done.
Qed.
Lemma transport_lines evs : forall m, Forall (fun e => port e.1 /\ is_u8 e.2) evs ->
  got_esc m = false ->
  transport_bytes (lines (service_id_in m) evs) m
  = Next (map to_port evs, mux_set_in m (last_id (service_id_in m) evs)).
Proof.
  induction evs as [|[id c] evs IH]; intros m Hev He.
  - cbn [lines transport_bytes map last_id foldl]. do 2 f_equal. by destruct m.
  - apply Forall_cons in Hev as [[Hid Hc] Hev]. cbn [fst snd lines] in *.
    rewrite transport_app, transport_line by done.
    assert (transport_bytes (lines id evs) (mux_set_in m id)
      = Next (map to_port evs, mux_set_in (mux_set_in m id) (last_id id evs))) as ->
      by (by apply (IH (mux_set_in m id))).
    done.
Qed.
End MuxSide.

(** ** Both ends *)

Section Link.
Context {St : Type} (px : posix St) (basedir : list Z) (fuel : nat).
Context (rfs_service_id service_offset vport_num : Z).
Context (NUM_UART NUM_VUART_BUFS SERMUX_NUM_VUART SERMUX_PHYS_ID : Z).
Context (Hnum : 0 <= NUM_UART <= SERMUX_SERVICE_ID_FIRST)
  (Hv : 0 <= SERMUX_NUM_VUART <= SERMUX_SERVICE_ID_LAST - SERMUX_SERVICE_ID_FIRST + 1).

Abbreviation rx := (rx_bytes NUM_UART NUM_VUART_BUFS SERMUX_NUM_VUART SERMUX_PHYS_ID SERMUX_PHYS_ID).
Abbreviation sel := (sel_id service_offset).
Abbreviation from_line := (transport_bytes px basedir fuel rfs_service_id service_offset vport_num).

(** C25: data from the host.  Whatever bytes, in whatever order, the ports of the
    multiplexer (and its file server) send, a board that agrees on the current
    port puts into the receive buffers of its virtual UARTs: exactly these
    bytes, each in the buffer of its port, in order, escaped or not.  Nothing
    is sent back and both ends agree on the port again. *)
Theorem sermux_to_board evs (m : mux St) s :
  Forall (fun e => is_vuart SERMUX_NUM_VUART (sel e.1) = true /\ is_u8 e.2) evs ->
  uart_got_esc s = false -> uart_service_id_in s = service_id_out m ->
  let '(outs, m') := service_bytes service_offset evs m in
  rx (line_bytes outs) s
  = (b ← deliver_all NUM_UART NUM_VUART_BUFS (on_line service_offset evs) (bufs s);
     Some (with_bufs (set_in s (service_id_out m')) b)).
Proof.
  intros Hev He Hsync.
  pose proof (service_bytes_ok service_offset evs m) as Hok.
  destruct (service_bytes service_offset evs m) as [outs m']. destruct Hok as [Hl Hlast].
  { eapply Forall_impl; [exact Hev|]. intros e [Hid Hc]. split; [|done].
    apply (vuart_range SERMUX_NUM_VUART Hv) in Hid as [Hr _]. by apply line_id in Hr as [_ ?]. }
  rewrite Hl, Hlast, <- Hsync. apply rx_lines; [done| |done].
  unfold on_line. apply Forall_map. done.
Qed.

(** Data to the host.  Whatever bytes programs on the board send to virtual
    UARTs, the multiplexer, if it agrees on the current port, passes exactly
    these to the ports they are for, in order, and sends nothing itself. *)
Theorem sermux_to_host evs (m : mux St) s :
  Forall (fun e => is_vuart SERMUX_NUM_VUART e.1 = true /\
    port rfs_service_id service_offset vport_num e.1 /\ is_u8 e.2) evs ->
  got_esc m = false -> service_id_in m = uart_service_id_out s -> sent s = [] ->
  let s' := send_all NUM_UART SERMUX_NUM_VUART SERMUX_PHYS_ID evs s in
  Forall (fun b => b.1 = SERMUX_PHYS_ID) (sent s') /\ bufs s' = bufs s /\
  from_line (map snd (sent s')) m
  = Next (map (to_port service_offset) evs, mux_set_in m (uart_service_id_out s')).
Proof.
  intros Hev He Hsync Hs.
  destruct (send_lines NUM_UART SERMUX_NUM_VUART SERMUX_PHYS_ID Hnum Hv evs s) as (H1 & H2 & H3).
  { eapply Forall_impl; [exact Hev|]. tauto. }
  cbv zeta. rewrite H1, H3, Hs. cbn [app]. split_and!; [by apply Forall_map, Forall_true|done|].
  rewrite map_map. cbn [snd]. rewrite map_id, <- Hsync. apply transport_lines; [|done].
  eapply Forall_impl; [exact Hev|]. tauto.
Qed.

(** C40: agreeing again.  A board that has just started does not know the
    current port: the next byte for it makes it ask for the port, without
    putting the byte anywhere; the multiplexer answers by sending the port and
    the byte again, and the board then delivers it, once, and agrees on the
    port. *)
Theorem sermux_resync selidx c (m : mux St) s :
  is_vuart SERMUX_NUM_VUART (sel selidx) = true -> is_u8 c ->
  service_id_out m = sel selidx -> uart_service_id_in s = -1 -> uart_got_esc s = false ->
  let '(o1, m1) := mux_service_byte service_offset selidx c m in
  let s1 := platform_s_uart_send SERMUX_PHYS_ID SERMUX_FORCE_SID_CHAR s in
  rx (line_bytes o1) s = Some s1 /\
  exists o2 m2, from_line [SERMUX_FORCE_SID_CHAR] m1 = Next (o2, m2) /\
    rx (line_bytes o2) s1
    = rx_write NUM_UART NUM_VUART_BUFS (sel selidx) c (set_in s1 (service_id_out m2)) /\
    service_id_out m2 = sel selidx.
Proof.
  intros Hid Hc Hout Hin He. destruct (vuart_range SERMUX_NUM_VUART Hv _ Hid) as [Hr Hne].
  destruct (line_id _ Hr) as [_ Hu].
  destruct (service_byte_ok service_offset selidx c m Hc Hu) as (o1 & prev & -> & Hl & Hp & Hcode).
  cbv zeta. rewrite Hl, Hout. unfold line. rewrite Z.eqb_refl. cbn [app].
  rewrite rx_coded by done. unfold board_data. rewrite Hin. split; [done|].
  assert (from_line [SERMUX_FORCE_SID_CHAR] (mux_sent m (sel selidx) prev)
    = Next (([ToTransport (sel selidx)] ++
             (if negb (Z.land prev SERMUX_ESC_MASK =? 0) then [ToTransport SERMUX_ESCAPE_CHAR] else []) ++
             [ToTransport (Z.land prev 0xFF)]) ++ [], mux_sent m (sel selidx) (-1))) as ->.
  { cbn [transport_bytes]. unfold mux_transport_byte. cbn [prev_sent mux_sent service_id_out].
    rewrite (proj2 (Z.eqb_neq _ _) Hp), (u8_small _ Hu). done. }
  eexists _, _. split; [reflexivity|]. split; [|done].
  assert (line_bytes (([ToTransport (sel selidx)] ++
      (if negb (Z.land prev SERMUX_ESC_MASK =? 0) then [ToTransport SERMUX_ESCAPE_CHAR] else []) ++
      [ToTransport (Z.land prev 0xFF)]) ++ []) = [sel selidx] ++ coded c) as ->.
  { rewrite <- Hcode, app_nil_r. by destruct (negb _). }
  rewrite rx_app, rx_sid by done. cbn [mbind option_bind]. rewrite rx_coded by done.
  unfold board_data. cbn [set_in uart_service_id_in mux_sent service_id_out].
  by rewrite (proj2 (Z.eqb_neq _ _) Hne).
Qed.

(** Asking twice ends the multiplexer.  If two bytes for the current port
    reach a board that has just started before its first question is answered,
    it asks twice; the multiplexer answers the first question, with the second
    byte only, and ends with an error at the second. *)
Theorem sermux_asked_twice selidx c1 c2 (m : mux St) s :
  is_vuart SERMUX_NUM_VUART (sel selidx) = true -> is_u8 c1 -> is_u8 c2 ->
  service_id_out m = sel selidx -> uart_service_id_in s = -1 -> uart_got_esc s = false ->
  let '(outs, m') := service_bytes service_offset [(selidx, c1); (selidx, c2)] m in
  exists s', rx (line_bytes outs) s = Some s' /\
    sent s' = sent s ++ [(SERMUX_PHYS_ID, SERMUX_FORCE_SID_CHAR); (SERMUX_PHYS_ID, SERMUX_FORCE_SID_CHAR)] /\
    from_line [SERMUX_FORCE_SID_CHAR; SERMUX_FORCE_SID_CHAR] m' = Exit.
Proof.
  intros Hid Hc1 Hc2 Hout Hin He. destruct (vuart_range SERMUX_NUM_VUART Hv _ Hid) as [Hr Hne].
  destruct (line_id _ Hr) as [_ Hu]. cbn [service_bytes].
  destruct (service_byte_ok service_offset selidx c1 m Hc1 Hu) as (o1 & p1 & -> & Hl1 & _).
  destruct (service_byte_ok service_offset selidx c2 (mux_sent m (sel selidx) p1) Hc2 Hu)
    as (o2 & p2 & -> & Hl2 & Hp2 & _).
  rewrite app_nil_r. unfold line_bytes in *. rewrite omap_app, Hl1, Hl2, Hout.
  cbn [mux_sent service_id_out]. unfold line. rewrite Z.eqb_refl. cbn [app].
  set (s1 := platform_s_uart_send SERMUX_PHYS_ID SERMUX_FORCE_SID_CHAR s).
  assert (rx (coded c1) s = Some s1) as H1
    by (rewrite rx_coded by done; unfold board_data; by rewrite Hin).
  exists (platform_s_uart_send SERMUX_PHYS_ID SERMUX_FORCE_SID_CHAR s1). split_and!.
  - rewrite rx_app, H1. cbn [mbind option_bind]. rewrite rx_coded by done. unfold board_data.
    by change (uart_service_id_in s1) with (uart_service_id_in s); rewrite Hin.
  - cbn. by rewrite <- app_assoc.
  - cbn [transport_bytes]. unfold mux_transport_byte. cbn [prev_sent mux_sent].
    by rewrite (proj2 (Z.eqb_neq _ _) Hp2).
Qed.
End Link.

(** ** A concrete line

    A board with two UARTs, the second with two virtual ones on it, and a
    multiplexer with two ports and no file server. *)

Definition empty_desc : buf_desc := BufDesc 2 0 0 0 0 (Some [0; 0; 0; 0]).
Definition board_bufs : buf_array := [replicate 5 empty_desc; []].
Definition board0 : uart := uart_init board_bufs.
Definition mux0 : mux ram := mkMux ram (-1) (-1) (-1) false [] (ram_transport, ram_file).
Definition mux_at (id : Z) : mux ram := mkMux ram (-1) id 0 false [] (ram_transport, ram_file).

(** 0xC0 and 0xD1 are escaped. *)
Lemma sermux_to_board_witness :
  rx_bytes 2 2 2 1 1 [0xD1; 65; 0xC0; 0xE0; 0xD0; 0xC0; 0xF1] board0
  = (b ← deliver_all 2 2 [(0xD1, 65); (0xD1, 0xC0); (0xD0, 0xD1)] board_bufs;
     Some (with_bufs (set_in board0 0xD0) b)).
Proof.
  pose proof (sermux_to_board 0 2 2 2 1 ltac:(by_decide) [(2, 65); (2, 0xC0); (1, 0xD1)] mux0 board0) as H.
  apply H; [by_decide|reflexivity|reflexivity].
Defined.
Lemma sermux_to_host_witness :
  transport_bytes ram_posix ram_base 1 (-1) 0 2 [0xD1; 65; 0xC0; 0xDF] mux0
  = Next ([ToService 1 65; ToService 1 0xFF], mux_set_in mux0 0xD1).
Proof.
  destruct (sermux_to_host ram_posix ram_base 1 (-1) 0 2 2 2 1 ltac:(by_decide) ltac:(by_decide)
    [(0xD1, 65); (0xD1, 0xFF)] mux0 board0) as (_ & _ & H);
    [|reflexivity|reflexivity|reflexivity|exact H].
  repeat constructor; simpl; try lia; by_decide.
Defined.
Lemma sermux_resync_witness :
  rx_bytes 2 2 2 1 1 [0xC0; 0xF1] board0 = Some (platform_s_uart_send 1 0xFF board0).
Proof.
  pose proof (sermux_resync ram_posix ram_base 1 (-1) 0 2 2 2 2 1 ltac:(by_decide) 1 0xD1
    (mux_at 0xD0) board0) as H.
  apply H; try reflexivity; by_decide.
Defined.
Lemma sermux_asked_twice_witness : exists s',
  rx_bytes 2 2 2 1 1 [65; 66] board0 = Some s' /\ sent s' = [(1, 0xFF); (1, 0xFF)].
Proof.
  pose proof (sermux_asked_twice ram_posix ram_base 1 (-1) 0 2 2 2 2 1 ltac:(by_decide) 1 65 66
    (mux_at 0xD0) board0) as H.
  destruct H as (s' & H1 & H2 & _); try reflexivity; try by_decide. exists s'. split; [exact H1|exact H2].
Defined.

(** A question the board cannot answer, because it has sent nothing since the
    last one, is put into the buffer of the current port as data. *)
Example question_as_data :
  rx_bytes 2 2 2 1 1 [0xFF] (set_in board0 0xD0)
  = (b ← deliver_all 2 2 [(0xD0, 0xFF)] board_bufs; Some (with_bufs (set_in board0 0xD0) b)).
Proof. reflexivity. Qed.
(** A port number that the multiplexer was not started with is an access
    outside its array of ports. *)
Example unknown_port : transport_bytes ram_posix ram_base 1 (-1) 0 2 [0xD5; 65] mux0 = Fault.
Proof. reflexivity. Qed.
