(* ===== verification/Devman.v ===== *)
(** * Devman: devices, and the system calls that reach them

    Models src/newlib/devman.c, the table of devices, and the part of
    src/newlib/stubs.c that implements the calls of the C library on files and
    directories: each finds the device, by the first part of a path or by the
    upper bits of a file descriptor, and calls one of its functions. *)

From S2P Require Import Prelude.

Definition DM_MAX_DEVICES : Z := 16.
Definition DM_MAX_DEVICES_BITS : Z := 4.
Definition DM_MAX_DEV_NAME : Z := 12.
Definition DM_STDIN_NUM : Z := 0.
Definition DM_STDOUT_NUM : Z := 1.
Definition DM_STDERR_NUM : Z := 2.

Definition DM_MAKE_DESC (devid fd : Z) : Z := Z.lor (Z.shiftl devid (15 - DM_MAX_DEVICES_BITS)) fd.
Definition DM_GET_DEVID (desc : Z) : Z := Z.shiftr desc (15 - DM_MAX_DEVICES_BITS).
Definition DM_GET_FD (desc : Z) : Z := Z.land desc (Z.shiftl 1 (15 - DM_MAX_DEVICES_BITS) - 1).

Definition DM_ERR_ALREADY_REGISTERED : Z := -1.
Definition DM_ERR_NOT_REGISTERED : Z := -2.
Definition DM_ERR_NO_SPACE : Z := -3.
Definition DM_ERR_INVALID_NAME : Z := -4.
Definition DM_ERR_NO_DEVICE : Z := -5.
Definition DM_ERR_INVALID_OPS : Z := -6.
Definition DM_OK : Z := 0.

(** The character '/'. *)
Definition SLASH : Z := 47.

Section Devman.
(** [W]: the state of all devices; [P]: the data registered with a device;
    [D], [Ent]: its directory handles and entries. *)
Context {W P D Ent : Type}.

(** [errno] and the devices. *)
Abbreviation sys := (errno * W)%type.

(** The functions of a device; [None]: a null pointer.  [read] also returns the
    bytes it stores; null pointers it returns are [None]. *)
Record DM_DEVICE := mkDevice {
  p_open_r : option (list Z -> Z -> Z -> P -> sys -> Z * sys);
  p_close_r : option (Z -> P -> sys -> Z * sys);
  p_write_r : option (Z -> list Z -> P -> sys -> Z * sys);
  p_read_r : option (Z -> Z -> P -> sys -> Z * list Z * sys);
  p_lseek_r : option (Z -> Z -> Z -> P -> sys -> Z * sys);
  p_opendir_r : option (list Z -> P -> sys -> option D * sys);
  p_readdir_r : option (D -> P -> sys -> option Ent * sys);
  p_closedir_r : option (D -> P -> sys -> Z * sys);
  p_getaddr_r : option (Z -> P -> sys -> option Z * sys);
  p_mkdir_r : option (list Z -> Z -> P -> sys -> Z * sys);
  p_unlink_r : option (list Z -> P -> sys -> Z * sys);
  p_rmdir_r : option (list Z -> P -> sys -> Z * sys);
  p_rename_r : option (list Z -> list Z -> P -> sys -> Z * sys)
}.
Record DM_INSTANCE_DATA := mkInstance { name : list Z; pdata : P; pdev : DM_DEVICE }.

(** The first [dm_num_devs] entries of [dm_list]. *)
Abbreviation dm := (list DM_INSTANCE_DATA).

(** ** The table *)

Definition find_name (nm : list Z) (l : dm) : option nat :=
  fst <$> list_find (fun d => strcaseeq nm (name d) = true) l.

(** A null pointer for the name or the functions is [None]. *)
Definition dm_register (nm : option (list Z)) (pdata : P) (pdev : option DM_DEVICE) (l : dm) : Z * dm :=
  match pdev with
  | None => (DM_ERR_INVALID_OPS, l)
  | Some pdev =>
      match nm with
      | None => (DM_ERR_INVALID_NAME, l)
      | Some nm =>
          if bool_decide (head nm <> Some SLASH) || (Z.of_nat (length nm) >? DM_MAX_DEV_NAME)
          then (DM_ERR_INVALID_NAME, l)
          else if bool_decide (is_Some (find_name nm l)) then (DM_ERR_ALREADY_REGISTERED, l)
          else if Z.of_nat (length l) =? DM_MAX_DEVICES then (DM_ERR_NO_SPACE, l)
          else (Z.of_nat (length l), l ++ [mkInstance nm pdata pdev])
      end
  end.

Definition dm_unregister (nm : option (list Z)) (l : dm) : Z * dm :=
  match nm with
  | None => (DM_ERR_INVALID_NAME, l)
  | Some nm =>
      if bool_decide (head nm <> Some SLASH) || (Z.of_nat (length nm) >? DM_MAX_DEV_NAME)
      then (DM_ERR_INVALID_NAME, l)
      else match find_name nm l with
           | None => (DM_ERR_NOT_REGISTERED, l)
           | Some i => (DM_OK, take i l ++ drop (S i) l)
           end
  end.

Definition dm_get_instance_at (idx : Z) (l : dm) : option DM_INSTANCE_DATA :=
  if (idx <? 0) || (idx >=? Z.of_nat (length l)) then None else l !! Z.to_nat idx.
Definition dm_get_device_at (idx : Z) (l : dm) : option DM_DEVICE := pdev <$> dm_get_instance_at idx l.
Definition dm_get_num_devices (l : dm) : Z := Z.of_nat (length l).

(** The device with the longest name that starts [nm], and the rest of [nm]. *)
Fixpoint longest (nm : list Z) (l : dm) (i pos : nat) (matchlen : nat) : nat * nat :=
  match l with
  | [] => (pos, matchlen)
  | d :: l =>
      if strncaseeq (length (name d)) nm (name d) && (matchlen <? length (name d))%nat
      then longest nm l (S i) i (length (name d)) else longest nm l (S i) pos matchlen
  end.
Definition dm_device_id_from_name (nm : list Z) (l : dm) : option (nat * list Z) :=
  let '(pos, matchlen) := longest nm l 0 0 0 in
  if (matchlen =? 0)%nat then None else Some (pos, drop matchlen nm).

(** ** Paths and descriptors *)

(** Where the first '/' of a string is. *)
Definition strchr (nm : list Z) : option nat := fst <$> list_find (fun x => x = SLASH) nm.

(** -1 is [None]. *)
Definition find_dm_entry (nm : option (list Z)) (l : dm) : option (nat * list Z) :=
  match nm with
  | None => None
  | Some nm =>
      if bool_decide (head nm <> Some SLASH) then None else
      '(tempname, preal) ← (match strchr (tail nm) with
        | None => Some ([SLASH], O)
        | Some k =>
            let preal := S k in
            if (Z.of_nat preal >? DM_MAX_DEV_NAME) || (preal =? 1)%nat then None
            else Some (take preal nm, preal)
        end);
      i ← find_name tempname l;
      let actname := drop (S preal) nm in
      match actname with [] => None | _ => Some (i, actname) end
  end.

Definition fail {A} (x : A) (e : errno) (s : sys) : A * sys := (x, (e, s.2)).

(** The calls.  [None]: a null pointer is followed. *)

Definition _open_r (nm : option (list Z)) (flags mode : Z) (l : dm) (s : sys) : option (Z * sys) :=
  match find_dm_entry nm l with
  | None => Some (fail (-1) ENODEV s)
  | Some (devid, actname) =>
      pinst ← dm_get_instance_at (Z.of_nat devid) l;
      match p_open_r (pdev pinst) with
      | None => Some (fail (-1) ENOSYS s)
      | Some f =>
          let '(res, s) := f actname flags mode (pdata pinst) s in
          if res <? 0 then Some (res, s) else Some (DM_MAKE_DESC (Z.of_nat devid) res, s)
      end
  end.
Definition open (nm : option (list Z)) (flags mode : Z) := _open_r nm flags 0.

(** What the calls on a descriptor share. *)
Definition on_file {A F} (file : Z) (l : dm) (fld : DM_DEVICE -> option F)
  (no : A * sys) (call : F -> Z -> P -> A * sys) : option (A * sys) :=
  pinst ← dm_get_instance_at (DM_GET_DEVID file) l;
  match fld (pdev pinst) with
  | None => Some no
  | Some f => Some (call f (DM_GET_FD file) (pdata pinst))
  end.

Definition _close_r (file : Z) (l : dm) (s : sys) : option (Z * sys) :=
  on_file file l p_close_r (fail (-1) ENOSYS s) (fun f fd pd => f fd pd s).
Definition _lseek_r (file off whence : Z) (l : dm) (s : sys) : option (Z * sys) :=
  on_file file l p_lseek_r (fail (-1) ENOSYS s) (fun f fd pd => f fd off whence pd s).
Definition _read_r (file len : Z) (l : dm) (s : sys) : option (Z * list Z * sys) :=
  on_file file l p_read_r (fail (-1, []) ENOSYS s) (fun f fd pd => f fd len pd s).
Definition _write_r (file : Z) (data : list Z) (l : dm) (s : sys) : option (Z * sys) :=
  on_file file l p_write_r (fail (-1) ENOSYS s) (fun f fd pd => f fd data pd s).
(** 0 stands for [S_IFCHR] stored. *)
Definition _fstat_r (file : Z) (s : sys) : Z * sys :=
  if (file >=? DM_STDIN_NUM) && (file <=? DM_STDERR_NUM) then (0, s) else fail (-1) ENOSYS s.
Definition dm_getaddr (fd : Z) (l : dm) (s : sys) : option Z * sys :=
  match dm_get_instance_at (DM_GET_DEVID fd) l with
  | None => fail None ENOSYS s
  | Some pinst =>
      match p_getaddr_r (pdev pinst) with
      | None => fail None ENOSYS s
      | Some f => f (DM_GET_FD fd) (pdata pinst) s
      end
  end.

(** What the calls on a path share. *)
Definition on_path {F} (nm : option (list Z)) (l : dm) (fld : DM_DEVICE -> option F) (e : errno) (s : sys)
  (call : F -> list Z -> P -> Z * sys) : option (Z * sys) :=
  match find_dm_entry nm l with
  | None => Some (fail (-1) ENODEV s)
  | Some (devid, actname) =>
      pinst ← dm_get_instance_at (Z.of_nat devid) l;
      match fld (pdev pinst) with
      | None => Some (fail (-1) e s)
      | Some f => Some (call f actname (pdata pinst))
      end
  end.
(** [actname - 1] is the '/' before the name. *)
Definition _mkdir_r (path : option (list Z)) (mode : Z) (l : dm) (s : sys) : option (Z * sys) :=
  on_path path l p_mkdir_r EPERM s (fun f act pd => f (SLASH :: act) mode pd s).
Definition _unlink_r (fname : option (list Z)) (l : dm) (s : sys) : option (Z * sys) :=
  on_path fname l p_unlink_r ENOSYS s (fun f act pd => f act pd s).
Definition rmdir (path : option (list Z)) (l : dm) (s : sys) : option (Z * sys) :=
  on_path path l p_rmdir_r ENOSYS s (fun f act pd => f act pd s).
Definition _rename_r (oldname newname : option (list Z)) (l : dm) (s : sys) : option (Z * sys) :=
  match find_dm_entry oldname l with
  | None => Some (fail (-1) ENODEV s)
  | Some (devid_old, actname_old) =>
      match find_dm_entry newname l with
      | None => Some (fail (-1) ENODEV s)
      | Some (devid_new, actname_new) =>
          if (devid_old =? devid_new)%nat then
            pinst ← dm_get_instance_at (Z.of_nat devid_old) l;
            match p_rename_r (pdev pinst) with
            | None => Some (fail (-1) EPERM s)
            | Some f => Some (f actname_old actname_new (pdata pinst) s)
            end
          else Some (fail (-1) EXDEV s)
      end
  end.

(** ** Directories

    [malloc]: whether there is memory for the descriptor. *)

Record DM_DIR := mkDir { devid : nat; userdata : D }.

Definition dm_opendir (malloc : bool) (dirname : list Z) (l : dm) (s : sys)
  : option (option DM_DIR * sys) :=
  match dm_device_id_from_name dirname l with
  | None => Some (fail None ENOSYS s)
  | Some (pos, rest) =>
      pinst ← l !! pos;
      match p_opendir_r (pdev pinst) with
      | None => Some (fail None ENOSYS s)
      | Some f =>
          let '(data, s) := f rest (pdata pinst) s in
          match data with
          | None => Some (None, s)
          | Some data => Some (if malloc then (Some (mkDir pos data), s) else fail None ENOMEM s)
          end
      end
  end.
Definition dm_readdir (d : DM_DIR) (l : dm) (s : sys) : option Ent * sys :=
  match l !! devid d with
  | None => fail None EBADF s
  | Some pinst =>
      match p_readdir_r (pdev pinst) with
      | None => fail None EBADF s
      | Some f => f (userdata d) (pdata pinst) s
      end
  end.
(** Also whether the descriptor is freed. *)
Definition dm_closedir (d : DM_DIR) (l : dm) (s : sys) : Z * bool * sys :=
  match l !! devid d with
  | None => fail (-1, false) EBADF s
  | Some pinst =>
      match p_closedir_r (pdev pinst) with
      | Some f => let '(res, s) := f (userdata d) (pdata pinst) s in (res, true, s)
      | None => fail (-1, true) EBADF s
      end
  end.
End Devman.
Arguments DM_DEVICE : clear implicits.
Arguments DM_INSTANCE_DATA : clear implicits.
Arguments DM_DIR : clear implicits.

(** ** The table's invariant *)

Section Table.
Context {W P D Ent : Type}.
Implicit Types (l : list (DM_INSTANCE_DATA W P D Ent)) (d : DM_INSTANCE_DATA W P D Ent).

(** Names are compared up to the case of letters. *)
Definition key (nm : list Z) : list Z := map tolower nm.
Definition valid_name (nm : list Z) : Prop :=
  head nm = Some SLASH /\ Z.of_nat (length nm) <= DM_MAX_DEV_NAME.
#[export] Instance valid_name_dec nm : Decision (valid_name nm).
Proof. unfold valid_name. apply _. Defined.
Definition dm_ok l : Prop :=
  Forall valid_name (map name l) /\ NoDup (map (key ∘ name) l) /\
  Z.of_nat (length l) <= DM_MAX_DEVICES.

Lemma find_name_Some nm l i : find_name nm l = Some i <->
  exists d, l !! i = Some d /\ key nm = key (name d) /\
    forall j d', (j < i)%nat -> l !! j = Some d' -> key nm <> key (name d').
Proof.
  unfold find_name, key. rewrite fmap_Some. split.
  - intros ([k d] & (H1 & H2 & H3)%list_find_Some & ->). exists d. simpl.
    split; [done|]. split; [by apply strcaseeq_spec|].
    intros j d' Hj Hl Hk. apply (H3 j d' Hl Hj). by apply strcaseeq_spec.
  - intros (d & H1 & H2 & H3). exists (i, d). split; [|done]. apply list_find_Some.
    split; [done|]. split; [by apply strcaseeq_spec|].
    intros j d' Hl Hj Hk%strcaseeq_spec. by apply (H3 j d').
Qed.
Lemma find_name_None nm l : find_name nm l = None <->
  forall d, d ∈ l -> key nm <> key (name d).
Proof.
  unfold find_name. rewrite fmap_None, list_find_None, Forall_forall.
  split; intros H d Hd Hk.
  - apply (H d Hd). by apply strcaseeq_spec.
  - apply (H d Hd). by apply strcaseeq_spec.
Qed.
Lemma key_unique l i j d d' : dm_ok l -> l !! i = Some d -> l !! j = Some d' ->
  key (name d) = key (name d') -> i = j.
Proof.
  intros (_ & Hnd & _) Hi Hj Hk. rewrite NoDup_alt in Hnd.
  apply (Hnd i j (key (name d))); rewrite list_lookup_fmap; [by rewrite Hi|].
  by rewrite Hj, Hk.
Qed.
(** With distinct names the search is a lookup by name. *)
Lemma find_name_ok nm l i : dm_ok l ->
  find_name nm l = Some i <-> exists d, l !! i = Some d /\ key nm = key (name d).
Proof.
  intros Hok. rewrite find_name_Some. split.
  - intros (d & ? & ? & _). by exists d.
  - intros (d & Hi & Hk). exists d. split; [done|]. split; [done|]. intros j d' Hj Hl Hk'.
    rewrite Hk in Hk'. pose proof (key_unique l i j d d' Hok Hi Hl Hk'). lia.
Qed.
Lemma valid_name_guard nm :
  bool_decide (head nm <> Some SLASH) || (Z.of_nat (length nm) >? DM_MAX_DEV_NAME) = false
  <-> valid_name nm.
Proof.
  rewrite orb_false_iff, bool_decide_eq_false, Z.gtb_ltb, Z.ltb_ge. unfold valid_name.
  split; intros [? ?]; (split; [|done]); [by apply dec_stable|by intros []].
Qed.
Lemma valid_name_guard_true nm :
  bool_decide (head nm <> Some SLASH) || (Z.of_nat (length nm) >? DM_MAX_DEV_NAME) = true
  <-> ~ valid_name nm.
Proof. rewrite <- valid_name_guard. by rewrite not_false_iff_true. Qed.
End Table.

Section Registration.
Context {W P D Ent : Type}.
Implicit Types (l : list (DM_INSTANCE_DATA W P D Ent)) (d : DM_INSTANCE_DATA W P D Ent).

Lemma dm_ok_app l nm pd dv : dm_ok l -> valid_name nm -> find_name nm l = None ->
  Z.of_nat (length l) < DM_MAX_DEVICES -> dm_ok (l ++ [mkInstance nm pd dv]).
Proof.
  intros (Hv & Hnd & Hlen) Hnm Hf Hl. unfold dm_ok. rewrite !map_app, length_app. simpl.
  split_and!.
  - apply Forall_app. split; [done|by apply Forall_singleton].
  - apply NoDup_app. split_and!; [done| |apply NoDup_singleton].
    intros k (d & -> & Hd)%list_elem_of_fmap Hk%list_elem_of_singleton.
    exact (proj1 (find_name_None nm l) Hf d Hd (eq_sym Hk)).
  - unfold DM_MAX_DEVICES in *. lia.
Qed.
Lemma dm_ok_delete l i : dm_ok l -> dm_ok (take i l ++ drop (S i) l).
Proof.
  intros (Hv & Hnd & Hlen). rewrite <- delete_take_drop. unfold dm_ok.
  pose proof (sublist_delete l i) as Hs. split_and!.
  - rewrite Forall_map, Forall_forall in *. intros d Hd. apply Hv. by eapply elem_of_sublist.
  - apply (sublist_NoDup _ (map (key ∘ name) l)); [done|]. clear -Hs.
    induction Hs; simpl; by constructor.
  - apply sublist_length in Hs. lia.
Qed.
Lemma find_name_last l nm pd dv : find_name nm l = None ->
  find_name nm (l ++ [mkInstance nm pd dv]) = Some (length l).
Proof.
  intros Hf. apply find_name_Some. exists (mkInstance nm pd dv). split_and!; [|done|].
  - rewrite lookup_app_r, Nat.sub_diag by lia. done.
  - intros j d' Hj Hl. rewrite lookup_app_l in Hl by lia.
    apply (proj1 (find_name_None nm l) Hf). by eapply list_elem_of_lookup_2.
Qed.

(** C38: registering a device keeps the table well formed - at most 16 devices
    whose names start with '/', have at most 12 characters and differ in more
    than the case of letters - and either adds the device at its end, answering
    its index, so that unregistering it gives the old table back; or changes
    nothing and answers the code of the condition that failed. *)
Theorem dm_register_spec nm pd dv l r l' :
  dm_ok l -> dm_register nm pd dv l = (r, l') ->
  dm_ok l' /\
  ((exists n v, nm = Some n /\ dv = Some v /\ r = Z.of_nat (length l) /\
      l' = l ++ [mkInstance n pd v] /\ find_name n l' = Some (length l) /\
      dm_unregister nm l' = (DM_OK, l)) \/
   (l' = l /\
     ((r = DM_ERR_INVALID_OPS /\ dv = None) \/
      (r = DM_ERR_INVALID_NAME /\ ~ exists n, nm = Some n /\ valid_name n) \/
      (r = DM_ERR_ALREADY_REGISTERED /\
         exists n d, nm = Some n /\ d ∈ l /\ key n = key (name d)) \/
      (r = DM_ERR_NO_SPACE /\ Z.of_nat (length l) = DM_MAX_DEVICES)))).
Proof.
  intros Hok. unfold dm_register.
  destruct dv as [dv|]; [|intros [= <- <-]; split; [done|]; right; split; [done|]; by left].
  destruct nm as [nm|]; [|intros [= <- <-]; split; [done|]; right; split; [done|];
    right; left; split; [done|]; by intros (? & ? & _)].
  destruct (_ || _) eqn:G.
  { intros [= <- <-]. split; [done|]. right. split; [done|]. right. left.
    split; [done|]. intros (n & [= <-] & Hn). by apply (valid_name_guard_true nm). }
  apply valid_name_guard in G as Hn.
  destruct (find_name nm l) as [i|] eqn:F.
  { rewrite bool_decide_true by eauto. intros [= <- <-]. split; [done|]. right. split; [done|].
    do 2 right. left. split; [done|]. apply find_name_Some in F as (d & Hd & Hk & _).
    exists nm, d. split; [done|]. split; [by eapply list_elem_of_lookup_2|done]. }
  rewrite bool_decide_false by (by intros [? ?]).
  destruct (Z.eqb_spec (Z.of_nat (length l)) DM_MAX_DEVICES) as [E|E]; intros [= <- <-].
  { split; [done|]. right. split; [done|]. do 3 right. done. }
  assert (Hlt : Z.of_nat (length l) < DM_MAX_DEVICES) by (destruct Hok as (_ & _ & ?); lia).
  split; [by apply dm_ok_app|]. left. exists nm, dv.
  pose proof (find_name_last l nm pd dv F) as HF. split_and!; try done.
  unfold dm_unregister. rewrite G, HF, take_app_length, drop_ge by (rewrite length_app; simpl; lia).
  by rewrite app_nil_r.
Qed.
End Registration.

(** ** Descriptors *)

(** The largest number of files a device can have open. *)
Definition DM_FDS : Z := 2 ^ 11.

Lemma desc_add i fd : 0 <= fd < DM_FDS -> DM_MAKE_DESC i fd = i * DM_FDS + fd.
Proof.
  intros H. unfold DM_MAKE_DESC, DM_MAX_DEVICES_BITS. change (15 - 4) with 11.
  rewrite Z.lor_comm, lor_shiftl_add by done. unfold DM_FDS. lia.
Qed.
Lemma desc_devid i fd : 0 <= fd < DM_FDS -> DM_GET_DEVID (DM_MAKE_DESC i fd) = i.
Proof.
  intros H. rewrite desc_add by done. unfold DM_GET_DEVID. rewrite Z.shiftr_div_pow2 by done.
  change (15 - DM_MAX_DEVICES_BITS) with 11. fold DM_FDS.
  rewrite Z.div_add_l, Z.div_small by (unfold DM_FDS in *; lia). lia.
Qed.
Lemma desc_fd i fd : 0 <= fd < DM_FDS -> DM_GET_FD (DM_MAKE_DESC i fd) = fd.
Proof.
  intros H. rewrite desc_add by done. unfold DM_GET_FD.
  change (Z.shiftl 1 (15 - DM_MAX_DEVICES_BITS) - 1) with (2 ^ 11 - 1).
  rewrite land_mask by done. fold DM_FDS. rewrite Z.add_comm, Z.mod_add by (by compute).
  by apply Z.mod_small.
Qed.
(** newlib keeps a descriptor in 16 bits. *)
Lemma desc_short i fd : 0 <= i < DM_MAX_DEVICES -> 0 <= fd < DM_FDS ->
  0 <= DM_MAKE_DESC i fd < 2 ^ 15.
Proof. intros Hi H. rewrite desc_add by done. unfold DM_MAX_DEVICES, DM_FDS in *. lia. Qed.

Section Routing.
Context {W P D Ent : Type}.
Implicit Types (l : list (DM_INSTANCE_DATA W P D Ent)) (d : DM_INSTANCE_DATA W P D Ent).
Implicit Types (s : errno * W).

Lemma dm_get_instance_at_nat i l : dm_get_instance_at (Z.of_nat i) l = l !! i.
Proof.
  unfold dm_get_instance_at. rewrite Nat2Z.id, Z.geb_leb.
  destruct (Z.ltb_spec (Z.of_nat i) 0); [lia|].
  destruct (Z.leb_spec (Z.of_nat (length l)) (Z.of_nat i)); [|done]. simpl.
  symmetry. apply lookup_ge_None. lia.
Qed.

Lemma find_dm_entry_name nm l i act : find_dm_entry nm l = Some (i, act) ->
  exists dev, find_name dev l = Some i /\ act <> [].
Proof.
  destruct nm as [nm|]; simpl; [|done]. case_bool_decide; [done|].
  destruct (match strchr _ with None => _ | Some _ => _ end) as [[dev k]|]; simpl; [|done].
  destruct (find_name dev l) as [j|] eqn:F; simpl; [|done].
  destruct (drop (S k) nm) as [|c x] eqn:E; intros [= -> <-]. eauto.
Qed.

(** A later state of the table: devices were registered. *)
Definition registered l l' : Prop := rtc (fun a b => exists nm pd dv, b = (dm_register nm pd dv a).2) l l'.
Lemma registered_prefix l l' : registered l l' -> l `prefix_of` l'.
Proof.
  induction 1 as [|a b c (nm & pd & dv & ->) _ IH]; [done|]. etransitivity; [|exact IH].
  unfold dm_register. repeat case_match; simpl; try done. by apply prefix_app_r.
Qed.

(** What the calls on an open file do: they reach the device [d] with its own
    number [fd] for the file. *)
Definition routes (desc : Z) (d : DM_INSTANCE_DATA W P D Ent) (fd : Z) l : Prop := forall s,
  _close_r desc l s = Some (match p_close_r (pdev d) with
    Some f => f fd (pdata d) s | None => (-1, (ENOSYS, s.2)) end) /\
  (forall len, _read_r desc len l s = Some (match p_read_r (pdev d) with
    Some f => f fd len (pdata d) s | None => (-1, [], (ENOSYS, s.2)) end)) /\
  (forall bs, _write_r desc bs l s = Some (match p_write_r (pdev d) with
    Some f => f fd bs (pdata d) s | None => (-1, (ENOSYS, s.2)) end)) /\
  (forall off whence, _lseek_r desc off whence l s = Some (match p_lseek_r (pdev d) with
    Some f => f fd off whence (pdata d) s | None => (-1, (ENOSYS, s.2)) end)) /\
  dm_getaddr desc l s = match p_getaddr_r (pdev d) with
    Some f => f fd (pdata d) s | None => (None, (ENOSYS, s.2)) end.

Lemma routes_lookup l i d fd : l !! i = Some d -> 0 <= fd < DM_FDS ->
  routes (DM_MAKE_DESC (Z.of_nat i) fd) d fd l.
Proof.
  intros Hi Hfd s.
  assert (Hg : dm_get_instance_at (DM_GET_DEVID (DM_MAKE_DESC (Z.of_nat i) fd)) l = Some d)
    by (by rewrite desc_devid, dm_get_instance_at_nat).
  unfold _close_r, _read_r, _write_r, _lseek_r, dm_getaddr, on_file.
  rewrite Hg, desc_fd by done. simpl. unfold fail.
  split_and!; intros; by case_match.
Qed.

(** C27: a file that [open] opens is, for every later call on its descriptor,
    the file its device opened: as long as devices are only added to the table,
    read, write, lseek, close and dm_getaddr reach the device the path named,
    with that device's own file number and its registration data. The
    descriptor fits in the 15 bits newlib leaves. *)
Theorem open_routes nm flags mode l s desc s' :
  dm_ok l ->
  (forall d f act fl m s0, d ∈ l -> p_open_r (pdev d) = Some f ->
     (f act fl m (pdata d) s0).1 < DM_FDS) ->
  _open_r nm flags mode l s = Some (desc, s') -> 0 <= desc ->
  desc < 2 ^ 15 /\
  exists i d act f fd, find_dm_entry nm l = Some (i, act) /\ l !! i = Some d /\
    p_open_r (pdev d) = Some f /\ f act flags mode (pdata d) s = (fd, s') /\
    forall l', registered l l' -> routes desc d fd l'.
Proof.
  intros Hok Hfds. unfold _open_r. destruct (find_dm_entry nm l) as [[i act]|] eqn:F.
  2: { intros [= <- _]. lia. }
  rewrite dm_get_instance_at_nat. destruct (l !! i) as [d|] eqn:L; simpl; [|done].
  destruct (p_open_r (pdev d)) as [f|] eqn:O; [|intros [= <- _]; lia].
  pose proof (Hfds d f act flags mode s ltac:(by eapply list_elem_of_lookup_2) O) as Hfd.
  destruct (f act flags mode (pdata d) s) as [fd s1] eqn:E. simpl in Hfd.
  destruct (Z.ltb_spec fd 0); intros [= <- <-] Hd; [lia|].
  assert (Hi : 0 <= Z.of_nat i < DM_MAX_DEVICES).
  { apply lookup_lt_Some in L. destruct Hok as (_ & _ & ?). lia. }
  split; [by apply desc_short|].
  exists i, d, act, f, fd. split_and!; try done.
  intros l' [k ->]%registered_prefix. apply routes_lookup; [|lia].
  rewrite lookup_app_l; [done|]. by eapply lookup_lt_Some.
Qed.

(** Unregistering a device moves the later ones: a descriptor that was
    open on the device at index [j] now reaches the one that was at [j + 1],
    when [j] is not before the device removed; the others keep theirs. *)
Theorem unregister_moves nm l l' :
  dm_unregister nm l = (DM_OK, l') ->
  exists i, (i < length l)%nat /\ length l' = pred (length l) /\
    forall j fd s, 0 <= fd < DM_FDS ->
    match l !! (if decide (j < i)%nat then j else S j) with
    | Some d => routes (DM_MAKE_DESC (Z.of_nat j) fd) d fd l'
    | None => _close_r (DM_MAKE_DESC (Z.of_nat j) fd) l' s = None
    end.
Proof.
  unfold dm_unregister. destruct nm as [nm|]; [|done]. destruct (_ || _); [done|].
  destruct (find_name nm l) as [i|] eqn:F; intros [= <-].
  apply find_name_Some in F as (d & Hi & _). apply lookup_lt_Some in Hi as Hlt.
  exists i. split; [done|]. split; [rewrite length_app, length_take, length_drop; lia|].
  intros j fd s Hfd.
  assert (Hj : (take i l ++ drop (S i) l) !! j = l !! (if decide (j < i)%nat then j else S j)).
  { case_decide.
    - rewrite lookup_app_l by (rewrite length_take; lia). by apply lookup_take_lt.
    - rewrite lookup_app_r by (rewrite length_take; lia). rewrite lookup_drop, length_take.
      f_equal. lia. }
  rewrite <- Hj. destruct ((take i l ++ drop (S i) l) !! j) eqn:E; [by apply routes_lookup|].
  unfold _close_r, on_file. by rewrite desc_devid, dm_get_instance_at_nat, E by done.
Qed.
End Routing.

(** ** Paths *)

Lemma strchr_None x : strchr x = None <-> SLASH ∉ x.
Proof.
  unfold strchr. rewrite fmap_None, list_find_None, Forall_forall.
  split; [intros H Hs; by apply (H SLASH)|by intros H y Hy ->].
Qed.
Lemma strchr_Some x k : strchr x = Some k <->
  exists a b, x = (a ++ SLASH :: b) /\ (SLASH ∉ a) /\ length a = k.
Proof.
  unfold strchr. rewrite fmap_Some. split.
  - intros ([j y] & (H1 & -> & H3)%list_find_Some & ->). simpl.
    apply list_elem_of_split_length in H1 as (a & b & -> & Hj). exists a, b.
    split_and!; [done| |done]. intros (m & Hm)%list_elem_of_lookup.
    apply (H3 m SLASH); [|subst; by eapply lookup_lt_Some|done].
    rewrite lookup_app_l; [done|by eapply lookup_lt_Some].
  - intros (a & b & -> & Hn & <-). exists (length a, SLASH). split; [|done].
    apply list_find_Some. split_and!; [by rewrite lookup_app_r, Nat.sub_diag by lia|done|].
    intros m y Hm Hl ->. rewrite lookup_app_l in Hm by done.
    apply Hn. by eapply list_elem_of_lookup_2.
Qed.

(** A path names the file [act] of the device [dev]: "/dev/act", or "/act" for
    the device "/". *)
Definition path_of (dev act nm : list Z) : Prop :=
  (dev = [SLASH] /\ nm = SLASH :: act /\ SLASH ∉ act) \/
  (exists x, dev = SLASH :: x /\ x <> [] /\ (SLASH ∉ x) /\
     Z.of_nat (length dev) <= DM_MAX_DEV_NAME /\ nm = (dev ++ SLASH :: act)).

Section Paths.
Context {W P D Ent : Type}.
Implicit Types (l : list (DM_INSTANCE_DATA W P D Ent)) (d : DM_INSTANCE_DATA W P D Ent).

Lemma drop_app_cons (a b : list Z) c k : k = length a -> drop (S k) (a ++ c :: b) = b.
Proof. intros ->. rewrite drop_app_ge, Nat.sub_succ_l, Nat.sub_diag by lia. done. Qed.

(** The search for the device of a path agrees with the definition of what
    a path names: it finds the file [act] of device [i] exactly when [act] is
    not empty and the path is "/name/act" for the name of that device (at most
    12 characters, up to the case of letters), or "/act" for a device "/" - so
    subdirectories of a device "/" cannot be named. *)
Theorem find_dm_entry_spec nm l i act : dm_ok l ->
  find_dm_entry (Some nm) l = Some (i, act) <->
  act <> [] /\ exists dev d, path_of dev act nm /\ l !! i = Some d /\ key dev = key (name d).
Proof.
  intros Hok. unfold find_dm_entry.
  assert (Hend : forall dev a,
    ((x ← find_name dev l; match a with [] => None | _ => Some (x, a) end) = Some (i, act)) <->
    act <> [] /\ a = act /\ exists d, l !! i = Some d /\ key dev = key (name d)).
  { intros dev a. rewrite <- (find_name_ok dev l i Hok).
    destruct (find_name dev l) as [j|]; simpl; [|by split; [|intros (_ & _ & ?)]].
    destruct a as [|c a]; [split; [done|intros (? & <- & _); done]|].
    split; [intros [= -> <-]; done|intros (_ & <- & [= ->]); done]. }
  case_bool_decide as Hh.
  { split; [done|]. intros (_ & dev & d & [(_ & -> & _)|(x & -> & _ & _ & _ & ->)] & _); by exfalso. }
  destruct nm as [|c nm]; [done|]. injection Hh as ->. cbn [tail].
  destruct (strchr nm) as [k|] eqn:S.
  - apply strchr_Some in S as (a & b & -> & Hn & Hk).
    assert (Hp : path_of (SLASH :: a) act (SLASH :: a ++ SLASH :: b) <->
       a <> [] /\ Z.of_nat (S k) <= DM_MAX_DEV_NAME /\ b = act).
    { subst k. unfold path_of. split.
      - intros [(H1 & H2 & H3)|(x & [= <-] & ? & ? & ? & [= He])].
        + injection H2 as <-. destruct H3. apply elem_of_app. right. apply list_elem_of_here.
        + simplify_eq. split_and!; done.
      - intros (? & ? & ->). right. by exists a. }
    assert (Hdev : forall dev, path_of dev act (SLASH :: a ++ SLASH :: b) -> dev = SLASH :: a).
    { intros dev [(_ & [= <-] & H3)|(x & -> & _ & Hx & _ & [= He])].
      - destruct H3. apply elem_of_app. right. apply list_elem_of_here.
      - f_equal. assert (strchr (a ++ SLASH :: b) = Some (length a)) as H1
          by (apply strchr_Some; by exists a, b).
        assert (strchr (a ++ SLASH :: b) = Some (length x)) as H2
          by (rewrite He; apply strchr_Some; by exists x, act).
        rewrite H1 in H2. injection H2 as H2. by apply (app_inj_1 a x _ _ H2) in He as [-> _]. }
    transitivity (act <> [] /\ exists d, path_of (SLASH :: a) act (SLASH :: a ++ SLASH :: b) /\
      l !! i = Some d /\ key (SLASH :: a) = key (name d)).
    2: { split; intros (? & H); (split; [done|]).
         - destruct H as (d & ? & ? & ?). by exists (SLASH :: a), d.
         - destruct H as (dev & d & H & ? & ?). pose proof (Hdev dev H) as ->. by exists d. }
    setoid_rewrite Hp. destruct (_ || _) eqn:G.
    + split; [done|]. intros (_ & d & (Ha & Hl & _) & _). exfalso.
      apply orb_true_iff in G as [G|G]; [apply Z.gtb_lt in G; lia|]. apply Nat.eqb_eq in G.
      destruct a; [done|simpl in Hk; lia].
    + apply orb_false_iff in G as [G1 G2]. apply Nat.eqb_neq in G2.
      rewrite Z.gtb_ltb, Z.ltb_ge in G1.
      assert (a <> []) by (intros ->; simpl in Hk; lia).
      cbn [mbind option_bind]. rewrite Hend.
      cbn [take]. rewrite take_app_length' by done.
      change (SLASH :: a ++ SLASH :: b) with ((SLASH :: a) ++ SLASH :: b).
      rewrite drop_app_cons by (simpl; lia). split.
      * intros (? & -> & d & ? & ?). split; [done|]. by exists d.
      * intros (? & d & (? & ? & ->) & ? & ?). split_and!; [done|done|]. by exists d.
  - apply strchr_None in S. cbn [mbind option_bind]. rewrite Hend. cbn [drop]. rewrite drop_0. split.
    + intros (? & -> & d & ? & ?). split; [done|]. exists [SLASH], d. split_and!; try done. by left.
    + intros (? & dev & d & [(-> & [= ->] & _)|(x & -> & _ & _ & _ & [= ->])] & ? & ?).
      * split_and!; [done|done|]. by exists d.
      * destruct S. apply elem_of_app. right. apply list_elem_of_here.
Qed.
End Paths.

(** ** Examples

    Three devices that have opened some files each, the state being the number
    of files: "/", "/rom" and "/std". *)
Section Examples.

Definition ex_open (act : list Z) (flags mode : Z) (pd : Z) (s : errno * Z) : Z * (errno * Z) :=
  if s.2 <? 8 then (s.2, (s.1, s.2 + 1)) else (-1, (ENFILE, s.2)).
Definition ex_read (fd len pd : Z) (s : errno * Z) : Z * list Z * (errno * Z) := (1, [pd + fd], s).
Definition ex_device : DM_DEVICE Z Z unit unit :=
  mkDevice (Some ex_open) None None (Some ex_read) None None None None None None None None None.
(** "/", "/rom", "/std". *)
Definition ex_table : list (DM_INSTANCE_DATA Z Z unit unit) :=
  [mkInstance [47] 100 ex_device; mkInstance [47; 114; 111; 109] 200 ex_device;
   mkInstance [47; 115; 116; 100] 300 ex_device].
(** "/ROM/a" *)
Definition ex_path : list Z := [47; 82; 79; 77; 47; 97].

Lemma ex_table_ok : dm_ok ex_table.
Proof. unfold dm_ok. split_and!; by_decide. Defined.

Lemma dm_register_spec_witness :
  dm_register (Some [47; 120]) 7 (Some ex_device) ex_table =
    (3, ex_table ++ [mkInstance [47; 120] 7 ex_device]) /\
  dm_ok (ex_table ++ [mkInstance [47; 120] 7 ex_device]).
Proof.
  split; [reflexivity|].
  exact (proj1 (dm_register_spec (Some [47; 120]) 7 (Some ex_device) ex_table 3
    (ex_table ++ [mkInstance [47; 120] 7 ex_device]) ex_table_ok eq_refl)).
Defined.

Lemma open_routes_witness :
  _open_r (Some ex_path) 0 0 ex_table (E_OK, 3) = Some (2051, (E_OK, 4)) /\
  2051 < 2 ^ 15 /\
  exists i d act f fd, find_dm_entry (Some ex_path) ex_table = Some (i, act) /\
    ex_table !! i = Some d /\ p_open_r (pdev d) = Some f /\
    f act 0 0 (pdata d) (E_OK, 3) = (fd, (E_OK, 4)) /\
    forall l', registered ex_table l' -> routes 2051 d fd l'.
Proof.
  split; [reflexivity|].
  refine (open_routes (Some ex_path) 0 0 ex_table (E_OK, 3) 2051 (E_OK, 4) ex_table_ok _ eq_refl _);
    [|lia].
  intros d f act fl m s0 Hd Hf. assert (Hp : p_open_r (pdev d) = Some ex_open).
  { unfold ex_table in Hd. repeat (apply elem_of_cons in Hd as [->|Hd]; [reflexivity|]). by apply not_elem_of_nil in Hd. }
  rewrite Hp in Hf. injection Hf as <-. unfold ex_open, DM_FDS.
  destruct (Z.ltb_spec s0.2 8); simpl; lia.
Defined.

Lemma find_dm_entry_spec_witness :
  [97] <> [] /\ exists dev d, path_of dev [97] ex_path /\ ex_table !! 1%nat = Some d /\
    key dev = key (name d).
Proof. apply (find_dm_entry_spec ex_path ex_table 1 [97] ex_table_ok). reflexivity. Defined.

Lemma unregister_moves_witness :
  dm_unregister (Some [47; 114; 111; 109]) ex_table =
    (DM_OK, [mkInstance [47] 100 ex_device; mkInstance [47; 115; 116; 100] 300 ex_device]) /\
  exists i, (i < length ex_table)%nat /\ 2%nat = pred (length ex_table) /\
    forall j fd s, 0 <= fd < DM_FDS ->
    match ex_table !! (if decide (j < i)%nat then j else S j) with
    | Some d => routes (DM_MAKE_DESC (Z.of_nat j) fd) d fd
        [mkInstance [47] 100 ex_device; mkInstance [47; 115; 116; 100] 300 ex_device]
    | None => _close_r (DM_MAKE_DESC (Z.of_nat j) fd)
        [mkInstance [47] 100 ex_device; mkInstance [47; 115; 116; 100] 300 ex_device] s = None
    end.
Proof.
  split; [reflexivity|].
  exact (unregister_moves (Some [47; 114; 111; 109]) ex_table
    [mkInstance [47] 100 ex_device; mkInstance [47; 115; 116; 100] 300 ex_device] eq_refl).
Defined.

(** Before "/rom" is unregistered, a descriptor of "/rom" reads from it; after,
    from "/std". *)
Example ex_misrouted :
  _read_r 2051 1 ex_table (E_OK, 4) = Some (1, [203], (E_OK, 4)) /\
  _read_r 2051 1 (dm_unregister (Some [47; 114; 111; 109]) ex_table).2 (E_OK, 4)
    = Some (1, [303], (E_OK, 4)).
Proof. split; reflexivity. Qed.

(** The descriptor -1 of a failed [open] makes [close] follow a null pointer. *)
Example close_failed : _close_r (-1) ex_table (E_OK, 4) = None.
Proof. reflexivity. Qed.

(** A directory is found by any device whose name starts its path: "/romx"
    opens the device "/rom" with the rest "x". *)
Example opendir_prefix :
  dm_device_id_from_name [47; 114; 111; 109; 120] ex_table = Some (1%nat, [120]).
Proof. reflexivity. Qed.
End Examples.
