(* ===== verification/Genstd.v ===== *)
(** * Genstd: the console

    Models src/newlib/genstd.c: the device "/std" behind the standard input,
    output and error streams, with its line editing, and [dm_init] of
    src/newlib/devman.c that registers it.  The functions that send and receive
    a character are parameters, set at run time as in the code. *)

From S2P Require Import Prelude Devman.

Definition STD_CTRLZ_CODE : Z := 26.
Definition STD_INTER_CHAR_TIMEOUT : Z := 10000.
(** [PLATFORM_TIMER_INF_TIMEOUT] with a 32-bit system timer. *)
Definition STD_INFINITE_TIMEOUT : Z := 2 ^ 32 - 2 + 1.
(** "/std" *)
Definition STD_DEV_NAME : list Z := [47; 115; 116; 100].

(** <ctype.h>, in the "C" locale. *)
Definition isprint (c : Z) : bool := (32 <=? c) && (c <=? 126).

Section Genstd.
(** [G]: the state of what is on the other side of the console. *)
Context {G P D Ent : Type}.

Abbreviation p_std_send_char := (Z -> Z -> G -> G).
Abbreviation p_std_get_char := (Z -> G -> Z * G).

(** The static variables, and the other side. *)
Record std := mkStd {
  std_send_char_func : option p_std_send_char;
  std_get_char_func : option p_std_get_char;
  std_prev_char : Z;
  con : G
}.

(** ** Reading *)

(** The loop, with [i] characters at the front of the buffer [m]; [None]: more
    steps than [fuel], or a store outside [m]. *)
Fixpoint std_read_loop (fuel : nat) (send : p_std_send_char) (get : p_std_get_char)
  (i : nat) (len : Z) (m : list Z) (prev : Z) (g : G) : option (Z * list Z * Z * G) :=
  match fuel with
  | O => None
  | S fuel =>
      if Z.of_nat i <? len then
        let '(c, g) := if negb (prev =? -1) then (prev, g) else get STD_INFINITE_TIMEOUT g in
        if c =? -1 then Some (Z.of_nat i, m, -1, g) else
        if (c =? 8) || (c =? 0x7F) then
          if (0 <? i)%nat then
            let g := send DM_STDOUT_NUM 8 g in
            let g := send DM_STDOUT_NUM 32 g in
            let g := send DM_STDOUT_NUM 8 g in
            std_read_loop fuel send get (pred i) len m (-1) g
          else std_read_loop fuel send get i len m (-1) g
        else if negb (isprint c) && negb (c =? 10) && negb (c =? 13) && negb (c =? STD_CTRLZ_CODE)
        then std_read_loop fuel send get i len m (-1) g
        else if c =? STD_CTRLZ_CODE then Some (0, m, -1, g)
        else
          let g := send DM_STDOUT_NUM c g in
          if (c =? 13) || (c =? 10) then
            let '(prev, g) := get STD_INTER_CHAR_TIMEOUT g in
            let prev := if prev + c =? 13 + 10 then -1 else prev in
            let g := send DM_STDOUT_NUM (13 + 10 - c) g in
            m ← store m i 10;
            Some (Z.of_nat i + 1, m, prev, g)
          else
            m ← store m i c;
            std_read_loop fuel send get (S i) len m (-1) g
      else Some (Z.of_nat i, m, prev, g)
  end.

(** The result, [errno], the buffer and the state after. *)
Definition std_read (fuel : nat) (fd len : Z) (m : list Z) (s : errno * std)
  : option (Z * list Z * (errno * std)) :=
  let '(e, st) := s in
  match std_send_char_func st, std_get_char_func st with
  | Some send, Some get =>
      if (fd <? DM_STDIN_NUM) || (fd >? DM_STDERR_NUM) then Some (-1, m, (EBADF, st))
      else if negb (fd =? DM_STDIN_NUM) then Some (-1, m, (EINVAL, st))
      else
        '(res, m, prev, g) ← std_read_loop fuel send get 0 len m (std_prev_char st) (con st);
        Some (res, m, (e, mkStd (Some send) (Some get) prev g))
  | _, _ => Some (-1, m, (EBADF, st))
  end.

(** ** Writing *)

Definition std_write_char (send : p_std_send_char) (fd : Z) (g : G) (c : Z) : G :=
  send fd c (if c =? 10 then send fd 13 g else g).
Definition std_write (fd : Z) (data : list Z) (s : errno * std) : Z * (errno * std) :=
  let '(e, st) := s in
  match std_send_char_func st, std_get_char_func st with
  | Some send, Some get =>
      if (fd <? DM_STDIN_NUM) || (fd >? DM_STDERR_NUM) then (-1, (EBADF, st))
      else if negb (fd =? DM_STDOUT_NUM) && negb (fd =? DM_STDERR_NUM) then (-1, (EINVAL, st))
      else (Z.of_nat (length data),
            (e, mkStd (Some send) (Some get) (std_prev_char st)
                  (foldl (std_write_char send fd) (con st) data)))
  | _, _ => (-1, (EBADF, st))
  end.

Definition std_set_send_func (pfunc : option p_std_send_char) (st : std) : std :=
  mkStd pfunc (std_get_char_func st) (std_prev_char st) (con st).
Definition std_set_get_func (pfunc : option p_std_get_char) (st : std) : std :=
  mkStd (std_send_char_func st) pfunc (std_prev_char st) (con st).

(** ** The device

    [left g] bounds the characters that still arrive; [std_read_total] shows
    that the loop then has fuel enough.  A call gives the bytes that count. *)
Context (left : G -> nat).

Definition read_fuel (st : std) : nat := (left (con st) + 2)%nat.
Definition std_read_dev (fd len : Z) (pd : P) (s : errno * std) : Z * list Z * (errno * std) :=
  match std_read (read_fuel s.2) fd len (replicate (Z.to_nat len) 0) s with
  | Some (res, m, s) => (res, take (Z.to_nat res) m, s)
  | None => (0, [], s)
  end.
Definition std_device : DM_DEVICE std P D Ent :=
  mkDevice None None (Some (fun fd data pd s => std_write fd data s)) (Some std_read_dev)
    None None None None None None None None None.
Definition std_register (pd : P) (l : list (DM_INSTANCE_DATA std P D Ent)) :=
  dm_register (Some STD_DEV_NAME) pd (Some std_device) l.
Definition dm_init (pd : P) (l : list (DM_INSTANCE_DATA std P D Ent))
  : Z * list (DM_INSTANCE_DATA std P D Ent) := (DM_OK, (std_register pd l).2).
End Genstd.
Arguments std : clear implicits.

(** ** Every read returns *)

Section Termination.
Context {G : Type} (send : Z -> Z -> G -> G) (get : Z -> G -> Z * G) (left : G -> nat).

(** What the code relies on: a character or -1 is received, and characters are
    not received for ever. *)
Record console_laws : Prop := {
  get_range to g : (get to g).1 = (-1)%Z \/ is_u8 (get to g).1;
  get_left to g : (get to g).1 <> (-1)%Z -> (left (get to g).2 < left g)%nat;
  get_left_none to g : (left (get to g).2 <= left g)%nat;
  send_left fd c g : left (send fd c g) = left g
}.

(** Characters still to be handled: the one put back, and those to come. *)
Definition todo (prev : Z) (g : G) : nat := (left g + if (prev =? -1)%Z then 0 else 1)%nat.
Definition prev_ok (prev : Z) : Prop := prev = -1 \/ is_u8 prev.

Definition line_char (c : Z) : Prop := isprint c = true \/ c = 10.

Lemma line_char_u8 c : line_char c -> u8 c = c.
Proof.
  intros [H%andb_true_iff| ->]; [|done]. destruct H as [?%Z.leb_le ?%Z.leb_le].
  apply u8_small. word_lia.
Qed.

Lemma store_take m i c : (i < length m)%nat -> line_char c ->
  exists m', store m i c = Some m' /\ length m' = length m /\ take (S i) m' = take i m ++ [c].
Proof.
  intros Hi Hc. unfold store. rewrite decide_True, line_char_u8 by done. eexists. split; [done|].
  rewrite length_insert. split; [done|].
  rewrite (take_S_r _ _ c) by (by apply list_lookup_insert_eq). by rewrite take_insert_ge.
Qed.

Lemma std_read_loop_total fuel i len m prev g :
  console_laws -> (todo prev g < fuel)%nat -> prev_ok prev ->
  0 <= len <= Z.of_nat (length m) -> (Z.of_nat i <= len) -> Forall line_char (take i m) ->
  exists n m' prev' g', std_read_loop fuel send get i len m prev g = Some (Z.of_nat n, m', prev', g') /\
    Z.of_nat n <= len /\ length m' = length m /\ Forall line_char (take n m') /\ prev_ok prev'.
Proof.
  intros HL. revert i m prev g.
  induction fuel as [|fuel IH]; intros i m prev g Hf Hp Hlen Hi Hm; [lia|]. simpl.
  destruct (Z.ltb_spec (Z.of_nat i) len); [|by exists i, m, prev, g].
  (* the character, and what is left *)
  assert (Hget : exists c g1, (if negb (prev =? -1) then (prev, g) else get STD_INFINITE_TIMEOUT g) = (c, g1) /\
    prev_ok c /\ (c <> -1 -> (left g1 < fuel)%nat)).
  { unfold todo in Hf. destruct (Z.eqb_spec prev (-1)) as [->|Hne]; simpl.
    - destruct (get STD_INFINITE_TIMEOUT g) as [c g1] eqn:E. exists c, g1. split; [done|].
      pose proof (get_range HL STD_INFINITE_TIMEOUT g) as H1.
      pose proof (get_left HL STD_INFINITE_TIMEOUT g) as H2. rewrite E in H1, H2. simpl in *.
      split; [done|]. intros ?%H2. lia.
    - exists prev, g. split; [done|]. split; [done|]. lia. }
  destruct Hget as (c & g1 & -> & Hc & Hl).
  destruct (Z.eqb_spec c (-1)) as [->|Hc1].
  { exists i, m, (-1), g1. repeat split; done. }
  specialize (Hl Hc1).
  assert (Hsend : forall fd x g', left (send fd x g') = left g') by apply (send_left HL).
  assert (Hgo : forall i' m' g', left g' = left g1 -> length m' = length m -> Z.of_nat i' <= len ->
    Forall line_char (take i' m') ->
    exists n m'' prev' g'', std_read_loop fuel send get i' len m' (-1) g' = Some (Z.of_nat n, m'', prev', g'') /\
      Z.of_nat n <= len /\ length m'' = length m /\ Forall line_char (take n m'') /\ prev_ok prev').
  { intros i' m' g' H1 H2 H3 H4. rewrite <- H2. apply IH; [|by left|by rewrite H2|done|done].
    unfold todo. simpl. lia. }
  destruct (_ || _).
  { destruct (0 <? i)%nat; [|by apply Hgo]. apply Hgo; [by rewrite !Hsend|done|lia|].
    replace (take (pred i) m) with (take (pred i) (take i m)) by (rewrite take_take; f_equal; lia).
    by apply Forall_take. }
  destruct (negb _ && _ && _ && _) eqn:Hskip; [by apply Hgo|].
  destruct (Z.eqb_spec c STD_CTRLZ_CODE) as [->|Hz].
  { exists 0%nat, m, (-1), g1. repeat split; [lia|constructor|by left]. }
  assert (Hpr : isprint c = true \/ c = 10 \/ c = 13).
  { rewrite !andb_false_iff, !negb_false_iff, !Z.eqb_eq in Hskip. destruct Hskip as [[[?|?]|?]|?]; auto; done. }
  destruct ((c =? 13) || (c =? 10)) eqn:Hnl.
  - destruct (get STD_INTER_CHAR_TIMEOUT (send DM_STDOUT_NUM c g1)) as [p g2] eqn:E2.
    destruct (store_take m i 10) as (m' & -> & Hm' & Ht); [lia|by right|]. simpl.
    exists (S i), m', (if p + c =? 23 then -1 else p), (send DM_STDOUT_NUM (23 - c) g2).
    split; [by rewrite Nat2Z.inj_succ, <- Z.add_1_r|]. split; [lia|]. split; [done|].
    split; [rewrite Ht; apply Forall_app; split; [done|apply Forall_singleton; by right]|].
    case_match; [by left|].
    pose proof (get_range HL STD_INTER_CHAR_TIMEOUT (send DM_STDOUT_NUM c g1)) as H1.
    by rewrite E2 in H1.
  - apply orb_false_iff in Hnl as [?%Z.eqb_neq ?%Z.eqb_neq].
    destruct Hpr as [Hpr|[|]]; [|done..].
    destruct (store_take m i c) as (m' & -> & Hm' & Ht); [lia|by left|]. simpl.
    apply Hgo; [by rewrite Hsend|done|lia|]. rewrite Ht. apply Forall_app.
    split; [done|apply Forall_singleton; by left].
Qed.
End Termination.

(** ** A terminal

    What is typed is a sequence of characters and pauses ([None]: longer than
    the timeout between two characters); what is sent is recorded with its
    stream. *)
Record tty := mkTty { input : list (option Z); output : list (Z * Z) }.

Fixpoint next_char (i : list (option Z)) : Z * list (option Z) :=
  match i with
  | [] => (-1, [])
  | None :: i => next_char i
  | Some c :: i => (c, i)
  end.
Definition tty_get (to : Z) (t : tty) : Z * tty :=
  let '(c, i) :=
    if to =? STD_INFINITE_TIMEOUT then next_char (input t)
    else match input t with Some c :: i => (c, i) | None :: i => (-1, i) | [] => (-1, []) end in
  (c, mkTty i (output t)).
Definition tty_send (fd c : Z) (t : tty) : tty := mkTty (input t) (output t ++ [(fd, u8 c)]).
Definition tty_left (t : tty) : nat := length (input t).
Definition typed (i : list (option Z)) : list Z := omap id i.

Lemma next_char_left i : (length (next_char i).2 <= length i)%nat /\
  ((next_char i).1 <> -1 -> (length (next_char i).2 < length i)%nat).
Proof. induction i as [|[c|] i IH]; simpl; [lia|lia|]. destruct IH as [? IH]. split; [lia|]. intros ?%IH. lia. Qed.

(** The line that remains of what was typed: a backspace takes the last
    character away, other characters that cannot be printed are dropped. *)
Definition is_bs (c : Z) : bool := (c =? 8) || (c =? 0x7F).
Definition edit_step (acc : list Z) (c : Z) : list Z :=
  if is_bs c then take (pred (length acc)) acc
  else if isprint c then acc ++ [c] else acc.
Definition edit (cs : list Z) : list Z := foldl edit_step [] cs.

(** The row of a screen: its characters and where the cursor is. *)
Definition row_put (r : list Z * nat) (c : Z) : list Z * nat :=
  if c =? 8 then (r.1, pred r.2) else (take r.2 r.1 ++ [c] ++ drop (S r.2) r.1, S r.2).
(** After [shown] was sent the row reads [line], then blanks, with the cursor
    after [line]. *)
Definition displays (shown line : list Z) : Prop :=
  exists k, foldl row_put ([], 0%nat) shown = (line ++ replicate k 32, length line).

Definition ordinary (c : Z) : Prop := is_u8 c /\ c <> 10 /\ c <> 13 /\ c <> STD_CTRLZ_CODE.
#[export] Instance ordinary_dec c : Decision (ordinary c).
Proof. unfold ordinary. apply _. Defined.

(** What the loop sends for an ordinary character. *)
Definition echo (acc : list Z) (c : Z) : list Z :=
  if is_bs c then match acc with [] => [] | _ => [8; 32; 8] end
  else if isprint c then [c] else [].

Lemma row_put_end line k c : c <> 8 ->
  row_put (line ++ replicate k 32, length line) c =
  ((line ++ [c]) ++ replicate (pred k) 32, length (line ++ [c])).
Proof.
  intros Hc. unfold row_put. simpl. destruct (Z.eqb_spec c 8); [done|].
  rewrite take_app_length, length_app, Nat.add_comm, <- app_assoc. f_equal.
  f_equal. simpl. f_equal. rewrite drop_app_ge, Nat.sub_succ_l, Nat.sub_diag by lia.
  by rewrite drop_replicate, Nat.sub_1_r.
Qed.
Lemma displays_echo shown acc c : displays shown acc ->
  displays (shown ++ echo acc c) (edit_step acc c).
Proof.
  intros [k Hk]. unfold displays, echo, edit_step. rewrite foldl_app, Hk.
  destruct (is_bs c) eqn:B.
  - destruct (decide (acc = [])) as [->|Hne]; [by exists k|].
    destruct (exists_last Hne) as (a & x & ->). clear Hne.
    assert (Hm : match a ++ [x] with [] => [] | _ => [8; 32; 8] end = [8; 32; 8]) by by destruct a.
    rewrite Hm, length_app, Nat.add_comm. cbn [pred Nat.add length]. rewrite take_app_length.
    exists (S k). simpl. unfold row_put. simpl. rewrite <- !app_assoc, take_app_length.
    rewrite drop_app_ge, Nat.sub_succ_l, Nat.sub_diag by lia. done.
  - destruct (isprint c) eqn:E; [|by exists k]. exists (pred k). cbn [foldl].
    apply row_put_end. intros ->. done.
Qed.

(** ** Reading a line *)

(** What the loop will see: the character put back, then what is typed. *)
Definition pending (prev : Z) (i : list (option Z)) : list (option Z) :=
  if prev =? -1 then i else Some prev :: i.

Lemma get_pending prev t :
  (if negb (prev =? -1) then (prev, t) else tty_get STD_INFINITE_TIMEOUT t) =
  let '(c, i) := next_char (pending prev (input t)) in (c, mkTty i (output t)).
Proof.
  unfold pending. destruct (prev =? -1); simpl; [|by destruct t].
  unfold tty_get. by rewrite Z.eqb_refl.
Qed.
Lemma next_char_typed evs c cs r : typed evs = c :: cs ->
  exists evs', next_char (evs ++ r) = (c, evs' ++ r) /\ typed evs' = cs.
Proof.
  induction evs as [|[x|] evs IH]; simpl; [done| |done].
  intros [= -> <-]. by exists evs.
Qed.
Lemma next_char_pause evs c r : typed evs = [] -> next_char (evs ++ Some c :: r) = (c, r).
Proof. induction evs as [|[x|] evs IH]; simpl; [done|done|done]. Qed.

(** The guards of the loop, for each kind of character. *)
Lemma ordinary_guards c : ordinary c ->
  (c =? -1) = false /\ (c =? STD_CTRLZ_CODE) = false /\ ((c =? 13) || (c =? 10)) = false /\
  negb (isprint c) && negb (c =? 10) && negb (c =? 13) && negb (c =? STD_CTRLZ_CODE)
    = negb (isprint c).
Proof.
  intros (Hb & H10 & H13 & Hz). rewrite (proj2 (Z.eqb_neq c (-1))) by word_lia.
  rewrite (proj2 (Z.eqb_neq c 10)), (proj2 (Z.eqb_neq c 13)), (proj2 (Z.eqb_neq c STD_CTRLZ_CODE)) by done.
  by rewrite !andb_true_r.
Qed.

Lemma isprint_u8 c : isprint c = true -> u8 c = c.
Proof. intros. apply line_char_u8. by left. Qed.

Lemma read_char fuel len m acc prev t c rest :
  next_char (pending prev (input t)) = (c, rest) -> ordinary c ->
  Z.of_nat (length acc) < len <= Z.of_nat (length m) -> take (length acc) m = acc ->
  exists m', length m' = length m /\ take (length (edit_step acc c)) m' = edit_step acc c /\
    std_read_loop (S fuel) tty_send tty_get (length acc) len m prev t =
    std_read_loop fuel tty_send tty_get (length (edit_step acc c)) len m' (-1)
      (mkTty rest (output t ++ map (pair DM_STDOUT_NUM) (echo acc c))).
Proof.
  intros Hn Hc Hlen Hacc. cbn [std_read_loop]. rewrite (proj2 (Z.ltb_lt _ _)) by lia.
  rewrite get_pending, Hn. destruct (ordinary_guards c Hc) as (-> & -> & -> & ->).
  fold (is_bs c). unfold edit_step, echo. destruct (is_bs c) eqn:B.
  - exists m. split; [done|]. rewrite length_take_le by lia. split.
    + transitivity (take (pred (length acc)) (take (length acc) m)); [rewrite take_take; f_equal; lia|by rewrite Hacc].
    + destruct acc as [|x acc]; simpl; [by rewrite app_nil_r|].
      unfold tty_send. simpl. by rewrite <- !app_assoc.
  - destruct (isprint c) eqn:Pr; simpl.
    + destruct (store_take m (length acc) c) as (m' & -> & Hm' & Ht); [lia|by left|].
      exists m'. split; [done|]. rewrite length_app, Nat.add_1_r, Ht, Hacc. split; [done|].
      simpl. unfold tty_send. simpl. by rewrite isprint_u8.
    + exists m. split; [done|]. split; [done|]. by rewrite app_nil_r.
Qed.

(** What is pending after a line ended with [nl]: the other character of a
    pair was taken with it. *)
Definition after_nl (nl : Z) (rest : list (option Z)) : list (option Z) :=
  match rest with
  | Some x :: r => if x + nl =? 13 + 10 then r else rest
  | None :: r => r
  | [] => []
  end.

Lemma read_newline fuel len m acc prev t nl rest :
  next_char (pending prev (input t)) = (nl, rest) -> nl = 10 \/ nl = 13 -> Forall is_u8 (typed rest) ->
  Z.of_nat (length acc) < len <= Z.of_nat (length m) -> take (length acc) m = acc ->
  exists m' prev' i', length m' = length m /\ take (S (length acc)) m' = acc ++ [10] /\
    pending prev' i' = after_nl nl rest /\ prev_ok prev' /\
    std_read_loop (S fuel) tty_send tty_get (length acc) len m prev t =
    Some (Z.of_nat (S (length acc)), m', prev',
      mkTty i' (output t ++ [(DM_STDOUT_NUM, nl); (DM_STDOUT_NUM, 23 - nl)])).
Proof.
  intros Hn Hnl Hu Hlen Hacc. cbn [std_read_loop]. rewrite (proj2 (Z.ltb_lt _ _)) by lia.
  rewrite get_pending, Hn.
  destruct (store_take m (length acc) 10) as (m' & Hst & Hm' & Ht); [lia|by right|].
  exists m'. rewrite Hst.
  assert (Hg : (nl =? -1) = false /\ ((nl =? 8) || (nl =? 0x7F)) = false /\
    negb (isprint nl) && negb (nl =? 10) && negb (nl =? 13) && negb (nl =? STD_CTRLZ_CODE) = false /\
    (nl =? STD_CTRLZ_CODE) = false /\ ((nl =? 13) || (nl =? 10)) = true /\
    u8 nl = nl /\ u8 (13 + 10 - nl) = 23 - nl) by (destruct Hnl as [-> | ->]; done).
  destruct Hg as (-> & -> & -> & -> & -> & E1 & E2).
  unfold tty_get, tty_send. cbn [input output].
  change (STD_INTER_CHAR_TIMEOUT =? STD_INFINITE_TIMEOUT) with false. cbv iota.
  rewrite E1, E2.
  assert (Hsum : (-1 + nl =? 13 + 10) = false) by (destruct Hnl as [-> | ->]; done).
  destruct rest as [|[x|] rest]; simpl; rewrite <- app_assoc; cbn [app].
  - exists (-1), []. rewrite Hsum, Ht, Hacc. unfold pending. simpl. split_and!; try done; [by left|].
    do 4 f_equal. lia.
  - apply Forall_cons in Hu as [Hx _].
    exists (if x + nl =? 23 then -1 else x), rest. rewrite Ht, Hacc. unfold pending.
    change (13 + 10) with 23. destruct (x + nl =? 23); simpl; split_and!; try done; [by left|do 4 f_equal; lia| |by right|do 4 f_equal; lia].
    by rewrite (proj2 (Z.eqb_neq x (-1))) by word_lia.
  - exists (-1), rest. rewrite Hsum, Ht, Hacc. unfold pending. simpl. split_and!; try done; [by left|].
    do 4 f_equal. lia.
Qed.

(** [cs] can be typed after [acc] without the line filling a buffer of [len]. *)
Definition room (len : Z) (acc cs : list Z) : Prop :=
  forall k, (k <= length cs)%nat -> Z.of_nat (length (foldl edit_step acc (take k cs))) < len.

Lemma read_line evs nl rest cs fuel len m acc prev t shown out0 :
  pending prev (input t) = evs ++ Some nl :: rest -> typed evs = cs ->
  Forall ordinary cs -> nl = 10 \/ nl = 13 -> Forall is_u8 (typed rest) ->
  (length cs < fuel)%nat -> room len acc cs -> len <= Z.of_nat (length m) ->
  take (length acc) m = acc -> displays shown acc ->
  output t = out0 ++ map (pair DM_STDOUT_NUM) shown ->
  exists m' prev' t' shown', let line := foldl edit_step acc cs in
    std_read_loop fuel tty_send tty_get (length acc) len m prev t =
      Some (Z.of_nat (S (length line)), m', prev', t') /\
    length m' = length m /\ take (S (length line)) m' = line ++ [10] /\
    pending prev' (input t') = after_nl nl rest /\ prev_ok prev' /\
    output t' = out0 ++ map (pair DM_STDOUT_NUM) (shown' ++ [nl; 23 - nl]) /\
    displays shown' line.
Proof.
  revert evs fuel m acc prev t shown.
  induction cs as [|c cs IH]; intros evs fuel m acc prev t shown Hp Ht Hcs Hnl Hu Hf Hroom Hlen Hacc Hsh Hout;
    pose proof (Hroom 0%nat ltac:(lia)) as H0; cbn [take foldl] in H0;
    (destruct fuel as [|fuel]; [lia|]).
  - pose proof (next_char_pause evs nl rest Ht) as Hn. rewrite <- Hp in Hn.
    destruct (read_newline fuel len m acc prev t nl rest Hn Hnl Hu)
      as (m' & prev' & i' & H1 & H2 & H3 & H4 & H5); [lia|done|].
    exists m', prev', (mkTty i' (output t ++ [(DM_STDOUT_NUM, nl); (DM_STDOUT_NUM, 23 - nl)])), shown.
    simpl. split_and!; try done. by rewrite Hout, map_app, app_assoc.
  - destruct (next_char_typed evs c cs (Some nl :: rest) Ht) as (evs' & Hn & Ht').
    rewrite <- Hp in Hn. apply Forall_cons in Hcs as [Hc Hcs].
    destruct (read_char fuel len m acc prev t c _ Hn Hc) as (m1 & Hm1 & Hacc1 & E); [lia|done|].
    destruct (IH evs' fuel m1 (edit_step acc c) (-1)
      (mkTty (evs' ++ Some nl :: rest) (output t ++ map (pair DM_STDOUT_NUM) (echo acc c)))
      (shown ++ echo acc c)) as (m' & prev' & t' & shown' & H1 & H2 & H3 & H4 & H5 & H6 & H7);
      try done; [simpl in Hf; lia| | lia|by apply displays_echo| |].
    + intros k Hk. apply (Hroom (S k)). simpl. lia.
    + cbn [output]. by rewrite Hout, map_app, app_assoc.
    + exists m', prev', t', shown'. cbv zeta. cbn [foldl]. rewrite E. rewrite H2. done.
Qed.

(** The console connected to a terminal. *)
Definition tty_std (prev : Z) (t : tty) : std tty := mkStd (Some tty_send) (Some tty_get) prev t.
#[export] Instance ordinary_line_dec cs : Decision (Forall ordinary cs).
Proof. apply _. Defined.

(** A line of input: what is typed before the end of the line, pauses
    included; the character that ends it; and the other character of the
    pair, if it is sent too. *)
Record tline := mkLine { l_events : list (option Z); l_end : Z; l_pair : bool }.
Definition line_text (l : tline) : list (option Z) :=
  l_events l ++ [Some (l_end l)] ++ (if l_pair l then [Some (23 - l_end l)] else []).
Definition tline_ok (len : Z) (l : tline) : Prop :=
  Forall ordinary (typed (l_events l)) /\ (l_end l = 10 \/ l_end l = 13) /\
  room len [] (typed (l_events l)).
(** A line that ends with one character is not followed by the other one. *)
Fixpoint lines_ok (len : Z) (ls : list tline) : Prop :=
  match ls with
  | [] => True
  | l :: ls => tline_ok len l /\ lines_ok len ls /\
      (l_pair l = false -> head (concat (map line_text ls)) <> Some (Some (23 - l_end l)))
  end.
Definition line_read (l : tline) : list Z := edit (typed (l_events l)) ++ [10].

(** [n] reads of at most [len] characters from the standard input. *)
Fixpoint read_lines (n : nat) (fuel : nat) (len : Z) (s : errno * std tty)
  : option (list (list Z) * (errno * std tty)) :=
  match n with
  | O => Some ([], s)
  | S n =>
      '(res, m, s) ← std_read fuel DM_STDIN_NUM len (replicate (Z.to_nat len) 0) s;
      '(ls, s) ← read_lines n fuel len s;
      Some (take (Z.to_nat res) m :: ls, s)
  end.

Lemma typed_app a b : typed (a ++ b) = typed a ++ typed b.
Proof. apply omap_app. Qed.
Lemma length_typed i : (length (typed i) <= length i)%nat.
Proof. induction i as [|[c|] i IH]; simpl; lia. Qed.
Lemma line_text_u8 len l : tline_ok len l -> Forall is_u8 (typed (line_text l)).
Proof.
  intros (H & Hn & _). unfold line_text. rewrite !typed_app, !Forall_app. split; [|split].
  - eapply Forall_impl; [exact H|]. by intros c [? _].
  - apply Forall_singleton. destruct Hn as [-> | ->]; by_decide.
  - destruct (l_pair l); [|constructor]. apply Forall_singleton.
    destruct Hn as [-> | ->]; by_decide.
Qed.
Lemma lines_text_u8 len ls : lines_ok len ls -> Forall is_u8 (typed (concat (map line_text ls))).
Proof.
  induction ls as [|l ls IH]; simpl; [constructor|]. intros (? & ? & _).
  rewrite typed_app. apply Forall_app. split; [by eapply line_text_u8|by apply IH].
Qed.

(** The lines that are left, up to a pause that was waited for. *)
Definition left_over (ls : list tline) (i : list (option Z)) : Prop :=
  i = concat (map line_text ls) \/ None :: i = concat (map line_text ls).

Lemma after_line len l ls : lines_ok len (l :: ls) ->
  left_over ls (after_nl (l_end l) ((if l_pair l then [Some (23 - l_end l)] else []) ++
    concat (map line_text ls))).
Proof.
  intros (_ & _ & Hh). destruct (l_pair l); simpl.
  - left. by replace (23 - l_end l + l_end l) with 23 by lia.
  - specialize (Hh eq_refl). unfold left_over, after_nl.
    destruct (concat (map line_text ls)) as [|[x|] r]; [by left| |by right].
    destruct (Z.eqb_spec (x + l_end l) (13 + 10)); [|by left].
    exfalso. apply Hh. simpl. do 2 f_equal. lia.
Qed.
(** The pause belonged to the line that follows. *)
Lemma left_over_cons l ls i : left_over (l :: ls) i ->
  exists evs, i = evs ++ Some (l_end l) ::
      ((if l_pair l then [Some (23 - l_end l)] else []) ++ concat (map line_text ls)) /\
    typed evs = typed (l_events l).
Proof.
  unfold left_over. cbn [map concat]. unfold line_text at 1 3. rewrite <- !app_assoc. intros [->|H].
  - by exists (l_events l).
  - destruct (l_events l) as [|[x|] evs]; simpl in H; [done|done|]. injection H as ->. by exists evs.
Qed.

(** What is shown while lines are read. *)
Definition shown_lines (shows : list (list Z)) (ls : list tline) : list Z :=
  concat (zip_with (fun s l => s ++ [l_end l; 23 - l_end l]) shows ls).

Lemma std_read_tty fuel len m e prev t res m' prev' t' :
  std_read_loop fuel tty_send tty_get 0 len m prev t = Some (res, m', prev', t') ->
  std_read fuel DM_STDIN_NUM len m (e, tty_std prev t) = Some (res, m', (e, tty_std prev' t')).
Proof. intros H. unfold std_read, tty_std. simpl. by rewrite H. Qed.

Lemma read_lines_left len fuel ls prev t e :
  lines_ok len ls -> Forall (fun l => (length (typed (l_events l)) < fuel)%nat) ls ->
  left_over ls (pending prev (input t)) ->
  exists shows prev' t', read_lines (length ls) fuel len (e, tty_std prev t) =
      Some (map line_read ls, (e, tty_std prev' t')) /\
    Forall2 (fun s l => displays s (edit (typed (l_events l)))) shows ls /\
    output t' = output t ++ map (pair DM_STDOUT_NUM) (shown_lines shows ls).
Proof.
  revert prev t. induction ls as [|l ls IH]; intros prev t Hok Hf Hp.
  { exists [], prev, t. split_and!; [done|constructor|by rewrite app_nil_r]. }
  apply Forall_cons in Hf as [Hf1 Hf].
  destruct (left_over_cons l ls _ Hp) as (evs & Hevs & Hty).
  pose proof Hok as ((Hord & Hnl & Hroom) & Hok' & _).
  pose proof (Hroom 0%nat ltac:(lia)) as H0. simpl in H0.
  assert (Hu : Forall is_u8 (typed ((if l_pair l then [Some (23 - l_end l)] else []) ++ concat (map line_text ls)))).
  { pose proof (lines_text_u8 len (l :: ls) Hok) as Hu. cbn [map concat] in Hu.
    unfold line_text in Hu at 1. rewrite <- !app_assoc, !typed_app, !Forall_app in Hu.
    rewrite typed_app, Forall_app. tauto. }
  destruct (read_line evs (l_end l) _ (typed (l_events l)) fuel len (replicate (Z.to_nat len) 0) []
    prev t [] (output t) Hevs Hty Hord Hnl Hu Hf1 Hroom)
    as (m' & prev' & t' & shown & H1 & H2 & H3 & H4 & H5 & H6 & H7);
    [rewrite length_replicate; lia|done|by exists 0%nat|by rewrite app_nil_r|].
  pose proof (after_line len l ls Hok) as Hl. rewrite <- H4 in Hl.
  destruct (IH prev' t' Hok' Hf Hl) as (shows & prev'' & t'' & R1 & R2 & R3).
  exists (shown :: shows), prev'', t''. split_and!.
  - cbn [length read_lines map]. rewrite (std_read_tty _ _ _ _ _ _ _ _ _ _ H1). simpl. rewrite R1. simpl.
    rewrite Nat2Z.id. unfold line_read, edit. by rewrite H3.
  - by constructor.
  - rewrite R3, H6. unfold shown_lines. cbn [zip_with concat]. by rewrite !map_app, <- !app_assoc.
Qed.

(** C28: reading from a terminal yields what was typed, line by line. Each read
    returns one line after editing (backspaces take characters away, others
    that cannot be printed are dropped) with '\n' at its end, whether the line
    ended with "\n", "\r", "\r\n" or "\n\r" and whatever pauses there were in
    the typing; the lines are echoed so that the screen shows, for each, just
    the characters that the read returns. *)
Theorem console_lines len fuel ls t e :
  lines_ok len ls -> input t = concat (map line_text ls) ->
  Forall (fun l => (length (typed (l_events l)) < fuel)%nat) ls ->
  exists shows prev' t', read_lines (length ls) fuel len (e, tty_std (-1) t) =
      Some (map line_read ls, (e, tty_std prev' t')) /\
    Forall2 (fun s l => displays s (edit (typed (l_events l)))) shows ls /\
    output t' = output t ++ map (pair DM_STDOUT_NUM) (shown_lines shows ls).
Proof. intros Hok Hi Hf. apply read_lines_left; [done..|]. left. done. Qed.

(** C37: for every console that hands out characters or -1 and does not hand out
    characters for ever, a read of at most [len] bytes into a buffer of [len]
    returns: with at most [len] characters, all printable or '\n', all inside
    the buffer, and the character put back for the next read is a byte. *)
Theorem std_read_total {G} send get (left : G -> nat) st len m e :
  console_laws send get left ->
  std_send_char_func st = Some send -> std_get_char_func st = Some get ->
  prev_ok (std_prev_char st) -> 0 <= len <= Z.of_nat (length m) ->
  exists n m' st', std_read (read_fuel left st) DM_STDIN_NUM len m (e, st) = Some (Z.of_nat n, m', (e, st')) /\
    Z.of_nat n <= len /\ length m' = length m /\ Forall line_char (take n m') /\
    prev_ok (std_prev_char st') /\
    std_send_char_func st' = Some send /\ std_get_char_func st' = Some get.
Proof.
  intros HL Hs Hg Hp Hlen. unfold std_read. rewrite Hs, Hg. simpl.
  destruct (std_read_loop_total send get left (read_fuel left st) 0 len m (std_prev_char st) (con st))
    as (n & m' & prev' & g' & -> & Hn & Hm & Hf & Hp'); try done; [|lia|].
  - unfold todo, read_fuel. case_match; lia.
  - simpl. exists n, m', (mkStd (Some send) (Some get) prev' g'). split_and!; done.
Qed.


(** ** The standard streams *)

(** "\n" is sent as "\r\n". *)
Definition crlf (bs : list Z) : list Z := bs ≫= fun c => if c =? 10 then [13; 10] else [c].

Lemma write_chars fd bs t : Forall is_u8 bs ->
  foldl (std_write_char tty_send fd) t bs = mkTty (input t) (output t ++ map (pair fd) (crlf bs)).
Proof.
  revert t. induction bs as [|c bs IH]; intros t Hb; simpl; [rewrite app_nil_r; by destruct t|].
  apply Forall_cons in Hb as [Hc Hb]. rewrite IH by done.
  unfold std_write_char, tty_send, crlf. cbn [mbind list_bind]. rewrite map_app, (u8_small c Hc).
  destruct (Z.eqb_spec c 10) as [->|]; simpl; by rewrite <- ?app_assoc.
Qed.

Section Streams.
Context {P Dd Ent : Type} (pd : P).
Abbreviation table := (list (DM_INSTANCE_DATA (std tty) P Dd Ent)).

Lemma dm_init_table : dm_init tty_left pd (@nil (DM_INSTANCE_DATA (std tty) P Dd Ent)) =
  (DM_OK, [mkInstance STD_DEV_NAME pd (std_device tty_left)]).
Proof. reflexivity. Qed.

Lemma stdio_routes fd (l : table) : 0 <= fd < DM_FDS -> registered (dm_init tty_left pd []).2 l ->
  routes fd (mkInstance STD_DEV_NAME pd (std_device tty_left)) fd l.
Proof.
  intros Hfd [k ->]%registered_prefix. rewrite dm_init_table. simpl.
  change fd with (0 + fd) at 1. replace (0 + fd) with (DM_MAKE_DESC 0 fd)
    by (rewrite desc_add by done; unfold DM_FDS; lia).
  by apply (routes_lookup _ 0%nat).
Qed.

(** The descriptors 0, 1 and 2 are the standard streams: when the console
    was registered first, as dm_init does, and whatever devices came later,
    writing bytes to descriptor 1 or 2 sends them all on that stream with "\r"
    before each '\n'; writing to 0 fails with EINVAL; reading from 0 yields the
    next line as the user edited it; reading from 1 or 2 fails with EINVAL; they
    cannot be closed. *)
Theorem std_streams (l : table) prev t e :
  registered (dm_init tty_left pd []).2 l ->
  (forall fd bs, fd = DM_STDOUT_NUM \/ fd = DM_STDERR_NUM -> Forall is_u8 bs ->
     _write_r fd bs l (e, tty_std prev t) = Some (Z.of_nat (length bs),
       (e, tty_std prev (mkTty (input t) (output t ++ map (pair fd) (crlf bs)))))) /\
  (forall bs, _write_r DM_STDIN_NUM bs l (e, tty_std prev t) = Some (-1, (EINVAL, tty_std prev t))) /\
  (forall ln rest len, tline_ok len ln -> Forall is_u8 (typed rest) -> prev = -1 ->
     input t = l_events ln ++ Some (l_end ln) :: rest ->
     exists prev' t', _read_r DM_STDIN_NUM len l (e, tty_std prev t) =
         Some (Z.of_nat (length (line_read ln)), line_read ln, (e, tty_std prev' t')) /\
       pending prev' (input t') = after_nl (l_end ln) rest) /\
  (forall fd len, fd = DM_STDOUT_NUM \/ fd = DM_STDERR_NUM ->
     exists bs, _read_r fd len l (e, tty_std prev t) = Some (-1, bs, (EINVAL, tty_std prev t))) /\
  (forall fd, 0 <= fd < DM_FDS -> _close_r fd l (e, tty_std prev t) = Some (-1, (ENOSYS, tty_std prev t))).
Proof.
  intros Hl.
  assert (Hr : forall fd, 0 <= fd < DM_FDS -> routes fd (mkInstance STD_DEV_NAME pd (std_device tty_left)) fd l)
    by (intros; by apply stdio_routes).
  assert (H012 : 0 <= DM_STDIN_NUM < DM_FDS /\ 0 <= DM_STDOUT_NUM < DM_FDS /\ 0 <= DM_STDERR_NUM < DM_FDS)
    by (unfold DM_FDS, DM_STDIN_NUM, DM_STDOUT_NUM, DM_STDERR_NUM; lia).
  destruct H012 as (H0 & H1 & H2). split_and!.
  - intros fd bs Hfd Hb. destruct (Hr fd ltac:(destruct Hfd as [-> | ->]; done) (e, tty_std prev t))
      as (_ & _ & -> & _). simpl. f_equal. destruct Hfd as [-> | ->]; simpl; by rewrite write_chars.
  - intros bs. destruct (Hr _ H0 (e, tty_std prev t)) as (_ & _ & -> & _). done.
  - intros ln rest len (Hord & Hnl & Hroom) Hu -> Hi.
    pose proof (Hroom 0%nat ltac:(lia)) as Hpos. simpl in Hpos.
    destruct (Hr _ H0 (e, tty_std (-1) t)) as (_ & -> & _). cbn [p_read_r pdev std_device].
    assert (Hf : (length (typed (l_events ln)) < read_fuel tty_left (tty_std (-1) t))%nat).
    { unfold read_fuel, tty_left. cbn [con tty_std]. rewrite Hi, length_app.
      pose proof (length_typed (l_events ln)). lia. }
    destruct (read_line (l_events ln) (l_end ln) rest (typed (l_events ln)) _ len
      (replicate (Z.to_nat len) 0) [] (-1) t [] (output t) Hi eq_refl Hord Hnl Hu Hf Hroom)
      as (m' & prev' & t' & shown & E & E2 & E3 & E4 & _);
      [rewrite length_replicate; lia|done|by exists 0%nat|by rewrite app_nil_r|].
    exists prev', t'. split; [|exact E4]. unfold std_read_dev. cbn [snd].
    rewrite (std_read_tty _ _ _ _ _ _ _ _ _ _ E), Nat2Z.id. cbn [pdata].
    unfold line_read, edit. by rewrite length_app, Nat.add_1_r, E3.
  - intros fd len Hfd. destruct (Hr fd ltac:(destruct Hfd as [-> | ->]; done) (e, tty_std prev t))
      as (_ & -> & _). destruct Hfd as [-> | ->]; cbn; eexists; reflexivity.
  - intros fd Hfd. destruct (Hr fd Hfd (e, tty_std prev t)) as (-> & _). done.
Qed.
End Streams.

(** ** Examples *)

(** A console on which 'a' can still be received [n] times. *)
Definition ex_get (to : Z) (n : nat) : Z * nat :=
  match n with O => (-1, 0%nat) | S n => (97, n) end.
Definition ex_send (fd c : Z) (n : nat) : nat := n.
Lemma ex_laws : console_laws ex_send ex_get id.
Proof.
  split; [intros to [|n]; [by left|right; by_decide]|intros to [|n]; simpl; [done|lia]|
          intros to [|n]; simpl; lia|done].
Defined.

Lemma std_read_total_witness :
  exists n m' st', std_read (read_fuel id (mkStd (Some ex_send) (Some ex_get) (-1) 5%nat)) DM_STDIN_NUM 3
      [0; 0; 0; 0] (E_OK, mkStd (Some ex_send) (Some ex_get) (-1) 5%nat) = Some (Z.of_nat n, m', (E_OK, st')) /\
    Z.of_nat n <= 3 /\ length m' = length [0; 0; 0; 0] /\ Forall line_char (take n m') /\
    prev_ok (std_prev_char st') /\
    std_send_char_func st' = Some ex_send /\ std_get_char_func st' = Some ex_get.
Proof.
  apply (std_read_total ex_send ex_get id (mkStd (Some ex_send) (Some ex_get) (-1) 5%nat) 3 [0; 0; 0; 0]);
    [exact ex_laws|reflexivity|reflexivity|by left|simpl; lia].
Defined.

(** "hx", backspace, a pause, "i", "\r\n", then "a\n". *)
Definition ex_line1 : tline := mkLine [Some 104; Some 120; Some 8; None; Some 105] 13 true.
Definition ex_line2 : tline := mkLine [Some 97] 10 false.
Definition ex_tty : tty := mkTty (line_text ex_line1 ++ line_text ex_line2) [].

Lemma room_bool len acc cs :
  forallb (fun k => Z.of_nat (length (foldl edit_step acc (take k cs))) <? len) (seq 0 (S (length cs))) = true ->
  room len acc cs.
Proof.
  intros H k Hk. rewrite forallb_forall in H. apply Z.ltb_lt, H. apply in_seq. lia.
Qed.
Lemma ex_lines_ok : lines_ok 80 [ex_line1; ex_line2].
Proof.
  split; [|split; [|done]]; [|split; [|done]];
    (split; [by_decide|split; [auto|apply room_bool; reflexivity]]).
Qed.

Lemma console_lines_witness :
  read_lines 2 10 80 (E_OK, tty_std (-1) ex_tty) =
    Some ([[104; 105; 10]; [97; 10]], (E_OK, tty_std (-1) (mkTty []
      (map (pair 1) [104; 120; 8; 32; 8; 105; 13; 10; 97; 10; 13])))) /\
  exists shows prev' t', read_lines 2 10 80 (E_OK, tty_std (-1) ex_tty) =
      Some (map line_read [ex_line1; ex_line2], (E_OK, tty_std prev' t')) /\
    Forall2 (fun s l => displays s (edit (typed (l_events l)))) shows [ex_line1; ex_line2] /\
    output t' = [] ++ map (pair DM_STDOUT_NUM) (shown_lines shows [ex_line1; ex_line2]).
Proof.
  split; [vm_compute; reflexivity|].
  apply (console_lines 80 10 [ex_line1; ex_line2] ex_tty E_OK ex_lines_ok); [reflexivity|].
  repeat constructor; simpl; lia.
Defined.

Lemma std_streams_witness :
  registered (dm_init tty_left tt []).2 (dm_init (P:=unit) (D:=unit) (Ent:=unit) tty_left tt []).2 /\
  _write_r 1 [104; 10] (dm_init (P:=unit) (D:=unit) (Ent:=unit) tty_left tt []).2 (E_OK, tty_std (-1) (mkTty [] [])) =
    Some (2, (E_OK, tty_std (-1) (mkTty [] [(1, 104); (1, 13); (1, 10)]))).
Proof.
  assert (H : registered (dm_init tty_left tt []).2 (dm_init (P:=unit) (D:=unit) (Ent:=unit) tty_left tt []).2)
    by constructor.
  split; [exact H|].
  refine (eq_trans (proj1 (std_streams tt _ (-1) (mkTty [] []) E_OK H) 1 [104; 10] _ _) eq_refl);
    [by left|by_decide].
Defined.
