(* ===== verification/Xmodem.v ===== *)
(** * Xmodem: receiving a file over a serial line

    Models src/xmodem.c: the XMODEM receiver of the shell's command recv, with
    packets of 128 and 1024 bytes and a 16-bit CRC.  The functions that send
    and receive a byte are parameters. *)

From S2P Require Import Prelude.

Definition XM_SOH : Z := 0x01.
Definition XM_STX : Z := 0x02.
Definition XM_ACK : Z := 0x06.
Definition XM_NAK : Z := 0x15.
Definition XM_CAN : Z := 0x18.
Definition XM_EOT : Z := 0x04.
Definition XMODEM_PXM_ACKET_DELAY : Z := 10000.
Definition XMODEM_INITIAL_BUFFER_SIZE : Z := 4096.
Definition XMODEM_INCREMENT_AMMOUNT : Z := 4096.
Definition XMODEM_TIMEOUT : Z := 1000000.
Definition XMODEM_RETRY_LIMIT : Z := 20.
Definition XMODEM_ERROR_REMOTECANCEL : Z := -1.
Definition XMODEM_ERROR_RETRYEXCEED : Z := -3.
Definition XMODEM_ERROR_OUTOFMEM : Z := -4.
Definition XMODEM_ERROR_INTERNAL : Z := -5.

(** ** The check of a record *)

Definition crc_bit (chk : Z) : Z :=
  if negb (Z.land chk 0x8000 =? 0) then u32 (Z.lxor (u32 (Z.shiftl chk 1)) 0x1021)
  else u32 (Z.shiftl chk 1).
Definition crc_byte (chk b : Z) : Z := Nat.iter 8 crc_bit (u32 (Z.lxor chk (Z.shiftl b 8))).
Definition crc (data : list Z) : Z := Z.land (foldl crc_byte 0 data) 0xFFFF.

(** The checks on the bytes [rec] of a record, when all were received. *)
Definition xm_check (blocknum : Z) (rec : list Z) (pack_sz : nat) : bool :=
  match rec with
  | b0 :: b1 :: rest =>
      let chk := crc (take pack_sz rest) in
      (b0 =? blocknum) && (b1 =? u8 (Z.lnot blocknum)) &&
      match drop pack_sz rest with
      | c1 :: c0 :: _ => (c1 =? Z.land (Z.shiftr chk 8) 0xFF) && (c0 =? Z.land chk 0xFF)
      | _ => false
      end
  | _ => false
  end.

Section Xmodem.
(** [G]: what is at the other end of the line. *)
Context {G : Type} (xmodem_in_func : Z -> G -> Z * G) (xmodem_out_func : Z -> G -> G).
(** Whether [realloc] finds memory for that many bytes. *)
Context (has_mem : Z -> bool).
(** More bytes than ever arrive without a pause. *)
Context (flush_fuel : nat).

Fixpoint xmodem_drain (fuel : nat) (g : G) : option G :=
  match fuel with
  | O => None
  | S fuel =>
      let '(ch, g) := xmodem_in_func XMODEM_PXM_ACKET_DELAY g in
      if negb (ch =? -1) then xmodem_drain fuel g else Some g
  end.
(** [cancel]: whether the argument is [XMODEM_FLUSH_AND_XM_CAN]. *)
Definition xmodem_flush (cancel : bool) (g : G) : option G :=
  g ← xmodem_drain flush_fuel g;
  Some (if cancel then xmodem_out_func XM_CAN (xmodem_out_func XM_CAN (xmodem_out_func XM_CAN g)) else g).

(** One byte: what is there, or what comes in time. *)
Definition xm_byte (g : G) : Z * G :=
  let '(ch, g) := xmodem_in_func 0 g in
  if ch =? -1 then xmodem_in_func XMODEM_TIMEOUT g else (ch, g).
(** [n] bytes into [buf] at [j]; the flag: all came in time. *)
Fixpoint xm_fill (n j : nat) (buf : list Z) (g : G) : option (bool * list Z * G) :=
  match n with
  | O => Some (true, buf, g)
  | S n =>
      let '(ch, g) := xm_byte g in
      if ch =? -1 then Some (false, buf, g)
      else buf ← store buf j ch; xm_fill n (S j) buf g
  end.
Definition xmodem_get_record (blocknum : Z) (pbuf : list Z) (pack_sz : nat) (g : G)
  : option (bool * list Z * G) :=
  '(ok, pbuf, g) ← xm_fill (pack_sz + 4) 0 pbuf g;
  if ok && xm_check blocknum pbuf pack_sz then Some (true, pbuf, g)
  else Some (false, pbuf, xmodem_out_func XM_NAK g).

(** ** Receiving *)

(** The local variables, and [*dest]. *)
Record xm := mkXm {
  starting : bool; packnum : Z; buf : list Z; retries : Z; limit : Z; size : Z; dest : list Z
}.

(** [realloc( *dest, limit )]; the new bytes are not specified, here 0. *)
Definition realloc (dest : list Z) (limit : Z) : option (list Z) :=
  if has_mem limit then Some (take (Z.to_nat limit) dest ++ replicate (Z.to_nat limit - length dest) 0)
  else None.

(** How the body of the loop ends. *)
Inductive outcome :=
  | Continue (x : xm) (g : G)
  | Return (res : Z) (dest : list Z) (g : G).

(** A packet that passed its checks. *)
Definition xm_accept (x : xm) (pack_sz : nat) (g : G) : option outcome :=
  g ← xmodem_flush false g;
  let packnum := u8 (packnum x + 1) in
  let grow := u32 (size x + Z.of_nat pack_sz) >? limit x in
  let limit := if grow then u32 (limit x + XMODEM_INCREMENT_AMMOUNT) else limit x in
  match (if grow then realloc (dest x) limit else Some (dest x)) with
  | None =>
      g ← xmodem_flush true g;
      Some (Return XMODEM_ERROR_OUTOFMEM (dest x) g)
  | Some d =>
      bs ← loads (buf x) 2 pack_sz;
      d ← stores d (Z.to_nat (size x)) bs;
      Some (Continue (mkXm (starting x) packnum (buf x) XMODEM_RETRY_LIMIT limit
                        (u32 (size x + Z.of_nat pack_sz)) d) (xmodem_out_func XM_ACK g))
  end.

(** The body, [retries] being counted down already. *)
Definition xm_body (x : xm) (g : G) : option outcome :=
  let g := if starting x then xmodem_out_func 67 g else g in
  let '(ch, g) := xmodem_in_func XMODEM_TIMEOUT g in
  if (ch =? -1) || negb ((ch =? XM_SOH) || (ch =? XM_STX) || (ch =? XM_EOT) || (ch =? XM_CAN))
  then Some (Continue x g)
  else if ch =? XM_EOT then
    g ← xmodem_flush false (xmodem_out_func XM_ACK g);
    Some (Return (size x) (dest x) g)
  else if ch =? XM_CAN then
    g ← xmodem_flush false (xmodem_out_func XM_ACK g);
    Some (Return XMODEM_ERROR_REMOTECANCEL (dest x) g)
  else
    let pack_sz := if ch =? XM_SOH then 128%nat else 1024%nat in
    '(ok, b, g) ← xmodem_get_record (packnum x) (buf x) pack_sz g;
    let x := mkXm false (packnum x) b (retries x) (limit x) (size x) (dest x) in
    if ok : bool then xm_accept x pack_sz g else Some (Continue x g).

(** At most [fuel] rounds. *)
Fixpoint xm_loop (fuel : nat) (x : xm) (g : G) : option (Z * list Z * G) :=
  match fuel with
  | O => None
  | S fuel =>
      if retries x =? 0 then
        g ← xmodem_flush true g;
        Some (XMODEM_ERROR_RETRYEXCEED, dest x, g)
      else
        o ← xm_body (mkXm (starting x) (packnum x) (buf x) (retries x - 1) (limit x) (size x) (dest x)) g;
        match o with
        | Continue x g => xm_loop fuel x g
        | Return res d g => Some (res, d, g)
        end
  end.

(** The local buffer holds anything at first. *)
Definition xmodem_receive (fuel : nat) (buf dest : list Z) (g : G) : option (Z * list Z * G) :=
  xm_loop fuel (mkXm true 1 buf XMODEM_RETRY_LIMIT XMODEM_INITIAL_BUFFER_SIZE 0 dest) g.
End Xmodem.

(** ** The reference: division of polynomials

    Bits, the highest first, are the coefficients of a polynomial over the
    field of two elements.  The CRC of a message is the remainder of the
    message, moved up by 16, divided by x^16 + x^12 + x^5 + 1. *)

Fixpoint bits (n : nat) (z : Z) : list bool :=
  match n with O => [] | S n => Z.testbit z (Z.of_nat n) :: bits n z end.
Definition message (data : list Z) : list bool := concat (map (bits 8) data).

(** [p] added to the first bits of [d]. *)
Fixpoint add (p d : list bool) : list bool :=
  match p, d with
  | x :: p, y :: d => xorb x y :: add p d
  | _, _ => d
  end.
(** The divisor without its leading coefficient. *)
Definition generator : list bool := bits 16 0x1021.
(** The division, for a quotient of [n] bits. *)
Fixpoint divide (n : nat) (d : list bool) : list bool :=
  match n, d with
  | S n, b :: d => divide n (if b : bool then add generator d else d)
  | _, _ => d
  end.
Definition remainder (data : list Z) : list bool :=
  divide (8 * length data) (message data ++ replicate 16 false).

Lemma length_bits n z : length (bits n z) = n.
Proof. induction n; simpl; congruence. Qed.
Lemma length_message data : length (message data) = (8 * length data)%nat.
Proof.
  unfold message. induction data as [|b data IH]; [done|]. cbn [map concat].
  rewrite length_app, length_bits, IH. simpl. lia.
Qed.
Lemma length_add p d : length (add p d) = length d.
Proof. revert d. induction p as [|x p IH]; intros [|y d]; simpl; congruence. Qed.
Lemma add_false n d : add (replicate n false) d = d.
Proof. revert d. induction n as [|n IH]; intros [|y d]; simpl; [done..|]. by rewrite IH. Qed.
Lemma add_assoc p q d : (length p <= length q)%nat -> add p (add q d) = add (add p q) d.
Proof.
  revert q d. induction p as [|x p IH]; intros [|y q] [|z d] Hl; simpl in *; try done; [lia|].
  rewrite IH by lia. by rewrite xorb_assoc.
Qed.
Lemma add_comm p q : length p = length q -> add p q = add q p.
Proof.
  revert q. induction p as [|x p IH]; intros [|y q] Hl; simpl in *; try done.
  rewrite IH by lia. by rewrite xorb_comm.
Qed.
Lemma add_pad p n d : (length p + n <= length d)%nat -> add (p ++ replicate n false) d = add p d.
Proof.
  revert d. induction p as [|x p IH]; intros [|y d] Hl; simpl in *; try lia.
  - by destruct (replicate _ _).
  - by apply (add_false n (y :: d)).
  - by rewrite IH by lia.
Qed.
Lemma add_app p q a d : length p = length a -> add (p ++ q) (a ++ d) = add p a ++ add q d.
Proof.
  revert a. induction p as [|x p IH]; intros [|y a] Hl; simpl in *; try done. by rewrite IH by lia.
Qed.

(** One step of the code's register. *)
Definition shift (r : list bool) : list bool :=
  match r with
  | t :: r => if t : bool then add generator (r ++ [false]) else r ++ [false]
  | [] => []
  end.
Lemma divide_shift n r d : length r = 16%nat -> (16 <= length d)%nat ->
  divide (S n) (add r (false :: d)) = divide n (add (shift r) d).
Proof.
  intros Hr Hd. destruct r as [|t r]; [done|]. simpl in Hr. cbn [add divide shift].
  rewrite xorb_false_r.
  assert (Hp : add r d = add (r ++ [false]) d) by (symmetry; apply (add_pad r 1); lia).
  destruct t; [|by rewrite Hp].
  rewrite Hp, add_assoc; [done|]. rewrite length_app. unfold generator. rewrite length_bits. simpl. lia.
Qed.
Lemma length_shift r : length (shift r) = length r.
Proof.
  destruct r as [|[|] r]; cbn [shift]; [done| |]; rewrite ?length_add, length_app; simpl; lia.
Qed.

(** ** The code's CRC is the remainder *)

Lemma testbit_u32 x i : 0 <= i < 32 -> Z.testbit (u32 x) i = Z.testbit x i.
Proof. intros. unfold u32, wrap. apply Z.mod_pow2_bits_low. lia. Qed.
Lemma land_bit15 x : negb (Z.land x 0x8000 =? 0) = Z.testbit x 15.
Proof.
  destruct (Z.testbit x 15) eqn:E.
  - apply negb_true_iff, Z.eqb_neq. intros H. apply (f_equal (fun y => Z.testbit y 15)) in H.
    rewrite Z.land_spec, E in H. done.
  - apply negb_false_iff, Z.eqb_eq, Z.bits_inj'. intros i Hi.
    rewrite Z.land_spec, Z.bits_0. change 0x8000 with (2 ^ 15).
    rewrite Z.pow2_bits_eqb by lia. destruct (Z.eqb_spec 15 i) as [<-|]; [by rewrite E|].
    by rewrite andb_false_r.
Qed.
Lemma crc_bit_testbit chk i : 0 <= i < 16 ->
  Z.testbit (crc_bit chk) i = xorb (Z.testbit 0x1021 i && Z.testbit chk 15) (Z.testbit chk (i - 1)).
Proof.
  intros Hi. unfold crc_bit. rewrite land_bit15.
  assert (Hs : Z.testbit (u32 (Z.shiftl chk 1)) i = Z.testbit chk (i - 1))
    by (by rewrite testbit_u32, Z.shiftl_spec by lia).
  destruct (Z.testbit chk 15).
  - rewrite testbit_u32, Z.lxor_spec, Hs, andb_true_r by lia. apply xorb_comm.
  - rewrite Hs, andb_false_r. by destruct (Z.testbit chk _).
Qed.
Lemma bits_crc_bit chk : bits 16 (crc_bit chk) = shift (bits 16 chk).
Proof.
  cbn [bits]. rewrite !crc_bit_testbit by lia. cbn [shift].
  unfold generator. cbn [bits app add].
  change (Z.of_nat 15) with 15.
  rewrite (Z.testbit_neg_r chk (Z.of_nat 0 - 1)) by lia.
  destruct (Z.testbit chk 15); cbn [add]; rewrite ?andb_true_r, ?andb_false_r, ?xorb_false_l; done.
Qed.

Lemma bits_crc_steps k chk : bits 16 (Nat.iter k crc_bit chk) = Nat.iter k shift (bits 16 chk).
Proof. induction k as [|k IH]; [done|]. simpl Nat.iter. by rewrite bits_crc_bit, IH. Qed.
Lemma length_shifts k r : length (Nat.iter k shift r) = length r.
Proof. induction k as [|k IH]; [done|]. simpl. by rewrite length_shift. Qed.
Lemma divide_shifts k n r d : length r = 16%nat -> (16 <= length d)%nat ->
  divide (k + n) (add r (replicate k false ++ d)) = divide n (add (Nat.iter k shift r) d).
Proof.
  intros Hr Hd. revert r Hr. induction k as [|k IH]; intros r Hr; [done|].
  cbn [replicate app Nat.add]. rewrite divide_shift; [|done|rewrite length_app; lia].
  rewrite IH by (by rewrite length_shift). by rewrite <- Nat.iter_succ_r.
Qed.

Lemma bits_add n x y : bits n (Z.lxor x y) = add (bits n x) (bits n y).
Proof. induction n as [|n IH]; [done|]. cbn [bits add]. by rewrite Z.lxor_spec, IH. Qed.
Lemma bits_u32 n x : (n <= 32)%nat -> bits n (u32 x) = bits n x.
Proof.
  intros Hn. induction n as [|n IH]; [done|]. cbn [bits]. rewrite testbit_u32, IH by lia. done.
Qed.
Lemma bits_shiftl8 b : bits 16 (Z.shiftl b 8) = bits 8 b ++ replicate 8 false.
Proof.
  cbn [bits app replicate]. rewrite !Z.shiftl_spec by lia.
  rewrite ?(Z.testbit_neg_r b) by lia. done.
Qed.
Lemma divide_byte n chk b d : (16 <= length d)%nat ->
  divide (8 + n) (add (bits 16 chk) (bits 8 b ++ d)) = divide n (add (bits 16 (crc_byte chk b)) d).
Proof.
  intros Hd. unfold crc_byte. rewrite bits_crc_steps, bits_u32, bits_add by lia.
  rewrite <- divide_shifts; [|rewrite length_add, length_bits; done|done]. f_equal.
  rewrite bits_shiftl8, <- add_assoc by (rewrite length_app, !length_bits; simpl; lia).
  f_equal. rewrite add_app by (by rewrite length_bits, length_replicate).
  rewrite add_comm by (by rewrite length_bits, length_replicate).
  rewrite (add_false 8), (add_false 8). done.
Qed.

Lemma divide_message data chk :
  divide (8 * length data) (add (bits 16 chk) (message data ++ replicate 16 false)) =
  bits 16 (foldl crc_byte chk data).
Proof.
  revert chk. induction data as [|b data IH]; intros chk.
  - unfold message. cbn [map concat app length Nat.mul divide foldl].
    rewrite add_comm by (by rewrite length_bits, length_replicate). apply add_false.
  - unfold message. cbn [map concat foldl]. rewrite <- app_assoc. cbn [length].
    replace (8 * S (length data))%nat with (8 + 8 * length data)%nat by lia.
    rewrite divide_byte by (rewrite length_app, length_replicate; lia). apply IH.
Qed.

Lemma crc_range data : 0 <= crc data < 2 ^ 16.
Proof. unfold crc. change 0xFFFF with (2 ^ 16 - 1). rewrite land_mask by lia. by apply Z.mod_pos_bound. Qed.
Lemma bits_crc data : bits 16 (crc data) = bits 16 (foldl crc_byte 0 data).
Proof.
  unfold crc. generalize (foldl crc_byte 0 data). intros x. cbn [bits].
  by rewrite !Z.land_spec, !andb_true_r.
Qed.

(** The CRC the receiver computes, byte by byte in a register that is wider
    than 16 bits, is the remainder of the polynomial division that defines it. *)
Theorem crc_is_remainder data : bits 16 (crc data) = remainder data /\ 0 <= crc data < 2 ^ 16.
Proof.
  split; [|apply crc_range]. rewrite bits_crc, <- (divide_message data 0). unfold remainder.
  change (bits 16 0) with (replicate 16 false). by rewrite (add_false 16).
Qed.

(** ** The errors it detects *)

Lemma divide_add n a b : length a = length b ->
  divide n (add a b) = add (divide n a) (divide n b).
Proof.
  revert a b. induction n as [|n IH]; intros [|x a] [|y b] Hl; try done. simpl in Hl.
  injection Hl as Hl. cbn [add divide].
  assert (Ha : forall u v, length u = length v -> add generator (add u v) = add (add generator u) v).
  { intros u v Huv. destruct (decide (16 <= length u)%nat).
    - apply add_assoc. by unfold generator; rewrite length_bits.
    - clear -Huv. revert u v Huv. induction generator as [|g p IH]; intros [|x u] [|y v] Hl; simpl in *; try done.
      rewrite IH by lia. by rewrite xorb_assoc. }
  destruct x, y; cbn [xorb]; rewrite <- IH by (rewrite ?length_add; done).
  - f_equal. rewrite <- Ha by (by rewrite length_add). rewrite (add_comm a (add generator b)) by (by rewrite length_add).
    rewrite <- (Ha b a) by (symmetry; done). rewrite (add_comm b a) by (symmetry; done).
    assert (Hgg : forall p d, add p (add p d) = d).
    { induction p as [|z p IHp]; intros [|w d]; simpl; [done..|]. rewrite IHp, <- xorb_assoc, xorb_nilpotent. by destruct w. }
    by rewrite Hgg.
  - by rewrite Ha.
  - f_equal. rewrite (add_comm a (add generator b)) by (by rewrite length_add).
    rewrite (add_comm a b) by done. by rewrite Ha.
  - done.
Qed.

Lemma lookup_add_ge p d i : (length p <= i)%nat -> add p d !! i = d !! i.
Proof.
  revert d i. induction p as [|x p IH]; intros [|y d] [|i] Hi; simpl in *; try done; [lia|].
  apply IH. lia.
Qed.
(** A multiple of the divisor has ones that are 16 or more apart. *)
Lemma multiple_span n d : length d = (n + 16)%nat -> divide n d = replicate 16 false ->
  true ∈ d -> exists i j, d !! i = Some true /\ d !! j = Some true /\ (i + 16 <= j)%nat.
Proof.
  revert d. induction n as [|n IH]; intros d Hl Hd Ht.
  - change (divide 0 d) with d in Hd. subst d. apply elem_of_replicate in Ht as [? _]. done.
  - destruct d as [|b d]; [done|]. cbn [length Nat.add] in Hl. injection Hl as Hl. cbn [divide] in Hd.
    destruct b.
    + destruct (decide (true ∈ add generator d)) as [Hin|Hno].
      * destruct (IH _ ltac:(by rewrite length_add) Hd Hin) as (i & j & Hi & Hj & Hij).
        exists 0%nat, (S j). split_and!; [done| |lia]. simpl.
        by rewrite lookup_add_ge in Hj by (unfold generator; rewrite length_bits; lia).
      * exists 0%nat, 16%nat. split_and!; [done| |lia]. simpl.
        (* the constant term of the divisor *)
        destruct (d !! 15%nat) as [[|]|] eqn:E; [done| |apply lookup_ge_None in E; lia].
        exfalso. apply Hno. apply list_elem_of_lookup. exists 15%nat.
        do 15 (destruct d as [|? d]; [done|]). simpl in E. destruct d as [|? d]; [done|].
        simpl in E. injection E as ->. reflexivity.
    + apply elem_of_cons in Ht as [?|Ht]; [done|].
      destruct (IH d Hl Hd Ht) as (i & j & Hi & Hj & Hij). exists (S i), (S j). split_and!; [done|done|lia].
Qed.

Lemma bits_inj8 x y : is_u8 x -> is_u8 y -> bits 8 x = bits 8 y -> x = y.
Proof.
  intros Hx Hy H. apply Z.bits_inj'. intros i Hi.
  assert (Hhi : forall z, is_u8 z -> 8 <= i -> Z.testbit z i = false).
  { intros z Hz Hi8. rewrite <- (u8_small z Hz). apply Z.mod_pow2_bits_high. lia. }
  destruct (decide (8 <= i)); [by rewrite !Hhi|].
  cbn [bits] in H. injection H as H7 H6 H5 H4 H3 H2 H1 H0.
  assert (i = 0 \/ i = 1 \/ i = 2 \/ i = 3 \/ i = 4 \/ i = 5 \/ i = 6 \/ i = 7) as Hc by lia.
  by destruct Hc as [->|[->|[->|[->|[->|[->|[->| ->]]]]]]].
Qed.
Lemma message_inj a b : length a = length b -> Forall is_u8 a -> Forall is_u8 b ->
  message a = message b -> a = b.
Proof.
  unfold message. revert b. induction a as [|x a IH]; intros [|y b] Hl Ha Hb; [done..|].
  apply Forall_cons in Ha as [Hx Ha]. apply Forall_cons in Hb as [Hy Hb].
  cbn [map concat]. intros [Hxy Hab]%app_inj_1; [|by rewrite !length_bits].
  f_equal; [by apply bits_inj8|]. apply IH; try done. by injection Hl.
Qed.
Lemma add_self_false d : add d d = replicate (length d) false.
Proof. induction d as [|b d IH]; simpl; [done|]. by rewrite IH, xorb_nilpotent. Qed.
Lemma lookup_add_true a b i : length a = length b -> add a b !! i = Some true <->
  exists x y, a !! i = Some x /\ b !! i = Some y /\ x <> y.
Proof.
  revert b i. induction a as [|x a IH]; intros [|y b] i Hl; try done.
  - split; [done|]. by intros (? & ? & ? & _).
  - destruct i as [|i]; cbn [add]; [|simpl; apply IH; by injection Hl]. simpl. split.
    + intros [= H]. exists x, y. split_and!; [done|done|]. intros ->. by rewrite xorb_nilpotent in H.
    + intros (? & ? & [= <-] & [= <-] & Hne). by destruct x, y.
Qed.
Lemma add_eq a b : length a = length b -> ~ (true ∈ add a b) -> a = b.
Proof.
  intros Hl Hn. apply list_eq. intros i.
  destruct (a !! i) as [x|] eqn:Ea, (b !! i) as [y|] eqn:Eb; try done.
  - f_equal. destruct (decide (x = y)); [done|]. exfalso. apply Hn.
    apply list_elem_of_lookup. exists i. apply lookup_add_true; [done|]. by exists x, y.
  - apply lookup_lt_Some in Ea. apply lookup_ge_None in Eb. lia.
  - apply lookup_lt_Some in Eb. apply lookup_ge_None in Ea. lia.
Qed.

(** The bits at which two messages differ are among the 16 from [p] on. *)
Definition burst (a b : list Z) (p : nat) : Prop :=
  forall i x y, message a !! i = Some x -> message b !! i = Some y -> x <> y -> (p <= i < p + 16)%nat.

Lemma crc_burst a b p :
  length a = length b -> Forall is_u8 a -> Forall is_u8 b -> burst a b p -> crc a = crc b -> a = b.
Proof.
  intros Hl Ha Hb Hp Hc.
  assert (Hm : length (message a) = length (message b)) by (rewrite !length_message; lia).
  apply message_inj; try done. apply add_eq; [done|]. intros Ht.
  set (n := (8 * length a)%nat).
  set (d := add (message a ++ replicate 16 false) (message b ++ replicate 16 false)).
  assert (Hd : d = add (message a) (message b) ++ replicate 16 false).
  { unfold d. rewrite add_app by done. by rewrite add_self_false, length_replicate. }
  assert (Hrem : divide n d = replicate 16 false).
  { unfold d. rewrite divide_add by (by rewrite !length_app, Hm).
    fold (remainder a). unfold n. rewrite Hl. fold (remainder b).
    assert (H : forall x, bits 16 (crc x) = remainder x).
    { intros x. rewrite bits_crc, <- (divide_message x 0). unfold remainder.
      change (bits 16 0) with (replicate 16 false). by rewrite (add_false 16). }
    replace (divide (8 * length b) (message a ++ replicate 16 false)) with (remainder a)
      by (unfold remainder; by rewrite Hl).
    rewrite <- !H, Hc, add_self_false, length_bits. done. }
  destruct (multiple_span n d) as (i & j & Hi & Hj & Hij).
  - rewrite Hd, length_app, length_add, length_replicate, length_message. lia.
  - done.
  - rewrite Hd. apply elem_of_app. by left.
  - assert (Hin : forall k, d !! k = Some true -> (p <= k < p + 16)%nat).
    { intros k Hk. rewrite Hd in Hk. apply lookup_app_Some in Hk as [Hk|[_ Hk]].
      - apply lookup_add_true in Hk as (x & y & ? & ? & ?); [|done]. by apply (Hp k x y).
      - apply lookup_replicate in Hk as [? _]. done. }
    pose proof (Hin i Hi). pose proof (Hin j Hj). lia.
Qed.

(** ** A sender

    It follows the protocol: it sends its current packet when asked with 'C' or
    NAK, goes to the next one when that is acknowledged, and says so when there
    are none left.  The line damages some transmissions: [p_damaged] are the
    bytes that arrive instead of a record, for the first transmissions. *)

Record packet := mkPacket { p_data : list Z; p_damaged : list (list Z) }.
Record sender := mkSender { line : list Z; cur : list packet; num : Z; log : list Z }.

Definition header (p : packet) : Z := if (length (p_data p) =? 128)%nat then XM_SOH else XM_STX.
Definition record_of (num : Z) (data : list Z) : list Z :=
  num :: u8 (Z.lnot num) :: data ++ [Z.land (Z.shiftr (crc data) 8) 0xFF; Z.land (crc data) 0xFF].
Definition transmit (s : sender) : sender :=
  match cur s with
  | [] => mkSender (line s ++ [XM_EOT]) [] (num s) (log s)
  | p :: ps =>
      match p_damaged p with
      | [] => mkSender (line s ++ header p :: record_of (num s) (p_data p)) (cur s) (num s) (log s)
      | r :: rs => mkSender (line s ++ header p :: r) (mkPacket (p_data p) rs :: ps) (num s) (log s)
      end
  end.
Definition s_out (c : Z) (s : sender) : sender :=
  let s := mkSender (line s) (cur s) (num s) (log s ++ [c]) in
  if (c =? 67) || (c =? XM_NAK) then transmit s
  else if c =? XM_ACK then
    match cur s with
    | [] => s
    | _ :: ps => transmit (mkSender (line s) ps (u8 (num s + 1)) (log s))
    end
  else s.
Definition s_in (to : Z) (s : sender) : Z * sender :=
  match line s with
  | [] => (-1, s)
  | c :: l => (c, mkSender l (cur s) (num s) (log s))
  end.

(** The damage shows in the checks, and is not on every transmission the
    receiver waits for. *)
Definition packet_ok (n : Z) (p : packet) : Prop :=
  (length (p_data p) = 128%nat \/ length (p_data p) = 1024%nat) /\ Forall is_u8 (p_data p) /\
  Forall (fun r => length r = (length (p_data p) + 4)%nat /\ Forall is_u8 r /\
                   xm_check n r (length (p_data p)) = false) (p_damaged p) /\
  Z.of_nat (length (p_damaged p)) < XMODEM_RETRY_LIMIT.
Fixpoint packets_ok (n : Z) (ps : list packet) : Prop :=
  match ps with
  | [] => True
  | p :: ps => packet_ok n p /\ packets_ok (u8 (n + 1)) ps
  end.
Definition contents (ps : list packet) : list Z := concat (map p_data ps).

(** *** Records *)

Lemma record_of_bytes n data : is_u8 n -> Forall is_u8 data -> Forall is_u8 (record_of n data).
Proof.
  intros Hn Hd. unfold record_of. apply Forall_cons. split; [done|]. apply Forall_cons.
  split; [apply u8_is_u8|]. apply Forall_app. split; [done|].
  assert (H : forall x, is_u8 (Z.land x 0xFF)) by (intros x; rewrite land_255; word_lia).
  rewrite !Forall_cons. split_and!; [apply H|apply H|done].
Qed.
Lemma length_record n data : length (record_of n data) = (length data + 4)%nat.
Proof. unfold record_of. simpl. rewrite length_app. simpl. lia. Qed.
Lemma xm_check_app n rec r sz : length rec = (sz + 4)%nat -> xm_check n (rec ++ r) sz = xm_check n rec sz.
Proof.
  intros Hl. destruct rec as [|b0 [|b1 rest]]; [simpl in Hl; lia..|]. simpl in Hl.
  unfold xm_check. cbn [app]. rewrite take_app_le, drop_app_le by lia.
  destruct (drop sz rest) as [|c1 [|c0 d]] eqn:E; [| |done];
    apply (f_equal length) in E; rewrite length_drop in E; simpl in E; lia.
Qed.
Lemma xm_check_record n data : xm_check n (record_of n data) (length data) = true.
Proof.
  unfold xm_check, record_of. rewrite take_app_length, drop_app_length. by rewrite !Z.eqb_refl.
Qed.

(** What the checks accept, with the same header, is the record. *)
Lemma xm_check_true n (rec data : list Z) : is_u8 n -> length rec = (length data + 4)%nat -> Forall is_u8 rec ->
  xm_check n rec (length data) = true ->
  exists data', rec = record_of n data' /\ length data' = length data /\ Forall is_u8 data'.
Proof.
  intros Hn Hl Hb. destruct rec as [|b0 [|b1 rest]]; [done..|]. simpl in Hl. unfold xm_check.
  rewrite !Forall_cons in Hb. destruct Hb as (_ & _ & Hb).
  destruct (drop (length data) rest) as [|c1 [|c0 d]] eqn:E;
    [by rewrite ?andb_false_r..|].
  rewrite !andb_true_iff, !Z.eqb_eq. intros [[-> ->] [-> ->]].
  exists (take (length data) rest). split_and!; [|rewrite length_take; lia|by apply Forall_take].
  unfold record_of. do 2 f_equal. rewrite <- (take_drop (length data) rest) at 1. f_equal. rewrite E.
  assert (d = []) as -> by (apply (f_equal length) in E; rewrite length_drop in E; simpl in E; destruct d; [done|simpl in E; lia]).
  done.
Qed.

(** *** Receiving a record from the line *)

Definition with_line (s : sender) (l : list Z) : sender := mkSender l (cur s) (num s) (log s).

Lemma xm_fill_line bs r j buf s : Forall is_u8 bs -> (j + length bs <= length buf)%nat ->
  line s = bs ++ r ->
  xm_fill s_in (length bs) j buf s = Some (true, splice buf j bs, with_line s r).
Proof.
  revert j buf s. induction bs as [|c bs IH]; intros j buf s Hb Hl Hs; cbn [length xm_fill].
  - rewrite splice_nil by lia. destruct s. simpl in Hs. by subst.
  - apply Forall_cons in Hb as [Hc Hb]. simpl in Hl. unfold xm_byte, s_in. rewrite Hs. cbn [app].
    assert (Hne : (c =? -1) = false) by (apply Z.eqb_neq; word_lia). rewrite Hne. cbv iota beta. rewrite Hne.
    unfold store. rewrite decide_True by lia. cbn [mbind option_bind].
    rewrite (IH (S j) _ (mkSender (bs ++ r) (cur s) (num s) (log s))); [|done|rewrite length_insert; lia|done].
    rewrite u8_small, splice_insert by (done || lia). done.
Qed.
Lemma splice_0 m vs : (length vs <= length m)%nat -> splice m 0 vs = vs ++ drop (length vs) m.
Proof. done. Qed.

Lemma get_record_line n buf sz s rec r :
  length rec = (sz + 4)%nat -> Forall is_u8 rec -> (sz + 4 <= length buf)%nat -> line s = rec ++ r ->
  xmodem_get_record s_in s_out n buf sz s =
  Some (if xm_check n rec sz
        then (true, rec ++ drop (sz + 4) buf, with_line s r)
        else (false, rec ++ drop (sz + 4) buf, s_out XM_NAK (with_line s r))).
Proof.
  intros Hl Hb Hbuf Hs. unfold xmodem_get_record. rewrite <- Hl.
  rewrite (xm_fill_line rec r 0 buf s) by (done || lia). cbn [mbind option_bind].
  rewrite splice_0 by lia. rewrite xm_check_app by (by rewrite Hl). by destruct (xm_check n rec sz).
Qed.


(** A packet that arrives as it was sent is accepted, with its data in the
    buffer; one in which a burst of errors changed the data - any bits among 16
    consecutive ones - is not, and the receiver asks for it again. *)
Theorem xmodem_detects_burst n data data' p buf s r :
  is_u8 n -> Forall is_u8 data -> Forall is_u8 data' -> length data' = length data ->
  burst data' data p -> (length data + 4 <= length buf)%nat ->
  line s = (n :: u8 (Z.lnot n) :: data' ++
    [Z.land (Z.shiftr (crc data) 8) 0xFF; Z.land (crc data) 0xFF]) ++ r ->
  exists buf', loads buf' 2 (length data) = Some data' /\
    xmodem_get_record s_in s_out n buf (length data) s =
      Some (if decide (data' = data) then (true, buf', with_line s r)
            else (false, buf', s_out XM_NAK (with_line s r))).
Proof.
  intros Hn Hd Hd' Hl Hp Hbuf Hs.
  set (c := [Z.land (Z.shiftr (crc data) 8) 0xFF; Z.land (crc data) 0xFF]) in *.
  set (rec := n :: u8 (Z.lnot n) :: data' ++ c) in *.
  assert (Hrec : Forall is_u8 rec).
  { pose proof (record_of_bytes n data Hn Hd) as H. unfold record_of in H. fold c in H.
    unfold rec. rewrite !Forall_cons, Forall_app in *. tauto. }
  assert (Hlr : length rec = (length data + 4)%nat)
    by (unfold rec; simpl; rewrite length_app, Hl; simpl; lia).
  exists (rec ++ drop (length data + 4) buf). split.
  - unfold loads. rewrite decide_True by (rewrite length_app, Hlr; lia).
    unfold rec. cbn [app drop]. by rewrite <- app_assoc, drop_0, <- Hl, take_app_length.
  - rewrite (get_record_line n buf (length data) s rec r) by done. f_equal.
    destruct (decide (data' = data)) as [->|Hne].
    + unfold rec, c. fold (record_of n data). by rewrite xm_check_record.
    + destruct (xm_check n rec (length data)) eqn:E; [|done]. exfalso.
      destruct (xm_check_true n rec data Hn Hlr Hrec E) as (d2 & Heq & Hl2 & _).
      unfold rec, record_of in Heq. injection Heq as Heq.
      apply app_inj_1 in Heq as [<- Hc]; [|by rewrite Hl, Hl2].
      apply Hne. apply (crc_burst data' data p); try done.
      injection Hc as H1 H0. pose proof (crc_range data). pose proof (crc_range data').
      change 0xFF with 255 in *. rewrite !land_255, !Z.shiftr_div_pow2 in * by lia.
      change (2 ^ 8) with 256 in *. change (2 ^ 16) with 65536 in *.
      rewrite (Z.mod_small (crc data / 256)), (Z.mod_small (crc data' / 256)) in H1
        by (Z.to_euclidean_division_equations; lia).
      Z.to_euclidean_division_equations; lia.
Qed.

(** *** The receiver with this sender *)

Section Transfer.
Context (has_mem : Z -> bool) (Hmem : forall n, has_mem n = true) (ff : nat).
Abbreviation body := (xm_body s_in s_out has_mem (S ff)).
Abbreviation loop := (xm_loop s_in s_out has_mem (S ff)).

(** [got]: what was received so far. *)
Record xm_ok (x : xm) (got : list Z) : Prop := {
  ok_buf : length (buf x) = 1028%nat;
  ok_dest : Z.of_nat (length (dest x)) = limit x;
  ok_size : size x = Z.of_nat (length got);
  ok_got : take (length got) (dest x) = got;
  ok_limit : size x <= limit x <= size x + XMODEM_INITIAL_BUFFER_SIZE
}.

Lemma flush_empty s : line s = [] -> xmodem_flush s_in s_out (S ff) false s = Some s.
Proof. intros H. unfold xmodem_flush. simpl. unfold s_in. by rewrite H. Qed.

Lemma accept_ok x got data s : xm_ok x got -> line s = [] ->
  loads (buf x) 2 (length data) = Some data -> Forall is_u8 data -> (length data <= 1024)%nat ->
  Z.of_nat (length got + length data) < 2 ^ 31 ->
  exists x', xm_accept s_in s_out has_mem (S ff) x (length data) s = Some (Continue x' (s_out XM_ACK s)) /\
    xm_ok x' (got ++ data) /\ packnum x' = u8 (packnum x + 1) /\ retries x' = XMODEM_RETRY_LIMIT /\
    starting x' = starting x.
Proof.
  intros [Hb Hd Hs Hg Hl] Hline Hld Hu Hlen Hsz. unfold xm_accept.
  rewrite flush_empty by done. cbn [mbind option_bind].
  unfold XMODEM_INITIAL_BUFFER_SIZE, XMODEM_INCREMENT_AMMOUNT in *.
  assert (Hu1 : u32 (size x + Z.of_nat (length data)) = size x + Z.of_nat (length data))
    by (apply u32_small; word_lia).
  rewrite Hu1. set (grow := size x + Z.of_nat (length data) >? limit x).
  (* the buffer after the growth *)
  assert (Hgrow : exists d lim, (if grow then realloc has_mem (dest x) (if grow then u32 (limit x + 4096) else limit x)
        else Some (dest x)) = Some d /\ lim = (if grow then u32 (limit x + 4096) else limit x) /\
      Z.of_nat (length d) = lim /\ take (length got) d = got /\
      size x + Z.of_nat (length data) <= lim <= size x + Z.of_nat (length data) + 4096).
  { unfold grow. destruct (Z.gtb_spec (size x + Z.of_nat (length data)) (limit x)).
    - assert (Hlim : u32 (limit x + 4096) = limit x + 4096) by (apply u32_small; word_lia).
      unfold realloc. rewrite Hmem, Hlim. do 2 eexists. split; [done|]. split; [done|].
      rewrite Hlim, (take_ge (dest x)), length_app, length_replicate by lia.
      split; [lia|]. split; [|lia]. by rewrite take_app_le by lia.
    - exists (dest x), (limit x). split_and!; try done; lia. }
  destruct Hgrow as (d & lim & -> & <- & Hdl & Hdg & Hlim).
  rewrite Hld. cbn [mbind option_bind]. rewrite stores_splice by (done || lia).
  cbn [mbind option_bind]. eexists. split; [done|].
  assert (Hpos : Z.to_nat (size x) = length got) by lia. rewrite Hpos.
  assert (Hgl : (length got + length data <= length d)%nat) by lia.
  split_and!; [|done..]. split; cbn [buf dest size limit]; [done| | | |done].
  - by rewrite length_splice.
  - rewrite length_app. lia.
  - unfold splice. rewrite length_app, app_assoc. rewrite Hdg, <- length_app. apply take_app_length.
Qed.

(** A packet of the sender's, as it is on the line. *)
Definition pack_len (data : list Z) : Prop := length data = 128%nat \/ length data = 1024%nat.
Lemma header_cases ds data : pack_len data ->
  let h := header (mkPacket data ds) in
  (h =? -1) || negb ((h =? XM_SOH) || (h =? XM_STX) || (h =? XM_EOT) || (h =? XM_CAN)) = false /\
  (h =? XM_EOT) = false /\ (h =? XM_CAN) = false /\
  (if h =? XM_SOH then 128%nat else 1024%nat) = length data.
Proof. unfold header. cbn [p_data]. by intros [-> | ->]. Qed.

Lemma body_record x s data ds rec : starting x = false -> length (buf x) = 1028%nat -> pack_len data ->
  length rec = (length data + 4)%nat -> Forall is_u8 rec ->
  line s = header (mkPacket data ds) :: rec ->
  body x s =
    let x' := mkXm false (packnum x) (rec ++ drop (length data + 4) (buf x)) (retries x) (limit x) (size x) (dest x) in
    if xm_check (packnum x) rec (length data)
    then xm_accept s_in s_out has_mem (S ff) x' (length data) (with_line s [])
    else Some (Continue x' (s_out XM_NAK (with_line s []))).
Proof.
  intros Hst Hb Hp Hl Hu Hs. unfold xm_body. rewrite Hst. unfold s_in at 1. rewrite Hs.
  destruct (header_cases ds data Hp) as (-> & -> & -> & ->).
  rewrite (get_record_line _ _ _ _ rec []);
    [|done|done|destruct Hp; lia|cbn [line]; by rewrite app_nil_r].
  by destruct (xm_check _ _ _).
Qed.

Lemma xm_ok_buf x got rec k st n r : xm_ok x got -> length rec = k -> (k <= 1028)%nat ->
  xm_ok (mkXm st n (rec ++ drop k (buf x)) r (limit x) (size x) (dest x)) got.
Proof.
  intros [Hb ? ? ? ?] Hl Hk. split; cbn [buf dest size limit]; try done.
  rewrite length_app, length_drop. lia.
Qed.

(** The packet is damaged as often as [ds] says, then received. *)
Lemma loop_packet ds data ps n lg x got fuel :
  packet_ok n (mkPacket data ds) -> is_u8 n -> xm_ok x got -> packnum x = n -> starting x = false ->
  Z.of_nat (length ds) < retries x -> Z.of_nat (length got + length data) < 2 ^ 31 ->
  exists x' lg', loop (length ds + S fuel) x (transmit (mkSender [] (mkPacket data ds :: ps) n lg)) =
      loop fuel x' (transmit (mkSender [] ps (u8 (n + 1)) lg')) /\
    xm_ok x' (got ++ data) /\ packnum x' = u8 (n + 1) /\ retries x' = XMODEM_RETRY_LIMIT /\
    starting x' = false.
Proof.
  intros (Hp & Hu & Hds & _). cbn [p_data p_damaged] in *. revert x lg.
  induction ds as [|rec ds IH]; intros x lg Hn Hx Hpn Hst Hr Hsz; cbn [length Nat.add xm_loop].
  - rewrite (proj2 (Z.eqb_neq (retries x) 0)) by (simpl in Hr; lia).
    rewrite (body_record _ _ data [] (record_of n data));
      [|done|by destruct Hx|done|apply length_record|by apply record_of_bytes|done].
    cbn [packnum]. rewrite Hpn, xm_check_record. cbv zeta.
    match goal with |- context [xm_accept _ _ _ _ ?x1 _ ?s1] =>
      destruct (accept_ok x1 got data s1) as (x' & E & H1 & H2 & H3 & H4) end;
      [apply (xm_ok_buf x); [done|apply length_record|destruct Hp; lia]| done| |done|destruct Hp; lia|done|].
    + cbn [buf]. unfold loads. rewrite decide_True by (rewrite length_app, length_record; lia).
      unfold record_of. cbn [app drop]. by rewrite drop_0, <- app_assoc, take_app_length.
    + exists x', (lg ++ [XM_ACK]). rewrite E. cbn [mbind option_bind]. split; [done|]. done.
  - rewrite (proj2 (Z.eqb_neq (retries x) 0)) by (simpl in Hr; lia).
    apply Forall_cons in Hds as [(Hl & Hub & Hck) Hds].
    rewrite (body_record _ _ data ds rec); [|done|by destruct Hx|done|done|done|done].
    cbn [packnum]. rewrite Hpn, Hck. cbv zeta. cbn [mbind option_bind].
    change (s_out XM_NAK (with_line (transmit (mkSender [] (mkPacket data (rec :: ds) :: ps) n lg)) []))
      with (transmit (mkSender [] (mkPacket data ds :: ps) n (lg ++ [XM_NAK]))).
    apply IH; try done.
    + apply (xm_ok_buf x); [done|done|destruct Hp; lia].
    + cbn [retries]. simpl in Hr. lia.
Qed.

(** The first request is like the others, once it was sent. *)
Lemma body_start x s c l : starting x = true -> line (s_out 67 s) = c :: l ->
  c = XM_SOH \/ c = XM_STX \/ c = XM_EOT ->
  body x s = body (mkXm false (packnum x) (buf x) (retries x) (limit x) (size x) (dest x)) (s_out 67 s).
Proof.
  intros Hst Hl Hc. unfold xm_body. rewrite Hst. cbn [starting packnum buf retries limit size dest].
  assert (Hin : exists s', s_in XMODEM_TIMEOUT (s_out 67 s) = (c, s')) by (unfold s_in; rewrite Hl; by eexists).
  destruct Hin as [s' ->]. by destruct Hc as [-> | [-> | ->]].
Qed.

(** The rounds the transfer of packets takes. *)
Definition rounds (ps : list packet) : nat := sum_list (map (fun p => S (length (p_damaged p))) ps).

Lemma loop_end x n lg got fuel : xm_ok x got -> starting x = false -> 0 < retries x ->
  exists s', loop (S fuel) x (transmit (mkSender [] [] n lg)) = Some (Z.of_nat (length got), dest x, s') /\
    cur s' = [] /\ line s' = [].
Proof.
  intros Hx Hst Hr. cbn [xm_loop]. rewrite (proj2 (Z.eqb_neq (retries x) 0)) by lia.
  unfold xm_body. cbn [starting]. rewrite Hst. cbn -[xmodem_flush u32 u8 s_out].
  rewrite flush_empty by done. cbn [mbind option_bind]. rewrite (ok_size _ _ Hx). eexists. done.
Qed.

Lemma loop_packets ps n lg x got fuel :
  packets_ok n ps -> is_u8 n -> xm_ok x got -> packnum x = n -> starting x = false ->
  retries x = XMODEM_RETRY_LIMIT -> Z.of_nat (length got + length (contents ps)) < 2 ^ 31 ->
  (rounds ps < fuel)%nat ->
  exists d s', loop fuel x (transmit (mkSender [] ps n lg)) =
      Some (Z.of_nat (length (got ++ contents ps)), d, s') /\
    take (length (got ++ contents ps)) d = got ++ contents ps /\ cur s' = [] /\ line s' = [].
Proof.
  revert n lg x got fuel. induction ps as [|[data ds] ps IH]; intros n lg x got fuel Hps Hn Hx Hpn Hst Hr Hsz Hf.
  - destruct fuel as [|fuel]; [lia|]. unfold contents. cbn [map concat]. rewrite app_nil_r.
    destruct (loop_end x n lg got fuel Hx Hst ltac:(by rewrite Hr)) as (s' & -> & H1 & H2).
    exists (dest x), s'. split_and!; try done. apply (ok_got _ _ Hx).
  - destruct Hps as [Hp Hps]. unfold rounds, contents in *. cbn [map concat p_data p_damaged] in *. simpl in Hf.
    rewrite length_app in Hsz.
    replace fuel with (length ds + S (fuel - S (length ds)))%nat by lia.
    destruct (loop_packet ds data ps n lg x got (fuel - S (length ds)) Hp Hn Hx Hpn Hst)
      as (x' & lg' & -> & Hx' & Hpn' & Hr' & Hst');
      [destruct Hp as (_ & _ & _ & Hds); rewrite Hr; exact Hds|lia|].
    rewrite app_assoc. apply IH; try done; [apply u8_is_u8|rewrite length_app; lia|lia].
Qed.
End Transfer.


(** ** Examples *)

Definition ex_data : list Z := seqZ 1 128.
(** One bit of the data is wrong. *)
Definition ex_hit : list Z := 1 :: 254 :: 0 :: tail (tail (tail (record_of 1 ex_data))).
Definition ex_packets : list packet := [mkPacket ex_data [ex_hit]; mkPacket (replicate 128 26) []].

Lemma ex_packets_ok : packets_ok 1 ex_packets.
Proof.
  assert (forall p n, (length (p_data p) =? 128)%nat = true -> bool_decide (Forall is_u8 (p_data p)) = true ->
    forallb (fun r => (length r =? 132)%nat && bool_decide (Forall is_u8 r) && negb (xm_check n r 128)) (p_damaged p) = true ->
    (length (p_damaged p) <? 20)%nat = true -> packet_ok n p) as H.
  { intros p n Hl Hb Hd Hr. apply Nat.eqb_eq in Hl. apply Nat.ltb_lt in Hr. unfold packet_ok.
    rewrite Hl. split; [by left|]. split; [by apply (bool_decide_unpack _), Is_true_eq_left|].
    split; [|unfold XMODEM_RETRY_LIMIT; lia]. rewrite forallb_forall in Hd. apply Forall_forall.
    intros r Hin%list_elem_of_In. apply Hd in Hin. rewrite !andb_true_iff, negb_true_iff, Nat.eqb_eq in Hin.
    destruct Hin as [[-> Hu] ->]. split_and!; [done| |done]. by apply (bool_decide_unpack _), Is_true_eq_left. }
  split; [|split; [|done]]; apply H; vm_compute; reflexivity.
Qed.


Lemma burst_bool a b p :
  forallb (fun i => match message a !! i, message b !! i with
                    | Some x, Some y => eqb x y || ((p <=? i)%nat && (i <? p + 16)%nat)
                    | _, _ => true end) (seq 0 (length (message a))) = true -> burst a b p.
Proof.
  intros H i x y Hx Hy Hne. rewrite forallb_forall in H.
  specialize (H i). rewrite Hx, Hy in H.
  assert (Hin : In i (seq 0 (length (message a)))) by (apply in_seq; apply lookup_lt_Some in Hx; lia).
  apply H in Hin. apply orb_true_iff in Hin as [E|E]; [by apply eqb_prop in E|].
  apply andb_true_iff in E as [?%Nat.leb_le ?%Nat.ltb_lt]. done.
Qed.
Lemma xmodem_detects_burst_witness :
  let bad := 0 :: tail ex_data in
  let rec := ex_hit in
  exists buf', loads buf' 2 128 = Some bad /\
    xmodem_get_record s_in s_out 1 (replicate 1028 0) 128 (mkSender rec [] 1 []) =
      Some (if decide (bad = ex_data) then (true, buf', with_line (mkSender rec [] 1 []) [])
            else (false, buf', s_out XM_NAK (with_line (mkSender rec [] 1 []) []))).
Proof.
  apply (xmodem_detects_burst 1 ex_data (0 :: tail ex_data) 0 (replicate 1028 0) (mkSender ex_hit [] 1 []) []);
    [by_decide|by_decide|by_decide|reflexivity|apply burst_bool; vm_compute; reflexivity|vm_compute; lia|vm_compute; reflexivity].
Defined.

(** A line that nobody answers: what is queued, and what was sent. *)
Definition raw_in (to : Z) (g : list Z * list Z) : Z * (list Z * list Z) :=
  match g.1 with [] => (-1, g) | c :: l => (c, (l, g.2)) end.
Definition raw_out (c : Z) (g : list Z * list Z) : list Z * list Z := (g.1, g.2 ++ [c]).

(** When the packet after an acknowledged one is lost the receiver waits for it
    20 times without asking again, and gives up. *)
Example lost_packet :
  (xmodem_receive raw_in raw_out (fun _ => true) 1 30 (replicate 1028 0) (replicate 4096 0)
     (XM_SOH :: record_of 1 ex_data, [])) ≫= (fun r => Some (r.1.1, r.2)) =
  Some (XMODEM_ERROR_RETRYEXCEED, ([], [67; XM_ACK; XM_CAN; XM_CAN; XM_CAN])).
Proof. vm_compute. reflexivity. Qed.
(** When the first byte of a packet is wrong each of the bytes after it counts
    as a try: the receiver gives up without having asked for the packet again. *)
Example damaged_header :
  (xmodem_receive raw_in raw_out (fun _ => true) 200 30 (replicate 1028 0) (replicate 4096 0)
     (0 :: record_of 5 (replicate 128 97), [])) ≫= (fun r => Some (r.1.1, r.2)) =
  Some (XMODEM_ERROR_RETRYEXCEED, ([], replicate 20 67 ++ [XM_CAN; XM_CAN; XM_CAN])).
Proof. vm_compute. reflexivity. Qed.
(** The packet before, sent again because its acknowledgement was lost, is
    refused like a damaged one. *)
Example repeated_packet : xm_check 2 (record_of 1 ex_data) 128 = false.
Proof. vm_compute. reflexivity. Qed.
