(* ===== verification/Timers.v ===== *)
(** * Timers: virtual timers and the system timer

    Models src/common_tmr.c: the virtual timers that a periodic interrupt of
    the platform drives, their match interrupts, the operations on all kinds of
    timers, and the generic system timer.  The hardware timers and the table of
    interrupt functions are parameters; the platform has a system timer and
    match interrupts. *)

From S2P Require Import Prelude IntQueue.

Definition VTMR_FIRST_ID : Z := 0x200.
Definition VTMR_GET_ID (x : Z) : Z := x - VTMR_FIRST_ID.
Definition VTMR_MAX_PERIOD : Z := 2 ^ 32 - 1.
Definition PLATFORM_TIMER_SYS_ID : Z := 0x100.
Definition PLATFORM_TIMER_SYS_FREQ : Z := 1000000.
Definition PLATFORM_TIMER_INT_ONESHOT : Z := 1.
Definition PLATFORM_TIMER_INT_CYCLIC : Z := 2.
Definition PLATFORM_TIMER_INT_OK : Z := 0.
Definition PLATFORM_TIMER_INT_TOO_SHORT : Z := 1.
Definition PLATFORM_TIMER_INT_TOO_LONG : Z := 2.
Definition PLATFORM_TIMER_INT_INVALID_ID : Z := 3.
Definition PLATFORM_CPU_ENABLE : Z := 1.
Definition PLATFORM_INT_NOT_HANDLED : Z := -3.
Definition PLATFORM_INT_BAD_RESNUM : Z := -4.

Inductive timer_op :=
  | PLATFORM_TIMER_OP_START
  | PLATFORM_TIMER_OP_READ
  | PLATFORM_TIMER_OP_SET_CLOCK
  | PLATFORM_TIMER_OP_GET_CLOCK
  | PLATFORM_TIMER_OP_GET_MAX_DELAY
  | PLATFORM_TIMER_OP_GET_MIN_DELAY
  | PLATFORM_TIMER_OP_GET_MAX_CNT.

(** ** Virtual timers *)

Record vtmr := mkVtmr {
  vtmr_counters : list Z;
  vtmr_reset_idx : Z;
  vtmr_period_limit : list Z;
  (** One bit for each timer. *)
  vtmr_int_periodic_flag : list Z;
  vtmr_int_enabled : list Z;
  vtmr_int_flag : list Z
}.

(** The bit of timer [id] in an array of flags. *)
Definition msk (id : Z) : Z := u8 (Z.shiftl 1 (Z.land id 0x07)).
Definition flag_get (a : list Z) (id : Z) : option bool :=
  b ← a !! Z.to_nat (Z.shiftr id 3); Some (negb (Z.land b (msk id) =? 0)).
Definition flag_set (a : list Z) (id : Z) : option (list Z) :=
  let k := Z.to_nat (Z.shiftr id 3) in
  b ← a !! k; Some (<[k := Z.lor b (msk id)]> a).
Definition flag_clear (a : list Z) (id : Z) : option (list Z) :=
  let k := Z.to_nat (Z.shiftr id 3) in
  b ← a !! k; Some (<[k := Z.land b (u8 (Z.lnot (msk id)))]> a).

Definition set_counters (t : vtmr) c := mkVtmr c (vtmr_reset_idx t) (vtmr_period_limit t)
  (vtmr_int_periodic_flag t) (vtmr_int_enabled t) (vtmr_int_flag t).
Definition set_reset_idx (t : vtmr) r := mkVtmr (vtmr_counters t) r (vtmr_period_limit t)
  (vtmr_int_periodic_flag t) (vtmr_int_enabled t) (vtmr_int_flag t).
Definition set_limit (t : vtmr) l := mkVtmr (vtmr_counters t) (vtmr_reset_idx t) l
  (vtmr_int_periodic_flag t) (vtmr_int_enabled t) (vtmr_int_flag t).
Definition set_periodic (t : vtmr) f := mkVtmr (vtmr_counters t) (vtmr_reset_idx t) (vtmr_period_limit t)
  f (vtmr_int_enabled t) (vtmr_int_flag t).
Definition set_enabled (t : vtmr) f := mkVtmr (vtmr_counters t) (vtmr_reset_idx t) (vtmr_period_limit t)
  (vtmr_int_periodic_flag t) f (vtmr_int_flag t).
Definition set_flag (t : vtmr) f := mkVtmr (vtmr_counters t) (vtmr_reset_idx t) (vtmr_period_limit t)
  (vtmr_int_periodic_flag t) (vtmr_int_enabled t) f.

(** What the board's configuration chooses: the number of virtual timers, their
    frequency, the number of the match interrupt, and whether numbers in Lua
    are 32-bit integers. *)
Class config := Config {
  VTMR_NUM_TIMERS : nat;
  VTMR_FREQ_HZ : Z;
  INT_TMR_MATCH : Z;
  LUA_NUMBER_INTEGRAL : bool
}.

Section Timers.
Context {cfg : config}.

Definition PLATFORM_TIMER_SYS_MAX : Z := if LUA_NUMBER_INTEGRAL then 2 ^ 32 - 2 else 2 ^ 52 - 2.
(** A value of type [timer_data_type]. *)
Definition tdt (x : Z) : Z := if LUA_NUMBER_INTEGRAL then u32 x else u64 x.
Definition TIMER_IS_VIRTUAL (x : Z) : bool :=
  (VTMR_FIRST_ID <=? x) && (x <? Z.of_nat VTMR_NUM_TIMERS + VTMR_FIRST_ID).

Section Interrupts.
(** [elua_int_add], on the state of the interrupt system. *)
Context {Q : Type} (elua_int_add : Z -> Z -> Q -> Q).

(** One timer, in the loop of the callback. *)
Definition vtmr_tick (i : nat) (t : vtmr) (q : Q) : option (vtmr * Q) :=
  let id := Z.of_nat i in
  c ← vtmr_counters t !! i;
  let c := u32 (c + 1) in
  let t := set_counters t (<[i := c]> (vtmr_counters t)) in
  lim ← vtmr_period_limit t !! i;
  if c >=? lim then
    fl ← flag_set (vtmr_int_flag t) id;
    let t := set_flag t fl in
    en ← flag_get (vtmr_int_enabled t) id;
    let q := if en : bool then elua_int_add INT_TMR_MATCH (id + VTMR_FIRST_ID) q else q in
    per ← flag_get (vtmr_int_periodic_flag t) id;
    if per : bool then Some (set_counters t (<[i := 0]> (vtmr_counters t)), q)
    else en ← flag_clear (vtmr_int_enabled t) id; Some (set_enabled t en, q)
  else Some (t, q).
Fixpoint vtmr_tick_from (n i : nat) (t : vtmr) (q : Q) : option (vtmr * Q) :=
  match n with
  | O => Some (t, q)
  | S n => '(t, q) ← vtmr_tick i t q; vtmr_tick_from n (S i) t q
  end.
Definition cmn_virtual_timer_cb (t : vtmr) (q : Q) : option (vtmr * Q) :=
  '(t, q) ← vtmr_tick_from VTMR_NUM_TIMERS 0 t q;
  if negb (vtmr_reset_idx t =? -1) then
    (* a negative index is before the array *)
    if vtmr_reset_idx t <? 0 then None else
    _ ← vtmr_counters t !! Z.to_nat (vtmr_reset_idx t);
    Some (set_reset_idx (set_counters t (<[Z.to_nat (vtmr_reset_idx t) := 0]> (vtmr_counters t))) (-1), q)
  else Some (t, q).

(** *** Waiting

    A loop that polls a variable runs with interrupts enabled: [sched] says, for
    each poll, whether the timer interrupt comes before it.  The result has what
    is left of it; [None]: the loop is still running at its end. *)
Fixpoint poll (until : vtmr -> option bool) (sched : list bool) (t : vtmr) (q : Q)
  : option (list bool * vtmr * Q) :=
  match sched with
  | [] => None
  | tick :: sched =>
      '(t, q) ← (if tick : bool then cmn_virtual_timer_cb t q else Some (t, q));
      stop ← until t;
      if stop : bool then Some (sched, t, q) else poll until sched t q
  end.

Definition s8 (x : Z) : Z := swrap 8 x.
Definition vtmr_reset_timer (vid : Z) (sched : list bool) (t : vtmr) (q : Q) : option (list bool * vtmr * Q) :=
  poll (fun t => Some (vtmr_reset_idx t =? -1)) sched (set_reset_idx t (s8 (VTMR_GET_ID vid))) q.

Definition vtmr_delay (vid delay_us : Z) (sched : list bool) (t : vtmr) (q : Q)
  : option (list bool * vtmr * Q) :=
  let id := VTMR_GET_ID vid in
  if delay_us >? VTMR_MAX_PERIOD then Some (sched, t, q) else
  let final := tdt (u64 (delay_us * VTMR_FREQ_HZ) / 1000000) in
  '(sched, t, q) ← vtmr_reset_timer vid sched t q;
  poll (fun t => c ← vtmr_counters t !! Z.to_nat id; Some (c >=? final)) sched t q.

(** *** Match interrupts *)

Definition vtmr_set_match_int (vid period_us type : Z) (sched : list bool) (t : vtmr) (q : Q)
  : option (Z * (list bool * vtmr * Q)) :=
  let id := VTMR_GET_ID vid in
  if period_us =? 0 then
    en ← flag_clear (vtmr_int_enabled t) id;
    fl ← flag_clear (vtmr_int_flag t) id;
    per ← flag_clear (vtmr_int_periodic_flag t) id;
    Some (PLATFORM_TIMER_INT_OK, (sched, set_periodic (set_flag (set_enabled t en) fl) per, q))
  else
  let final := tdt (tdt (period_us * VTMR_FREQ_HZ) / 1000000) in
  if final >? VTMR_MAX_PERIOD then Some (PLATFORM_TIMER_INT_TOO_LONG, (sched, t, q)) else
  if final =? 0 then Some (PLATFORM_TIMER_INT_TOO_SHORT, (sched, t, q)) else
  let t := set_limit t (<[Z.to_nat id := u32 final]> (vtmr_period_limit t)) in
  per ← (if type =? PLATFORM_TIMER_INT_ONESHOT then flag_clear (vtmr_int_periodic_flag t) id
         else flag_set (vtmr_int_periodic_flag t) id);
  let t := set_periodic t per in
  fl ← flag_clear (vtmr_int_flag t) id;
  let t := set_flag t fl in
  '(sched, t, q) ← vtmr_reset_timer vid sched t q;
  en ← flag_set (vtmr_int_enabled t) id;
  Some (PLATFORM_TIMER_INT_OK, (sched, set_enabled t en, q)).
End Interrupts.

Definition vtmr_int_get_flag (resnum : Z) (clear : bool) (t : vtmr) : option (bool * vtmr) :=
  let id := VTMR_GET_ID resnum in
  status ← flag_get (vtmr_int_flag t) id;
  if clear then fl ← flag_clear (vtmr_int_flag t) id; Some (status, set_flag t fl)
  else Some (status, t).
Definition vtmr_int_set_status (resnum status : Z) (t : vtmr) : option (bool * vtmr) :=
  let id := VTMR_GET_ID resnum in
  prev ← flag_get (vtmr_int_enabled t) id;
  en ← (if status =? PLATFORM_CPU_ENABLE then flag_set (vtmr_int_enabled t) id
        else flag_clear (vtmr_int_enabled t) id);
  Some (prev, set_enabled t en).
Definition vtmr_int_get_status (resnum : Z) (t : vtmr) : option bool :=
  flag_get (vtmr_int_enabled t) (VTMR_GET_ID resnum).

(** ** Operations on all timers *)

Section Platform.
Context {Q H : Type} (elua_int_add : Z -> Z -> Q -> Q).
(** The hardware timers, the system timer and the functions that the table of
    interrupts has for match interrupts ([None]: a null pointer). *)
Context (NUM_TIMER : Z) (PLATFORM_TMR_COUNTS_DOWN : bool)
  (platform_s_timer_op : Z -> timer_op -> Z -> H -> Z * H)
  (platform_s_timer_delay : Z -> Z -> H -> H)
  (platform_s_timer_set_match_int : Z -> Z -> Z -> H -> Z * H)
  (platform_timer_read_sys : H -> Z * H)
  (int_set_status : option (Z -> Z -> H -> Z * H))
  (int_get_status : option (Z -> H -> Z * H))
  (int_get_flag : option (Z -> bool -> H -> Z * H)).

(** The polls to come, the virtual timers, the interrupts and the hardware. *)
Record world := mkWorld { w_sched : list bool; w_vtmr : vtmr; w_int : Q; w_hw : H }.
Definition with_hw (w : world) (r : Z * H) : Z * world :=
  (r.1, mkWorld (w_sched w) (w_vtmr w) (w_int w) r.2).
Definition with_vt (w : world) (r : list bool * vtmr * Q) : world :=
  mkWorld r.1.1 r.1.2 r.2 (w_hw w).

Definition platform_timer_exists (id : Z) : bool :=
  if id >=? VTMR_FIRST_ID then TIMER_IS_VIRTUAL id
  else (id <? NUM_TIMER) || (id =? PLATFORM_TIMER_SYS_ID).

(** [op]: the operations, which [platform_timer_op] also uses this function
    for. *)
Definition timer_get_diff_us (op : Z -> timer_op -> Z -> world -> option (Z * world))
  (id start end_ : Z) (w : world) : option (Z * world) :=
  '(freq, w) ← op id PLATFORM_TIMER_OP_GET_CLOCK 0 w;
  let freq := u32 freq in
  '(tend, w) ← (if start >? end_ then
                  '(m, w) ← op id PLATFORM_TIMER_OP_GET_MAX_CNT 0 w; Some (u64 (end_ + tdt (m + 1)), w)
                else Some (end_, w));
  if freq =? 0 then None else
  let d := if freq =? 1000000 then u64 (tend - start)
           else u64 (u64 (tend - start) * 1000000) / freq in
  Some (tdt (if d <=? PLATFORM_TIMER_SYS_MAX then d else PLATFORM_TIMER_SYS_MAX), w).

(** The two functions call each other; [depth] calls are allowed. *)
Fixpoint timer_op_depth (depth : nat) (id : Z) (op : timer_op) (data : Z) (w : world) : option (Z * world) :=
  match depth with
  | O => None
  | S depth =>
      let diff := timer_get_diff_us (timer_op_depth depth) in
      if id =? PLATFORM_TIMER_SYS_ID then
        match op with
        | PLATFORM_TIMER_OP_START | PLATFORM_TIMER_OP_READ =>
            Some (with_hw w (platform_timer_read_sys (w_hw w)))
        | PLATFORM_TIMER_OP_SET_CLOCK | PLATFORM_TIMER_OP_GET_CLOCK => Some (PLATFORM_TIMER_SYS_FREQ, w)
        | PLATFORM_TIMER_OP_GET_MAX_DELAY => Some (tdt (PLATFORM_TIMER_SYS_MAX + 1), w)
        | PLATFORM_TIMER_OP_GET_MAX_CNT => Some (tdt PLATFORM_TIMER_SYS_MAX, w)
        | PLATFORM_TIMER_OP_GET_MIN_DELAY => Some (1, w)
        end
      else if negb (TIMER_IS_VIRTUAL id) then
        match op with
        | PLATFORM_TIMER_OP_GET_MAX_DELAY =>
            '(m, w) ← timer_op_depth depth id PLATFORM_TIMER_OP_GET_MAX_CNT 0 w; diff id 0 m w
        | PLATFORM_TIMER_OP_GET_MIN_DELAY => diff id 0 1 w
        | PLATFORM_TIMER_OP_START | PLATFORM_TIMER_OP_READ =>
            if PLATFORM_TMR_COUNTS_DOWN then
              let '(m, h) := platform_s_timer_op id PLATFORM_TIMER_OP_GET_MAX_CNT 0 (w_hw w) in
              let '(v, h) := platform_s_timer_op id op 0 h in
              Some (with_hw w (tdt (m - v), h))
            else Some (with_hw w (platform_s_timer_op id op data (w_hw w)))
        | _ => Some (with_hw w (platform_s_timer_op id op data (w_hw w)))
        end
      else
        match op with
        | PLATFORM_TIMER_OP_START =>
            r ← vtmr_reset_timer elua_int_add id (w_sched w) (w_vtmr w) (w_int w); Some (0, with_vt w r)
        | PLATFORM_TIMER_OP_READ =>
            c ← vtmr_counters (w_vtmr w) !! Z.to_nat (VTMR_GET_ID id); Some (c, w)
        | PLATFORM_TIMER_OP_GET_MAX_DELAY => diff id 0 0xFFFFFFFF w
        | PLATFORM_TIMER_OP_GET_MIN_DELAY => diff id 0 1 w
        | PLATFORM_TIMER_OP_GET_MAX_CNT => Some (tdt VTMR_MAX_PERIOD, w)
        | PLATFORM_TIMER_OP_SET_CLOCK | PLATFORM_TIMER_OP_GET_CLOCK => Some (tdt VTMR_FREQ_HZ, w)
        end
  end.
Definition platform_timer_op := timer_op_depth 2.
Definition platform_timer_get_diff_us := timer_get_diff_us platform_timer_op.

(** Reads of the system timer until enough time has passed. *)
Fixpoint sys_delay_loop (fuel : nat) (tstart delay_us : Z) (h : H) : option H :=
  match fuel with
  | O => None
  | S fuel =>
      let '(tend, h) := platform_timer_read_sys h in
      let tend := if tend <? tstart then u64 (tend + (PLATFORM_TIMER_SYS_MAX + 1)) else tend in
      if u64 (tend - tstart) >=? delay_us then Some h else sys_delay_loop fuel tstart delay_us h
  end.
Definition platform_timer_delay (fuel : nat) (id delay_us : Z) (w : world) : option world :=
  if TIMER_IS_VIRTUAL id then
    r ← vtmr_delay elua_int_add id delay_us (w_sched w) (w_vtmr w) (w_int w); Some (with_vt w r)
  else if id =? PLATFORM_TIMER_SYS_ID then
    if delay_us >? 0 then
      let '(tstart, h) := platform_timer_read_sys (w_hw w) in
      h ← sys_delay_loop fuel tstart delay_us h; Some (with_hw w (0, h)).2
    else Some w
  else Some (with_hw w (0, platform_s_timer_delay id delay_us (w_hw w))).2.

Definition platform_timer_set_match_int (id period_us type : Z) (w : world) : option (Z * world) :=
  if TIMER_IS_VIRTUAL id then
    '(res, r) ← vtmr_set_match_int elua_int_add id period_us type (w_sched w) (w_vtmr w) (w_int w);
    Some (res, with_vt w r)
  else if id =? PLATFORM_TIMER_SYS_ID then Some (PLATFORM_TIMER_INT_INVALID_ID, w)
  else Some (with_hw w (platform_s_timer_set_match_int id period_us type (w_hw w))).

Definition cmn_tmr_int_set_status (resnum status : Z) (w : world) : option (Z * world) :=
  if TIMER_IS_VIRTUAL resnum then
    '(prev, t) ← vtmr_int_set_status resnum status (w_vtmr w);
    Some (Z.b2z prev, mkWorld (w_sched w) t (w_int w) (w_hw w))
  else if resnum =? PLATFORM_TIMER_SYS_ID then Some (PLATFORM_INT_BAD_RESNUM, w)
  else match int_set_status with
       | None => Some (PLATFORM_INT_NOT_HANDLED, w)
       | Some ps => Some (with_hw w (ps resnum status (w_hw w)))
       end.
Definition cmn_tmr_int_get_status (resnum : Z) (w : world) : option (Z * world) :=
  if TIMER_IS_VIRTUAL resnum then
    st ← vtmr_int_get_status resnum (w_vtmr w); Some (Z.b2z st, w)
  else if resnum =? PLATFORM_TIMER_SYS_ID then Some (PLATFORM_INT_BAD_RESNUM, w)
  else match int_get_status with
       | None => Some (PLATFORM_INT_NOT_HANDLED, w)
       | Some pg => Some (with_hw w (pg resnum (w_hw w)))
       end.
Definition cmn_tmr_int_get_flag (resnum : Z) (clear : bool) (w : world) : option (Z * world) :=
  if TIMER_IS_VIRTUAL resnum then
    '(st, t) ← vtmr_int_get_flag resnum clear (w_vtmr w);
    Some (Z.b2z st, mkWorld (w_sched w) t (w_int w) (w_hw w))
  else if resnum =? PLATFORM_TIMER_SYS_ID then Some (PLATFORM_INT_BAD_RESNUM, w)
  else match int_get_flag with
       | None => Some (PLATFORM_INT_NOT_HANDLED, w)
       | Some pf => Some (with_hw w (pf resnum clear (w_hw w)))
       end.
End Platform.
End Timers.

(** ** The generic system timer

    The variables; reads of [cmn_systimer_counter] are volatile, and the
    interrupt may come between any two of them. *)

Record systimer := mkSys {
  cmn_systimer_ticks_for_us : Z;
  cmn_systimer_counter : Z;
  cmn_systimer_us_per_interrupt : Z
}.
Definition cmn_systimer_set_base_freq (freq_hz : Z) (s : systimer) : systimer :=
  mkSys (freq_hz / 1000000) (cmn_systimer_counter s) (cmn_systimer_us_per_interrupt s).
(** [None]: division by zero. *)
Definition cmn_systimer_set_interrupt_freq (freq_hz : Z) (s : systimer) : option systimer :=
  if freq_hz =? 0 then None
  else Some (mkSys (cmn_systimer_ticks_for_us s) (cmn_systimer_counter s) (u32 (1000000 / freq_hz))).
Definition cmn_systimer_set_interrupt_period_us (period : Z) (s : systimer) : systimer :=
  mkSys (cmn_systimer_ticks_for_us s) (cmn_systimer_counter s) period.
Definition cmn_systimer_periodic (s : systimer) : systimer :=
  mkSys (cmn_systimer_ticks_for_us s) (u64 (cmn_systimer_counter s + cmn_systimer_us_per_interrupt s))
    (cmn_systimer_us_per_interrupt s).

Section Systimer.
Context {cfg : config}.
(** What happens before each access to the hardware or to the counter: time
    passes, and interrupts are handled. *)
Context {H : Type} (pass : systimer -> H -> systimer * H) (platform_timer_sys_raw_read : H -> Z).

(** A read of the counter; a read of the hardware. *)
Definition read_counter (s : systimer) (h : H) : Z * (systimer * H) :=
  let '(s, h) := pass s h in (cmn_systimer_counter s, (s, h)).
Definition read_raw (s : systimer) (h : H) : Z * (systimer * H) :=
  let '(s, h) := pass s h in (platform_timer_sys_raw_read h, (s, h)).

(** [tempsys] and [tempcnt], until a second read of the counter agrees. *)
Fixpoint systimer_read_loop (fuel : nat) (tempsys tempcnt : Z) (s : systimer) (h : H)
  : option (Z * Z * (systimer * H)) :=
  match fuel with
  | O => None
  | S fuel =>
      let '(crtsys, (s, h)) := read_counter s h in
      if negb (crtsys =? tempsys) then
        let '(tempcnt, (s, h)) := read_raw s h in systimer_read_loop fuel crtsys tempcnt s h
      else Some (crtsys, tempcnt, (s, h))
  end.
(** Interrupts are disabled while the counter is corrected. *)
Definition cmn_systimer_get (fuel : nat) (s : systimer) (h : H) : option (Z * (systimer * H)) :=
  let '(tempsys, (s, h)) := read_counter s h in
  let '(tempcnt, (s, h)) := read_raw s h in
  '(crtsys, tempcnt, (s, h)) ← systimer_read_loop fuel tempsys tempcnt s h;
  if cmn_systimer_ticks_for_us s =? 0 then None else
  let crtsys := u64 (crtsys + tempcnt / cmn_systimer_ticks_for_us s) in
  if crtsys >? PLATFORM_TIMER_SYS_MAX then
    let crtsys := crtsys - PLATFORM_TIMER_SYS_MAX in
    let '(s, h) := pass s h in
    let s := if cmn_systimer_counter s >? PLATFORM_TIMER_SYS_MAX
             then mkSys (cmn_systimer_ticks_for_us s) (cmn_systimer_counter s - PLATFORM_TIMER_SYS_MAX)
                    (cmn_systimer_us_per_interrupt s)
             else s in
    Some (tdt crtsys, (s, h))
  else Some (tdt crtsys, (s, h)).
End Systimer.

(** ** Arrays of flags *)

(** A byte has no bits from the eighth on. *)
Lemma u8_high_bits x k : is_u8 x -> 8 <= k -> Z.testbit x k = false.
Proof. intros Hx Hk. rewrite <- (u8_small x Hx). apply Z.mod_pow2_bits_high. lia. Qed.
Lemma u8_of_bits x : (forall k, 8 <= k -> Z.testbit x k = false) -> is_u8 x.
Proof.
  intros H. assert (u8 x = x) as <-; [|apply u8_is_u8]. unfold u8, wrap.
  apply Z.bits_inj'. intros k Hk. destruct (decide (k < 8)).
  - by rewrite Z.mod_pow2_bits_low by lia.
  - by rewrite Z.mod_pow2_bits_high, H by lia.
Qed.

Section Flags.
Context (n : nat).

Definition flags_ok (a : list Z) : Prop := length a = ((n + 7) / 8)%nat /\ Forall is_u8 a.

Lemma flag_index i : (i < n)%nat ->
  (Z.to_nat (Z.shiftr (Z.of_nat i) 3) < (n + 7) / 8)%nat.
Proof.
  intros Hi. rewrite Z.shiftr_div_pow2 by lia. change (2 ^ 3) with 8.
  apply Nat2Z.inj_lt. rewrite Nat2Z.inj_div. Z.to_euclidean_division_equations. lia.
Qed.
Lemma land7 i : Z.land (Z.of_nat i) 0x07 = Z.of_nat i mod 8.
Proof. apply (land_mask (Z.of_nat i) 3). lia. Qed.
Lemma msk_pow i : msk (Z.of_nat i) = 2 ^ (Z.of_nat i mod 8).
Proof.
  unfold msk. rewrite land7, Z.shiftl_1_l. apply u8_small.
  pose proof (Z.mod_pos_bound (Z.of_nat i) 8 ltac:(lia)). unfold is_u.
  split; [lia|]. apply Z.pow_lt_mono_r; lia.
Qed.
Lemma flag_get_bit a i b : a !! Z.to_nat (Z.shiftr (Z.of_nat i) 3) = Some b ->
  flag_get a (Z.of_nat i) = Some (Z.testbit b (Z.of_nat i mod 8)).
Proof.
  intros H. unfold flag_get. rewrite H. cbn [mbind option_bind]. rewrite msk_pow.
  rewrite <- Z.shiftl_1_l, land_bit; [done|]. apply Z.mod_pos_bound. lia.
Qed.
Lemma flag_byte a i : flags_ok a -> (i < n)%nat ->
  exists b, a !! Z.to_nat (Z.shiftr (Z.of_nat i) 3) = Some b /\ is_u8 b.
Proof.
  intros [Hl Hb] Hi. destruct (a !! Z.to_nat (Z.shiftr (Z.of_nat i) 3)) as [b|] eqn:E.
  - exists b. split; [done|]. by eapply Forall_lookup_1.
  - apply lookup_ge_None in E. pose proof (flag_index i Hi). lia.
Qed.
Lemma flag_get_some a i : flags_ok a -> (i < n)%nat -> exists b, flag_get a (Z.of_nat i) = Some b.
Proof. intros Ha Hi. destruct (flag_byte a i Ha Hi) as (b & E & _). rewrite (flag_get_bit _ _ _ E). eauto. Qed.

(** Changing a byte in bit [i mod 8] only changes flag [i]. *)
Lemma flag_update a i f : flags_ok a -> (i < n)%nat ->
  (forall b, is_u8 b -> is_u8 (f b)) ->
  (forall b k, 0 <= k < 8 -> k <> Z.of_nat i mod 8 -> Z.testbit (f b) k = Z.testbit b k) ->
  exists b, let k := Z.to_nat (Z.shiftr (Z.of_nat i) 3) in a !! k = Some b /\
    flags_ok (<[k := f b]> a) /\
    flag_get (<[k := f b]> a) (Z.of_nat i) = Some (Z.testbit (f b) (Z.of_nat i mod 8)) /\
    forall j, (j < n)%nat -> j <> i -> flag_get (<[k := f b]> a) (Z.of_nat j) = flag_get a (Z.of_nat j).
Proof.
  intros Ha Hi Hu Hf. destruct (flag_byte a i Ha Hi) as (b & E & Hb). exists b. cbv zeta.
  pose proof (lookup_lt_Some _ _ _ E) as Hlt. destruct Ha as [Hl Hall]. split_and!; [done| | |].
  - split; [by rewrite length_insert|]. apply Forall_insert; [done|by apply Hu].
  - apply flag_get_bit. by apply list_lookup_insert_eq.
  - intros j Hj Hne. destruct (flag_byte a j (conj Hl Hall) Hj) as (bj & Ej & _).
    destruct (decide (Z.to_nat (Z.shiftr (Z.of_nat i) 3) = Z.to_nat (Z.shiftr (Z.of_nat j) 3))) as [Heq|Hk].
    + rewrite (flag_get_bit _ j (f b)) by (rewrite <- Heq; by apply list_lookup_insert_eq).
      rewrite (flag_get_bit a j b) by (by rewrite <- Heq). f_equal. apply Hf.
      * apply Z.mod_pos_bound. lia.
      * rewrite !Z.shiftr_div_pow2 in Heq by lia. change (2 ^ 3) with 8 in Heq.
        Z.to_euclidean_division_equations. lia.
    + rewrite (flag_get_bit _ j bj) by (by rewrite list_lookup_insert_ne).
      by rewrite (flag_get_bit a j bj).
Qed.
Lemma flag_set_ok a i : flags_ok a -> (i < n)%nat ->
  exists a', flag_set a (Z.of_nat i) = Some a' /\ flags_ok a' /\
    flag_get a' (Z.of_nat i) = Some true /\
    forall j, (j < n)%nat -> j <> i -> flag_get a' (Z.of_nat j) = flag_get a (Z.of_nat j).
Proof.
  intros Ha Hi. pose proof (Z.mod_pos_bound (Z.of_nat i) 8 ltac:(lia)) as Hm.
  destruct (flag_update a i (fun b => Z.lor b (msk (Z.of_nat i))) Ha Hi) as (b & E & H1 & H2 & H3).
  - intros b Hb. apply u8_of_bits. intros k Hk.
    rewrite Z.lor_spec, !u8_high_bits by (done || apply u8_is_u8). done.
  - intros b' k Hk Hne. rewrite msk_pow, Z.lor_spec, Z.pow2_bits_false, orb_false_r by lia. done.
  - eexists. unfold flag_set. rewrite E. split; [done|]. split; [done|]. split; [|done].
    rewrite H2. rewrite Z.lor_spec, msk_pow, Z.pow2_bits_true, orb_true_r by lia. done.
Qed.
Lemma flag_clear_ok a i : flags_ok a -> (i < n)%nat ->
  exists a', flag_clear a (Z.of_nat i) = Some a' /\ flags_ok a' /\
    flag_get a' (Z.of_nat i) = Some false /\
    forall j, (j < n)%nat -> j <> i -> flag_get a' (Z.of_nat j) = flag_get a (Z.of_nat j).
Proof.
  intros Ha Hi. pose proof (Z.mod_pos_bound (Z.of_nat i) 8 ltac:(lia)) as Hm.
  assert (Hbit : forall k, 0 <= k < 8 -> Z.testbit (u8 (Z.lnot (msk (Z.of_nat i)))) k = negb (Z.of_nat i mod 8 =? k)).
  { intros k Hk. unfold u8, wrap. rewrite Z.mod_pow2_bits_low, Z.lnot_spec, msk_pow, Z.pow2_bits_eqb by lia. done. }
  destruct (flag_update a i (fun b => Z.land b (u8 (Z.lnot (msk (Z.of_nat i))))) Ha Hi) as (b & E & H1 & H2 & H3).
  - intros b Hb. apply u8_of_bits. intros k Hk. by rewrite Z.land_spec, u8_high_bits by done.
  - intros b' k Hk Hne. rewrite Z.land_spec, Hbit by lia.
    rewrite (proj2 (Z.eqb_neq _ _)) by lia. by rewrite andb_true_r.
  - eexists. unfold flag_clear. rewrite E. split; [done|]. split; [done|]. split; [|done].
    rewrite H2. rewrite Z.land_spec, Hbit, Z.eqb_refl, andb_false_r by lia. done.
Qed.
End Flags.

(** ** One virtual timer

    Every timer is on its own: its counter, limit and flags. *)

Record tmr := mkTmr { cnt : Z; lim : Z; per : bool; en : bool; fl : bool }.

(** A tick, and whether an interrupt is queued. *)
Definition tmr_tick (v : tmr) : tmr * bool :=
  let c := u32 (cnt v + 1) in
  if c >=? lim v then (mkTmr (if per v then 0 else c) (lim v) (per v) (per v && en v) true, en v)
  else (mkTmr c (lim v) (per v) (en v) (fl v), false).
Definition tmr_reset (v : tmr) : tmr := mkTmr 0 (lim v) (per v) (en v) (fl v).

Definition view (t : vtmr) (i : nat) : option tmr :=
  c ← vtmr_counters t !! i; l ← vtmr_period_limit t !! i;
  p ← flag_get (vtmr_int_periodic_flag t) (Z.of_nat i);
  e ← flag_get (vtmr_int_enabled t) (Z.of_nat i);
  f ← flag_get (vtmr_int_flag t) (Z.of_nat i);
  Some (mkTmr c l p e f).

Lemma view_inv t i v : view t i = Some v ->
  vtmr_counters t !! i = Some (cnt v) /\ vtmr_period_limit t !! i = Some (lim v) /\
  flag_get (vtmr_int_periodic_flag t) (Z.of_nat i) = Some (per v) /\
  flag_get (vtmr_int_enabled t) (Z.of_nat i) = Some (en v) /\
  flag_get (vtmr_int_flag t) (Z.of_nat i) = Some (fl v).
Proof.
  unfold view. intros H.
  destruct (vtmr_counters t !! i); simpl in H; [|done].
  destruct (vtmr_period_limit t !! i); simpl in H; [|done].
  destruct (flag_get (vtmr_int_periodic_flag t) _); simpl in H; [|done].
  destruct (flag_get (vtmr_int_enabled t) _); simpl in H; [|done].
  destruct (flag_get (vtmr_int_flag t) _); simpl in H; [|done].
  by injection H as <-.
Qed.
Lemma view_intro t i c l p e f :
  vtmr_counters t !! i = Some c -> vtmr_period_limit t !! i = Some l ->
  flag_get (vtmr_int_periodic_flag t) (Z.of_nat i) = Some p ->
  flag_get (vtmr_int_enabled t) (Z.of_nat i) = Some e ->
  flag_get (vtmr_int_flag t) (Z.of_nat i) = Some f -> view t i = Some (mkTmr c l p e f).
Proof. intros H1 H2 H3 H4 H5. unfold view. by rewrite H1, H2, H3, H4, H5. Qed.
(** The view only looks at five cells. *)
Lemma view_ext t t' j : vtmr_counters t' !! j = vtmr_counters t !! j ->
  vtmr_period_limit t' !! j = vtmr_period_limit t !! j ->
  flag_get (vtmr_int_periodic_flag t') (Z.of_nat j) = flag_get (vtmr_int_periodic_flag t) (Z.of_nat j) ->
  flag_get (vtmr_int_enabled t') (Z.of_nat j) = flag_get (vtmr_int_enabled t) (Z.of_nat j) ->
  flag_get (vtmr_int_flag t') (Z.of_nat j) = flag_get (vtmr_int_flag t) (Z.of_nat j) ->
  view t' j = view t j.
Proof. intros H1 H2 H3 H4 H5. unfold view. by rewrite H1, H2, H3, H4, H5. Qed.

Section Ticks.
Context {cfg : config} {Q : Type} (add : Z -> Z -> Q -> Q).
Abbreviation N := VTMR_NUM_TIMERS.

Record vt_ok (t : vtmr) : Prop := {
  ok_counters : length (vtmr_counters t) = N;
  ok_limits : length (vtmr_period_limit t) = N;
  ok_per : flags_ok N (vtmr_int_periodic_flag t);
  ok_en : flags_ok N (vtmr_int_enabled t);
  ok_fl : flags_ok N (vtmr_int_flag t)
}.

Lemma view_some t i : vt_ok t -> (i < N)%nat -> exists v, view t i = Some v.
Proof.
  intros [Hc Hl Hp He Hf] Hi.
  destruct (lookup_lt_is_Some_2 (vtmr_counters t) i) as [c Hc']; [by rewrite Hc|].
  destruct (lookup_lt_is_Some_2 (vtmr_period_limit t) i) as [l Hl']; [by rewrite Hl|].
  destruct (flag_get_some N _ i Hp Hi) as [p Hp']. destruct (flag_get_some N _ i He Hi) as [e He'].
  destruct (flag_get_some N _ i Hf Hi) as [f Hf'].
  eexists. by apply view_intro.
Qed.
Lemma view_lt t i v : vt_ok t -> view t i = Some v -> (i < N)%nat.
Proof. intros Ht (H & _)%view_inv. rewrite <- (ok_counters t Ht). by eapply lookup_lt_Some. Qed.

(** Queueing the interrupt of timer [i]. *)
Definition post (i : nat) (q : Q) : Q := add INT_TMR_MATCH (Z.of_nat i + VTMR_FIRST_ID) q.

Lemma vtmr_tick_view i t q v : vt_ok t -> view t i = Some v ->
  exists t', vtmr_tick add i t q = Some (t', if (tmr_tick v).2 then post i q else q) /\
    vt_ok t' /\ vtmr_reset_idx t' = vtmr_reset_idx t /\ view t' i = Some (tmr_tick v).1 /\
    forall j, (j < N)%nat -> j <> i -> view t' j = view t j.
Proof.
  intros Hok Hv. pose proof (view_lt t i v Hok Hv) as Hi.
  apply view_inv in Hv as (Hc & Hl & Hp & He & Hf). destruct Hok as [Oc Ol Op Oe Of].
  unfold vtmr_tick, tmr_tick. rewrite Hc. cbn [mbind option_bind].
  cbn [vtmr_period_limit set_counters]. rewrite Hl. cbn [mbind option_bind].
  assert (Hins : forall x, <[i:=x]> (vtmr_counters t) !! i = Some x)
    by (intros x; apply list_lookup_insert_eq; rewrite Oc; done).
  assert (Hne : forall x j, j <> i -> <[i:=x]> (vtmr_counters t) !! j = vtmr_counters t !! j)
    by (intros x j Hj; by apply list_lookup_insert_ne).
  destruct (u32 (cnt v + 1) >=? lim v) eqn:E.
  - destruct (flag_set_ok N _ i Of Hi) as (fl' & Ef & Of' & Hf' & Hfj).
    cbn [vtmr_int_flag set_counters]. rewrite Ef. cbn [mbind option_bind].
    cbn [vtmr_int_enabled vtmr_int_periodic_flag set_flag set_counters]. rewrite He, Hp. cbn [mbind option_bind].
    destruct (per v) eqn:Ep; cbn [fst snd andb].
    + eexists. split; [done|]. cbn. split; [|split; [done|split]].
      * split; cbn; try done. by rewrite !length_insert.
      * apply view_intro; cbn; try done. rewrite list_insert_insert_eq. apply Hins.
      * intros j Hj Hji. apply view_ext; cbn; try done; [|by apply Hfj].
        rewrite list_insert_insert_eq. by apply Hne.
    + destruct (flag_clear_ok N _ i Oe Hi) as (en' & Ee & Oe' & He' & Hej). rewrite Ee. cbn [mbind option_bind].
      eexists. split; [done|]. cbn. split; [|split; [done|split]].
      * split; cbn; try done. by rewrite length_insert.
      * apply view_intro; cbn; done.
      * intros j Hj Hji. apply view_ext; cbn; [by apply Hne|done|done|by apply Hej|by apply Hfj].
  - eexists. split; [done|]. cbn. split; [|split; [done|split]].
    + split; cbn; try done. by rewrite length_insert.
    + apply view_intro; cbn; done.
    + intros j Hj Hji. apply view_ext; cbn; try done. by apply Hne.
Qed.

(** Whether the next tick queues an interrupt of timer [k]. *)
Definition fires (t : vtmr) (k : nat) : bool :=
  match view t k with Some v => (tmr_tick v).2 | None => false end.
Definition post_all (t : vtmr) (ks : list nat) (q : Q) : Q :=
  foldl (fun q k => if fires t k then post k q else q) q ks.

Lemma tick_from_view t0 n i t q : vt_ok t -> (i + n <= N)%nat ->
  (forall k, (i <= k < i + n)%nat -> view t k = view t0 k) ->
  exists t', vtmr_tick_from add n i t q = Some (t', post_all t0 (seq i n) q) /\
    vt_ok t' /\ vtmr_reset_idx t' = vtmr_reset_idx t /\
    (forall k, (i <= k < i + n)%nat -> view t' k = (fun v => (tmr_tick v).1) <$> view t0 k) /\
    forall k, (k < N)%nat -> ~ (i <= k < i + n)%nat -> view t' k = view t k.
Proof.
  revert i t q. induction n as [|n IH]; intros i t q Hok Hn Hv.
  - exists t. split_and!; try done. intros. lia.
  - destruct (view_some t i Hok ltac:(lia)) as [v Hvi].
    destruct (vtmr_tick_view i t q v Hok Hvi) as (t1 & E & Hok1 & Hr1 & Hi1 & Ho1).
    cbn [vtmr_tick_from]. rewrite E. cbn [mbind option_bind].
    assert (Hv0 : view t0 i = Some v) by (rewrite <- Hv by lia; done).
    destruct (IH (S i) t1 (if (tmr_tick v).2 then post i q else q)) as (t' & E' & Hok' & Hr' & Hin & Hout);
      [done|lia|intros k Hk; rewrite Ho1 by lia; apply Hv; lia|].
    exists t'. rewrite E'. unfold post_all. cbn [seq foldl].
    assert (Hf : fires t0 i = (tmr_tick v).2) by (unfold fires; by rewrite Hv0).
    rewrite Hf. split; [done|]. split; [done|]. split; [by rewrite Hr'|]. split.
    + intros k Hk. destruct (decide (k = i)) as [->|].
      * rewrite Hout by lia. by rewrite Hi1, Hv0.
      * apply Hin. lia.
    + intros k Hk Hnot. rewrite Hout by lia. apply Ho1; [done|lia].
Qed.

Lemma s8_small i : (i <= 127)%nat -> s8 (Z.of_nat i) = Z.of_nat i.
Proof.
  intros Hi. unfold s8, swrap. rewrite wrap_small by (unfold is_u; lia).
  change (2 ^ (8 - 1)) with 128. by rewrite (proj2 (Z.ltb_lt _ _)) by lia.
Qed.
Definition reset_ok (t : vtmr) : Prop := vtmr_reset_idx t = -1 \/ exists i, (i < N)%nat /\ vtmr_reset_idx t = Z.of_nat i.

(** A call of the callback: every timer ticks, in order; one may be reset. *)
Lemma cb_view t q : vt_ok t -> reset_ok t ->
  exists t', cmn_virtual_timer_cb add t q = Some (t', post_all t (seq 0 N) q) /\
    vt_ok t' /\ vtmr_reset_idx t' = -1 /\
    forall k v, view t k = Some v -> view t' k =
      Some (if decide (vtmr_reset_idx t = Z.of_nat k) then tmr_reset (tmr_tick v).1 else (tmr_tick v).1).
Proof.
  intros Hok Hr. unfold cmn_virtual_timer_cb.
  destruct (tick_from_view t N 0 t q Hok ltac:(lia) ltac:(done)) as (t1 & -> & Hok1 & Hr1 & Hin & _).
  cbn [mbind option_bind]. rewrite Hr1.
  assert (Hv1 : forall k v, view t k = Some v -> view t1 k = Some (tmr_tick v).1).
  { intros k v Hv. pose proof (view_lt t k v Hok Hv). rewrite Hin by lia. by rewrite Hv. }
  destruct Hr as [Hr|(i & Hi & Hr)]; rewrite Hr.
  - exists t1. cbn [negb Z.eqb]. split; [done|]. split; [done|]. split; [by rewrite Hr1|].
    intros k v Hv. rewrite decide_False by lia. by apply Hv1.
  - rewrite (proj2 (Z.eqb_neq (Z.of_nat i) (-1))), (proj2 (Z.ltb_ge (Z.of_nat i) 0)) by lia. cbn [negb]. rewrite Nat2Z.id.
    destruct (lookup_lt_is_Some_2 (vtmr_counters t1) i) as [c Hc]; [by rewrite (ok_counters _ Hok1)|].
    rewrite Hc. cbn [mbind option_bind]. eexists. split; [done|]. split.
    + destruct Hok1 as [Oc Ol Op Oe Of]. split; cbn; try done. by rewrite length_insert.
    + split; [done|]. intros k v Hv. specialize (Hv1 k v Hv). pose proof (view_lt t k v Hok Hv) as Hk.
      destruct (decide (Z.of_nat i = Z.of_nat k)) as [Heq|Hne].
      * apply Nat2Z.inj in Heq as ->. apply view_inv in Hv1 as (_ & ? & ? & ? & ?).
        apply view_intro; cbn; try done. apply list_lookup_insert_eq. by rewrite (ok_counters _ Hok1).
      * rewrite <- Hv1. apply view_ext; cbn; try done. apply list_lookup_insert_ne. lia.
Qed.
End Ticks.

(** ** All operations keep the state well formed *)

Section Typed.
Context {cfg : config} {Q : Type} (add : Z -> Z -> Q -> Q) (Hsmall : (VTMR_NUM_TIMERS <= 128)%nat).
Abbreviation N := VTMR_NUM_TIMERS.

(** Arrays of the right size, 32-bit counters and limits, and no reset under
    way. *)
Record vt_typed (t : vtmr) : Prop := {
  ty_ok : vt_ok t;
  ty_counters : Forall is_u32 (vtmr_counters t);
  ty_limits : Forall is_u32 (vtmr_period_limit t);
  ty_reset : vtmr_reset_idx t = -1
}.

Lemma tmr_tick_u32 v : is_u32 (cnt (tmr_tick v).1) /\ lim (tmr_tick v).1 = lim v.
Proof.
  unfold tmr_tick. destruct (_ >=? _); [|split; [apply u32_is_u32|done]]. cbn [fst cnt lim].
  split; [|done]. destruct (per v); [by_decide|apply u32_is_u32].
Qed.
Lemma cb_typed t q : vt_ok t -> reset_ok t -> Forall is_u32 (vtmr_period_limit t) ->
  exists t' q', cmn_virtual_timer_cb add t q = Some (t', q') /\ vt_typed t'.
Proof.
  intros Hok Hr Hl. destruct (cb_view add t q Hok Hr) as (t' & E & Hok' & Hr' & Hv).
  eexists _, _. split; [exact E|].
  assert (Hall : forall k, (k < N)%nat -> exists v', view t' k = Some v' /\ is_u32 (cnt v') /\ is_u32 (lim v')).
  { intros k Hk. destruct (view_some t k Hok Hk) as [v Hvk]. rewrite (Hv k v Hvk). eexists. split; [done|].
    destruct (tmr_tick_u32 v) as [Hc Hlim]. apply view_inv in Hvk as (_ & Hlk & _).
    assert (is_u32 (lim v)) by (by eapply (Forall_lookup_1 _ _ _ _ Hl)).
    case_decide; cbn [tmr_reset cnt lim]; rewrite ?Hlim; (split; [|done]); [by_decide|done]. }
  split; [done| | |done]; apply Forall_lookup; intros k x Hx.
  - destruct (Hall k) as (v' & Hv' & Hc & _); [rewrite <- (ok_counters _ Hok'); by eapply lookup_lt_Some|].
    apply view_inv in Hv' as (Hx' & _). congruence.
  - destruct (Hall k) as (v' & Hv' & _ & Hc); [rewrite <- (ok_limits _ Hok'); by eapply lookup_lt_Some|].
    apply view_inv in Hv' as (_ & Hx' & _). congruence.
Qed.
Lemma reset_typed t q i sched : vt_ok t -> Forall is_u32 (vtmr_period_limit t) -> (i < N)%nat -> true ∈ sched ->
  exists r t' q', vtmr_reset_timer add (Z.of_nat i + VTMR_FIRST_ID) sched t q = Some (r, t', q') /\ vt_typed t'.
Proof.
  intros Hok Hl Hi Hs. unfold vtmr_reset_timer, VTMR_GET_ID. rewrite Z.add_simpl_r.
  rewrite s8_small by lia.
  destruct (cb_typed (set_reset_idx t (Z.of_nat i)) q) as (t1 & q1 & E & Ht1);
    [by destruct Hok|right; by exists i|done|].
  induction sched as [|b sched IH]; [by apply not_elem_of_nil in Hs|]. cbn [poll]. destruct b.
  - rewrite E. cbn [mbind option_bind]. rewrite (ty_reset _ Ht1). by exists sched, t1, q1.
  - apply elem_of_cons in Hs as [?|Hs]; [done|]. cbn [mbind option_bind].
    change (vtmr_reset_idx (set_reset_idx t (Z.of_nat i))) with (Z.of_nat i).
    rewrite (proj2 (Z.eqb_neq _ (-1))) by lia. by apply IH.
Qed.

(** The operations on virtual timers; those that wait come with the polls. *)
Inductive vop :=
  | V_tick
  | V_start (i : nat) (sched : list bool)
  | V_match (i : nat) (period_us type : Z) (sched : list bool)
  | V_flag (i : nat) (clear : bool)
  | V_status (i : nat) (status : Z).
Definition vid (i : nat) : Z := Z.of_nat i + VTMR_FIRST_ID.
Definition run_vop (op : vop) (t : vtmr) (q : Q) : option (vtmr * Q) :=
  match op with
  | V_tick => cmn_virtual_timer_cb add t q
  | V_start i sched => '(_, t, q) ← vtmr_reset_timer add (vid i) sched t q; Some (t, q)
  | V_match i period_us type sched =>
      '(_, (_, t, q)) ← vtmr_set_match_int add (vid i) period_us type sched t q; Some (t, q)
  | V_flag i clear => '(_, t) ← vtmr_int_get_flag (vid i) clear t; Some (t, q)
  | V_status i status => '(_, t) ← vtmr_int_set_status (vid i) status t; Some (t, q)
  end.
Definition run_vops (ops : list vop) (t : vtmr) (q : Q) : option (vtmr * Q) :=
  foldl (fun r op => '(t, q) ← r; run_vop op t q) (Some (t, q)) ops.
Definition vop_ok (op : vop) : Prop :=
  match op with
  | V_tick => True
  | V_start i sched | V_match i _ _ sched => (i < N)%nat /\ true ∈ sched
  | V_flag i _ | V_status i _ => (i < N)%nat
  end.

Lemma typed_flags t p e f : vt_typed t -> flags_ok N p -> flags_ok N e -> flags_ok N f ->
  vt_typed (mkVtmr (vtmr_counters t) (vtmr_reset_idx t) (vtmr_period_limit t) p e f).
Proof. by intros [[? ? ? ? ?] ? ? ?] ? ? ?. Qed.
Lemma run_vop_typed op t q : vt_typed t -> vop_ok op -> exists t' q', run_vop op t q = Some (t', q') /\ vt_typed t'.
Proof.
  intros Ht Hop. pose proof Ht as [Hok Hc Hl Hr]. pose proof Hok as [Oc Ol Op Oe Of].
  destruct op as [|i sched|i p ty sched|i clear|i status]; cbn [run_vop vop_ok] in *;
    unfold vtmr_set_match_int, vtmr_int_get_flag, vtmr_int_set_status, vid, VTMR_GET_ID.
  - by apply cb_typed; [|left|].
  - destruct Hop as [Hi Hs]. destruct (reset_typed t q i sched Hok Hl Hi Hs) as (r & t' & q' & E & Ht').
    rewrite E. by exists t', q'.
  - destruct Hop as [Hi Hs]. rewrite Z.add_simpl_r, Nat2Z.id.
    destruct (flag_clear_ok N _ i Oe Hi) as (en' & Ee & Oe' & _).
    destruct (flag_clear_ok N _ i Of Hi) as (fl' & Ef & Of' & _).
    destruct (flag_clear_ok N _ i Op Hi) as (pc & Ec & Oc' & _).
    destruct (flag_set_ok N _ i Op Hi) as (ps & Es & Os' & _).
    destruct (p =? 0).
    { rewrite Ee, Ef, Ec. eexists _, _. split; [done|]. by apply (typed_flags t). }
    destruct (_ >? VTMR_MAX_PERIOD); [by eexists _, _|]. destruct (_ =? 0); [by eexists _, _|].
    cbn [set_limit set_periodic set_flag vtmr_counters vtmr_reset_idx vtmr_period_limit vtmr_int_periodic_flag
         vtmr_int_enabled vtmr_int_flag].
    assert (exists per', (if ty =? PLATFORM_TIMER_INT_ONESHOT then flag_clear (vtmr_int_periodic_flag t) (Z.of_nat i)
        else flag_set (vtmr_int_periodic_flag t) (Z.of_nat i)) = Some per' /\ flags_ok N per') as (per' & -> & Oper)
      by (destruct (ty =? _); eauto).
    cbn [mbind option_bind]. rewrite Ef. cbn [mbind option_bind].
    match goal with |- context [vtmr_reset_timer _ _ _ ?t0 _] =>
      destruct (reset_typed t0 q i sched) as (r & t' & q' & -> & [Hok' Hc' Hl' Hr']) end; try done.
    + split; cbn; try done. by rewrite length_insert.
    + cbn. apply Forall_insert; [done|apply u32_is_u32].
    + cbn [mbind option_bind].
      destruct (flag_set_ok N _ i (ok_en _ Hok') Hi) as (en2 & E2 & O2 & _). rewrite E2.
      eexists _, _. split; [done|]. destruct Hok'. by apply (typed_flags t').
  - rewrite Z.add_simpl_r. destruct (flag_get_some N _ i Of Hop) as [b ->]. cbn [mbind option_bind].
    destruct clear; [|by exists t, q].
    destruct (flag_clear_ok N _ i Of Hop) as (fl' & -> & Of' & _). cbn [mbind option_bind].
    eexists _, _. split; [done|]. by apply (typed_flags t).
  - rewrite Z.add_simpl_r. destruct (flag_get_some N _ i Oe Hop) as [b ->]. cbn [mbind option_bind].
    assert (exists en', (if status =? PLATFORM_CPU_ENABLE then flag_set (vtmr_int_enabled t) (Z.of_nat i)
        else flag_clear (vtmr_int_enabled t) (Z.of_nat i)) = Some en' /\ flags_ok N en') as (en' & -> & Oen').
    { destruct (status =? _).
      - destruct (flag_set_ok N _ i Oe Hop) as (a & ? & ? & _); eauto.
      - destruct (flag_clear_ok N _ i Oe Hop) as (a & ? & ? & _); eauto. }
    eexists _, _. split; [done|]. by apply (typed_flags t).
Qed.

(** C39: on a board with at most 128 virtual timers (the index of the timer to
    reset is a signed byte; see [too_many_timers] for more of them), the state of
    the virtual timers keeps its type whatever is done with them: from a state with
    arrays of the right size, 32-bit counters and limits and byte flags, any
    sequence of ticks, resets, match interrupts, and reads and changes of flags of
    existing timers returns, never accesses an array outside its bounds, and ends in
    such a state with no reset left to do - provided a tick comes in each wait. *)
Theorem vtmr_ops_typed ops t q : vt_typed t -> Forall vop_ok ops ->
  exists t' q', run_vops ops t q = Some (t', q') /\ vt_typed t'.
Proof.
  unfold run_vops. revert t q. induction ops as [|op ops IH]; intros t q Ht Hops; [by exists t, q|].
  apply Forall_cons in Hops as [Hop Hops]. cbn [foldl mbind option_bind].
  destruct (run_vop_typed op t q Ht Hop) as (t1 & q1 & -> & Ht1). by apply IH.
Qed.
End Typed.

(** ** Match interrupts arrive when they should *)

(** [n] ticks of one timer: its state, and the interrupts queued. *)
Fixpoint tmr_run (n : nat) (v : tmr) : tmr * Z :=
  match n with
  | O => (v, 0)
  | S n => let '(v, e) := tmr_tick v in let '(v, k) := tmr_run n v in (v, Z.b2z e + k)
  end.

Lemma run_cyclic n c P f : 0 <= c < P -> P < 2 ^ 32 ->
  (tmr_run n (mkTmr c P true true f)).2 = (c + Z.of_nat n) / P.
Proof.
  intros Hc HP. revert c f Hc. induction n as [|n IH]; intros c f Hc.
  - cbn [tmr_run snd]. rewrite Z.add_0_r. symmetry. apply Z.div_small. done.
  - cbn [tmr_run]. unfold tmr_tick. cbn [cnt lim per en fl andb].
    assert (Hu : u32 (c + 1) = c + 1) by (apply u32_small; word_lia). rewrite Hu.
    destruct (Z.geb_spec (c + 1) P).
    + assert (P = c + 1) as -> by lia. specialize (IH 0 true ltac:(lia)).
      destruct (tmr_run n _) as [v k]. cbn [snd] in *. rewrite IH. cbn [Z.b2z].
      replace (c + Z.of_nat (S n)) with (1 * (c + 1) + Z.of_nat n) by lia.
      rewrite Z.div_add_l by lia. done.
    + specialize (IH (c + 1) f ltac:(lia)). destruct (tmr_run n _) as [v k]. cbn [snd] in *.
      rewrite IH. cbn [Z.b2z]. rewrite Z.add_0_l. f_equal. lia.
Qed.
Lemma run_disabled n c P f : (tmr_run n (mkTmr c P false false f)).2 = 0.
Proof.
  revert c f. induction n as [|n IH]; intros c f; [done|]. cbn [tmr_run]. unfold tmr_tick.
  cbn [cnt lim per en fl andb]. destruct (u32 (c + 1) >=? P).
  - specialize (IH (u32 (c + 1)) true). destruct (tmr_run n _) as [v k]. cbn in *. lia.
  - specialize (IH (u32 (c + 1)) f). destruct (tmr_run n _) as [v k]. cbn in *. lia.
Qed.
Lemma run_oneshot n c P f : 0 <= c < P -> P < 2 ^ 32 ->
  (tmr_run n (mkTmr c P false true f)).2 = if P <=? c + Z.of_nat n then 1 else 0.
Proof.
  intros Hc HP. revert c f Hc. induction n as [|n IH]; intros c f Hc.
  - cbn [tmr_run snd]. by rewrite (proj2 (Z.leb_gt P _)) by lia.
  - cbn [tmr_run]. unfold tmr_tick. cbn [cnt lim per en fl andb].
    assert (Hu : u32 (c + 1) = c + 1) by (apply u32_small; word_lia). rewrite Hu.
    destruct (Z.geb_spec (c + 1) P).
    + pose proof (run_disabled n (c + 1) P true) as H0. destruct (tmr_run n _) as [v k].
      cbn [snd] in *. rewrite H0, (proj2 (Z.leb_le P _)) by lia. done.
    + specialize (IH (c + 1) f ltac:(lia)). destruct (tmr_run n _) as [v k]. cbn [snd] in *.
      rewrite IH. cbn [Z.b2z]. rewrite Z.add_0_l. by replace (c + 1 + Z.of_nat n) with (c + Z.of_nat (S n)) by lia.
Qed.

Section Match.
Context {cfg : config} (Hsmall : (VTMR_NUM_TIMERS <= 128)%nat).
Abbreviation N := VTMR_NUM_TIMERS.

(** The interrupts that were queued. *)
Definition trace_add (n r : Z) (q : list (Z * Z)) : list (Z * Z) := q ++ [(n, r)].
Definition posted (i : nat) (q : list (Z * Z)) : Z :=
  Z.of_nat (length (filter (fun e => e = (INT_TMR_MATCH, Z.of_nat i + VTMR_FIRST_ID)) q)).

Lemma posted_post i k q : posted i (post trace_add k q) = posted i q + (if decide (k = i) then 1 else 0).
Proof.
  unfold posted, post, trace_add. rewrite filter_app, length_app, Nat2Z.inj_add. f_equal.
  rewrite filter_cons, filter_nil. destruct (decide (k = i)) as [->|Hne].
  - by rewrite decide_True.
  - rewrite decide_False; [done|]. intros [= ?]. lia.
Qed.
Lemma posted_post_all t i ks q : NoDup ks ->
  posted i (post_all trace_add t ks q) = posted i q + (if decide (i ∈ ks) then Z.b2z (fires t i) else 0).
Proof.
  unfold post_all. revert q. induction ks as [|k ks IH]; intros q Hnd; cbn [foldl].
  - rewrite decide_False by apply not_elem_of_nil. lia.
  - apply NoDup_cons in Hnd as [Hk Hnd]. rewrite IH by done.
    destruct (decide (k = i)) as [->|Hne].
    + rewrite (decide_False (P := i ∈ ks)), decide_True by (done || apply list_elem_of_here).
      destruct (fires t i); [|done]. rewrite posted_post, decide_True by done. cbn. lia.
    + assert (Hp : posted i (if fires t k then post trace_add k q else q) = posted i q).
      { destruct (fires t k); [|done]. rewrite posted_post, decide_False by done. lia. }
      rewrite Hp. f_equal. apply decide_ext. rewrite elem_of_cons. split; [by right|by intros [->|?]].
Qed.

Fixpoint ticks {Q} (add : Z -> Z -> Q -> Q) (n : nat) (t : vtmr) (q : Q) : option (vtmr * Q) :=
  match n with
  | O => Some (t, q)
  | S n => '(t, q) ← cmn_virtual_timer_cb add t q; ticks add n t q
  end.

Lemma cb_trace t q i v : vt_ok t -> reset_ok t -> view t i = Some v ->
  exists t' q', cmn_virtual_timer_cb trace_add t q = Some (t', q') /\ vt_ok t' /\ vtmr_reset_idx t' = -1 /\
    view t' i = Some (if decide (vtmr_reset_idx t = Z.of_nat i) then tmr_reset (tmr_tick v).1 else (tmr_tick v).1) /\
    posted i q' = posted i q + Z.b2z (tmr_tick v).2.
Proof.
  intros Hok Hr Hv. destruct (cb_view trace_add t q Hok Hr) as (t' & E & Hok' & Hr' & Hv').
  exists t', (post_all trace_add t (seq 0 N) q). split_and!; try done.
  - by apply Hv'.
  - rewrite posted_post_all by apply NoDup_seq. pose proof (view_lt t i v Hok Hv).
    rewrite decide_True by (apply elem_of_seq; lia). unfold fires. by rewrite Hv.
Qed.
Lemma ticks_run n t q i v : vt_ok t -> vtmr_reset_idx t = -1 -> view t i = Some v ->
  exists t' q', ticks trace_add n t q = Some (t', q') /\ vt_ok t' /\ vtmr_reset_idx t' = -1 /\
    view t' i = Some (tmr_run n v).1 /\ posted i q' = posted i q + (tmr_run n v).2.
Proof.
  revert t q v. induction n as [|n IH]; intros t q v Hok Hr Hv.
  - exists t, q. split_and!; try done. cbn. lia.
  - destruct (cb_trace t q i v Hok (or_introl Hr) Hv) as (t1 & q1 & E & Hok1 & Hr1 & Hv1 & Hp1).
    rewrite Hr, decide_False in Hv1 by lia.
    destruct (IH t1 q1 _ Hok1 Hr1 Hv1) as (t' & q' & E' & Hok' & Hr' & Hv' & Hp').
    exists t', q'. cbn [ticks tmr_run]. rewrite E. cbn [mbind option_bind].
    destruct (tmr_tick v) as [v1 e1]. cbn [fst snd] in *.
    destruct (tmr_run n v1) as [v2 k2]. cbn [fst snd] in *. split_and!; try done. lia.
Qed.

(** The wait for a reset lasts until the first tick. *)
Lemma reset_wait t q i v sched : vt_ok t -> view t i = Some v -> true ∈ sched ->
  exists k rest t' q', sched = replicate k false ++ true :: rest /\
    vtmr_reset_timer trace_add (Z.of_nat i + VTMR_FIRST_ID) sched t q = Some (rest, t', q') /\
    vt_ok t' /\ vtmr_reset_idx t' = -1 /\ view t' i = Some (tmr_reset (tmr_tick v).1) /\
    posted i q' = posted i q + Z.b2z (tmr_tick v).2.
Proof.
  intros Hok Hv Hs. pose proof (view_lt t i v Hok Hv) as Hi.
  unfold vtmr_reset_timer. unfold VTMR_GET_ID. rewrite Z.add_simpl_r.
  rewrite s8_small by lia. set (t0 := set_reset_idx t (Z.of_nat i)).
  assert (Hok0 : vt_ok t0) by (by destruct Hok).
  destruct (cb_trace t0 q i v Hok0) as (t1 & q1 & E & Hok1 & Hr1 & Hv1 & Hp1); [right; by exists i|done|].
  cbn [vtmr_reset_idx t0 set_reset_idx] in Hv1. rewrite decide_True in Hv1 by done.
  induction sched as [|b sched IH]; [by apply not_elem_of_nil in Hs|].
  cbn [poll]. destruct b.
  - exists 0%nat, sched, t1, q1. rewrite E. cbn [mbind option_bind]. rewrite Hr1. done.
  - apply elem_of_cons in Hs as [?|Hs]; [done|].
    destruct (IH Hs) as (k & rest & t' & q' & -> & E' & H).
    exists (S k), rest, t', q'. cbn [mbind option_bind].
    change (vtmr_reset_idx t0) with (Z.of_nat i). rewrite (proj2 (Z.eqb_neq _ (-1))) by lia. done.
Qed.

(** The tick rate a period stands for. *)
Definition period_ticks (period_us : Z) : Z := period_us * VTMR_FREQ_HZ / 1000000.

Lemma match_ticks period_us :
  0 < period_us * VTMR_FREQ_HZ < 2 ^ (if LUA_NUMBER_INTEGRAL then 32 else 64) ->
  0 <= period_ticks period_us < 2 ^ 32 ->
  tdt (tdt (period_us * VTMR_FREQ_HZ) / 1000000) = period_ticks period_us.
Proof.
  intros Hno HP. unfold tdt, period_ticks in *. destruct LUA_NUMBER_INTEGRAL.
  - rewrite (u32_small (period_us * _)) by (unfold is_u; lia). apply u32_small. unfold is_u. lia.
  - unfold u64. rewrite (wrap_small 64 (period_us * _)) by (unfold is_u; lia). apply wrap_small. unfold is_u. lia.
Qed.

(** A match interrupt set on a virtual timer whose interrupt was off comes
    exactly when it should, whatever the other timers do: none while the call
    waits for the timer's reset, and after any number [n] of ticks from then
    on as many as periods have passed - for a one-shot interrupt, one as soon as
    the period has. The call returns once a tick comes. *)
Theorem vtmr_match i period_us type t q v sched :
  vt_ok t -> view t i = Some v -> en v = false -> true ∈ sched ->
  0 < period_us -> 0 < period_us * VTMR_FREQ_HZ < 2 ^ (if LUA_NUMBER_INTEGRAL then 32 else 64) ->
  1 <= period_ticks period_us < 2 ^ 32 ->
  exists sched' t' q',
    vtmr_set_match_int trace_add (Z.of_nat i + VTMR_FIRST_ID) period_us type sched t q =
      Some (PLATFORM_TIMER_INT_OK, (sched', t', q')) /\
    posted i q' = posted i q /\
    forall n, exists t'' q'', ticks trace_add n t' q' = Some (t'', q'') /\
      posted i q'' = posted i q +
        (if type =? PLATFORM_TIMER_INT_ONESHOT
         then if period_ticks period_us <=? Z.of_nat n then 1 else 0
         else Z.of_nat n / period_ticks period_us).
Proof.
  intros Hok Hv Hen Hs Hpos Hno HP. pose proof (view_lt t i v Hok Hv) as Hi.
  unfold vtmr_set_match_int. rewrite (proj2 (Z.eqb_neq period_us 0)) by lia.
  pose proof (match_ticks period_us Hno ltac:(lia)) as Hf.
  rewrite Hf. unfold VTMR_MAX_PERIOD. set (P := period_ticks period_us) in *.
  assert (Hg : (P >? 2 ^ 32 - 1) = false) by (rewrite Z.gtb_ltb; apply Z.ltb_ge; lia).
  rewrite Hg, (proj2 (Z.eqb_neq P 0)) by lia. unfold VTMR_GET_ID. rewrite Z.add_simpl_r, Nat2Z.id.
  rewrite u32_small by (unfold is_u; lia).
  apply view_inv in Hv as (Hc & Hl & Hp & He & Hfl). destruct Hok as [Oc Ol Op Oe Of].
  (* the periodic flag *)
  assert (exists per', (if type =? PLATFORM_TIMER_INT_ONESHOT then flag_clear (vtmr_int_periodic_flag t) (Z.of_nat i)
      else flag_set (vtmr_int_periodic_flag t) (Z.of_nat i)) = Some per' /\ flags_ok N per' /\
      flag_get per' (Z.of_nat i) = Some (negb (type =? PLATFORM_TIMER_INT_ONESHOT))) as (per' & Eper & Oper & Hper).
  { destruct (type =? PLATFORM_TIMER_INT_ONESHOT).
    - destruct (flag_clear_ok N _ i Op Hi) as (a & ? & ? & ? & _). by exists a.
    - destruct (flag_set_ok N _ i Op Hi) as (a & ? & ? & ? & _). by exists a. }
  cbn [vtmr_int_periodic_flag set_limit]. rewrite Eper. cbn [mbind option_bind].
  cbn [vtmr_int_flag set_periodic set_limit].
  destruct (flag_clear_ok N _ i Of Hi) as (fl' & Efl & Ofl & Hfl' & _). rewrite Efl. cbn [mbind option_bind].
  set (t1 := set_flag _ fl').
  assert (Hok1 : vt_ok t1) by (split; cbn; try done; by rewrite length_insert).
  assert (Hv1 : view t1 i = Some (mkTmr (cnt v) P (negb (type =? PLATFORM_TIMER_INT_ONESHOT)) false false)).
  { apply view_intro; cbn; try done; [apply list_lookup_insert_eq; by rewrite Ol|by rewrite He, Hen]. }
  destruct (reset_wait t1 q i _ sched Hok1 Hv1 Hs) as (k & rest & t2 & q2 & _ & E2 & Hok2 & Hr2 & Hv2 & Hp2).
  rewrite E2. cbn [mbind option_bind].
  (* what the tick did *)
  assert (Hv2' : exists f, view t2 i = Some (mkTmr 0 P (negb (type =? PLATFORM_TIMER_INT_ONESHOT)) false f) /\
    posted i q2 = posted i q).
  { revert Hv2 Hp2. unfold tmr_tick, tmr_reset. cbn [cnt lim per en fl].
    destruct (u32 (cnt v + 1) >=? P); cbn [fst snd cnt lim per en fl Z.b2z]; rewrite ?andb_false_r;
      intros -> ->; eexists; (split; [done|lia]). }
  destruct Hv2' as (f & Hv3 & Hp3).
  destruct (flag_set_ok N _ i (ok_en _ Hok2) Hi) as (en' & Een & Oen & Hen' & _). rewrite Een. cbn [mbind option_bind].
  exists rest, (set_enabled t2 en'), q2. split; [done|]. split; [done|]. intros n.
  destruct (ticks_run n (set_enabled t2 en') q2 i (mkTmr 0 P (negb (type =? PLATFORM_TIMER_INT_ONESHOT)) true f))
    as (t'' & q'' & E'' & _ & _ & _ & Hp'').
  - destruct Hok2. by split.
  - done.
  - apply view_inv in Hv3 as (? & ? & ? & ? & ?). by apply view_intro.
  - exists t'', q''. split; [done|]. rewrite Hp'', Hp3. f_equal.
    destruct (type =? PLATFORM_TIMER_INT_ONESHOT); cbn [negb].
    + apply (run_oneshot n 0 P f); lia.
    + apply (run_cyclic n 0 P f); lia.
Qed.

(** ** Delays *)

(** The ticks among the polls. *)
Definition tick_count (sched : list bool) : Z := Z.of_nat (length (filter (fun b => b = true) sched)).
Lemma tick_count_cons b sched : tick_count (b :: sched) = Z.b2z b + tick_count sched.
Proof.
  unfold tick_count. rewrite filter_cons. destruct b; [rewrite decide_True by done|by rewrite decide_False].
  cbn [length Z.b2z]. lia.
Qed.
Lemma tick_count_app a b : tick_count (a ++ b) = tick_count a + tick_count b.
Proof. unfold tick_count. rewrite filter_app, length_app. lia. Qed.
Lemma tick_count_none k : tick_count (replicate k false) = 0.
Proof. induction k as [|k IH]; [done|]. cbn [replicate]. rewrite tick_count_cons, IH. done. Qed.
Lemma tick_count_pos sched : 0 < tick_count sched -> true ∈ sched.
Proof.
  induction sched as [|b sched IH]; [done|]. rewrite tick_count_cons. intros H.
  destruct b; [by left|]. right. apply IH. cbn in H. lia.
Qed.
Lemma tick_count_nonneg sched : 0 <= tick_count sched.
Proof. unfold tick_count. lia. Qed.

Lemma poll_step b t q i v : vt_ok t -> vtmr_reset_idx t = -1 -> view t i = Some v -> per v = false ->
  cnt v < 2 ^ 32 - 1 -> 0 <= cnt v ->
  exists t1 q1 v1, (if b : bool then cmn_virtual_timer_cb trace_add t q else Some (t, q)) = Some (t1, q1) /\
    vt_ok t1 /\ vtmr_reset_idx t1 = -1 /\ view t1 i = Some v1 /\ per v1 = false /\
    cnt v1 = cnt v + Z.b2z b.
Proof.
  intros Hok Hr Hv Hp Hc Hc0. destruct b.
  - destruct (cb_trace t q i v Hok (or_introl Hr) Hv) as (t1 & q1 & E & Hok1 & Hr1 & Hv1 & _).
    rewrite Hr, decide_False in Hv1 by lia. exists t1, q1, (tmr_tick v).1.
    assert (Ht : per (tmr_tick v).1 = false /\ cnt (tmr_tick v).1 = u32 (cnt v + 1)).
    { unfold tmr_tick. rewrite Hp. by destruct (_ >=? _). }
    destruct Ht as [Hp1 Hc1]. rewrite Hc1. split_and!; try done. cbn. apply u32_small. word_lia.
  - exists t, q, v. split_and!; try done. unfold Z.b2z. lia.
Qed.
(** The wait for the counter takes the ticks that are missing. *)
Lemma poll_count t q i v final sched : vt_ok t -> vtmr_reset_idx t = -1 -> view t i = Some v ->
  per v = false -> 0 <= cnt v < final -> final < 2 ^ 32 -> final - cnt v <= tick_count sched ->
  exists used rest t' q', sched = used ++ rest /\ tick_count used = final - cnt v /\
    poll trace_add (fun t => c ← vtmr_counters t !! i; Some (c >=? final)) sched t q = Some (rest, t', q').
Proof.
  revert t q v. induction sched as [|b sched IH]; intros t q v Hok Hr Hv Hp Hc Hfin Hn.
  { change (tick_count []) with 0 in Hn. lia. }
  rewrite tick_count_cons in Hn. cbn [poll].
  destruct (poll_step b t q i v) as (t1 & q1 & v1 & -> & Hok1 & Hr1 & Hv1 & Hp1 & Hc1); [done..|lia|lia|].
  cbn [mbind option_bind]. rewrite (proj1 (view_inv _ _ _ Hv1)). cbn [mbind option_bind].
  destruct (Z.geb_spec (cnt v1) final).
  - exists [b], sched, t1, q1. split; [done|]. split; [|done]. rewrite tick_count_cons. change (tick_count []) with 0. destruct b; unfold Z.b2z in *; lia.
  - destruct (IH t1 q1 v1) as (used & rest & t' & q' & -> & Hu & E); try done; [destruct b; unfold Z.b2z in *; lia|lia|].
    exists (b :: used), rest, t', q'. split; [done|]. split; [rewrite tick_count_cons; lia|done].
Qed.
Lemma poll_zero t q i v sched : vt_ok t -> vtmr_reset_idx t = -1 -> view t i = Some v -> per v = false ->
  cnt v = 0 -> sched <> [] ->
  exists used rest t' q', sched = used ++ rest /\ tick_count used <= 1 /\
    poll trace_add (fun t => c ← vtmr_counters t !! i; Some (c >=? 0)) sched t q = Some (rest, t', q').
Proof.
  intros Hok Hr Hv Hp Hc Hs. destruct sched as [|b sched]; [done|]. cbn [poll].
  destruct (poll_step b t q i v) as (t1 & q1 & v1 & -> & Hok1 & Hr1 & Hv1 & Hp1 & Hc1); [done..|lia|lia|].
  cbn [mbind option_bind]. rewrite (proj1 (view_inv _ _ _ Hv1)). cbn [mbind option_bind].
  destruct (Z.geb_spec (cnt v1) 0); [|destruct b; unfold Z.b2z in *; lia].
  exists [b], sched, t1, q1. split; [done|]. split; [|done]. rewrite tick_count_cons. change (tick_count []) with 0. destruct b; unfold Z.b2z; lia.
Qed.

(** A delay on a virtual timer without a cyclic match interrupt ends, and
    lasts as long as it should: the call returns after [k + 1] ticks, for a time
    of [k] periods of the timer, rounded down - the first tick resets the
    counter; for a time of less than a period it may see one more - provided
    that many ticks and one more poll come. *)
Theorem vtmr_delay_ticks i delay_us t q v sched :
  vt_ok t -> view t i = Some v -> per v = false ->
  0 <= delay_us <= VTMR_MAX_PERIOD -> 0 <= VTMR_FREQ_HZ < 2 ^ 31 ->
  period_ticks delay_us < 2 ^ 32 -> period_ticks delay_us + 2 <= tick_count sched ->
  exists used rest t' q', sched = used ++ rest /\
    vtmr_delay trace_add (Z.of_nat i + VTMR_FIRST_ID) delay_us sched t q = Some (rest, t', q') /\
    period_ticks delay_us + 1 <= tick_count used <= Z.max (period_ticks delay_us + 1) 2.
Proof.
  intros Hok Hv Hp Hd HF HP Hs. unfold vtmr_delay.
  assert (Hg : (delay_us >? VTMR_MAX_PERIOD) = false) by (rewrite Z.gtb_ltb; apply Z.ltb_ge; lia).
  rewrite Hg. unfold VTMR_GET_ID. rewrite Z.add_simpl_r, Nat2Z.id.
  assert (HP0 : 0 <= period_ticks delay_us) by (unfold period_ticks; apply Z.div_pos; lia).
  assert (Hf : tdt (u64 (delay_us * VTMR_FREQ_HZ) / 1000000) = period_ticks delay_us).
  { unfold tdt, u64. rewrite wrap_small by (unfold is_u, VTMR_MAX_PERIOD in *; nia).
    fold (period_ticks delay_us). destruct LUA_NUMBER_INTEGRAL; apply wrap_small; unfold is_u; lia. }
  rewrite Hf.
  destruct (reset_wait t q i v sched Hok Hv) as (k & rest1 & t1 & q1 & -> & E & Hok1 & Hr1 & Hv1 & _).
  { apply tick_count_pos. lia. }
  rewrite E. cbn [mbind option_bind]. rewrite tick_count_app, tick_count_none, tick_count_cons in Hs. unfold Z.b2z in Hs.
  assert (Hp1 : per (tmr_reset (tmr_tick v).1) = false).
  { unfold tmr_tick. rewrite Hp. by destruct (_ >=? _). }
  destruct (decide (period_ticks delay_us = 0)) as [Hz|Hz].
  - destruct (poll_zero t1 q1 i _ rest1 Hok1 Hr1 Hv1 Hp1) as (used & rest & t' & q' & -> & Hu & E');
      [done|intros ->; change (tick_count []) with 0 in Hs; lia|].
    rewrite Hz, E'. exists (replicate k false ++ true :: used), rest, t', q'.
    rewrite <- app_assoc, tick_count_app, tick_count_none, tick_count_cons.
    pose proof (tick_count_nonneg used). split; [done|]. split; [done|]. unfold Z.b2z. lia.
  - destruct (poll_count t1 q1 i _ (period_ticks delay_us) rest1 Hok1 Hr1 Hv1 Hp1)
      as (used & rest & t' & q' & -> & Hu & E'); [cbn [cnt tmr_reset]; lia|done|cbn [cnt tmr_reset]; lia|].
    rewrite E'. exists (replicate k false ++ true :: used), rest, t', q'.
    rewrite <- app_assoc, tick_count_app, tick_count_none, tick_count_cons.
    split; [done|]. split; [done|]. cbn [cnt tmr_reset] in *. unfold Z.b2z. lia.
Qed.
End Match.

(** ** Differences of times *)

Section Diff.
Context {cfg : config} {Q H : Type} (add : Z -> Z -> Q -> Q) (down : bool)
  (s_op : Z -> timer_op -> Z -> H -> Z * H) (sys : H -> Z * H).

(** The value, once the interval is known. *)
Lemma diff_value {A} d (HL : LUA_NUMBER_INTEGRAL = false) (HF : 0 < VTMR_FREQ_HZ < 2 ^ 32) (Hd : is_u32 d)
  start (w : A) :
  let x := if VTMR_FREQ_HZ =? 1000000 then u64 (start + d - start)
           else u64 (u64 (start + d - start) * 1000000) / VTMR_FREQ_HZ in
  Some (u64 (if x <=? PLATFORM_TIMER_SYS_MAX then x else PLATFORM_TIMER_SYS_MAX), w) =
  Some (d * 1000000 / VTMR_FREQ_HZ, w).
Proof.
  assert (H64 : forall x, 0 <= x < 2 ^ 64 -> u64 x = x) by (intros x Hx; apply wrap_small; exact Hx).
  cbv zeta. replace (start + d - start) with d by lia. unfold is_u in *.
  rewrite (H64 d), (H64 (d * 1000000)) by lia.
  assert (Hval : (if VTMR_FREQ_HZ =? 1000000 then d else d * 1000000 / VTMR_FREQ_HZ) = d * 1000000 / VTMR_FREQ_HZ).
  { destruct (Z.eqb_spec VTMR_FREQ_HZ 1000000) as [->|]; [by rewrite Z.div_mul|done]. }
  rewrite Hval. unfold PLATFORM_TIMER_SYS_MAX. rewrite HL.
  assert (Hle : 0 <= d * 1000000 / VTMR_FREQ_HZ <= 2 ^ 52 - 2).
  { split; [apply Z.div_pos; lia|]. transitivity (d * 1000000); [|lia].
    apply Z.div_le_upper_bound; [lia|]. nia. }
  rewrite (proj2 (Z.leb_le _ _)) by lia. rewrite H64 by lia. done.
Qed.

(** The time between two readings of a virtual timer is what passed, also
    when the counter wrapped around between them: for a counter that started at
    [start] and made [d] steps, less than 2^32, the difference is the time of
    [d] steps in microseconds, rounded down; no intermediate result overflows.
    This holds where Lua numbers are not 32-bit integers. *)
Theorem timer_diff_wraps id start d w :
  LUA_NUMBER_INTEGRAL = false -> TIMER_IS_VIRTUAL id = true -> 0 < VTMR_FREQ_HZ < 2 ^ 32 ->
  is_u32 start -> is_u32 d ->
  platform_timer_get_diff_us add down s_op sys id start (u32 (start + d)) w =
    Some (d * 1000000 / VTMR_FREQ_HZ, w).
Proof.
  intros HL Hv HF Hs Hd. unfold platform_timer_get_diff_us, timer_get_diff_us, platform_timer_op.
  assert (Hid : (id =? PLATFORM_TIMER_SYS_ID) = false).
  { apply Z.eqb_neq. unfold TIMER_IS_VIRTUAL, VTMR_FIRST_ID, PLATFORM_TIMER_SYS_ID in *.
    apply andb_true_iff in Hv as [?%Z.leb_le _]. lia. }
  cbn [timer_op_depth]. rewrite Hid, Hv. cbn [negb mbind option_bind].
  unfold tdt. rewrite HL.
  assert (H64 : forall x, 0 <= x < 2 ^ 64 -> u64 x = x) by (intros x Hx; apply wrap_small; exact Hx).
  rewrite (H64 VTMR_FREQ_HZ), (u32_small VTMR_FREQ_HZ) by (unfold is_u; lia).
  (* the end of the interval, unwrapped *)
  assert (Hcase : ((start >? u32 (start + d)) = true /\
      u64 (u32 (start + d) + u64 (u64 VTMR_MAX_PERIOD + 1)) = start + d) \/
    ((start >? u32 (start + d)) = false /\ u32 (start + d) = start + d)).
  { unfold VTMR_MAX_PERIOD. rewrite (H64 (2 ^ 32 - 1)), (H64 (2 ^ 32 - 1 + 1)) by lia.
    words. unfold u32, wrap. change (2 ^ 32) with 4294967296.
    destruct (Z.gtb_spec start ((start + d) mod 4294967296)); [left|right]; (split; [done|]).
    - rewrite H64; Z.to_euclidean_division_equations; lia.
    - Z.to_euclidean_division_equations; lia. }
  assert (Htend : forall k : Z -> Z,
    (if start >? u32 (start + d) then k (u64 (u32 (start + d) + u64 (u64 VTMR_MAX_PERIOD + 1)))
     else k (u32 (start + d))) = k (start + d)).
  { intros k. by destruct Hcase as [[-> ->]|[-> ->]]. }
  clear Hcase. destruct (start >? u32 (start + d)); cbn [mbind option_bind];
    pose proof (Htend (fun x => x)) as Hx; cbv beta iota in Hx; rewrite Hx;
    rewrite (proj2 (Z.eqb_neq VTMR_FREQ_HZ 0)) by lia.
  all: exact (diff_value d HL HF Hd start w).
Qed.
End Diff.

(** ** The system timer is read consistently *)

Section Clock.
Context {cfg : config}.
(** Ticks of the hardware for a microsecond, microseconds for an interrupt. *)
Context (tf us : Z) (Htf : 0 < tf) (Hus : 0 < us).

Definition per_int : Z := us * tf.
(** The hardware since the start: ticks so far, and the ticks before each of the
    next accesses. It interrupts every [per_int] ticks, when its own counter
    starts again. *)
Record clock := mkClock { now : Z; ahead : list Z }.
Definition elapse (s : systimer) (c : clock) : systimer * clock :=
  match ahead c with
  | [] => (s, c)
  | d :: ds => (Nat.iter (Z.to_nat ((now c + d) / per_int - now c / per_int)) cmn_systimer_periodic s,
                mkClock (now c + d) ds)
  end.
Definition raw_counter (c : clock) : Z := now c mod per_int.
(** No access is later than this. *)
Definition horizon (c : clock) : Z := now c + foldr Z.add 0 (ahead c).

(** The counter is the time of the interrupts so far, less [e] corrections. *)
Record sys_ok (s : systimer) (c : clock) (e : Z) : Prop := {
  sys_tf : cmn_systimer_ticks_for_us s = tf;
  sys_us : cmn_systimer_us_per_interrupt s = us;
  sys_counter : cmn_systimer_counter s = us * (now c / per_int) - PLATFORM_TIMER_SYS_MAX * e;
  sys_nonneg : 0 <= cmn_systimer_counter s;
  sys_now : 0 <= now c;
  sys_ahead : Forall (Z.le 0) (ahead c);
  sys_end : us * (horizon c / per_int) < 2 ^ 64;
  sys_e : 0 <= e
}.

Lemma per_int_pos : 0 < per_int.
Proof. unfold per_int. nia. Qed.
Lemma iter_periodic k s : cmn_systimer_us_per_interrupt s = us -> 0 <= cmn_systimer_counter s ->
  cmn_systimer_counter s + us * Z.of_nat k < 2 ^ 64 ->
  Nat.iter k cmn_systimer_periodic s =
    mkSys (cmn_systimer_ticks_for_us s) (cmn_systimer_counter s + us * Z.of_nat k) us.
Proof.
  intros Hu Hc. induction k as [|k IH]; intros Hk.
  - destruct s. cbn in *. f_equal; [lia|done].
  - cbn [Nat.iter nat_rect]. unfold Nat.iter in IH. rewrite IH by nia. unfold cmn_systimer_periodic.
    cbn [cmn_systimer_ticks_for_us cmn_systimer_counter cmn_systimer_us_per_interrupt]. f_equal.
    unfold u64. rewrite wrap_small by (unfold is_u; nia). lia.
Qed.
Lemma horizon_now c : Forall (Z.le 0) (ahead c) -> now c <= horizon c.
Proof.
  intros Hf. unfold horizon. generalize (now c). induction Hf as [|d ds Hd _ IH]; intros z; cbn [foldr]; [lia|].
  specialize (IH z). lia.
Qed.
Lemma elapse_ok s c e : sys_ok s c e -> exists s' c', elapse s c = (s', c') /\ sys_ok s' c' e /\
  now c <= now c' /\ ahead c' = tail (ahead c) /\ horizon c' = horizon c /\ (ahead c = [] -> s' = s /\ c' = c).
Proof.
  intros [H1 H2 H3 H4 H5 H6 H7 H8]. unfold elapse. destruct c as [n ds]. cbn [now ahead] in *.
  destruct ds as [|d ds].
  - exists s, (mkClock n []). split_and!; try done.
  - apply Forall_cons in H6 as [Hd H6]. pose proof per_int_pos as Hp.
    assert (Hle : n / per_int <= (n + d) / per_int) by (apply Z.div_le_mono; lia).
    assert (Hend : (n + d) / per_int <= horizon (mkClock n (d :: ds)) / per_int).
    { apply Z.div_le_mono; [lia|]. pose proof (horizon_now (mkClock (n + d) ds) H6) as Hh.
      unfold horizon in *. cbn [now ahead foldr] in *. lia. }
    assert (Hm : 0 <= PLATFORM_TIMER_SYS_MAX) by (unfold PLATFORM_TIMER_SYS_MAX; destruct LUA_NUMBER_INTEGRAL; lia).
    rewrite iter_periodic by (try done; rewrite Z2Nat.id by lia; nia). rewrite Z2Nat.id by lia.
    assert (Hh : horizon (mkClock (n + d) ds) = horizon (mkClock n (d :: ds)))
      by (unfold horizon; cbn [now ahead foldr]; lia).
    eexists _, _. split; [done|]. split_and!; try done; [|cbn; lia].
    split; cbn [now ahead cmn_systimer_ticks_for_us cmn_systimer_counter cmn_systimer_us_per_interrupt];
      try done; [lia|nia|lia|by rewrite Hh].
Qed.

(** Microseconds are whole interrupts and the hardware's counter. *)
Lemma time_split t : us * (t / per_int) + (t mod per_int) / tf = t / tf.
Proof.
  rewrite (Z.div_mod t per_int) at 3 by (pose proof per_int_pos; lia).
  unfold per_int at 3. replace (us * tf * (t / per_int)) with (us * (t / per_int) * tf) by lia.
  by rewrite Z.div_add_l by lia.
Qed.
Lemma sys_max_pos : 0 < PLATFORM_TIMER_SYS_MAX.
Proof. unfold PLATFORM_TIMER_SYS_MAX. destruct LUA_NUMBER_INTEGRAL; lia. Qed.

Abbreviation read_loop := (systimer_read_loop elapse raw_counter).

(** When two reads of the counter agree no interrupt came between them. *)
Lemma reads_agree t1 t2 t3 e : 0 <= t1 <= t2 -> t2 <= t3 ->
  us * (t1 / per_int) - PLATFORM_TIMER_SYS_MAX * e = us * (t3 / per_int) - PLATFORM_TIMER_SYS_MAX * e ->
  us * (t3 / per_int) + (t2 mod per_int) / tf = t2 / tf.
Proof.
  intros H12 H23 Heq. assert (t1 / per_int = t3 / per_int) by nia.
  pose proof per_int_pos. pose proof (Z.div_le_mono t1 t2 per_int ltac:(lia) ltac:(lia)).
  pose proof (Z.div_le_mono t2 t3 per_int ltac:(lia) ltac:(lia)).
  replace (t3 / per_int) with (t2 / per_int) by lia. apply time_split.
Qed.

Lemma read_loop_ok fuel t1 t2 tempsys s c e :
  sys_ok s c e -> 0 <= t1 <= t2 -> t2 <= now c ->
  tempsys = us * (t1 / per_int) - PLATFORM_TIMER_SYS_MAX * e ->
  (length (ahead c) + 2 <= fuel)%nat \/ (ahead c = [] /\ tempsys = cmn_systimer_counter s /\ (1 <= fuel)%nat) ->
  exists crt cnt s' c' t, read_loop fuel tempsys (t2 mod per_int) s c = Some (crt, cnt, (s', c')) /\
    sys_ok s' c' e /\ t1 <= t <= now c' /\ horizon c' = horizon c /\
    crt + cnt / tf = t / tf - PLATFORM_TIMER_SYS_MAX * e /\ 0 <= crt + cnt / tf.
Proof.
  revert t1 t2 tempsys s c. induction fuel as [|fuel IH]; intros t1 t2 tempsys s c Hok H12 H2 Hts Hfuel; [lia|].
  cbn [systimer_read_loop]. unfold read_counter.
  destruct (elapse_ok s c e Hok) as (s1 & c1 & -> & Hok1 & Hnow1 & Hah1 & Hh1 & Hnil1).
  destruct (Z.eqb_spec (cmn_systimer_counter s1) tempsys) as [Heq|Hne]; cbn [negb].
  - exists (cmn_systimer_counter s1), (t2 mod per_int), s1, c1, t2.
    pose proof (sys_counter _ _ _ Hok1) as Hc1. pose proof (sys_nonneg _ _ _ Hok1) as Hn1.
    assert (Hval : us * (now c1 / per_int) + (t2 mod per_int) / tf = t2 / tf)
      by (apply (reads_agree t1 t2 (now c1) e); lia).
    assert (0 <= (t2 mod per_int) / tf).
    { apply Z.div_pos; [|done]. apply Z.mod_pos_bound, per_int_pos. }
    split; [done|]. split; [done|]. split; [lia|]. split; [done|]. lia.
  - unfold read_raw.
    destruct (elapse_ok s1 c1 e Hok1) as (s2 & c2 & -> & Hok2 & Hnow2 & Hah2 & Hh2 & Hnil2).
    pose proof (sys_now _ _ _ Hok1).
    destruct (IH (now c1) (now c2) (cmn_systimer_counter s1) s2 c2)
      as (crt & cnt & s' & c' & t & E & Hok' & Ht & Hh' & Hv & Hn); [done|lia|lia|by destruct Hok1| |].
    + destruct Hfuel as [Hf|(Hnil & Hts' & Hf)].
      * destruct (ahead c) as [|d ds] eqn:Ea.
        -- right. rewrite Hah1 in Hah2. destruct (Hnil2 ltac:(by rewrite Hah1)) as [-> _]. cbn in Hf.
           split; [by rewrite Hah2|]. split; [done|lia].
        -- left. rewrite Hah2, Hah1. cbn in *. destruct ds; cbn in *; lia.
      * destruct (Hnil1 Hnil) as [-> ->]. done.
    + exists crt, cnt, s', c', t. unfold raw_counter. split; [done|]. split; [done|].
      split; [lia|]. split; [congruence|]. done.
Qed.

(** Whatever interrupts come while it reads the system timer, the value it
    returns is the time, in microseconds, of one instant during the call - not a
    mixture of the counter before an interrupt and the hardware after it - up to
    the wrap-around of the timer: less a multiple of its largest value. The
    loop ends once no more time passes between accesses. The counter is read at
    least once between two wrap-arounds. *)
Theorem systimer_consistent fuel s c e :
  sys_ok s c e -> (length (ahead c) + 2 <= fuel)%nat ->
  horizon c / tf - PLATFORM_TIMER_SYS_MAX * e <= 2 * PLATFORM_TIMER_SYS_MAX ->
  exists v s' c' t e', cmn_systimer_get elapse raw_counter fuel s c = Some (v, (s', c')) /\
    now c <= t <= now c' /\ v = t / tf - PLATFORM_TIMER_SYS_MAX * e' /\
    0 <= v <= PLATFORM_TIMER_SYS_MAX /\ exists e'', sys_ok s' c' e'' /\ e <= e'' <= e'.
Proof.
  intros Hok Hf Hend. unfold cmn_systimer_get, read_counter, read_raw. pose proof sys_max_pos as Hm.
  destruct (elapse_ok s c e Hok) as (s1 & c1 & -> & Hok1 & Hnow1 & Hah1 & Hh1 & _).
  destruct (elapse_ok s1 c1 e Hok1) as (s2 & c2 & -> & Hok2 & Hnow2 & Hah2 & Hh2 & _).
  pose proof (sys_now _ _ _ Hok) as Hn0.
  destruct (read_loop_ok fuel (now c1) (now c2) (cmn_systimer_counter s1) s2 c2 e Hok2)
    as (crt & cnt & s3 & c3 & t & E & Hok3 & Ht & Hh3 & Hv & Hn);
    [lia|lia|by destruct Hok1|left; rewrite Hah2, Hah1; destruct (ahead c) as [|? [|? ?]]; cbn in *; lia|].
  change (raw_counter c2) with (now c2 mod per_int). rewrite E. cbn [mbind option_bind].
  rewrite (sys_tf _ _ _ Hok3), (proj2 (Z.eqb_neq tf 0)) by lia. rewrite Hv in *.
  assert (Htb : t / tf - PLATFORM_TIMER_SYS_MAX * e <= 2 * PLATFORM_TIMER_SYS_MAX).
  { pose proof (horizon_now c3 (sys_ahead _ _ _ Hok3)).
    pose proof (Z.div_le_mono t (horizon c) tf ltac:(lia) ltac:(lia)). lia. }
  assert (Hu64 : u64 (t / tf - PLATFORM_TIMER_SYS_MAX * e) = t / tf - PLATFORM_TIMER_SYS_MAX * e).
  { apply wrap_small. unfold is_u. unfold PLATFORM_TIMER_SYS_MAX in *. destruct LUA_NUMBER_INTEGRAL; lia. }
  rewrite Hu64.
  assert (Htdt : forall x, 0 <= x <= PLATFORM_TIMER_SYS_MAX -> tdt x = x).
  { intros x Hx. unfold tdt, PLATFORM_TIMER_SYS_MAX in *.
    destruct LUA_NUMBER_INTEGRAL; apply wrap_small; unfold is_u; lia. }
  destruct (Z.gtb_spec (t / tf - PLATFORM_TIMER_SYS_MAX * e) PLATFORM_TIMER_SYS_MAX) as [Hov|Hov].
  - destruct (elapse_ok s3 c3 e Hok3) as (s4 & c4 & -> & Hok4 & Hnow4 & _).
    rewrite Htdt by lia. eexists _, _, c4, t, (e + 1). split; [done|].
    split; [lia|]. split; [lia|]. split; [lia|].
    destruct (Z.gtb_spec (cmn_systimer_counter s4) PLATFORM_TIMER_SYS_MAX).
    + exists (e + 1). split; [|lia]. destruct Hok4. split; cbn; try done; lia.
    + exists e. split; [done|lia].
  - rewrite Htdt by lia. exists (t / tf - PLATFORM_TIMER_SYS_MAX * e), s3, c3, t, e. split; [done|].
    split; [lia|]. split; [done|]. split; [lia|]. exists e. split; [done|lia].
Qed.
End Clock.

(** ** Examples

    Four virtual timers at 10 Hz. *)

Definition ex_cfg : config := Config 4 10 7 false.
Definition ex_timers (c : list Z) : vtmr := mkVtmr c (-1) [0; 0; 0; 0] [0] [0] [0].

Lemma ex_timers_ok c : length c = 4%nat -> vt_ok (cfg := ex_cfg) (ex_timers c).
Proof. intros Hc. split; cbn; try done; (split; [done|by_decide]). Defined.

Lemma vtmr_match_witness :
  exists sched' t' q',
    vtmr_set_match_int (cfg := ex_cfg) trace_add (Z.of_nat 1 + VTMR_FIRST_ID) 500000 PLATFORM_TIMER_INT_CYCLIC
      [false; true] (ex_timers [0; 9; 0; 0]) [] = Some (PLATFORM_TIMER_INT_OK, (sched', t', q')) /\
    posted (cfg := ex_cfg) 1 q' = posted (cfg := ex_cfg) 1 [] /\
    forall n, exists t'' q'', ticks (cfg := ex_cfg) trace_add n t' q' = Some (t'', q'') /\
      posted (cfg := ex_cfg) 1 q'' = posted (cfg := ex_cfg) 1 [] + Z.of_nat n / 5.
Proof.
  apply (vtmr_match (cfg := ex_cfg) ltac:(cbn; lia) 1 500000 PLATFORM_TIMER_INT_CYCLIC
    (ex_timers [0; 9; 0; 0]) [] (mkTmr 9 0 false false false) [false; true]).
  - by apply ex_timers_ok.
  - reflexivity.
  - reflexivity.
  - right. left.
  - lia.
  - by_decide.
  - by_decide.
Defined.

Lemma vtmr_delay_ticks_witness :
  exists used rest t' q', replicate 9 true = used ++ rest /\
    vtmr_delay (cfg := ex_cfg) trace_add (Z.of_nat 2 + VTMR_FIRST_ID) 350000 (replicate 9 true)
      (ex_timers [0; 0; 7; 0]) [] = Some (rest, t', q') /\
    3 + 1 <= tick_count used <= Z.max (3 + 1) 2.
Proof.
  apply (vtmr_delay_ticks (cfg := ex_cfg) ltac:(cbn; lia) 2 350000 (ex_timers [0; 0; 7; 0]) []
    (mkTmr 7 0 false false false) (replicate 9 true));
    [by apply ex_timers_ok|reflexivity|reflexivity|by_decide..].
Defined.

Lemma timer_diff_wraps_witness :
  platform_timer_get_diff_us (cfg := ex_cfg) (H := unit) trace_add false (fun _ _ _ h => (0, h)) (fun h => (0, h))
    VTMR_FIRST_ID (2 ^ 32 - 1) (u32 (2 ^ 32 - 1 + 5)) (mkWorld [] (ex_timers [0; 0; 0; 0]) [] tt) =
  Some (500000, mkWorld [] (ex_timers [0; 0; 0; 0]) [] tt).
Proof.
  apply (timer_diff_wraps (cfg := ex_cfg) (H := unit) trace_add false (fun _ _ _ h => (0, h)) (fun h => (0, h))
    VTMR_FIRST_ID (2 ^ 32 - 1) 5 (mkWorld [] (ex_timers [0; 0; 0; 0]) [] tt));
    [reflexivity|reflexivity|by_decide|by_decide|by_decide].
Defined.

(** An interrupt every millisecond, ten ticks a microsecond; one comes between
    the two reads of the counter. *)
Lemma systimer_consistent_witness :
  exists v s' c' t e', cmn_systimer_get (cfg := ex_cfg) (elapse 10 1000) (raw_counter 10 1000) 6
      (mkSys 10 2000 1000) (mkClock 29990 [5; 10; 5; 5]) = Some (v, (s', c')) /\
    29990 <= t <= now c' /\ v = t / 10 - PLATFORM_TIMER_SYS_MAX (cfg := ex_cfg) * e' /\
    0 <= v <= PLATFORM_TIMER_SYS_MAX (cfg := ex_cfg) /\
    exists e'', sys_ok (cfg := ex_cfg) 10 1000 s' c' e'' /\ 0 <= e'' <= e'.
Proof.
  apply (systimer_consistent (cfg := ex_cfg) 10 1000 ltac:(lia) ltac:(lia) 6 (mkSys 10 2000 1000)
    (mkClock 29990 [5; 10; 5; 5]) 0).
  - split; try reflexivity; try by_decide.
  - cbn. lia.
  - by_decide.
Defined.

(** Where Lua numbers are 32-bit integers the length of a full turn of a virtual
    timer wraps to 0, and the difference after a wrap-around is wrong: the
    largest value instead of 5 ticks. *)
Example diff_integral :
  platform_timer_get_diff_us (cfg := Config 4 10 7 true) (H := unit) trace_add false (fun _ _ _ h => (0, h))
    (fun h => (0, h)) VTMR_FIRST_ID (2 ^ 32 - 1) 4 (mkWorld [] (ex_timers [0; 0; 0; 0]) [] tt) =
  Some (2 ^ 32 - 2, mkWorld [] (ex_timers [0; 0; 0; 0]) [] tt).
Proof. vm_compute. reflexivity. Qed.

(** The flag of a match is cleared before the counter is reset: the tick that
    resets it sets the flag again if the old count is past the new period. *)
Example stale_flag :
  match vtmr_set_match_int (cfg := ex_cfg) trace_add (Z.of_nat 1 + VTMR_FIRST_ID) 500000
          PLATFORM_TIMER_INT_ONESHOT [true] (ex_timers [0; 9; 0; 0]) [] with
  | Some (_, (_, t, _)) => fst <$> vtmr_int_get_flag (Z.of_nat 1 + VTMR_FIRST_ID) false t
  | None => None
  end = Some true.
Proof. vm_compute. reflexivity. Qed.

(** A delay on a timer whose cyclic match has a shorter period never ends. *)
Example delay_hangs :
  match vtmr_set_match_int (cfg := ex_cfg) trace_add (Z.of_nat 1 + VTMR_FIRST_ID) 200000
          PLATFORM_TIMER_INT_CYCLIC [true] (ex_timers [0; 0; 0; 0]) [] with
  | Some (_, (_, t, q)) =>
      vtmr_delay (cfg := ex_cfg) trace_add (Z.of_nat 1 + VTMR_FIRST_ID) 300000 (replicate 1000 true) t q
  | None => Some ([], ex_timers [], [])
  end = None.
Proof. vm_compute. reflexivity. Qed.

(** With more than 128 timers the index of the timer to reset, a signed byte, may
    be negative: the callback writes before the array. Timer 255 is not reset at
    all. *)
Definition many_cfg (n : nat) : config := Config n 4 100 true.
Definition many_timers (n : nat) : vtmr := mkVtmr (replicate n 5) (-1) (replicate n 0) (replicate (n / 8 + 1) 0) (replicate (n / 8 + 1) 0) (replicate (n / 8 + 1) 0).
Definition start_last (n : nat) : option (option Z) :=
  '(_, t, _) ← vtmr_reset_timer (cfg := many_cfg n) trace_add (Z.of_nat (n - 1) + VTMR_FIRST_ID) [true] (many_timers n) []; Some (vtmr_counters t !! (n - 1)%nat).
Example too_many_timers : start_last 128 = Some (Some 0) /\ start_last 129 = None /\ start_last 256 = Some (Some 6).
Proof. vm_compute. split_and!; reflexivity. Qed.

Lemma vtmr_ops_typed_witness :
  exists t' q', run_vops (cfg := ex_cfg) trace_add [V_match 1 300000 2 [true]; V_tick; V_tick; V_flag 1 true; V_start 0 [true]]
    (ex_timers [5; 0; 0; 0]) [] = Some (t', q') /\ vt_typed (cfg := ex_cfg) t'.
Proof.
  apply (vtmr_ops_typed (cfg := ex_cfg) trace_add ltac:(cbn; lia)
    [V_match 1 300000 2 [true]; V_tick; V_tick; V_flag 1 true; V_start 0 [true]] (ex_timers [5; 0; 0; 0]) []).
  - split; [by apply ex_timers_ok|by_decide|by_decide|reflexivity].
  - repeat constructor; cbn; lia.
Defined.
