(* ===== verification/Linenoise.v ===== *)
(** * Linenoise: editing a line of input

    Models src/linenoise.c: the line editor of the Lua prompt and the shell,
    with its history, and the key codes of inc/term.h.  What the editor sends
    to the terminal is a list of tokens: a character, or one of the three
    control sequences the file uses.  Without history the input is read by the C
    library, which is not modelled.

    The editor refines two strings, before and after the cursor, and the screen
    shows them ([linenoise_edits], [linenoise_shows]). *)

From S2P Require Import Prelude.

Definition KC_UP : Z := 256.
Definition KC_DOWN : Z := 257.
Definition KC_LEFT : Z := 258.
Definition KC_RIGHT : Z := 259.
Definition KC_HOME : Z := 260.
Definition KC_END : Z := 261.
Definition KC_ENTER : Z := 264.
Definition KC_BACKSPACE : Z := 266.
Definition KC_CTRL_Z : Z := 268.
Definition KC_CTRL_C : Z := 271.
Definition KC_CTRL_T : Z := 272.
Definition KC_CTRL_U : Z := 273.
Definition KC_CTRL_K : Z := 274.
Definition KC_DEL : Z := 275.
Definition LINENOISE_CTRL_C : Z := -2.

(** <ctype.h>, in the "C" locale. *)
Definition isprint (c : Z) : bool := (32 <=? c) && (c <=? 126).

(** "\r", ESC [ 0 K, ESC [ n C. *)
Inductive token := CH (c : Z) | CR | EL | CUF (n : Z).

(** ** History *)

(** The history of a component: [lines] is [None] before it is allocated; an
    entry is [None] if there was no memory for its copy.  [mem]: the answers of
    the allocator to come, true when there are none left. *)
Record history := mkHistory { lines : option (list (option (list Z))); mem : list bool }.

Definition malloc (m : list bool) : bool * list bool :=
  match m with [] => (true, []) | b :: m => (b, m) end.
(** The line up to a line feed, and what follows the line feed. *)
Fixpoint first_line (s : list Z) : list Z * option (list Z) :=
  match s with
  | [] => ([], None)
  | c :: s => if c =? 10 then ([], Some s) else let '(l, r) := first_line s in (c :: l, r)
  end.

Section Linenoise.
(** [history_max_lengths[ id ]] and [TERM_COLS]. *)
Context (history_max_len : nat) (cols : nat).

Fixpoint add_lines (fuel : nat) (line : list Z) (force_empty : bool) (es : list (option (list Z)))
  (m : list bool) : option (Z * list (option (list Z)) * list bool) :=
  match fuel with
  | O => None
  | S fuel =>
      let '(seg, rest) := first_line line in
      let '(ok, m, es) :=
        if (0 <? length seg)%nat || force_empty then
          let '(ok, m) := malloc m in
          let es := if ok then
              (if (length es =? history_max_len)%nat then tail es else es) ++ [Some seg]
            else es in
          (ok, m, es)
        else (true, m, es) in
      if negb ok then Some (0, es, m) else
      match rest with
      | None | Some [] => Some (1, es, m)
      | Some line => add_lines fuel line force_empty es m
      end
  end.
Definition linenoise_internal_addhistory (line : list Z) (force_empty : bool) (h : history)
  : option (Z * history) :=
  if (history_max_len =? 0)%nat then Some (0, h) else
  let '(ok, m, es) := match lines h with
                      | Some es => (true, mem h, es)
                      | None => let '(ok, m) := malloc (mem h) in (ok, m, [])
                      end in
  if negb ok then Some (0, mkHistory None m) else
  '(r, es, m) ← add_lines (S (length line)) line force_empty es m;
  Some (r, mkHistory (Some es) m).
Definition linenoise_addhistory (line : list Z) (h : history) := linenoise_internal_addhistory line false h.
(** Without the automatic saving. *)
Definition linenoise_cleanup (h : history) : history := mkHistory None (mem h).

Definition LINENOISE_HISTORY_NOT_ENABLED : Z := -2.
Definition LINENOISE_HISTORY_EMPTY : Z := -3.
(** The result and what the file holds then; [fopen]: the file can be opened for
    writing.  [None]: a null pointer is printed. *)
Definition linenoise_savehistory (fopen : bool) (h : history) : option (Z * option (list Z)) :=
  if (history_max_len =? 0)%nat then Some (LINENOISE_HISTORY_NOT_ENABLED, None) else
  match lines h with
  | None | Some [] => Some (LINENOISE_HISTORY_EMPTY, None)
  | Some es => if negb fopen then Some (-1, None) else
               es ← mapM id es; Some (0, Some (concat ((fun s => s ++ [10]) <$> es)))
  end.

(** ** The line on the screen *)

(** [None]: an unsigned length wraps around. *)
Fixpoint trim_left (plen b len pos : nat) {struct pos} : option (nat * nat * nat) :=
  if (cols <=? plen + pos)%nat then
    match pos, len with S pos, S len => trim_left plen (S b) len pos | _, _ => None end
  else Some (b, len, pos).
Fixpoint trim_right (plen len : nat) : option nat :=
  if (cols <? plen + len)%nat then match len with S len => trim_right plen len | O => None end
  else Some len.
Definition term_putstr (s : list Z) : list token := CH <$> s.
Definition refreshLine (prompt buf : list Z) (len pos : nat) : option (list token) :=
  let plen := length prompt in
  '(b, len, pos) ← trim_left plen 0 len pos;
  len ← trim_right plen len;
  text ← loads buf b len;
  Some ([CR] ++ term_putstr prompt ++ term_putstr text ++ [EL] ++ [CR; CUF (Z.of_nat (pos + plen))]).

(** ** Editing *)

(** The local variables of the loop, the history and the output. *)
Record ed := mkEd {
  buf : list Z; pos : nat; len : nat; history_index : Z; hist : history; out : list token
}.
Definition set_text (s : ed) (b : list Z) (p l : nat) : ed :=
  mkEd b p l (history_index s) (hist s) (out s).
Definition refreshed (prompt : list Z) (s : ed) : option ed :=
  t ← refreshLine prompt (buf s) (len s) (pos s);
  Some (mkEd (buf s) (pos s) (len s) (history_index s) (hist s) (out s ++ t)).

(** [memmove( buf + to, buf + from, n )] *)
Definition memmove (b : list Z) (to from n : nat) : option (list Z) :=
  s ← loads b from n; stores b to s.
(** [strncpy( buf, s, n )] *)
Definition strncpy (b s : list Z) (n : nat) : option (list Z) :=
  stores b 0 (take n s ++ replicate (n - length s) 0).

(** The key up or down. *)
Definition browse (prompt : list Z) (buflen : nat) (c : Z) (s : ed) : option ed :=
  es ← lines (hist s);
  let n := Z.of_nat (length es) in
  if n >? 1 then
    let i := n - 1 - history_index s in
    if (i <? 0) || (n <=? i) then None else
    cur ← str_at (buf s) 0;
    let '(ok, m) := malloc (mem (hist s)) in
    let es := <[Z.to_nat i := if ok then Some cur else None]> es in
    let h := mkHistory (Some es) m in
    let idx := if c =? KC_UP then history_index s + 1 else history_index s - 1 in
    if idx <? 0 then Some (mkEd (buf s) (pos s) (len s) 0 h (out s))
    else if idx >=? n then Some (mkEd (buf s) (pos s) (len s) (n - 1) h (out s))
    else
      entry ← mjoin (es !! Z.to_nat (n - 1 - idx));
      b ← strncpy (buf s) entry buflen;
      b ← store b buflen 0;
      cur ← str_at b 0;
      refreshed prompt (mkEd b (length cur) (length cur) idx h (out s))
  else Some s.

(** A key that does not end the line. *)
Definition key (prompt : list Z) (buflen : nat) (c : Z) (s : ed) : option ed :=
  if c =? KC_BACKSPACE then
    if (0 <? pos s)%nat && (0 <? len s)%nat then
      b ← memmove (buf s) (pos s - 1) (pos s) (len s - pos s);
      b ← store b (len s - 1) 0;
      refreshed prompt (set_text s b (pos s - 1) (len s - 1))
    else Some s
  else if c =? KC_CTRL_T then Some s
  else if c =? KC_LEFT then
    if (0 <? pos s)%nat then refreshed prompt (set_text s (buf s) (pos s - 1) (len s)) else Some s
  else if c =? KC_RIGHT then
    if negb (pos s =? len s)%nat then refreshed prompt (set_text s (buf s) (pos s + 1) (len s)) else Some s
  else if (c =? KC_UP) || (c =? KC_DOWN) then browse prompt buflen c s
  else if c =? KC_DEL then
    if (0 <? len s)%nat && (pos s <? len s)%nat then
      b ← memmove (buf s) (pos s) (pos s + 1) (len s - pos s - 1);
      b ← store b (len s - 1) 0;
      refreshed prompt (set_text s b (pos s) (len s - 1))
    else Some s
  else if c =? KC_HOME then refreshed prompt (set_text s (buf s) 0 (len s))
  else if c =? KC_END then refreshed prompt (set_text s (buf s) (len s) (len s))
  else if c =? KC_CTRL_U then b ← store (buf s) 0 0; refreshed prompt (set_text s b 0 0)
  else if c =? KC_CTRL_K then
    b ← store (buf s) (pos s) 0; refreshed prompt (set_text s b (pos s) (pos s))
  else if isprint c && (len s <? buflen)%nat then
    if (len s =? pos s)%nat then
      b ← store (buf s) (pos s) c;
      b ← store b (len s + 1) 0;
      let s := set_text s b (pos s + 1) (len s + 1) in
      if (length prompt + len s <? cols)%nat
      then Some (mkEd (buf s) (pos s) (len s) (history_index s) (hist s) (out s ++ [CH c]))
      else refreshed prompt s
    else
      b ← memmove (buf s) (pos s + 1) (pos s) (len s - pos s);
      b ← store b (pos s) c;
      b ← store b (len s + 1) 0;
      refreshed prompt (set_text s b (pos s + 1) (len s + 1))
  else Some s.

(** The end of a line: the entry of the current line leaves the history. *)
Definition pop_history (h : history) : option history :=
  es ← lines h;
  match es with [] => None | _ => Some (mkHistory (Some (take (length es - 1) es)) (mem h)) end.

(** How [linenoisePrompt] ends: its result, the buffer, the history, the output
    and the keys that are left. *)
Record ended := mkEnded {
  e_res : Z; e_buf : list Z; e_hist : history; e_out : list token; e_keys : list Z
}.
(** [None]: the keys are used up, or undefined behaviour. *)
Fixpoint edit_loop (prompt : list Z) (buflen : nat) (keys : list Z) (s : ed) : option ended :=
  match keys with
  | [] => None
  | c :: keys =>
      if (c =? KC_ENTER) || (c =? KC_CTRL_C) || (c =? KC_CTRL_Z) then
        h ← pop_history (hist s);
        Some (mkEnded (if c =? KC_CTRL_C then LINENOISE_CTRL_C
                       else if c =? KC_CTRL_Z then -1 else Z.of_nat (len s)) (buf s) h (out s) keys)
      else s ← key prompt buflen c s; edit_loop prompt buflen keys s
  end.
Definition linenoisePrompt (buf : list Z) (buflen : nat) (prompt : list Z) (h : history) (out : list token)
  (keys : list Z) : option ended :=
  buf ← store buf 0 0;
  '(_, h) ← linenoise_internal_addhistory [] true h;
  edit_loop prompt (buflen - 1) keys (mkEd buf 0 0 0 h (out ++ term_putstr prompt)).

(** Until the line is not abandoned; every round uses up a key at least. *)
Fixpoint getline_loop (fuel : nat) (buffer : list Z) (maxinput : nat) (prompt : list Z) (h : history)
  (out : list token) (keys : list Z) : option ended :=
  match fuel with
  | O => None
  | S fuel =>
      e ← linenoisePrompt buffer maxinput prompt h out keys;
      let out := if negb (e_res e =? -1) then e_out e ++ [CH 10] else e_out e in
      if negb (e_res e =? LINENOISE_CTRL_C) then
        b ← (if e_res e >? 0 then
               c ← load (e_buf e) (Z.to_nat (e_res e));
               if negb (c =? 0) then store (e_buf e) (Z.to_nat (e_res e)) 0 else Some (e_buf e)
             else Some (e_buf e));
        Some (mkEnded (e_res e) b (e_hist e) out (e_keys e))
      else getline_loop fuel (e_buf e) maxinput prompt (e_hist e) out (e_keys e)
  end.
(** With a history. *)
Definition linenoise_getline (buffer : list Z) (maxinput : nat) (prompt : list Z) (h : history)
  (keys : list Z) : option ended :=
  getline_loop (S (length keys)) buffer maxinput prompt h [] keys.
End Linenoise.

(** ** The screen

    A row of the terminal: its characters up to the last one written, and where
    the cursor is.  Moving forward by 0 moves by 1.  The terminal does not wrap
    a row that is exactly full. *)

Definition tok_put (r : list Z * nat) (t : token) : list Z * nat :=
  match t with
  | CH c => if c =? 10 then ([], 0%nat) else (take r.2 r.1 ++ [c] ++ drop (S r.2) r.1, S r.2)
  | CR => (r.1, 0%nat)
  | EL => (take r.2 r.1, r.2)
  | CUF n => (r.1, (r.2 + Z.to_nat (Z.max 1 n))%nat)
  end.
Definition screen (o : list token) : list Z * nat := foldl tok_put ([], 0%nat) o.

(** Characters of a line. *)
Definition line_char (c : Z) : Prop := is_u8 c /\ c <> 0 /\ c <> 10.
#[export] Instance line_char_dec c : Decision (line_char c).
Proof. unfold line_char. apply _. Defined.

Lemma isprint_line_char c : isprint c = true -> line_char c.
Proof. intros [H1%Z.leb_le H2%Z.leb_le]%andb_true_iff. unfold line_char. words. lia. Qed.

Lemma put_str s pre rest : Forall line_char s ->
  foldl tok_put (pre ++ rest, length pre) (term_putstr s) = (pre ++ s ++ drop (length s) rest, length (pre ++ s)).
Proof.
  revert pre rest. induction s as [|c s IH]; intros pre rest Hs.
  - cbn. by rewrite drop_0, app_nil_r.
  - apply Forall_cons in Hs as [(_ & _ & Hc) Hs]. unfold term_putstr. cbn [fmap list_fmap foldl].
    fold (term_putstr s). unfold tok_put at 2. cbn [fst snd]. rewrite (proj2 (Z.eqb_neq c 10)) by done.
    rewrite take_app_length, drop_app_ge by lia.
    replace (S (length pre) - length pre)%nat with 1%nat by lia.
    change ([c] ++ drop 1 rest) with ([c] ++ drop 1 rest). rewrite app_assoc.
    replace (S (length pre)) with (length (pre ++ [c])) by (rewrite length_app; cbn; lia).
    rewrite (IH (pre ++ [c]) (drop 1 rest)) by done. rewrite drop_drop, <- !app_assoc. done.
Qed.

Section View.
Context (cols : nat) (prompt : list Z).

(** How many characters are off the left edge, and what is shown. *)
Definition scrolled (pos : nat) : nat := (length prompt + pos + 1 - cols)%nat.
Definition window (text : list Z) (pos : nat) : list Z :=
  take (cols - length prompt) (drop (scrolled pos) text).
Definition shows (r : list Z * nat) (text : list Z) (pos : nat) : Prop :=
  r = (prompt ++ window text pos, (length prompt + pos - scrolled pos)%nat).

Context (Hprompt : (0 < length prompt < cols)%nat) (Hpc : Forall line_char prompt).

Lemma trim_left_ok b len pos : (pos <= len)%nat ->
  trim_left cols (length prompt) b len pos = Some ((b + scrolled pos)%nat, (len - scrolled pos)%nat, (pos - scrolled pos)%nat).
Proof.
  unfold scrolled. revert b len. induction pos as [|pos IH]; intros b len Hl; cbn [trim_left].
  - destruct (Nat.leb_spec cols (length prompt + 0)); [lia|]. apply f_equal, injective_projections; [apply injective_projections|]; cbn [fst snd]; lia.
  - destruct (Nat.leb_spec cols (length prompt + S pos)).
    + destruct len as [|len]; [lia|]. rewrite IH by lia. apply f_equal, injective_projections; [apply injective_projections|]; cbn [fst snd]; lia.
    + apply f_equal, injective_projections; [apply injective_projections|]; cbn [fst snd]; lia.
Qed.
Lemma trim_right_ok len : trim_right cols (length prompt) len = Some (len `min` (cols - length prompt))%nat.
Proof.
  induction len as [|len IH]; cbn [trim_right].
  - destruct (Nat.ltb_spec cols (length prompt + 0)); [lia|]. done.
  - destruct (Nat.ltb_spec cols (length prompt + S len)); [rewrite IH|]; f_equal; lia.
Qed.

(** What a refresh sends. *)
Lemma refresh_tokens text rest pos : (pos <= length text)%nat ->
  refreshLine cols prompt (text ++ rest) (length text) pos =
  Some ([CR] ++ term_putstr prompt ++ term_putstr (window text pos) ++ [EL] ++
        [CR; CUF (Z.of_nat (pos - scrolled pos + length prompt))]).
Proof.
  intros Hp. unfold refreshLine. rewrite trim_left_ok by done. cbn [mbind option_bind].
  rewrite trim_right_ok. cbn [mbind option_bind]. rewrite Nat.add_0_l.
  assert (Hw : loads (text ++ rest) (scrolled pos) ((length text - scrolled pos) `min` (cols - length prompt)) =
    Some (window text pos)); [|by rewrite Hw].
  unfold loads, window. assert (scrolled pos <= pos)%nat by (unfold scrolled; lia).
  rewrite decide_True by (rewrite length_app; lia). f_equal.
  rewrite drop_app_le by lia. rewrite take_app_le by (rewrite length_drop; lia).
  destruct (decide (length text - scrolled pos <= cols - length prompt)%nat).
  - rewrite Nat.min_l by done. rewrite !take_ge by (rewrite length_drop; lia). done.
  - by rewrite Nat.min_r by lia.
Qed.
(** A refresh shows the text, whatever was there before. *)
Lemma refresh_ok text rest pos : Forall line_char text -> (pos <= length text)%nat ->
  exists t, refreshLine cols prompt (text ++ rest) (length text) pos = Some t /\
    forall r, shows (foldl tok_put r t) text pos.
Proof.
  intros Ht Hp. rewrite refresh_tokens by done. eexists. split; [done|]. intros [row k]. unfold shows.
  rewrite !foldl_app. cbn [foldl tok_put fst snd].
  assert (Hwc : Forall line_char (window text pos)) by (unfold window; by apply Forall_take, Forall_drop).
  pose proof (put_str prompt [] row Hpc) as E1. cbn [app length] in E1. rewrite E1.
  rewrite (put_str (window text pos) prompt (drop (length prompt) row) Hwc).
  cbn [fst snd]. rewrite app_assoc, take_app_length. f_equal. unfold scrolled in *. lia.
Qed.
(** Before the line is full a character at its end is only sent. *)
Lemma append_ok text c r : Forall line_char text -> line_char c ->
  (length prompt + (length text + 1) < cols)%nat ->
  shows r text (length text) -> shows (tok_put r (CH c)) (text ++ [c]) (length (text ++ [c])).
Proof.
  intros Ht (_ & _ & Hc) Hl ->. unfold shows, tok_put, window. cbn [fst snd].
  rewrite (proj2 (Z.eqb_neq c 10)) by done. rewrite length_app. cbn [length].
  assert (H0 : scrolled (length text) = 0%nat) by (unfold scrolled; lia).
  assert (H1 : scrolled (length text + 1) = 0%nat) by (unfold scrolled; lia).
  rewrite H0, H1, !drop_0, (take_ge text), (take_ge (text ++ [c])) by (rewrite ?length_app; cbn; lia).
  rewrite !Nat.sub_0_r, (take_ge (prompt ++ text)), drop_ge by (rewrite length_app; lia).
  rewrite app_nil_r, <- app_assoc. f_equal. lia.
Qed.
End View.

(** ** The editor as two strings

    What is before the cursor and what is after it; the entries of the history,
    the line being edited among them, and which of them is shown, counted from
    the last. *)

Record ae := mkAe { al : list Z; ar : list Z; ah : list (list Z); ai : nat }.
Definition text (a : ae) : list Z := al a ++ ar a.

Section Abstract.
Context (cap : nat).

Definition abrowse (up : bool) (a : ae) : ae :=
  let n := length (ah a) in
  if (n <=? 1)%nat then a else
  let h := <[(n - 1 - ai a)%nat := text a]> (ah a) in
  match (if up then (if (S (ai a) <? n)%nat then Some (S (ai a)) else None) else
         match ai a with O => None | S i => Some i end) with
  | None => mkAe (al a) (ar a) h (ai a)
  | Some i => mkAe (take cap (default [] (h !! (n - 1 - i)%nat))) [] h i
  end.
Definition astep (c : Z) (a : ae) : ae :=
  let ed l r := mkAe l r (ah a) (ai a) in
  if c =? KC_BACKSPACE then ed (take (length (al a) - 1) (al a)) (ar a)
  else if c =? KC_LEFT then ed (take (length (al a) - 1) (al a)) (drop (length (al a) - 1) (al a) ++ ar a)
  else if c =? KC_RIGHT then ed (al a ++ take 1 (ar a)) (drop 1 (ar a))
  else if c =? KC_UP then abrowse true a
  else if c =? KC_DOWN then abrowse false a
  else if c =? KC_DEL then ed (al a) (drop 1 (ar a))
  else if c =? KC_HOME then ed [] (text a)
  else if c =? KC_END then ed (text a) []
  else if c =? KC_CTRL_U then ed [] []
  else if c =? KC_CTRL_K then ed (al a) []
  else if isprint c && (length (text a) <? cap)%nat then ed (al a ++ [c]) (ar a)
  else a.
End Abstract.

(** ** Buffers that hold a string *)

Section Editor.
(** The bytes of the buffer after those the editor is told of. *)
Context (extra : nat).

(** [s], a zero, and whatever follows. *)
Definition holds_str (b s : list Z) (cap : nat) : Prop :=
  (length b = S cap + extra /\ length s <= cap)%nat /\ exists junk, b = s ++ 0 :: junk.

Lemma holds_str_len b s cap : holds_str b s cap -> (length s <= cap)%nat.
Proof. by intros [[_ ?] _]. Qed.
Lemma line_char_bytes s : Forall line_char s -> Forall is_u8 s.
Proof. intros H. eapply Forall_impl; [exact H|]. by intros c []. Qed.
Lemma line_char_cstr s : Forall line_char s -> is_cstr s.
Proof. intros H. eapply Forall_impl; [exact H|]. by intros c (? & ? & _). Qed.
Lemma store_at (p q : list Z) y v : is_u8 v -> store (p ++ y :: q) (length p) v = Some (p ++ v :: q).
Proof.
  intros Hv. unfold store. rewrite decide_True by (rewrite length_app; cbn; lia).
  rewrite u8_small by done. f_equal. by rewrite insert_app_r_alt, Nat.sub_diag by lia.
Qed.
Lemma holds_strlen b s cap : holds_str b s cap -> is_cstr s -> str_at b 0 = Some s.
Proof.
  intros [_ (j & ->)] Hs. unfold str_at. rewrite drop_0.
  change (s ++ 0 :: j) with (s ++ [0] ++ j). rewrite app_assoc. by apply str_scan_cstr.
Qed.

(** Moving the end of the string, and ending it anew. *)
Lemma put_tail b s cap p v : holds_str b s cap -> Forall is_u8 v -> (p + length v <= cap)%nat ->
  exists b', (b ← stores b p v; store b (p + length v) 0) = Some b' /\ holds_str b' (take p b ++ v) cap.
Proof.
  intros [[Hl _] _] Hv Hp. rewrite stores_splice by (done || lia). cbn [mbind option_bind].
  unfold splice. destruct (drop (p + length v) b) as [|y r] eqn:E.
  { apply (f_equal length) in E. rewrite length_drop in E. cbn in E. lia. }
  rewrite app_assoc. assert (Hlen : length (take p b ++ v) = (p + length v)%nat)
    by (rewrite length_app, length_take; lia).
  rewrite <- Hlen, store_at by by_decide. eexists. split; [done|]. split; [|by eexists].
  apply (f_equal length) in E. rewrite length_drop in E. rewrite (length_app (take p b ++ v)), Hlen. cbn in *. lia.
Qed.
Lemma put_end b s cap p : holds_str b s cap -> (p <= cap)%nat ->
  exists b', store b p 0 = Some b' /\ holds_str b' (take p b) cap.
Proof.
  intros Hb Hp. destruct (put_tail b s cap p [] Hb (Forall_nil_2 _)) as (b' & E & Hb'); [cbn; lia|].
  cbn in E. rewrite Nat.add_0_r in E. rewrite app_nil_r in Hb'. by exists b'.
Qed.
Lemma load_tail (l r j : list Z) : loads ((l ++ r) ++ 0 :: j) (length l) (length r) = Some r.
Proof.
  unfold loads. rewrite decide_True by (rewrite !length_app; lia).
  by rewrite <- app_assoc, drop_app_length, take_app_length.
Qed.

(** The changes the keys make. *)
Lemma buf_backspace b l x r cap : holds_str b ((l ++ [x]) ++ r) cap -> Forall is_u8 r ->
  exists b', (b ← memmove b (length l) (S (length l)) (length r); store b (length l + length r) 0) = Some b' /\
    holds_str b' (l ++ r) cap.
Proof.
  intros Hb Hr. pose proof (holds_str_len _ _ _ Hb) as Hlen. rewrite !length_app in Hlen. cbn in Hlen.
  destruct (put_tail b _ cap (length l) r Hb Hr) as (b' & E & Hb'); [lia|].
  pose proof Hb as [_ (j & Ej)]. subst b. unfold memmove.
  replace (S (length l)) with (length (l ++ [x])) by (rewrite length_app; cbn; lia).
  rewrite load_tail. cbn [mbind option_bind]. exists b'. split; [exact E|].
  replace (take (length l) (((l ++ [x]) ++ r) ++ 0 :: j)) with l in Hb'; [done|].
  rewrite <- !app_assoc. by rewrite take_app_length.
Qed.
Lemma buf_del b l x r cap : holds_str b (l ++ x :: r) cap -> Forall is_u8 r ->
  exists b', (b ← memmove b (length l) (length l + 1) (length r); store b (length l + length r) 0) = Some b' /\
    holds_str b' (l ++ r) cap.
Proof.
  intros Hb Hr. rewrite Nat.add_1_r. apply (buf_backspace b l x r cap); [|done].
  by rewrite <- app_assoc.
Qed.
Lemma buf_insert b l r c cap : holds_str b (l ++ r) cap -> Forall is_u8 r -> is_u8 c ->
  (length (l ++ r) < cap)%nat ->
  exists b', (b ← memmove b (length l + 1) (length l) (length r); b ← store b (length l) c;
              store b (length (l ++ r) + 1) 0) = Some b' /\ holds_str b' ((l ++ [c]) ++ r) cap.
Proof.
  intros [[Hl _] (j & ->)] Hr Hc Hcap. unfold memmove. rewrite load_tail. cbn [mbind option_bind].
  rewrite length_app in Hcap. rewrite stores_splice by (done || (rewrite !length_app; cbn; rewrite !length_app in Hl; cbn in Hl; lia)).
  cbn [mbind option_bind]. unfold splice.
  (* the cell at the cursor, and what follows the moved string *)
  assert (exists y, take (length l + 1) ((l ++ r) ++ 0 :: j) = l ++ [y]) as (y & Ey).
  { destruct (r ++ 0 :: j) as [|y q] eqn:E; [by destruct r|]. exists y.
    rewrite <- app_assoc, E. replace (l ++ y :: q) with ((l ++ [y]) ++ q) by (by rewrite <- app_assoc).
    apply take_app_length'. rewrite length_app. cbn. lia. }
  rewrite Ey. destruct (drop (length l + 1 + length r) ((l ++ r) ++ 0 :: j)) as [|z q] eqn:Eq.
  { apply (f_equal length) in Eq. rewrite length_drop in Eq. cbn [length] in Eq. rewrite Hl in Eq. lia. }
  assert (Hq : length q = (cap + extra - (length l + 1 + length r))%nat).
  { apply (f_equal length) in Eq. rewrite length_drop, Hl in Eq. cbn [length] in Eq. lia. }
  replace ((l ++ [y]) ++ r ++ z :: q) with (l ++ y :: (r ++ z :: q)) by (by rewrite <- app_assoc).
  rewrite store_at by done. cbn [mbind option_bind].
  replace (l ++ c :: r ++ z :: q) with (((l ++ [c]) ++ r) ++ z :: q) by (by rewrite <- !app_assoc).
  replace (length (l ++ r) + 1)%nat with (length ((l ++ [c]) ++ r)) by (rewrite !length_app; cbn; lia).
  rewrite store_at by by_decide. eexists. split; [done|]. split; [|by eexists].
  split; rewrite !length_app; cbn; lia.
Qed.

(** ** The editor refines the two strings, and shows them *)

Section Refine.
Context (cols : nat) (prompt : list Z) (cap : nat).
Context (Hprompt : (0 < length prompt < cols)%nat) (Hpc : Forall line_char prompt).

(** The state represents [a]; there is memory. *)
Record reps (s : ed) (a : ae) : Prop := {
  r_buf : holds_str (buf s) (text a) cap;
  r_chars : Forall line_char (text a);
  r_pos : pos s = length (al a);
  r_len : len s = length (text a);
  r_lines : lines (hist s) = Some (Some <$> ah a);
  r_mem : mem (hist s) = [];
  r_entries : Forall (Forall line_char) (ah a);
  r_index : history_index s = Z.of_nat (ai a);
  r_bound : (ai a < length (ah a))%nat
}.
Definition displays (s : ed) (a : ae) : Prop := shows cols prompt (screen (out s)) (text a) (length (al a)).

Lemma refreshed_ok s a : reps s a ->
  exists s', refreshed cols prompt s = Some s' /\ reps s' a /\ displays s' a.
Proof.
  intros [Hb Hc Hp Hl Hh Hm He Hi Hn]. pose proof Hb as [_ (j & Ej)].
  destruct (refresh_ok cols prompt Hprompt Hpc (text a) (0 :: j) (length (al a)) Hc) as (t & E & Ht);
    [unfold text; rewrite length_app; lia|].
  unfold refreshed. rewrite Ej, Hl, Hp, E. cbn [mbind option_bind]. eexists. split; [done|].
  split; [split; cbn; try done; by rewrite <- Ej|].
  unfold displays, screen. cbn [out]. rewrite foldl_app. apply Ht.
Qed.

(** A key that changes the line and not the history. *)
Lemma edited_ok s a b l r : reps s a -> holds_str b (l ++ r) cap -> Forall line_char (l ++ r) ->
  exists s', refreshed cols prompt (set_text s b (length l) (length (l ++ r))) = Some s' /\
    reps s' (mkAe l r (ah a) (ai a)) /\ displays s' (mkAe l r (ah a) (ai a)).
Proof.
  intros [Hb Hc Hp Hl Hh Hm He Hi Hn] Hb' Hc'. apply refreshed_ok. by split.
Qed.

Lemma browse_ok c s a : reps s a -> displays s a -> c = KC_UP \/ c = KC_DOWN ->
  exists s', browse cols prompt cap c s = Some s' /\ reps s' (abrowse cap (c =? KC_UP) a) /\
    displays s' (abrowse cap (c =? KC_UP) a).
Proof.
  intros Hr Hd Hc. pose proof Hr as [Hb Hch Hp Hl Hh Hm He Hi Hn].
  unfold browse, abrowse. rewrite Hh. cbn [mbind option_bind]. rewrite length_fmap.
  destruct (Nat.leb_spec (length (ah a)) 1) as [H1|H1].
  { assert (Hg : (Z.of_nat (length (ah a)) >? 1) = false) by (rewrite Z.gtb_ltb; apply Z.ltb_ge; lia).
    rewrite Hg. by exists s. }
  rewrite (proj2 (Z.gtb_lt _ _)) by lia. rewrite Hi.
  set (k := (length (ah a) - 1 - ai a)%nat).
  assert (Hk : Z.of_nat (length (ah a)) - 1 - Z.of_nat (ai a) = Z.of_nat k) by (unfold k; lia).
  rewrite Hk, (proj2 (Z.ltb_ge _ _)), (proj2 (Z.leb_gt _ _)) by (unfold k; lia). cbn [orb].
  rewrite (holds_strlen _ _ _ Hb (line_char_cstr _ Hch)). cbn [mbind option_bind].
  rewrite Hm. cbn [malloc]. rewrite Nat2Z.id, <- list_fmap_insert.
  set (h := <[k := text a]> (ah a)).
  assert (Hh' : Forall (Forall line_char) h) by (by apply Forall_insert).
  assert (Hlh : length h = length (ah a)) by apply length_insert.
  (* without another entry only the history changes *)
  assert (Hstay : forall i, i = Z.of_nat (ai a) -> exists s', Some (mkEd (buf s) (pos s) (len s) i (mkHistory (Some (Some <$> h)) []) (out s)) = Some s' /\
    reps s' (mkAe (al a) (ar a) h (ai a)) /\ displays s' (mkAe (al a) (ar a) h (ai a))).
  { intros i ->. eexists. split; [done|]. split; [|done]. split; cbn; try done. by rewrite Hlh. }
  assert (Hmove : forall i, (i < length (ah a))%nat -> exists s',
    (entry ← mjoin ((Some <$> h) !! Z.to_nat (Z.of_nat (length (ah a)) - 1 - Z.of_nat i));
     b ← strncpy (buf s) entry cap; b ← store b cap 0; cur ← str_at b 0;
     refreshed cols prompt (mkEd b (length cur) (length cur) (Z.of_nat i) (mkHistory (Some (Some <$> h)) []) (out s)))
    = Some s' /\
    let a' := mkAe (take cap (default [] (h !! (length (ah a) - 1 - i)%nat))) [] h i in reps s' a' /\ displays s' a').
  { intros i Hilt. replace (Z.to_nat _) with (length (ah a) - 1 - i)%nat by lia.
    destruct (lookup_lt_is_Some_2 h (length (ah a) - 1 - i)%nat) as [e Ee]; [lia|].
    rewrite list_lookup_fmap, Ee. cbn [fmap option_fmap option_map mjoin option_join mbind option_bind].
    assert (Hec : Forall line_char e) by (by eapply (Forall_lookup_1 _ _ _ _ Hh')).
    assert (Hpad : length (take cap e ++ replicate (cap - length e) 0) = cap)
      by (rewrite length_app, length_take, length_replicate; lia).
    destruct (put_tail (buf s) _ cap 0 (take cap e ++ replicate (cap - length e) 0) Hb) as (b' & E & Hb').
    - apply Forall_app. split; [by apply line_char_bytes, Forall_take|]. apply Forall_replicate. by_decide.
    - by rewrite Hpad.
    - unfold strncpy. rewrite Hpad in E. cbn [Nat.add] in E.
      destruct (stores (buf s) 0 _) as [b1|]; cbn [mbind option_bind] in *; [|done]. rewrite E. cbn [mbind option_bind].
      rewrite take_0, app_nil_l in Hb'.
      assert (Hb2 : holds_str b' (take cap e) cap).
      { destruct Hb' as [[Hl' _] (j & ->)]. split; [split; [done|rewrite length_take; lia]|]. rewrite <- app_assoc.
        destruct (cap - length e)%nat as [|q]; [by exists j|]. cbn [replicate app]. by eexists. }
      rewrite (holds_strlen _ _ _ Hb2) by (by apply line_char_cstr, Forall_take). cbn [mbind option_bind].
      change (default [] (Some e)) with e. cbv zeta.
      assert (Htext : text (mkAe (take cap e) [] h i) = take cap e) by (unfold text; apply app_nil_r).
      apply refreshed_ok. split; rewrite ?Htext; cbn [al ar ah ai buf pos len hist history_index lines mem];
        try done; [by apply Forall_take|by rewrite Hlh]. }
  destruct Hc as [-> | ->].
  - rewrite !Z.eqb_refl. destruct (Nat.ltb_spec (S (ai a)) (length (ah a))).
    + rewrite (proj2 (Z.ltb_ge _ _)) by lia. rewrite Z.geb_leb, (proj2 (Z.leb_gt _ _)) by lia.
      replace (Z.of_nat (ai a) + 1) with (Z.of_nat (S (ai a))) by lia. by apply Hmove.
    + rewrite (proj2 (Z.ltb_ge _ _)) by lia. rewrite Z.geb_leb, (proj2 (Z.leb_le _ _)) by lia.
      apply Hstay. lia.
  - change (KC_DOWN =? KC_UP) with false. cbv iota. destruct (ai a) as [|i] eqn:Ei.
    + change (Z.of_nat 0 - 1 <? 0) with true. cbv iota. by apply Hstay.
    + rewrite (proj2 (Z.ltb_ge _ _)) by lia. rewrite Z.geb_leb, (proj2 (Z.leb_gt _ _)) by lia.
      replace (Z.of_nat (S i) - 1) with (Z.of_nat i) by lia. apply Hmove. lia.
Qed.

(** A key that puts its text in place with a refresh. *)
Lemma eq_len_pos s a : reps s a -> (pos s <= len s)%nat /\ (len s - pos s)%nat = length (ar a).
Proof. intros [_ _ Hp Hl _ _ _ _ _]. rewrite Hp, Hl. unfold text. rewrite length_app. lia. Qed.

Lemma backspace_ok s a : reps s a -> displays s a ->
  exists s', key cols prompt cap KC_BACKSPACE s = Some s' /\ reps s' (astep cap KC_BACKSPACE a) /\
    displays s' (astep cap KC_BACKSPACE a).
Proof.
  intros Hr Hd. pose proof (eq_len_pos s a Hr) as [Hle Hlr]. pose proof Hr as [Hb Hc Hp Hl _ _ _ _ _].
  change (astep cap KC_BACKSPACE a) with (mkAe (take (length (al a) - 1) (al a)) (ar a) (ah a) (ai a)).
  unfold key. rewrite Z.eqb_refl. unfold text in Hb, Hc, Hl. destruct a as [l r h i]. cbn [al ar ah ai] in *.
  destruct (decide (l = [])) as [->|Hne].
  { cbn in Hp. rewrite Hp. cbn. exists s. done. }
  destruct (exists_last Hne) as (l' & x & ->).
  rewrite length_app in Hp. cbn in Hp. rewrite !length_app in Hl. cbn in Hl.
  rewrite (proj2 (Nat.ltb_lt 0 (pos s))), (proj2 (Nat.ltb_lt 0 (len s))) by lia. cbn [andb].
  assert (Hr8 : Forall is_u8 r) by (apply line_char_bytes; by apply Forall_app in Hc as [_ ?]).
  destruct (buf_backspace (buf s) l' x r cap Hb Hr8) as (b' & E & Hb').
  rewrite Hlr. replace (pos s - 1)%nat with (length l') by lia. replace (pos s) with (S (length l')) by lia.
  replace (len s - 1)%nat with (length l' + length r)%nat by lia.
  destruct (memmove (buf s) _ _ _) as [b1|]; cbn [mbind option_bind] in *; [|done]. rewrite E. cbn [mbind option_bind].
  rewrite length_app, Nat.add_sub, take_app_length, <- length_app.
  apply (edited_ok s (mkAe (l' ++ [x]) r h i)); [done|done|]. rewrite !Forall_app in *. tauto.
Qed.
Lemma del_ok s a : reps s a -> displays s a ->
  exists s', key cols prompt cap KC_DEL s = Some s' /\ reps s' (astep cap KC_DEL a) /\
    displays s' (astep cap KC_DEL a).
Proof.
  intros Hr Hd. pose proof (eq_len_pos s a Hr) as [Hle Hlr]. pose proof Hr as [Hb Hc Hp Hl _ _ _ _ _].
  change (astep cap KC_DEL a) with (mkAe (al a) (drop 1 (ar a)) (ah a) (ai a)).
  unfold key. rewrite Z.eqb_refl. cbn [Z.eqb Pos.eqb KC_DEL KC_BACKSPACE KC_CTRL_T KC_LEFT KC_RIGHT KC_UP KC_DOWN orb].
  unfold text in Hb, Hc, Hl. destruct a as [l r h i]. cbn [al ar ah ai] in *.
  rewrite length_app in Hl. destruct r as [|x r].
  { cbn in Hl. rewrite (proj2 (Nat.ltb_ge (pos s) (len s))), andb_false_r by lia. by exists s. }
  cbn in Hl. rewrite (proj2 (Nat.ltb_lt 0 (len s))), (proj2 (Nat.ltb_lt (pos s) (len s))) by lia. cbn [andb].
  assert (Hr8 : Forall is_u8 r) by (apply line_char_bytes; rewrite Forall_app, Forall_cons in Hc; tauto).
  destruct (buf_del (buf s) l x r cap Hb Hr8) as (b' & E & Hb').
  replace (len s - pos s - 1)%nat with (length r) by (cbn in Hlr; lia). rewrite Hp.
  replace (len s - 1)%nat with (length l + length r)%nat by lia.
  destruct (memmove (buf s) _ _ _) as [b1|]; cbn [mbind option_bind] in *; [|done]. rewrite E. cbn [mbind option_bind].
  rewrite <- length_app. cbn [drop]. rewrite drop_0.
  apply (edited_ok s (mkAe l (x :: r) h i)); [done|done|]. rewrite !Forall_app, !Forall_cons in *. tauto.
Qed.

(** Where the cursor is does not change the text. *)
Lemma moved_ok s a l r : reps s a -> l ++ r = text a ->
  exists s', refreshed cols prompt (set_text s (buf s) (length l) (len s)) = Some s' /\
    reps s' (mkAe l r (ah a) (ai a)) /\ displays s' (mkAe l r (ah a) (ai a)).
Proof.
  intros Hr E. pose proof Hr as [Hb Hc _ Hl _ _ _ _ _]. rewrite Hl, <- E.
  apply edited_ok; [done| |]; by rewrite E.
Qed.
Lemma left_ok s a : reps s a -> displays s a ->
  exists s', key cols prompt cap KC_LEFT s = Some s' /\ reps s' (astep cap KC_LEFT a) /\ displays s' (astep cap KC_LEFT a).
Proof.
  intros Hr Hd. pose proof (r_pos _ _ Hr) as Hp.
  change (astep cap KC_LEFT a) with
    (mkAe (take (length (al a) - 1) (al a)) (drop (length (al a) - 1) (al a) ++ ar a) (ah a) (ai a)).
  unfold key. cbn [Z.eqb Pos.eqb KC_BACKSPACE KC_CTRL_T KC_LEFT]. destruct (Nat.ltb_spec 0 (pos s)).
  - replace (pos s - 1)%nat with (length (take (length (al a) - 1) (al a))) by (rewrite length_take; lia).
    apply moved_ok; [done|]. by rewrite app_assoc, take_drop.
  - destruct a as [[|x l] r h i]; cbn in Hp; [|lia]. by exists s.
Qed.
Lemma right_ok s a : reps s a -> displays s a ->
  exists s', key cols prompt cap KC_RIGHT s = Some s' /\ reps s' (astep cap KC_RIGHT a) /\ displays s' (astep cap KC_RIGHT a).
Proof.
  intros Hr Hd. pose proof (r_pos _ _ Hr) as Hp. pose proof (r_len _ _ Hr) as Hl.
  change (astep cap KC_RIGHT a) with (mkAe (al a ++ take 1 (ar a)) (drop 1 (ar a)) (ah a) (ai a)).
  unfold key. cbn [Z.eqb Pos.eqb KC_BACKSPACE KC_CTRL_T KC_LEFT KC_RIGHT].
  destruct a as [l [|x r] h i]; unfold text in *; cbn [al ar ah ai] in *; rewrite length_app in Hl.
  - cbn in Hl. rewrite Hp, Hl, Nat.add_0_r, Nat.eqb_refl. cbn [negb take drop]. exists s. by rewrite app_nil_r.
  - cbn in Hl. rewrite (proj2 (Nat.eqb_neq (pos s) (len s))) by lia. cbn [negb take drop].
    replace (pos s + 1)%nat with (length (l ++ [x])) by (rewrite length_app; cbn; lia).
    apply (moved_ok s (mkAe l (x :: r) h i)); [done|]. unfold text. cbn. by rewrite <- app_assoc.
Qed.
Lemma cut_line_ok s a p : reps s a -> (p <= length (text a))%nat -> forall l, l = take p (text a) ->
  exists s', (b ← store (buf s) p 0; refreshed cols prompt (set_text s b p p)) = Some s' /\
    reps s' (mkAe l [] (ah a) (ai a)) /\ displays s' (mkAe l [] (ah a) (ai a)).
Proof.
  intros Hr Hp l ->. pose proof Hr as [Hb Hc _ _ _ _ _ _ _].
  destruct (put_end (buf s) _ cap p Hb) as (b' & E & Hb'); [apply holds_str_len in Hb; lia|].
  rewrite E. cbn [mbind option_bind].
  assert (Ht : take p (buf s) = take p (text a)).
  { destruct Hb as [_ (j & ->)]. by rewrite take_app_le. }
  rewrite Ht in Hb'.
  pose proof (edited_ok s a b' (take p (text a)) [] Hr) as H.
  rewrite app_nil_r, length_take, Nat.min_l in H by lia. apply H; [done|by apply Forall_take].
Qed.
Lemma insert_ok c s a : reps s a -> displays s a -> isprint c = true -> (length (text a) < cap)%nat ->
  exists s',
    (if (len s =? pos s)%nat then
      b ← store (buf s) (pos s) c;
      b ← store b (len s + 1) 0;
      let s := set_text s b (pos s + 1) (len s + 1) in
      if (length prompt + len s <? cols)%nat
      then Some (mkEd (buf s) (pos s) (len s) (history_index s) (hist s) (out s ++ [CH c]))
      else refreshed cols prompt s
    else
      b ← memmove (buf s) (pos s + 1) (pos s) (len s - pos s);
      b ← store b (pos s) c;
      b ← store b (len s + 1) 0;
      refreshed cols prompt (set_text s b (pos s + 1) (len s + 1))) = Some s' /\
    reps s' (mkAe (al a ++ [c]) (ar a) (ah a) (ai a)) /\ displays s' (mkAe (al a ++ [c]) (ar a) (ah a) (ai a)).
Proof.
  intros Hr Hd Hpr Hcap. pose proof (isprint_line_char c Hpr) as Hlc.
  pose proof (eq_len_pos s a Hr) as [Hle Hlr]. pose proof Hr as [Hb Hc Hp Hl Hh Hm He Hi Hn].
  destruct a as [l r h i]. unfold text in *. cbn [al ar ah ai] in *.
  assert (Hr8 : Forall is_u8 r) by (apply line_char_bytes; by apply Forall_app in Hc as [_ ?]).
  destruct (buf_insert (buf s) l r c cap Hb Hr8 (proj1 Hlc) Hcap) as (b' & E & Hb').
  assert (Hc' : Forall line_char ((l ++ [c]) ++ r)).
  { rewrite !Forall_app in *. split; [|tauto]. split; [tauto|by apply Forall_singleton]. }
  assert (Hp1 : (pos s + 1)%nat = length (l ++ [c])) by (rewrite length_app, Hp; done).
  assert (Hl1 : (len s + 1)%nat = length ((l ++ [c]) ++ r)) by (rewrite Hl, !length_app; cbn; lia).
  destruct (Nat.eqb_spec (len s) (pos s)) as [Heq|Hneq].
  - assert (r = []) as -> by (destruct r; [done|cbn in Hlr; lia]).
    rewrite Hp, Hl. unfold memmove, loads in E. cbn [length] in E.
    rewrite decide_True in E by (destruct Hb as [[Hbl _] _]; rewrite Hbl; rewrite !app_nil_r in Hcap; lia).
    cbn [mbind option_bind] in E. rewrite take_0 in E. cbn [stores mbind option_bind] in E.
    destruct (store (buf s) (length l) c) as [b1|]; cbn [mbind option_bind] in *; [|done].
    rewrite E. cbn [mbind option_bind]. rewrite <- Hl, <- Hp, Hp1, Hl1.
    pose proof (edited_ok s (mkAe l [] h i) b' (l ++ [c]) [] Hr Hb' Hc') as Hed.
    cbn [set_text len]. destruct (Nat.ltb_spec (length prompt + length ((l ++ [c]) ++ [])) cols) as [Hlt|Hge]; [|exact Hed].
    eexists. split; [done|]. split; [by split|]. unfold displays, screen. cbn [out set_text].
    rewrite foldl_app. cbn [foldl]. unfold text. cbn [al ar]. rewrite !app_nil_r in *. 
    unfold displays, text in Hd. cbn [al ar] in Hd. rewrite app_nil_r in Hd.
    apply append_ok; [done|done|done| |exact Hd]. rewrite length_app in Hlt. cbn in Hlt. lia.
  - rewrite Hlr, Hp, Hl.
    destruct (memmove (buf s) _ _ _) as [b1|]; cbn [mbind option_bind] in *; [|done].
    destruct (store b1 (length l) c) as [b2|]; cbn [mbind option_bind] in *; [|done].
    rewrite E. cbn [mbind option_bind]. rewrite <- Hl, <- Hp, Hp1, Hl1.
    exact (edited_ok s (mkAe l r h i) b' (l ++ [c]) r Hr Hb' Hc').
Qed.

Lemma key_ok c s a : reps s a -> displays s a ->
  exists s', key cols prompt cap c s = Some s' /\ reps s' (astep cap c a) /\ displays s' (astep cap c a).
Proof.
  intros Hr Hd. pose proof (r_len _ _ Hr) as Hl.
  destruct (decide (c = KC_BACKSPACE)) as [->|H1]; [by apply backspace_ok|].
  destruct (decide (c = KC_LEFT)) as [->|H2]; [by apply left_ok|].
  destruct (decide (c = KC_RIGHT)) as [->|H3]; [by apply right_ok|].
  destruct (decide (c = KC_DEL)) as [->|H4]; [by apply del_ok|].
  destruct (decide (c = KC_UP)) as [->|H5]; [apply browse_ok; auto|].
  destruct (decide (c = KC_DOWN)) as [->|H6]; [apply browse_ok; auto|].
  destruct (decide (c = KC_HOME)) as [->|H7]; [by apply (moved_ok s a [] (text a))|].
  destruct (decide (c = KC_END)) as [->|H8].
  { unfold key. cbn [Z.eqb Pos.eqb KC_BACKSPACE KC_CTRL_T KC_LEFT KC_RIGHT KC_UP KC_DOWN KC_DEL KC_HOME KC_END orb].
    pose proof (moved_ok s a (text a) [] Hr (app_nil_r _)) as H. rewrite <- Hl in H. exact H. }
  destruct (decide (c = KC_CTRL_U)) as [->|H9]; [by apply (cut_line_ok s a 0); [|lia|]|].
  destruct (decide (c = KC_CTRL_K)) as [->|H10].
  { unfold key. cbn [Z.eqb Pos.eqb KC_BACKSPACE KC_CTRL_T KC_LEFT KC_RIGHT KC_UP KC_DOWN KC_DEL KC_HOME KC_END
      KC_CTRL_U KC_CTRL_K orb]. rewrite (r_pos _ _ Hr). apply cut_line_ok; [done|unfold text; rewrite length_app; lia|].
    unfold text. by rewrite take_app_length. }
  destruct (decide (c = KC_CTRL_T)) as [->|H11]; [by exists s|].
  unfold key, astep. rewrite !(proj2 (Z.eqb_neq c _)) by done. cbn [orb]. rewrite Hl.
  destruct (isprint c && (length (text a) <? cap)%nat) eqn:E; [|by exists s].
  apply andb_true_iff in E as [Hpr Hlt%Nat.ltb_lt]. rewrite <- Hl. by apply insert_ok.
Qed.

(** Keys that do not end the line. *)
Definition edits (c : Z) : Prop := c <> KC_ENTER /\ c <> KC_CTRL_C /\ c <> KC_CTRL_Z.
Definition arun (a : ae) (ks : list Z) : ae := foldl (fun a c => astep cap c a) a ks.
Definition run (s : ed) (ks : list Z) : option ed :=
  foldl (fun s c => s ← s; key cols prompt cap c s) (Some s) ks.

Lemma run_ok ks s a : reps s a -> displays s a ->
  exists s', run s ks = Some s' /\ reps s' (arun a ks) /\ displays s' (arun a ks).
Proof.
  unfold run, arun. revert s a. induction ks as [|c ks IH]; intros s a Hr Hd; [by exists s|].
  cbn [foldl mbind option_bind]. destruct (key_ok c s a Hr Hd) as (s1 & -> & Hr1 & Hd1). by apply IH.
Qed.
Lemma run_cons s c ks : run s (c :: ks) = (s1 ← key cols prompt cap c s; run s1 ks).
Proof.
  unfold run. cbn [foldl mbind option_bind]. destruct (key cols prompt cap c s); [done|].
  cbn [mbind option_bind]. induction ks as [|k ks IH]; [done|exact IH].
Qed.
Lemma edit_loop_run ks c rest s s' : Forall edits ks -> run s ks = Some s' ->
  edit_loop cols prompt cap (ks ++ c :: rest) s = edit_loop cols prompt cap (c :: rest) s'.
Proof.
  revert s. induction ks as [|k ks IH]; intros s Hk Hrun; [by injection Hrun as ->|].
  apply Forall_cons in Hk as [(H1 & H2 & H3) Hk]. rewrite run_cons in Hrun.
  cbn [app]. destruct (key cols prompt cap k s) as [s1|] eqn:E; [|done].
  cbn [mbind option_bind] in Hrun. rewrite <- (IH s1 Hk Hrun). cbn [edit_loop].
  rewrite !(proj2 (Z.eqb_neq k _)) by done. cbn [orb]. by rewrite E.
Qed.
End Refine.

(** A line more, the oldest one less when there are too many. *)
Definition push (max : nat) (es : list (list Z)) (l : list Z) : list (list Z) :=
  (if (length es =? max)%nat then tail es else es) ++ [l].

Section Getline.
Context (max cols cap : nat) (prompt buffer : list Z) (es : list (list Z)).
Context (Hmax : (0 < max)%nat) (Hes : (length es <= max)%nat) (Hec : Forall (Forall line_char) es).
Context (Hprompt : (0 < length prompt < cols)%nat) (Hpc : Forall line_char prompt).
Context (Hbuf : length buffer = (S cap + extra)%nat).
(** [es] are the lines of the history, and there is memory: before the first
    line the history may not have been allocated. *)
Context (h0 : history) (Hm0 : mem h0 = []) (Hh0 : lines h0 = Some (Some <$> es) \/ (lines h0 = None /\ es = [])).

(** The editor when a line begins: nothing typed, one more entry. *)
Definition start : ae := mkAe [] [] (push max es []) 0.

Lemma start_ok : exists s,
  (forall keys, linenoisePrompt max cols buffer (S cap) prompt h0 [] keys =
     edit_loop cols prompt cap keys s) /\
  reps cap s start /\ displays cols prompt s start.
Proof.
  assert (Hadd : linenoise_internal_addhistory max [] true h0 =
    Some (1, mkHistory (Some (Some <$> push max es [])) [])).
  { unfold linenoise_internal_addhistory, push. rewrite (proj2 (Nat.eqb_neq max 0)), Hm0 by lia.
    destruct Hh0 as [-> | [-> Ees]]; [|rewrite Ees; destruct max; [lia|done]].
    cbn. rewrite length_fmap.
    destruct (length es =? max)%nat; [|by rewrite fmap_app]. destruct es; [done|]. cbn. by rewrite fmap_app. }
  destruct buffer as [|x b]; [done|]. cbn in Hbuf.
  exists (mkEd (0 :: b) 0 0 0 (mkHistory (Some (Some <$> push max es [])) []) ([] ++ term_putstr prompt)).
  split; [|split].
  - intros keys. unfold linenoisePrompt. unfold store at 1. rewrite decide_True by (cbn; lia).
    cbn [mbind option_bind insert list_insert]. rewrite Hadd. cbn [mbind option_bind].
    by rewrite Nat.sub_succ, Nat.sub_0_r.
  - split; cbn; try done.
    + split; [cbn; lia|]. by exists b.
    + unfold push. apply Forall_app. split; [|by apply Forall_singleton].
      destruct (_ =? _)%nat; [|done]. destruct es; [done|]. by apply Forall_cons in Hec as [_ ?].
    + unfold push. rewrite length_app. cbn. lia.
  - unfold displays, shows, screen. cbn [out app text al ar start].
    pose proof (put_str prompt [] [] Hpc) as H. cbn [app length] in H. rewrite H, drop_nil, app_nil_r.
    unfold window. rewrite drop_nil, take_nil, app_nil_r. f_equal. unfold scrolled. cbn [length]. lia.
Qed.

Lemma getline_full ks rest : Forall edits ks ->
  exists b h o, linenoise_getline max cols buffer (S cap) prompt h0
      (ks ++ KC_ENTER :: rest) =
    Some (mkEnded (Z.of_nat (length (text (arun cap start ks)))) b h o rest) /\
    str_at b 0 = Some (text (arun cap start ks)) /\ (length (text (arun cap start ks)) <= cap)%nat /\
    length b = length buffer /\
    let es' := take (length (ah (arun cap start ks)) - 1) (ah (arun cap start ks)) in
    h = mkHistory (Some (Some <$> es')) [] /\ Forall (Forall line_char) es' /\ Forall line_char (text (arun cap start ks)).
Proof.
  intros Hk. destruct start_ok as (s & Hs & Hr & Hd).
  destruct (run_ok cols prompt cap Hprompt Hpc ks s start Hr Hd) as (s' & Hrun & Hr' & _).
  set (a := arun cap start ks) in *. pose proof Hr' as [Hb Hc _ Hl Hh Hm He _ Hn].
  unfold linenoise_getline. cbn [getline_loop]. rewrite Hs, (edit_loop_run cols prompt cap ks _ _ s s' Hk Hrun).
  cbn [edit_loop]. rewrite Z.eqb_refl. cbn [orb]. unfold pop_history. rewrite Hh. cbn [mbind option_bind].
  assert (Hne : exists e q, Some <$> ah a = e :: q) by (destruct (ah a); cbn in *; [lia|eauto]).
  destruct Hne as (e & q & Hne). rewrite Hne. cbn [mbind option_bind]. rewrite <- Hne, Hl.
  change (KC_ENTER =? KC_CTRL_C) with false. change (KC_ENTER =? KC_CTRL_Z) with false.
  cbn [e_res e_buf e_out e_hist e_keys mbind option_bind].
  rewrite (proj2 (Z.eqb_neq _ (-1))), (proj2 (Z.eqb_neq _ LINENOISE_CTRL_C)) by (unfold LINENOISE_CTRL_C; lia).
  cbn [negb]. rewrite Nat2Z.id.
  assert (Hz : load (buf s') (length (text a)) = Some 0).
  { destruct Hb as [_ (j & ->)]. unfold load. by rewrite lookup_app_r, Nat.sub_diag by lia. }
  eexists (buf s'), _, _. split; [|split; [|split; [|split]]].
  - destruct (Z.of_nat (length (text a)) >? 0); [|reflexivity]. rewrite Hz. reflexivity.
  - by apply (holds_strlen _ _ cap); [|apply line_char_cstr].
  - by eapply holds_str_len.
  - destruct Hb as [[-> _] _]. by rewrite Hbuf.
  - cbv zeta. split; [|split; [by apply Forall_take|done]]. by rewrite length_fmap, <- fmap_take, Hm.
Qed.
(** What [linenoise_edits] states. *)
Lemma getline_ok ks rest : Forall edits ks ->
  exists b h o, linenoise_getline max cols buffer (S cap) prompt h0
      (ks ++ KC_ENTER :: rest) =
    Some (mkEnded (Z.of_nat (length (text (arun cap start ks)))) b h o rest) /\
    str_at b 0 = Some (text (arun cap start ks)) /\ (length (text (arun cap start ks)) <= cap)%nat /\
    length b = length buffer /\
    lines h = Some (Some <$> take (length (ah (arun cap start ks)) - 1) (ah (arun cap start ks))).
Proof.
  intros Hk. destruct (getline_full ks rest Hk) as (b & h & o & H1 & H2 & H3 & H4 & -> & _). eauto 10.
Qed.

(** C30: editing a line of input behaves like two strings, before and after the
    cursor: whatever editing keys are pressed - characters, backspace, delete,
    the arrows, home and end, ctrl-U and ctrl-K, up and down in the history -
    before Enter, the call returns the length of the edited text, the buffer
    holds that text and a zero after it, no access leaves the buffer however
    much is typed, the entry that stood for the line is gone from the history
    again and the keys after Enter are not touched. *)
Theorem linenoise_edits ks rest : Forall edits ks ->
  exists b h o, linenoise_getline max cols buffer (S cap) prompt h0
      (ks ++ KC_ENTER :: rest) =
    Some (mkEnded (Z.of_nat (length (text (arun cap start ks)))) b h o rest) /\
    str_at b 0 = Some (text (arun cap start ks)) /\ (length (text (arun cap start ks)) <= cap)%nat /\
    length b = length buffer /\
    lines h = Some (Some <$> take (length (ah (arun cap start ks)) - 1) (ah (arun cap start ks))).
Proof. apply getline_ok. Qed.

(** What the user sees is what is edited: after any keys the row of the
    screen shows the prompt and the part of the text around the cursor that
    fits, scrolled so that the cursor is on the row, and the terminal's cursor
    is where the next character will go. *)
Theorem linenoise_shows ks : exists s0 s,
  (forall keys, linenoisePrompt max cols buffer (S cap) prompt h0 [] keys =
     edit_loop cols prompt cap keys s0) /\
  run cols prompt cap s0 ks = Some s /\
  shows cols prompt (screen (out s)) (text (arun cap start ks)) (length (al (arun cap start ks))) /\
  ((screen (out s)).2 < cols)%nat.
Proof.
  destruct start_ok as (s0 & Hs & Hr & Hd).
  destruct (run_ok cols prompt cap Hprompt Hpc ks s0 start Hr Hd) as (s & Hrun & _ & Hd').
  exists s0, s. split; [exact Hs|]. split; [exact Hrun|]. split; [exact Hd'|].
  unfold displays, shows in Hd'. rewrite Hd'. cbn [snd]. unfold scrolled. lia.
Qed.
End Getline.
End Editor.

(** ** Lines that are added *)

Fixpoint join_lines (segs : list (list Z)) : list Z :=
  match segs with [] => [] | [s] => s | s :: segs => s ++ 10 :: join_lines segs end.

Lemma first_line_app s r : Forall (fun c => c <> 10) s ->
  first_line s = (s, None) /\ first_line (s ++ 10 :: r) = (s, Some r).
Proof.
  induction s as [|c s IH]; intros Hs; [done|]. apply Forall_cons in Hs as [Hc Hs].
  cbn [first_line app]. rewrite (proj2 (Z.eqb_neq c 10)) by done. destruct (IH Hs) as [-> ->]. done.
Qed.

(** Every line of the text that is not empty is added, the oldest one leaving
    when there are too many. *)
Lemma linenoise_addhistory_ok max es segs : (0 < max)%nat -> segs <> [] ->
  Forall (Forall (fun c => c <> 10)) segs ->
  linenoise_addhistory max (join_lines segs) (mkHistory (Some (Some <$> es)) []) =
  Some (1, mkHistory (Some (Some <$> foldl (push max) es (filter (fun s => s <> []) segs))) []).
Proof.
  intros Hmax Hne Hs. unfold linenoise_addhistory, linenoise_internal_addhistory.
  rewrite (proj2 (Nat.eqb_neq max 0)) by lia. cbn [lines mem negb].
  assert (H : forall fuel, (length (join_lines segs) < fuel)%nat ->
    add_lines max fuel (join_lines segs) false (Some <$> es) [] =
    Some (1, Some <$> foldl (push max) es (filter (fun s => s <> []) segs), [])); [|by rewrite H by lia].
  assert (Hpush : forall (l : list Z) e, (if (length (Some <$> e) =? max)%nat then tail (Some <$> e) else Some <$> e) ++ [Some l] =
    Some <$> push max e l).
  { intros l e. unfold push. rewrite length_fmap, fmap_app. by destruct (_ =? _)%nat, e. }
  revert es. induction segs as [|s segs IH]; [done|]. apply Forall_cons in Hs as [Hs Hss].
  intros es [|fuel] Hf; [lia|]. cbn [add_lines].
  assert (Hcons : (if (0 <? length s)%nat || false then
        let '(ok, m) := malloc [] in
        (ok, m, if ok then (if (length (Some <$> es) =? max)%nat then tail (Some <$> es) else Some <$> es) ++ [Some s]
                else Some <$> es)
      else (true, [], Some <$> es)) =
    (true, [], Some <$> (if decide (s <> []) then push max es s else es))).
  { destruct s as [|c s]; [done|]. cbn [length Nat.ltb Nat.leb orb malloc]. by rewrite Hpush. }
  assert (Hstep : foldl (push max) es (filter (fun s => s <> []) (s :: segs)) =
    foldl (push max) (if decide (s <> []) then push max es s else es) (filter (fun s => s <> []) segs)).
  { rewrite filter_cons. by destruct (decide (s <> [])). }
  rewrite Hstep. destruct segs as [|s1 segs].
  - cbn [join_lines]. destruct (first_line_app s [] Hs) as [-> _]. by rewrite Hcons.
  - change (join_lines (s :: s1 :: segs)) with (s ++ 10 :: join_lines (s1 :: segs)) in *.
    destruct (first_line_app s (join_lines (s1 :: segs)) Hs) as [_ ->]. rewrite Hcons. cbn [negb].
    rewrite length_app in Hf. cbn [length] in Hf.
    destruct (join_lines (s1 :: segs)) as [|c q] eqn:E; [|apply IH; [done|done|cbn; cbn in Hf; lia]].
    (* nothing is left: the last line is empty *)
    assert (s1 = [] /\ segs = []) as [-> ->].
    { destruct segs; cbn in E; [done|]. by apply app_nil in E as [_ ?]. }
    done.
Qed.

(** The saved file, added as a text, is the same history again. *)
Lemma linenoise_save_load max es : (0 < max)%nat -> es <> [] -> (length es <= max)%nat ->
  Forall (fun s => s <> [] /\ Forall (fun c => c <> 10) s) es ->
  exists f, linenoise_savehistory max true (mkHistory (Some (Some <$> es)) []) = Some (0, Some f) /\
    linenoise_addhistory max f (mkHistory (Some []) []) = Some (1, mkHistory (Some (Some <$> es)) []).
Proof.
  intros Hmax Hne Hl Hs. unfold linenoise_savehistory. rewrite (proj2 (Nat.eqb_neq max 0)) by lia. cbn [lines].
  assert (Hm : mapM id (Some <$> es) = Some es) by (clear; induction es as [|e l IH]; [done|]; cbn in *; by rewrite IH).
  destruct es as [|e l]; [done|]. cbn [fmap list_fmap] in *. rewrite Hm. cbn [negb mbind option_bind].
  eexists. split; [reflexivity|]. set (es := e :: l) in *.
  assert (Hj : concat ((fun s => s ++ [10]) <$> es) = join_lines (es ++ [[]])).
  { clear. induction es as [|s es IH]; [done|]. cbn [fmap list_fmap concat]. fold (fmap (M:=list) (fun s => s ++ [10]) es).
    rewrite IH. cbn [app]. destruct (es ++ [[]]) as [|x q] eqn:E; [by destruct es|].
    cbn [join_lines]. by rewrite <- app_assoc. }
  change ((e ++ [10]) :: list_fmap _ _ (fun s => s ++ [10]) l) with ((fun s => s ++ [10]) <$> es). rewrite Hj.
  change (Some []) with (Some (Some <$> ([] : list (list Z)))). rewrite linenoise_addhistory_ok.
  - f_equal. rewrite filter_app, filter_cons_False, app_nil_r by tauto.
    assert (Hf : filter (fun s => s <> []) es = es).
    { clear - Hs. induction es as [|s es IH]; [done|]. apply Forall_cons in Hs as [[H _] Hs]. rewrite filter_cons_True by done. by rewrite IH. }
    assert (Hp : forall a, (length (a ++ es) <= max)%nat -> foldl (push max) a es = a ++ es).
    { clear. induction es as [|s es IH]; intros a Ha; [by rewrite app_nil_r|]. cbn [foldl]. rewrite length_app in Ha. cbn in Ha.
      assert (Hx : push max a s = a ++ [s]) by (unfold push; by rewrite (proj2 (Nat.eqb_neq _ _)) by lia).
      rewrite Hx, IH; rewrite <- ?app_assoc; [done|]. rewrite !length_app. cbn. lia. }
    rewrite Hf, Hp by done. done.
  - done.
  - by destruct es.
  - apply Forall_app. split; [|repeat constructor]. eapply Forall_impl; [exact Hs|]. by intros s [].
Qed.

(** ** Examples *)


Lemma linenoise_edits_witness :
  let ks := [97; 98; KC_LEFT; KC_BACKSPACE; 99; KC_END; 100] in
  exists b h o, linenoise_getline 3 8 (replicate 11 255) 10 [62; 32] (mkHistory (Some [Some [120]]) [])
      (ks ++ [KC_ENTER; 113]) = Some (mkEnded 3 b h o [113]) /\ str_at b 0 = Some [99; 98; 100] /\
    lines h = Some [Some [120]].
Proof.
  cbv zeta. set (ks := [97; 98; KC_LEFT; KC_BACKSPACE; 99; KC_END; 100]).
  destruct (linenoise_edits 1 3 8 9 [62; 32] (replicate 11 255) [[120]] ltac:(lia) ltac:(cbn; lia)
    ltac:(by_decide) ltac:(cbn; lia) ltac:(by_decide) eq_refl (mkHistory (Some [Some [120]]) []) eq_refl
    (or_introl eq_refl) ks [113]) as (b & h & o & H1 & H2 & _ & _ & H3).
  { repeat (apply Forall_cons; split; [split; [|split]; discriminate|]). constructor. }
  exists b, h, o. split; [exact H1|]. split; [exact H2|exact H3].
Defined.
Lemma linenoise_shows_witness :
  let ks := [97; 98; 99; 100; 101; 102; 103; KC_LEFT] in
  exists s0 s, run 8 [62; 32] 9 s0 ks = Some s /\
    shows 8 [62; 32] (screen (out s)) [97; 98; 99; 100; 101; 102; 103] 6 /\
    window 8 [62; 32] [97; 98; 99; 100; 101; 102; 103] 6 = [98; 99; 100; 101; 102; 103].
Proof.
  destruct (linenoise_shows 0 3 8 9 [62; 32] (replicate 10 255) [] ltac:(lia) ltac:(cbn; lia)
    ltac:(by_decide) ltac:(cbn; lia) ltac:(by_decide) eq_refl (mkHistory None []) eq_refl
    (or_intror (conj eq_refl eq_refl)) [97; 98; 99; 100; 101; 102; 103; KC_LEFT])
    as (s0 & s & _ & H1 & H2 & _).
  exists s0, s. split; [exact H1|]. split; [exact H2|reflexivity].
Defined.

(** The history is browsed with up and down; the line that was being typed
    comes back. *)
Example up_and_down : exists b h o, linenoise_getline 3 8 (replicate 10 255) 10 [62; 32]
    (mkHistory (Some [Some [120; 121]; Some [122]]) []) [97; KC_UP; KC_UP; 33; KC_DOWN; KC_DOWN; 98; KC_ENTER] =
  Some (mkEnded 2 b h o []) /\ str_at b 0 = Some [97; 98] /\
  lines h = Some [Some [120; 121; 33]; Some [122]].
Proof. eexists _, _, _. split; [vm_compute; reflexivity|]. split; reflexivity. Qed.
(** ctrl-C abandons the line and a new one begins. *)
Example abandoned : exists b h o, linenoise_getline 3 8 (replicate 10 255) 10 [62; 32] (mkHistory None [])
    [97; 98; KC_CTRL_C; 99; KC_ENTER] = Some (mkEnded 1 b h o []) /\ str_at b 0 = Some [99].
Proof. eexists _, _, _. split; [vm_compute; reflexivity|reflexivity]. Qed.

(** With an empty prompt the cursor of an empty line is shown a column too far:
    ESC [ 0 C moves it forward. *)
Example empty_prompt : exists s, run 8 [] 9 (mkEd (replicate 10 0) 0 0 0 (mkHistory (Some [Some []]) []) [])
    [97; KC_HOME] = Some s /\ pos s = 0%nat /\ screen (out s) = ([97], 1%nat).
Proof. eexists. split; [vm_compute; reflexivity|]. split; reflexivity. Qed.
(** Without memory for the entry of the line there is nothing to take from the
    history when it ends: the number of its lines becomes negative. *)
Example no_entry : linenoise_getline 3 8 (replicate 10 255) 10 [62; 32] (mkHistory (Some []) [false])
    [97; KC_ENTER] = None.
Proof. reflexivity. Qed.
(** A line of the history that memory runs out for while it is browsed is a null
    pointer the next time it is shown. *)
Example no_copy : linenoise_getline 3 8 (replicate 10 255) 10 [62; 32]
    (mkHistory (Some [Some [120]]) [true; false; true]) [97; KC_UP; KC_DOWN; KC_ENTER] = None.
Proof. reflexivity. Qed.
(** A prompt as wide as the row leaves no column for the cursor. *)
Example wide_prompt : refreshLine 8 (replicate 8 62) (replicate 10 0) 0 0 = None.
Proof. reflexivity. Qed.
