(* ===== verification/Flash.v ===== *)
(** * Flash: the internal flash memory

    Models the flash functions of src/common.c, which find the sectors of the
    flash memory and write to it in whole write units, and their client: the
    write function and the formatting of a write-once file system on real
    hardware, from src/romfs.c.  What the platform does to write units and to
    sectors is a parameter, with the laws of [FlashChip].

    The flash memory is a list of bytes, the first one at the address [START]. *)

From S2P Require Import Prelude Romfs.

(** INTERNAL_FLASH_SECTOR_SIZE or INTERNAL_FLASH_SECTOR_ARRAY. *)
Inductive geometry := SECTOR_SIZE (size : Z) | SECTOR_ARRAY (sizes : list Z).

Section Flash.
(** INTERNAL_FLASH_START_ADDRESS, INTERNAL_FLASH_SIZE, and
    INTERNAL_FLASH_WRITE_UNIT_SIZE if it is defined. *)
Context (START SIZE : Z) (geom : geometry) (unit_size : option Z).
(** [platform_s_flash_write( from, toaddr, size )] and
    [platform_flash_erase_sector( sect )], with whether it answers
    PLATFORM_OK. *)
Context (s_flash_write : list Z -> list Z -> Z -> option (list Z)).
Context (erase_sector : list Z -> Z -> bool * list Z).

Definition cell (addr : Z) : nat := Z.to_nat (addr - START).

(** ** Sectors *)

(** The total, the number of sectors it is of, and the size of the last one. *)
Fixpoint find_loop (address : Z) (sizes : list Z) (total i last : Z) : Z * Z * Z :=
  match sizes with
  | [] => (total, i, last)
  | s :: sizes => if total <=? address then find_loop address sizes (u32 (total + s)) (i + 1) s
                  else (total, i, last)
  end.
(** The sector, its start and its end. *)
Definition flashh_find_sector (address : Z) : Z * Z * Z :=
  let address := u32 (address - START) in
  match geom with
  | SECTOR_SIZE size =>
      let sect_id := address / size in
      (sect_id, u32 (sect_id * size + START), u32 ((sect_id + 1) * size + START - 1))
  | SECTOR_ARRAY sizes =>
      let '(total, i, last) := find_loop address sizes 0 0 0 in
      (i - 1, u32 (total - last + START), u32 (total + START - 1))
  end.
Definition platform_flash_get_sector_of_address (addr : Z) : Z := (flashh_find_sector addr).1.1.
Definition platform_flash_get_num_sectors : Z :=
  match geom with
  | SECTOR_SIZE size => SIZE / size
  | SECTOR_ARRAY sizes => Z.of_nat (length sizes)
  end.
(** The address and its sector; [used]: [flash_used_size]. *)
Definition platform_flash_get_first_free_block_address (used : Z) : Z * Z :=
  let '(sect, _, temp) := flashh_find_sector (u32 (used + START - 1)) in (u32 (temp + 1), sect + 1).

(** ** Writes *)

(** Copy bytes into a block at [i], to [lim] at most; the bytes that are left. *)
Fixpoint fill (tmpdata : list Z) (i lim : nat) (from : list Z) : list Z * list Z :=
  match from with
  | [] => (tmpdata, [])
  | b :: from' => if (i <? lim)%nat then fill (<[i := b]> tmpdata) (S i) lim from' else (tmpdata, from)
  end.
(** From an aligned address on. *)
Definition write_blocks (blksize : Z) (m from : list Z) (toaddr : Z) : option (list Z) :=
  let blkmask := blksize - 1 in
  let size := Z.of_nat (length from) in
  let rest := Z.land size blkmask in
  let temp := Z.land size (u32 (Z.lnot blkmask)) in
  '(m, toaddr, from) ← (if negb (temp =? 0)
    then m ← s_flash_write m (take (Z.to_nat temp) from) toaddr;
         Some (m, u32 (toaddr + temp), drop (Z.to_nat temp) from)
    else Some (m, toaddr, from));
  if negb (rest =? 0) then
    tmpdata ← loads m (cell toaddr) (Z.to_nat blksize);
    s_flash_write m (fill tmpdata 0 (Z.to_nat rest) from).1 toaddr
  else Some m.
Definition platform_flash_write (m from : list Z) (toaddr : Z) : option (Z * list Z) :=
  let ssize := Z.of_nat (length from) in
  match unit_size with
  | None => m ← s_flash_write m from toaddr; Some (ssize, m)
  | Some blksize =>
      let blkmask := blksize - 1 in
      if negb (Z.land toaddr blkmask =? 0) then
        let rest := Z.land toaddr blkmask in
        let temp := Z.land toaddr (u32 (Z.lnot blkmask)) in
        tmpdata ← loads m (cell temp) (Z.to_nat blksize);
        let '(tmpdata, from) := fill tmpdata (Z.to_nat rest) (Z.to_nat blksize) from in
        m ← s_flash_write m tmpdata temp;
        match from with
        | [] => Some (ssize, m)
        | _ => m ← write_blocks blksize m from (u32 (temp + blksize)); Some (ssize, m)
        end
      else m ← write_blocks blksize m from toaddr; Some (ssize, m)
  end.

(** ** The write-once file system on it *)

(** The address of the image is [pbase]; the image is the rest of the memory. *)
Definition wofs_image (m : list Z) (pbase : Z) : list Z := drop (cell pbase) m.
(** [sim_wofs_write] on real hardware; [before]: the memory before the image. *)
Definition sim_wofs_write (before : list Z) (image from : list Z) (toaddr : Z) : option (list Z) :=
  '(_, m) ← platform_flash_write (before ++ image) from (u32 (toaddr + (START + Z.of_nat (length before))));
  Some (drop (length before) m).

(** The sectors from [first] to [last]; 0: a sector was not erased. *)
Fixpoint erase_sectors (fuel : nat) (first last : Z) (m : list Z) : option (Z * list Z) :=
  match fuel with
  | O => None
  | S fuel =>
      if first <=? last then
        let '(ok, m) := erase_sector m first in
        if negb ok then Some (0, m) else erase_sectors fuel (first + 1) last m
      else Some (1, m)
  end.
(** [wofs_format] on real hardware: its result and the memory.  [None]: the end
    of the file system was not found. *)
Definition wofs_format_hw (used : Z) (m : list Z) : option (Z * list Z) :=
  let '(pbase, sect_first) := platform_flash_get_first_free_block_address used in
  let fs := mkFS (wofs_image m pbase) (Z.lor ROMFS_FS_FLAG_WO ROMFS_FS_FLAG_DIRECT)
              (SIZE - (pbase - START)) in
  found ← romfs_open_file file_read (fuel_of fs) [1] fs 0;
  match found with
  | FS_FILE_OK _ _ _ => None
  | FS_FILE_NOT_FOUND last =>
      let sect_last := platform_flash_get_sector_of_address (u32 (last + pbase)) in
      erase_sectors (S (Z.to_nat (sect_last + 1 - sect_first))) sect_first sect_last m
  end.
End Flash.

(** ** The chip *)

(** Flash memory can clear bits. *)
Definition programmable (m : list Z) (p : nat) (data : list Z) : Prop :=
  forall k b, data !! k = Some b -> exists o, m !! (p + k)%nat = Some o /\ Z.land o b = b.

(** The sizes of the sectors, and where one starts. *)
Definition sectors (SIZE : Z) (g : geometry) : list Z :=
  match g with
  | SECTOR_SIZE size => replicate (Z.to_nat (SIZE / size)) size
  | SECTOR_ARRAY sizes => sizes
  end.
Definition total_of (sizes : list Z) : Z := foldr Z.add 0 sizes.
Definition sector_start (sizes : list Z) (i : nat) : Z := total_of (take i sizes).

(** What the platform promises: whole units are programmed, and a sector is
    erased or an error reported. *)
Class FlashChip (START unit : Z) (sizes : list Z)
    (s_flash_write : list Z -> list Z -> Z -> option (list Z))
    (erase_sector : list Z -> Z -> bool * list Z) := {
  chip_write m data a : START <= a -> (a - START) mod unit = 0 ->
    Z.of_nat (length data) mod unit = 0 ->
    programmable m (Z.to_nat (a - START)) data ->
    s_flash_write m data a = Some (splice m (Z.to_nat (a - START)) data);
  chip_erase m i m' : Z.of_nat (length m) = total_of sizes -> (i < length sizes)%nat ->
    erase_sector m (Z.of_nat i) = (true, m') ->
    m' = splice m (Z.to_nat (sector_start sizes i))
           (replicate (Z.to_nat (sector_start sizes (S i) - sector_start sizes i)) 255)
}.

(** ** Sectors *)

Lemma total_of_app a b : total_of (a ++ b) = total_of a + total_of b.
Proof. induction a as [|x a IH]; [done|]. simpl. rewrite IH. lia. Qed.
Lemma total_of_nonneg sizes : Forall (fun x => 0 < x) sizes -> 0 <= total_of sizes.
Proof. induction 1; simpl; lia. Qed.
Lemma sector_start_S sizes i s : sizes !! i = Some s -> sector_start sizes (S i) = sector_start sizes i + s.
Proof. intros H. unfold sector_start. rewrite (take_S_r _ _ _ H), total_of_app. simpl. lia. Qed.
Lemma sector_start_le sizes i j : Forall (fun x => 0 < x) sizes -> (i <= j)%nat ->
  0 <= sector_start sizes i <= sector_start sizes j.
Proof.
  intros Hp Hij. unfold sector_start.
  rewrite <- (take_drop i (take j sizes)), take_take, total_of_app, Nat.min_l by done.
  assert (0 <= total_of (take i sizes) /\ 0 <= total_of (drop i (take j sizes))); [|lia].
  split; apply total_of_nonneg; [by apply Forall_take|by apply Forall_drop, Forall_take].
Qed.
Lemma sector_start_all sizes i : (length sizes <= i)%nat -> sector_start sizes i = total_of sizes.
Proof. intros H. unfold sector_start. by rewrite take_ge. Qed.
Lemma total_replicate n s : total_of (replicate n s) = Z.of_nat n * s.
Proof. induction n as [|n IH]; [done|]. cbn [replicate]. simpl total_of. rewrite IH. lia. Qed.

(** A memory as the platform describes it: it ends below the last address. *)
Record flash_ok (START SIZE : Z) (geom : geometry) : Prop := {
  fl_sizes : Forall (fun x => 0 < x) (sectors SIZE geom);
  fl_total : total_of (sectors SIZE geom) = SIZE;
  fl_start : 0 <= START;
  fl_end : START + SIZE < 2 ^ 32;
  fl_unit : match geom with SECTOR_SIZE size => 0 < size | _ => True end
}.

Lemma find_loop_ok rest : forall pre address last,
  Forall (fun x => 0 < x) (pre ++ rest) -> total_of (pre ++ rest) < 2 ^ 32 ->
  total_of pre <= address < total_of (pre ++ rest) ->
  exists k s, (pre ++ rest) !! k = Some s /\
    find_loop address rest (total_of pre) (Z.of_nat (length pre)) last =
      (sector_start (pre ++ rest) (S k), Z.of_nat (S k), s) /\
    sector_start (pre ++ rest) k <= address < sector_start (pre ++ rest) (S k).
Proof.
  induction rest as [|s rest IH]; intros pre address last Hp Ht Ha; [rewrite app_nil_r in Ha; lia|].
  cbn [find_loop]. rewrite (proj2 (Z.leb_le _ _)) by lia.
  assert (E : (pre ++ s :: rest) = (pre ++ [s]) ++ rest) by (by rewrite <- app_assoc).
  rewrite E in *. apply Forall_app in Hp as Hp2. destruct Hp2 as [Hp1 Hp2].
  pose proof (total_of_nonneg _ Hp1). pose proof (total_of_nonneg _ Hp2).
  assert (Hs1 : total_of (pre ++ [s]) = total_of pre + s) by (rewrite total_of_app; simpl; lia).
  assert (Ha' : total_of ((pre ++ [s]) ++ rest) = total_of pre + s + total_of rest) by (by rewrite total_of_app, Hs1).
  assert (Hu : u32 (total_of pre + s) = total_of (pre ++ [s])) by (rewrite Hs1 in *; apply u32_small; word_lia).
  rewrite Hu. destruct (Z.leb_spec (total_of (pre ++ [s])) address).
  - replace (Z.of_nat (length pre) + 1) with (Z.of_nat (length (pre ++ [s]))) by (rewrite length_app; simpl; lia).
    apply IH; [done|done|lia].
  - exists (length pre), s. assert (Hl : ((pre ++ [s]) ++ rest) !! length pre = Some s).
    { rewrite <- app_assoc. by apply list_lookup_middle. }
    assert (Hs : sector_start ((pre ++ [s]) ++ rest) (S (length pre)) = total_of (pre ++ [s])).
    { unfold sector_start. f_equal. apply take_app_length'. rewrite length_app. simpl. lia. }
    split; [done|]. split.
    + rewrite Hs. destruct rest as [|s' rest]; cbn [find_loop]; [|rewrite (proj2 (Z.leb_gt _ _)) by lia];
        repeat f_equal; lia.
    + split; [|lia]. unfold sector_start. rewrite <- app_assoc, take_app_length. lia.
Qed.

Section Sectors.
Context (START SIZE : Z) (geom : geometry) (Hok : flash_ok START SIZE geom).

Lemma find_sector_ok a : START <= a < START + SIZE ->
  exists i s, sectors SIZE geom !! i = Some s /\
    flashh_find_sector START geom a =
      (Z.of_nat i, START + sector_start (sectors SIZE geom) i,
       START + sector_start (sectors SIZE geom) i + s - 1) /\
    sector_start (sectors SIZE geom) i <= a - START < sector_start (sectors SIZE geom) i + s.
Proof.
  intros Ha. destruct Hok as [Hpos Htot Hst Hen Hun]. unfold flashh_find_sector.
  rewrite (u32_small (a - START)) by word_lia. destruct geom as [size|sizes]; cbn [sectors] in *.
  - rewrite total_replicate in Htot. set (n := Z.to_nat (SIZE / size)) in *.
    pose proof (Z.div_mod (a - START) size ltac:(lia)) as Hdm.
    pose proof (Z.mod_pos_bound (a - START) size Hun) as Hm.
    assert (Hq : 0 <= (a - START) / size) by (apply Z.div_pos; lia).
    set (k := Z.to_nat ((a - START) / size)). assert (Hk : (a - START) / size = Z.of_nat k) by lia.
    assert ((k < n)%nat) by nia.
    assert (Hs : sector_start (replicate n size) k = Z.of_nat k * size)
      by (unfold sector_start; rewrite take_replicate, Nat.min_l, total_replicate by lia; done).
    exists k, size. rewrite Hs. split; [by apply lookup_replicate_2|]. rewrite Hk in *.
    split; [|nia]. rewrite !u32_small by (split; nia). f_equal; [f_equal|]; lia.
  - destruct (find_loop_ok sizes [] (a - START) 0) as (k & s & Hk & E & Hr); [done|simpl; lia|simpl; lia|].
    cbn [app length total_of foldr] in *. change (Z.of_nat 0) with 0 in E. rewrite E.
    rewrite (sector_start_S _ _ _ Hk) in *. exists k, s. split; [done|].
    pose proof (sector_start_le sizes k k Hpos ltac:(lia)).
    pose proof (sector_start_le sizes (S k) (length sizes) Hpos (lookup_lt_Some _ _ _ Hk)) as H1.
    rewrite (sector_start_S _ _ _ Hk), (sector_start_all sizes (length sizes)) in H1 by done.
    split; [|lia]. rewrite !u32_small by word_lia. f_equal; [f_equal|]; lia.
Qed.
End Sectors.

(** ** Writes in whole units *)

Lemma fill_splice from : forall tmp i lim, (i <= lim <= length tmp)%nat ->
  fill tmp i lim from = (splice tmp i (take (lim - i) from), drop (lim - i) from).
Proof.
  induction from as [|b from IH]; intros tmp i lim Hl; cbn [fill].
  - rewrite take_nil, drop_nil, splice_nil by lia. done.
  - destruct (Nat.ltb_spec i lim).
    + rewrite IH by (rewrite length_insert; lia). destruct (lim - i)%nat as [|n] eqn:E; [lia|].
      replace (lim - S i)%nat with n by lia. cbn [take drop]. rewrite splice_insert; [done|].
      rewrite length_take. lia.
    + replace (lim - i)%nat with 0%nat by lia. rewrite take_0, drop_0, splice_nil by lia. done.
Qed.
(** A block read, changed and written back. *)
Lemma splice_block m q n r d : (q + n <= length m)%nat -> (r + length d <= n)%nat ->
  splice m q (splice (take n (drop q m)) r d) = splice m (q + r) d.
Proof.
  intros Hm Hd. assert (Hb : length (take n (drop q m)) = n) by (rewrite length_take, length_drop; lia).
  apply list_eq. intros i. destruct (decide (i < q \/ q + n <= i)%nat).
  - rewrite !lookup_splice_old by (rewrite ?length_splice, ?Hb; lia). done.
  - destruct (decide (i < q + r \/ q + r + length d <= i)%nat).
    + rewrite (lookup_splice_old m (q + r)) by lia.
      rewrite lookup_splice_new by (rewrite ?length_splice, ?Hb; lia).
      rewrite lookup_splice_old by (rewrite ?Hb; lia).
      rewrite lookup_take_lt, lookup_drop by lia. f_equal. lia.
    + rewrite !lookup_splice_new by (rewrite ?length_splice, ?Hb; lia). f_equal. lia.
Qed.
Lemma programmable_bound m p data : programmable m p data -> data <> [] -> (p + length data <= length m)%nat.
Proof.
  intros H Hne. destruct (lookup_lt_is_Some_2 data (length data - 1)%nat) as [b Hb]; [destruct data; simpl; [done|lia]|].
  destruct (H _ b Hb) as (o & Ho & _). apply lookup_lt_Some in Ho. destruct data; [done|simpl in *; lia].
Qed.
Lemma programmable_block m q n r d : (q + n <= length m)%nat -> (r + length d <= n)%nat ->
  programmable m (q + r) d -> programmable m q (splice (take n (drop q m)) r d).
Proof.
  intros Hm Hd H k b Hk. assert (Hb : length (take n (drop q m)) = n) by (rewrite length_take, length_drop; lia).
  apply lookup_lt_Some in Hk as Hlt. rewrite length_splice, Hb in Hlt by (rewrite ?Hb; lia).
  destruct (decide (k < r \/ r + length d <= k)%nat).
  - rewrite lookup_splice_old in Hk by (rewrite ?Hb; lia).
    rewrite lookup_take_lt, lookup_drop in Hk by lia. exists b. split; [done|]. apply Z.land_diag.
  - rewrite lookup_splice_new in Hk by (rewrite ?Hb; lia).
    destruct (H _ _ Hk) as (o & Ho & Hob). exists o. split; [|done]. rewrite <- Ho. f_equal. lia.
Qed.
Lemma programmable_take m p d n : programmable m p d -> programmable m p (take n d).
Proof. intros H k b Hk. apply H. apply lookup_take_Some in Hk. tauto. Qed.
(** What is left to write after a part is written. *)
Lemma programmable_rest m p d n : programmable m p d -> (p + length d <= length m)%nat -> (n <= length d)%nat ->
  programmable (splice m p (take n d)) (p + n) (drop n d).
Proof.
  intros H Hm Hn k b Hk. rewrite lookup_drop in Hk. destruct (H _ _ Hk) as (o & Ho & Hob). exists o. split; [|done].
  rewrite lookup_splice_old by (rewrite length_take; lia). rewrite <- Ho. f_equal. lia.
Qed.
Lemma splice_take_drop m p d n : (p + length d <= length m)%nat -> (n <= length d)%nat ->
  splice (splice m p (take n d)) (p + n) (drop n d) = splice m p d.
Proof.
  intros Hm Hn. assert (Hl : length (take n d) = n) by (rewrite length_take; lia).
  rewrite <- (take_drop n d) at 3. rewrite <- splice_app, Hl; [done|]. by rewrite take_drop.
Qed.

(** The masks of a unit of [2 ^ k] bytes. *)
Lemma land_rest x k : 0 <= k -> Z.land x (2 ^ k - 1) = x mod 2 ^ k.
Proof. apply land_mask. Qed.
Lemma land_whole x k : is_u32 x -> 0 <= k -> Z.land x (u32 (Z.lnot (2 ^ k - 1))) = x - x mod 2 ^ k.
Proof.
  intros Hx Hk. assert (H : Z.land x (u32 (Z.lnot (2 ^ k - 1))) = Z.ldiff x (Z.ones k)).
  { unfold u32, wrap. rewrite <- Z.land_ones by done. rewrite Z.land_assoc, Z.land_comm, Z.land_assoc.
    rewrite (Z.land_comm (Z.ones 32)), (Z.land_ones x 32) by done. rewrite Z.mod_small by word_lia.
    by rewrite Z.ldiff_land, Z.ones_equiv, Z.sub_1_r. }
  rewrite H, Z.ldiff_ones_r by done. rewrite Z.shiftl_mul_pow2, Z.shiftr_div_pow2 by done.
  pose proof (Z.div_mod x (2 ^ k)). assert (2 ^ k <> 0) by (apply Z.pow_nonzero; lia). nia.
Qed.

Section Writes.
Context (START k : Z) (sizes : list Z).
Context (s_flash_write : list Z -> list Z -> Z -> option (list Z)) (erase_sector : list Z -> Z -> bool * list Z).
Abbreviation u := (2 ^ k).
Context `{!FlashChip START u sizes s_flash_write erase_sector}.
Context (Hk : 0 <= k) (Hst : 0 <= START) (Hsta : START mod u = 0).
(** A memory of whole units below the last address. *)
Definition memory (m : list Z) : Prop :=
  START + Z.of_nat (length m) < 2 ^ 32 /\ Z.of_nat (length m) mod u = 0.
Abbreviation cell := (cell START).

Lemma unit_pos : 0 < u.
Proof. apply Z.pow_pos_nonneg; lia. Qed.
(** A block that begins inside the memory ends inside it. *)
Lemma block_bound m x : memory m -> 0 <= x < Z.of_nat (length m) -> x mod u = 0 -> x + u <= Z.of_nat (length m).
Proof.
  intros [_ Hsza] Hx Hm. set (SIZE := Z.of_nat (length m)) in *. pose proof unit_pos. pose proof (Z.div_mod x u ltac:(lia)) as H1. pose proof (Z.div_mod SIZE u ltac:(lia)) as H2.
  rewrite Hm in H1. rewrite Hsza in H2. assert (x / u < SIZE / u) by (apply (Z.mul_lt_mono_pos_l u); lia). nia.
Qed.
Lemma mod_sub_start a : (a - START) mod u = a mod u.
Proof. pose proof unit_pos. rewrite Zminus_mod, Hsta, Z.sub_0_r, Z.mod_mod by lia. done. Qed.
(** A block of the memory, partly replaced. *)
Lemma write_block m a r d : memory m -> START <= a -> a - START < Z.of_nat (length m) -> a mod u = 0 ->
  (r + length d <= Z.to_nat u)%nat -> programmable m (cell a + r) d ->
  exists b, loads m (cell a) (Z.to_nat u) = Some b /\ length b = Z.to_nat u /\
    s_flash_write m (splice b r d) a = Some (splice m (cell a + r) d).
Proof.
  intros Hm Ha Hlt Hal Hr Hp. pose proof unit_pos.
  pose proof (block_bound m (a - START) Hm ltac:(lia) ltac:(by rewrite mod_sub_start)) as Hb.
  assert (Hc : (cell a + Z.to_nat u <= length m)%nat) by (unfold Flash.cell; lia).
  exists (take (Z.to_nat u) (drop (cell a) m)). unfold loads. rewrite decide_True by done.
  assert (Hl : length (take (Z.to_nat u) (drop (cell a) m)) = Z.to_nat u) by (rewrite length_take, length_drop; lia).
  split; [done|]. split; [done|].
  rewrite chip_write; [by rewrite <- splice_block with (n := Z.to_nat u) by lia|done|by rewrite mod_sub_start| |].
  - rewrite length_splice by lia. rewrite Hl, Z2Nat.id by lia. apply Z.mod_same. lia.
  - by apply programmable_block.
Qed.

Lemma write_blocks_ok m from a : memory m -> START <= a -> a mod u = 0 ->
  (cell a + length from <= length m)%nat -> programmable m (cell a) from ->
  write_blocks START s_flash_write u m from a = Some (splice m (cell a) from).
Proof.
  intros Hm Ha Hal Hfit Hp. pose proof unit_pos. pose proof Hm as [Hend Hsza]. unfold write_blocks.
  set (L := Z.of_nat (length from)). assert (HL : is_u32 L) by (unfold Flash.cell in *; split; lia).
  rewrite land_mask, land_whole by done.
  pose proof (Z.mod_pos_bound L u ltac:(lia)) as Hr. set (r := L mod u) in *.
  pose proof (Z.mod_le L u ltac:(lia) ltac:(lia)) as HrL. fold r in HrL. set (n := Z.to_nat (L - r)).
  assert (Hn : Z.of_nat n = L - r) by lia.
  assert (Hnu : Z.of_nat n mod u = 0) by (rewrite Hn; unfold r; rewrite Zminus_mod, Z.mod_mod, Z.sub_diag by lia; apply Z.mod_0_l; lia).
  assert (Hbulk : (if negb (L - r =? 0) then m ← s_flash_write m (take n from) a; Some (m, u32 (a + (L - r)), drop n from)
            else Some (m, a, from)) = Some (splice m (cell a) (take n from), a + Z.of_nat n, drop n from)).
  { destruct (Z.eqb_spec (L - r) 0) as [E|E]; cbn [negb].
    - replace n with 0%nat by lia. rewrite take_0, drop_0, splice_nil, Z.add_0_r by lia. done.
    - rewrite chip_write; [|done|by rewrite mod_sub_start| |by apply programmable_take].
      + cbn [mbind option_bind]. rewrite u32_small by (unfold Flash.cell in *; split; lia). by rewrite Hn.
      + rewrite length_take, Nat.min_l by lia. done. }
  rewrite Hbulk. cbn [mbind option_bind].
  destruct (Z.eqb_spec r 0) as [E|E]; cbn [negb].
  { rewrite take_ge by lia. done. }
  assert (Hc : cell (a + Z.of_nat n) = (cell a + n)%nat) by (unfold Flash.cell; lia).
  assert (Hd : length (drop n from) = Z.to_nat r) by (rewrite length_drop; lia).
  destruct (write_block (splice m (cell a) (take n from)) (a + Z.of_nat n) 0 (drop n from)) as (b & Eb & Hbl & Ew).
  - split; rewrite length_splice; [done|rewrite length_take; lia|done|rewrite length_take; lia].
  - lia.
  - rewrite length_splice by (rewrite length_take; lia). unfold Flash.cell in *. lia.
  - rewrite Zplus_mod, Hal, Hnu, Z.mod_0_l by lia. done.
  - lia.
  - rewrite Nat.add_0_r, Hc. apply programmable_rest; [done|done|lia].
  - rewrite Eb. cbn [mbind option_bind]. rewrite fill_splice by lia.
    rewrite Nat.sub_0_r, (take_ge (drop n from)) by (rewrite Hd; lia). cbn [fst].
    rewrite Ew, Nat.add_0_r, Hc, splice_take_drop; [done|done|lia].
Qed.

(** The whole write; without a unit size the platform takes any write. *)
Definition unit_ok (unit_size : option Z) : Prop :=
  match unit_size with None => k = 0 | Some blksize => blksize = u end.
Lemma flash_write_ok unit_size m from a : unit_ok unit_size ->
  memory m -> START <= a -> (cell a + length from <= length m)%nat ->
  programmable m (cell a) from ->
  platform_flash_write START unit_size s_flash_write m from a =
    Some (Z.of_nat (length from), splice m (cell a) from).
Proof.
  intros Hu Hm Ha Hfit Hp. pose proof unit_pos. pose proof Hm as [Hend Hsza]. unfold platform_flash_write. destruct unit_size as [blksize|].
  2: { cbn in Hu. assert (Hu1 : u = 1) by (by rewrite Hu).
       rewrite chip_write; [done|done|rewrite Hu1; apply Z.mod_1_r|rewrite Hu1; apply Z.mod_1_r|done]. }
  cbn in Hu. subst blksize. rewrite land_mask by done.
  pose proof (Z.mod_pos_bound a u ltac:(lia)) as Hr.
  destruct (Z.eqb_spec (a mod u) 0) as [E|E]; cbn [negb]; [by rewrite write_blocks_ok|].
  rewrite land_whole by (unfold Flash.cell in *; try split; lia). set (r := a mod u) in *.
  assert (Hrs : (a - START) mod u = r) by (by rewrite mod_sub_start).
  assert (r <= a - START) by (rewrite <- Hrs; apply Z.mod_le; lia).
  assert (a - START < Z.of_nat (length m)).
  { assert (a - START <= Z.of_nat (length m)) by (unfold Flash.cell in *; lia).
    assert (a - START <> Z.of_nat (length m)); [|lia]. intros Heq. rewrite Heq, Hsza in Hrs. lia. }
  assert (Hc : cell a = (cell (a - r) + Z.to_nat r)%nat) by (unfold Flash.cell; lia).
  assert (Hal : (a - r) mod u = 0) by (unfold r; rewrite Zminus_mod, Z.mod_mod, Z.sub_diag by lia; apply Z.mod_0_l; lia).
  set (n := Z.to_nat (u - r)).
  destruct (write_block m (a - r) (Z.to_nat r) (take n from)) as (b & Eb & Hbl & Ew); [done|lia|lia|done| | |].
  { rewrite length_take. lia. }
  { rewrite <- Hc. by apply programmable_take. }
  rewrite Eb. cbn [mbind option_bind]. rewrite fill_splice by lia.
  replace (Z.to_nat u - Z.to_nat r)%nat with n by lia. rewrite Ew, <- Hc. cbn [mbind option_bind].
  destruct (drop n from) as [|x rest] eqn:Ed.
  - assert (length (drop n from) = 0)%nat as Hl by (by rewrite Ed). rewrite length_drop in Hl.
    by rewrite take_ge by lia.
  - assert (Hl : (n < length from)%nat) by (apply (f_equal length) in Ed; rewrite length_drop in Ed; simpl in Ed; lia).
    rewrite <- Ed. assert (Hc' : cell (a - r + u) = (cell a + n)%nat) by (unfold Flash.cell in *; lia).
    rewrite u32_small by (unfold Flash.cell in *; split; lia).
    rewrite write_blocks_ok; rewrite ?Hc'.
    + cbn [mbind option_bind]. by rewrite splice_take_drop by lia.
    + split; rewrite length_splice; [done|rewrite length_take; lia|done|rewrite length_take; lia].
    + lia.
    + rewrite Zplus_mod, Hal, Z.mod_same, Z.mod_0_l by lia. done.
    + rewrite length_drop, length_splice; [lia|rewrite length_take; lia].
    + apply programmable_rest; [done|done|lia].
Qed.

(** A write to the flash memory, at any address and of any length, is made
    of whole units and changes exactly the bytes it should: the parts of the
    first and the last unit that are not written keep their contents. It needs
    what the hardware needs, that no bit has to be set. *)
Theorem flash_write_spec unit_size m from a : unit_ok unit_size ->
  memory m -> START <= a -> (cell a + length from <= length m)%nat -> programmable m (cell a) from ->
  platform_flash_write START unit_size s_flash_write m from a =
    Some (Z.of_nat (length from), splice m (cell a) from).
Proof. apply flash_write_ok. Qed.
End Writes.

(** ** The write-once file system on the flash memory *)

Section Wofs.
Context (START k : Z) (sizes : list Z) (unit_size : option Z).
Context (s_flash_write : list Z -> list Z -> Z -> option (list Z)) (erase_sector : list Z -> Z -> bool * list Z).
Context {chip : FlashChip START (2 ^ k) sizes s_flash_write erase_sector}.
(** Units of at most four bytes, as on every platform. *)
Context (Hk : 0 <= k <= 2) (Hst : 0 <= START) (Hsta : START mod 2 ^ k = 0) (Hunit : unit_ok k unit_size).
(** What is before the file system: whole units. *)
Context (before : list Z).
Context (Hba : Z.of_nat (length before) mod 2 ^ k = 0) (Hbs : START + Z.of_nat (length before) <= 2 ^ 31).

Lemma unit_four n : (n mod 4 = 0)%nat -> Z.of_nat n mod 2 ^ k = 0.
Proof.
  intros H. apply Nat.Div0.div_exact in H. rewrite H, Nat2Z.inj_mul.
  assert (k = 0 \/ k = 1 \/ k = 2) as [-> | [-> | ->]] by lia; [apply Z.mod_1_r|..].
  - change (Z.of_nat 4) with (2 * 2). rewrite <- Z.mul_assoc, Z.mul_comm. by apply Z.mod_mul.
  - rewrite Z.mul_comm. by apply Z.mod_mul.
Qed.
Lemma erased_programmable m p data : Forall is_u8 data -> erased m p (length data) -> programmable m p data.
Proof.
  intros Hb He i b Hi. exists WOFS_END_MARKER_CHAR. apply lookup_lt_Some in Hi as Hl.
  split; [apply He; lia|]. pose proof (Forall_lookup_1 _ _ _ _ Hb Hi) as Hu. unfold WOFS_END_MARKER_CHAR.
  rewrite Z.land_comm, land_255. apply Z.mod_small. word_lia.
Qed.

(** What the file system relies on: erased bytes can be written, and nothing
    else in the memory changes. *)
Lemma sim_wofs_write_ok image data a : 0 <= a -> Forall is_u8 data -> (length image mod 4 = 0)%nat ->
  Z.of_nat (length image) < 2 ^ 31 -> (Z.to_nat a + length data <= length image)%nat ->
  erased image (Z.to_nat a) (length data) ->
  platform_flash_write START unit_size s_flash_write (before ++ image) data
    (u32 (a + (START + Z.of_nat (length before)))) =
    Some (Z.of_nat (length data), before ++ splice image (Z.to_nat a) data).
Proof.
  intros Ha Hb H4 Hs Hfit He. rewrite u32_small by (split; lia).
  assert (Hc : cell START (a + (START + Z.of_nat (length before))) = (length before + Z.to_nat a)%nat)
    by (unfold cell; lia).
  rewrite (flash_write_ok START k sizes s_flash_write erase_sector (proj1 Hk) Hst Hsta).
  - f_equal. f_equal. rewrite Hc. unfold splice. rewrite take_app_ge, drop_app_ge, <- !app_assoc by lia.
    do 3 f_equal; [|f_equal]; f_equal; lia.
  - done.
  - split; rewrite length_app; [lia|]. rewrite Nat2Z.inj_add, Zplus_mod, Hba, unit_four by done.
    rewrite Z.mod_0_l; [done|]. assert (0 < 2 ^ k) by (apply Z.pow_pos_nonneg; lia). lia.
  - lia.
  - rewrite Hc, length_app. lia.
  - rewrite Hc. apply erased_programmable; [done|]. intros x Hx. rewrite lookup_app_r by lia. apply He. lia.
Qed.
#[export] Instance hw_device : Device file_read (sim_wofs_write START unit_size s_flash_write before).
Proof.
  split; [done|]. intros img data a Ha Hb H4 Hs Hfit He. unfold sim_wofs_write.
  rewrite sim_wofs_write_ok by done. cbn [mbind option_bind]. by rewrite drop_app_length.
Qed.
End Wofs.

(** ** Formatting *)

Section Format.
Context (START SIZE k : Z) (geom : geometry) (unit_size : option Z).
Context (s_flash_write : list Z -> list Z -> Z -> option (list Z)) (erase_sector : list Z -> Z -> bool * list Z).
Abbreviation sizes := (sectors SIZE geom).
Context {chip : FlashChip START (2 ^ k) sizes s_flash_write erase_sector}.
Context (Hk : 0 <= k <= 2) (Hok : flash_ok START SIZE geom).

(** The cells of the sectors from [i] to [j]. *)
Definition in_sectors (i j : nat) (x : nat) : Prop :=
  sector_start sizes i <= Z.of_nat x < sector_start sizes (S j).
#[export] Instance in_sectors_dec i j x : Decision (in_sectors i j x).
Proof. unfold in_sectors. apply _. Defined.

Lemma start_in i : 0 <= sector_start sizes i <= SIZE.
Proof.
  destruct Hok as [Hp Ht _ _ _]. pose proof (sector_start_all sizes (i `max` length sizes) ltac:(lia)) as H.
  rewrite Ht in H. rewrite <- H at 3. apply sector_start_le; [done|lia].
Qed.
Lemma erase_one m i m' : Z.of_nat (length m) = SIZE -> (i < length sizes)%nat ->
  erase_sector m (Z.of_nat i) = (true, m') ->
  length m' = length m /\ forall x, m' !! x = if decide (in_sectors i i x) then Some 255 else m !! x.
Proof.
  intros Hm Hi He. pose proof Hok as [Hp Ht _ _ _].
  rewrite (chip_erase m i m') by (done || (rewrite Hm; done)).
  pose proof (sector_start_le sizes i (S i) Hp ltac:(lia)). pose proof (start_in (S i)).
  set (a := sector_start sizes i) in *. set (b := sector_start sizes (S i)) in *.
  assert (Hf : (Z.to_nat a + length (replicate (Z.to_nat (b - a)) 255%Z) <= length m)%nat)
    by (rewrite length_replicate; lia).
  split; [by apply length_splice|]. intros x. unfold in_sectors. fold a b. case_decide.
  - rewrite lookup_splice_new by (rewrite ?length_replicate in *; lia).
    apply lookup_replicate_2. lia.
  - apply lookup_splice_old; [done|]. rewrite length_replicate. lia.
Qed.

(** All is erased from the first sector to the last, and nothing else changes. *)
Lemma erase_sectors_ok fuel : forall i j m, (i <= S j)%nat -> (j < length sizes)%nat -> (S j - i < fuel)%nat ->
  Z.of_nat (length m) = SIZE ->
  exists r m', erase_sectors erase_sector fuel (Z.of_nat i) (Z.of_nat j) m = Some (r, m') /\
    (r = 0 \/ r = 1 /\ length m' = length m /\
      forall x, m' !! x = if decide (in_sectors i j x) then Some 255 else m !! x).
Proof.
  pose proof Hok as [Hp _ _ _ _]. induction fuel as [|fuel IH]; intros i j m Hij Hj Hf Hm; [lia|]. cbn [erase_sectors].
  destruct (Z.leb_spec (Z.of_nat i) (Z.of_nat j)).
  - destruct (erase_sector m (Z.of_nat i)) as [[] m1] eqn:E; cbn [negb]; [|by eexists _, _; eauto].
    destruct (erase_one m i m1 Hm ltac:(lia) E) as [Hl1 Hx1].
    replace (Z.of_nat i + 1) with (Z.of_nat (S i)) by lia.
    destruct (IH (S i) j m1) as (r & m' & -> & Hr); [lia..|]. eexists _, _. split; [done|].
    destruct Hr as [?|(? & Hl & Hx)]; [by left|right]. split; [done|]. split; [lia|]. intros x. rewrite Hx, Hx1.
    pose proof (sector_start_le sizes i (S i) Hp ltac:(lia)).
    pose proof (sector_start_le sizes (S i) (S j) Hp ltac:(lia)). unfold in_sectors.
    repeat case_decide; (done || lia).
  - exists 1, m. split; [done|]. right. split; [done|]. split; [done|]. intros x.
    rewrite decide_False; [done|]. unfold in_sectors. replace (S j) with i by lia. lia.
Qed.

Lemma first_free_ok used : 0 < used <= SIZE -> exists i, (i < length sizes)%nat /\
  platform_flash_get_first_free_block_address START geom used =
    (START + sector_start sizes (S i), Z.of_nat (S i)) /\
  sector_start sizes i < used <= sector_start sizes (S i).
Proof.
  intros Hu. pose proof Hok as [Hp Ht Hst Hend _]. unfold platform_flash_get_first_free_block_address.
  rewrite u32_small by (split; lia).
  destruct (find_sector_ok START SIZE geom Hok (used + START - 1)) as (i & s & Hi & -> & Hr); [lia|].
  pose proof (sector_start_S _ _ _ Hi) as Hs. pose proof (start_in (S i)). exists i.
  split; [by eapply lookup_lt_Some|]. rewrite u32_small by (split; lia). rewrite Hs in *.
  split; [f_equal; lia|lia].
Qed.

(** The flash memory behind the program: its first [used] bytes are the
    program's, and the file system begins with the next sector. *)
Lemma wofs_format_ok used m files e : 0 < used <= SIZE -> Z.of_nat (length m) = SIZE ->
  let pbase := (platform_flash_get_first_free_block_address START geom used).1 in
  let fs m := mkFS (wofs_image START m pbase) (Z.lor ROMFS_FS_FLAG_WO ROMFS_FS_FLAG_DIRECT) (SIZE - (pbase - START)) in
  wofs_idle (fs m) files e -> locate true 0 files [1] = None ->
  exists r m', wofs_format_hw START SIZE geom erase_sector used m = Some (r, m') /\
    (r = 0 \/ r = 1 /\ wofs_idle (fs m') [] 0 /\ erased (wofs_image START m' pbase) 0 (length (wofs_image START m pbase)) /\
      take (cell START pbase) m' = take (cell START pbase) m).
Proof.
  intros Hu Hm. destruct (first_free_ok used Hu) as (i & Hi & Efree & Hui). rewrite Efree. cbn [fst]. cbv zeta.
  set (b := sector_start sizes (S i)) in *. pose proof (start_in (S i)) as Hb. fold b in Hb.
  assert (Hc : cell START (START + b) = Z.to_nat b) by (unfold cell; lia).
  set (fs := mkFS (wofs_image START m (START + b)) _ _). intros Hidle Hloc.
  pose proof Hok as [Hp Ht Hst Hend _]. destruct (idle_end _ _ _ Hidle) as [He _].
  pose proof Hidle as [[Hfs Hem Hsm] Hwo Hwr Her [Hmax Hm4]]. cbn [image fs] in *.
  assert (Hli : length (wofs_image START m (START + b)) = (length m - Z.to_nat b)%nat)
    by (unfold wofs_image; rewrite Hc; apply length_drop).
  unfold wofs_format_hw. rewrite Efree.
  assert (Hfind : romfs_open_file file_read (fuel_of fs) [1] fs 0 = Some (FS_FILE_NOT_FOUND (Z.of_nat e))).
  { apply (open_file_none file_read file_write fs Hsm [1] files 0 e); rewrite ?Hwo in *; try done.
    pose proof (files_at_bounds _ _ _ _ _ Hfs). unfold fuel_of. cbn [image fs]. lia. }
  cbv beta iota zeta. fold fs. rewrite Hfind. cbn [mbind option_bind].
  destruct (find_sector_ok START SIZE geom Hok (u32 (Z.of_nat e + (START + b)))) as (j & s & Hj & Ej & Hr).
  { rewrite u32_small by (split; lia). lia. }
  rewrite u32_small in Hr, Ej by (split; lia). unfold platform_flash_get_sector_of_address.
  rewrite u32_small by (split; lia). rewrite Ej. cbn [fst].
  pose proof (sector_start_S _ _ _ Hj) as Hs. pose proof (lookup_lt_Some _ _ _ Hj) as Hjl.
  assert (S i <= j)%nat.
  { destruct (decide (S i <= j)%nat); [done|]. pose proof (sector_start_le sizes (S j) (S i) Hp ltac:(lia)) as H. fold b in H. lia. }
  destruct (erase_sectors_ok (S (Z.to_nat (Z.of_nat j + 1 - Z.of_nat (S i)))) (S i) j m) as (r & m' & -> & Hr'); [lia..|].
  eexists _, _. split; [done|]. destruct Hr' as [?|(-> & Hl & Hx)]; [by left|right]. split; [done|].
  assert (Hli' : length (wofs_image START m' (START + b)) = length (wofs_image START m (START + b)))
    by (unfold wofs_image; rewrite !length_drop; lia).
  assert (Hall : erased (wofs_image START m' (START + b)) 0 (length (wofs_image START m (START + b)))).
  { intros x Hxl. unfold wofs_image at 1. rewrite Hc, lookup_drop, Hx. case_decide as Hin; [done|].
    unfold in_sectors in Hin. fold b in Hin. rewrite <- (Her x) by lia. unfold wofs_image. by rewrite Hc, lookup_drop. }
  split; [|split; [done|]].
  - split; cbn [image fs_flags max_size]; try done.
    + split; cbn [image]; [constructor|apply Hall; lia|by rewrite Hli'].
    + by rewrite Hli', Nat.sub_0_r.
    + by rewrite Hli'.
  - rewrite Hc. apply list_eq. intros x. destruct (decide (x < Z.to_nat b)%nat).
    + rewrite !lookup_take_lt by done. rewrite Hx, decide_False; [done|]. unfold in_sectors. fold b. lia.
    + rewrite !lookup_take_ge by lia. done.
Qed.

Context (Hunit : unit_ok k unit_size) (Hsta : START mod 2 ^ k = 0) (Hend : START + SIZE <= 2 ^ 31).
Context (Hsec : Forall (fun s => s mod 2 ^ k = 0) sizes).

Lemma sector_start_unit i : sector_start sizes i mod 2 ^ k = 0.
Proof.
  assert (0 < 2 ^ k) by (apply Z.pow_pos_nonneg; lia).
  unfold sector_start. assert (H' : Forall (fun s => s mod 2 ^ k = 0) (take i sizes)) by (by apply Forall_take). induction H' as [|x l Hx _ IH]; [by apply Z.mod_0_l; lia|].
  simpl. by rewrite Zplus_mod, Hx, IH.
Qed.

(** C5: formatting the file system of a board leaves the program in its flash
    memory alone, and what is stored in the file system afterwards - created,
    written in pieces, closed, with every write going through whole flash units
    to memory that can only clear bits - is read back unchanged. The format
    finds the end of the old files by itself and erases the sectors they use. *)
Theorem wofs_on_flash (c : fcntl) used m files e m' path flags mode rflags rmode pieces n :
  0 < used <= SIZE -> Z.of_nat (length m) = SIZE ->
  let pbase := (platform_flash_get_first_free_block_address START geom used).1 in
  let fs m := mkFS (wofs_image START m pbase) (Z.lor ROMFS_FS_FLAG_WO ROMFS_FS_FLAG_DIRECT) (SIZE - (pbase - START)) in
  let program := take (cell START pbase) m in
  let writef := sim_wofs_write START unit_size s_flash_write program in
  wofs_idle (fs m) files e -> locate true 0 files [1] = None ->
  wofs_format_hw START SIZE geom erase_sector used m = Some (1, m') ->
  name_ok path -> is_set flags (O_CREAT c) = true -> wants_write c flags = true ->
  wants_write c rflags = false -> is_set rflags (O_CREAT c) = false ->
  Forall (fun bs => Forall is_u8 bs /\ Z.of_nat (length bs) < 2 ^ 31) pieces ->
  room_for (fs m') 0 path ->
  (base_at true 0 (length path) + length (concat pieces) + 4 <= length (image (fs m')))%nat ->
  is_u32 n -> Z.of_nat (length (concat pieces)) <= n ->
  take (cell START pbase) m' = program /\
  exists fd fd' s1 s2 s3 s4 s5,
    romfs_open_r file_read writef c path flags mode (romfs_init (fs m')) = Some (Z.of_nat fd, E_OK, s1) /\
    write_all writef fd pieces s1 = Some (map (fun bs => Z.of_nat (length bs)) pieces, s2) /\
    romfs_close_r writef fd s2 = Some (0, s3) /\
    romfs_open_r file_read writef c path rflags rmode s3 = Some (Z.of_nat fd', E_OK, s4) /\
    romfs_read_r file_read fd' n s4
    = Some (Z.of_nat (length (concat pieces)), E_OK, concat pieces, s5).
Proof.
  intros Hu Hm pbase fs program writef Hidle Hloc Hfmt. intros.
  destruct (wofs_format_ok used m files e Hu Hm Hidle Hloc) as (r & m1 & E & Hr). rewrite Hfmt in E.
  injection E as <- <-. destruct Hr as [?|(_ & Hidle' & _ & Hprog)]; [done|]. split; [exact Hprog|].
  destruct (first_free_ok used Hu) as (i & _ & Efree & _). pose proof (start_in (S i)).
  assert (Hp : pbase = START + sector_start sizes (S i)) by (unfold pbase; by rewrite Efree).
  assert (Hl : Z.of_nat (length program) = sector_start sizes (S i))
    by (unfold program, cell; rewrite Hp, length_take; lia).
  pose proof (hw_device START k sizes unit_size s_flash_write erase_sector Hk (fl_start _ _ _ Hok) Hsta Hunit program
    ltac:(by rewrite Hl, sector_start_unit) ltac:(lia)) as Hdev.
  destruct (store_fetch file_read writef c path flags mode rflags rmode pieces n (romfs_init (fs m')) [] 0)
    as (fd & fd' & s1 & s2 & s3 & s4 & s5 & ? & ? & ? & _ & ? & ?); try done.
  - by_decide.
  - by exists fd, fd', s1, s2, s3, s4, s5.
Qed.
End Format.

(** ** Examples

    A flash memory at the address 0x1000 with two sectors of 16 bytes and one
    of 32, written in units of four bytes; the program takes ten bytes, and the
    file system holds the file "a". *)

Definition nor_write (START : Z) (m data : list Z) (a : Z) : option (list Z) :=
  flash_program m (Z.to_nat (a - START)) data.
Definition nor_erase (sizes : list Z) (m : list Z) (i : Z) : bool * list Z :=
  let k := Z.to_nat i in
  (true, splice m (Z.to_nat (sector_start sizes k))
           (replicate (Z.to_nat (sector_start sizes (S k) - sector_start sizes k)) 255)).

#[export] Instance nor_chip START unit sizes : FlashChip START unit sizes (nor_write START) (nor_erase sizes).
Proof.
  split.
  - intros m data a _ _ _. unfold nor_write. generalize (Z.to_nat (a - START)) as p. clear a. revert m.
    induction data as [|b data IH]; intros m p Hp; cbn [flash_program].
    { unfold splice. simpl. by rewrite Nat.add_0_r, take_drop. }
    pose proof (programmable_bound _ _ _ Hp ltac:(done)) as Hl. cbn [length] in Hl.
    destruct (Hp 0%nat b eq_refl) as (o & Ho & Hob). rewrite Nat.add_0_r in Ho. rewrite Ho. cbn [mbind option_bind].
    rewrite Hob, IH; [by rewrite splice_insert by lia|].
    intros j c Hj. destruct (Hp (S j) c Hj) as (o' & Ho' & Hc'). exists o'. split; [|done].
    rewrite list_lookup_insert_ne by lia. rewrite <- Ho'. f_equal. lia.
  - intros m i m' _ _. unfold nor_erase. rewrite Nat2Z.id. by intros [= <-].
Qed.

Definition ex_sizes : list Z := [16; 16; 32].
Definition ex_memory : list Z :=
  replicate 10 7 ++ replicate 6 255 ++
  [97; 0; 255; 255; 255; 255; 255; 255; 2; 0; 0; 0; 104; 105; 255; 255] ++ replicate 32 255.
Definition ex_write := platform_flash_write 0x1000 (Some 4) (nor_write 0x1000).
Definition ex_format := wofs_format_hw 0x1000 64 (SECTOR_ARRAY ex_sizes) (nor_erase ex_sizes).

Lemma ex_flash_ok : flash_ok 0x1000 64 (SECTOR_ARRAY ex_sizes).
Proof. by split; [by_decide|..]. Defined.
Lemma ex_idle : wofs_idle (mkFS (wofs_image 0x1000 ex_memory 0x1010) 3 48) [RFile [97] false [104; 105]] 16.
Proof.
  split; [split|..]; try reflexivity.
  - constructor; [|constructor]. split; [by_decide|reflexivity..].
  - intros j Hj. change (length _) with 48%nat in Hj. cbn [image].
    change (wofs_image 0x1000 ex_memory 0x1010) with (take 16 (wofs_image 0x1000 ex_memory 0x1010) ++ replicate 32 255).
    rewrite lookup_app_r by (change (length _) with 16%nat; lia). apply lookup_replicate_2.
    change (length _) with 16%nat. lia.
  - by_decide.
Defined.

(** Three bytes across the end of a unit, and the bytes around them. *)
Lemma flash_write_spec_witness :
  ex_write ex_memory [1; 2; 3] 0x1037 = Some (3, splice ex_memory 55 [1; 2; 3]).
Proof.
  apply (flash_write_spec 0x1000 2 ex_sizes (nor_write 0x1000) (nor_erase ex_sizes) ltac:(lia) ltac:(lia) eq_refl
    (Some 4) ex_memory [1; 2; 3] 0x1037 eq_refl); [by_decide|lia|by_decide|].
  intros j b Hj. apply lookup_lt_Some in Hj as Hl. cbn in Hl.
  destruct j as [|[|[|j]]]; [..|lia]; injection Hj as <-; eexists; (split; [reflexivity|reflexivity]).
Defined.

(** The old file is gone, the program is not, and "hello" is stored as "b". *)
Lemma wofs_on_flash_witness :
  exists m', ex_format 10 ex_memory = Some (1, m') /\ take 16 m' = take 16 ex_memory /\
  exists fd fd' s1 s2 s3 s4 s5,
    let w := sim_wofs_write 0x1000 (Some 4) (nor_write 0x1000) (take 16 ex_memory) in
    romfs_open_r file_read w newlib_fcntl [98] 0x201 0
      (romfs_init (mkFS (wofs_image 0x1000 m' 0x1010) 3 48)) = Some (Z.of_nat fd, E_OK, s1) /\
    write_all w fd [[104; 101]; [108; 108; 111]] s1 = Some ([2; 3], s2) /\
    romfs_close_r w fd s2 = Some (0, s3) /\
    romfs_open_r file_read w newlib_fcntl [98] 0 0 s3 = Some (Z.of_nat fd', E_OK, s4) /\
    romfs_read_r file_read fd' 10 s4 = Some (5, E_OK, [104; 101; 108; 108; 111], s5).
Proof.
  set (m' := take 16 ex_memory ++ replicate 48 255).
  assert (Hf : ex_format 10 ex_memory = Some (1, m')) by reflexivity.
  exists m'. split; [exact Hf|].
  destruct (wofs_on_flash 0x1000 64 2 (SECTOR_ARRAY ex_sizes) (Some 4) (nor_write 0x1000) (nor_erase ex_sizes)
    ltac:(lia) ex_flash_ok eq_refl eq_refl ltac:(lia) ltac:(by_decide) newlib_fcntl 10 ex_memory
    [RFile [97] false [104; 105]] 16 m' [98] 0x201 0 0 0 [[104; 101]; [108; 108; 111]] 10)
    as (H & fd & fd' & s1 & s2 & s3 & s4 & s5 & H1 & H2 & H3 & H4 & H5); try by_decide.
  - exact ex_idle.
  - split; [exact H|]. exists fd, fd', s1, s2, s3, s4, s5. exact (conj H1 (conj H2 (conj H3 (conj H4 H5)))).
Defined.

(** A sector that cannot be erased stops the format. *)
Example erase_fails :
  wofs_format_hw 0x1000 64 (SECTOR_ARRAY ex_sizes) (fun m _ => (false, m)) 10 ex_memory = Some (0, ex_memory).
Proof. reflexivity. Qed.
(** Flash memory cannot take back a bit that was cleared: over other data the
    bytes written are mixed with the old ones. *)
Example overwrite_mixes : ex_write ex_memory [255; 8] 0x1000 = Some (2, <[1%nat := 0]> ex_memory).
Proof. reflexivity. Qed.
(** The sector of an address. *)
Example sector_of : flashh_find_sector 0x1000 (SECTOR_ARRAY ex_sizes) 0x1013 = (1, 0x1010, 0x101f) /\
  flashh_find_sector 0x1000 (SECTOR_SIZE 16) 0x1013 = (1, 0x1010, 0x101f).
Proof. split; reflexivity. Qed.

