(* ===== verification/CommonFs.v ===== *)
(** * CommonFs: paths, patterns and directory trees

    Models src/common_fs.c, which the file commands of the shell share: file
    name patterns, splitting and joining paths, and the walk over a directory
    tree that calls a function for what it finds.

    The file system is the record [FileSys]: the calls of src/newlib/devman.c on
    directories (see Devman), [fopen] of the C library, and whether there is
    memory.  A path is its characters, without the zero byte. *)

From S2P Require Import Prelude Devman.

#[local] Set Warnings "-register-all".

Definition STAR : Z := 42.
Definition QUESTION : Z := 63.
Definition DM_DIRENT_FLAG_DIR : Z := 1.
Definition CMN_FS_INFO_BEFORE_READDIR : Z := 0.
Definition CMN_FS_INFO_INSIDE_READDIR : Z := 1.
Definition CMN_FS_INFO_AFTER_CLOSEDIR : Z := 2.
Definition CMN_FS_INFO_MEMORY_ERROR : Z := 3.
Definition CMN_FS_INFO_OPENDIR_FAILED : Z := 4.
Definition CMN_FS_INFO_DIRECTORY_DONE : Z := 6.
Definition CMN_FS_TYPE_DIR : Z := 0.
Definition CMN_FS_TYPE_FILE : Z := 1.
Definition CMN_FS_TYPE_PATTERN : Z := 2.
Definition CMN_FS_TYPE_ERROR : Z := 3.
Definition CMN_FS_TYPE_DIR_NOT_FOUND : Z := 5.
Definition CMN_FS_TYPE_UNKNOWN_NOT_FOUND : Z := 6.

(** 0 for an empty string or a null pointer. *)
Definition lastchar (s : option (list Z)) : Z := match s with Some s => default 0 (last s) | None => 0 end.
Definition firstchar (s : option (list Z)) : Z := match s with Some s => default 0 (head s) | None => 0 end.

(** ** Patterns *)

(** The string behind the first [c]. *)
Fixpoint scan (c : Z) (str : list Z) : option (list Z) :=
  match str with
  | [] => None
  | x :: str => if x =? c then Some str else scan c str
  end.
(** [after_star]: behind a '*', where every '?' is skipped. *)
Fixpoint cmn_pattern_matches (str pattern : list Z) {struct pattern} : bool :=
  match pattern with
  | [] => bool_decide (str = [])
  | c :: pattern =>
      if c =? STAR then
        (fix after_star (p : list Z) : bool :=
           match p with
           | [] => true
           | c :: p' =>
               if c =? QUESTION then after_star p'
               else match scan c str with None => false | Some str => cmn_pattern_matches str p' end
           end) pattern
      else match str with
           | [] => false
           | x :: str => ((c =? QUESTION) || (c =? x)) && cmn_pattern_matches str pattern
           end
  end.

(** ** Paths *)

(** Where the last '/' of a string is. *)
Definition strrchr (s : list Z) : option nat :=
  (fun k => (length s - 1 - k)%nat) <$> strchr (reverse s).
Definition has (c : Z) (s : list Z) : bool := bool_decide (c ∈ s).

Definition cmn_fs_is_root_dir (path : option (list Z)) : bool :=
  match path with
  | None => false
  | Some path =>
      bool_decide (head path = Some SLASH) &&
      match strchr (tail path) with
      | None => true
      | Some k => bool_decide (drop (S k) (tail path) = [])
      end
  end.

(** The length that is allocated is the sum of these, and 2. *)
Definition join_length (e : list Z) : Z :=
  if (0 <? length e)%nat then
    Z.of_nat (length e) + (if lastchar (Some e) =? SLASH then 0 else 1)
      - (if firstchar (Some e) =? SLASH then 1 else 0)
  else 0.
(** [strcat( res, s )]; [None]: it does not fit in [size] bytes. *)
Definition strcat (size : Z) (res s : list Z) : option (list Z) :=
  if Z.of_nat (length (res ++ s)) + 1 <=? size then Some (res ++ s) else None.
Fixpoint join_loop (size : Z) (es : list (list Z)) (res : list Z) : option (list Z) :=
  match es with
  | [] => Some res
  | e :: es =>
      res ← (if (0 <? length e)%nat then
        res ← strcat size res (drop (if firstchar (Some e) =? SLASH then 1 else 0) e);
        if negb (lastchar (Some res) =? SLASH) then strcat size res [SLASH] else Some res
      else Some res);
      join_loop size es res
  end.
(** [malloc]: there is memory.  A null pointer is [Some None]. *)
Definition cmn_fs_path_join (malloc : bool) (es : list (list Z)) : option (option (list Z)) :=
  let total := u32 (foldr (fun e t => join_length e + t) 0 es) in
  if (total =? 0) || negb malloc then Some None
  else res ← join_loop (u32 (total + 2)) es [SLASH]; Some (Some (take (length res - 1) res)).

(** ** Directories *)

(** [struct dm_dirent]. *)
Record dirent := mkEnt { fname : list Z; fsize : Z; flags : Z }.
Definition is_dir (e : dirent) : bool := negb (Z.land (flags e) DM_DIRENT_FLAG_DIR =? 0).

(** [S]: the state of everything, [D]: an open directory. *)
Record FileSys (S D : Type) := mkFileSys {
  fopen : list Z -> S -> bool * S;          (* for reading; closed at once *)
  opendir : list Z -> S -> option D * S;
  readdir : D -> S -> option dirent * S;
  closedir : D -> S -> S;
  alloc : S -> bool * S
}.
Arguments fopen {S D}.
Arguments opendir {S D}.
Arguments readdir {S D}.
Arguments closedir {S D}.
Arguments alloc {S D}.

Section Fs.
Context {S D : Type} (fs : FileSys S D).

(** The directory and the mask; [None]: an error, or no memory. *)
Definition cmn_fs_split_path (path : option (list Z)) (s : S) : option (list Z * list Z) * S :=
  match path with
  | None => (None, s)
  | Some path =>
      if (length path <? 2)%nat || negb (bool_decide (head path = Some SLASH)) then (None, s) else
      let dup (dir mask : list Z) (s : S) :=
        let '(ok, s) := alloc fs s in (if ok : bool then Some (dir, mask) else None, s) in
      if bool_decide (strchr (tail path) = None) then dup path [STAR] s
      else if lastchar (Some path) =? SLASH then dup (take (length path - 1) path) [STAR] s
      else
        let k := default O (strrchr path) in
        if has STAR path || has QUESTION path then dup (take k path) (drop (k + 1) path) s
        else
          let '(isfile, s) := fopen fs path s in
          if isfile then dup (take k path) (drop (k + 1) path) s else dup path [STAR] s
  end.

Definition cmn_fs_check_directory (path : list Z) (s : S) : bool * S :=
  let '(d, s) := opendir fs path s in
  match d with None => (false, s) | Some d => (true, closedir fs d s) end.
Definition cmn_fs_get_type (path : option (list Z)) (s : S) : Z * S :=
  match path with
  | None => (CMN_FS_TYPE_ERROR, s)
  | Some path =>
      if (length path <? 2)%nat || negb (bool_decide (head path = Some SLASH)) then (CMN_FS_TYPE_ERROR, s)
      else if bool_decide (strchr (tail path) = None) then (CMN_FS_TYPE_DIR, s)
      else if lastchar (Some path) =? SLASH then
        let '(d, s) := opendir fs path s in
        match d with None => (CMN_FS_TYPE_DIR_NOT_FOUND, s) | Some d => (CMN_FS_TYPE_DIR, closedir fs d s) end
      else if has STAR path || has QUESTION path then (CMN_FS_TYPE_PATTERN, s)
      else
        let '(isfile, s) := fopen fs path s in
        if isfile then (CMN_FS_TYPE_FILE, s) else
        let '(d, s) := opendir fs path s in
        match d with None => (CMN_FS_TYPE_UNKNOWN_NOT_FOUND, s) | Some d => (CMN_FS_TYPE_DIR, closedir fs d s) end
  end.

(** ** The walk *)

(** [cb( path, ent, pdata, info )]: whether to go on.  What it does to its own
    data, and to the file system, is part of the state. *)
Context (cb : list Z -> option dirent -> Z -> S -> bool * S).
(** What the variable [hasdirs] holds when a directory is opened: the function
    does not set it. *)
Context (hasdirs0 : list Z -> bool).
Context (pattern : list Z) (recursive : bool).

(** How a loop ends: whether it was left for [abort], and [hasdirs]. *)
Fixpoint read_loop (fuel : nat) (path : list Z) (d : D) (hasdirs : bool) (s : S) : option (bool * bool * S) :=
  match fuel with
  | O => None
  | Datatypes.S fuel =>
      let '(ent, s) := readdir fs d s in
      match ent with
      | None => Some (false, hasdirs, s)
      | Some ent =>
          if negb (cmn_pattern_matches (fname ent) pattern) then read_loop fuel path d hasdirs s else
          let '(go, s) := cb path (Some ent) CMN_FS_INFO_INSIDE_READDIR s in
          if negb go then Some (true, hasdirs, s) else
          read_loop fuel path d (if is_dir ent then true else hasdirs) s
      end
  end.
(** The directories inside; [walk]: the call of the function for one. *)
Fixpoint dirs_loop (walk : list Z -> S -> option (bool * S)) (fuel : nat) (path : list Z) (d : D) (s : S)
  : option (bool * S) :=
  match fuel with
  | O => None
  | Datatypes.S fuel =>
      let '(ent, s) := readdir fs d s in
      match ent with
      | None => Some (false, s)
      | Some ent =>
          if is_dir ent then
            let '(ok, s) := alloc fs s in
            fullname ← cmn_fs_path_join ok [path; fname ent];
            match fullname with
            | Some fullname =>
                '(go, s) ← walk fullname s;
                if negb go then Some (true, s) else dirs_loop walk fuel path d s
            | None =>
                let '(go, s) := cb path None CMN_FS_INFO_MEMORY_ERROR s in
                if negb go then Some (true, s) else dirs_loop walk fuel path d s
            end
          else dirs_loop walk fuel path d s
      end
  end.
(** The result: false stands for 0. *)
Fixpoint cmn_fs_actual_walkdir (fuel : nat) (path : list Z) (s : S) : option (bool * S) :=
  match fuel with
  | O => None
  | Datatypes.S fuel =>
      let '(d, s) := opendir fs path s in
      match d with
      | None => let '(go, s) := cb path None CMN_FS_INFO_OPENDIR_FAILED s in Some (go, s)
      | Some d =>
          let '(go, s) := cb path None CMN_FS_INFO_BEFORE_READDIR s in
          if negb go then Some (false, closedir fs d s) else
          '(abort, hasdirs, s) ← read_loop fuel path d (hasdirs0 path) s;
          let s := closedir fs d s in
          if abort : bool then Some (false, s) else
          let '(go, s) := cb path None CMN_FS_INFO_AFTER_CLOSEDIR s in
          if negb go then Some (false, s) else
          '(stop, s) ← (if recursive && hasdirs then
            let '(d, s) := opendir fs path s in
            match d with
            | Some d =>
                '(abort, s) ← dirs_loop (cmn_fs_actual_walkdir fuel) fuel path d s;
                Some (abort, closedir fs d s)
            | None => let '(go, s) := cb path None CMN_FS_INFO_OPENDIR_FAILED s in Some (negb go, s)
            end
          else Some (false, s));
          if stop : bool then Some (false, s) else
          let '(go, s) := cb path None CMN_FS_INFO_DIRECTORY_DONE s in Some (go, s)
      end
  end.
End Fs.

(** Whether there was something to walk. *)
Definition cmn_fs_walkdir {S D} (fs : FileSys S D) (cb : list Z -> option dirent -> Z -> S -> bool * S)
  (hasdirs0 : list Z -> bool) (fuel : nat) (path : option (list Z)) (recursive : bool) (s : S) : option (Z * S) :=
  let '(r, s) := cmn_fs_split_path fs path s in
  match r with
  | None => Some (0, s)
  | Some (actpath, pattern) =>
      '(_, s) ← cmn_fs_actual_walkdir fs cb hasdirs0 pattern recursive fuel actpath s; Some (1, s)
  end.

(** ** What a pattern matches *)

(** With the wildcards of a shell. *)
Inductive glob : list Z -> list Z -> Prop :=
  | glob_nil : glob [] []
  | glob_char c p s : c <> STAR -> glob p s -> glob (c :: p) (c :: s)
  | glob_any x p s : glob p s -> glob (QUESTION :: p) (x :: s)
  | glob_star a p s : glob p s -> glob (STAR :: p) (a ++ s).

(** As the function reads it: a '*' takes what is before the first occurrence
    of the character that follows it, which is not a wildcard even if it is a
    '*'; every '?' behind a '*' is skipped, and a '*' at the end takes all. *)
Inductive first_match : list Z -> list Z -> Prop :=
  | fm_nil : first_match [] []
  | fm_char c x p s : c <> STAR -> c = QUESTION \/ c = x -> first_match p s -> first_match (c :: p) (x :: s)
  | fm_last qs s : Forall (fun q => q = QUESTION) qs -> first_match (STAR :: qs) s
  | fm_star qs c p a s : Forall (fun q => q = QUESTION) qs -> c <> QUESTION -> c ∉ a -> first_match p s ->
      first_match (STAR :: qs ++ c :: p) (a ++ c :: s).

Lemma scan_Some c str s : scan c str = Some s <-> exists a, str = (a ++ c :: s) /\ (c ∉ a).
Proof.
  revert s. induction str as [|x str IH]; intros s; cbn [scan].
  - split; [done|]. intros (a & E & _). by destruct a.
  - destruct (Z.eqb_spec x c) as [->|Hx].
    + split; [intros [= ->]; exists []; split; [done|apply not_elem_of_nil]|].
      intros ([|y a] & E & Ha); [by injection E as ->|]. injection E as -> _. destruct Ha. apply list_elem_of_here.
    + rewrite IH. split; intros (a & E & Ha).
      * subst str. exists (x :: a). split; [done|]. rewrite not_elem_of_cons. split; [by intros ->|done].
      * destruct a as [|y a]; injection E; [by intros _ ->|]. intros -> ->. exists a. split; [done|].
        apply not_elem_of_cons in Ha. tauto.
Qed.
Lemma matches_star qs str : Forall (fun q => q = QUESTION) qs ->
  cmn_pattern_matches str (STAR :: qs) = true /\
  forall c p, c <> QUESTION -> cmn_pattern_matches str (STAR :: qs ++ c :: p) =
    match scan c str with None => false | Some str => cmn_pattern_matches str p end.
Proof.
  intros Hq. cbn [cmn_pattern_matches]. rewrite Z.eqb_refl. induction Hq as [|q qs -> _ IH].
  - split; [done|]. intros c p Hc. cbn [app]. by rewrite (proj2 (Z.eqb_neq c _)).
  - exact IH.
Qed.
Lemma split_questions p : exists qs r, p = (qs ++ r) /\ Forall (fun q => q = QUESTION) qs /\ head r <> Some QUESTION.
Proof.
  induction p as [|c p (qs & r & -> & Hq & Hr)]; [by exists [], []|].
  destruct (decide (c = QUESTION)) as [->|Hc].
  - exists (QUESTION :: qs), r. split; [done|]. split; [by constructor|done].
  - exists [], (c :: qs ++ r). split; [done|]. split; [done|]. by intros [= ->].
Qed.
Lemma matches_first str p : cmn_pattern_matches str p = true <-> first_match p str.
Proof.
  split.
  - remember (length p) as n eqn:Hn. assert (Hle : (length p <= n)%nat) by lia. clear Hn. revert str p Hle.
    induction n as [|n IH]; intros str p Hle; (destruct p as [|c p]; [|cbn in Hle]);
      try (cbn; intros ->%bool_decide_eq_true; constructor); [lia|].
    destruct (decide (c = STAR)) as [->|Hc].
    + destruct (split_questions p) as (qs & [|c r] & -> & Hq & Hr); [rewrite app_nil_r; by constructor|].
      destruct (matches_star qs str Hq) as [_ ->]; [|by intros ->]. destruct (scan c str) as [s|] eqn:E; [|done].
      apply scan_Some in E as (a & -> & Ha). intros H. constructor; [done|by intros ->|done|].
      apply IH; [|done]. rewrite length_app in Hle. cbn in Hle. lia.
    + cbn [cmn_pattern_matches]. rewrite (proj2 (Z.eqb_neq c STAR)) by done. destruct str as [|x str]; [done|].
      intros [H1 H2]%andb_true_iff. rewrite orb_true_iff, !Z.eqb_eq in H1. constructor; [done|done|].
      apply IH; [lia|done].
  - induction 1 as [|c x p s Hc Hx _ IH|qs s Hq|qs c p a s Hq Hc Ha _ IH].
    + done.
    + cbn [cmn_pattern_matches]. rewrite (proj2 (Z.eqb_neq c STAR)) by done. rewrite IH, andb_true_r, orb_true_iff, !Z.eqb_eq. done.
    + by apply matches_star.
    + destruct (matches_star qs (a ++ c :: s) Hq) as [_ ->]; [|done].
      assert (scan c (a ++ c :: s) = Some s) as ->; [|done]. apply scan_Some. by exists a.
Qed.
Lemma glob_prefix a p s : glob p s -> glob (STAR :: p) (a ++ s).
Proof. constructor. done. Qed.
(** "*?" does not occur. *)
Fixpoint plain_stars (p : list Z) : bool :=
  match p with
  | [] => true
  | c :: p => negb ((c =? STAR) && bool_decide (head p = Some QUESTION)) && plain_stars p
  end.

(** A name that a pattern describes when every '*' stands for at least one
    character, none of which is the character that follows it in the pattern. *)
Inductive shortest : list Z -> list Z -> Prop :=
  | sh_nil : shortest [] []
  | sh_char c x p s : c <> STAR -> c = QUESTION \/ c = x -> shortest p s -> shortest (c :: p) (x :: s)
  | sh_last s : s <> [] -> shortest [STAR] s
  | sh_star c p a s : c <> QUESTION -> c <> STAR -> a <> [] -> c ∉ a -> shortest p s -> shortest (STAR :: c :: p) (a ++ c :: s).
Lemma shortest_first p s : shortest p s -> first_match p s.
Proof.
  induction 1 as [|c x p s Hc Hx _ IH|s Hs|c p a s Hq Hs Ha Hn _ IH]; [constructor|by constructor|by apply fm_last|].
  by apply (fm_star [] c p a s).
Qed.

(** C35: the names that a pattern matches. If it has no "*?", they are names that it
    describes with the wildcards of a shell; without a '*' these are all of them; and
    with a '*' it matches at least those that it describes when every '*' stands for
    at least one character, none of which is the character that follows it in the
    pattern. *)
Theorem pattern_spec str p :
  (cmn_pattern_matches str p = true -> plain_stars p = true -> glob p str) /\
  ((STAR ∉ p) -> glob p str -> cmn_pattern_matches str p = true) /\
  (shortest p str -> cmn_pattern_matches str p = true).
Proof.
  rewrite !matches_first. split; [|split; [|apply shortest_first]].
  - induction 1 as [|c x p s Hc Hx _ IH|qs s Hq|qs c p a s Hq Hc Ha _ IH]; intros Hp.
    + constructor.
    + cbn [plain_stars] in Hp. apply andb_true_iff in Hp as [_ Hp].
      destruct Hx as [->| ->]; constructor; auto.
    + destruct Hq as [|q qs -> _]; [rewrite <- (app_nil_r s); repeat constructor|]. cbn in Hp. done.
    + destruct Hq as [|q qs -> _]; [|cbn in Hp; done]. cbn [app plain_stars] in *.
      apply andb_true_iff in Hp as [_ [_ Hp]%andb_true_iff]. constructor.
      destruct (decide (c = STAR)) as [->|]; [apply (glob_star [STAR])|constructor]; auto.
  - intros Hs. induction 1 as [|c p s Hc _ IH|x p s _ IH|a p s _ IH]; [constructor|..].
    + apply not_elem_of_cons in Hs as [_ Hs]. constructor; auto.
    + apply not_elem_of_cons in Hs as [? Hs]. constructor; auto.
    + destruct Hs. apply list_elem_of_here.
Qed.

(** ** Joined paths *)

(** An element without its first '/', and with one at its end. *)
Definition element (e : list Z) : list Z :=
  let e := if firstchar (Some e) =? SLASH then tail e else e in
  if bool_decide (e = []) then [] else if lastchar (Some e) =? SLASH then e else e ++ [SLASH].

Lemma lastchar_app s x : lastchar (Some (s ++ [x])) = x.
Proof. cbn. by rewrite last_snoc. Qed.
Lemma join_length_ok e : join_length e = Z.of_nat (length (element e)).
Proof.
  unfold join_length, element. destruct e as [|c e]; [done|].
  change (firstchar (Some (c :: e))) with c. cbn [length Nat.ltb Nat.leb tail].
  destruct (Z.eqb_spec c SLASH) as [->|Hc].
  - destruct (decide (e = [])) as [->|He]; [done|]. rewrite bool_decide_false by done.
    assert (lastchar (Some (SLASH :: e)) = lastchar (Some e)) as -> by (by destruct e).
    destruct (_ =? _); rewrite ?length_app; cbn; lia.
  - rewrite bool_decide_false by done. destruct (_ =? _); rewrite ?length_app; cbn; lia.
Qed.
Lemma element_slash e : element e <> [] -> exists x, element e = x ++ [SLASH].
Proof.
  unfold element. case_bool_decide as He; [done|]. destruct (Z.eqb_spec (lastchar (Some (if firstchar (Some e) =? SLASH then tail e else e))) SLASH) as [Hl|]; [|by eexists].
  intros _. destruct (exists_last He) as (x & y & E). rewrite E in *. rewrite lastchar_app in Hl. subst y. by exists x.
Qed.

(** One element is added behind a '/'. *)
Lemma join_step size e res : Z.of_nat (length (res ++ [SLASH] ++ element e)) + 1 <= size ->
  (if (0 <? length e)%nat then
    r ← strcat size (res ++ [SLASH]) (drop (if firstchar (Some e) =? SLASH then 1 else 0) e);
    if negb (lastchar (Some r) =? SLASH) then strcat size r [SLASH] else Some r
  else Some (res ++ [SLASH])) = Some (res ++ [SLASH] ++ element e).
Proof.
  intros Hs. destruct e as [|c e]; [done|]. cbn [length Nat.ltb Nat.leb].
  unfold element in *. set (d := if firstchar (Some (c :: e)) =? SLASH then tail (c :: e) else c :: e) in *.
  assert (Hd : drop (if firstchar (Some (c :: e)) =? SLASH then 1 else 0) (c :: e) = d).
  { unfold d. change (firstchar (Some (c :: e))) with c. destruct (c =? SLASH); [|done]. apply drop_0. }
  rewrite Hd. unfold strcat. case_bool_decide as He.
  - rewrite He, !app_nil_r in *. rewrite (proj2 (Z.leb_le _ _)) by lia. cbn [mbind option_bind].
    by rewrite lastchar_app, Z.eqb_refl.
  - destruct (exists_last He) as (x & y & E). rewrite E in *. rewrite lastchar_app in *.
    assert (Hl : lastchar (Some ((res ++ [SLASH]) ++ x ++ [y])) = y) by (rewrite app_assoc; apply lastchar_app).
    destruct (Z.eqb_spec y SLASH) as [Hy|Hy].
    + rewrite <- app_assoc, (proj2 (Z.leb_le _ _)) by lia. cbn [mbind option_bind].
      rewrite <- app_assoc in Hl. by rewrite Hl, (proj2 (Z.eqb_eq y SLASH)).
    + rewrite !length_app in Hs. cbn [length] in Hs.
      rewrite (proj2 (Z.leb_le _ _)) by (rewrite !length_app; cbn [length]; lia). cbn [mbind option_bind].
      rewrite Hl, (proj2 (Z.eqb_neq y SLASH)) by done. cbn [negb].
      rewrite (proj2 (Z.leb_le _ _)) by (rewrite !length_app; cbn [length]; lia).
      by rewrite <- !app_assoc.
Qed.
Lemma join_loop_ok size es : forall res,
  Z.of_nat (length (res ++ [SLASH] ++ concat (element <$> es))) + 1 <= size ->
  join_loop size es (res ++ [SLASH]) = Some (res ++ [SLASH] ++ concat (element <$> es)).
Proof.
  induction es as [|e es IH]; intros res Hs; [done|]. cbn [fmap list_fmap concat] in *. cbn [join_loop].
  rewrite join_step by (rewrite !length_app in *; lia). cbn [mbind option_bind].
  destruct (decide (element e = [])) as [He|He].
  - rewrite He in *. cbn [app] in *. by apply IH.
  - destruct (element_slash e He) as (x & E). rewrite E in *.
    replace (res ++ [SLASH] ++ x ++ [SLASH]) with ((res ++ [SLASH] ++ x) ++ [SLASH]) by (by rewrite <- !app_assoc).
    rewrite IH; [by rewrite <- !app_assoc|]. rewrite <- !app_assoc in *. exact Hs.
Qed.

(** C36: joining the elements of a path never writes outside the memory that is
    allocated for it, and gives '/' and the elements with one '/' between them:
    of each element a '/' in front is dropped and one at its end made sure of,
    and that of the last one dropped again. Only when nothing is left, or there
    is no memory, it is a null pointer. *)
Theorem path_join_spec malloc es : Z.of_nat (length (concat (element <$> es))) + 2 < 2 ^ 32 ->
  cmn_fs_path_join malloc es =
    Some (if malloc && bool_decide (concat (element <$> es) <> [])
          then Some (SLASH :: take (length (concat (element <$> es)) - 1) (concat (element <$> es))) else None).
Proof.
  intros Hl. unfold cmn_fs_path_join.
  assert (Ht : foldr (fun e t => join_length e + t) 0 es = Z.of_nat (length (concat (element <$> es)))).
  { clear Hl. induction es as [|e es IH]; [done|]. cbn [foldr fmap list_fmap concat]. rewrite length_app, IH, join_length_ok. lia. }
  rewrite Ht, u32_small by (split; lia). rewrite u32_small by (split; lia). set (c := concat (element <$> es)) in *.
  destruct (Z.eqb_spec (Z.of_nat (length c)) 0) as [E|E]; cbn [orb].
  - rewrite bool_decide_false, andb_false_r by (destruct c; [by intros ?|cbn in E; lia]). done.
  - destruct malloc; [|done]. cbn [negb andb]. rewrite bool_decide_true by (by destruct c).
    rewrite (join_loop_ok _ es []) by (cbn [app length]; fold c; lia). cbn [mbind option_bind app]. fold c.
    do 2 f_equal. cbn [length]. rewrite Nat.sub_succ, Nat.sub_0_r. destruct (length c) eqn:El; [lia|].
    cbn [take]. by rewrite Nat.sub_succ, Nat.sub_0_r.
Qed.

(** ** Directory trees *)

(** A directory: its entries, and what is in those that are directories; or one
    that cannot be opened. *)
Inductive tree := Closed | Tree (cs : list (dirent * tree)).
Definition children (t : tree) : list (dirent * tree) := match t with Closed => [] | Tree cs => cs end.
Definition names (t : tree) : list dirent := fst <$> children t.

Lemma tree_ind' (P : tree -> Prop) :
  P Closed -> (forall cs, (forall e t, (e, t) ∈ cs -> P t) -> P (Tree cs)) -> forall t, P t.
Proof.
  intros H0 H. fix IH 1. intros [|cs]; [exact H0|]. apply H.
  induction cs as [|[e' t'] cs IHcs]; intros e t Hin; [destruct (not_elem_of_nil _ Hin)|].
  apply elem_of_cons in Hin as [E|Hin]; [injection E as _ ->; apply IH|exact (IHcs e t Hin)].
Qed.

(** The name of an entry of a directory. *)
Definition full_name (path name : list Z) : list Z := default [] (mjoin (cmn_fs_path_join true [path; name])).

Section Events.
Context (hasdirs0 : list Z -> bool) (pattern : list Z) (recursive : bool).

(** A call of the walker's function. *)
Definition event := (list Z * option dirent * Z)%type.
Definition matching (t : tree) : list dirent :=
  filter (fun e => cmn_pattern_matches (fname e) pattern = true) (names t).
(** Whether the walk goes into the directories of [t]. *)
Definition descends (path : list Z) (t : tree) : bool :=
  recursive && (hasdirs0 path || existsb is_dir (matching t)).
(** The calls for a whole tree, if none of them ends the walk. *)
Fixpoint events (path : list Z) (t : tree) : list event :=
  match t with
  | Closed => [(path, None, CMN_FS_INFO_OPENDIR_FAILED)]
  | Tree cs =>
      [(path, None, CMN_FS_INFO_BEFORE_READDIR)] ++
      ((fun e => (path, Some e, CMN_FS_INFO_INSIDE_READDIR)) <$> matching t) ++
      [(path, None, CMN_FS_INFO_AFTER_CLOSEDIR)] ++
      (if descends path t
       then flat_map (fun c => if is_dir c.1 then events (full_name path (fname c.1)) c.2 else []) cs else []) ++
      [(path, None, CMN_FS_INFO_DIRECTORY_DONE)]
  end.
(** The calls for the directories among [cs]. *)
Definition dir_events (path : list Z) (cs : list (dirent * tree)) : list event :=
  flat_map (fun c => if is_dir c.1 then events (full_name path (fname c.1)) c.2 else []) cs.

(** How deep the recursion and how long the loops are. *)
Fixpoint need (t : tree) : nat :=
  match t with
  | Closed => 1
  | Tree cs => S (S (length cs) `max` foldr (fun c m => (need c.2 `max` m)%nat) 0%nat cs)
  end.

(** The calls one after the other, until one returns 0. *)
Fixpoint deliver {P} (step : event -> P -> bool * P) (evs : list event) (p : P) : bool * P :=
  match evs with
  | [] => (true, p)
  | e :: evs => let '(go, p) := step e p in if go then deliver step evs p else (false, p)
  end.
End Events.

Lemma deliver_app {P} (step : event -> P -> bool * P) a b p : deliver step (a ++ b) p =
  let '(go, p) := deliver step a p in if go then deliver step b p else (false, p).
Proof.
  revert p. induction a as [|e a IH]; intros p; [done|]. cbn [app deliver].
  destruct (step e p) as [[] q]; [apply IH|done].
Qed.
Lemma need_children cs e t : (e, t) ∈ cs -> (need t < need (Tree cs))%nat.
Proof.
  intros Hin. cbn [need]. apply Nat.lt_succ_r. etransitivity; [|apply Nat.le_max_r].
  induction cs as [|[e' t'] cs IH]; [by apply not_elem_of_nil in Hin|]. cbn [foldr snd].
  apply elem_of_cons in Hin as [[= _ <-]|Hin]; [lia|]. specialize (IH Hin). lia.
Qed.
Lemma need_length cs : (S (length cs) < need (Tree cs))%nat.
Proof. cbn [need]. lia. Qed.

(** What the walk needs of a file system that does not change: [ls] is what
    is in a directory, [left] what a directory that is open has yet to return;
    an open directory is not mixed up with another one, there is memory, and
    the walker's function [step] leaves the open directories alone. *)
Class TreeFs {S D P} (fs : FileSys S D) (cb : list Z -> option dirent -> Z -> S -> bool * S)
    (ls : list Z -> option (list dirent)) (left : S -> D -> option (list dirent))
    (data : S -> P) (step : event -> P -> bool * P) : Prop := {
  tf_opendir path s : exists r s', opendir fs path s = (r, s') /\ data s' = data s /\
    match ls path, r with
    | Some es, Some d => left s d = None /\ left s' d = Some es /\ forall d', d' <> d -> left s' d' = left s d'
    | None, None => forall d', left s' d' = left s d'
    | _, _ => False
    end;
  tf_readdir d es s : left s d = Some es -> exists s', readdir fs d s = (head es, s') /\ data s' = data s /\
    left s' d = Some (tail es) /\ forall d', d' <> d -> left s' d' = left s d';
  tf_closedir d es s : left s d = Some es -> data (closedir fs d s) = data s /\
    left (closedir fs d s) d = None /\ forall d', d' <> d -> left (closedir fs d s) d' = left s d';
  tf_alloc s : exists s', alloc fs s = (true, s') /\ data s' = data s /\ forall d, left s' d = left s d;
  tf_cb path e i s : exists s', cb path e i s = ((step (path, e, i) (data s)).1, s') /\
    data s' = (step (path, e, i) (data s)).2 /\ forall d, left s' d = left s d
}.

Section Walk.
Context {S D P : Type} {eqd : EqDecision D} (fs : FileSys S D) (cb : list Z -> option dirent -> Z -> S -> bool * S).
Context (ls : list Z -> option (list dirent)) (left : S -> D -> option (list dirent)).
Context (data : S -> P) (step : event -> P -> bool * P) {tfs : TreeFs fs cb ls left data step}.
Context (hasdirs0 : list Z -> bool) (pattern : list Z) (recursive : bool).
Abbreviation events := (events hasdirs0 pattern recursive).
Abbreviation dir_events := (dir_events hasdirs0 pattern recursive).
Abbreviation walk := (cmn_fs_actual_walkdir fs cb hasdirs0 pattern recursive).
Abbreviation deliver := (deliver step).

(** The tree is what is below [path]; the names are short enough to be joined. *)
Inductive below : list Z -> tree -> Prop :=
  | below_closed path : ls path = None -> below path Closed
  | below_tree path cs :
      ls path = Some (fst <$> cs) ->
      (forall e t, (e, t) ∈ cs -> is_dir e = true ->
         cmn_fs_path_join true [path; fname e] = Some (Some (full_name path (fname e))) /\
         below (full_name path (fname e)) t) ->
      below path (Tree cs).

(** The state after calls, with the same directories open. *)
Definition after (s s' : S) : Prop := forall d, left s' d = left s d.

Lemma dir_read_ok path d : forall es fuel h s, left s d = Some es -> (length es < fuel)%nat ->
  exists abort h' s', read_loop fs cb pattern fuel path d h s = Some (abort, h', s') /\
    (negb abort, data s') =
      deliver ((fun e => (path, Some e, CMN_FS_INFO_INSIDE_READDIR)) <$>
        filter (fun e => cmn_pattern_matches (fname e) pattern = true) es) (data s) /\
    (abort = false -> h' = h || existsb is_dir (filter (fun e => cmn_pattern_matches (fname e) pattern = true) es)) /\
    is_Some (left s' d) /\ forall d', d' <> d -> left s' d' = left s d'.
Proof.
  induction es as [|e es IH]; intros [|fuel] h s Hs Hf; cbn in Hf; try lia; cbn [read_loop];
    destruct (tf_readdir d _ s Hs) as (s1 & -> & Hd1 & Hl1 & Ho1); cbn [head tail] in *.
  - exists false, h, s1. rewrite Hd1, orb_false_r. eauto 10.
  - rewrite filter_cons. destruct (cmn_pattern_matches (fname e) pattern) eqn:E; cbn [negb].
    + rewrite decide_True by done. cbn [fmap list_fmap CommonFs.deliver existsb].
      destruct (tf_cb path (Some e) CMN_FS_INFO_INSIDE_READDIR s1) as (s2 & -> & Hd2 & Ho2).
      rewrite Hd1 in *. destruct (step _ (data s)) as [[] p] eqn:Es; cbn [fst snd negb] in *.
      * destruct (IH fuel (if is_dir e then true else h) s2) as (ab & h' & s' & -> & Hdel & Hh & Hl & Ho);
          [by rewrite Ho2|lia|].
        exists ab, h', s'. split; [done|]. rewrite Hdel, Hd2. split; [done|].
        split; [intros Hab; rewrite (Hh Hab); destruct (is_dir e), h; done|]. split; [done|].
        intros d' Hd'. rewrite Ho, Ho2, Ho1 by done. done.
      * exists true, h, s2. rewrite Hd2. split; [done|]. split; [done|]. split; [done|]. rewrite Ho2, Hl1. split; [eauto|].
        intros d' Hd'. by rewrite Ho2, Ho1.
    + rewrite decide_False by done. destruct (IH fuel h s1 Hl1 ltac:(lia)) as (ab & h' & s' & -> & Hdel & Hh & Hl & Ho).
      exists ab, h', s'. rewrite Hd1 in Hdel. split; [done|]. split; [done|]. split; [done|]. split; [done|].
      intros d' Hd'. by rewrite Ho, Ho1.
Qed.

(** A walk from [path] is right. *)
Definition walk_ok (fuel : nat) (path : list Z) (t : tree) : Prop :=
  forall s, exists go s', walk fuel path s = Some (go, s') /\ after s s' /\
    (go, data s') = deliver (events path t) (data s).

Lemma open_failed path fuel : ls path = None -> walk_ok (Datatypes.S fuel) path Closed.
Proof.
  intros Hls s. cbn [cmn_fs_actual_walkdir]. destruct (tf_opendir path s) as (r & s1 & -> & Hd & Hr).
  rewrite Hls in Hr. destruct r; [done|]. destruct (tf_cb path None CMN_FS_INFO_OPENDIR_FAILED s1) as (s2 & -> & Hd2 & Ho2).
  rewrite Hd in *. eexists _, s2. split; [done|]. split; [intros d; by rewrite Ho2, Hr|].
  cbn [CommonFs.deliver CommonFs.events]. rewrite Hd2. by destruct (step _ _) as [[] ?].
Qed.

(** The loop over the directories, if the walk of each is right. *)
Lemma dirs_loop_ok fuel' path d : forall cs fuel s, left s d = Some (fst <$> cs) -> (length cs < fuel)%nat ->
  (forall e t, (e, t) ∈ cs -> is_dir e = true ->
     cmn_fs_path_join true [path; fname e] = Some (Some (full_name path (fname e))) /\
     walk_ok fuel' (full_name path (fname e)) t) ->
  exists abort s', dirs_loop fs cb (walk fuel') fuel path d s = Some (abort, s') /\
    (negb abort, data s') = deliver (dir_events path cs) (data s) /\
    is_Some (left s' d) /\ forall d', d' <> d -> left s' d' = left s d'.
Proof.
  induction cs as [|[e t] cs IH]; intros [|fuel] s Hs Hf Hw; cbn in Hf; try lia; cbn [dirs_loop];
    destruct (tf_readdir d _ s Hs) as (s1 & -> & Hd1 & Hl1 & Ho1); cbn [head tail fmap list_fmap fst] in *.
  - exists false, s1. rewrite Hd1. eauto 10.
  - assert (Hw' : forall e t, (e, t) ∈ cs -> is_dir e = true ->
      cmn_fs_path_join true [path; fname e] = Some (Some (full_name path (fname e))) /\
      walk_ok fuel' (full_name path (fname e)) t) by (intros; apply Hw; [by apply list_elem_of_further|done]).
    unfold CommonFs.dir_events. cbn [flat_map fst snd]. fold (dir_events path cs).
    destruct (is_dir e) eqn:Ee.
    + destruct (Hw e t (list_elem_of_here _ _) Ee) as [Hjoin Hwalk].
      destruct (tf_alloc s1) as (s2 & -> & Hd2 & Ho2). rewrite Hjoin.
      cbn [mbind option_bind]. destruct (Hwalk s2) as (go & s3 & -> & Ha & Hdel). cbn [mbind option_bind].
      rewrite Hd2, Hd1 in Hdel. rewrite deliver_app, <- Hdel. destruct go; cbn [negb].
      * destruct (IH fuel s3) as (ab & s' & -> & Hd' & Hl' & Ho'); [by rewrite (Ha d), Ho2|lia|done|].
        exists ab, s'. split; [done|]. split; [done|]. split; [done|]. intros d' Hne. by rewrite Ho', (Ha d'), Ho2, Ho1.
      * exists true, s3. split; [done|]. split; [done|]. rewrite (Ha d), Ho2, Hl1. split; [eauto|].
        intros d' Hne. by rewrite (Ha d'), Ho2, Ho1.
    + destruct (IH fuel s1 Hl1 ltac:(lia) Hw') as (ab & s' & -> & Hd' & Hl' & Ho'). rewrite Hd1 in Hd'.
      exists ab, s'. split; [done|]. split; [done|]. split; [done|]. intros d' Hne. by rewrite Ho', Ho1.
Qed.

(** One call of the walker's function. *)
Lemma cb_ok path e i s : exists go s', cb path e i s = (go, s') /\
  deliver [(path, e, i)] (data s) = (go, data s') /\ after s s'.
Proof.
  destruct (tf_cb path e i s) as (s' & -> & Hd & Ho). eexists _, s'. split; [done|]. split; [|done].
  cbn [CommonFs.deliver]. rewrite Hd. by destruct (step _ _) as [[] ?].
Qed.
(** A directory that was opened is closed again. *)
Lemma close_ok s s1 s2 d : left s d = None -> (forall d', d' <> d -> left s1 d' = left s d') ->
  is_Some (left s2 d) -> (forall d', d' <> d -> left s2 d' = left s1 d') ->
  after s (closedir fs d s2) /\ data (closedir fs d s2) = data s2.
Proof.
  intros Hn H1 [es He] H2. destruct (tf_closedir d es s2 He) as (Hdc & Hlc & Hoc). split; [|done].
  intros d'. destruct (decide (d' = d)) as [->|Hne]; [by rewrite Hlc, Hn|by rewrite Hoc, H2, H1].
Qed.
(** The second time the directory is read. *)
Lemma descend_ok fuel path cs (go : bool) s : ls path = Some (fst <$> cs) -> (length cs < fuel)%nat ->
  (forall e t, (e, t) ∈ cs -> is_dir e = true ->
     cmn_fs_path_join true [path; fname e] = Some (Some (full_name path (fname e))) /\
     walk_ok fuel (full_name path (fname e)) t) ->
  exists stop s',
    (if go then
       let '(d, s) := opendir fs path s in
       match d with
       | Some d => '(abort, s) ← dirs_loop fs cb (walk fuel) fuel path d s; Some (abort, closedir fs d s)
       | None => let '(go, s) := cb path None CMN_FS_INFO_OPENDIR_FAILED s in Some (negb go, s)
       end
     else Some (false, s)) = Some (stop, s') /\
    (negb stop, data s') = deliver (if go then dir_events path cs else []) (data s) /\ after s s'.
Proof.
  intros Hls Hf Hw. destruct go; [|by exists false, s].
  destruct (tf_opendir path s) as (r & s1 & -> & Hd1 & Hr). rewrite Hls in Hr. destruct r as [d|]; [|done].
  destruct Hr as (Hn & Hl1 & Ho1).
  destruct (dirs_loop_ok fuel path d cs fuel s1 Hl1 Hf Hw) as (abort & s2 & -> & Hdel & Hl2 & Ho2).
  cbn [mbind option_bind]. destruct (close_ok s s1 s2 d Hn Ho1 Hl2 Ho2) as [Ha Hd2].
  eexists _, _. split; [done|]. rewrite Hd2, Hdel, Hd1. done.
Qed.

Lemma walk_below path t : below path t -> forall fuel, (need t <= fuel)%nat -> walk_ok fuel path t.
Proof.
  intros Hb. revert path Hb. induction t as [|cs IH] using tree_ind'; intros path Hb fuel Hf.
  { inversion Hb; subst. destruct fuel; [cbn in Hf; lia|]. by apply open_failed. }
  inversion Hb as [|? ? Hls Hsub]; subst. clear Hb. destruct fuel as [|fuel]; [cbn in Hf; lia|].
  pose proof (need_length cs) as Hlen. intros s. cbn [cmn_fs_actual_walkdir CommonFs.events].
  set (dsc := descends hasdirs0 pattern recursive path (Tree cs)).
  change (flat_map _ cs) with (dir_events path cs).
  destruct (tf_opendir path s) as (r & s1 & -> & Hd1 & Hr). rewrite Hls in Hr. destruct r as [d|]; [|done].
  destruct Hr as (Hn & Hl1 & Ho1).
  destruct (cb_ok path None CMN_FS_INFO_BEFORE_READDIR s1) as (go & s2 & -> & E2 & A2).
  rewrite Hd1 in E2. rewrite deliver_app, E2. destruct go; cbn [negb].
  2: { destruct (close_ok s s1 s2 d Hn Ho1) as [Ha Hdc]; [by rewrite A2, Hl1|intros; apply A2|].
       eexists _, _. split; [done|]. by rewrite Hdc. }
  destruct (dir_read_ok path d (fst <$> cs) fuel (hasdirs0 path) s2) as (abort & h' & s3 & -> & E3 & Hh & Hl3 & Ho3);
    [by rewrite A2|rewrite length_fmap; lia|].
  cbn [mbind option_bind]. destruct (close_ok s s1 s3 d Hn Ho1 Hl3) as [A3 Hd3]; [intros; by rewrite Ho3, A2|].
  change (filter _ (fst <$> cs)) with (matching pattern (Tree cs)) in E3. rewrite deliver_app, <- E3.
  destruct abort; cbn [negb]; [eexists _, _; split; [done|]; by rewrite Hd3|].
  destruct (cb_ok path None CMN_FS_INFO_AFTER_CLOSEDIR (closedir fs d s3)) as (go & s4 & -> & E4 & A4).
  rewrite Hd3 in E4. rewrite deliver_app, E4.
  assert (A4' : after s s4) by (intros d'; by rewrite A4, A3).
  destruct go; cbn [negb]; [|by eexists _, _].
  assert (Hdsc : recursive && h' = dsc) by (unfold dsc, descends; rewrite Hh; done). rewrite Hdsc.
  destruct (descend_ok fuel path cs dsc s4 Hls) as (stop & s5 & -> & E5 & A5); [lia| |].
  { intros e t Hin He. destruct (Hsub e t Hin He) as [Hj Hbel]. split; [done|].
    apply (IH e t Hin); [done|]. pose proof (need_children cs e t Hin). lia. }
  cbn [mbind option_bind]. rewrite deliver_app, <- E5.
  assert (A5' : after s s5) by (intros d'; by rewrite A5, A4').
  destruct stop; cbn [negb]; [by eexists _, _|].
  destruct (cb_ok path None CMN_FS_INFO_DIRECTORY_DONE s5) as (go & s6 & -> & E6 & A6).
  eexists _, _. split; [done|]. split; [intros d'; by rewrite A6, A5'|done].
Qed.
End Walk.

Section Properties.
Context {S D P : Type} {eqd : EqDecision D} (fs : FileSys S D) (cb : list Z -> option dirent -> Z -> S -> bool * S).
Context (ls : list Z -> option (list dirent)) (left : S -> D -> option (list dirent)).
Context (data : S -> P) (step : event -> P -> bool * P) {tfs : TreeFs fs cb ls left data step}.

End Properties.

(** ** Split paths *)

Lemma strrchr_Some s k : strrchr s = Some k <-> exists a b, s = (a ++ SLASH :: b) /\ (SLASH ∉ b) /\ length a = k.
Proof.
  unfold strrchr. rewrite fmap_Some. split.
  - intros (j & (a & b & E & Hn & Hj)%strchr_Some & ->).
    apply (f_equal reverse) in E. rewrite reverse_involutive, reverse_app, reverse_cons, <- app_assoc in E.
    exists (reverse b), (reverse a). split; [exact E|]. split; [by rewrite elem_of_reverse|].
    rewrite E, !length_app. cbn. rewrite !length_reverse. lia.
  - intros (a & b & -> & Hn & Hk). exists (length b). split.
    + apply strchr_Some. exists (reverse b), (reverse a). rewrite reverse_app, reverse_cons, <- app_assoc, elem_of_reverse, length_reverse. done.
    + rewrite length_app. cbn. lia.
Qed.

(** What the directory and the mask of a path are: everything of a directory, or
    a name or a pattern in one; [path]: at least two characters, the first of
    them a '/'.  The file system and the memory answer as [is_file] says. *)
Lemma split_path_ok {S D} (fs : FileSys S D) (is_file : list Z -> bool) path s :
  (forall p s, fopen fs p s = (is_file p, s)) -> (forall s, alloc fs s = (true, s)) ->
  (2 <= length path)%nat -> head path = Some SLASH ->
  exists dir mask, cmn_fs_split_path fs (Some path) s = (Some (dir, mask), s) /\
    ((mask = [STAR] /\ (path = dir \/ path = (dir ++ [SLASH]))) \/
     (path = (dir ++ SLASH :: mask) /\ (SLASH ∉ mask) /\ mask <> [] /\
       (has STAR path = true \/ has QUESTION path = true \/ is_file path = true))).
Proof.
  intros Hf Ha Hl Hh. unfold cmn_fs_split_path. rewrite (proj2 (Nat.ltb_ge _ _)) by lia.
  rewrite bool_decide_true by done. cbn [negb orb]. rewrite Ha.
  case_bool_decide as Hs; [exists path, [STAR]; by auto|].
  destruct (Z.eqb_spec (lastchar (Some path)) SLASH) as [Hc|Hc].
  { exists (take (length path - 1) path), [STAR]. split; [done|]. left. split; [done|]. right.
    destruct (exists_last (l := path)) as (x & y & ->); [by destruct path|]. rewrite lastchar_app in Hc. subst y.
    by rewrite length_app, Nat.add_sub, take_app_length. }
  destruct (strchr (tail path)) as [j|] eqn:Ej; [|done].
  assert (exists k, strrchr path = Some k) as (k & Hk).
  { apply strchr_Some in Ej as (a & b & E & _ & _). unfold strrchr. destruct (strchr (reverse path)) as [k|] eqn:Ek; [by eexists|].
    apply strchr_None in Ek. destruct Ek. rewrite elem_of_reverse. destruct path; [done|]. cbn in E. subst.
    apply list_elem_of_further, elem_of_app. right. apply list_elem_of_here. }
  rewrite Hk. cbn [default]. apply strrchr_Some in Hk as (a & b & -> & Hb & Hka).
  assert (Hb' : b <> []) by (intros ->; by rewrite lastchar_app in Hc).
  assert (Ht : take k (a ++ SLASH :: b) = a) by (by rewrite <- Hka, take_app_length).
  assert (Hd : drop (k + 1) (a ++ SLASH :: b) = b).
  { rewrite <- Hka, drop_app_ge by lia. by replace (length a + 1 - length a)%nat with 1%nat by lia. }
  cbv zeta. unfold default. cbn [id]. rewrite Ht, Hd. destruct (has STAR _) eqn:E1; cbn [orb]; [exists a, b; by auto 10|].
  destruct (has QUESTION _) eqn:E2; [exists a, b; by auto 10|]. rewrite Hf.
  destruct (is_file _) eqn:E3; rewrite Ha; [exists a, b; by auto 10|]. eexists _, [STAR]. by auto.
Qed.

(** ** Examples

    A file system of two directories: "/d" with the file "a.x", the directory
    "s", and the directory "c" that cannot be opened; "/d/s" with the file
    "b.y".  The walker's function notes its calls, [n] of them at most. *)

Definition ex_ls (path : list Z) : option (list dirent) :=
  if bool_decide (path = [47; 100]) then Some [mkEnt [97; 46; 120] 3 0; mkEnt [115] 0 1; mkEnt [99] 0 1]
  else if bool_decide (path = [47; 100; 47; 115]) then Some [mkEnt [98; 46; 121] 5 0] else None.
Definition ex_state := (gmap nat (list dirent) * list event)%type.
Definition ex_fs : FileSys ex_state nat := {|
  fopen _ s := (false, s);
  opendir path s := match ex_ls path with
    | Some es => let d := fresh (dom s.1) in (Some d, (<[d := es]> s.1, s.2))
    | None => (None, s)
    end;
  readdir d s := match s.1 !! d with Some (e :: es) => (Some e, (<[d := es]> s.1, s.2)) | _ => (None, s) end;
  closedir d s := (delete d s.1, s.2);
  alloc s := (true, s)
|}.
Definition ex_step (n : nat) (e : event) (log : list event) : bool * list event :=
  ((S (length log) <? n)%nat, log ++ [e]).
Definition ex_cb (n : nat) (path : list Z) (e : option dirent) (i : Z) (s : ex_state) : bool * ex_state :=
  let '(go, log) := ex_step n (path, e, i) s.2 in (go, (s.1, log)).

#[export] Instance ex_tree_fs n : TreeFs ex_fs (ex_cb n) ex_ls (fun s d => s.1 !! d) snd (ex_step n).
Proof.
  split.
  - intros path s. cbn [opendir ex_fs]. destruct (ex_ls path) as [es|]; eexists _, _; (split; [done|]; split; [done|]); [|done]. split_and!.
    + apply not_elem_of_dom, is_fresh.
    + apply lookup_insert_eq.
    + intros d' Hd. by apply lookup_insert_ne.
  - intros d es s Hd. cbn [readdir ex_fs]. rewrite Hd. destruct es as [|e es]; eexists; split_and!; try done.
    + apply lookup_insert_eq.
    + intros d' Hne. by apply lookup_insert_ne.
  - intros d es s Hd. split_and!; [done|apply lookup_delete_eq|]. intros d' Hne. by apply lookup_delete_ne.
  - intros s. by exists s.
  - intros path e i s. by exists (s.1, s.2 ++ [(path, e, i)]).
Qed.

Definition ex_tree : tree := Tree
  [(mkEnt [97; 46; 120] 3 0, Closed); (mkEnt [115] 0 1, Tree [(mkEnt [98; 46; 121] 5 0, Closed)]); (mkEnt [99] 0 1, Closed)].
Lemma ex_below : below ex_ls [47; 100] ex_tree.
Proof.
  apply below_tree; [reflexivity|]. intros e t Hin He. unfold ex_tree in Hin. rewrite !elem_of_cons in Hin.
  destruct_or! Hin; try (injection Hin as -> ->).
  - discriminate He.
  - split; [reflexivity|]. apply below_tree; [reflexivity|]. intros e t Hin' He'.
    apply elem_of_cons in Hin' as [Hin'|Hin']; [injection Hin' as -> ->; discriminate He'|by apply not_elem_of_nil in Hin'].
  - split; [reflexivity|]. by apply below_closed.
  - by apply not_elem_of_nil in Hin.
Qed.


Lemma pattern_spec_witness :
  cmn_pattern_matches [97; 98; 46; 99] [STAR; 46; QUESTION] = true /\ glob [STAR; 46; QUESTION] [97; 98; 46; 99].
Proof.
  destruct (pattern_spec [97; 98; 46; 99] [STAR; 46; QUESTION]) as (H1 & _ & H3).
  assert (Hm : cmn_pattern_matches [97; 98; 46; 99] [STAR; 46; QUESTION] = true).
  { apply H3. apply (sh_star 46 [QUESTION] [97; 98] [99]); [done..|by_decide|]. apply sh_char; [done|by left|constructor]. }
  split; [exact Hm|]. apply H1; [exact Hm|reflexivity].
Defined.
Lemma path_join_spec_witness :
  cmn_fs_path_join true [[47; 114; 111; 109; 47]; []; [47]; [97]] = Some (Some [47; 114; 111; 109; 47; 97]).
Proof. exact (path_join_spec true [[47; 114; 111; 109; 47]; []; [47]; [97]] eq_refl). Defined.

(** "*.x" does not match "a.b.x": the '.' is the first one. *)
Example first_dot : cmn_pattern_matches [97; 46; 98; 46; 120] [STAR; 46; 120] = false.
Proof. reflexivity. Qed.
(** "*?" matches the empty name, and so does "*". *)
Example star_empty : cmn_pattern_matches [] [STAR; QUESTION] = true /\ cmn_pattern_matches [] [STAR] = true.
Proof. split; reflexivity. Qed.
(** Of two '*' the second one is a character. *)
Example two_stars : cmn_pattern_matches [97; 98] [STAR; STAR] = false.
Proof. reflexivity. Qed.
(** The walk goes into a directory only if a directory matches the pattern, or
    by chance: [hasdirs] is not set before it is read. *)
Example unset_hasdirs :
  descends (fun _ => false) [STAR; 46; 121] true [47; 100] ex_tree = false /\
  descends (fun _ => true) [STAR; 46; 121] true [47; 100] ex_tree = true.
Proof. split; reflexivity. Qed.
(** A walk that is stopped answers 1 all the same. *)
Example stopped_walk : fst <$> cmn_fs_walkdir ex_fs (ex_cb 2) (fun _ => false) 9 (Some [47; 100]) true (∅, []) = Some 1.
Proof. vm_compute. reflexivity. Qed.
