(* ===== verification/Common.v ===== *)
(** * Common: helpers shared by the platforms

    Models the rest of what src/common.c does by itself: the ends of the free
    memory, the interrupt handler that serves both Lua and C handlers, and two
    conversions of numbers. *)

From S2P Require Import Prelude IntQueue.

(** ** Free memory *)

Definition MIN_ALIGN : Z := 8.
Definition MIN_ALIGN_SHIFT : Z := 3.
(** [mstart], [mend]: MEM_START_ADDRESS and MEM_END_ADDRESS; 0 is a null
    pointer. *)
Definition platform_get_first_free_ram (mstart : list Z) (id : nat) : Z :=
  match mstart !! id with
  | None => 0
  | Some p => if negb (Z.land p (MIN_ALIGN - 1) =? 0)
              then u32 (Z.shiftl (u32 (Z.shiftr p MIN_ALIGN_SHIFT + 1)) MIN_ALIGN_SHIFT) else p
  end.
Definition platform_get_last_free_ram (mend : list Z) (id : nat) : Z :=
  match mend !! id with
  | None => 0
  | Some p => if negb (Z.land p (MIN_ALIGN - 1) =? 0)
              then u32 (Z.shiftl (u32 (Z.shiftr p MIN_ALIGN_SHIFT - 1)) MIN_ALIGN_SHIFT) else p
  end.

(** ** Interrupts *)

Section Handler.
Context {handler : Type} (logsize : nat) (INT_ELUA_LAST : Z).
(** The state of Lua's interrupts, and the calls of C handlers it makes. *)
Definition cmn_int_handler (lua_running : bool) (c_handlers : list (option handler)) (id resnum : Z) (s : int_state)
  : option (option (handler * Z) * int_state) :=
  '(_, s) ← elua_int_add logsize INT_ELUA_LAST lua_running id resnum s;
  phnd ← (elua_int_get_c_handler INT_ELUA_LAST id c_handlers : option (option handler));
  Some (match phnd with Some h => Some (h, resnum) | None => None end, s).
End Handler.

(** ** Numbers *)

(** [v >>= 1] until it is 0: 32 times at most. *)
Fixpoint intlog2_loop (fuel : nat) (v r : Z) : Z :=
  match fuel with
  | O => r
  | S fuel => let v := Z.shiftr v 1 in if v =? 0 then r else intlog2_loop fuel v (r + 1)
  end.
Definition intlog2 (v : Z) : Z := intlog2_loop 32 v 0.

(** The digits from [nr + l] down; the loop ends when nothing is left.  [None]:
    a store outside the buffer. *)
Fixpoint str64_loop (fuel : nat) (nr : list Z) (l : Z) (x : Z) : option (list Z * Z) :=
  match fuel with
  | O => None
  | S fuel =>
      let q := x / 10 in
      let r := x mod 10 in
      if l <? 0 then None else
      nr ← store nr (Z.to_nat l) (r + 48);
      if negb (q =? 0) then str64_loop fuel nr (l - 1) q else Some (nr, l - 1)
  end.
(** The string at [nr + l + 1]. *)
Definition cmn_str64 (x : Z) : option (list Z) :=
  '(nr, l) ← str64_loop 20 (replicate 32 0) 30 x; str_at nr (Z.to_nat (l + 1)).

(** ** What they compute *)

(** The memory between the two is inside the region, on whole units. *)
Lemma free_ram_ok mstart mend id a b : mstart !! id = Some a -> mend !! id = Some b ->
  0 <= a -> a + 8 < 2 ^ 32 -> 8 <= b < 2 ^ 32 ->
  a <= platform_get_first_free_ram mstart id < a + 8 /\ platform_get_first_free_ram mstart id mod 8 = 0 /\
  b - 16 < platform_get_last_free_ram mend id <= b /\ platform_get_last_free_ram mend id mod 8 = 0.
Proof.
  intros Ha Hb H0 Ha8 Hb8. unfold platform_get_first_free_ram, platform_get_last_free_ram. rewrite Ha, Hb.
  change (MIN_ALIGN - 1) with (2 ^ 3 - 1). rewrite !land_mask by done. change (2 ^ 3) with 8.
  unfold MIN_ALIGN_SHIFT. rewrite !Z.shiftr_div_pow2, !Z.shiftl_mul_pow2 by done. change (2 ^ 3) with 8.
  pose proof (Z.div_mod a 8 ltac:(lia)). pose proof (Z.mod_pos_bound a 8 ltac:(lia)).
  pose proof (Z.div_mod b 8 ltac:(lia)). pose proof (Z.mod_pos_bound b 8 ltac:(lia)).
  rewrite !(u32_small (a / 8 + 1)), !(u32_small (b / 8 - 1)) by (split; lia). rewrite !u32_small by (split; lia).
  split; [|split; [|split]].
  - destruct (Z.eqb_spec (a mod 8) 0); cbn [negb]; lia.
  - destruct (Z.eqb_spec (a mod 8) 0); cbn [negb]; [done|]. apply Z.mod_mul. lia.
  - destruct (Z.eqb_spec (b mod 8) 0); cbn [negb]; lia.
  - destruct (Z.eqb_spec (b mod 8) 0); cbn [negb]; [done|]. apply Z.mod_mul. lia.
Qed.

(** An interrupt reaches Lua's queue, if Lua takes it, and the C handler. *)
Lemma cmn_int_handler_ok {handler} logsize last (hs : list (option handler)) id res s r n h :
  q_wf logsize s r n -> elua_int_is_enabled id s = Some true -> (n < qsize logsize)%nat ->
  ELUA_INT_FIRST_ID <= id <= last -> hs !! Z.to_nat (id - ELUA_INT_FIRST_ID) = Some h ->
  exists s', cmn_int_handler logsize last true hs id res s = Some (match h with Some h => Some (h, res) | None => None end, s') /\
    q_wf logsize s' r (S n) /\ q_list logsize s' r (S n) = q_list logsize s r n ++ [(id, res)] /\ hook_set s' = true.
Proof.
  intros Hwf He Hn Hid Hh. destruct (add_ok logsize last s r n id res Hwf Hn Hid He) as (s' & E & H2 & H3 & _ & H4).
  exists s'. unfold cmn_int_handler. rewrite E. cbn [mbind option_bind]. unfold elua_int_get_c_handler.
  rewrite (proj2 (Z.ltb_ge _ _)), (proj2 (Z.ltb_ge _ _)) by lia. cbn [orb]. by rewrite Hh.
Qed.

Lemma intlog2_loop_ok fuel : forall v r, 0 < v < 2 ^ Z.of_nat fuel -> intlog2_loop fuel v r = r + Z.log2 v.
Proof.
  induction fuel as [|fuel IH]; intros v r Hv; [cbn in Hv; lia|]. cbn [intlog2_loop].
  rewrite Z.shiftr_div_pow2 by done. change (2 ^ 1) with 2.
  rewrite Nat2Z.inj_succ, Z.pow_succ_r in Hv by lia.
  destruct (Z.eqb_spec (v / 2) 0) as [E|E].
  - assert (v = 1) as -> by (pose proof (Z.div_mod v 2); pose proof (Z.mod_pos_bound v 2); lia). cbn. lia.
  - assert (Hd : 0 < v / 2) by (pose proof (Z.div_pos v 2); lia).
    rewrite IH by (split; [done|]; apply Z.div_lt_upper_bound; lia).
    assert (Hlog : Z.log2 (v / 2) = Z.max 0 (Z.log2 v - 1)).
    { change (v / 2) with (v / 2 ^ 1). rewrite <- Z.shiftr_div_pow2 by done. apply Z.log2_shiftr. lia. }
    rewrite Hlog. assert (1 < v) by (destruct (decide (v = 1)) as [->|]; [done|lia]). pose proof (Z.log2_pos v). lia.
Qed.
(** The index of the highest bit. *)
Lemma intlog2_ok v : 0 < v < 2 ^ 32 -> intlog2 v = Z.log2 v.
Proof. intros H. unfold intlog2. by rewrite intlog2_loop_ok. Qed.

(** The digits are stored inside the buffer, in front of those already there. *)
Lemma str64_loop_ok fuel : forall k x acc, 0 <= x < 10 ^ Z.of_nat fuel -> (0 < fuel <= S k)%nat -> Forall is_digit acc ->
  exists j, str64_loop fuel (replicate (S k) 0 ++ acc ++ [0]) (Z.of_nat k) x =
    Some (replicate j 0 ++ dec_digits fuel x acc ++ [0], Z.of_nat j - 1).
Proof.
  induction fuel as [|fuel IH]; intros k x acc Hx Hf Ha; [lia|]. cbn [str64_loop dec_digits].
  pose proof (Z.div_mod x 10 ltac:(lia)). pose proof (Z.mod_pos_bound x 10 ltac:(lia)).
  rewrite (proj2 (Z.ltb_ge _ _)), Nat2Z.id by lia.
  assert (Hst : store (replicate (S k) 0 ++ acc ++ [0]) k (x mod 10 + 48) =
    Some (replicate k 0 ++ ((48 + x mod 10) :: acc) ++ [0])).
  { unfold store. rewrite decide_True by (rewrite length_app, length_replicate; lia).
    rewrite u8_small by word_lia. f_equal. rewrite (replicate_S_end k), <- app_assoc.
    rewrite insert_app_r_alt by (rewrite length_replicate; lia). rewrite length_replicate, Nat.sub_diag. cbn.
    by rewrite Z.add_comm. }
  rewrite Hst. cbn [mbind option_bind]. destruct (Z.eqb_spec (x / 10) 0) as [E|E]; cbn [negb]; [by exists k|].
  assert (0 <= x / 10 < 10 ^ Z.of_nat fuel).
  { split; [apply Z.div_pos; lia|]. apply Z.div_lt_upper_bound; [lia|].
    rewrite <- Z.pow_succ_r by lia. replace (Z.succ (Z.of_nat fuel)) with (Z.of_nat (S fuel)) by lia. lia. }
  assert (0 < fuel)%nat by (destruct fuel; [cbn in *; lia|lia]). destruct k as [|k]; [lia|].
  replace (Z.of_nat (S k) - 1) with (Z.of_nat k) by lia. apply IH; [done|lia|].
  constructor; [unfold is_digit; lia|done].
Qed.
(** What it returns is the number in decimal. *)
Lemma cmn_str64_ok x : 0 <= x < 2 ^ 64 -> cmn_str64 x = Some (decimal x).
Proof.
  intros Hx. unfold cmn_str64. change (replicate 32 0) with (replicate 31 0 ++ [] ++ [0]).
  destruct (str64_loop_ok 20 30 x []) as (j & E); [change (Z.of_nat 20) with 20; lia|lia|constructor|].
  change 30 with (Z.of_nat 30). rewrite E. cbn [mbind option_bind].
  replace (Z.to_nat (Z.of_nat j - 1 + 1)) with j by lia. unfold str_at.
  rewrite drop_app_length' by (by rewrite length_replicate).
  rewrite <- (app_nil_r (_ ++ [0])). apply str_scan_cstr. destruct (decimal_ok x Hx) as (_ & Hd & _).
  eapply Forall_impl; [exact Hd|]. unfold is_digit. intros c Hc. split; [word_lia|lia].
Qed.
Example str64_max : cmn_str64 (2 ^ 64 - 1) = Some (decimal (2 ^ 64 - 1)) /\ length (decimal (2 ^ 64 - 1)) = 20%nat.
Proof. split; reflexivity. Qed.
