(* ===== verification/Term.v ===== *)
(** * Term: the terminal, and the keys behind its bytes

    Models src/term.c, the terminal module (cursor, control sequences, input),
    and the functions src/common.c plugs into it: [term_in], which makes one
    Enter of CR LF, and [term_translate], which turns the bytes of a key into a
    key code.  Both are connected to the line editor of Linenoise: the keys it
    sees are the keys that were typed, and the bytes it sends draw the row it
    means.

    The serial port is a parameter; [line] is the port as the theorems use it:
    the bytes typed, [None] for a pause that is longer than a timeout. *)

From S2P Require Import Prelude Linenoise.

Definition KC_PAGEUP : Z := 262.
Definition KC_PAGEDOWN : Z := 263.
Definition KC_TAB : Z := 265.
Definition KC_ESC : Z := 267.
Definition KC_CTRL_A : Z := 269.
Definition KC_CTRL_E : Z := 270.
Definition KC_UNKNOWN : Z := 276.
Definition TERM_INPUT_DONT_WAIT : Z := 0.
Definition TERM_INPUT_WAIT : Z := 1.
Definition TERM_TIMEOUT : Z := 100000.
Definition TERM_MAX_ANSI_SIZE : nat := 14.
(** With a 32-bit system timer. *)
Definition PLATFORM_TIMER_INF_TIMEOUT : Z := 2 ^ 32 - 2 + 1.

(** ** Input *)

Section Input.
(** [platform_uart_recv( CON_UART_ID, CON_TIMER_ID, timeout )]: the byte, or -1
    after the timeout; [None]: it does not return. *)
Context {W : Type} (platform_uart_recv : Z -> W -> option (Z * W)).

(** [skip_0A] and the port. *)
Abbreviation state := (Z * W)%type.

Definition recv (timeout : Z) (s : state) : option (Z * state) :=
  '(c, w) ← platform_uart_recv timeout s.2; Some (c, (s.1, w)).

(** The loop is left the second time: [skip_0A] is 0 then. *)
Definition term_in (mode : Z) (s : state) : option (Z * state) :=
  let get := recv (if mode =? TERM_INPUT_DONT_WAIT then 0 else PLATFORM_TIMER_INF_TIMEOUT) in
  '(c, s) ← get s;
  if s.1 >? 0 then
    let s := (0, s.2) in
    if c =? 0x0A then get s else Some (c, s)
  else Some (c, s).

Definition term_translate (data : Z) (s : state) : option (Z * state) :=
  if isprint data then Some (data, s)
  else if data =? 0x1B then
    '(c, s) ← recv TERM_TIMEOUT s;
    if c =? -1 then Some (KC_ESC, s) else
    '(c, s) ← recv TERM_TIMEOUT s;
    if c =? -1 then Some (KC_UNKNOWN, s)
    else if (c >=? 0x41) && (c <=? 0x44) then
      Some (if c =? 0x41 then KC_UP else if c =? 0x42 then KC_DOWN
            else if c =? 0x43 then KC_RIGHT else KC_LEFT, s)
    else if (c >? 48) && (c <? 55) then
      '(d, s) ← recv TERM_TIMEOUT s;
      if negb (d =? 126) then Some (KC_UNKNOWN, s)
      else Some (if c =? 49 then KC_HOME else if c =? 52 then KC_END else if c =? 53 then KC_PAGEUP
                 else if c =? 54 then KC_PAGEDOWN else KC_UNKNOWN, s)
    else Some (KC_UNKNOWN, s)
  else if data =? 0x0D then Some (KC_ENTER, (1, s.2))
  else if data =? 0x0A then Some (KC_ENTER, s)
  else Some (
    if data =? 0x09 then KC_TAB
    else if (data =? 0x7F) || (data =? 0x08) then KC_BACKSPACE
    else if data =? 26 then KC_CTRL_Z
    else if data =? 1 then KC_CTRL_A
    else if data =? 5 then KC_CTRL_E
    else if data =? 3 then KC_CTRL_C
    else if data =? 20 then KC_CTRL_T
    else if data =? 21 then KC_CTRL_U
    else if data =? 11 then KC_CTRL_K
    else KC_UNKNOWN, s).

Definition term_getch (mode : Z) (s : state) : option (Z * state) :=
  '(ch, s) ← term_in mode s;
  if ch =? -1 then Some (-1, s) else term_translate ch s.

(** [n] keys. *)
Fixpoint getchs (n : nat) (s : state) : option (list Z * state) :=
  match n with
  | O => Some ([], s)
  | S n => '(c, s) ← term_getch TERM_INPUT_WAIT s; '(cs, s) ← getchs n s; Some (c :: cs, s)
  end.
End Input.

(** ** Output *)

(** The terminal's size and cursor, and the bytes sent. *)
Record term := mkTerm { num_lines : Z; num_cols : Z; cx : Z; cy : Z; sent : list Z }.

Definition send (bs : list Z) (t : term) : term :=
  mkTerm (num_lines t) (num_cols t) (cx t) (cy t) (sent t ++ bs).
Definition at_xy (x y : Z) (t : term) : term := mkTerm (num_lines t) (num_cols t) (u32 x) (u32 y) (sent t).

(** The sequence after ESC, as [vsnprintf] stores it. *)
Definition term_ansi (seq : list Z) (t : term) : term := send (27 :: take (TERM_MAX_ANSI_SIZE - 2) seq) t.
Definition term_clrscr (t : term) : term := at_xy 0 0 (term_ansi [91; 50; 74] t).
Definition term_savepos (t : term) : term := term_ansi [55] t.
Definition term_restorepos (t : term) : term := term_ansi [56] t.
Definition term_setscroll (start end_ : Z) (t : term) : term :=
  if (start >? 0) && (end_ >? 0) then term_ansi ([91] ++ decimal start ++ [59] ++ decimal end_ ++ [114]) t
  else term_ansi [91; 114] t.
Definition term_clreol (t : term) : term := term_ansi [91; 75] t.
Definition term_gotoxy (x y : Z) (t : term) : term :=
  at_xy x y (term_ansi ([91] ++ decimal y ++ [59] ++ decimal x ++ [72]) t).
Definition term_up (delta : Z) (t : term) : term :=
  at_xy (cx t) (cy t - delta) (term_ansi ([91] ++ decimal delta ++ [65]) t).
Definition term_down (delta : Z) (t : term) : term :=
  at_xy (cx t) (cy t + delta) (term_ansi ([91] ++ decimal delta ++ [66]) t).
Definition term_right (delta : Z) (t : term) : term :=
  at_xy (cx t - delta) (cy t) (term_ansi ([91] ++ decimal delta ++ [67]) t).
Definition term_left (delta : Z) (t : term) : term :=
  at_xy (cx t + delta) (cy t) (term_ansi ([91] ++ decimal delta ++ [68]) t).
Definition term_get_lines (t : term) : Z := num_lines t.
Definition term_get_cols (t : term) : Z := num_cols t.
Definition term_get_cx (t : term) : Z := cx t.
Definition term_get_cy (t : term) : Z := cy t.
Definition term_putch (ch : Z) (t : term) : term :=
  let t := if ch =? 10 then at_xy 0 (if cy t <? num_lines t then cy t + 1 else cy t) t else t in send [ch] t.
Fixpoint term_putstr (str : list Z) (t : term) : term :=
  match str with [] => t | c :: str => term_putstr str (send [c] t) end.
Definition term_init (lines cols : Z) : term := mkTerm lines cols 0 0 [].

(** ** The serial line

    With no timeout a pause is waited for. *)

Abbreviation line := (list (option Z)).
Fixpoint wait (l : line) : option (Z * line) :=
  match l with [] => None | None :: l => wait l | Some b :: l => Some (b, l) end.
Definition line_recv (timeout : Z) (l : line) : option (Z * line) :=
  if timeout =? PLATFORM_TIMER_INF_TIMEOUT then wait l
  else match l with [] => Some (-1, []) | None :: l => Some (-1, l) | Some b :: l => Some (b, l) end.

(** The keys of one byte besides the characters. *)
Definition control_keys : list (Z * Z) :=
  [(9, KC_TAB); (127, KC_BACKSPACE); (8, KC_BACKSPACE); (26, KC_CTRL_Z); (1, KC_CTRL_A); (5, KC_CTRL_E);
   (3, KC_CTRL_C); (20, KC_CTRL_T); (21, KC_CTRL_U); (11, KC_CTRL_K); (10, KC_ENTER)].
(** The keys that send ESC, a byte - '[' or 'O' - and these. *)
Definition escape_keys : list (list Z * Z) :=
  [([65], KC_UP); ([66], KC_DOWN); ([67], KC_RIGHT); ([68], KC_LEFT);
   ([49; 126], KC_HOME); ([52; 126], KC_END); ([53; 126], KC_PAGEUP); ([54; 126], KC_PAGEDOWN)].
Inductive key_bytes : list Z -> Z -> Prop :=
  | key_char c : isprint c = true -> key_bytes [c] c
  | key_control b k : (b, k) ∈ control_keys -> key_bytes [b] k
  | key_escape x bs k : is_u8 x -> (bs, k) ∈ escape_keys -> key_bytes (27 :: x :: bs) k.

(** What was typed: the keys of a line, with pauses between them.  Enter sends
    CR, LF or both; [cr]: the byte before was a CR.  The key ESC is alone. *)
Inductive typed : bool -> line -> list Z -> Prop :=
  | typed_nil cr : typed cr [] []
  | typed_pause cr l ks : typed cr l ks -> typed cr (None :: l) ks
  | typed_lf l ks : typed false l ks -> typed true (Some 10 :: l) ks
  | typed_cr cr l ks : typed true l ks -> typed cr (Some 13 :: l) (KC_ENTER :: ks)
  | typed_esc cr l ks : typed false l ks -> typed cr (Some 27 :: None :: l) (KC_ESC :: ks)
  | typed_key cr bs k l ks : key_bytes bs k -> (cr = true -> head bs <> Some 10) -> typed false l ks ->
      typed cr ((Some <$> bs) ++ l) (k :: ks).

Abbreviation getch := (term_getch line_recv TERM_INPUT_WAIT).

Lemma term_in_byte b l cr : 0 <= b -> (cr = true -> b <> 10) ->
  term_in line_recv TERM_INPUT_WAIT (Z.b2z cr, Some b :: l) = Some (b, (0, l)).
Proof.
  intros Hb Hcr. unfold term_in, recv, line_recv. cbn [fst snd].
  change (if TERM_INPUT_WAIT =? TERM_INPUT_DONT_WAIT then 0 else PLATFORM_TIMER_INF_TIMEOUT) with PLATFORM_TIMER_INF_TIMEOUT.
  rewrite Z.eqb_refl. cbn [wait mbind option_bind fst snd]. destruct cr; cbn [Z.b2z]; [|done].
  change (1 >? 0) with true. cbv iota. by rewrite (proj2 (Z.eqb_neq b 10)) by auto.
Qed.
Lemma getch_pause cr l : getch (cr, None :: l) = getch (cr, l).
Proof. reflexivity. Qed.
Lemma getch_lf l : getch (1, Some 10 :: l) = getch (0, l).
Proof.
  unfold term_getch, term_in, recv, line_recv. cbn [fst snd].
  change (if TERM_INPUT_WAIT =? TERM_INPUT_DONT_WAIT then 0 else PLATFORM_TIMER_INF_TIMEOUT) with PLATFORM_TIMER_INF_TIMEOUT.
  rewrite Z.eqb_refl. cbn [wait mbind option_bind fst snd]. change (1 >? 0) with true. change (10 =? 10) with true.
  cbv iota. destruct (wait l) as [[c l']|]; [|done]. reflexivity.
Qed.
Lemma getch_key cr bs k l : key_bytes bs k -> (cr = true -> head bs <> Some 10) ->
  getch (Z.b2z cr, (Some <$> bs) ++ l) = Some (k, (0, l)).
Proof.
  intros Hk Hcr. destruct Hk as [c Hc|b k Hbk|x bs k Hx Hbs]; cbn [fmap list_fmap app head] in *.
  - pose proof (isprint_line_char c Hc) as [Hu _]. unfold term_getch.
    rewrite term_in_byte; [|word_lia|intros ? ->; by apply Hcr]. cbn [mbind option_bind].
    rewrite (proj2 (Z.eqb_neq c (-1))) by word_lia. unfold term_translate. by rewrite Hc.
  - assert (Hb : Forall (fun p => 0 <= p.1) control_keys) by by_decide.
    rewrite Forall_forall in Hb. specialize (Hb _ Hbk). cbn [fst] in Hb.
    unfold term_getch. rewrite term_in_byte; [|done|intros ? ->; by apply Hcr]. clear Hcr Hb. unfold control_keys in Hbk. rewrite !elem_of_cons in Hbk.
    destruct_or! Hbk; try (injection Hbk as -> ->; reflexivity). by apply not_elem_of_nil in Hbk.
  - unfold term_getch. rewrite term_in_byte by (lia || done). cbn [mbind option_bind].
    change (27 =? -1) with false. cbv iota. unfold term_translate. change (isprint 27) with false.
    change (27 =? 27) with true. cbv iota.
    assert (Hrecv : forall b q, recv line_recv TERM_TIMEOUT (0, Some b :: q) = Some (b, (0, q))) by done.
    rewrite Hrecv. cbn [mbind option_bind]. rewrite (proj2 (Z.eqb_neq x (-1))) by word_lia. clear Hcr.
    unfold escape_keys in Hbs. rewrite !elem_of_cons in Hbs.
    destruct_or! Hbs; try (injection Hbs as -> ->; reflexivity). by apply not_elem_of_nil in Hbs.
Qed.

Lemma getchs_typed cr l ks : typed cr l ks ->
  exists s, getchs line_recv (length ks) (Z.b2z cr, l) = Some (ks, s).
Proof.
  assert (Hstep : forall n s s', getch s = getch s' -> getchs line_recv (S n) s = getchs line_recv (S n) s')
    by (intros n s s' E; cbn [getchs]; by rewrite E).
  induction 1 as [cr|cr l ks _ IH|l ks _ IH|cr l ks _ IH|cr l ks _ IH|cr bs k l ks Hk Hcr _ IH].
  - by eexists.
  - destruct ks as [|k ks]; [by eexists|]. destruct IH as (s & IH). exists s. rewrite <- IH. by apply Hstep.
  - destruct ks as [|k ks]; [by eexists|]. destruct IH as (s & IH). exists s. rewrite <- IH. apply Hstep, getch_lf.
  - destruct IH as (s & IH). exists s. cbn [length getchs]. unfold term_getch at 1.
    rewrite term_in_byte by (lia || done). cbn [mbind option_bind]. change (13 =? -1) with false. cbv iota.
    change (term_translate line_recv 13 (0, l)) with (Some (KC_ENTER, (1, l))). cbn [mbind option_bind].
    cbn [Z.b2z] in IH. by rewrite IH.
  - destruct IH as (s & IH). exists s. cbn [length getchs]. unfold term_getch at 1.
    rewrite term_in_byte by (lia || done). cbn [mbind option_bind]. change (27 =? -1) with false. cbv iota.
    change (term_translate line_recv 27 (0, None :: l)) with (Some (KC_ESC, (0, l))). cbn [mbind option_bind].
    cbn [Z.b2z] in IH. by rewrite IH.
  - destruct IH as (s & IH). exists s. cbn [length getchs]. rewrite (getch_key cr bs k l Hk Hcr). cbn [mbind option_bind].
    cbn [Z.b2z] in IH. by rewrite IH.
Qed.

(** The bytes of a line of input, however the terminal encodes its keys and
    whatever the pauses between them, are its keys: characters and control
    keys of one byte, the arrows and HOME, END, PAGE UP and PAGE DOWN as escape
    sequences, ESC followed by a pause, and Enter as CR, as LF, or as CR LF,
    which counts once. *)
Theorem keys_decoded l ks : typed false l ks ->
  exists s, getchs line_recv (length ks) (0, l) = Some (ks, s).
Proof. apply (getchs_typed false). Qed.

(** C6: a line typed at the terminal of a board is the line the program gets:
    the keys behind its bytes edit the text as the editor's two strings say, and
    the call returns that text, terminated and within the buffer. *)
Theorem typed_line max cols cap prompt buffer es h0 l ks :
  (0 < max)%nat -> (length es <= max)%nat -> Forall (Forall line_char) es ->
  (0 < length prompt < cols)%nat -> Forall line_char prompt -> (S cap <= length buffer)%nat ->
  mem h0 = [] -> lines h0 = Some (Some <$> es) \/ (lines h0 = None /\ es = []) ->
  Forall edits ks -> typed false l (ks ++ [KC_ENTER]) ->
  exists keys s b h o,
    getchs line_recv (length ks + 1) (0, l) = Some (keys, s) /\
    linenoise_getline max cols buffer (S cap) prompt h0 keys =
      Some (mkEnded (Z.of_nat (length (text (arun cap (start max es) ks)))) b h o []) /\
    str_at b 0 = Some (text (arun cap (start max es) ks)) /\
    (length (text (arun cap (start max es) ks)) <= cap)%nat.
Proof.
  intros Hmax Hes Hec Hpr Hpc Hb Hm Hh Hk Ht.
  destruct (getchs_typed false l _ Ht) as (s & Hs). rewrite length_app in Hs. cbn [length Z.b2z] in Hs.
  destruct (getline_ok (length buffer - S cap) max cols cap prompt buffer es Hmax Hes Hec Hpr Hpc ltac:(lia) h0 Hm Hh ks [] Hk)
    as (b & h & o & Hg & Hstr & Hle & _).
  exists (ks ++ [KC_ENTER]), s, b, h, o. done.
Qed.

(** ** The bytes of a row

    What the line editor sends, as bytes, and a VT100 that receives them. *)

Definition token_bytes (t : token) : list Z :=
  match t with
  | CH c => [c]
  | CR => [13]
  | EL => [27; 91; 48; 75]
  | CUF n => [27; 91] ++ decimal n ++ [67]
  end.
Definition bytes_of (ts : list token) : list Z := concat (token_bytes <$> ts).

Inductive vt_mode := GROUND | ESCAPE | CSI (ds : list Z).
Definition vt_step (st : (list Z * nat) * vt_mode) (b : Z) : (list Z * nat) * vt_mode :=
  let '(r, m) := st in
  match m with
  | GROUND => if b =? 27 then (r, ESCAPE) else (tok_put r (if b =? 13 then CR else CH b), GROUND)
  | ESCAPE => (r, if b =? 91 then CSI [] else GROUND)
  | CSI ds =>
      if (48 <=? b) && (b <=? 57) then (r, CSI (ds ++ [b]))
      else (if b =? 67 then tok_put r (CUF (dec_value ds))
            else if (b =? 75) && (dec_value ds =? 0) then tok_put r EL else r, GROUND)
  end.
Definition vt (r : list Z * nat) (bs : list Z) : (list Z * nat) * vt_mode := foldl vt_step (r, GROUND) bs.

Lemma vt_digits ds : forall r pre, Forall is_digit ds ->
  foldl vt_step (r, CSI pre) ds = (r, CSI (pre ++ ds)).
Proof.
  induction ds as [|d ds IH]; intros r pre Hd; [by rewrite app_nil_r|].
  apply Forall_cons in Hd as [[H1 H2] Hd]. cbn [foldl vt_step].
  rewrite (proj2 (Z.leb_le _ _)), (proj2 (Z.leb_le _ _)) by done. cbn [andb]. rewrite IH by done. by rewrite <- app_assoc.
Qed.
Definition token_ok (t : token) : Prop :=
  match t with CH c => c <> 27 /\ c <> 13 | CUF n => 0 <= n < 2 ^ 64 | _ => True end.
Lemma vt_token r t : token_ok t -> vt r (token_bytes t) = (tok_put r t, GROUND).
Proof.
  unfold vt. destruct t as [c| | |n]; cbn [token_ok token_bytes]; intros Ht; [|done|done|].
  - destruct Ht. cbn [foldl vt_step]. by rewrite !(proj2 (Z.eqb_neq c _)) by done.
  - destruct (decimal_ok n Ht) as (Hv & Hd & _). rewrite !foldl_app.
    change (foldl vt_step (r, GROUND) [27; 91]) with (r, CSI []). rewrite vt_digits by done.
    cbn [app foldl vt_step]. change ((48 <=? 67) && (67 <=? 57)) with false. change (67 =? 67) with true.
    cbv iota. by rewrite Hv.
Qed.
Lemma vt_tokens ts : forall r, Forall token_ok ts -> vt r (bytes_of ts) = (foldl tok_put r ts, GROUND).
Proof.
  induction ts as [|t ts IH]; intros r Ht; [done|]. apply Forall_cons in Ht as [Ht Hts].
  unfold vt, bytes_of. cbn [fmap list_fmap concat foldl]. rewrite foldl_app.
  pose proof (vt_token r t Ht) as E. unfold vt in E. rewrite E. exact (IH (tok_put r t) Hts).
Qed.
Lemma decimal_length n : 0 <= n < 10 ^ 10 -> (length (decimal n) <= 10)%nat.
Proof.
  intros Hn. change (decimal n) with (dec_digits (10 + 10) n []).
  assert (H : forall f x, 0 <= x < 10 ^ Z.of_nat f -> (0 < f)%nat -> forall g acc, dec_digits (f + g) x acc = dec_digits f x acc).
  { intros f. induction f as [|f IH]; intros x Hx Hf g acc; [lia|]. cbn [Nat.add dec_digits].
    destruct (Z.eqb_spec (x / 10) 0) as [|E]; [done|].
    assert (0 <= x / 10 < 10 ^ Z.of_nat f).
    { split; [apply Z.div_pos; lia|]. apply Z.div_lt_upper_bound; [lia|].
      rewrite <- Z.pow_succ_r by lia. replace (Z.succ (Z.of_nat f)) with (Z.of_nat (S f)) by lia. lia. }
    assert (0 < f)%nat; [|by apply IH]. destruct f; [|lia]. pose proof (Z.div_str_pos x 10).
    change (Z.of_nat 0) with 0 in *. rewrite Z.pow_0_r in *. lia. }
  rewrite (H 10%nat n Hn ltac:(lia) 10%nat []). destruct (dec_digits_ok 10 n [] Hn ltac:(lia)) as (ds & -> & _ & _ & _ & Hl).
  by rewrite app_nil_r.
Qed.

Lemma isprint_token c : isprint c = true -> token_ok (CH c).
Proof. intros [H1%Z.leb_le H2%Z.leb_le]%andb_true_iff. cbn. lia. Qed.

(** A refresh of the line, as the bytes that go over the serial line, draws
    on a VT100 in any state the prompt and the part of the text around the
    cursor, and leaves the cursor in its column; no sequence is longer than the
    buffer it is printed to. *)
Theorem row_drawn cols prompt text rest pos : (0 < length prompt < cols)%nat -> Z.of_nat cols < 2 ^ 31 ->
  Forall (fun c => isprint c = true) prompt -> Forall (fun c => isprint c = true) text -> (pos <= length text)%nat ->
  exists ts, refreshLine cols prompt (text ++ rest) (length text) pos = Some ts /\
    (forall r, exists r', vt r (bytes_of ts) = (r', GROUND) /\ shows cols prompt r' text pos) /\
    (length (bytes_of (drop (length ts - 2) ts)) < 16)%nat.
Proof.
  intros Hp Hc Hpp Htp Hpos.
  assert (Hchar : forall s, Forall (fun c => isprint c = true) s -> Forall line_char s)
    by (intros s Hs; eapply Forall_impl; [exact Hs|apply isprint_line_char]).
  destruct (refresh_ok cols prompt Hp (Hchar _ Hpp) text rest pos (Hchar _ Htp) Hpos) as (ts & E & Hs).
  rewrite refresh_tokens in E by done. injection E as <-. set (n := Z.of_nat (pos - scrolled cols prompt pos + length prompt)) in *.
  assert (Hn : 0 <= n < 2 ^ 31) by (unfold n, scrolled; lia).
  assert (Hok : forall s, Forall (fun c => isprint c = true) s -> Forall token_ok (Linenoise.term_putstr s)).
  { intros s Hss. unfold Linenoise.term_putstr. apply Forall_fmap. eapply Forall_impl; [exact Hss|apply isprint_token]. }
  eexists. split; [by rewrite refresh_tokens|]. split.
  - intros r. eexists. split; [|apply Hs]. apply vt_tokens. constructor; [done|].
    apply Forall_app. split; [by apply Hok|]. apply Forall_app.
    split; [apply Hok; unfold window; by apply Forall_take, Forall_drop|].
    constructor; [done|]. constructor; [done|]. constructor; [cbn; lia|constructor].
  - set (front := [CR] ++ Linenoise.term_putstr prompt ++ Linenoise.term_putstr (window cols prompt text pos) ++ [EL]).
    match goal with |- context [drop (length ?ts - 2) _] => assert (Hf : ts = front ++ [CR; CUF n]) end.
    { unfold front. by rewrite <- !app_assoc. }
    rewrite Hf, length_app, Nat.add_sub, drop_app_length.
    unfold bytes_of. cbn [fmap list_fmap concat token_bytes app length]. rewrite app_nil_r, length_app. cbn [length].
    change (2 ^ 31) with 2147483648 in Hn. pose proof (decimal_length n ltac:(change (10 ^ 10) with 10000000000; lia)). lia.
Qed.

(** ** Examples *)

(** "a", left arrow with a pause before it, "b", HOME, Enter as CR LF, "c". *)
Definition ex_line : line :=
  [Some 97; None; Some 27; Some 91; Some 68; Some 98; Some 27; Some 91; Some 49; Some 126; Some 13; Some 10; Some 99].
Lemma ex_typed : typed false ex_line ([97; KC_LEFT; 98; KC_HOME] ++ [KC_ENTER; 99]).
Proof.
  apply (typed_key false [97] 97); [by constructor|done|]. apply typed_pause.
  apply (typed_key false [27; 91; 68] KC_LEFT); [apply key_escape; [by_decide|by_decide]|done|].
  apply (typed_key false [98] 98); [by constructor|done|].
  apply (typed_key false [27; 91; 49; 126] KC_HOME); [apply key_escape; [by_decide|by_decide]|done|].
  apply typed_cr, typed_lf, (typed_key false [99] 99 []); [by constructor|done|constructor].
Defined.

Lemma keys_decoded_witness : exists s,
  getchs line_recv 6 (0, ex_line) = Some ([97; KC_LEFT; 98; KC_HOME; KC_ENTER; 99], s).
Proof. exact (keys_decoded ex_line [97; KC_LEFT; 98; KC_HOME; KC_ENTER; 99] ex_typed). Defined.

Lemma typed_line_witness : exists keys s b h o,
  getchs line_recv 5 (0, [Some 97; Some 27; Some 91; Some 68; Some 98; Some 27; Some 91; Some 49; Some 126; Some 13; Some 10])
    = Some (keys, s) /\
  linenoise_getline 3 8 (replicate 10 255) 10 [62; 32] (mkHistory None []) keys = Some (mkEnded 2 b h o []) /\
  str_at b 0 = Some [98; 97].
Proof.
  destruct (typed_line 3 8 9 [62; 32] (replicate 10 255) [] (mkHistory None [])
    [Some 97; Some 27; Some 91; Some 68; Some 98; Some 27; Some 91; Some 49; Some 126; Some 13; Some 10]
    [97; KC_LEFT; 98; KC_HOME])
    as (keys & s & b & h & o & H1 & H2 & H3 & _).
  1-8: first [lia | by_decide | reflexivity | right; split; reflexivity | cbn; lia].
  - repeat (apply Forall_cons; split; [split; [|split]; discriminate|]). constructor.
  - apply (typed_key false [97] 97); [by constructor|done|].
    apply (typed_key false [27; 91; 68] KC_LEFT); [apply key_escape; [by_decide|by_decide]|done|].
    apply (typed_key false [98] 98); [by constructor|done|].
    apply (typed_key false [27; 91; 49; 126] KC_HOME); [apply key_escape; [by_decide|by_decide]|done|].
    apply typed_cr, typed_lf, typed_nil.
  - exists keys, s, b, h, o. exact (conj H1 (conj H2 H3)).
Defined.

Lemma row_drawn_witness : exists ts, refreshLine 8 [62; 32] [97; 98; 99; 100; 101; 102; 103; 0] 7 7 = Some ts /\
  exists r', vt ([97; 97], 1%nat) (bytes_of ts) = (r', GROUND) /\
    shows 8 [62; 32] r' [97; 98; 99; 100; 101; 102; 103] 7.
Proof.
  destruct (row_drawn 8 [62; 32] [97; 98; 99; 100; 101; 102; 103] [0] 7) as (ts & H1 & H2 & _);
    [cbn; lia|lia|by_decide|by_decide|cbn; lia|].
  exists ts. split; [exact H1|]. exact (H2 ([97; 97], 1%nat)).
Defined.

(** The key DELETE of a VT100 is not known. *)
Example delete_unknown : getch (0, [Some 27; Some 91; Some 51; Some 126]) = Some (KC_UNKNOWN, (0, [])).
Proof. reflexivity. Qed.
(** A function key leaves the end of its sequence, which is taken for a
    character. *)
Example function_key : getchs line_recv 2 (0, [Some 27; Some 91; Some 49; Some 53; Some 126]) =
  Some ([KC_UNKNOWN; 126], (0, [])).
Proof. reflexivity. Qed.
(** Moving right makes the column the module reports smaller. *)
Example right_is_left : term_get_cx (term_right 3 (term_gotoxy 5 1 (term_init 24 80))) = 2.
Proof. reflexivity. Qed.
(** The end of a long sequence is cut off: here the 'H'. *)
Example gotoxy_cut : sent (term_gotoxy 10000 10000 (term_init 24 80)) =
  [27; 91; 49; 48; 48; 48; 48; 59; 49; 48; 48; 48; 48].
Proof. reflexivity. Qed.
