(* ===== verification/Adc.v ===== *)
(** * Adc: analog samples

    Models src/elua_adc.c and inc/elua_adc.h, the part of an ADC driver that the
    platforms share: the sequence of channels a device converts, the buffering of
    samples, and their smoothing by a moving average; with the ADC functions of
    src/common.c, the interrupt handler and the other ADC functions of the lm3s
    platform (src/platform/lm3s/platform.c), and the functions of the Lua module
    (src/modules/adc.c) that take samples.

    The converter itself is a list of the calls made to it ([hw_call]); what it
    is set up to convert is read off that list ([hw_steps]). The compiled-in pins
    of two of the chips are left out. *)

From S2P Require Import Prelude Buf Common.

Definition BUF_DSIZE_U16 : Z := 1.

(** ** State *)

(** Flags of one bit are 0 or 1. [value_ptr] is an index of [sample_buf]. *)
Record elua_adc_ch_state := Ch {
  op_pending : Z; blocking : Z; freerunning : Z; smooth_ready : Z; value_fresh : Z;
  id : nat;
  logsmoothlen : Z; smoothidx : Z; smoothsum : Z; smoothbuf : option (list Z);
  reqsamples : Z; value_ptr : option nat
}.
Abbreviation ch := elua_adc_ch_state.

Definition set_op_pending x (s : ch) := Ch x (blocking s) (freerunning s) (smooth_ready s)
  (value_fresh s) (id s) (logsmoothlen s) (smoothidx s) (smoothsum s) (smoothbuf s)
  (reqsamples s) (value_ptr s).
Definition set_blocking x (s : ch) := Ch (op_pending s) x (freerunning s) (smooth_ready s)
  (value_fresh s) (id s) (logsmoothlen s) (smoothidx s) (smoothsum s) (smoothbuf s)
  (reqsamples s) (value_ptr s).
Definition set_freerunning x (s : ch) := Ch (op_pending s) (blocking s) x (smooth_ready s)
  (value_fresh s) (id s) (logsmoothlen s) (smoothidx s) (smoothsum s) (smoothbuf s)
  (reqsamples s) (value_ptr s).
Definition set_smooth_ready x (s : ch) := Ch (op_pending s) (blocking s) (freerunning s) x
  (value_fresh s) (id s) (logsmoothlen s) (smoothidx s) (smoothsum s) (smoothbuf s)
  (reqsamples s) (value_ptr s).
Definition set_value_fresh x (s : ch) := Ch (op_pending s) (blocking s) (freerunning s)
  (smooth_ready s) x (id s) (logsmoothlen s) (smoothidx s) (smoothsum s) (smoothbuf s)
  (reqsamples s) (value_ptr s).
Definition set_id x (s : ch) := Ch (op_pending s) (blocking s) (freerunning s) (smooth_ready s)
  (value_fresh s) x (logsmoothlen s) (smoothidx s) (smoothsum s) (smoothbuf s)
  (reqsamples s) (value_ptr s).
Definition set_logsmoothlen x (s : ch) := Ch (op_pending s) (blocking s) (freerunning s)
  (smooth_ready s) (value_fresh s) (id s) x (smoothidx s) (smoothsum s) (smoothbuf s)
  (reqsamples s) (value_ptr s).
Definition set_smoothidx x (s : ch) := Ch (op_pending s) (blocking s) (freerunning s)
  (smooth_ready s) (value_fresh s) (id s) (logsmoothlen s) x (smoothsum s) (smoothbuf s)
  (reqsamples s) (value_ptr s).
Definition set_smoothsum x (s : ch) := Ch (op_pending s) (blocking s) (freerunning s)
  (smooth_ready s) (value_fresh s) (id s) (logsmoothlen s) (smoothidx s) x (smoothbuf s)
  (reqsamples s) (value_ptr s).
Definition set_smoothbuf x (s : ch) := Ch (op_pending s) (blocking s) (freerunning s)
  (smooth_ready s) (value_fresh s) (id s) (logsmoothlen s) (smoothidx s) (smoothsum s) x
  (reqsamples s) (value_ptr s).
Definition set_reqsamples x (s : ch) := Ch (op_pending s) (blocking s) (freerunning s)
  (smooth_ready s) (value_fresh s) (id s) (logsmoothlen s) (smoothidx s) (smoothsum s)
  (smoothbuf s) x (value_ptr s).
Definition set_value_ptr x (s : ch) := Ch (op_pending s) (blocking s) (freerunning s)
  (smooth_ready s) (value_fresh s) (id s) (logsmoothlen s) (smoothidx s) (smoothsum s)
  (smoothbuf s) (reqsamples s) x.

(** [ch_state]: indices of channels, [None] for a null pointer. *)
Record elua_adc_dev_state := Dev {
  ch_state : list (option nat); sample_buf : list Z;
  clocked : Z; force_reseq : Z; skip_cycle : Z; running : Z;
  ch_active : Z; last_ch_active : Z; timer_id : Z; seq_id : Z;
  seq_ctr : nat; seq_len : nat
}.
Abbreviation dev := elua_adc_dev_state.

Definition set_seq (l : list (option nat)) c n (d : dev) := Dev l (sample_buf d) (clocked d)
  (force_reseq d) (skip_cycle d) (running d) (ch_active d) (last_ch_active d) (timer_id d)
  (seq_id d) c n.
Definition set_seq_ctr c (d : dev) := set_seq (ch_state d) c (seq_len d) d.
Definition set_sample_buf b (d : dev) := Dev (ch_state d) b (clocked d)
  (force_reseq d) (skip_cycle d) (running d) (ch_active d) (last_ch_active d) (timer_id d)
  (seq_id d) (seq_ctr d) (seq_len d).
Definition set_clocked x (d : dev) := Dev (ch_state d) (sample_buf d) x
  (force_reseq d) (skip_cycle d) (running d) (ch_active d) (last_ch_active d) (timer_id d)
  (seq_id d) (seq_ctr d) (seq_len d).
Definition set_running x (d : dev) := Dev (ch_state d) (sample_buf d) (clocked d)
  (force_reseq d) (skip_cycle d) x (ch_active d) (last_ch_active d) (timer_id d)
  (seq_id d) (seq_ctr d) (seq_len d).
Definition set_ch_active x (d : dev) := Dev (ch_state d) (sample_buf d) (clocked d)
  (force_reseq d) (skip_cycle d) (running d) x (last_ch_active d) (timer_id d)
  (seq_id d) (seq_ctr d) (seq_len d).
Definition set_resequenced (d : dev) := Dev (ch_state d) (sample_buf d) (clocked d)
  0 (skip_cycle d) (running d) (ch_active d) (ch_active d) (timer_id d)
  (seq_id d) (seq_ctr d) (seq_len d).
Definition set_timer_id x (d : dev) := Dev (ch_state d) (sample_buf d) (clocked d)
  (force_reseq d) (skip_cycle d) (running d) (ch_active d) (last_ch_active d) x
  (seq_id d) (seq_ctr d) (seq_len d).

(** Calls to the vendor's library: the sequencer (its number first), the steps of
    a sequence (position, channel, whether it is the last), and timers. *)
Inductive hw_call :=
  | SequenceDisable (q : Z) | SequenceEnable (q : Z)
  | SequenceStepConfigure (q : Z) (pos chan : nat) (last : bool)
  | SequenceConfigure (q : Z) (by_timer : bool)
  | ProcessorTrigger (q : Z) | IntClear (q : Z)
  | TimerLoadSet (timer load : Z) | TimerStart (timer : Z).

(** [hw] lists the calls, the latest first. *)
Record adc := Adc {
  adc_ch_state : list ch; adc_dev_state : dev; bufs : buf_array; hw : list hw_call
}.

(** ** Access to the state *)

Definition adc_get_ch_state (i : nat) : M adc ch := λ w,
  s ← adc_ch_state w !! i; Some (s, w).
Definition adc_get_dev_state : M adc dev := λ w, Some (adc_dev_state w, w).
Definition upd_ch (i : nat) (f : ch -> ch) : M adc unit := λ w,
  s ← adc_ch_state w !! i;
  Some ((), Adc (<[i := f s]> (adc_ch_state w)) (adc_dev_state w) (bufs w) (hw w)).
Definition upd_dev (f : dev -> dev) : M adc unit := λ w,
  Some ((), Adc (adc_ch_state w) (f (adc_dev_state w)) (bufs w) (hw w)).
Definition call (c : hw_call) : M adc unit := λ w,
  Some ((), Adc (adc_ch_state w) (adc_dev_state w) (bufs w) (c :: hw w)).
Definition on_bufs {A} (f : buf_array -> option (A * buf_array)) : M adc A := λ w,
  '(x, b) ← f (bufs w); Some (x, Adc (adc_ch_state w) (adc_dev_state w) b (hw w)).
Definition pure {A} (x : option A) : M adc A := λ w, a ← x; Some (a, w).
Definition when (b : bool) (c : M adc unit) : M adc unit := if b then c else mret ().

Definition SMOOTH_REALSIZE (s : ch) : Z := Z.shiftl 1 (logsmoothlen s).

(** [s->smoothbuf[ s->smoothidx ]]. *)
Definition smooth_cell (s : ch) : option Z := b ← smoothbuf s; load b (Z.to_nat (smoothidx s)).
(** [a[ p ] = x]; [None]: outside the array. *)
Definition put {A} (a : list A) (p : nat) (x : A) : option (list A) :=
  if decide (p < length a)%nat then Some (<[p := x]> a) else None.
Definition store_smooth (s : ch) (x : Z) : option (list Z) :=
  b ← smoothbuf s; put b (Z.to_nat (smoothidx s)) x.

(** Two bytes at the address of a u16, of which [old] holds before. *)
Definition over_sample (old data : list Z) : option Z :=
  match data ++ drop (length data) old with [a; b] => Some (or16 a b) | _ => None end.

Definition ACTIVATE_CHANNEL (i : nat) (d : dev) : dev :=
  set_ch_active (Z.lor (ch_active d) (u32 (Z.shiftl 1 (Z.of_nat i)))) d.
Definition INACTIVATE_CHANNEL (i : nat) (d : dev) : dev :=
  set_ch_active (Z.ldiff (ch_active d) (u32 (Z.shiftl 1 (Z.of_nat i)))) d.
Definition is_active (i : nat) (d : dev) : bool :=
  Z.land (ch_active d) (u32 (Z.shiftl 1 (Z.of_nat i))) >? 0.

(** What a function of the Lua module answers. *)
Inductive luaL (A : Type) :=
  | Returns (x : A) | DoesNotExist (i : nat) | BadCount | BadLength | BadIndex | BadFrequency
  | BadTimer | SetupFailed | InvalidSelection | AllocationFailed.
Arguments Returns {A} x. Arguments DoesNotExist {A} i. Arguments BadCount {A}. Arguments BadLength {A}.
Arguments BadIndex {A}. Arguments BadFrequency {A}. Arguments BadTimer {A}.
Arguments SetupFailed {A}. Arguments InvalidSelection {A}. Arguments AllocationFailed {A}.
(** Its first argument: a table or a number, or neither. *)
Inductive lua_channels := LuaTable (l : list nat) | LuaNumber (i : nat) | LuaOther.

Section Adc.
(** The platform: how many channels, whether samples are buffered, the first size
    of the buffers; the word an id is read from through a null pointer. *)
Context (NUM_ADC : nat) (BUF_ENABLE_ADC : bool) (ADC_BUF_SIZE : Z) (null_id : Z).
Context (NUM_UART NUM_VUART_BUFS : Z).
(** [realloc] for the bytes of a buffer, and for the samples of a filter; the
    clock, and the load register of a timer. *)
Context (realloc : option (list Z) -> Z -> option (list Z)).
Context (realloc16 : option (list Z) -> Z -> option (list Z)).
Context (SysCtlClockGet : Z) (TimerLoadGet : list hw_call -> Z -> Z).

Definition buf_get_size_adc (i : nat) : M adc Z := on_bufs (fun b =>
  n ← buf_get_size NUM_UART NUM_VUART_BUFS BUF_ID_ADC (Z.of_nat i) b; Some (n, b)).
Definition buf_get_count_adc (i : nat) : M adc Z := on_bufs (fun b =>
  n ← buf_get_count NUM_UART NUM_VUART_BUFS BUF_ID_ADC (Z.of_nat i) b; Some (n, b)).
Definition buf_flush_adc (i : nat) : M adc unit := on_bufs (fun b =>
  b ← buf_flush NUM_UART NUM_VUART_BUFS BUF_ID_ADC (Z.of_nat i) b; Some ((), b)).
Definition buf_set_adc (i : nat) (logsize : Z) : M adc Z := on_bufs (fun b =>
  buf_set NUM_UART NUM_VUART_BUFS realloc BUF_ID_ADC (Z.of_nat i) logsize BUF_DSIZE_U16 b).
Definition buf_write_adc (i : nat) (data : list Z) : M adc Z := on_bufs (fun b =>
  buf_write NUM_UART NUM_VUART_BUFS BUF_ID_ADC (Z.of_nat i) data b).
(** The bytes stored; none if the buffer is empty. *)
Definition buf_read_adc (i : nat) : M adc (list Z) := on_bufs (fun b =>
  '(_, data, b) ← buf_read NUM_UART NUM_VUART_BUFS BUF_ID_ADC (Z.of_nat i) b; Some (data, b)).

(** ** Samples *)

Definition adc_samples_requested (i : nat) : M adc Z :=
  s ← adc_get_ch_state i; mret (reqsamples s).

Definition adc_samples_available (i : nat) : M adc Z :=
  s ← adc_get_ch_state i;
  if BUF_ENABLE_ADC then
    n ← buf_get_count_adc i;
    let buffer_count := u16 n in
    mret (if buffer_count =? 0 then value_fresh s else buffer_count)
  else mret (value_fresh s).

(** [*( s->value_ptr )]. *)
Definition value_at (s : ch) : M adc Z :=
  d ← adc_get_dev_state; pure (p ← value_ptr s; sample_buf d !! p).

(** The oldest sample: what [adc_smooth_data] and [adc_get_processed_sample] do to
    get it into their variable [sample], whose bytes are [old]. *)
Definition load_sample (i : nat) (old : list Z) : M adc Z :=
  s ← adc_get_ch_state i;
  if negb BUF_ENABLE_ADC || (value_fresh s =? 1) then
    sample ← value_at s;
    _ ← upd_ch i (set_value_fresh 0);
    mret sample
  else
    data ← buf_read_adc i;
    pure (over_sample old data).

Definition adc_smooth_data (i : nat) : M adc unit :=
  s ← adc_get_ch_state i;
  _ ← when (smoothidx s =? SMOOTH_REALSIZE s) (upd_ch i (fun s => set_smooth_ready 1 (set_smoothidx 0 s)));
  s ← adc_get_ch_state i;
  oldest ← pure (smooth_cell s);
  _ ← upd_ch i (set_smoothsum (u32 (smoothsum s - oldest)));
  sample ← load_sample i [];
  s ← adc_get_ch_state i;
  b ← pure (store_smooth s sample);
  _ ← upd_ch i (set_smoothbuf (Some b));
  s ← adc_get_ch_state i;
  newest ← pure (smooth_cell s);
  upd_ch i (fun s => set_smoothidx (u16 (smoothidx s + 1)) (set_smoothsum (u32 (smoothsum s + newest)) s)).

Definition decr_reqsamples (i : nat) : M adc unit :=
  upd_ch i (fun s => if reqsamples s >? 0 then set_reqsamples (reqsamples s - 1) s else s).

Definition adc_get_processed_sample (i : nat) : M adc Z :=
  n ← adc_samples_available i;
  if n >? 0 then
    s ← adc_get_ch_state i;
    if (logsmoothlen s >? 0) && (smooth_ready s =? 1) then
      _ ← adc_smooth_data i;
      _ ← decr_reqsamples i;
      s ← adc_get_ch_state i;
      mret (u16 (Z.shiftr (smoothsum s) (logsmoothlen s)))
    else if logsmoothlen s =? 0 then
      sample ← load_sample i [0; 0];
      _ ← decr_reqsamples i;
      mret sample
    else mret 0
  else mret 0.

(** [smoothbuf[ i++ ] = 0], as often as told; [i] is a u16. *)
Fixpoint zero_cells (n : nat) (i : Z) (b : list Z) : option (list Z) :=
  match n with
  | O => Some b
  | S n => b ← store b (Z.to_nat i) 0; zero_cells n (u16 (i + 1)) b
  end.
Definition adc_flush_smoothing (i : nat) : M adc unit :=
  _ ← upd_ch i (fun s => set_smooth_ready 0 (set_smoothsum 0 (set_smoothidx 0 s)));
  s ← adc_get_ch_state i;
  when (logsmoothlen s >? 0)
    (b ← pure (b ← smoothbuf s; zero_cells (Z.to_nat (duff_count (SMOOTH_REALSIZE s))) 0 b);
     upd_ch i (set_smoothbuf (Some b))).

(** ** The sequence of channels *)

(** [d->ch_state[ d->seq_ctr ]]; [None]: outside the array. *)
Definition current : M adc (option nat) :=
  d ← adc_get_dev_state; pure (ch_state d !! seq_ctr d).
Definition set_current (p : option nat) (d : dev) : option (list (option nat)) :=
  put (ch_state d) (seq_ctr d) p.
(** A channel the sequence must have. *)
Definition current_ch : M adc ch :=
  p ← current; i ← pure p; adc_get_ch_state i.

Fixpoint platform_steps (n : nat) : M adc unit :=
  match n with
  | O => mret ()
  | S n =>
      s ← current_ch;
      d ← adc_get_dev_state;
      _ ← call (SequenceStepConfigure (seq_id d) (seq_ctr d) (id s) false);
      _ ← upd_dev (set_seq_ctr (S (seq_ctr d)));
      platform_steps n
  end.
Definition platform_adc_update_sequence : M adc Z :=
  d ← adc_get_dev_state;
  _ ← call (SequenceDisable (seq_id d));
  _ ← upd_dev (set_seq_ctr 0);
  _ ← platform_steps (seq_len d - 1);
  s ← current_ch;
  d ← adc_get_dev_state;
  _ ← call (SequenceStepConfigure (seq_id d) (seq_ctr d) (id s) true);
  _ ← upd_dev (set_seq_ctr 0);
  _ ← call (SequenceEnable (seq_id d));
  mret PLATFORM_OK.

(** Collecting the active channels, [ids] being those still to look at; where the
    previous one is found. *)
Fixpoint collect (previd : Z) (ids : list nat) (tmp_seq_ctr : nat) : M adc nat :=
  match ids with
  | [] => mret tmp_seq_ctr
  | i :: ids =>
      d ← adc_get_dev_state;
      if is_active i d then
        l ← pure (set_current (Some i) d);
        _ ← upd_dev (set_seq l (seq_ctr d) (seq_len d));
        _ ← upd_ch i (fun s => set_value_fresh 0 (set_value_ptr (Some (id s)) s));
        s ← adc_get_ch_state i;
        _ ← upd_dev (set_seq_ctr (S (seq_ctr d)));
        collect previd ids (if Z.of_nat (id s) =? previd then seq_ctr d else tmp_seq_ctr)
      else collect previd ids tmp_seq_ctr
  end.
(** The remainder of the sequence. *)
Fixpoint null_out (n : nat) : M adc unit :=
  match n with
  | O => mret ()
  | S n =>
      d ← adc_get_dev_state;
      l ← pure (set_current None d);
      _ ← upd_dev (set_seq l (S (seq_ctr d)) (seq_len d));
      null_out n
  end.

(** Runs with the interrupts disabled. *)
Definition adc_update_dev_sequence : M adc unit :=
  p ← current;
  previd ← match p with
           | Some i => s ← adc_get_ch_state i; mret (Z.of_nat (id s))
           | None => mret null_id
           end;
  d ← adc_get_dev_state;
  when (negb (ch_active d =? last_ch_active d) || (force_reseq d =? 1))
    (_ ← upd_dev (set_seq_ctr 0);
     tmp_seq_ctr ← collect previd (seq 0 NUM_ADC) 0;
     _ ← upd_dev (fun d => set_seq (ch_state d) (seq_ctr d) (seq_ctr d) d);
     d ← adc_get_dev_state;
     _ ← null_out (NUM_ADC - seq_ctr d);
     _ ← upd_dev (set_seq_ctr 0);
     _ ← platform_adc_update_sequence;
     upd_dev (fun d => set_seq_ctr tmp_seq_ctr (set_resequenced d))).

(** ** The lm3s platform *)

Definition platform_adc_stop (i : nat) : M adc unit :=
  _ ← upd_ch i (set_op_pending 0);
  _ ← upd_dev (INACTIVATE_CHANNEL i);
  d ← adc_get_dev_state;
  when (ch_active d =? 0) (_ ← call (SequenceDisable (seq_id d)); upd_dev (set_running 0)).

(** One pass of the handler's loop. *)
Definition handle_sample (tmpbuff : list Z) : M adc unit :=
  s ← current_ch;
  d ← adc_get_dev_state;
  x ← pure (tmpbuff !! seq_ctr d);
  l ← pure (put (sample_buf d) (id s) (u16 x));
  _ ← upd_dev (set_sample_buf l);
  let i := id s in
  _ ← upd_ch i (set_value_fresh 1);
  s ← adc_get_ch_state i;
  _ ← (if (logsmoothlen s >? 0) && (smooth_ready s =? 0) then adc_smooth_data i
       else when (BUF_ENABLE_ADC && (reqsamples s >? 1))
         (x ← value_at s; _ ← buf_write_adc i (le16 x); upd_ch i (set_value_fresh 0)));
  n ← adc_samples_available i;
  s ← adc_get_ch_state i;
  _ ← when ((n >=? reqsamples s) && (freerunning s =? 0)) (platform_adc_stop i);
  upd_dev (fun d => set_seq_ctr (S (seq_ctr d)) d).
Fixpoint handle_samples (n : nat) (tmpbuff : list Z) : M adc unit :=
  match n with
  | O => mret ()
  | S n => _ ← handle_sample tmpbuff; handle_samples n tmpbuff
  end.
(** [tmpbuff]: what the sequencer converted. *)
Definition ADCIntHandler (tmpbuff : list Z) : M adc unit :=
  d ← adc_get_dev_state;
  _ ← call (IntClear (seq_id d));
  _ ← upd_dev (set_seq_ctr 0);
  _ ← handle_samples (seq_len d) tmpbuff;
  _ ← upd_dev (set_seq_ctr 0);
  d ← adc_get_dev_state;
  _ ← when (running d =? 1) adc_update_dev_sequence;
  d ← adc_get_dev_state;
  when ((clocked d =? 0) && (running d =? 1)) (call (ProcessorTrigger (seq_id d))).

Definition platform_adc_set_clock (i : nat) (frequency : Z) : M adc Z :=
  d ← adc_get_dev_state;
  _ ← call (SequenceDisable (seq_id d));
  if frequency >? 0 then
    _ ← upd_dev (set_clocked 1);
    _ ← call (SequenceConfigure (seq_id d) true);
    _ ← call (TimerLoadSet (timer_id d) (SysCtlClockGet / frequency));
    load ← (fun w => Some (TimerLoadGet (hw w) (timer_id d), w));
    if load =? 0 then pure None else mret (SysCtlClockGet / load)
  else
    _ ← upd_dev (set_clocked 0);
    _ ← call (SequenceConfigure (seq_id d) false);
    mret frequency.

Definition platform_adc_start_sequence : M adc Z :=
  d ← adc_get_dev_state;
  _ ← when (negb (running d =? 1))
    (_ ← adc_update_dev_sequence;
     d ← adc_get_dev_state;
     _ ← call (SequenceEnable (seq_id d));
     _ ← upd_dev (set_running 1);
     if clocked d =? 1 then call (TimerStart (timer_id d)) else call (ProcessorTrigger (seq_id d)));
  mret PLATFORM_OK.

(** ** Setting up *)

Definition adc_setup_channel (i : nat) (logcount : Z) : M adc Z :=
  n ← (if BUF_ENABLE_ADC then buf_get_size_adc i else mret 0);
  res ← (if BUF_ENABLE_ADC && negb (Z.shiftl 1 logcount =? n) then
           res ← buf_set_adc i logcount;
           _ ← when (res =? PLATFORM_OK) (buf_flush_adc i);
           mret res
         else mret PLATFORM_OK);
  if negb (res =? PLATFORM_OK) then mret res
  else
    _ ← upd_ch i (fun s => set_op_pending 1 (set_reqsamples (u16 (Z.shiftl 1 logcount)) s));
    _ ← upd_dev (ACTIVATE_CHANNEL i);
    mret PLATFORM_OK.

Definition adc_init_ch_state (i : nat) : M adc unit :=
  _ ← upd_dev (INACTIVATE_CHANNEL i);
  _ ← upd_ch i (fun s => set_op_pending 0 (set_blocking 1 (set_smooth_ready 0 (set_reqsamples 0
        (set_freerunning 0 (set_id i (set_logsmoothlen 0 (set_smoothidx 0 (set_smoothsum 0 s)))))))));
  _ ← (if BUF_ENABLE_ADC then buf_set_adc i ADC_BUF_SIZE else mret 0);
  _ ← platform_adc_set_clock i 0;
  mret ().
Definition adc_init_dev_state (d : dev) : dev := Dev (ch_state d) (sample_buf d) (clocked d)
  0 0 0 0 0 (timer_id d) 0 (seq_ctr d) (seq_len d).

Definition adc_update_smoothing (i : nat) (loglen : Z) : M adc Z :=
  s ← adc_get_ch_state i;
  _ ← when (op_pending s =? 1) (platform_adc_stop i);
  s ← adc_get_ch_state i;
  failed ← (if negb (loglen =? logsmoothlen s) then
      _ ← upd_ch i (set_logsmoothlen loglen);
      s ← adc_get_ch_state i;
      let block := realloc16 (smoothbuf s) (SMOOTH_REALSIZE s) in
      _ ← upd_ch i (set_smoothbuf block);
      match block with
      | None =>
          _ ← upd_ch i (fun s => set_smoothidx 0 (set_smooth_ready 0 (set_smoothsum 0 (set_logsmoothlen 0 s))));
          mret (negb (loglen =? 0))
      | Some _ => mret false
      end
    else mret false);
  if failed : bool then mret PLATFORM_ERR
  else
    _ ← adc_flush_smoothing i;
    _ ← when BUF_ENABLE_ADC (buf_flush_adc i);
    mret PLATFORM_OK.

(** ** src/common.c *)

Definition platform_adc_exists (i : nat) : bool := (i <? NUM_ADC)%nat.
Definition platform_adc_set_smoothing (i : nat) (length : Z) : M adc Z :=
  adc_update_smoothing i (u8 (intlog2 length)).
Definition platform_adc_set_blocking (i : nat) (mode : Z) : M adc unit :=
  upd_ch i (set_blocking (wrap 1 mode)).
Definition platform_adc_set_freerunning (i : nat) (mode : Z) : M adc unit :=
  upd_ch i (set_freerunning (wrap 1 mode)).
Definition platform_adc_is_done (i : nat) : M adc bool :=
  s ← adc_get_ch_state i; mret (op_pending s =? 0).
Definition platform_adc_set_timer (i : nat) (timer : Z) : M adc unit :=
  d ← adc_get_dev_state;
  _ ← when (negb (timer_id d =? timer)) (upd_dev (set_running 0));
  _ ← platform_adc_stop i;
  upd_dev (set_timer_id timer).

(** ** Waiting

    An interrupt comes with what the converter measures at each channel; the
    sequencer hands over the measurements of its steps in their order. *)

(** The channels of the steps up to the last, the latest calls first. *)
Fixpoint hw_steps (calls : list hw_call) : list nat :=
  match calls with
  | [] => []
  | SequenceStepConfigure _ pos i _ :: calls => take pos (hw_steps calls) ++ [i]
  | _ :: calls => hw_steps calls
  end.
(** A sequencer that is disabled converts nothing. *)
Fixpoint hw_enabled (calls : list hw_call) : bool :=
  match calls with
  | [] => false
  | SequenceEnable _ :: _ => true
  | SequenceDisable _ :: _ => false
  | _ :: calls => hw_enabled calls
  end.
Definition adc_interrupt (measured : nat -> Z) : M adc unit := fun w =>
  if hw_enabled (hw w) then ADCIntHandler (measured <$> hw_steps (hw w)) w else Some ((), w).

Fixpoint interrupts (l : list (nat -> Z)) : M adc unit :=
  match l with [] => mret () | m :: l => _ ← adc_interrupt m; interrupts l end.

(** The loop, with the interrupts that come while it runs; returns those it did not
    wait for. [None]: it waits for ever. *)
Fixpoint wait_loop (i : nat) (samples : Z) (l : list (nat -> Z)) : M adc (list (nat -> Z)) :=
  s ← adc_get_ch_state i;
  n ← adc_samples_available i;
  if (op_pending s =? 1) && (n <? samples) then
    match l with
    | [] => pure None
    | m :: l => _ ← adc_interrupt m; wait_loop i samples l
    end
  else mret l.
Definition adc_wait_samples (i : nat) (samples : Z) (l : list (nat -> Z)) : M adc (Z * list (nat -> Z)) :=
  n ← adc_samples_available i;
  s ← adc_get_ch_state i;
  l ← (if (n <? samples) && (blocking s =? 1) then wait_loop i samples l else mret l);
  n ← adc_samples_available i;
  mret (n, l).

(** ** src/modules/adc.c *)

Definition adc_setsmoothing (i : nat) (length : Z) : M adc (luaL unit) :=
  if negb (platform_adc_exists i) then mret (DoesNotExist i)
  else if Z.land length (u32 (length - 1)) =? 0 then
    res ← platform_adc_set_smoothing i length;
    mret (if res =? PLATFORM_ERR then AllocationFailed else Returns ())
  else mret BadLength.

(** Each channel of the table; [None]: all are set up. *)
Fixpoint setup_channels (l : list nat) (count : Z) : M adc (option (luaL unit)) :=
  match l with
  | [] => mret None
  | i :: l =>
      if negb (platform_adc_exists i) then mret (Some (DoesNotExist i))
      else
        res ← adc_setup_channel i (u8 (intlog2 count));
        if negb (res =? PLATFORM_OK) then mret (Some SetupFailed) else setup_channels l count
  end.
Definition adc_sample (chans : lua_channels) (count : Z) : M adc (luaL unit) :=
  if (count =? 0) || negb (Z.land count (u32 (count - 1)) =? 0) then mret BadCount
  else
    match chans with
    | LuaOther => mret InvalidSelection
    | LuaTable l =>
        r ← setup_channels l count;
        match r with
        | Some e => mret e
        | None => _ ← platform_adc_start_sequence; mret (Returns ())
        end
    | LuaNumber i =>
        r ← setup_channels [i] count;
        match r with
        | Some e => mret e
        | None => _ ← platform_adc_start_sequence; mret (Returns ())
        end
    end.

Definition adc_getsample (i : nat) (l : list (nat -> Z)) : M adc (luaL (option Z)) :=
  if negb (platform_adc_exists i) then mret (DoesNotExist i)
  else
    '(n, _) ← adc_wait_samples i 1 l;
    if n >=? 1 then x ← adc_get_processed_sample i; mret (Returns (Some x))
    else mret (Returns None).

(** [between]: the interrupts before each sample is taken. *)
Fixpoint take_samples (n : nat) (i : nat) (between : list (list (nat -> Z))) : M adc (list Z) :=
  match n with
  | O => mret []
  | S n =>
      _ ← interrupts (default [] (head between));
      x ← adc_get_processed_sample i;
      xs ← take_samples n i (tail between);
      mret (x :: xs)
  end.
Definition adc_getsamples (i : nat) (count : Z) (l : list (nat -> Z)) (between : list (list (nat -> Z)))
  : M adc (luaL (list Z)) :=
  if negb (platform_adc_exists i) then mret (DoesNotExist i)
  else
    let count := u16 count in
    '(bcnt, _) ← adc_wait_samples i count l;
    let count := if count =? 0 then bcnt else count in
    let count := if count >? bcnt then bcnt else count in
    xs ← take_samples (Z.to_nat count) i between;
    mret (Returns xs).

(** Into a table from [startidx] on; nil is [None]. *)
Definition adc_insertsamples (i : nat) (startidx count : Z) (l : list (nat -> Z))
  (between : list (list (nat -> Z))) : M adc (luaL (list (Z * option Z))) :=
  if negb (platform_adc_exists i) then mret (DoesNotExist i)
  else if startidx <=? 0 then mret BadIndex
  else
    let count := u16 count in
    if count =? 0 then mret BadCount
    else
      '(bcnt, _) ← adc_wait_samples i count l;
      let n := Z.to_nat (Z.min count bcnt) in
      xs ← take_samples n i between;
      mret (Returns (zip (seqZ startidx count)
        ((Some <$> xs) ++ replicate (Z.to_nat count - n) None))).

Definition platform_adc_check_timer_id (ADC_TIMER_FIRST_ID ADC_NUM_TIMERS timer : Z) : bool :=
  (timer >=? ADC_TIMER_FIRST_ID) && (timer <? ADC_TIMER_FIRST_ID + ADC_NUM_TIMERS).
(** [timer_exists]: platform_timer_exists. *)
Definition adc_setclock (timer_exists valid_timer : Z -> bool) (i : nat) (sfreq timer : Z) : M adc (luaL Z) :=
  if negb (platform_adc_exists i) then mret (DoesNotExist i)
  else if sfreq <? 0 then mret BadFrequency
  else if (sfreq >? 0) && negb (timer_exists timer && valid_timer timer) then mret BadTimer
  else
    _ ← platform_adc_set_timer i (if sfreq >? 0 then timer else 0);
    freq ← platform_adc_set_clock i sfreq;
    mret (Returns freq).

(** The peripheral's clock and interrupt are set up around it. *)
Fixpoint init_channels (l : list nat) : M adc unit :=
  match l with
  | [] => mret ()
  | i :: l => _ ← adc_init_ch_state i; init_channels l
  end.
Definition adcs_init : M adc unit :=
  _ ← init_channels (seq 0 NUM_ADC);
  _ ← platform_adc_set_clock 0 0;
  mret ().
End Adc.
