(* ===== verification/AdcSpec.v ===== *)
(** * AdcSpec: what the samples of a channel are

    A channel of Adc, seen as a queue of samples and the samples its filter has
    seen; every operation on it, and the interrupt handler on all channels of the
    sequence, is shown to be an operation on that view. *)

From S2P Require Import Prelude Fifo Buf Common Adc.

(** ** Moving averages *)

Definition Zsum (l : list Z) : Z := foldr Z.add 0 l.
(** The last [n] samples; before there are so many, zeros. *)
Definition window (n : nat) (h : list Z) : list Z := drop (length h) (replicate n 0 ++ h).
Definition average (k : nat) (h : list Z) : Z := Zsum (window (2 ^ k) h) / 2 ^ Z.of_nat k.
(** One for each sample of [xs], after those of [h]. *)
Fixpoint averages (k : nat) (h xs : list Z) : list Z :=
  match xs with
  | [] => []
  | x :: xs => average k (h ++ [x]) :: averages k (h ++ [x]) xs
  end.

Lemma Zsum_app a b : Zsum (a ++ b) = Zsum a + Zsum b.
Proof. unfold Zsum. induction a as [|x a IH]; simpl; lia. Qed.
Lemma length_window n h : length (window n h) = n.
Proof. unfold window. rewrite length_drop, length_app, length_replicate. lia. Qed.
Lemma window_nil n : window n [] = replicate n 0.
Proof. unfold window. simpl. by rewrite app_nil_r. Qed.
Lemma window_snoc n h x : (0 < n)%nat -> window n (h ++ [x]) = tail (window n h) ++ [x].
Proof.
  intros Hn. unfold window. rewrite length_app, app_assoc. simpl.
  rewrite (drop_app_le (replicate n 0 ++ h)) by (rewrite length_app, length_replicate; lia).
  f_equal. rewrite <- drop_drop. by destruct (drop (length h) (replicate n 0 ++ h)).
Qed.
Lemma average_0 h x : average 0 (h ++ [x]) = x.
Proof.
  unfold average. simpl (2 ^ 0)%nat. rewrite window_snoc by lia.
  pose proof (length_window 1 h) as Hl. destruct (window 1 h) as [|y [|? ?]]; [done| |done].
  unfold Zsum. simpl. rewrite Z.add_0_r. apply Z.div_1_r.
Qed.
Lemma Zsum_u16 l : Forall is_u16 l -> 0 <= Zsum l <= Z.of_nat (length l) * 65535.
Proof. induction 1 as [|x l Hx _ IH]; [done|]. unfold is_u in Hx. cbn [Zsum foldr length] in *. change (foldr Z.add 0 l) with (Zsum l). lia. Qed.

(** ** The filter *)

(** The ring: the oldest sample is in the cell the index is at, unless the index is
    at the end. *)
Record filter_ring (s : ch) (n : nat) (h a b : list Z) : Prop := {
  fr_buf : smoothbuf s = Some (a ++ b);
  fr_window : window n h = b ++ a;
  fr_idx : smoothidx s = Z.of_nat (length a);
  fr_sum : smoothsum s = Zsum (a ++ b);
  fr_ready : smooth_ready s = if (n <? length h)%nat then 1 else 0;
  fr_first : (length h <= n)%nat -> length a = length h
}.
Definition filtered (k : nat) (s : ch) (h : list Z) : Prop :=
  logsmoothlen s = Z.of_nat k /\ (k <= 15)%nat /\ Forall is_u16 h /\
  ((0 < k)%nat -> exists a b, filter_ring s (2 ^ k) h a b).

Lemma window_u16 n h : Forall is_u16 h -> Forall is_u16 (window n h).
Proof.
  intros Hh. apply Forall_drop, Forall_app. split; [|done].
  apply Forall_replicate. words. lia.
Qed.
Lemma ring_u16 s n h a b : filter_ring s n h a b -> Forall is_u16 h -> Forall is_u16 (a ++ b).
Proof.
  intros Hr Hh. pose proof (window_u16 n h Hh) as Hw. rewrite (fr_window _ _ _ _ _ Hr) in Hw.
  rewrite Forall_app in *. tauto.
Qed.
Lemma ring_length s n h a b : filter_ring s n h a b -> (length a + length b = n)%nat.
Proof.
  intros Hr. rewrite <- (length_window n h), (fr_window _ _ _ _ _ Hr), length_app. lia.
Qed.

(** The next sample goes into the first cell of [b], unless the index is at the end. *)
Definition wrapped (s : ch) : ch :=
  if smoothidx s =? SMOOTH_REALSIZE s then set_smooth_ready 1 (set_smoothidx 0 s) else s.
Lemma realsize k s h : filtered k s h -> SMOOTH_REALSIZE s = Z.of_nat (2 ^ k).
Proof.
  intros (Hk & _). unfold SMOOTH_REALSIZE. rewrite Z.shiftl_1_l, Hk.
  by rewrite Nat2Z.inj_pow.
Qed.
Lemma pow_small k : (k <= 15)%nat -> (0 < 2 ^ k)%nat /\ Z.of_nat (2 ^ k) <= 32768.
Proof.
  intros. split; [pose proof (Nat.pow_nonzero 2 k); lia|].
  rewrite Nat2Z.inj_pow. change 32768 with (2 ^ 15). apply Z.pow_le_mono_r; lia.
Qed.
Lemma wrapped_ring k s h : filtered k s h -> (0 < k)%nat ->
  exists a y b, smoothbuf (wrapped s) = Some (a ++ y :: b) /\
    window (2 ^ k) h = y :: b ++ a /\ smoothidx (wrapped s) = Z.of_nat (length a) /\
    smoothsum (wrapped s) = Zsum (a ++ y :: b) /\
    smooth_ready (wrapped s) = (if (2 ^ k <=? length h)%nat then 1 else 0) /\
    ((length h < 2 ^ k)%nat -> length a = length h).
Proof.
  intros Hf Hk. pose proof (realsize k s h Hf) as Hsz. destruct Hf as (_ & Hk15 & _ & Hr).
  destruct (Hr Hk) as (a & b & Hring). pose proof (ring_length _ _ _ _ _ Hring) as Hl.
  pose proof (pow_small k Hk15) as Hp. unfold wrapped. rewrite Hsz, (fr_idx _ _ _ _ _ Hring).
  destruct Hring as [Hb Hw Hi Hs Hrd Hfst].
  destruct (Z.eqb_spec (Z.of_nat (length a)) (Z.of_nat (2 ^ k))) as [He|He].
  - assert (b = []) as -> by (apply nil_length_inv; lia). rewrite app_nil_r in *. simpl in Hw.
    destruct a as [|y a]; [simpl in *; lia|].
    exists [], y, a. simpl. rewrite app_nil_r.
    assert (2 ^ k <= length h)%nat as Hle by (destruct (decide (length h <= 2 ^ k)%nat); lia).
    rewrite (proj2 (Nat.leb_le _ _) Hle). split_and!; try done. lia.
  - destruct b as [|y b]; [simpl in *; lia|]. exists a, y, b. split_and!; try done.
    + rewrite Hrd. destruct (Nat.ltb_spec (2 ^ k) (length h)), (Nat.leb_spec (2 ^ k) (length h)); try done; lia.
    + intros. apply Hfst. lia.
Qed.

(** The new sample takes the place of the oldest. *)
Lemma next_filter k s s' h a y b x : filtered k s h -> (0 < k)%nat -> is_u16 x ->
  window (2 ^ k) h = y :: b ++ a ->
  ((length h < 2 ^ k)%nat -> length a = length h) ->
  logsmoothlen s' = logsmoothlen s -> smoothbuf s' = Some (a ++ x :: b) ->
  smoothidx s' = u16 (Z.of_nat (length a) + 1) -> smoothsum s' = Zsum (a ++ x :: b) ->
  smooth_ready s' = (if (2 ^ k <=? length h)%nat then 1 else 0) ->
  filtered k s' (h ++ [x]).
Proof.
  intros (Hk & Hk15 & Hh & _) Hk0 Hx Hw Hfst Hk' Hb' Hi' Hs' Hrd. pose proof (pow_small k Hk15) as Hp.
  pose proof (length_window (2 ^ k) h) as Hl. rewrite Hw in Hl. simpl in Hl. rewrite length_app in Hl.
  split_and!; [congruence|done|by apply Forall_app; split; [|apply Forall_singleton]|].
  intros _. exists (a ++ [x]), b. split; simpl.
  - by rewrite <- app_assoc.
  - rewrite window_snoc by lia. rewrite Hw. simpl. by rewrite <- app_assoc.
  - rewrite length_app, Hi'. simpl. rewrite u16_small by word_lia. lia.
  - by rewrite <- app_assoc.
  - rewrite length_app. simpl. rewrite Hrd.
    destruct (Nat.ltb_spec (2 ^ k) (length h + 1)), (Nat.leb_spec (2 ^ k) (length h)); try done; lia.
  - rewrite !length_app. simpl. intros. rewrite Hfst; lia.
Qed.

Lemma filter_ext k s s' h : logsmoothlen s' = logsmoothlen s -> smooth_ready s' = smooth_ready s ->
  smoothidx s' = smoothidx s -> smoothsum s' = smoothsum s -> smoothbuf s' = smoothbuf s ->
  filtered k s h -> filtered k s' h.
Proof.
  intros Hk Hr Hi Hs Hb (Hk' & Hk15 & Hh & Hring). split_and!; [congruence|done|done|].
  intros H0. destruct (Hring H0) as (a & b & []). exists a, b. split; first [assumption|congruence].
Qed.
(** Whether samples come out already: the filter takes one more than its length. *)
Definition warm (k : nat) (h : list Z) : bool := (k =? 0)%nat || (2 ^ k <? length h)%nat.
Lemma warm_snoc k h x : warm k h = true -> warm k (h ++ [x]) = true.
Proof.
  unfold warm. rewrite !orb_true_iff, !Nat.ltb_lt, length_app. simpl. intros [?|?]; [by left|right; lia].
Qed.
Lemma filter_flags k s h : filtered k s h ->
  (logsmoothlen s >? 0) = negb (k =? 0)%nat /\ (logsmoothlen s =? 0) = (k =? 0)%nat /\
  ((0 < k)%nat -> smooth_ready s = if warm k h then 1 else 0).
Proof.
  intros (Hk & _ & _ & Hr). rewrite Hk. split_and!.
  - destruct (Nat.eqb_spec k 0) as [->|]; [done|]. rewrite Z.gtb_ltb. apply Z.ltb_lt. lia.
  - destruct (Nat.eqb_spec k 0) as [->|]; [done|]. apply Z.eqb_neq. lia.
  - intros H0. destruct (Hr H0) as (a & b & [_ _ _ _ Hrd _]). rewrite Hrd. unfold warm.
    by rewrite (proj2 (Nat.eqb_neq k 0)) by lia.
Qed.
Lemma filter_average k s h : filtered k s h -> (0 < k)%nat ->
  u16 (Z.shiftr (smoothsum s) (logsmoothlen s)) = average k h.
Proof.
  intros (Hk & Hk15 & Hh & Hr) H0. destruct (Hr H0) as (a & b & Hring).
  assert (smoothsum s = Zsum (window (2 ^ k) h)) as Hs.
  { rewrite (fr_sum _ _ _ _ _ Hring), (fr_window _ _ _ _ _ Hring), !Zsum_app. lia. }
  rewrite Z.shiftr_div_pow2, Hs, Hk by lia. unfold average. apply u16_small.
  pose proof (Zsum_u16 _ (window_u16 (2 ^ k) h Hh)) as Hb. rewrite length_window in Hb.
  rewrite Nat2Z.inj_pow in Hb. change (Z.of_nat 2) with 2 in Hb.
  pose proof (pow2_pos (Z.of_nat k) ltac:(lia)). words. split.
  - apply Z.div_pos; lia.
  - apply Z.div_lt_upper_bound; lia.
Qed.

(** ** One channel *)

Create Rewrite HintDb adc.

Section Spec.
Context (NU NV : Z).

(** Channel [i] and its buffer, and replacing them. *)
Record chan (w : adc) (i : nat) (s : ch) (d : buf_desc) : Prop := {
  chan_ch : adc_ch_state w !! i = Some s;
  chan_buf : buf_getptr NU NV (bufs w) BUF_ID_ADC (Z.of_nat i) = Some d
}.
Definition set_chan (i : nat) (s : ch) (d : buf_desc) (w : adc) : adc :=
  Adc (<[i := s]> (adc_ch_state w)) (adc_dev_state w)
    (buf_putptr NU NV (bufs w) BUF_ID_ADC (Z.of_nat i) d) (hw w).
Definition present (w : adc) (i : nat) : Prop := exists s d, chan w i s d.

Lemma getptr_adc a i : buf_getptr NU NV a BUF_ID_ADC (Z.of_nat i) = l ← a !! BUF_ID_ADC; l !! i.
Proof. unfold buf_getptr, bufh_check_resnum. simpl. by rewrite Nat2Z.id. Qed.
Lemma putptr_adc a i d : buf_putptr NU NV a BUF_ID_ADC (Z.of_nat i) d = alter (<[i := d]>) BUF_ID_ADC a.
Proof. unfold buf_putptr, bufh_check_resnum. simpl. by rewrite Nat2Z.id. Qed.

Lemma chan_set w i s d : present w i -> chan (set_chan i s d w) i s d.
Proof.
  intros (s0 & d0 & [Hs Hd]). split; simpl.
  - apply list_lookup_insert_eq. by apply lookup_lt_Some in Hs.
  - apply getptr_putptr. by eexists.
Qed.
Lemma chan_set_ne w i j s d s' d' : i <> j -> chan w j s' d' -> chan (set_chan i s d w) j s' d'.
Proof.
  intros Hij [Hs Hd]. split; simpl; [by rewrite list_lookup_insert_ne|].
  rewrite putptr_adc, getptr_adc, list_lookup_alter_eq. rewrite getptr_adc in Hd.
  destruct (bufs w !! BUF_ID_ADC) as [l|]; [|done]. simpl in *. by rewrite list_lookup_insert_ne.
Qed.
Lemma set_set w i s d s' d' : set_chan i s d (set_chan i s' d' w) = set_chan i s d w.
Proof.
  unfold set_chan. simpl. rewrite list_insert_insert_eq, !putptr_adc. f_equal.
  apply list_eq. intros n. destruct (decide (n = BUF_ID_ADC)) as [->|Hn];
    [|by rewrite !list_lookup_alter_ne].
  rewrite !list_lookup_alter_eq. destruct (bufs w !! BUF_ID_ADC) as [l|]; [|done]. simpl.
  by rewrite list_insert_insert_eq.
Qed.
Lemma set_same w i s d : chan w i s d -> set_chan i s d w = w.
Proof.
  intros [Hs Hd]. unfold set_chan. destruct w as [c dv b h]. simpl in *. f_equal.
  - by apply list_insert_id.
  - rewrite putptr_adc. rewrite getptr_adc in Hd. apply list_eq. intros n.
    destruct (decide (n = BUF_ID_ADC)) as [->|Hn]; [|by rewrite list_lookup_alter_ne].
    rewrite list_lookup_alter_eq. destruct (b !! BUF_ID_ADC) as [l|]; [|done]. simpl in *.
    by rewrite list_insert_id.
Qed.
Lemma present_chan w i s d : chan w i s d -> present w i.
Proof. by exists s, d. Qed.

Section Run.
Context (w : adc) (i : nat) (Hw : present w i).
Implicit Types (s : ch) (d : buf_desc).

Lemma get_run s d : adc_get_ch_state i (set_chan i s d w) = Some (s, set_chan i s d w).
Proof. unfold adc_get_ch_state. by rewrite (chan_ch _ _ _ _ (chan_set w i s d Hw)). Qed.
Lemma upd_run f s d : upd_ch i f (set_chan i s d w) = Some ((), set_chan i (f s) d w).
Proof.
  unfold upd_ch. rewrite (chan_ch _ _ _ _ (chan_set w i s d Hw)). simpl. do 2 f_equal.
  unfold set_chan. simpl. by rewrite list_insert_insert_eq.
Qed.
Lemma bufs_run s d : buf_getptr NU NV (bufs (set_chan i s d w)) BUF_ID_ADC (Z.of_nat i) = Some d.
Proof. apply (chan_set w i s d Hw). Qed.
Lemma bufs_put s d d' : Adc (adc_ch_state (set_chan i s d w)) (adc_dev_state (set_chan i s d w))
  (buf_putptr NU NV (bufs (set_chan i s d w)) BUF_ID_ADC (Z.of_nat i) d') (hw (set_chan i s d w))
  = set_chan i s d' w.
Proof.
  rewrite <- (set_set w i s d' s d). unfold set_chan at 5. simpl.
  by rewrite list_insert_insert_eq.
Qed.
Lemma count_run s d : buf_get_count_adc NU NV i (set_chan i s d w) = Some (count d, set_chan i s d w).
Proof.
  unfold buf_get_count_adc, on_bufs, buf_get_count. rewrite bufs_run. reflexivity.
Qed.
Lemma size_run s d : buf_get_size_adc NU NV i (set_chan i s d w) = Some (buf_get_size_desc d, set_chan i s d w).
Proof.
  unfold buf_get_size_adc, on_bufs, buf_get_size. rewrite bufs_run. reflexivity.
Qed.
Lemma flush_run s d : buf_flush_adc NU NV i (set_chan i s d w) = Some ((), set_chan i s (buf_flush_desc d) w).
Proof. unfold buf_flush_adc, on_bufs, buf_flush. rewrite bufs_run. cbn [mbind option_bind]. by rewrite bufs_put. Qed.
Lemma set_run realloc n s d : buf_set_adc NU NV realloc i n (set_chan i s d w)
  = let '(r, d') := buf_set_desc realloc n BUF_DSIZE_U16 d in Some (r, set_chan i s d' w).
Proof.
  unfold buf_set_adc, on_bufs, buf_set. rewrite bufs_run. cbn [mbind option_bind].
  destruct (buf_set_desc realloc n BUF_DSIZE_U16 d) as [r d']. cbn [mbind option_bind]. by rewrite bufs_put.
Qed.
Lemma write_run data s d d' : fifo_put data d = Some d' ->
  buf_write_adc NU NV i data (set_chan i s d w) = Some (PLATFORM_OK, set_chan i s d' w).
Proof.
  simpl. destruct (buf_write_desc data d) as [[r d1]|] eqn:E; [|done].
  destruct (Z.eqb_spec r PLATFORM_OK) as [->|]; [|done]. intros [= ->].
  unfold buf_write_adc, on_bufs, buf_write. rewrite bufs_run. cbn [mbind option_bind]. rewrite E.
  cbn [mbind option_bind]. by rewrite bufs_put.
Qed.
Lemma read_run data s d d' : fifo_get d = Some (data, d') ->
  buf_read_adc NU NV i (set_chan i s d w) = Some (data, set_chan i s d' w).
Proof.
  simpl. destruct (buf_read_desc d) as [[[r e] d1]|] eqn:E; [|done].
  destruct (Z.eqb_spec r PLATFORM_OK) as [->|]; [|done]. intros [= -> ->].
  unfold buf_read_adc, on_bufs, buf_read. rewrite bufs_run. cbn [mbind option_bind]. rewrite E.
  cbn [mbind option_bind]. by rewrite bufs_put.
Qed.
Lemma value_run p x s s' d : value_ptr s = Some p -> sample_buf (adc_dev_state w) !! p = Some x ->
  value_at s (set_chan i s' d w) = Some (x, set_chan i s' d w).
Proof.
  intros Hp Hx. unfold value_at, adc_get_dev_state, pure, mbind, M_bind. simpl. by rewrite Hp; simpl; rewrite Hx.
Qed.
End Run.

(** *** Its samples *)

(** The samples of a channel that wait to be taken: the fresh one or those of the
    buffer. [sb]: the samples of the device. *)
Definition fresh_sample (sb : list Z) (s : ch) (x : Z) : Prop :=
  exists p, value_ptr s = Some p /\ sb !! p = Some x.
Record samples (sb : list Z) (s : ch) (d : buf_desc) (q : list Z) : Prop := {
  q_ok : fifo_ok d;
  q_size : dsize d = 2%nat;
  q_u16 : Forall is_u16 q;
  q_list : value_fresh s = 0 /\ fifo_list d = le16 <$> q \/
           value_fresh s = 1 /\ fifo_list d = [] /\ exists x, fresh_sample sb s x /\ q = [x]
}.
(** What the operations on samples leave alone. *)
Definition kept (s s' : ch) : Prop :=
  op_pending s' = op_pending s /\ blocking s' = blocking s /\ freerunning s' = freerunning s /\
  id s' = id s /\ logsmoothlen s' = logsmoothlen s /\ value_ptr s' = value_ptr s.

Lemma fifo_count d : fifo_ok d -> count d = Z.of_nat (length (fifo_list d)) /\
  (length (fifo_list d) <= nelem d)%nat /\ Z.of_nat (nelem d) <= 32768.
Proof.
  simpl. intros Hok. unfold buf_queue. rewrite length_ring.
  destruct (wf_count _ _ _ _ Hok) as [Hc Hn]. pose proof (nelem_max _ _ _ _ Hok).
  change (2 ^ 15) with 32768 in *. done.
Qed.
Lemma le16_elem d x : dsize d = 2%nat -> is_u16 x -> fifo_elem d (le16 x).
Proof. intros Hd Hx. simpl. split; [apply le16_bytes|done]. Qed.
Lemma over_le16 old x : is_u16 x -> (length old <= 2)%nat -> over_sample old (le16 x) = Some x.
Proof.
  intros Hx Ho. unfold over_sample. rewrite drop_ge by done. unfold le16. simpl. f_equal.
  pose proof (or16_le16 x Hx) as H. unfold le16 in H. exact H.
Qed.

Section Samples.
Context (w : adc) (i : nat) (Hw : present w i).
Let sb := sample_buf (adc_dev_state w).

Lemma available_run s d q : samples sb s d q ->
  adc_samples_available true NU NV i (set_chan i s d w) = Some (Z.of_nat (length q), set_chan i s d w).
Proof.
  intros [Hok _ _ Hq]. unfold adc_samples_available.
  rewrite (M_bind_run _ _ _ _ _ (get_run w i Hw s d)). cbv iota.
  rewrite (M_bind_run _ _ _ _ _ (count_run w i Hw s d)).
  destruct (fifo_count d Hok) as (Hc & Hn & Hm). rewrite Hc, u16_small by word_lia. unfold mret, M_ret.
  destruct Hq as [[Hf Hl]|(Hf & Hl & x & _ & ->)]; rewrite Hl, Hf.
  - rewrite length_fmap. by destruct (Z.eqb_spec (Z.of_nat (length q)) 0) as [->|].
  - done.
Qed.

Lemma load_run old s d y q : samples sb s d (y :: q) -> (length old <= 2)%nat ->
  exists d', load_sample true NU NV i old (set_chan i s d w)
      = Some (y, set_chan i (set_value_fresh 0 s) d' w) /\
    samples sb (set_value_fresh 0 s) d' q /\ fifo_same d d'.
Proof.
  intros [Hok Hd Hu Hq] Ho. unfold load_sample.
  rewrite (M_bind_run _ _ _ _ _ (get_run w i Hw s d)). cbn [negb orb].
  apply Forall_cons in Hu as [Hy Hu].
  destruct Hq as [[Hf Hl]|(Hf & Hl & x & (p & Hp & Hx) & [= -> ->])]; rewrite Hf.
  - change (0 =? 1) with false. cbv iota.
    destruct (fifo_get_ok d _ _ Hok Hl) as (d' & Hg & Hok' & Hsame & Hl').
    exists d'. assert (set_value_fresh 0 s = s) as -> by (destruct s; unfold set_value_fresh; cbn in *; congruence).
    split_and!; [| |done].
    + rewrite (M_bind_run _ _ _ _ _ (read_run w i Hw _ s d d' Hg)).
      unfold pure. by rewrite over_le16.
    + split; [done| |done|by left].
      destruct Hsame as [_ He]. specialize (He (le16 0)). simpl in He.
      assert (2%nat = dsize d') as <-; [|done]. apply He. split; [apply le16_bytes|done].
  - change (1 =? 1) with true. cbv iota. exists d. split_and!.
    + rewrite (M_bind_run _ _ _ _ _ (value_run w i p x s s d Hp Hx)).
      by rewrite (M_bind_run _ _ _ _ _ (upd_run w i Hw _ s d)).
    + split; [done|done|done|by left].
    + done.
Qed.

Lemma samples_ext s s' d q : value_fresh s' = value_fresh s -> value_ptr s' = value_ptr s ->
  samples sb s d q -> samples sb s' d q.
Proof.
  intros Hf Hp [Hok Hd Hu Hq]. split; [done..|]. rewrite Hf. unfold fresh_sample in *. by rewrite Hp.
Qed.
Lemma when_upd b f s d : when b (upd_ch i f) (set_chan i s d w)
  = Some ((), set_chan i (if b then f s else s) d w).
Proof. unfold when. destruct b; [by apply upd_run|done]. Qed.

Lemma cell_at (a b : list Z) y j : j = Z.of_nat (length a) -> load (a ++ y :: b) (Z.to_nat j) = Some y.
Proof. intros ->. rewrite Nat2Z.id. unfold load. by rewrite list_lookup_middle. Qed.
Lemma put_at (a b : list Z) y x j : j = Z.of_nat (length a) ->
  put (a ++ y :: b) (Z.to_nat j) x = Some (a ++ x :: b).
Proof.
  intros ->. rewrite Nat2Z.id. unfold put. rewrite decide_True by (rewrite length_app; simpl; lia).
  rewrite insert_app_r_alt, Nat.sub_diag by lia. done.
Qed.

Lemma smooth_run k s d h y q : filtered k s h -> (0 < k)%nat -> samples sb s d (y :: q) ->
  exists s' d', adc_smooth_data true NU NV i (set_chan i s d w) = Some ((), set_chan i s' d' w) /\
    filtered k s' (h ++ [y]) /\ samples sb s' d' q /\ kept s s' /\ value_fresh s' = 0 /\
    reqsamples s' = reqsamples s /\ fifo_same d d'.
Proof.
  intros Hf Hk Hq. destruct (wrapped_ring k s h Hf Hk) as (a & z & b & Hb & Hwin & Hi & Hsum & Hrd & Hfst).
  assert (Hu : Forall is_u16 (z :: b ++ a)) by (rewrite <- Hwin; apply window_u16, Hf).
  assert (Hl : (2 ^ k = length (z :: b ++ a))%nat) by (rewrite <- Hwin; by rewrite length_window).
  assert (Hk15 : (k <= 15)%nat) by apply Hf. destruct (pow_small k Hk15) as [_ Hp].
  assert (Hy : is_u16 y) by (pose proof (q_u16 _ _ _ _ Hq) as H; by apply Forall_cons in H as [? _]).
  rewrite Hl in Hp. simpl in Hp. rewrite length_app in Hp.
  assert (Hab : 0 <= Zsum a + Zsum b /\ Zsum a + Zsum b + 65535 < 2 ^ 32 /\ 0 <= z < 65536).
  { apply Forall_cons in Hu as [Hz Hba]. apply Forall_app in Hba as [Hub Hua].
    pose proof (Zsum_u16 a Hua). pose proof (Zsum_u16 b Hub). words. lia. }
  assert (Hrest : kept s (wrapped s) /\ value_fresh (wrapped s) = value_fresh s /\
    reqsamples (wrapped s) = reqsamples s) by (unfold wrapped; by destruct (_ =? _)).
  unfold adc_smooth_data.
  rewrite (M_bind_run _ _ _ _ _ (get_run w i Hw s d)), (M_bind_run _ _ _ _ _ (when_upd _ _ s d)).
  change (if smoothidx s =? SMOOTH_REALSIZE s then _ else s) with (wrapped s).
  set (s1 := wrapped s) in *. rewrite (M_bind_run _ _ _ _ _ (get_run w i Hw s1 d)).
  assert (smooth_cell s1 = Some z) as -> by (unfold smooth_cell; rewrite Hb; by apply cell_at).
  rewrite (M_bind_run (pure (Some z)) _ _ z (set_chan i s1 d w)) by done.
  rewrite (M_bind_run _ _ _ _ _ (upd_run w i Hw _ s1 d)).
  set (s2 := set_smoothsum _ s1).
  destruct (load_run [] s2 d y q) as (d' & Hload & Hq' & Hsame);
    [apply (samples_ext s); [apply Hrest|apply Hrest|done]|simpl; lia|].
  rewrite (M_bind_run _ _ _ _ _ Hload). set (s3 := set_value_fresh 0 s2) in *.
  rewrite (M_bind_run _ _ _ _ _ (get_run w i Hw s3 d')).
  assert (store_smooth s3 y = Some (a ++ y :: b)) as ->.
  { unfold store_smooth. change (smoothbuf s3) with (smoothbuf s1). rewrite Hb. by apply put_at. }
  rewrite (M_bind_run (pure (Some _)) _ _ (a ++ y :: b) (set_chan i s3 d' w)) by done.
  rewrite (M_bind_run _ _ _ _ _ (upd_run w i Hw _ s3 d')).
  set (s4 := set_smoothbuf _ s3). rewrite (M_bind_run _ _ _ _ _ (get_run w i Hw s4 d')).
  assert (smooth_cell s4 = Some y) as -> by (unfold smooth_cell; by apply cell_at).
  rewrite (M_bind_run (pure (Some _)) _ _ y (set_chan i s4 d' w)) by done.
  rewrite (upd_run w i Hw). eexists _, d'. split; [reflexivity|]. split_and!; try done.
  - apply (next_filter k s _ h a z b y); try done.
    + by apply Hrest.
    + simpl. by rewrite Hi.
    + change (smoothsum s4) with (u32 (smoothsum s1 - z)). cbn [smoothsum set_smoothidx set_smoothsum].
      assert (smoothsum s1 - z = Zsum a + Zsum b) as -> by (rewrite Hsum, Zsum_app; cbn; fold (Zsum b); lia).
      rewrite Zsum_app. cbn [Zsum foldr]. fold (Zsum b).
      rewrite (u32_small (Zsum a + Zsum b)) by word_lia. rewrite u32_small by word_lia. lia.
  - by apply (samples_ext s3).
  - apply Hrest.
  - apply Hrest.
Qed.

Lemma decr_run s d : 0 <= reqsamples s -> decr_reqsamples i (set_chan i s d w)
  = Some ((), set_chan i (set_reqsamples (Z.max 0 (reqsamples s - 1)) s) d w).
Proof.
  intros H. unfold decr_reqsamples. rewrite (upd_run w i Hw). do 3 f_equal.
  rewrite Z.gtb_ltb. destruct (Z.ltb_spec 0 (reqsamples s)).
  - by rewrite Z.max_r by lia.
  - destruct s. unfold set_reqsamples. cbn in *. f_equal. lia.
Qed.

(** Taking a sample. *)
Lemma processed_empty s d : samples sb s d [] ->
  adc_get_processed_sample true NU NV i (set_chan i s d w) = Some (0, set_chan i s d w).
Proof.
  intros Hq. unfold adc_get_processed_sample. by rewrite (M_bind_run _ _ _ _ _ (available_run s d [] Hq)).
Qed.
Lemma processed_run k s d h y q : filtered k s h -> warm k h = true -> samples sb s d (y :: q) ->
  0 <= reqsamples s ->
  exists s' d', adc_get_processed_sample true NU NV i (set_chan i s d w)
      = Some (average k (h ++ [y]), set_chan i s' d' w) /\
    filtered k s' (h ++ [y]) /\ samples sb s' d' q /\ kept s s' /\ value_fresh s' = 0 /\
    reqsamples s' = Z.max 0 (reqsamples s - 1) /\ fifo_same d d'.
Proof.
  intros Hf Hwarm Hq Hreq. destruct (filter_flags k s h Hf) as (Hgt & Heq & Hrd).
  unfold adc_get_processed_sample.
  rewrite (M_bind_run _ _ _ _ _ (available_run s d _ Hq)).
  rewrite Z.gtb_ltb, (proj2 (Z.ltb_lt _ _)) by (simpl; lia).
  rewrite (M_bind_run _ _ _ _ _ (get_run w i Hw s d)), Hgt, Heq.
  destruct (Nat.eqb_spec k 0) as [->|Hk]; cbn [negb andb].
  - destruct (load_run [0; 0] s d y q Hq) as (d' & Hload & Hq' & Hsame); [simpl; lia|].
    rewrite (M_bind_run _ _ _ _ _ Hload), (M_bind_run _ _ _ _ _ (decr_run (set_value_fresh 0 s) d' Hreq)).
    eexists _, d'. split; [unfold mret, M_ret; by rewrite average_0|].
    split_and!; try done.
    + destruct Hf as (? & ? & Hh & _). pose proof (q_u16 _ _ _ _ Hq) as Hu. apply Forall_cons in Hu as [Hy _].
      split_and!; [done|done| |lia]. apply Forall_app. split; [done|by apply Forall_singleton].
    + by apply (samples_ext (set_value_fresh 0 s)).
  - rewrite Hrd, Hwarm by lia. change (1 =? 1) with true. cbv iota.
    destruct (smooth_run k s d h y q Hf) as (s' & d' & Hs & Hf' & Hq' & Hk' & Hfr & Hr & Hsame); [lia|done|].
    rewrite (M_bind_run _ _ _ _ _ Hs), (M_bind_run _ _ _ _ _ (decr_run s' d' ltac:(by rewrite Hr))).
    rewrite (M_bind_run _ _ _ _ _ (get_run w i Hw _ d')).
    eexists _, d'. split; [unfold mret, M_ret; cbn [smoothsum logsmoothlen set_reqsamples];
      by rewrite (filter_average k s' _ Hf' ltac:(lia))|].
    split_and!; try done.
    + by apply (filter_ext k s').
    + by apply (samples_ext s').
    + cbn. by rewrite Hr.
Qed.
End Samples.

(** ** The view of a channel *)

(** The length of its filter, the samples the filter has seen, the samples that
    wait, how many are still asked for, and whether it converts. *)
Record view := View { vk : nat; vh : list Z; vq : list Z; vreq : Z; von : bool }.

(** A conversion warms the filter up, or queues a sample; with all samples asked for
    waiting, the channel stops. *)
Definition convert (x : Z) (v : view) : view :=
  let '(h, q) := if warm (vk v) (vh v) then (vh v, vq v ++ [x]) else (vh v ++ [x], vq v) in
  View (vk v) h q (vreq v) (Z.of_nat (length q) <? vreq v).
(** Taking a sample, and what comes out. *)
Definition take_view (v : view) : Z * view :=
  match vq v with
  | [] => (0, v)
  | x :: q => (average (vk v) (vh v ++ [x]), View (vk v) (vh v ++ [x]) q (Z.max 0 (vreq v - 1)) (von v))
  end.

Record rep (sb : list Z) (i : nat) (s : ch) (d : buf_desc) (v : view) : Prop := {
  rep_id : id s = i;
  rep_ptr : forall p, value_ptr s = Some p -> p = i;
  rep_filter : filtered (vk v) s (vh v);
  rep_samples : samples sb s d (vq v);
  rep_req : reqsamples s = vreq v;
  rep_room : 0 <= vreq v <= Z.of_nat (nelem d);
  rep_fresh : value_fresh s = 1 -> vreq v <= 1;
  rep_once : freerunning s = 0;
  rep_blocks : blocking s = 1;
  rep_pending : op_pending s = if von v then 1 else 0;
  rep_on : von v = true -> Z.of_nat (length (vq v)) < vreq v;
  rep_cold : warm (vk v) (vh v) = false -> vq v = []
}.

(** ** The interrupt handler on one channel *)

Definition with_dev (f : dev -> dev) (w : adc) : adc :=
  Adc (adc_ch_state w) (f (adc_dev_state w)) (bufs w) (hw w).
Definition put_sample (i : nat) (x : Z) : adc -> adc :=
  with_dev (fun d => set_sample_buf (<[i := x]> (sample_buf d)) d).
Definition stopped (i : nat) (s : ch) (w : adc) : adc :=
  let d := INACTIVATE_CHANNEL i (adc_dev_state w) in
  let all := ch_active d =? 0 in
  Adc (<[i := set_op_pending 0 s]> (adc_ch_state w)) (if all then set_running 0 d else d) (bufs w)
    (if all then SequenceDisable (seq_id d) :: hw w else hw w).

Lemma stop_run w i s d : chan w i s d -> platform_adc_stop i w = Some ((), stopped i s w).
Proof.
  intros [Hs _]. unfold platform_adc_stop, mbind, M_bind, upd_ch at 1. rewrite Hs.
  cbn [mbind option_bind]. unfold upd_dev, adc_get_dev_state, stopped, when. simpl.
  by destruct (_ =? 0).
Qed.

Lemma chan_with_dev w f i s d : chan w i s d -> chan (with_dev f w) i s d.
Proof. by intros []. Qed.
Lemma present_with_dev w f i : present w i -> present (with_dev f w) i.
Proof. intros (s & d & H). exists s, d. by apply chan_with_dev. Qed.

(** What is done with the new sample. *)
Definition smooth_or_buffer (i : nat) (s : ch) : M adc unit :=
  if (logsmoothlen s >? 0) && (smooth_ready s =? 0) then adc_smooth_data true NU NV i
  else when (true && (reqsamples s >? 1))
    (x ← value_at s; _ ← buf_write_adc NU NV i (le16 x); upd_ch i (set_value_fresh 0)).
Lemma new_sample_run w i s d x v : present w i -> is_u16 x -> rep (sample_buf (adc_dev_state w)) i s d v ->
  von v = true -> value_ptr s = Some i -> (i < length (sample_buf (adc_dev_state w)))%nat ->
  let w1 := put_sample i x w in
  let s1 := set_value_fresh 1 s in
  exists s' d', smooth_or_buffer i s1 (set_chan i s1 d w1) = Some ((), set_chan i s' d' w1) /\
    let v' := convert x v in let v1 := View (vk v') (vh v') (vq v') (vreq v') true in
    rep (sample_buf (adc_dev_state w1)) i (set_op_pending (if von v' then 1 else 0) s') d' v' /\
    op_pending s' = 1 /\ value_ptr s' = Some i.
Proof.
  intros Hw Hx Hrep Hon Hptr Hi w1 s1. pose proof Hrep as [Hid Hp Hf Hq Hreq Hroom Hfr Hfree Hblk Hpend Hv Hcold].
  pose proof (Hv Hon) as Hlt. rewrite Hon in Hpend.
  pose proof (present_with_dev w _ i Hw : present w1 i) as Hw1.
  set (sb := sample_buf (adc_dev_state w)) in *. set (sb1 := sample_buf (adc_dev_state w1)).
  assert (Hsb : sb1 !! i = Some x) by (unfold sb1, w1; simpl; by apply list_lookup_insert_eq).
  assert (Hf0 : value_fresh s = 0 /\ fifo_list d = le16 <$> vq v).
  { destruct (q_list _ _ _ _ Hq) as [H|(H1 & _ & y & _ & Hy)]; [done|].
    specialize (Hfr H1). rewrite Hy in Hlt. simpl in Hlt. lia. }
  destruct Hf0 as [Hf0 Hl]. destruct (filter_flags _ _ _ Hf) as (Hgt & Heq & Hrd).
  pose proof (q_ok _ _ _ _ Hq) as Hok. pose proof (q_size _ _ _ _ Hq) as Hd2.
  pose proof (q_u16 _ _ _ _ Hq) as Hu. unfold smooth_or_buffer.
  change (logsmoothlen s1) with (logsmoothlen s). change (smooth_ready s1) with (smooth_ready s).
  change (reqsamples s1) with (reqsamples s). rewrite Hgt, Hreq.
  assert (Hfs : forall s', value_ptr s' = Some i -> fresh_sample sb1 s' x) by (intros s' H; by exists i).
  unfold convert. destruct (warm (vk v) (vh v)) eqn:Hwarm.
  - replace (negb (vk v =? 0)%nat && (smooth_ready s =? 0)) with false.
    2:{ destruct (Nat.eqb_spec (vk v) 0); [done|]. by rewrite Hrd by lia. }
    rewrite Z.gtb_ltb. destruct (Z.ltb_spec 1 (vreq v)) as [H1|H1]; cbn [andb when].
    + assert (length (fifo_list d) < fifo_cap d)%nat as Hlen by (rewrite Hl, length_fmap; simpl; lia).
      destruct (fifo_put_ok d (le16 x) Hok) as (d' & Hput & Hok' & [Hcap Hel] & Hl');
        [by apply le16_elem|done|].
      rewrite (M_bind_run _ _ _ _ _ (value_run w1 i i x s1 s1 d Hptr Hsb)).
      rewrite (M_bind_run _ _ _ _ _ (write_run w1 i Hw1 _ s1 d d' Hput)).
      rewrite (upd_run w1 i Hw1). eexists _, d'. split; [reflexivity|].
      cbn [vk vh vq vreq von]. split; [|done].
      assert (dsize d' = 2%nat) as Hd'.
      { specialize (Hel (le16 0)). simpl in Hel. symmetry.
        assert (2%nat = dsize d') as <-; [|done]. apply Hel. split; [apply le16_bytes|done]. }
      split; simpl; try done.
      * by apply (filter_ext _ s).
      * split; [done|done|by apply Forall_app; split; [|apply Forall_singleton]|].
        left. split; [done|]. by rewrite Hl', Hl, fmap_app.
      * simpl in Hcap. by rewrite Hcap.
      * intros Hlt'. by apply Z.ltb_lt.
      * congruence.
    + assert (vq v = []) as Hnil by (apply nil_length_inv; lia).
      eexists _, d. split; [reflexivity|]. cbn [vk vh vq vreq von]. split; [|done].
      split; simpl; try done.
      * by apply (filter_ext _ s).
      * split; [done|done|by apply Forall_app; split; [|apply Forall_singleton]|].
        right. rewrite Hnil in *. split_and!; [done|done|]. exists x. split; [by apply Hfs|done].
      * intros Hlt'. by apply Z.ltb_lt.
      * congruence.
  - rewrite (Hcold eq_refl) in *.
    assert (0 < vk v)%nat as Hk by (unfold warm in Hwarm; destruct (Nat.eqb_spec (vk v) 0); [done|lia]).
    rewrite Hrd by done. rewrite (proj2 (Nat.eqb_neq _ _)) by lia. cbn [negb andb]. change (0 =? 0) with true. cbv iota.
    destruct (smooth_run w1 i Hw1 (vk v) s1 d (vh v) x []) as
      (s' & d' & Hrun & Hf' & Hq' & (K1 & K2 & K3 & K4 & K5 & K6) & Hfr' & Hr' & [Hcap _]).
    { by apply (filter_ext _ s). }
    { done. }
    { split; [done|done|by apply Forall_singleton|]. right. split_and!; [done|done|].
      exists x. split; [by apply Hfs|done]. }
    exists s', d'. split; [exact Hrun|]. cbn [vk vh vq vreq von].
    cbn [s1 set_value_fresh op_pending blocking freerunning id logsmoothlen value_ptr reqsamples] in K1, K2, K3, K4, K6, Hr'.
    split; [|split; congruence].
    split; simpl; try congruence.
    + by apply (filter_ext _ s').
    + by apply (samples_ext w1 s').
    + simpl in Hcap. by rewrite Hcap.
    + intros Hlt'. by apply Z.ltb_lt.
Qed.

(** ** All channels *)

Context (NUM_ADC : nat) (HNUM : (NUM_ADC <= 32)%nat).

(** The channels of a mask, in order. *)
Definition members (m : Z) : list nat := List.filter (fun i => Z.testbit m (Z.of_nat i)) (seq 0 NUM_ADC).

(** Every channel is as its view says. *)
Record channels (w : adc) (c : nat -> view) : Prop := {
  sys_chan : forall i, (i < NUM_ADC)%nat -> exists s d, chan w i s d /\ rep (sample_buf (adc_dev_state w)) i s d (c i);
  sys_active : 0 <= ch_active (adc_dev_state w) < 2 ^ Z.of_nat NUM_ADC;
  sys_bits : forall i, (i < NUM_ADC)%nat -> Z.testbit (ch_active (adc_dev_state w)) (Z.of_nat i) = von (c i);
  sys_sample : length (sample_buf (adc_dev_state w)) = NUM_ADC
}.
(** The sequence is [sq], in memory and in the converter. *)
Record sequenced (w : adc) (sq : list nat) : Prop := {
  sq_state : ch_state (adc_dev_state w) = (Some <$> sq) ++ replicate (NUM_ADC - length sq) None;
  sq_len : seq_len (adc_dev_state w) = length sq;
  sq_last : sq = members (last_ch_active (adc_dev_state w));
  sq_mask : 0 <= last_ch_active (adc_dev_state w) < 2 ^ Z.of_nat NUM_ADC;
  sq_ptr : forall i s, In i sq -> adc_ch_state w !! i = Some s -> value_ptr s = Some i;
  sq_hw : hw_steps (hw w) = sq
}.
(** The converter runs or is off. *)
Definition runs (w : adc) (on : bool) : Prop :=
  running (adc_dev_state w) = (if on then 1 else 0) /\ hw_enabled (hw w) = on.

Definition fupd (c : nat -> view) (i : nat) (v : view) (j : nat) : view := if decide (j = i) then v else c j.

Lemma pow_bit i n : (n < 32)%nat -> Z.testbit (u32 (Z.shiftl 1 (Z.of_nat n))) (Z.of_nat i) = bool_decide (i = n).
Proof.
  intros Hn. rewrite Z.shiftl_1_l. rewrite u32_small.
  - rewrite Z.pow2_bits_eqb by lia. destruct (bool_decide_reflect (i = n)) as [->|Hne]; [apply Z.eqb_refl|].
    apply Z.eqb_neq. lia.
  - split; [apply Z.pow_nonneg; lia|]. apply Z.pow_lt_mono_r; lia.
Qed.
Lemma inactivate_bits i n d : (n < 32)%nat ->
  Z.testbit (ch_active (INACTIVATE_CHANNEL n d)) (Z.of_nat i)
  = Z.testbit (ch_active d) (Z.of_nat i) && negb (bool_decide (i = n)).
Proof. intros Hn. unfold INACTIVATE_CHANNEL. cbn [ch_active set_ch_active]. by rewrite Z.ldiff_spec, pow_bit. Qed.
Lemma activate_bits i n d : (n < 32)%nat ->
  Z.testbit (ch_active (ACTIVATE_CHANNEL n d)) (Z.of_nat i)
  = Z.testbit (ch_active d) (Z.of_nat i) || bool_decide (i = n).
Proof. intros Hn. unfold ACTIVATE_CHANNEL. cbn [ch_active set_ch_active]. by rewrite Z.lor_spec, pow_bit. Qed.
Lemma active_bit n d : (n < 32)%nat -> 0 <= ch_active d -> is_active n d = Z.testbit (ch_active d) (Z.of_nat n).
Proof.
  intros Hn H0. unfold is_active. set (m := Z.land _ _).
  assert (0 <= m) as Hm by (apply Z.land_nonneg; by left).
  assert (forall i, Z.testbit m (Z.of_nat i) = Z.testbit (ch_active d) (Z.of_nat i) && bool_decide (i = n)) as Hb
    by (intros i; unfold m; by rewrite Z.land_spec, pow_bit).
  destruct (Z.testbit (ch_active d) (Z.of_nat n)) eqn:E.
  - specialize (Hb n). rewrite E, bool_decide_true in Hb by done. rewrite Z.gtb_ltb. apply Z.ltb_lt.
    destruct (Z.eq_dec m 0) as [H|]; [|lia]. rewrite H, Z.bits_0 in Hb. done.
  - assert (m = 0) as ->; [|done]. apply Z.bits_inj_0. intros k. destruct (Z.neg_nonneg_cases k) as [Hk|Hk].
    + by apply Z.testbit_neg_r.
    + rewrite <- (Z2Nat.id k) by done. rewrite Hb. case_bool_decide as He; [|apply andb_false_r]. by rewrite He, E.
Qed.

(** Masks of this many bits are told apart by them. *)
Lemma mask_bits m : 0 <= m -> m < 2 ^ Z.of_nat NUM_ADC <-> forall i, (NUM_ADC <= i)%nat -> Z.testbit m (Z.of_nat i) = false.
Proof.
  intros H0. split.
  - intros Hm i Hi. destruct (Z.eq_dec m 0) as [->|]; [apply Z.bits_0|]. apply Z.bits_above_log2; [done|].
    apply Z.log2_lt_pow2; [lia|]. eapply Z.lt_le_trans; [exact Hm|]. apply Z.pow_le_mono_r; lia.
  - intros Hb. destruct (Z.lt_ge_cases m (2 ^ Z.of_nat NUM_ADC)) as [|Hge]; [done|].
    assert (0 < m) as Hm by (pose proof (Z.pow_pos_nonneg 2 (Z.of_nat NUM_ADC)); lia).
    assert (Z.testbit m (Z.log2 m) = true) as Ht by (by apply Z.bit_log2).
    rewrite <- (Z2Nat.id (Z.log2 m)) in Ht by apply Z.log2_nonneg.
    rewrite Hb in Ht; [done|]. apply Z.log2_le_pow2 in Hge; lia.
Qed.
Lemma in_members i m : In i (members m) <-> (i < NUM_ADC)%nat /\ Z.testbit m (Z.of_nat i) = true.
Proof. unfold members. rewrite filter_In, in_seq. split; intros []; split; try done; lia. Qed.
Lemma members_nil m : 0 <= m < 2 ^ Z.of_nat NUM_ADC -> members m = [] -> m = 0.
Proof.
  intros [H0 Hm] He. apply Z.bits_inj_0. intros k. destruct (Z.neg_nonneg_cases k) as [Hk|Hk]; [by apply Z.testbit_neg_r|].
  rewrite <- (Z2Nat.id k) by done. destruct (Z.testbit m _) eqn:E; [|done].
  destruct (Nat.lt_ge_cases (Z.to_nat k) NUM_ADC) as [Hi|Hi].
  - assert (In (Z.to_nat k) (members m)) as H by (by apply in_members). by rewrite He in H.
  - by rewrite (proj1 (mask_bits m H0) Hm) in E.
Qed.
Lemma members_NoDup m : NoDup (members m).
Proof. apply NoDup_ListNoDup, List.NoDup_filter, seq_NoDup. Qed.

(** ** One pass of the handler *)

Lemma stopped_chan w i s d j s' d' : chan w i s d -> chan w j s' d' ->
  chan (stopped i s w) j (if decide (j = i) then set_op_pending 0 s else s') d'.
Proof.
  intros [Hs Hd] [Hs' Hd']. split; [simpl|done]. case_decide as H.
  - subst. apply list_lookup_insert_eq. by apply lookup_lt_Some in Hs.
  - by rewrite list_lookup_insert_ne.
Qed.
(** Only the flag of activity differs from the view's [von]. *)
Lemma rep_stopped sb i s d v : rep sb i (set_op_pending (if von v then 1 else 0) s) d v -> op_pending s = 1 ->
  rep sb i (if von v then s else set_op_pending 0 s) d v.
Proof.
  intros H Hp. destruct (von v); [|done]. by destruct s; unfold set_op_pending in *; cbn in *; subst.
Qed.

(** The state after a pass, for the channel's new record and buffer. *)
Definition passed (i : nat) (s : ch) (d : buf_desc) (x : Z) (on : bool) (w : adc) : adc :=
  let w1 := set_chan i s d (put_sample i x w) in
  with_dev (fun d => set_seq_ctr (S (seq_ctr d)) d) (if on then w1 else stopped i s w1).

Lemma current_run w i : ch_state (adc_dev_state w) !! seq_ctr (adc_dev_state w) = Some (Some i) ->
  forall s d, chan w i s d -> current_ch w = Some (s, w).
Proof.
  intros Hc s d [Hs _]. unfold current_ch, current, adc_get_dev_state, pure, mbind, M_bind. simpl.
  rewrite Hc. simpl. unfold adc_get_ch_state. by rewrite Hs.
Qed.

Lemma pass_run w i s d v tmp x :
  ch_state (adc_dev_state w) !! seq_ctr (adc_dev_state w) = Some (Some i) ->
  chan w i s d -> rep (sample_buf (adc_dev_state w)) i s d v -> von v = true ->
  value_ptr s = Some i -> (i < length (sample_buf (adc_dev_state w)))%nat ->
  tmp !! seq_ctr (adc_dev_state w) = Some x ->
  let v' := convert (u16 x) v in
  exists s' d', handle_sample true NU NV tmp w = Some ((), passed i s' d' (u16 x) (von v') w) /\
    rep (<[i := u16 x]> (sample_buf (adc_dev_state w))) i (if von v' then s' else set_op_pending 0 s') d' v' /\
    value_ptr s' = Some i.
Proof.
  intros Hc Hch Hrep Hon Hptr Hi Hx v'. pose proof (present_chan w i s d Hch) as Hw.
  set (w1 := put_sample i (u16 x) w). pose proof (present_with_dev w _ i Hw : present w1 i) as Hw1.
  destruct (new_sample_run w i s d (u16 x) v Hw (u16_is_u16 x) Hrep Hon Hptr Hi)
    as (s' & d' & Hrun & Hrep' & Hpend & Hptr'). fold w1 in Hrun. fold v' in Hrep'.
  exists s', d'. split; [|split; [by apply rep_stopped|done]].
  unfold handle_sample. rewrite (M_bind_run _ _ _ _ _ (current_run w i Hc s d Hch)).
  unfold adc_get_dev_state at 1. rewrite (M_bind_run (fun w => Some (adc_dev_state w, w)) _ w _ w eq_refl).
  rewrite (M_bind_run (pure _) _ w x w) by (unfold pure; by rewrite Hx).
  rewrite (rep_id _ _ _ _ _ Hrep).
  rewrite (M_bind_run (pure _) _ w (<[i := u16 x]> (sample_buf (adc_dev_state w))) w)
    by (unfold pure, put; by rewrite decide_True).
  rewrite (M_bind_run (upd_dev (set_sample_buf (<[i := u16 x]> (sample_buf (adc_dev_state w))))) _ w () w1 eq_refl).
  rewrite <- (set_same w1 i s d) at 1 by by apply chan_with_dev.
  rewrite (M_bind_run _ _ _ _ _ (upd_run w1 i Hw1 _ s d)).
  rewrite (M_bind_run _ _ _ _ _ (get_run w1 i Hw1 _ d)).
  rewrite (M_bind_run _ _ _ _ _ Hrun).
  assert (Hq : samples (sample_buf (adc_dev_state w1)) s' d' (vq v'))
    by (apply (samples_ext w1 (set_op_pending (if von v' then 1 else 0) s')); try done; apply Hrep').
  rewrite (M_bind_run _ _ _ _ _ (available_run w1 i Hw1 s' d' (vq v') Hq)).
  rewrite (M_bind_run _ _ _ _ _ (get_run w1 i Hw1 s' d')).
  assert (reqsamples s' = vreq v') as -> by apply (rep_req _ _ _ _ _ Hrep').
  assert (freerunning s' = 0) as -> by apply (rep_once _ _ _ _ _ Hrep').
  change (0 =? 0) with true. rewrite andb_true_r.
  assert (von v' = (Z.of_nat (length (vq v')) <? vreq v')) as Hvon
    by (unfold v', convert; by destruct (warm (vk v) (vh v))).
  rewrite Z.geb_leb, (Z.leb_antisym _ (vreq v')), <- Hvon. unfold passed. fold w1.
  destruct (von v'); cbn [negb when]; [done|].
  by rewrite (M_bind_run _ _ _ _ _ (stop_run _ i s' d' (chan_set w1 i s' d' Hw1))).
Qed.

Lemma rep_frame sb i j x s d v : rep sb j s d v -> i <> j -> rep (<[i := x]> sb) j s d v.
Proof.
  intros [Hid Hp Hf [Hok Hd Hu Hq] Hreq Hroom Hfr Hfree Hblk Hpend Hv Hcold] Hij. split; try done. split; try done.
  destruct Hq as [?|(? & ? & y & (p & Hp1 & Hp2) & ->)]; [by left|right]. split_and!; [done|done|].
  exists y. split; [|done]. exists p. split; [done|]. rewrite list_lookup_insert_ne; [done|].
  by rewrite (Hp p Hp1).
Qed.

(** The parts of the device a pass leaves alone. *)
Lemma passed_dev i s d x on w : let dv := adc_dev_state w in let dv' := adc_dev_state (passed i s d x on w) in
  ch_state dv' = ch_state dv /\ seq_len dv' = seq_len dv /\ last_ch_active dv' = last_ch_active dv /\
  seq_ctr dv' = S (seq_ctr dv) /\ sample_buf dv' = <[i := x]> (sample_buf dv) /\
  ch_active dv' = (if on then ch_active dv else ch_active (INACTIVATE_CHANNEL i dv)).
Proof. unfold passed, stopped. destruct on; [done|]. simpl. by destruct (_ =? 0). Qed.
Lemma passed_runs i s d x (on : bool) w : runs w true -> ch_active (adc_dev_state w) <> 0 ->
  runs (passed i s d x on w) (negb (ch_active (adc_dev_state (passed i s d x on w)) =? 0)) /\
  hw_steps (hw (passed i s d x on w)) = hw_steps (hw w).
Proof.
  intros [Hr Hh] H0. destruct (passed_dev i s d x on w) as (_ & _ & _ & _ & _ & ->).
  destruct on; [rewrite (proj2 (Z.eqb_neq _ _) H0); done|].
  unfold runs, passed, stopped. set (z := ch_active (INACTIVATE_CHANNEL i (adc_dev_state w))).
  change (ch_active (INACTIVATE_CHANNEL i (adc_dev_state (set_chan i s d (put_sample i x w))))) with z.
  by destruct (z =? 0).
Qed.
Lemma passed_self w i s0 d0 s d x (on : bool) : chan w i s0 d0 ->
  chan (passed i s d x on w) i (if on then s else set_op_pending 0 s) d.
Proof.
  intros Hch. pose proof (present_with_dev w (fun dv => set_sample_buf (<[i := x]> (sample_buf dv)) dv) i (present_chan w i _ _ Hch)) as Hp.
  apply chan_with_dev. destruct on.
  - by apply chan_set.
  - pose proof (chan_set _ i s d Hp) as H. pose proof (stopped_chan _ i s d i s d H H) as H'.
    by rewrite decide_True in H'.
Qed.
Lemma passed_other w i j s0 d0 s d s' d' x (on : bool) : chan w i s0 d0 -> i <> j -> chan w j s' d' ->
  chan (passed i s d x on w) j s' d'.
Proof.
  intros Hch Hij Hj. pose proof (present_with_dev w (fun dv => set_sample_buf (<[i := x]> (sample_buf dv)) dv) i (present_chan w i _ _ Hch)) as Hp.
  apply chan_with_dev. assert (chan (set_chan i s d (put_sample i x w)) j s' d') as Hj'
    by (apply chan_set_ne; [done|by apply chan_with_dev]).
  destruct on; [done|].
  pose proof (stopped_chan _ i s d j s' d' (chan_set _ i s d Hp) Hj') as H'. by rewrite decide_False in H' by done.
Qed.

Lemma active_some w c i : channels w c -> (i < NUM_ADC)%nat -> von (c i) = true -> ch_active (adc_dev_state w) <> 0.
Proof. intros Hc Hi Hon H0. pose proof (sys_bits _ _ Hc i Hi) as H. by rewrite H0, Z.bits_0, Hon in H. Qed.

Lemma pass_channels w c sq i tmp x : channels w c -> sequenced w sq -> runs w true ->
  sq !! seq_ctr (adc_dev_state w) = Some i -> von (c i) = true ->
  tmp !! seq_ctr (adc_dev_state w) = Some x ->
  exists w', handle_sample true NU NV tmp w = Some ((), w') /\
    channels w' (fupd c i (convert (u16 x) (c i))) /\ sequenced w' sq /\
    runs w' (negb (ch_active (adc_dev_state w') =? 0)) /\
    seq_ctr (adc_dev_state w') = S (seq_ctr (adc_dev_state w)).
Proof.
  intros Hc Hsq Hr Hpos Hon Hx.
  assert (In i sq) as Hin by (apply list_elem_of_In; by apply list_elem_of_lookup_2 in Hpos).
  assert (i < NUM_ADC)%nat as Hi by (rewrite (sq_last _ _ Hsq) in Hin; by apply in_members in Hin as [? _]).
  destruct (sys_chan _ _ Hc i Hi) as (s & d & Hch & Hrep).
  destruct (pass_run w i s d (c i) tmp x) as (s' & d' & Hrun & Hrep' & Hptr'); try done.
  { rewrite (sq_state _ _ Hsq). apply lookup_app_l_Some. by rewrite list_lookup_fmap, Hpos. }
  { apply (sq_ptr _ _ Hsq i s Hin), Hch. }
  { by rewrite (sys_sample _ _ Hc). }
  set (v' := convert (u16 x) (c i)) in *.
  destruct (passed_dev i s' d' (u16 x) (von v') w) as (E1 & E2 & E3 & E4 & E5 & E6).
  destruct (passed_runs i s' d' (u16 x) (von v') w Hr (active_some w c i Hc Hi Hon)) as [R1 R2].
  exists (passed i s' d' (u16 x) (von v') w). split_and!; [exact Hrun| | |exact R1|exact E4].
  - split.
    + intros j Hj. unfold fupd. rewrite E5. case_decide as Hji.
      * subst j. eexists _, d'. split; [by eapply passed_self|exact Hrep'].
      * destruct (sys_chan _ _ Hc j Hj) as (sj & dj & Hchj & Hrepj). exists sj, dj.
        split; [by eapply passed_other; eauto|]. by apply rep_frame.
    + rewrite E6. destruct (von v'); [apply Hc|]. unfold INACTIVATE_CHANNEL. cbn [ch_active set_ch_active].
      pose proof (sys_active _ _ Hc) as [H0 Hlt].
      assert (0 <= Z.ldiff (ch_active (adc_dev_state w)) (u32 (Z.shiftl 1 (Z.of_nat i)))) as H1
        by (apply Z.ldiff_nonneg; by left).
      split; [done|]. apply mask_bits; [done|]. intros j Hj. rewrite Z.ldiff_spec.
      by rewrite (proj1 (mask_bits _ H0) Hlt j Hj).
    + intros j Hj. rewrite E6. unfold fupd. destruct (von v') eqn:Ev.
      * rewrite (sys_bits _ _ Hc j Hj). case_decide as H; [by rewrite Ev, H|done].
      * rewrite inactivate_bits by lia. rewrite (sys_bits _ _ Hc j Hj).
        case_decide as H; [rewrite bool_decide_true by done; rewrite Ev; apply andb_false_r|].
        rewrite bool_decide_false by done. apply andb_true_r.
    + rewrite E5, length_insert. apply Hc.
  - split; [by rewrite E1; apply Hsq|by rewrite E2; apply Hsq|by rewrite E3; apply Hsq|rewrite E3; apply Hsq| |by rewrite R2; apply Hsq].
    intros j sj Hj Hl. destruct (decide (j = i)) as [->|Hji].
    + pose proof (chan_ch _ _ _ _ (passed_self w i s d s' d' (u16 x) (von v') Hch)) as H.
      rewrite H in Hl. injection Hl as <-. by destruct (von v').
    + assert (j < NUM_ADC)%nat as Hj' by (rewrite (sq_last _ _ Hsq) in Hj; by apply in_members in Hj as [? _]).
      destruct (sys_chan _ _ Hc j Hj') as (sj' & dj & Hchj & _).
      pose proof (chan_ch _ _ _ _ (passed_other w i j s d s' d' sj' dj (u16 x) (von v') Hch (fun H => Hji (eq_sym H)) Hchj)) as H.
      rewrite H in Hl. injection Hl as <-. apply (sq_ptr _ _ Hsq j sj' Hj), Hchj.
Qed.

(** ** The loop over the sequence *)

Definition convert_all (l : list nat) (m : nat -> Z) (c : nat -> view) (i : nat) : view :=
  if decide (i ∈ l) then convert (u16 (m i)) (c i) else c i.

Lemma channels_ext w c c' : (forall i, (i < NUM_ADC)%nat -> c i = c' i) -> channels w c -> channels w c'.
Proof.
  intros He [H1 H2 H3 H4]. split; [|done| |done].
  - intros i Hi. rewrite <- He by done. by apply H1.
  - intros i Hi. rewrite <- He by done. by apply H3.
Qed.

Lemma passes_channels sq m : NoDup sq -> forall n w c,
  channels w c -> sequenced w sq -> runs w (negb (ch_active (adc_dev_state w) =? 0)) ->
  (seq_ctr (adc_dev_state w) + n = length sq)%nat ->
  (forall i, i ∈ drop (seq_ctr (adc_dev_state w)) sq -> von (c i) = true) ->
  exists w', handle_samples true NU NV n (m <$> sq) w = Some ((), w') /\
    channels w' (convert_all (drop (seq_ctr (adc_dev_state w)) sq) m c) /\ sequenced w' sq /\
    runs w' (negb (ch_active (adc_dev_state w') =? 0)).
Proof.
  intros Hnd. induction n as [|n IH]; intros w c Hc Hsq Hr Hn Hon.
  - exists w. split_and!; try done. rewrite drop_ge by lia. by apply (channels_ext w c).
  - destruct (lookup_lt_is_Some_2 sq (seq_ctr (adc_dev_state w))) as [i Hi]; [lia|].
    rewrite (drop_S sq i _ Hi) in Hon |- *.
    assert (i < NUM_ADC)%nat as Hlt.
    { apply list_elem_of_lookup_2, list_elem_of_In in Hi. rewrite (sq_last _ _ Hsq) in Hi.
      by apply in_members in Hi as [? _]. }
    assert (von (c i) = true) as Hoi by (apply Hon, list_elem_of_here).
    assert (i ∉ drop (S (seq_ctr (adc_dev_state w))) sq) as Hni.
    { rewrite <- (take_drop (seq_ctr (adc_dev_state w)) sq), (drop_S sq i _ Hi), NoDup_app in Hnd.
      destruct Hnd as (_ & _ & Hd). by apply NoDup_cons in Hd as [? _]. }
    rewrite (proj2 (Z.eqb_neq _ _) (active_some w c i Hc Hlt Hoi)) in Hr. cbn [negb] in Hr.
    destruct (pass_channels w c sq i (m <$> sq) (m i) Hc Hsq Hr Hi Hoi) as (w1 & Hrun & Hc1 & Hsq1 & Hr1 & Hctr).
    { by rewrite list_lookup_fmap, Hi. }
    destruct (IH w1 _ Hc1 Hsq1 Hr1) as (w' & Hrun' & Hc' & Hsq' & Hr'); rewrite ?Hctr in *.
    + lia.
    + intros j Hj. unfold fupd. case_decide as H; [by subst|]. by apply Hon, list_elem_of_further.
    + exists w'. split_and!; [|eapply channels_ext; [|exact Hc']|done|done].
      * cbn [handle_samples]. by rewrite (M_bind_run _ _ _ _ _ Hrun).
      * intros j _. unfold convert_all, fupd. destruct (decide (j = i)) as [->|Hji].
        -- rewrite decide_False by done. rewrite decide_True by (apply list_elem_of_here). done.
        -- destruct (decide (j ∈ drop (S _) sq)) as [H|H].
           ++ by rewrite decide_True by (by apply list_elem_of_further).
           ++ rewrite decide_False; [done|]. rewrite elem_of_cons; by intros [?|?].
Qed.

(** ** A new sequence *)

Definition called (x : hw_call) (w : adc) : adc :=
  Adc (adc_ch_state w) (adc_dev_state w) (bufs w) (x :: hw w).
Lemma bind_dev {B} (k : dev -> M adc B) w : (adc_get_dev_state ≫= k) w = k (adc_dev_state w) w.
Proof. done. Qed.
Lemma bind_upd {B} f (k : unit -> M adc B) w : (upd_dev f ≫= k) w = k () (with_dev f w).
Proof. done. Qed.
Lemma bind_call {B} x (k : unit -> M adc B) w : (call x ≫= k) w = k () (called x w).
Proof. done. Qed.
Lemma bind_pure {A B} (x : A) (k : A -> M adc B) w : (pure (Some x) ≫= k) w = k x w.
Proof. done. Qed.

(** A channel that converts has no fresh sample. *)
Lemma on_not_fresh sb i s d v : rep sb i s d v -> von v = true -> value_fresh s = 0.
Proof.
  intros Hrep Hon. pose proof (rep_on _ _ _ _ _ Hrep Hon) as Hlt.
  destruct (q_list _ _ _ _ (rep_samples _ _ _ _ _ Hrep)) as [[? _]|(H1 & _ & y & _ & Hy)]; [done|].
  pose proof (rep_fresh _ _ _ _ _ Hrep H1). rewrite Hy in Hlt. simpl in Hlt. lia.
Qed.
Definition joined (s : ch) : ch := set_value_fresh 0 (set_value_ptr (Some (id s)) s).
Lemma rep_joined sb i s d v : rep sb i s d v -> von v = true -> rep sb i (joined s) d v.
Proof.
  intros Hrep Hon. pose proof (on_not_fresh _ _ _ _ _ Hrep Hon) as H0.
  destruct Hrep as [Hid Hp Hf [Hok Hd Hu Hq] Hreq Hroom Hfr Hfree Hblk Hpend Hv Hcold]. split; try done.
  - unfold joined. simpl. intros p [= <-]. done.
  - by apply (filter_ext _ s).
  - split; try done. left. destruct Hq as [[? ?]|[? _]]; [done|congruence].
Qed.

(** What collecting does to the rest of the state. *)
Record collected (w w' : adc) : Prop := {
  co_dev : exists l n, adc_dev_state w' = set_seq l n (seq_len (adc_dev_state w)) (adc_dev_state w) /\
    length l = length (ch_state (adc_dev_state w));
  co_hw : hw w' = hw w
}.
Lemma collected_trans w1 w2 w3 : collected w1 w2 -> collected w2 w3 -> collected w1 w3.
Proof.
  intros [(l1 & n1 & H1 & L1) E1] [(l2 & n2 & H2 & L2) E2]. split; [|congruence]. exists l2, n2.
  rewrite H2, H1. split; [done|]. rewrite L2, H1. exact L1.
Qed.
Lemma collected_channels w w' c : collected w w' -> channels w c ->
  (forall i, (i < NUM_ADC)%nat -> exists s d, chan w' i s d /\ rep (sample_buf (adc_dev_state w)) i s d (c i)) ->
  channels w' c.
Proof.
  intros [(l & n & Hd & _) _] [_ H2 H3 H4] H. split; rewrite Hd; [exact H|exact H2|exact H3|exact H4].
Qed.

Lemma channels_with_dev w f c : sample_buf (f (adc_dev_state w)) = sample_buf (adc_dev_state w) ->
  ch_active (f (adc_dev_state w)) = ch_active (adc_dev_state w) -> channels w c -> channels (with_dev f w) c.
Proof.
  intros Es Ea [H1 H2 H3 H4]. split; simpl; rewrite ?Es, ?Ea; try done.
  intros i Hi. destruct (H1 i Hi) as (s & d & Hch & Hrep). exists s, d. split; [by apply chan_with_dev|done].
Qed.

Lemma join_run w c i : channels w c -> (i < NUM_ADC)%nat -> von (c i) = true ->
  exists s w', upd_ch i joined w = Some ((), w') /\ adc_ch_state w' !! i = Some s /\
    id s = i /\ value_ptr s = Some i /\
    (forall j, j <> i -> adc_ch_state w' !! j = adc_ch_state w !! j) /\ channels w' c /\
    adc_dev_state w' = adc_dev_state w /\ hw w' = hw w.
Proof.
  intros Hc Hi Hon. destruct (sys_chan _ _ Hc i Hi) as (s & d & Hch & Hrep).
  pose proof (present_chan w i s d Hch) as Hp. exists (joined s), (set_chan i (joined s) d w).
  split_and!; try done.
  - rewrite <- (set_same w i s d Hch) at 1. by rewrite (upd_run w i Hp).
  - apply (chan_set w i _ d Hp).
  - apply (rep_id _ _ _ _ _ Hrep).
  - simpl. by rewrite (rep_id _ _ _ _ _ Hrep).
  - intros j Hj. simpl. by rewrite list_lookup_insert_ne.
  - split; try apply Hc. intros j Hj. destruct (decide (j = i)) as [->|Hji].
    + exists (joined s), d. split; [by apply chan_set|by apply rep_joined].
    + destruct (sys_chan _ _ Hc j Hj) as (sj & dj & Hchj & Hrepj). exists sj, dj.
      split; [by apply chan_set_ne|done].
Qed.

Definition selected (w : adc) (ids : list nat) : list nat :=
  List.filter (fun i => Z.testbit (ch_active (adc_dev_state w)) (Z.of_nat i)) ids.

Lemma collect_run previd c ids : forall w done tmp, channels w c ->
  (forall i, In i ids -> (i < NUM_ADC)%nat) ->
  (forall i s, In i done -> adc_ch_state w !! i = Some s -> value_ptr s = Some i) ->
  length (ch_state (adc_dev_state w)) = NUM_ADC -> (length done + length ids <= NUM_ADC)%nat ->
  seq_ctr (adc_dev_state w) = length done -> take (length done) (ch_state (adc_dev_state w)) = Some <$> done ->
  exists w' tmp', collect previd ids tmp w = Some (tmp', w') /\ collected w w' /\ channels w' c /\
    (forall i s, In i (done ++ selected w ids) -> adc_ch_state w' !! i = Some s -> value_ptr s = Some i) /\
    seq_ctr (adc_dev_state w') = length (done ++ selected w ids) /\
    take (length (done ++ selected w ids)) (ch_state (adc_dev_state w')) = Some <$> (done ++ selected w ids) /\
    ((tmp < NUM_ADC)%nat -> (tmp' < NUM_ADC)%nat).
Proof.
  induction ids as [|i ids IH]; intros w done tmp Hc Hids Hptr Hl Hlen Hctr Htake.
  - exists w, tmp. simpl. rewrite app_nil_r. split_and!; try done.
    split; [|done]. exists (ch_state (adc_dev_state w)), (seq_ctr (adc_dev_state w)). split; [|done].
    by destruct (adc_dev_state w).
  - simpl in Hlen. pose proof (Hids i (or_introl eq_refl)) as Hi. cbn [collect].
    rewrite bind_dev, active_bit by (lia || apply Hc). unfold selected. cbn [List.filter].
    destruct (Z.testbit (ch_active (adc_dev_state w)) (Z.of_nat i)) eqn:Ei.
    2:{ apply IH; try done; [|lia]. intros j Hj. apply Hids. by right. }
    unfold set_current, put. rewrite decide_True by lia. rewrite bind_pure, bind_upd.
    set (l := <[seq_ctr (adc_dev_state w) := Some i]> (ch_state (adc_dev_state w))).
    set (w1 := with_dev _ w).
    assert (channels w1 c) as Hc1 by (by apply channels_with_dev).
    destruct (join_run w1 c i Hc1 Hi) as (s & w2 & Hrun & Hs & Hid & Hp & Hne & Hc2 & Hdev & Hhw);
      [by rewrite <- (sys_bits _ _ Hc i Hi)|].
    change (upd_ch i _ w1) with (upd_ch i joined w1) in Hrun.
    rewrite (M_bind_run _ _ _ _ _ Hrun).
    rewrite (M_bind_run (adc_get_ch_state i) _ w2 s w2) by (unfold adc_get_ch_state; by rewrite Hs).
    rewrite bind_upd. rewrite Hid. set (w3 := with_dev _ w2).
    assert (Hd3 : adc_dev_state w3 = set_seq l (S (seq_ctr (adc_dev_state w))) (seq_len (adc_dev_state w)) (adc_dev_state w))
      by (unfold w3; simpl; rewrite Hdev; done).
    assert (length l = NUM_ADC) as Hl' by (unfold l; by rewrite length_insert).
    destruct (IH w3 (done ++ [i]) (if Z.of_nat i =? previd then seq_ctr (adc_dev_state w) else tmp))
      as (w' & tmp' & Hrun' & Hco & Hc' & Hptr' & Hctr' & Htake' & Htmp').
    + by apply channels_with_dev.
    + intros j Hj. apply Hids. by right.
    + intros j sj Hj. change (adc_ch_state w3) with (adc_ch_state w2).
      destruct (decide (j = i)) as [->|Hji]; [congruence|]. rewrite Hne by done. apply Hptr.
      apply in_app_or in Hj as [Hj|[Hj|[]]]; [exact Hj|congruence].
    + by rewrite Hd3.
    + rewrite length_app. simpl. lia.
    + rewrite Hd3, length_app. simpl. lia.
    + rewrite Hd3, length_app, fmap_app, <- Htake. simpl. rewrite Nat.add_1_r.
      unfold l. rewrite Hctr, (take_S_r _ _ (Some i)) by (apply list_lookup_insert_eq; lia).
      by rewrite take_insert_ge by lia.
    + exists w', tmp'. rewrite <- app_assoc in Hptr', Hctr', Htake'.
      assert (selected w3 ids = List.filter (fun i => Z.testbit (ch_active (adc_dev_state w)) (Z.of_nat i)) ids) as Hsel
        by (unfold selected; by rewrite Hd3).
      rewrite Hsel in Hptr', Hctr', Htake'. split_and!; try done.
      * eapply collected_trans; [|exact Hco]. split; [|exact Hhw]. exists l, (S (seq_ctr (adc_dev_state w))).
        split; [exact Hd3|]. by rewrite Hl'.
      * intros Ht. apply Htmp'. destruct (_ =? _); [lia|done].
Qed.

Lemma null_out_run n : forall w, (seq_ctr (adc_dev_state w) + n = length (ch_state (adc_dev_state w)))%nat ->
  exists w', null_out n w = Some ((), w') /\ adc_ch_state w' = adc_ch_state w /\ bufs w' = bufs w /\ hw w' = hw w /\
    exists l, adc_dev_state w' = set_seq l (length l) (seq_len (adc_dev_state w)) (adc_dev_state w) /\
      l = take (seq_ctr (adc_dev_state w)) (ch_state (adc_dev_state w)) ++ replicate n None.
Proof.
  induction n as [|n IH]; intros w Hn; cbn [null_out].
  - exists w. split_and!; try done. eexists. split; [|done]. simpl. rewrite app_nil_r, take_ge by lia.
    destruct (adc_dev_state w); simpl in *. unfold set_seq. simpl. f_equal. lia.
  - rewrite bind_dev. unfold set_current, put. rewrite decide_True by lia. rewrite bind_pure, bind_upd.
    set (w1 := with_dev _ w). destruct (IH w1) as (w' & Hrun & E1 & E2 & E3 & l & Hd & Hl).
    { simpl. rewrite length_insert. lia. }
    exists w'. split_and!; try done. exists l. split; [exact Hd|]. rewrite Hl. simpl.
    rewrite (take_S_r _ _ None) by (apply list_lookup_insert_eq; lia).
    by rewrite take_insert_ge, <- app_assoc by lia.
Qed.

(** *** Setting the converter up *)

Record stepped (w w' : adc) (n : nat) : Prop := {
  st_ch : adc_ch_state w' = adc_ch_state w;
  st_bufs : bufs w' = bufs w;
  st_dev : adc_dev_state w' = set_seq_ctr n (adc_dev_state w)
}.
Lemma stepped_with w w' n c : stepped w w' n -> channels w c -> channels w' c.
Proof.
  intros [E1 E2 E3] [H1 H2 H3 H4]. split; rewrite ?E3; try done. intros i Hi.
  destruct (H1 i Hi) as (s & d & [Hs Hd] & Hrep). exists s, d. split; [|done]. split; congruence.
Qed.
Lemma take_snoc_eq (l sq : list nat) n i : take n l = take n sq -> sq !! n = Some i ->
  take n l ++ [i] = take (S n) sq.
Proof. intros -> Hi. by rewrite (take_S_r _ _ i). Qed.

Lemma steps_run c sq rest n : forall w, channels w c -> (forall i, i ∈ sq -> (i < NUM_ADC)%nat) ->
  ch_state (adc_dev_state w) = (Some <$> sq) ++ rest -> (seq_ctr (adc_dev_state w) + n < length sq)%nat ->
  take (seq_ctr (adc_dev_state w)) (hw_steps (hw w)) = take (seq_ctr (adc_dev_state w)) sq ->
  exists w', platform_steps n w = Some ((), w') /\ stepped w w' (seq_ctr (adc_dev_state w) + n) /\
    take (seq_ctr (adc_dev_state w) + n) (hw_steps (hw w')) = take (seq_ctr (adc_dev_state w) + n) sq.
Proof.
  induction n as [|n IH]; intros w Hc Hsq Hst Hn Ht; cbn [platform_steps].
  - exists w. rewrite Nat.add_0_r. split_and!; try done. split; try done. by destruct (adc_dev_state w).
  - destruct (lookup_lt_is_Some_2 sq (seq_ctr (adc_dev_state w))) as [i Hi]; [lia|].
    assert (ch_state (adc_dev_state w) !! seq_ctr (adc_dev_state w) = Some (Some i)) as Hcur
      by (rewrite Hst; apply lookup_app_l_Some; by rewrite list_lookup_fmap, Hi).
    destruct (sys_chan _ _ Hc i) as (s & d & Hch & Hrep);
      [apply Hsq; by apply list_elem_of_lookup_2 in Hi|].
    rewrite (M_bind_run _ _ _ _ _ (current_run w i Hcur s d Hch)), bind_dev, bind_call, bind_upd.
    rewrite (rep_id _ _ _ _ _ Hrep). set (w1 := with_dev _ _).
    assert (stepped w w1 (S (seq_ctr (adc_dev_state w)))) as Hs1 by done.
    destruct (IH w1) as (w' & Hrun & [E1 E2 E3] & Ht').
    + by eapply stepped_with.
    + done.
    + done.
    + simpl. lia.
    + simpl. rewrite Ht. rewrite <- (take_snoc_eq sq sq _ i) by done. apply take_ge.
      rewrite length_app, length_take. simpl. lia.
    + exists w'. simpl in E1, E2, E3, Ht'. rewrite <- plus_n_Sm. split_and!; [exact Hrun|by split|exact Ht'].
Qed.

Lemma update_hw_run w c sq rest : channels w c -> (forall i, i ∈ sq -> (i < NUM_ADC)%nat) -> sq <> [] ->
  ch_state (adc_dev_state w) = (Some <$> sq) ++ rest -> seq_len (adc_dev_state w) = length sq ->
  exists w', platform_adc_update_sequence w = Some (PLATFORM_OK, w') /\ stepped w w' 0 /\
    hw_steps (hw w') = sq /\ hw_enabled (hw w') = true.
Proof.
  intros Hc Hsq Hne Hst Hlen. unfold platform_adc_update_sequence. rewrite bind_dev, bind_call, bind_upd, Hlen.
  assert (0 < length sq)%nat as Hpos by (destruct sq; [done|simpl; lia]).
  set (w1 := with_dev _ _). assert (stepped w w1 0) as Hs1 by done.
  pose proof (stepped_with _ _ _ _ Hs1 Hc) as Hc1.
  destruct (steps_run c sq rest (length sq - 1) w1 Hc1 Hsq Hst) as (w2 & Hrun & Hs2 & Ht); [simpl; lia|done|].
  simpl in Hs2, Ht. rewrite (M_bind_run _ _ _ _ _ Hrun).
  pose proof (stepped_with _ _ _ _ Hs2 Hc1) as Hc2. destruct Hs2 as [E1 E2 E3].
  destruct (lookup_lt_is_Some_2 sq (length sq - 1)) as [i Hi]; [lia|].
  assert (ch_state (adc_dev_state w2) !! seq_ctr (adc_dev_state w2) = Some (Some i)) as Hcur.
  { rewrite E3. simpl. rewrite Hst. apply lookup_app_l_Some. by rewrite list_lookup_fmap, Hi. }
  destruct (sys_chan _ _ Hc2 i) as (s & d & Hch & Hrep); [apply Hsq; by apply list_elem_of_lookup_2 in Hi|].
  rewrite (M_bind_run _ _ _ _ _ (current_run w2 i Hcur s d Hch)), bind_dev, bind_call, bind_upd, bind_call.
  rewrite (rep_id _ _ _ _ _ Hrep). eexists. split; [reflexivity|]. split_and!; [|simpl|done].
  - split; simpl; [exact E1|exact E2|]. by rewrite E3.
  - rewrite E3. simpl. rewrite (take_snoc_eq _ _ _ _ Ht Hi). rewrite take_ge; [done|]. lia.
Qed.

(** *** The new sequence *)

Lemma selected_members w : selected w (seq 0 NUM_ADC) = members (ch_active (adc_dev_state w)).
Proof. done. Qed.

Lemma resequence_run null_id w c : channels w c -> length (ch_state (adc_dev_state w)) = NUM_ADC ->
  (seq_ctr (adc_dev_state w) < NUM_ADC)%nat ->
  (forall i, In (Some i) (ch_state (adc_dev_state w)) -> (i < NUM_ADC)%nat) ->
  ch_active (adc_dev_state w) <> 0 ->
  negb (ch_active (adc_dev_state w) =? last_ch_active (adc_dev_state w)) || (force_reseq (adc_dev_state w) =? 1) = true ->
  exists w', adc_update_dev_sequence NUM_ADC null_id w = Some ((), w') /\ channels w' c /\
    sequenced w' (members (ch_active (adc_dev_state w))) /\ hw_enabled (hw w') = true /\
    running (adc_dev_state w') = running (adc_dev_state w) /\
    ch_active (adc_dev_state w') = ch_active (adc_dev_state w) /\
    (seq_ctr (adc_dev_state w') < NUM_ADC)%nat.
Proof.
  intros Hc Hl Hctr Hin H0 Hnew. unfold adc_update_dev_sequence.
  destruct (lookup_lt_is_Some_2 (ch_state (adc_dev_state w)) (seq_ctr (adc_dev_state w))) as [p Hp]; [lia|].
  rewrite (M_bind_run current _ w p w)
    by (unfold current, adc_get_dev_state, pure, mbind, M_bind; simpl; by rewrite Hp).
  assert (exists previd, match p with Some i => s ← adc_get_ch_state i; mret (Z.of_nat (id s)) | None => mret null_id end w
    = Some (previd, w)) as [previd Hprev].
  { destruct p as [i|]; [|by eexists]. destruct (sys_chan _ _ Hc i) as (s & d & [Hs _] & _).
    - apply Hin, list_elem_of_In. by apply list_elem_of_lookup_2 in Hp.
    - exists (Z.of_nat (id s)). unfold adc_get_ch_state, mbind, M_bind. by rewrite Hs. }
  rewrite (M_bind_run _ _ _ _ _ Hprev), bind_dev, Hnew. unfold when. rewrite bind_upd.
  set (w1 := with_dev _ w). pose proof (sys_active _ _ Hc) as Hmask.
  assert (channels w1 c) as Hc1 by (by apply channels_with_dev).
  assert (0 < NUM_ADC)%nat as Hpos by lia.
  destruct (collect_run previd c (seq 0 NUM_ADC) w1 [] 0%nat Hc1) as
    (w2 & tmp & Hrun & [(l2 & n2 & Hd2 & Hl2) Hh2] & Hc2 & Hptr & Hctr2 & Htake & Htmp).
  { intros i Hi. apply in_seq in Hi. lia. }
  { done. }
  { done. }
  { rewrite length_seq. simpl. lia. }
  { done. }
  { by rewrite take_0. }
  rewrite (M_bind_run _ _ _ _ _ Hrun), bind_upd. simpl app in Hptr, Hctr2, Htake.
  rewrite selected_members in Hptr, Hctr2, Htake. change (ch_active (adc_dev_state w1)) with (ch_active (adc_dev_state w)) in *.
  set (sq := members (ch_active (adc_dev_state w))) in *. set (w3 := with_dev _ w2). rewrite bind_dev.
  assert (Hctr3 : seq_ctr (adc_dev_state w3) = length sq) by done.
  assert (Hst3 : ch_state (adc_dev_state w3) = ch_state (adc_dev_state w2)) by done.
  assert (length (ch_state (adc_dev_state w2)) = NUM_ADC) as Hl2' by (rewrite Hd2; simpl; by rewrite Hl2).
  assert (length sq <= NUM_ADC)%nat as Hsq.
  { apply (f_equal length) in Htake. rewrite length_take, length_fmap in Htake. lia. }
  destruct (null_out_run (NUM_ADC - seq_ctr (adc_dev_state w3)) w3) as (w4 & Hrun4 & E1 & E2 & E3 & l & Hd4 & Hl4).
  { rewrite Hctr3, Hst3, Hl2'. lia. }
  rewrite (M_bind_run _ _ _ _ _ Hrun4), bind_upd. rewrite Hctr3, Hst3, Htake in Hl4.
  set (w5 := with_dev _ w4).
  assert (channels w5 c) as Hc5.
  { apply channels_with_dev; [done|done|]. destruct Hc2 as [G1 G2 G3 G4]. split; rewrite ?Hd4; try done.
    intros i Hi. destruct (G1 i Hi) as (s & d & [Gs Gd] & Hrep). exists s, d. split; [|done].
    split; [by rewrite E1|by rewrite E2]. }
  destruct (update_hw_run w5 c sq (replicate (NUM_ADC - length sq) None) Hc5) as (w6 & Hrun6 & [F1 F2 F3] & Hsteps & Hen).
  { intros i Hi. apply list_elem_of_In, in_members in Hi as [? _]. done. }
  { intros Hnil. by apply H0, members_nil. }
  { simpl. rewrite Hd4. simpl. exact Hl4. }
  { simpl. rewrite Hd4. simpl. by rewrite Hctr2. }
  rewrite (M_bind_run _ _ _ _ _ Hrun6). eexists. split; [reflexivity|].
  assert (Hd6 : adc_dev_state w6 = set_seq l 0 (length sq) (adc_dev_state w)).
  { rewrite F3. unfold w5. simpl. rewrite Hd4. unfold w3. simpl. rewrite Hctr2, Hd2. done. }
  assert (channels w6 c) as Hc6 by (eapply stepped_with; [by split|exact Hc5]).
  split_and!; [by apply (channels_with_dev w6 (fun d => set_seq_ctr tmp (set_resequenced d)))| |exact Hen|..];
    [|cbn [adc_dev_state]; rewrite Hd6..]; [|done|done|simpl; by apply Htmp].
  split; cbn [adc_dev_state hw adc_ch_state]; rewrite ?Hd6; try done.
  intros i s Hi. rewrite F1. simpl. rewrite E1. by apply Hptr.
Qed.

(** ** The whole device *)

Context (null_id : Z).

(** The channels are as their views say; the converter is off, or converts channels
    that are active. *)
Record adc_ok (w : adc) (c : nat -> view) : Prop := {
  ok_channels : channels w c;
  ok_seq : sequenced w (hw_steps (hw w));
  ok_runs : runs w (hw_enabled (hw w));
  ok_ctr : (seq_ctr (adc_dev_state w) < NUM_ADC)%nat;
  ok_on : hw_enabled (hw w) = true ->
    hw_steps (hw w) <> [] /\ forall i, i ∈ hw_steps (hw w) -> von (c i) = true
}.
(** All active channels are converted. *)
Definition adc_live (w : adc) (c : nat -> view) : Prop :=
  adc_ok w c /\ forall i, (i < NUM_ADC)%nat -> von (c i) = true -> hw_enabled (hw w) = true /\ i ∈ hw_steps (hw w).

Lemma steps_bound w sq i : sequenced w sq -> i ∈ sq -> (i < NUM_ADC)%nat.
Proof. intros Hs Hi. apply list_elem_of_In in Hi. rewrite (sq_last _ _ Hs) in Hi. by apply in_members in Hi as [? _]. Qed.
Lemma members_active w c i : channels w c -> i ∈ members (ch_active (adc_dev_state w)) <->
  (i < NUM_ADC)%nat /\ von (c i) = true.
Proof.
  intros Hc. rewrite list_elem_of_In, in_members. split; intros [Hi H]; (split; [done|]).
  - by rewrite <- (sys_bits _ _ Hc i Hi).
  - by rewrite (sys_bits _ _ Hc i Hi).
Qed.
Lemma seq_bounds w sq : sequenced w sq -> (length sq <= NUM_ADC)%nat /\ length (ch_state (adc_dev_state w)) = NUM_ADC /\
  forall i, In (Some i) (ch_state (adc_dev_state w)) -> (i < NUM_ADC)%nat.
Proof.
  intros Hs. assert (length sq <= NUM_ADC)%nat as Hl.
  { rewrite (sq_last _ _ Hs). unfold members. etransitivity; [apply filter_length_le|]. by rewrite length_seq. }
  split_and!; [done| |].
  - rewrite (sq_state _ _ Hs), length_app, length_fmap, length_replicate. lia.
  - intros i Hi. rewrite (sq_state _ _ Hs) in Hi. apply in_app_or in Hi as [Hi|Hi]; apply list_elem_of_In in Hi.
    + apply list_elem_of_fmap in Hi as (j & [= ->] & Hj). by apply (steps_bound w sq).
    + by apply elem_of_replicate in Hi as [? _].
Qed.

(** Bringing the sequence up to date. *)
Lemma update_run w c : channels w c -> sequenced w (hw_steps (hw w)) -> (seq_ctr (adc_dev_state w) < NUM_ADC)%nat ->
  ch_active (adc_dev_state w) <> 0 ->
  exists w', adc_update_dev_sequence NUM_ADC null_id w = Some ((), w') /\ channels w' c /\
    sequenced w' (hw_steps (hw w')) /\ hw_steps (hw w') = members (ch_active (adc_dev_state w)) /\
    (hw_enabled (hw w) = true -> hw_enabled (hw w') = true) /\
    running (adc_dev_state w') = running (adc_dev_state w) /\
    ch_active (adc_dev_state w') = ch_active (adc_dev_state w) /\
    (seq_ctr (adc_dev_state w') < NUM_ADC)%nat.
Proof.
  intros Hc Hs Hctr H0. destruct (seq_bounds w _ Hs) as (Hl & Hlen & Hin).
  destruct (negb (ch_active (adc_dev_state w) =? last_ch_active (adc_dev_state w)) || (force_reseq (adc_dev_state w) =? 1)) eqn:E.
  - destruct (resequence_run null_id w c Hc Hlen Hctr Hin H0 E) as (w' & Hrun & Hc' & Hs' & Hen & Hr & Ha & Hct).
    exists w'. pose proof (sq_hw _ _ Hs') as Hhw. by rewrite Hhw.
  - exists w. apply orb_false_iff in E as [E Ef]. apply negb_false_iff, Z.eqb_eq in E.
    split_and!; try done; [|by rewrite E, <- (sq_last _ _ Hs)].
    unfold adc_update_dev_sequence.
    destruct (lookup_lt_is_Some_2 (ch_state (adc_dev_state w)) (seq_ctr (adc_dev_state w))) as [p Hp]; [lia|].
    rewrite (M_bind_run current _ w p w)
      by (unfold current, adc_get_dev_state, pure, mbind, M_bind; simpl; by rewrite Hp).
    assert (exists previd, match p with Some i => s ← adc_get_ch_state i; mret (Z.of_nat (id s)) | None => mret null_id end w
      = Some (previd, w)) as [previd Hprev].
    { destruct p as [i|]; [|by eexists]. destruct (sys_chan _ _ Hc i) as (s & d & [Hsi _] & _).
      - apply Hin, list_elem_of_In. by apply list_elem_of_lookup_2 in Hp.
      - exists (Z.of_nat (id s)). unfold adc_get_ch_state, mbind, M_bind. by rewrite Hsi. }
    rewrite (M_bind_run _ _ _ _ _ Hprev), bind_dev, E, Z.eqb_refl, Ef. done.
Qed.

Lemma called_ok x w c : hw_steps (x :: hw w) = hw_steps (hw w) ->
  channels w c -> sequenced w (hw_steps (hw w)) ->
  channels (called x w) c /\ sequenced (called x w) (hw_steps (hw (called x w))).
Proof.
  intros E1 [H1 H2 H3 H4] [S1 S2 S3 S4 S5 S6]. simpl hw. rewrite E1. split.
  - split; try done. intros i Hi. destruct (H1 i Hi) as (s & d & [Hs Hd] & Hrep). by exists s, d.
  - split; try done.
Qed.
Lemma with_dev_sequenced w f sq : (let d := adc_dev_state w in ch_state (f d) = ch_state d /\ seq_len (f d) = seq_len d /\
  last_ch_active (f d) = last_ch_active d) -> sequenced w sq -> sequenced (with_dev f w) sq.
Proof. intros (E1 & E2 & E3) [S1 S2 S3 S4 S5 S6]. split; simpl; rewrite ?E1, ?E2, ?E3; done. Qed.

Abbreviation isr := (adc_interrupt NUM_ADC true null_id NU NV).

Lemma interrupt_run w c m : adc_ok w c ->
  exists w', isr m w = Some ((), w') /\
    adc_ok w' (if hw_enabled (hw w) then convert_all (hw_steps (hw w)) m c else c) /\
    (hw_enabled (hw w) = true -> adc_live w' (convert_all (hw_steps (hw w)) m c)).
Proof.
  intros [Hc Hs Hr Hctr Hon]. unfold adc_interrupt. destruct (hw_enabled (hw w)) eqn:Een; [|exists w].
  2:{ split_and!; try done. by split; rewrite ?Een. }
  destruct (Hon eq_refl) as [Hne Hall]. set (sq := hw_steps (hw w)) in *.
  destruct (seq_bounds w sq Hs) as (Hl & Hlen & Hin).
  assert (NoDup sq) as Hnd by (rewrite (sq_last _ _ Hs); apply members_NoDup).
  unfold ADCIntHandler. rewrite bind_dev, bind_call, bind_upd.
  set (w0 := called _ w). destruct (called_ok (IntClear (seq_id (adc_dev_state w))) w c eq_refl Hc Hs) as [Hc0 Hs0].
  fold w0 in Hc0, Hs0. change (hw_steps (hw w0)) with sq in Hs0.
  set (w1 := with_dev (set_seq_ctr 0) w0).
  assert (channels w1 c) as Hc1 by (by apply channels_with_dev).
  assert (sequenced w1 sq) as Hs1 by (by apply with_dev_sequenced).
  destruct sq as [|i0 sq'] eqn:Esq; [done|]. rewrite <- Esq in *.
  assert (ch_active (adc_dev_state w) <> 0) as H0.
  { apply (active_some w c i0 Hc); [apply (steps_bound w sq i0 Hs)|apply Hall]; rewrite Esq; apply list_elem_of_here. }
  destruct (passes_channels sq m Hnd (length sq) w1 c Hc1 Hs1) as (w2 & Hrun & Hc2 & Hs2 & Hr2).
  { change (ch_active (adc_dev_state w1)) with (ch_active (adc_dev_state w)).
    rewrite (proj2 (Z.eqb_neq _ _) H0). done. }
  { done. }
  { done. }
  simpl (drop _ _) in Hc2. rewrite (sq_len _ _ Hs).
  rewrite (M_bind_run _ _ _ _ _ Hrun), bind_upd, bind_dev.
  set (w3 := with_dev (set_seq_ctr 0) w2). set (c' := convert_all sq m c) in *.
  assert (channels w3 c') as Hc3 by (by apply channels_with_dev).
  assert (sequenced w3 sq) as Hs3 by (by apply with_dev_sequenced).
  pose proof (sq_hw _ _ Hs3) as Hhw3.
  assert (0 < NUM_ADC)%nat as Hpos by (rewrite Esq in Hl; simpl in Hl; lia).
  change (running (adc_dev_state w3)) with (running (adc_dev_state w2)).
  destruct Hr2 as [Hr2 He2]. rewrite Hr2.
  destruct (Z.eqb_spec (ch_active (adc_dev_state w2)) 0) as [Hz|Hz]; cbn [negb] in *.
  - assert (forall i, (i < NUM_ADC)%nat -> von (c' i) = false) as Hoff
      by (intros i Hi; rewrite <- (sys_bits _ _ Hc3 i Hi); simpl; by rewrite Hz, Z.bits_0).
    change (0 =? 1) with false. cbn [when].
    rewrite (M_bind_run (mret ()) _ w3 () w3 eq_refl), bind_dev.
    change (running (adc_dev_state w3)) with (running (adc_dev_state w2)). rewrite Hr2, andb_false_r.
    assert (adc_ok w3 c') as Hok3.
    { split; [done|by rewrite Hhw3|split; simpl; by rewrite He2|done|]. simpl. by rewrite He2. }
    exists w3. split_and!; [done|done|]. intros _. split; [done|]. intros i Hi. by rewrite Hoff.
  - change (1 =? 1) with true. cbn [when].
    destruct (update_run w3 c' Hc3) as (w4 & Hrun4 & Hc4 & Hs4 & Hst4 & Hen4 & Hr4 & Ha4 & Hct4);
      [by rewrite Hhw3|done|done|].
    rewrite (M_bind_run _ _ _ _ _ Hrun4), bind_dev.
    assert (adc_live w4 c') as Hlive.
    { split; [split|]; try done.
      - split; [rewrite Hr4; simpl; rewrite Hr2|]; by rewrite (Hen4 He2).
      - intros _. rewrite Hst4. split.
        + intros Hnil. apply Hz. by apply (members_nil _ (sys_active _ _ Hc3)).
        + intros i Hi. by apply (members_active w3 c' i Hc3) in Hi as [_ ?].
      - intros i Hi Hv. rewrite (Hen4 He2), Hst4. split; [done|]. by apply (members_active w3 c' i Hc3). }
    unfold when. destruct (_ && _).
    + destruct (called_ok (ProcessorTrigger (seq_id (adc_dev_state w4))) w4 c' eq_refl Hc4 Hs4) as [Hc5 Hs5].
      exists (called (ProcessorTrigger (seq_id (adc_dev_state w4))) w4).
      destruct Hlive as [[_ _ Hl3 Hl4 Hl5] Hl6].
      assert (adc_ok (called (ProcessorTrigger (seq_id (adc_dev_state w4))) w4) c') as Hok5 by (by split).
      split_and!; [done|done|]. intros _. by split.
    + exists w4. split_and!; [done|apply Hlive|done].
Qed.

(** ** Asking for samples *)

Lemma start_run w c : adc_ok w c -> hw_enabled (hw w) = false -> ch_active (adc_dev_state w) <> 0 ->
  exists w', platform_adc_start_sequence NUM_ADC null_id w = Some (PLATFORM_OK, w') /\ adc_live w' c.
Proof.
  intros [Hc Hs Hr Hctr _] Hoff H0. unfold platform_adc_start_sequence. rewrite bind_dev.
  rewrite Hoff in Hr. destruct Hr as [Hr _]. rewrite Hr. change (negb (0 =? 1)) with true. cbn [when].
  destruct (update_run w c Hc Hs Hctr H0) as (w1 & Hrun1 & Hc1 & Hs1 & Hst1 & _ & Hr1 & Ha1 & Hct1).
  set (fire := fun d => if clocked d =? 1 then call (TimerStart (timer_id d)) else call (ProcessorTrigger (seq_id d))).
  set (w2 := with_dev (set_running 1) (called (SequenceEnable (seq_id (adc_dev_state w1))) w1)).
  assert (exists x, fire (adc_dev_state w1) w2 = Some ((), called x w2) /\
    hw_steps (x :: hw w2) = hw_steps (hw w2) /\ hw_enabled (x :: hw w2) = hw_enabled (hw w2)) as (x & Hfire & X1 & X2)
    by (unfold fire; destruct (_ =? 1); by eexists).
  exists (called x w2). split.
  - rewrite (M_bind_run _ _ w () (called x w2)); [done|].
    rewrite (M_bind_run _ _ _ _ _ Hrun1), bind_dev, bind_call, bind_upd. exact Hfire.
  - destruct (called_ok (SequenceEnable (seq_id (adc_dev_state w1))) w1 c) as [Hc2 Hs2]; try done.
    assert (channels w2 c) as Hc3 by (by apply channels_with_dev).
    assert (sequenced w2 (hw_steps (hw w2))) as Hs3 by (by apply with_dev_sequenced).
    destruct (called_ok x w2 c X1 Hc3 Hs3) as [Hc4 Hs4].
    assert (hw_enabled (hw (called x w2)) = true) as He by (change (hw (called x w2)) with (x :: hw w2); by rewrite X2).
    assert (hw_steps (hw (called x w2)) = members (ch_active (adc_dev_state w))) as Hst
      by (change (hw (called x w2)) with (x :: hw w2); rewrite X1; exact Hst1).
    split; [split; try done|].
    + by rewrite He.
    + intros _. rewrite Hst. split.
      * intros Hnil. apply H0. by apply (members_nil _ (sys_active _ _ Hc)).
      * intros i Hi. by apply (members_active w c i Hc) in Hi as [_ ?].
    + intros i Hi Hv. split; [done|]. rewrite Hst. by apply (members_active w c i Hc).
Qed.

(** A buffer for [2 ^ e] samples, empty. *)
Definition realloc_works (realloc : option (list Z) -> Z -> option (list Z)) : Prop :=
  forall p n, 0 <= n -> exists b, realloc p n = Some b /\ Z.of_nat (length b) = n.
Lemma fresh_buffer realloc e d : realloc_works realloc -> 0 <= e <= 15 ->
  exists d', buf_set_desc realloc e BUF_DSIZE_U16 d = (PLATFORM_OK, d') /\
    let d1 := buf_flush_desc d' in
    fifo_ok d1 /\ fifo_list d1 = [] /\ dsize d1 = 2%nat /\ Z.of_nat (nelem d1) = 2 ^ e.
Proof.
  intros Hre He. unfold buf_set_desc, BUF_DSIZE_U16. rewrite u8_small by word_lia.
  destruct (Hre (buf d) (Z.shiftl 1 (e + 1))) as (b & -> & Hb); [rewrite Z.shiftl_1_l; apply Z.pow_nonneg; lia|].
  eexists. split; [done|]. set (d1 := buf_flush_desc _).
  assert (Hne : Z.of_nat (nelem d1) = 2 ^ e).
  { unfold nelem, BUF_REALSIZE. simpl. rewrite Z.shiftl_1_l. replace (e + 1 - 1) with e by lia.
    rewrite Z2Nat.id; [done|]. apply Z.pow_nonneg. lia. }
  pose proof (pow2_pos e ltac:(lia)) as Hp.
  split_and!; [|done|done|exact Hne]. change (buf_wf 0 d1 (head_at d1) (queued d1)).
  assert (head_at d1 = 0%nat) as -> by (unfold head_at; apply Nat.Div0.div_0_l).
  change (queued d1) with 0%nat.
  split; [simpl; lia|simpl; lia|by exists b|split; [done|lia]| |split; [done|lia]].
  by rewrite Nat.Div0.mod_0_l.
Qed.
Lemma size_nelem d : fifo_ok d -> buf_get_size_desc d = Z.of_nat (nelem d).
Proof.
  simpl. intros Hok. unfold buf_get_size_desc. destruct (wf_logsize _ _ _ _ Hok) as [Hls H0].
  rewrite (proj2 (Z.eqb_neq (logsize d) BUF_SIZE_NONE) H0). unfold nelem. rewrite Z2Nat.id; [done|].
  unfold BUF_REALSIZE. rewrite Z.shiftl_1_l. apply Z.pow_nonneg. lia.
Qed.

(** A channel as it is set up. *)
Definition asked (e : Z) (v : view) : view := View (vk v) (vh v) [] (2 ^ e) true.

Lemma set_chan_channels w c i s d s' d' v' : channels w c -> chan w i s d -> (i < NUM_ADC)%nat ->
  rep (sample_buf (adc_dev_state w)) i s' d' v' ->
  forall j, (j < NUM_ADC)%nat -> exists sj dj, chan (set_chan i s' d' w) j sj dj /\
    rep (sample_buf (adc_dev_state w)) j sj dj (fupd c i v' j).
Proof.
  intros Hc Hch Hi Hrep j Hj. unfold fupd. destruct (decide (j = i)) as [->|Hji].
  - exists s', d'. split; [apply chan_set, (present_chan w i s d Hch)|done].
  - destruct (sys_chan _ _ Hc j Hj) as (sj & dj & Hchj & Hrepj). exists sj, dj.
    split; [by apply chan_set_ne|done].
Qed.
Lemma set_chan_seq w i s d s' d' sq : chan w i s d -> value_ptr s' = value_ptr s -> sequenced w sq ->
  sequenced (set_chan i s' d' w) sq.
Proof.
  intros [Hs _] Hp [S1 S2 S3 S4 S5 S6]. split; try done. simpl. intros j sj Hj.
  destruct (decide (j = i)) as [->|Hji].
  - rewrite list_lookup_insert_eq by (by apply lookup_lt_Some in Hs). intros [= <-]. rewrite Hp. by apply (S5 i s).
  - rewrite list_lookup_insert_ne by done. by apply S5.
Qed.

Lemma setup_run realloc w c i e : adc_ok w c -> (i < NUM_ADC)%nat -> vq (c i) = [] -> realloc_works realloc ->
  0 <= e <= 15 -> exists w', adc_setup_channel true NU NV realloc i e w = Some (PLATFORM_OK, w') /\
    adc_ok w' (fupd c i (asked e (c i))) /\ hw w' = hw w /\ ch_active (adc_dev_state w') <> 0.
Proof.
  intros [Hc Hs Hr Hctr Hon] Hi Hq0 Hre He. destruct (sys_chan _ _ Hc i Hi) as (s & d & Hch & Hrep).
  pose proof (present_chan w i s d Hch) as Hw. pose proof (pow2_pos e ltac:(lia)) as Hp.
  assert (2 ^ e <= 2 ^ 15) as Hp15 by (apply Z.pow_le_mono_r; lia).
  pose proof (rep_samples _ _ _ _ _ Hrep) as Hsam. pose proof (q_ok _ _ _ _ Hsam) as Hok0.
  pose proof (size_run w i Hw s d) as Hsize. rewrite (set_same w i s d Hch), (size_nelem d Hok0) in Hsize.
  assert (exists d', (if true && negb (Z.shiftl 1 e =? Z.of_nat (nelem d)) then
           res ← buf_set_adc NU NV realloc i e;
           _ ← when (res =? PLATFORM_OK) (buf_flush_adc NU NV i);
           mret res
         else mret PLATFORM_OK) w = Some (PLATFORM_OK, set_chan i s d' w) /\
     fifo_ok d' /\ fifo_list d' = [] /\ dsize d' = 2%nat /\ Z.of_nat (nelem d') = 2 ^ e) as (d' & Hrun & Hok & Hl & Hd2 & Hne).
  { rewrite Z.shiftl_1_l. destruct (Z.eqb_spec (2 ^ e) (Z.of_nat (nelem d))) as [E|E]; cbn [negb andb].
    - exists d. rewrite (set_same w i s d Hch). split_and!; [done|done| |apply Hsam|done].
      rewrite Hq0 in Hsam. destruct (q_list _ _ _ _ Hsam) as [[_ ?]|(_ & ? & _)]; done.
    - destruct (fresh_buffer realloc e d Hre He) as (d' & Hset & Hd'). exists (buf_flush_desc d'). split; [|exact Hd'].
      rewrite (M_bind_run _ _ w PLATFORM_OK (set_chan i s d' w))
        by (rewrite <- (set_same w i s d Hch) at 1; rewrite (set_run w i Hw), Hset; done).
      change (PLATFORM_OK =? PLATFORM_OK) with true. cbn [when].
      by rewrite (M_bind_run _ _ _ _ _ (flush_run w i Hw s d')). }
  set (s' := set_op_pending 1 (set_reqsamples (u16 (Z.shiftl 1 e)) s)).
  set (w1 := set_chan i s' d' w). exists (with_dev (ACTIVATE_CHANNEL i) w1).
  assert (rep (sample_buf (adc_dev_state w)) i s' d' (asked e (c i))) as Hrep'.
  { assert (value_fresh s = 0) as Hf0.
    { destruct (q_list _ _ _ _ (rep_samples _ _ _ _ _ Hrep)) as [[? _]|(_ & _ & y & _ & Hy)]; [done|congruence]. }
    destruct Hrep as [Hid Hptr Hf Hsm Hreq Hroom Hfr Hfree Hblk Hpend Hv Hcold]. split; try done; simpl.
    - by apply (filter_ext _ s).
    - split; try done. by left.
    - rewrite Z.shiftl_1_l. apply u16_small. words. change (2 ^ 15) with 32768 in Hp15. lia.
    - lia.
    - intros H1. congruence.
    - lia. }
  pose proof (set_chan_channels w c i s d s' d' _ Hc Hch Hi Hrep') as Hch'.
  pose proof (sys_active _ _ Hc) as [Ha0 Halt].
  assert (Hbits : forall j, Z.testbit (ch_active (ACTIVATE_CHANNEL i (adc_dev_state w))) (Z.of_nat j)
    = Z.testbit (ch_active (adc_dev_state w)) (Z.of_nat j) || bool_decide (j = i))
    by (intros j; apply activate_bits; lia).
  assert (0 <= ch_active (ACTIVATE_CHANNEL i (adc_dev_state w))) as Hpos.
  { unfold ACTIVATE_CHANNEL. cbn [ch_active set_ch_active]. apply Z.lor_nonneg. split; [done|].
    pose proof (u32_is_u32 (Z.shiftl 1 (Z.of_nat i))). word_lia. }
  assert (channels (with_dev (ACTIVATE_CHANNEL i) w1) (fupd c i (asked e (c i)))) as Hc'.
  { split.
    - intros j Hj. destruct (Hch' j Hj) as (sj & dj & Hcj & Hrj). exists sj, dj. split; [by apply chan_with_dev|done].
    - split; [exact Hpos|]. apply mask_bits; [exact Hpos|]. intros j Hj. cbn [adc_dev_state with_dev w1 set_chan].
      rewrite Hbits, (proj1 (mask_bits _ Ha0) Halt j Hj), bool_decide_false by lia. done.
    - intros j Hj. cbn [adc_dev_state with_dev w1 set_chan]. rewrite Hbits, (sys_bits _ _ Hc j Hj). unfold fupd.
      case_decide; [rewrite bool_decide_true by done; apply orb_true_r|].
      rewrite bool_decide_false by done. apply orb_false_r.
    - apply Hc. }
  split_and!; [| |done|].
  - unfold adc_setup_channel. rewrite (M_bind_run _ _ _ _ _ Hsize), (M_bind_run _ _ _ _ _ Hrun).
    change (negb (PLATFORM_OK =? PLATFORM_OK)) with false. cbv iota.
    by rewrite (M_bind_run _ _ _ _ _ (upd_run w i Hw _ s d')), bind_upd.
  - split; [done| |done|done|].
    + apply with_dev_sequenced; [done|]. by eapply set_chan_seq.
    + intros Hen. destruct (Hon Hen) as [Hne' Hall]. split; [done|]. intros j Hj. unfold fupd.
      case_decide; [done|by apply Hall].
  - eapply active_some; [exact Hc'|exact Hi|]. unfold fupd. by rewrite decide_True.
Qed.

Definition ask_all (l : list nat) (e : Z) (c : nat -> view) (i : nat) : view :=
  if decide (i ∈ l) then asked e (c i) else c i.
Lemma adc_ok_ext w c c' : (forall i, (i < NUM_ADC)%nat -> c i = c' i) -> adc_ok w c -> adc_ok w c'.
Proof.
  intros He [Hc Hs Hr Hct Hon]. split; try done; [by apply (channels_ext w c)|].
  intros Hen. destruct (Hon Hen) as [? Hall]. split; [done|]. intros i Hi.
  rewrite <- He; [by apply Hall|by apply (steps_bound w _ i Hs)].
Qed.

Lemma setups_run realloc e l : realloc_works realloc -> 0 <= e <= 15 -> forall w c,
  adc_ok w c -> (forall i, i ∈ l -> (i < NUM_ADC)%nat /\ vq (c i) = []) ->
  exists w', setup_channels NUM_ADC true NU NV realloc l (2 ^ e) w = Some (None, w') /\
    adc_ok w' (ask_all l e c) /\ hw w' = hw w /\ (l <> [] -> ch_active (adc_dev_state w') <> 0).
Proof.
  intros Hre He. assert (intlog2 (2 ^ e) = e) as Hlog.
  { rewrite intlog2_ok; [apply Z.log2_pow2; lia|]. split; [apply Z.pow_pos_nonneg; lia|]. apply Z.pow_lt_mono_r; lia. }
  induction l as [|i l IH]; intros w c Hok Hl; cbn [setup_channels].
  - exists w. split_and!; [done| |done|done]. by apply (adc_ok_ext w c).
  - destruct (Hl i (list_elem_of_here _ _)) as [Hi Hq].
    unfold platform_adc_exists. rewrite (proj2 (Nat.ltb_lt _ _) Hi). cbn [negb].
    rewrite Hlog, u8_small by word_lia.
    destruct (setup_run realloc w c i e Hok Hi Hq Hre He) as (w1 & Hrun & Hok1 & Hhw & Ha).
    rewrite (M_bind_run _ _ _ _ _ Hrun). change (negb (PLATFORM_OK =? PLATFORM_OK)) with false. cbv iota.
    destruct (IH w1 _ Hok1) as (w' & Hrun' & Hok' & Hhw' & Ha').
    { intros j Hj. destruct (Hl j) as [Hj' Hqj]; [by apply list_elem_of_further|]. split; [done|].
      unfold fupd. by case_decide. }
    exists w'. split_and!; [done| |congruence|].
    + eapply adc_ok_ext; [|exact Hok']. intros j _. unfold ask_all, fupd. destruct (decide (j = i)) as [->|Hji].
      * rewrite (decide_True (P := i ∈ i :: l)) by apply list_elem_of_here. by destruct (decide (i ∈ l)).
      * destruct (decide (j ∈ l)) as [H|H].
        -- by rewrite decide_True by (by apply list_elem_of_further).
        -- rewrite decide_False; [done|]. rewrite elem_of_cons. by intros [?|?].
    + intros _. destruct l as [|i' l]; [|by apply Ha']. cbn in Hrun'. injection Hrun' as <-. exact Ha.
Qed.

Lemma sample_run realloc e l w c : realloc_works realloc -> 0 <= e <= 15 ->
  adc_ok w c -> hw_enabled (hw w) = false -> l <> [] -> (forall i, i ∈ l -> (i < NUM_ADC)%nat /\ vq (c i) = []) ->
  exists w', adc_sample NUM_ADC true null_id NU NV realloc (LuaTable l) (2 ^ e) w = Some (Returns (), w') /\
    adc_live w' (ask_all l e c).
Proof.
  intros Hre He Hok Hoff Hne Hl. destruct (setups_run realloc e l Hre He w c Hok Hl) as (w1 & Hrun & Hok1 & Hhw & Ha).
  destruct (start_run w1 _ Hok1) as (w2 & Hrun2 & Hlive); [by rewrite Hhw|by apply Ha|].
  exists w2. split; [|done]. unfold adc_sample.
  assert (0 < 2 ^ e < 2 ^ 32) as Hp by (split; [apply Z.pow_pos_nonneg; lia|apply Z.pow_lt_mono_r; lia]).
  rewrite (proj2 (Z.eqb_neq (2 ^ e) 0)) by lia. rewrite u32_small by (unfold is_u; lia).
  rewrite land_mask, Z.mod_same by lia. change (0 =? 0) with true. cbn [negb orb].
  rewrite (M_bind_run _ _ _ _ _ Hrun). by rewrite (M_bind_run _ _ _ _ _ Hrun2).
Qed.

(** ** Taking samples *)

Lemma adc_live_ext w c c' : (forall i, (i < NUM_ADC)%nat -> c i = c' i) -> adc_live w c -> adc_live w c'.
Proof.
  intros He [Hok Hon]. split; [by apply (adc_ok_ext w c)|]. intros i Hi Hv. apply Hon; [done|]. by rewrite He.
Qed.

(** A channel's record and buffer change; what it converts does not. *)
Lemma replace_live w c i s d s' d' v' : adc_live w c -> chan w i s d -> (i < NUM_ADC)%nat ->
  rep (sample_buf (adc_dev_state w)) i s' d' v' -> value_ptr s' = value_ptr s -> von v' = von (c i) ->
  adc_live (set_chan i s' d' w) (fupd c i v').
Proof.
  intros [[Hc Hs Hr Hct Hon] Hl] Hch Hi Hrep Hp Hv.
  assert (forall j, von (fupd c i v' j) = von (c j)) as Hvon by (intros j; unfold fupd; case_decide; [by subst|done]).
  split; [split|]; try done.
  - split; try apply Hc; [by apply (set_chan_channels w c i s d s' d' v')|].
    intros j Hj. rewrite Hvon. by apply Hc.
  - by apply (set_chan_seq w i s d).
  - intros Hen. destruct (Hon Hen) as [? Hall]. split; [done|]. intros j Hj. rewrite Hvon. by apply Hall.
  - intros j Hj. rewrite Hvon. by apply Hl.
Qed.

Lemma take_run w c i : adc_live w c -> (i < NUM_ADC)%nat ->
  exists w', adc_get_processed_sample true NU NV i w = Some ((take_view (c i)).1, w') /\
    adc_live w' (fupd c i (take_view (c i)).2).
Proof.
  intros Hlive Hi. destruct (sys_chan _ _ (ok_channels _ _ (proj1 Hlive)) i Hi) as (s & d & Hch & Hrep).
  pose proof (present_chan w i s d Hch) as Hw. unfold take_view.
  pose proof (rep_samples _ _ _ _ _ Hrep) as Hsam. destruct (vq (c i)) as [|y q] eqn:Hq.
  - exists w. split.
    + rewrite <- (set_same w i s d Hch) at 1. rewrite (processed_empty w i Hw s d Hsam). by rewrite (set_same w i s d Hch).
    + eapply adc_live_ext; [|exact Hlive]. intros j _. unfold fupd. by case_decide; [subst|].
  - assert (warm (vk (c i)) (vh (c i)) = true) as Hwarm.
    { destruct (warm _ _) eqn:E; [done|]. by rewrite (rep_cold _ _ _ _ _ Hrep E) in Hq. }
    destruct (processed_run w i Hw (vk (c i)) s d (vh (c i)) y q) as
      (s' & d' & Hrun & Hf' & Hsam' & (K1 & K2 & K3 & K4 & K5 & K6) & Hfr' & Hr' & [Hcap _]); try done.
    { apply Hrep. }
    { rewrite (rep_req _ _ _ _ _ Hrep). apply Hrep. }
    exists (set_chan i s' d' w). split.
    + rewrite <- (set_same w i s d Hch) at 1. exact Hrun.
    + eapply replace_live; try done. destruct Hrep as [Hid Hptr Hf Hsm Hreq Hroom Hfr Hfree Hblk Hpend Hv Hcold].
      simpl in Hcap. split; simpl; try congruence.
      * intros p. rewrite K6. apply Hptr.
      * rewrite Hcap. lia.
      * intros Hvon. specialize (Hv Hvon). rewrite Hq in Hv. simpl in Hv. lia.
      * intros Hcold'. by rewrite (warm_snoc _ _ y Hwarm) in Hcold'.
Qed.

(** An interrupt converts one sample of each active channel. *)
Definition convert_on (m : nat -> Z) (c : nat -> view) (i : nat) : view :=
  if von (c i) then convert (u16 (m i)) (c i) else c i.
Lemma live_interrupt w c m : adc_live w c ->
  exists w', isr m w = Some ((), w') /\ adc_live w' (convert_on m c).
Proof.
  intros [Hok Hall]. destruct (interrupt_run w c m Hok) as (w' & Hrun & Hok' & Hlive'). exists w'. split; [done|].
  destruct (hw_enabled (hw w)) eqn:Een.
  - eapply adc_live_ext; [|by apply Hlive']. intros i Hi. unfold convert_all, convert_on.
    destruct (von (c i)) eqn:Ev.
    + rewrite decide_True; [done|]. by apply Hall.
    + rewrite decide_False; [done|]. intros Hin. destruct (ok_on _ _ Hok Een) as [_ H]. by rewrite (H i Hin) in Ev.
  - assert (w' = w) as -> by (unfold adc_interrupt in Hrun; rewrite Een in Hrun; congruence).
    eapply adc_live_ext; [|split; [exact Hok|by rewrite Een]]. intros i Hi. unfold convert_on.
    destruct (von (c i)) eqn:Ev; [|done]. by destruct (Hall i Hi Ev).
Qed.
Abbreviation irqs := (interrupts NUM_ADC true null_id NU NV).
Lemma live_interrupts l : forall w c, adc_live w c ->
  exists w' c', irqs l w = Some ((), w') /\ adc_live w' c' /\ forall i, von (c i) = false -> c' i = c i.
Proof.
  induction l as [|m l IH]; intros w c Hl; [by exists w, c|].
  destruct (live_interrupt w c m Hl) as (w1 & Hrun & Hl1). destruct (IH w1 _ Hl1) as (w2 & c2 & Hrun2 & Hl2 & Heq).
  exists w2, c2. split_and!; [|done|].
  - cbn [interrupts]. by rewrite (M_bind_run _ _ _ _ _ Hrun).
  - intros i Hi. assert (convert_on m c i = c i) as E by (unfold convert_on; by rewrite Hi).
    rewrite Heq; [done|]. by rewrite E.
Qed.

Lemma takes_run n i : (i < NUM_ADC)%nat -> forall w c between, adc_live w c -> von (c i) = false ->
  (n <= length (vq (c i)))%nat ->
  exists w' c', take_samples NUM_ADC true null_id NU NV n i between w
      = Some (averages (vk (c i)) (vh (c i)) (take n (vq (c i))), w') /\
    adc_live w' c' /\ von (c' i) = false.
Proof.
  intros Hi. induction n as [|n IH]; intros w c between Hl Hoff Hn; [by exists w, c|].
  cbn [take_samples].
  destruct (live_interrupts (default [] (head between)) w c Hl) as (w1 & c1 & Hrun1 & Hl1 & Heq).
  rewrite (M_bind_run _ _ _ _ _ Hrun1). specialize (Heq i Hoff).
  destruct (take_run w1 c1 i Hl1 Hi) as (w2 & Hrun2 & Hl2). rewrite Heq in Hrun2, Hl2.
  rewrite (M_bind_run _ _ _ _ _ Hrun2). unfold take_view in *.
  destruct (vq (c i)) as [|y q] eqn:Hq; [simpl in Hn; lia|]. cbn [fst snd] in *.
  set (v' := View _ _ q _ _) in *. assert (fupd c1 i v' i = v') as Ev by (unfold fupd; by rewrite decide_True).
  destruct (IH w2 _ (tail between) Hl2) as (w3 & c3 & Hrun3 & Hl3 & Hoff3); [by rewrite Ev| |].
  { rewrite Ev. simpl in *. lia. }
  rewrite Ev in Hrun3. rewrite (M_bind_run _ _ _ _ _ Hrun3). by exists w3, c3.
Qed.

(** ** Waiting *)

(** How many conversions warm the filter up, and how many a channel makes. *)
Definition warmup (v : view) : nat := if warm (vk v) (vh v) then 0 else S (2 ^ vk v) - length (vh v).
Definition conversions (v : view) : nat := warmup v + (Z.to_nat (vreq v) - length (vq v)).
(** What it is after them. *)
Definition finished (v : view) (xs : list Z) : view :=
  View (vk v) (vh v ++ take (warmup v) xs) (vq v ++ drop (warmup v) xs) (vreq v) false.

Lemma convert_finished x xs v : von v = true -> Z.of_nat (length (vq v)) < vreq v ->
  (warm (vk v) (vh v) = false -> vq v = []) ->
  S (length xs) = conversions v ->
  if von (convert x v) then length xs = conversions (convert x v) /\ finished (convert x v) xs = finished v (x :: xs)
  else xs = [] /\ convert x v = finished v [x].
Proof.
  intros Hon Hlt Hcold Hlen. unfold conversions, finished, warmup, convert in *. destruct v as [k h q r on].
  cbn [vk vh vq vreq von] in *. destruct (warm k h) eqn:Hw; cbn [vk vh vq vreq von].
  - destruct (Z.ltb_spec (Z.of_nat (length (q ++ [x]))) r) as [H|H]; rewrite length_app in H; simpl in H.
    + rewrite Hw, length_app. simpl. split; [lia|]. by rewrite !drop_0, <- app_assoc.
    + assert (length xs = 0%nat) as Hxs by lia. apply nil_length_inv in Hxs as ->. split; [done|].
      simpl. by rewrite app_nil_r.
  - rewrite (Hcold eq_refl) in *. cbn [length] in *.
    assert (0 < k)%nat as Hk by (unfold warm in Hw; destruct (Nat.eqb_spec k 0); [done|lia]).
    assert (length h <= 2 ^ k)%nat as Hh
      by (unfold warm in Hw; rewrite (proj2 (Nat.eqb_neq k 0)) in Hw by lia; by apply Nat.ltb_ge in Hw).
    destruct (Z.ltb_spec (Z.of_nat 0) r) as [H|H]; [|lia].
    replace (warm k (h ++ [x])) with (2 ^ k <? S (length h))%nat.
    2:{ unfold warm. rewrite (proj2 (Nat.eqb_neq k 0)) by lia. rewrite length_app, Nat.add_1_r. done. }
    rewrite length_app. cbn [length]. replace (S (2 ^ k) - length h)%nat with (S (2 ^ k - length h)) in * by lia.
    destruct (Nat.ltb_spec (2 ^ k) (S (length h))) as [H1|H1].
    + replace (2 ^ k - length h)%nat with 0%nat in * by lia. split; [lia|]. simpl. by rewrite app_nil_r, drop_0.
    + replace (S (2 ^ k) - (length h + 1))%nat with (2 ^ k - length h)%nat by lia. split; [lia|].
      simpl. by rewrite <- app_assoc.
Qed.

Lemma available_now w c i : adc_ok w c -> (i < NUM_ADC)%nat -> exists s,
  adc_get_ch_state i w = Some (s, w) /\ op_pending s = (if von (c i) then 1 else 0) /\ blocking s = 1 /\
  adc_samples_available true NU NV i w = Some (Z.of_nat (length (vq (c i))), w) /\
  (von (c i) = true -> Z.of_nat (length (vq (c i))) < vreq (c i)) /\
  (warm (vk (c i)) (vh (c i)) = false -> vq (c i) = []).
Proof.
  intros Hok Hi. destruct (sys_chan _ _ (ok_channels _ _ Hok) i Hi) as (s & d & Hch & Hrep).
  pose proof (present_chan w i s d Hch) as Hw. exists s.
  pose proof (available_run w i Hw s d _ (rep_samples _ _ _ _ _ Hrep)) as Ha. rewrite (set_same w i s d Hch) in Ha.
  split_and!; try done; [|apply Hrep|apply Hrep|apply Hrep|apply Hrep].
  unfold adc_get_ch_state. by rewrite (chan_ch _ _ _ _ Hch).
Qed.

Abbreviation waits := (wait_loop NUM_ADC true null_id NU NV).
Lemma wait_done w c i n l : adc_ok w c -> (i < NUM_ADC)%nat -> von (c i) = false -> waits i n l w = Some (l, w).
Proof.
  intros Hok Hi Hoff. destruct (available_now w c i Hok Hi) as (s & Hg & Hp & _ & Ha & _). rewrite Hoff in Hp.
  destruct l; cbn [wait_loop]; rewrite (M_bind_run _ _ _ _ _ Hg), (M_bind_run _ _ _ _ _ Ha), Hp; done.
Qed.
Lemma wait_run i l : (i < NUM_ADC)%nat -> forall w c n, adc_live w c -> von (c i) = true -> n = vreq (c i) ->
  (conversions (c i) <= length l)%nat ->
  let xs := (fun m => u16 (m i)) <$> take (conversions (c i)) l in
  exists w' c', waits i n l w = Some (drop (conversions (c i)) l, w') /\ adc_live w' c' /\
    c' i = finished (c i) xs.
Proof.
  intros Hi. induction l as [|m l IH]; intros w c n Hlive Hon -> Hlen xs;
    destruct (available_now w c i (proj1 Hlive) Hi) as (s & Hg & Hp & _ & Ha & Hlt & Hcold); specialize (Hlt Hon);
    rewrite Hon in Hp.
  { unfold conversions in Hlen. simpl in Hlen. lia. }
  cbn [wait_loop]. rewrite (M_bind_run _ _ _ _ _ Hg), (M_bind_run _ _ _ _ _ Ha), Hp.
  rewrite (proj2 (Z.ltb_lt _ _) Hlt). change ((1 =? 1) && true) with true. cbv iota.
  destruct (live_interrupt w c m Hlive) as (w1 & Hrun1 & Hlive1). rewrite (M_bind_run _ _ _ _ _ Hrun1).
  assert (convert_on m c i = convert (u16 (m i)) (c i)) as Ec by (unfold convert_on; by rewrite Hon).
  destruct (conversions (c i)) as [|k] eqn:Ek; [unfold conversions in Ek; lia|]. simpl in Hlen.
  assert (vreq (convert (u16 (m i)) (c i)) = vreq (c i)) as Er by (unfold convert; by destruct (warm _ _)).
  pose proof (convert_finished (u16 (m i)) ((fun m => u16 (m i)) <$> take k l) (c i) Hon Hlt Hcold) as Hfin.
  rewrite length_fmap, length_take, Nat.min_l, Ek in Hfin by lia. specialize (Hfin eq_refl).
  subst xs. cbn [take fmap list_fmap drop]. destruct (von (convert (u16 (m i)) (c i))) eqn:Ev.
  - destruct Hfin as [Hk Hf]. destruct (IH w1 _ (vreq (c i)) Hlive1) as (w2 & c2 & Hrun2 & Hlive2 & E2);
      rewrite ?Ec, <- ?Hk; try done; [lia|].
    rewrite Ec, <- Hk in Hrun2, E2. exists w2, c2. split_and!; [done|done|]. rewrite E2. exact Hf.
  - destruct Hfin as [Hk Hf]. apply (f_equal length) in Hk. rewrite length_fmap, length_take in Hk. simpl in Hk.
    assert (k = 0%nat) as -> by lia. exists w1, (convert_on m c). rewrite take_0, drop_0.
    split_and!; [|done|by rewrite Ec].
    apply (wait_done w1 (convert_on m c)); [apply Hlive1|done|by rewrite Ec].
Qed.

(** ** A request *)

(** C31: a request for samples is met, for channels that are in blocking mode (the
    mode 1 they start in, in which the manual of [adc.setblocking] lets requests wait;
    the comment in elua_adc.h has the two modes the wrong way round) and whose filter
    is off or has warmed up before; with memory for the buffers and at most 32 channels.
    [adc.sample] on an idle converter asks each of the channels [l] for [2 ^ e]
    samples; [adc.getsamples] on one of them then waits for the interrupts of these
    conversions and returns [2 ^ e] averages, each of the last [2 ^ k] samples of that
    channel, those before the request included, none left out or counted twice,
    whatever is converted on the other channels and whatever interrupts come while the
    samples are taken; and the channel has stopped. (A filter that has not warmed up
    takes one sample more than its length: [cold_filter].) *)
Theorem adc_request realloc w c e l i ms between : (i ∈ l) -> 0 <= e <= 15 -> realloc_works realloc ->
  adc_ok w c -> hw_enabled (hw w) = false -> (forall j, j ∈ l -> (j < NUM_ADC)%nat /\ vq (c j) = []) ->
  warm (vk (c i)) (vh (c i)) = true -> 2 ^ e <= Z.of_nat (length ms) ->
  let xs := (fun m => u16 (m i)) <$> take (Z.to_nat (2 ^ e)) ms in
  exists w1 w2, adc_sample NUM_ADC true null_id NU NV realloc (LuaTable l) (2 ^ e) w = Some (Returns (), w1) /\
    adc_getsamples NUM_ADC true null_id NU NV i (2 ^ e) ms between w1
    = Some (Returns (averages (vk (c i)) (vh (c i)) xs), w2) /\
    length xs = Z.to_nat (2 ^ e) /\
    platform_adc_is_done i w2 = Some (true, w2).
Proof.
  intros Hil He Hre Hok Hoff Hl Hwarm Hms0 xs0. set (v := asked e (c i)).
  assert (Hwu : warmup v = 0%nat) by (unfold warmup, v; cbn [asked vk vh]; by rewrite Hwarm).
  assert (Hcv : conversions v = Z.to_nat (2 ^ e)) by (unfold conversions; rewrite Hwu; unfold v; cbn [asked vq vreq length]; lia).
  assert (Hms : (conversions v <= length ms)%nat) by lia.
  set (xs := (fun m => u16 (m i)) <$> take (conversions v) ms).
  assert (Hxs : xs0 = drop (warmup v) xs) by (unfold xs0, xs; by rewrite Hcv, Hwu, drop_0).
  assert (Hav : averages (vk (c i)) (vh (c i)) xs0 = averages (vk v) (vh v ++ take (warmup v) xs) (drop (warmup v) xs))
    by (rewrite Hxs, Hwu, take_0, app_nil_r; done).
  rewrite Hav, Hxs. clear Hav Hxs xs0. destruct (Hl i Hil) as [Hi Hq].
  destruct (sample_run realloc e l w c Hre He Hok Hoff) as (w1 & Hrun1 & Hlive1); [by destruct l; [apply not_elem_of_nil in Hil|]|done|].
  assert (ask_all l e c i = v) as Ev by (unfold ask_all; by rewrite decide_True).
  destruct (wait_run i ms Hi w1 (ask_all l e c) (2 ^ e) Hlive1) as (w2 & c2 & Hrun2 & Hlive2 & E2);
    [by rewrite Ev|by rewrite Ev|by rewrite Ev|]. rewrite Ev in E2, Hrun2. fold xs in E2.
  assert (0 < 2 ^ e <= 2 ^ 15) as Hp by (split; [apply Z.pow_pos_nonneg; lia|apply Z.pow_le_mono_r; lia]).
  change (2 ^ 15) with 32768 in Hp.
  assert (length (drop (warmup v) xs) = Z.to_nat (2 ^ e)) as Hlen.
  { unfold xs. rewrite length_drop, length_fmap, length_take, Nat.min_l by done.
    unfold conversions, v, asked. cbn [vq vreq length]. lia. }
  assert (vq (c2 i) = drop (warmup v) xs) as Hq2 by (by rewrite E2).
  assert (von (c2 i) = false) as Hoff2 by (by rewrite E2).
  destruct (takes_run (Z.to_nat (2 ^ e)) i Hi w2 c2 between Hlive2 Hoff2) as (w3 & c3 & Hrun3 & Hlive3 & Hoff3);
    [rewrite Hq2; lia|].
  exists w1, w3. split_and!; [done| |done|].
  - unfold adc_getsamples, platform_adc_exists. rewrite (proj2 (Nat.ltb_lt _ _) Hi). cbn [negb].
    rewrite u16_small by word_lia.
    destruct (available_now w1 _ i (proj1 Hlive1) Hi) as (s1 & Hg1 & _ & Hb1 & Ha1 & Hlt1 & _).
    rewrite Ev in Ha1, Hlt1. specialize (Hlt1 eq_refl). cbn [vq v asked length vreq] in Ha1, Hlt1.
    destruct (available_now w2 c2 i (proj1 Hlive2) Hi) as (s2 & _ & _ & _ & Ha2 & _).
    rewrite (M_bind_run _ _ w1 (2 ^ e, drop (conversions v) ms) w2).
    + rewrite (proj2 (Z.eqb_neq (2 ^ e) 0)) by lia. rewrite Z.gtb_ltb, Z.ltb_irrefl.
      rewrite (M_bind_run _ _ _ _ _ Hrun3). unfold mret, M_ret. rewrite Hq2, take_ge by lia. by rewrite E2.
    + unfold adc_wait_samples. rewrite (M_bind_run _ _ _ _ _ Ha1), (M_bind_run _ _ _ _ _ Hg1), Hb1.
      rewrite (proj2 (Z.ltb_lt _ _)) by lia. change (true && (1 =? 1)) with true. cbv iota.
      rewrite (M_bind_run _ _ _ _ _ Hrun2), (M_bind_run _ _ _ _ _ Ha2), Hq2, Hlen.
      unfold mret, M_ret. by rewrite Z2Nat.id by lia.
  - destruct (available_now w3 c3 i (proj1 Hlive3) Hi) as (s3 & Hg3 & Hp3 & _). rewrite Hoff3 in Hp3.
    unfold platform_adc_is_done. rewrite (M_bind_run _ _ _ _ _ Hg3), Hp3. done.
Qed.

(** C32: an interrupt is a conversion of every channel of the sequence and of no
    other: each gets the sample measured at it, in its filter or at the end of its
    queue, and stops when all it was asked for is there; all others are as before.
    Afterwards the sequence and the converter's steps are exactly the channels that
    are active, or the converter is off. *)
Theorem adc_converts w c m : adc_ok w c -> hw_enabled (hw w) = true ->
  exists w', isr m w = Some ((), w') /\
    let c' := convert_all (hw_steps (hw w)) m c in
    adc_ok w' c' /\
    (hw_enabled (hw w') = true -> forall i, i ∈ hw_steps (hw w') <-> (i < NUM_ADC)%nat /\ von (c' i) = true) /\
    (hw_enabled (hw w') = false -> forall i, (i < NUM_ADC)%nat -> von (c' i) = false).
Proof.
  intros Hok Hen. destruct (interrupt_run w c m Hok) as (w' & Hrun & _ & Hlive). specialize (Hlive Hen).
  exists w'. split; [done|]. destruct Hlive as [Hok' Hall]. split_and!; [done| |].
  - intros Hen' i. split; [|intros [Hi Hv]; by apply Hall]. intros Hi.
    split; [by apply (steps_bound w' _ i (ok_seq _ _ Hok'))|by apply (ok_on _ _ Hok' Hen')].
  - intros Hoff i Hi. destruct (von _) eqn:Ev; [|done]. destruct (Hall i Hi Ev). congruence.
Qed.

(** ** Setting the filter *)

Lemma zero_cells_ok n : forall a b, Z.of_nat (length a + n) <= 65536 -> length b = n ->
  zero_cells n (u16 (Z.of_nat (length a))) (a ++ b) = Some (a ++ replicate n 0).
Proof.
  induction n as [|n IH]; intros a b Hn Hb; cbn [zero_cells].
  - by apply nil_length_inv in Hb as ->.
  - destruct b as [|y b]; [done|]. rewrite (u16_small (Z.of_nat (length a))) by word_lia. unfold store. rewrite Nat2Z.id.
    rewrite decide_True by (rewrite length_app; simpl; lia). cbn [mbind option_bind].
    rewrite insert_app_r_alt, Nat.sub_diag by lia. change (u8 0) with 0. simpl (<[_ := _]> _).
    specialize (IH (a ++ [0]) b). rewrite length_app in IH. simpl in IH, Hb.
    replace (Z.of_nat (length a + 1)) with (Z.of_nat (length a) + 1) in IH by lia.
    rewrite <- !app_assoc in IH. apply IH; lia.
Qed.

Lemma flushed d : fifo_ok d -> dsize d = 2%nat -> fifo_ok (buf_flush_desc d) /\
  fifo_list (buf_flush_desc d) = [] /\ dsize (buf_flush_desc d) = 2%nat /\ nelem (buf_flush_desc d) = nelem d.
Proof.
  intros Hok Hd. split_and!; [|done|done|done]. destruct Hok as [H1 H2 H3 [H4 H5] _ _].
  change (buf_wf 0 (buf_flush_desc d) (head_at (buf_flush_desc d)) 0).
  assert (head_at (buf_flush_desc d) = 0%nat) as -> by (unfold head_at; apply Nat.Div0.div_0_l).
  assert (0 < nelem (buf_flush_desc d))%nat as Hpos by (change (nelem (buf_flush_desc d)) with (nelem d); lia).
  split; [done|done|done|by split| |split; [done|lia]]. by rewrite Nat.Div0.mod_0_l.
Qed.

(** The ring of a filter that has seen nothing. *)
Lemma flush_smoothing_run w i s d k : present w i -> logsmoothlen s = Z.of_nat k -> (k <= 15)%nat ->
  ((0 < k)%nat -> exists b, smoothbuf s = Some b /\ length b = (2 ^ k)%nat) ->
  exists s', adc_flush_smoothing i (set_chan i s d w) = Some ((), set_chan i s' d w) /\
    filtered k s' [] /\ kept s s' /\ value_fresh s' = value_fresh s /\ reqsamples s' = reqsamples s.
Proof.
  intros Hw Hlog Hk Hb. unfold adc_flush_smoothing. rewrite (M_bind_run _ _ _ _ _ (upd_run w i Hw _ s d)).
  set (s1 := set_smooth_ready 0 _). rewrite (M_bind_run _ _ _ _ _ (get_run w i Hw s1 d)).
  change (logsmoothlen s1) with (logsmoothlen s). rewrite Hlog, Z.gtb_ltb. change (smoothbuf s1) with (smoothbuf s).
  destruct (Z.ltb_spec 0 (Z.of_nat k)) as [H0|H0]; cbn [when].
  - destruct (Hb ltac:(lia)) as (b & Hbuf & Hlen). destruct (pow_small k Hk) as [Hp1 Hp2].
    assert (SMOOTH_REALSIZE s1 = Z.of_nat (2 ^ k)) as ->.
    { unfold SMOOTH_REALSIZE. change (logsmoothlen s1) with (logsmoothlen s). by rewrite Z.shiftl_1_l, Hlog, Nat2Z.inj_pow. }
    rewrite duff_count_pos, Nat2Z.id by lia.
    pose proof (zero_cells_ok (2 ^ k) [] b ltac:(simpl; lia) Hlen) as Hz. change (u16 (Z.of_nat (length []))) with 0 in Hz.
    simpl in Hz. rewrite Hbuf. cbn [mbind option_bind]. rewrite Hz, bind_pure, (upd_run w i Hw).
    eexists. split; [reflexivity|]. unfold filtered. split_and!; try done. intros _.
    exists [], (replicate (2 ^ k) 0). split; simpl; try done.
    assert (forall n, Zsum (replicate n 0) = 0) as H; [|by rewrite H].
    induction n as [|n IH]; [done|]. simpl. by rewrite IH.
  - exists s1. split; [done|]. unfold filtered. split_and!; try done. lia.
Qed.

(** The filter starts over, with [2 ^ k] samples; if there is no memory, without. *)
Lemma smoothing_run realloc16 w c i k : adc_ok w c -> (i < NUM_ADC)%nat -> von (c i) = false -> vq (c i) = [] ->
  (k <= 15)%nat -> (forall p n b, 0 <= n -> realloc16 p n = Some b -> Z.of_nat (length b) = n) ->
  exists r w', adc_update_smoothing true NU NV realloc16 i (Z.of_nat k) w = Some (r, w') /\ hw w' = hw w /\
    (r = PLATFORM_OK /\ adc_ok w' (fupd c i (View k [] [] (vreq (c i)) false)) \/
     r = PLATFORM_ERR /\ adc_ok w' (fupd c i (View 0 (vh (c i)) [] (vreq (c i)) false))).
Proof.
  intros Hok Hi Hoff Hq0 Hk Hre. destruct (sys_chan _ _ (ok_channels _ _ Hok) i Hi) as (s & d & Hch & Hrep).
  pose proof (present_chan w i s d Hch) as Hw. pose proof (rep_samples _ _ _ _ _ Hrep) as Hsam.
  assert (value_fresh s = 0) as Hf0.
  { rewrite Hq0 in Hsam. destruct (q_list _ _ _ _ Hsam) as [[? _]|(_ & _ & y & _ & Hy)]; done. }
  assert (Hdone : forall s' d' v', rep (sample_buf (adc_dev_state w)) i s' d' v' -> value_ptr s' = value_ptr s ->
    von v' = false -> adc_ok (set_chan i s' d' w) (fupd c i v')).
  { intros s' d' v' Hrep' Hp Hv. destruct Hok as [Hc Hs Hr Hct Hon].
    assert (forall j, von (fupd c i v' j) = von (c j)) as Hvon by (intros j; unfold fupd; case_decide; [subst; congruence|done]).
    split; try done.
    - split; try apply Hc; [by apply (set_chan_channels w c i s d s' d' v')|]. intros j Hj. rewrite Hvon. by apply Hc.
    - by apply (set_chan_seq w i s d).
    - intros Hen. destruct (Hon Hen) as [? Hall]. split; [done|]. intros j Hj. rewrite Hvon. by apply Hall. }
  unfold adc_update_smoothing. pose proof (get_run w i Hw s d) as Hg. rewrite (set_same w i s d Hch) in Hg.
  rewrite (M_bind_run _ _ _ _ _ Hg). rewrite (rep_pending _ _ _ _ _ Hrep), Hoff. change (0 =? 1) with false. cbn [when].
  rewrite (M_bind_run (mret ()) _ w () w eq_refl), (M_bind_run _ _ _ _ _ Hg).
  assert (exists s1 (failed : bool), (if negb (Z.of_nat k =? logsmoothlen s) then
      _ ← upd_ch i (set_logsmoothlen (Z.of_nat k));
      s ← adc_get_ch_state i;
      let block := realloc16 (smoothbuf s) (SMOOTH_REALSIZE s) in
      _ ← upd_ch i (set_smoothbuf block);
      match block with
      | None =>
          _ ← upd_ch i (fun s => set_smoothidx 0 (set_smooth_ready 0 (set_smoothsum 0 (set_logsmoothlen 0 s))));
          mret (negb (Z.of_nat k =? 0))
      | Some _ => mret false
      end
    else mret false) w = Some (failed, set_chan i s1 d w) /\
    (op_pending s1 = op_pending s /\ blocking s1 = blocking s /\ freerunning s1 = freerunning s /\ id s1 = id s /\
     value_ptr s1 = value_ptr s /\ value_fresh s1 = value_fresh s /\ reqsamples s1 = reqsamples s) /\
    if failed then logsmoothlen s1 = 0
    else logsmoothlen s1 = Z.of_nat k /\ ((0 < k)%nat -> exists b, smoothbuf s1 = Some b /\ length b = (2 ^ k)%nat))
    as (s1 & failed & Hrun & (K1 & K2 & K3 & K4 & K5 & K6 & K7) & Hs1).
  { destruct (Z.eqb_spec (Z.of_nat k) (logsmoothlen s)) as [E|E]; cbn [negb].
    - exists s, false. rewrite (set_same w i s d Hch). split_and!; try done. intros H0.
      destruct (rep_filter _ _ _ _ _ Hrep) as (El & _ & _ & Hring). assert (vk (c i) = k) as Ek by lia. rewrite Ek in Hring.
      destruct (Hring H0) as (a & b & Hab). exists (a ++ b). split; [apply Hab|].
      rewrite length_app. apply (ring_length _ _ _ _ _ Hab).
    - pose proof (upd_run w i Hw (set_logsmoothlen (Z.of_nat k)) s d) as Hu. rewrite (set_same w i s d Hch) in Hu.
      rewrite (M_bind_run _ _ _ _ _ Hu), (M_bind_run _ _ _ _ _ (get_run w i Hw _ d)).
      set (s0 := set_logsmoothlen (Z.of_nat k) s). cbv zeta.
      destruct (realloc16 (smoothbuf s0) (SMOOTH_REALSIZE s0)) as [b|] eqn:Eb;
        rewrite (M_bind_run _ _ _ _ _ (upd_run w i Hw _ s0 d)).
      + exists (set_smoothbuf (Some b) s0), false. split_and!; try done. intros H0. exists b. split; [done|].
        apply Hre in Eb; unfold SMOOTH_REALSIZE in *; rewrite Z.shiftl_1_l in *; simpl in *.
        * apply Nat2Z.inj. rewrite Nat2Z.inj_pow. exact Eb.
        * apply Z.pow_nonneg. lia.
      + rewrite (M_bind_run _ _ _ _ _ (upd_run w i Hw _ _ d)). eexists _, _. split; [reflexivity|].
        split_and!; try done. destruct (Z.eqb_spec (Z.of_nat k) 0) as [E0|E0]; cbn [negb]; [|done].
        split; [done|lia]. }
  rewrite (M_bind_run _ _ _ _ _ Hrun). destruct failed; cbn [negb].
  - exists PLATFORM_ERR, (set_chan i s1 d w). split_and!; [done|done|]. right. split; [done|]. apply Hdone; [|done|done].
    destruct Hrep as [Hid Hptr Hf Hsm Hreq Hroom Hfr Hfree Hblk Hpend Hv Hcold]. rewrite Hoff in Hpend.
    split; simpl; try first [assumption|congruence].
    + intros p. rewrite K5. apply Hptr.
    + destruct Hf as (_ & _ & Hu & _). split_and!; [done|lia|done|lia].
    + rewrite <- Hq0. by apply (samples_ext w s).
  - destruct Hs1 as [Hlog Hb1].
    destruct (flush_smoothing_run w i s1 d k Hw Hlog Hk Hb1) as (s2 & Hrun2 & Hf2 & (L1 & L2 & L3 & L4 & L5 & L6) & Hfr2 & Hr2).
    rewrite (M_bind_run _ _ _ _ _ Hrun2). cbn [when]. rewrite (M_bind_run _ _ _ _ _ (flush_run w i Hw s2 d)).
    destruct (flushed d (q_ok _ _ _ _ Hsam) (q_size _ _ _ _ Hsam)) as (F1 & F2 & F3 & F4).
    exists PLATFORM_OK, (set_chan i s2 (buf_flush_desc d) w). split_and!; [done|done|]. left. split; [done|].
    apply Hdone; [|congruence|done].
    destruct Hrep as [Hid Hptr Hf Hsm Hreq Hroom Hfr Hfree Hblk Hpend Hv Hcold]. rewrite Hoff in Hpend.
    split; simpl; try first [assumption|congruence].
    + intros p. rewrite L6, K5. apply Hptr.
    + split; try done. left. split; [congruence|done].
Qed.
End Spec.

(** ** Examples

    Four channels; the second has a filter of two samples. *)

Definition grow (p : option (list Z)) (n : Z) : option (list Z) := Some (resize (Z.to_nat n) 0 (default [] p)).
Definition zero_adc : adc := Adc ((fun i => Ch 0 0 0 0 0 i 0 0 0 None 0 None) <$> seq 0 4)
  (Dev (replicate 4 None) (replicate 4 0) 0 0 0 0 0 0 0 0 0 0) [[]; replicate 4 (BufDesc 0 0 0 0 0 None)] [].
Definition set_up : M adc unit :=
  _ ← adcs_init 4 true 1 0 0 grow 100 (fun _ _ => 1);
  _ ← adc_setsmoothing 4 true 0 0 grow 1 2;
  mret ().
Definition ready_adc : adc := Eval vm_compute in default zero_adc (snd <$> set_up zero_adc).
Example adc_sets_up : set_up zero_adc = Some ((), ready_adc).
Proof. by vm_compute. Qed.
Definition ready_view (i : nat) : view := View (if decide (i = 1%nat) then 1 else 0) [] [] 0 false.

Definition ready_ch (i : nat) : ch :=
  if decide (i = 1%nat) then Ch 0 1 0 0 0 1 1 0 0 (Some [0; 0]) 0 None else Ch 0 1 0 0 0 i 0 0 0 None 0 None.
Definition ready_buf : buf_desc := BufDesc 2 1 0 0 0 (Some [0; 0; 0; 0]).
Lemma ready_buf_ok : fifo_ok ready_buf.
Proof.
  change (buf_wf 0 ready_buf 0 0). split; [by vm_compute|split; by vm_compute|by eexists|split; [done|vm_compute; lia]
    |done|split; [done|vm_compute; lia]].
Qed.
Lemma ready_rep i : rep (replicate 4 0) i (ready_ch i) ready_buf (ready_view i).
Proof.
  unfold ready_ch, ready_view. destruct (decide (i = 1%nat)) as [->|Hi]; split; simpl; try done.
  - split_and!; [done|lia|by constructor|]. intros _. exists [], [0; 0]. by split.
  - split; [apply ready_buf_ok|done|by constructor|by left].
  - split_and!; [done|lia|by constructor|lia].
  - split; [apply ready_buf_ok|done|by constructor|by left].
Qed.
Lemma ready_ok : adc_ok 0 0 4 ready_adc ready_view.
Proof.
  split; [split|split|by split|vm_compute; lia|done]; try done.
  - intros i Hi. exists (ready_ch i), ready_buf. split; [|apply ready_rep].
    do 4 (destruct i as [|i]; [by split|]). lia.
  - intros i Hi. do 4 (destruct i as [|i]; [done|]). lia.
Qed.

(** What is measured at a channel. *)
Definition measure (n : Z) (i : nat) : Z := 100 * Z.of_nat i + n.
Definition seven : list (nat -> Z) := measure <$> [1; 2; 3; 4; 5; 6; 7].

(** A filter of two samples takes three before it gives an average. *)
Definition first_request : M adc (luaL (list Z)) :=
  _ ← adc_sample 4 true 99 0 0 grow (LuaTable [1]%nat) 4; adc_getsamples 4 true 99 0 0 1 4 seven [].
Definition warm_adc : adc := Eval vm_compute in default zero_adc (snd <$> first_request ready_adc).
Example cold_filter : first_request ready_adc = Some (Returns [103; 104; 105; 106], warm_adc).
Proof. by vm_compute. Qed.
(** After this the filter is warm. *)
Definition warm_view (i : nat) : view :=
  if decide (i = 1%nat) then View 1 [101; 102; 103; 104; 105; 106; 107] [] 0 false else View 0 [] [] 0 false.
Definition warm_ch (i : nat) : ch :=
  if decide (i = 1%nat) then Ch 0 1 0 1 0 1 1 1 213 (Some [107; 106]) 0 (Some 1%nat) else Ch 0 1 0 0 0 i 0 0 0 None 0 None.
Definition warm_buf (i : nat) : buf_desc :=
  if decide (i = 1%nat) then BufDesc 3 1 0 0 0 (Some [104; 0; 105; 0; 106; 0; 107; 0]) else ready_buf.
Lemma warm_buf_ok i : fifo_ok (warm_buf i).
Proof.
  unfold warm_buf. destruct (decide _); [|apply ready_buf_ok]. change (buf_wf 0 (BufDesc 3 1 0 0 0 (Some [104; 0; 105; 0; 106; 0; 107; 0])) 0 0).
  split; [by vm_compute|split; by vm_compute|by eexists|split; [done|vm_compute; lia]|done|split; [done|vm_compute; lia]].
Qed.
Lemma warm_rep i : rep [0; 107; 0; 0] i (warm_ch i) (warm_buf i) (warm_view i).
Proof.
  pose proof (warm_buf_ok i) as Hb. unfold warm_ch, warm_view, warm_buf in *. destruct (decide (i = 1%nat)) as [->|Hi]; split; simpl; try done.
  - by intros p [= <-].
  - split_and!; [done|lia|by_decide|]. intros _. exists [107], [106]. split; [done..|by cbn; lia].
  - split; [done|done|by constructor|by left].
  - split_and!; [done|lia|by constructor|lia].
  - split; [done|done|by constructor|by left].
Qed.
Lemma warm_ok : adc_ok 0 0 4 warm_adc warm_view.
Proof.
  split; [split|split|by split|vm_compute; lia|done]; try done.
  - intros i Hi. exists (warm_ch i), (warm_buf i). split; [|apply warm_rep].
    do 4 (destruct i as [|i]; [by split|]). lia.
  - intros i Hi. do 4 (destruct i as [|i]; [done|]). lia.
  - intros i s [<-|[]] [= <-]. done.
Qed.
Lemma adc_request_witness : exists w1 w2,
  adc_sample 4 true 99 0 0 grow (LuaTable [1; 3]%nat) 4 warm_adc = Some (Returns (), w1) /\
  adc_getsamples 4 true 99 0 0 1 4 seven [[measure 8]; []; [measure 9; measure 10]] w1
  = Some (Returns [104; 101; 102; 103], w2) /\ platform_adc_is_done 1 w2 = Some (true, w2).
Proof.
  destruct (adc_request 0 0 4 ltac:(lia) 99 grow warm_adc warm_view 2 [1; 3]%nat 1 seven
    [[measure 8]; []; [measure 9; measure 10]]) as (w1 & w2 & H1 & H2 & _ & H3).
  - by_decide.
  - lia.
  - intros p n Hn. eexists. split; [reflexivity|]. rewrite length_resize. lia.
  - exact warm_ok.
  - done.
  - intros j Hj. repeat (apply elem_of_cons in Hj as [->|Hj]; [by split; [lia|]|]). by apply not_elem_of_nil in Hj.
  - done.
  - by vm_compute.
  - exists w1, w2. split_and!; [exact H1|exact H2|exact H3].
Defined.

(** Converting. *)
Definition running_adc : adc := Eval vm_compute in default zero_adc (snd <$> adc_sample 4 true 99 0 0 grow (LuaTable [1; 3]%nat) 4 ready_adc).
Lemma adc_converts_witness : exists w', adc_interrupt 4 true 99 0 0 (measure 7) running_adc = Some ((), w') /\
  hw_steps (hw running_adc) = [1; 3]%nat /\
  adc_ok 0 0 4 w' (fun i => if decide (i = 1%nat) then View 1 [107] [] 4 true
                      else if decide (i = 3%nat) then View 0 [] [307] 4 true else View 0 [] [] 0 false).
Proof.
  destruct (sample_run 0 0 4 ltac:(lia) 99 grow 2 [1; 3]%nat ready_adc ready_view) as (w & Hrun & [Hok _]).
  - intros p n Hn. eexists. split; [reflexivity|]. rewrite length_resize. lia.
  - lia.
  - exact ready_ok.
  - done.
  - done.
  - intros j Hj. split; [|done]. repeat (apply elem_of_cons in Hj as [->|Hj]; [lia|]). by apply not_elem_of_nil in Hj.
  - assert (w = running_adc) as -> by (vm_compute in Hrun; injection Hrun as <-; by vm_compute).
    destruct (adc_converts 0 0 4 ltac:(lia) 99 running_adc _ (measure 7) Hok) as (w' & H & Hok' & _); [done|].
    exists w'. split_and!; [exact H|done|]. eapply adc_ok_ext; [lia| |exact Hok'].
    intros i Hi. do 4 (destruct i as [|i]; [by vm_compute|]). lia.
Defined.

(** Setting the clock disables the sequencer, also while other channels are being
    converted, and nothing enables it again: the device counts as running, so that
    a new request does not start it. *)
Definition clock_while_busy : M adc (luaL (list Z)) :=
  _ ← adc_setclock 4 100 (fun _ _ => 1) (fun _ => true) (fun _ => true) 1 0 0;
  adc_getsamples 4 true 99 0 0 3 4 (seven ++ seven) [].
Definition clock_then_sample : M adc (luaL (list Z)) :=
  _ ← adc_setclock 4 100 (fun _ _ => 1) (fun _ => true) (fun _ => true) 1 0 0;
  _ ← adc_sample 4 true 99 0 0 grow (LuaNumber 0) 4;
  adc_getsamples 4 true 99 0 0 0 4 (seven ++ seven) [].
Example setclock_hangs : clock_while_busy running_adc = None /\ clock_then_sample running_adc = None /\
  fst <$> adc_getsamples 4 true 99 0 0 3 4 (seven ++ seven) [] running_adc = Some (Returns [301; 302; 303; 304]).
Proof. by vm_compute. Qed.

(** A sample that has not been taken stays available when a filter is set, and the
    next sample taken is a zero that was never measured. *)
Definition filter_on_fresh : M adc (luaL (option Z)) :=
  _ ← adc_sample 4 true 99 0 0 grow (LuaNumber 2) 1;
  _ ← adc_interrupt 4 true 99 0 0 (measure 5);
  _ ← adc_setsmoothing 4 true 0 0 grow 2 4;
  adc_getsample 4 true 99 0 0 2 [].
Example fresh_survives_flush : fst <$> filter_on_fresh ready_adc = Some (Returns (Some 0)).
Proof. by vm_compute. Qed.

(** Asking for samples of no channel: an empty sequence is set up, through a null
    pointer. *)
Definition sample_nothing : M adc (luaL unit) :=
  _ ← adc_sample 4 true 99 0 0 grow (LuaNumber 2) 1;
  _ ← adc_interrupt 4 true 99 0 0 (measure 5);
  adc_sample 4 true 99 0 0 grow (LuaTable []) 1.
Example sample_nothing_null : sample_nothing ready_adc = None.
Proof. by vm_compute. Qed.

(** More than [2 ^ 15] samples do not fit the count: none are asked for, and the
    channel stops with the first. *)
Example sample_65536 : (fun s => reqsamples s) <$>
  (w ← snd <$> adc_setup_channel true 0 0 (fun _ _ => Some []) 2 16 ready_adc; adc_ch_state w !! 2%nat) = Some 0.
Proof. by vm_compute. Qed.
