(* ===== verification/Shell.v ===== *)
(** * Shell: the command line

    Models src/shell/shell.c and inc/shell.h: how a line of input becomes the
    arguments of a command, how the command is found and run, the questions a
    command asks, and the loop that reads lines. The commands on files are in
    ShellFiles.

    A command line is edited in place in its buffer; here it is the string the
    buffer holds, and the size of the buffer is checked where something is
    added. *)

From S2P Require Import Prelude Genstd CommonFs Linenoise Term.

Definition SHELL_ALT_SPACE : Z := 7.
Definition SHELL_MAX_ARGS : nat := 10.
Definition SHELL_MAXSIZE : nat := 50.
Definition SPACE : Z := 32.

Definition NL : list Z := [10].

(** ** From a line to arguments *)

Definition is_quote (c : Z) : bool := (c =? 39) || (c =? 34).
Definition unblank (c : Z) : Z := if (c =? 13) || (c =? 10) || (c =? 9) then SPACE else c.

(** A space inside quotes becomes another character. [q]: the quote that is
    open; also what is open at the end. *)
Fixpoint mark_quotes (q : option Z) (l : list Z) : list Z * option Z :=
  match l with
  | [] => ([], q)
  | c :: l =>
      if is_quote c then
        let '(r, e) := mark_quotes (match q with
                                    | None => Some c
                                    | Some k => if c =? k then None else q
                                    end) l in (c :: r, e)
      else
        let '(r, e) := mark_quotes q l in
        ((if (c =? SPACE) && bool_decide (q <> None) then SHELL_ALT_SPACE else c) :: r, e)
  end.

(** One space for several. *)
Fixpoint squeeze (l : list Z) : list Z :=
  match l with
  | [] => []
  | a :: r =>
      match r with
      | [] => [a]
      | b :: _ => if (a =? SPACE) && (b =? SPACE) then squeeze r else a :: squeeze r
      end
  end.

(** The strings in front of the spaces; what follows the last space is left out.
    [None]: too many. *)
Fixpoint split_args (l cur : list Z) (argc : nat) : option (list (list Z)) :=
  match l with
  | [] => Some []
  | c :: l =>
      if c =? SPACE then
        if (argc =? SHELL_MAX_ARGS)%nat then None else cons cur <$> split_args l [] (S argc)
      else split_args l (cur ++ [c]) argc
  end.

Definition put_back (c : Z) : Z := if c =? SHELL_ALT_SPACE then SPACE else c.
Definition remove_quotes (p : list Z) : list Z :=
  match p with
  | q :: r => if is_quote q && bool_decide (last p = Some q) then take (length r - 1) r else p
  | [] => []
  end.

Inductive parsed := EmptyLine | BadQuotes | TooManyArgs | Args (argv : list (list Z)).

(** [None]: outside the buffer, of [size] bytes. *)
Definition parse_command (size : Z) (cmd : list Z) : option parsed :=
  if (length cmd =? 0)%nat then Some EmptyLine else
  cmd ← (if bool_decide (last cmd = Some 10) then Some cmd else strcat size cmd NL);
  let '(cmd, open) := mark_quotes None (unblank <$> cmd) in
  if bool_decide (open <> None) then Some BadQuotes else
  let cmd := squeeze cmd in
  if bool_decide (cmd = [SPACE]) then Some EmptyLine else
  let skip := if bool_decide (head cmd = Some SPACE) then 1%nat else 0%nat in
  let p := drop skip cmd in
  c ← last p;
  p ← (if c =? SPACE then Some p else strcat (size - Z.of_nat skip) p [SPACE]);
  Some match split_args p [] 0 with
       | None => TooManyArgs
       | Some argv => Args ((fun a => remove_quotes (put_back <$> a)) <$> argv)
       end.

(** ** The shell *)

(** Keys to come, characters shown, and everything else: [S]. *)
Record world (S : Type) := World { w_keys : list Z; w_out : list Z; w_sys : S }.
Arguments World {S} w_keys w_out w_sys. Arguments w_keys {S} w. Arguments w_out {S} w. Arguments w_sys {S} w.

Section Shell.
Context {S : Type}.
Abbreviation W := (world S).

Definition fail {A} : M W A := fun _ => None.
Definition ret_opt {A} (x : option A) : M W A := fun w => a ← x; Some (a, w).
(** The keys that come. *)
Definition keys_now : M W (list Z) := fun w => Some (w_keys w, w).

Definition printf (s : list Z) : M W unit := fun w => Some ((), World (w_keys w) (w_out w ++ s) (w_sys w)).
(** [None]: no key comes. *)
Definition term_getch_wait : M W Z := fun w =>
  match w_keys w with [] => None | c :: ks => Some (c, World ks (w_out w) (w_sys w)) end.

(** The keys until one is an answer. *)
Fixpoint ask_loop (keys : list Z) : M W Z :=
  match keys with
  | [] => fail
  | _ :: keys =>
      c ← term_getch_wait;
      if (c =? 121) || (c =? 89) then _ ← printf (lit "y" ++ NL); mret 1
      else if (c =? 110) || (c =? 78) then _ ← printf (lit "n" ++ NL); mret 0
      else ask_loop keys
  end.
Definition shellh_ask_yes_no (prompt : option (list Z)) : M W Z :=
  _ ← match prompt with Some p => printf (p ++ lit " ") | None => mret () end;
  keys ← keys_now; ask_loop keys.

Definition SHELL_ERRMSG : list Z := lit "Invalid command, type 'help' for help" ++ NL.
Definition shellh_not_implemented_handler (argv : list (list Z)) : M W unit := printf SHELL_ERRMSG.
Definition shellh_show_help (cmd helptext : list Z) : M W unit := printf (lit "Usage: " ++ cmd ++ lit " " ++ helptext).

(** [handler_func]: [None] for a null pointer. *)
Record SHELL_COMMAND := mkCommand { cmd : list Z; handler_func : option (list (list Z) -> M W unit) }.

(** The pointer returned: null, to the entry that ends the table, or to a
    command. *)
Inductive executed := Nothing | TableEnd | Command (c : SHELL_COMMAND).

(** [shell_commands]: the table the configurator makes, without its last entry. *)
Context (shell_commands : list SHELL_COMMAND).

Definition find_command (name : list Z) : option SHELL_COMMAND :=
  snd <$> list_find (fun c => strcaseeq (cmd c) name = true) shell_commands.

Definition shellh_execute_command (size : Z) (line : list Z) (interactive_mode : bool) : M W executed :=
  p ← ret_opt (parse_command size line);
  match p with
  | EmptyLine => mret Nothing
  | BadQuotes => _ ← printf (lit "Invalid quoted string" ++ NL); mret Nothing
  | TooManyArgs => _ ← printf (lit "Error: too many arguments" ++ NL); mret Nothing
  | Args argv =>
      name ← ret_opt (head argv);
      match find_command name with
      | None =>
          _ ← printf SHELL_ERRMSG;
          (* otherwise strcasecmp of a null pointer *)
          if interactive_mode then mret TableEnd else fail
      | Some c =>
          _ ← match handler_func c with
              | Some f => if interactive_mode || negb (strcaseeq (cmd c) (lit "lua")) then f argv else mret ()
              | None => mret ()
              end;
          mret (if negb interactive_mode && strcaseeq (cmd c) (lit "exit") then Nothing else Command c)
      end
  end.

(** [elua.shell] of src/modules/elua.c: a copy of the command, with two bytes
    more. *)
Definition elua_shell (line : list Z) : M W executed :=
  shellh_execute_command (Z.of_nat (length line) + 2) line false.

(** ** The loop

    The line editor works on the keys that come; [max], [cols]: its history and
    the width of the terminal. [saved]: its history is part of the state. *)
Context (max cols : nat) (hist_of : S -> history) (set_hist : history -> S -> S).
Definition SHELL_PROMPT : list Z := lit "eLua# ".

Definition getline (buffer : list Z) : M W (Z * list Z) := fun w =>
  e ← linenoise_getline max cols buffer (SHELL_MAXSIZE - 1) SHELL_PROMPT (hist_of (w_sys w)) (w_keys w);
  Some ((e_res e, e_buf e), World (e_keys e) (w_out w ++ bytes_of (e_out e)) (set_hist (e_hist e) (w_sys w))).
(** [while( linenoise_getline( ... ) == -1 )]: every round uses up a key. *)
Fixpoint getline_until (keys : list Z) (buffer : list Z) : M W (list Z) :=
  '(r, buffer) ← getline buffer;
  if r =? -1 then
    match keys with
    | [] => fail
    | _ :: keys => _ ← printf NL; getline_until keys buffer
    end
  else mret buffer.
Definition addhistory (line : list Z) : M W unit := fun w =>
  '(_, h) ← linenoise_addhistory max line (hist_of (w_sys w));
  Some ((), World (w_keys w) (w_out w) (set_hist h (w_sys w))).

(** Until "exit"; one round uses up a key at least. What the command makes of
    the buffer does not matter: the next line starts it over. *)
Fixpoint shell_loop (fuel : nat) (buffer : list Z) : M W unit :=
  match fuel with
  | O => fail
  | Datatypes.S fuel =>
      keys ← keys_now;
      buffer ← getline_until keys buffer;
      line ← ret_opt (str_at buffer 0);
      if (length line =? 0)%nat then shell_loop fuel buffer
      else
        _ ← addhistory line;
        pcmd ← shellh_execute_command (Z.of_nat (length buffer)) line true;
        match pcmd with
        | Command c => if bool_decide (is_Some (handler_func c)) then shell_loop fuel buffer else mret ()
        | _ => shell_loop fuel buffer
        end
  end.
Definition shell_start (version : list Z) (buffer : list Z) : M W unit :=
  _ ← printf (NL ++ lit "eLua " ++ version ++ lit "  Copyright (C) 2007-2013 www.eluaproject.net" ++ NL);
  keys ← keys_now; shell_loop (Datatypes.S (length keys)) buffer.
End Shell.

(** ** What a command line means *)

Definition is_blank (c : Z) : Prop := c = 32 \/ c = 9 \/ c = 10 \/ c = 13.
(** Characters of a word that is not quoted. *)
Definition plain_char (c : Z) : Prop := ~ is_blank c /\ is_quote c = false /\ c <> 0 /\ c <> SHELL_ALT_SPACE.
(** Characters between two quotes [q]. *)
Definition quoted_char (q c : Z) : Prop := c <> q /\ c <> 0 /\ c <> SHELL_ALT_SPACE.

#[export] Instance is_blank_dec c : Decision (is_blank c).
Proof. unfold is_blank. solve_decision. Defined.
#[export] Instance plain_char_dec c : Decision (plain_char c).
Proof. unfold plain_char. solve_decision. Defined.
#[export] Instance quoted_char_dec q c : Decision (quoted_char q c).
Proof. unfold quoted_char. solve_decision. Defined.

(** The text of a word, and the argument it is: itself, or what is between its
    quotes, with every blank a space. *)
Inductive word : list Z -> list Z -> Prop :=
  | word_plain s : s <> [] -> Forall plain_char s -> word s s
  | word_quoted q s : is_quote q = true -> Forall (quoted_char q) s -> word (q :: s ++ [q]) (unblank <$> s).
(** Words with blanks between them; more blanks at both ends. *)
Inductive line : list Z -> list (list Z) -> Prop :=
  | line_end bs : Forall is_blank bs -> line bs []
  | line_word bs w a rest args : Forall is_blank bs -> word w a -> line rest args ->
      (rest = [] \/ exists c r, rest = c :: r /\ is_blank c) -> line (bs ++ w ++ rest) (a :: args).

(** *** After the first passes *)

(** Words without spaces, each followed by one space more than its number. *)
Definition spaced (n : nat) (ts : list (list Z * nat)) : list Z :=
  replicate n SPACE ++ concat ((fun t => t.1 ++ replicate (S t.2) SPACE) <$> ts).
Definition solid (t : list Z) : Prop := t <> [] /\ (SPACE ∉ t).

Lemma unblank_blank c : is_blank c -> unblank c = SPACE.
Proof. by intros [-> | [-> | [-> | ->]]]. Qed.
Lemma unblank_plain c : plain_char c -> unblank c = c /\ c <> SPACE.
Proof.
  intros (H & _). unfold is_blank, unblank in *. split; [|intros ->; apply H; by left].
  destruct (Z.eqb_spec c 13), (Z.eqb_spec c 10), (Z.eqb_spec c 9); try done; destruct H; lia.
Qed.
Lemma unblank_quote c q : is_quote q = true -> unblank c = q <-> c = q.
Proof.
  unfold is_quote, unblank. rewrite orb_true_iff, !Z.eqb_eq. intros Hq.
  destruct (Z.eqb_spec c 13), (Z.eqb_spec c 10), (Z.eqb_spec c 9); cbn [orb]; unfold SPACE; lia.
Qed.
Lemma unblank_is_quote c : is_quote (unblank c) = is_quote c.
Proof.
  unfold unblank. destruct (Z.eqb_spec c 13), (Z.eqb_spec c 10), (Z.eqb_spec c 9); by subst.
Qed.

Lemma mark_spaces n l : mark_quotes None (replicate n SPACE ++ l)
  = (replicate n SPACE ++ (mark_quotes None l).1, (mark_quotes None l).2).
Proof.
  induction n as [|n IH]; cbn [replicate app mark_quotes]; [by destruct (mark_quotes None l)|].
  change (is_quote SPACE) with false. cbv iota. rewrite IH. done.
Qed.
Lemma mark_plain s l : Forall plain_char s -> mark_quotes None ((unblank <$> s) ++ l)
  = (s ++ (mark_quotes None l).1, (mark_quotes None l).2).
Proof.
  induction 1 as [|c s Hc _ IH]; rewrite ?fmap_nil, ?fmap_cons; cbn [app mark_quotes]; [by destruct (mark_quotes None l)|].
  destruct (unblank_plain c Hc) as [E Hne]. rewrite E. assert (is_quote c = false) as -> by apply Hc.
  rewrite IH. by rewrite andb_false_r.
Qed.
Definition alt (c : Z) : Z := if c =? SPACE then SHELL_ALT_SPACE else c.
Lemma mark_inside q s l : is_quote q = true -> Forall (quoted_char q) s ->
  mark_quotes (Some q) ((unblank <$> s) ++ q :: l)
  = ((alt <$> (unblank <$> s)) ++ q :: (mark_quotes None l).1, (mark_quotes None l).2).
Proof.
  intros Hq. induction 1 as [|c s Hc _ IH]; rewrite ?fmap_nil, ?fmap_cons; cbn [app mark_quotes].
  - rewrite Hq, Z.eqb_refl. by destruct (mark_quotes None l).
  - rewrite unblank_is_quote. destruct (is_quote c) eqn:Ec.
    + assert (unblank c = c) as ->.
      { apply (proj2 (unblank_quote c c Ec)). done. }
      rewrite (proj2 (Z.eqb_neq c q)) by apply Hc. rewrite IH. cbn [fst snd]. do 2 f_equal.
      unfold alt. by destruct (Z.eqb_spec c SPACE) as [->|].
    + rewrite IH, bool_decide_true by done. by rewrite andb_true_r.
Qed.

(** *** Spaces and words *)

Lemma squeeze_cons a l : squeeze (a :: l) = if (a =? SPACE) && bool_decide (head l = Some SPACE) then squeeze l else a :: squeeze l.
Proof.
  cbn [squeeze]. destruct l as [|b l]; [by rewrite bool_decide_false, andb_false_r|]. cbn [head].
  destruct (Z.eqb_spec b SPACE) as [->|Hb]; [by rewrite bool_decide_true|].
  rewrite bool_decide_false by congruence. done.
Qed.
Lemma squeeze_solid t l : (SPACE ∉ t) -> squeeze (t ++ l) = t ++ squeeze l.
Proof.
  induction t as [|a t IH]; intros Ht; [done|]. apply not_elem_of_cons in Ht as [Ha Ht].
  cbn [app]. rewrite squeeze_cons, (proj2 (Z.eqb_neq a SPACE)) by done. cbn [andb]. by rewrite IH.
Qed.
Lemma squeeze_spaces n l : head l <> Some SPACE -> squeeze (replicate (S n) SPACE ++ l) = SPACE :: squeeze l.
Proof.
  intros Hl. induction n as [|n IH]; cbn [replicate app]; rewrite squeeze_cons, Z.eqb_refl; cbn [andb].
  - by rewrite bool_decide_false.
  - rewrite bool_decide_true by done. exact IH.
Qed.
Lemma spaced_cons n t k ts : spaced n ((t, k) :: ts) = replicate n SPACE ++ t ++ spaced (S k) ts.
Proof. unfold spaced. rewrite fmap_cons; cbn [concat fst snd]. by rewrite <- app_assoc. Qed.
Lemma squeeze_spaced (ts : list (list Z * nat)) : forall n, Forall (fun t => solid t.1) ts ->
  squeeze (spaced n ts) = spaced (Nat.min n 1) ((fun t => (t.1, 0%nat)) <$> ts).
Proof.
  induction ts as [|[t k] ts IH]; intros n Hts.
  - unfold spaced. rewrite fmap_nil. destruct n as [|n]; [done|].
    cbn [concat]. rewrite squeeze_spaces by (intros [=]). by rewrite Nat.min_r by lia.
  - apply Forall_cons in Hts as [[Ht0 Ht] Hts]. cbn [fst] in *. rewrite spaced_cons. rewrite ?fmap_cons; cbn [fst].
    rewrite spaced_cons. assert (E : squeeze (t ++ spaced (S k) ts) = t ++ spaced 1 ((fun t => (t.1, 0%nat)) <$> ts))
      by (rewrite squeeze_solid, IH, Nat.min_r by (done || lia); done).
    destruct n as [|n]; [exact E|]. rewrite Nat.min_r by lia. rewrite squeeze_spaces.
    + by rewrite E.
    + destruct t as [|a t]; [done|]. cbn. intros E'. simplify_eq. apply Ht, list_elem_of_here.
Qed.
Lemma split_solid t l : (SPACE ∉ t) -> forall cur argc, split_args (t ++ l) cur argc = split_args l (cur ++ t) argc.
Proof.
  induction t as [|a t IH]; intros Ht cur argc; [by rewrite app_nil_r|]. apply not_elem_of_cons in Ht as [Ha Ht].
  cbn [app split_args]. rewrite (proj2 (Z.eqb_neq a SPACE)) by done. rewrite IH by done. by rewrite <- app_assoc.
Qed.
Lemma split_spaced (ts : list (list Z * nat)) : forall argc, Forall (fun t => solid t.1) ts -> (argc <= SHELL_MAX_ARGS)%nat ->
  split_args (spaced 0 ((fun t => (t.1, 0%nat)) <$> ts)) [] argc
  = if decide (argc + length ts <= SHELL_MAX_ARGS)%nat then Some ((fun t : list Z * nat => t.1) <$> ts) else None.
Proof.
  induction ts as [|[t k] ts IH]; intros argc Hts Ha.
  - by rewrite decide_True by (cbn; lia).
  - apply Forall_cons in Hts as [[Ht0 Ht] Hts]. cbn [fst] in Ht. rewrite ?fmap_cons; cbn [fst length].
    rewrite spaced_cons. cbn [replicate app]. rewrite split_solid by done. cbn [app].
    change (spaced 1 ?x) with (SPACE :: spaced 0 x). cbn [split_args]. rewrite Z.eqb_refl.
    destruct (Nat.eqb_spec argc SHELL_MAX_ARGS) as [E|E]; [rewrite decide_False by lia; done|].
    rewrite IH by (done || lia).
    destruct (decide (S argc + length ts <= SHELL_MAX_ARGS)%nat); [rewrite decide_True by lia|rewrite decide_False by lia]; done.
Qed.

(** *** The arguments *)

Definition argument (t : list Z) : list Z := remove_quotes (put_back <$> t).
Lemma argument_plain s : Forall plain_char s -> argument s = s.
Proof.
  intros Hs. unfold argument. assert (put_back <$> s = s) as ->.
  { induction Hs as [|c s Hc _ IH]; [done|]. rewrite fmap_cons, IH. f_equal. unfold put_back.
    rewrite (proj2 (Z.eqb_neq c SHELL_ALT_SPACE)); [done|apply Hc]. }
  destruct Hs as [|c s Hc _]; [done|]. cbn. assert (is_quote c = false) as -> by apply Hc. done.
Qed.
Lemma argument_quoted q s : is_quote q = true -> Forall (quoted_char q) s ->
  argument (q :: (alt <$> (unblank <$> s)) ++ [q]) = unblank <$> s.
Proof.
  intros Hq Hs. unfold argument. assert (put_back q = q) as Eq.
  { unfold is_quote in Hq. rewrite orb_true_iff, !Z.eqb_eq in Hq. by destruct Hq as [->| ->]. }
  assert (put_back <$> (alt <$> (unblank <$> s)) = unblank <$> s) as E.
  { induction Hs as [|c s Hc _ IH]; [done|]. rewrite !fmap_cons, IH. f_equal.
    assert (unblank c <> SHELL_ALT_SPACE) as Hc'.
    { unfold unblank, SPACE. destruct Hc as (_ & _ & Hc). by destruct (_ || _). }
    unfold alt, put_back. destruct (Z.eqb_spec (unblank c) SPACE) as [E|]; [by rewrite E|].
    by rewrite (proj2 (Z.eqb_neq _ SHELL_ALT_SPACE)). }
  rewrite fmap_cons, fmap_app, fmap_cons, fmap_nil, Eq, E. cbn [remove_quotes]. rewrite Hq.
  rewrite bool_decide_true by (rewrite app_comm_cons; by rewrite last_snoc). cbn [andb].
  rewrite length_app. cbn [length]. rewrite Nat.add_sub. by rewrite take_app_length.
Qed.

Lemma word_marked w a : word w a -> exists t, solid t /\ argument t = a /\
  forall l, mark_quotes None ((unblank <$> w) ++ l) = (t ++ (mark_quotes None l).1, (mark_quotes None l).2).
Proof.
  intros [s Hs0 Hs|q s Hq Hs].
  - exists s. split; [split; [done|]|split; [by apply argument_plain|intros l; by apply mark_plain]].
    rewrite list_elem_of_In. rewrite List.Forall_forall in Hs. intros Hin. destruct (Hs SPACE Hin) as [Hb _].
    apply Hb. by left.
  - exists (q :: (alt <$> (unblank <$> s)) ++ [q]). split; [split; [done|]|split; [by apply argument_quoted|]].
    + assert (q <> SPACE) by (intros ->; done). rewrite elem_of_cons, elem_of_app, list_elem_of_singleton.
      rewrite list_elem_of_fmap. intros [E|[[c [E _]]|E]]; try congruence. unfold alt in E.
      destruct (Z.eqb_spec c SPACE); [done|congruence].
    + intros l. rewrite fmap_cons, fmap_app, fmap_cons, fmap_nil. cbn [app mark_quotes].
      rewrite (proj2 (unblank_quote q q Hq)), Hq by done. rewrite <- app_assoc. cbn [app].
      rewrite mark_inside by done. cbn [app]. by rewrite <- app_assoc.
Qed.
Lemma spaced_head n ts : Forall (fun t => solid t.1) ts -> head (spaced n ts) = Some SPACE -> exists k, n = S k.
Proof.
  destruct n as [|n]; [|by exists n]. intros Hts. destruct ts as [|[t k] ts]; [done|].
  apply Forall_cons in Hts as [[Ht0 Ht] _]. cbn in Ht. rewrite spaced_cons. destruct t as [|a t]; [done|].
  cbn. intros E. simplify_eq. destruct Ht. apply list_elem_of_here.
Qed.
Lemma word_last w a : word w a -> exists c, last w = Some c /\ ~ is_blank c.
Proof.
  intros [s Hs0 Hs|q s Hq Hs].
  - destruct (last s) as [c|] eqn:E; [|by apply last_None in E]. exists c. split; [done|].
    apply last_Some_elem_of in E. rewrite List.Forall_forall in Hs. apply list_elem_of_In in E. apply (Hs c E).
  - exists q. split; [by rewrite app_comm_cons, last_snoc|]. intros [-> | [-> | [-> | ->]]]; done.
Qed.
Lemma line_marked l args : line l args -> (forall c, last l = Some c -> is_blank c) ->
  exists n ts, mark_quotes None (unblank <$> l) = (spaced n ts, None)
    /\ (fun t => argument t.1) <$> ts = args /\ Forall (fun t => solid t.1) ts.
Proof.
  assert (B : forall bs, Forall is_blank bs -> unblank <$> bs = replicate (length bs) SPACE).
  { induction 1 as [|c bs Hc _ IH]; [done|]. rewrite fmap_cons, IH. by rewrite unblank_blank. }
  induction 1 as [bs Hbs|bs w a rest args Hbs Hw Hr IH Hrest]; intros Hl.
  - exists (length bs), []. rewrite B by done. split; [|done].
    rewrite <- (app_nil_r (replicate _ _)), mark_spaces. unfold spaced. by rewrite fmap_nil.
  - destruct (word_marked w a Hw) as (t & Ht & Ea & Hm). destruct Hrest as [->|(c & r & -> & Hc)].
    { destruct (word_last w a Hw) as (c & E & Hn). destruct Hn. apply Hl.
      rewrite app_nil_r, last_app, E. done. }
    destruct IH as (n & ts & E & Ha & Hts); [intros c' E'; apply Hl; by rewrite !last_app, E'|].
    destruct (spaced_head n ts Hts) as [k ->].
    { rewrite fmap_cons, unblank_blank in E by done. cbn [mark_quotes] in E. change (is_quote SPACE) with false in E.
      destruct (mark_quotes None (unblank <$> r)). by injection E as <- _. }
    exists (length bs), ((t, k) :: ts). split; [|split; [rewrite fmap_cons; cbn [fst]; by rewrite Ea, Ha|by constructor]].
    rewrite !fmap_app, B, mark_spaces, Hm by done. rewrite E. cbn [fst snd]. by rewrite spaced_cons.
Qed.
Lemma line_newline l args : line l args -> line (l ++ NL) args.
Proof.
  assert (is_blank 10) by (unfold is_blank; auto).
  induction 1 as [bs Hbs|bs w a rest args Hbs Hw Hr IH Hrest].
  - constructor. apply Forall_app. split; [done|]. by constructor.
  - rewrite <- !app_assoc. constructor; try done. right.
    destruct Hrest as [->|(c & r & -> & Hc)]; cbn; eauto.
Qed.

(** *** The result of parsing *)

Lemma mark_last l q : exists m, mark_quotes q (l ++ [SPACE])
  = (m ++ [if bool_decide ((mark_quotes q (l ++ [SPACE])).2 <> None) then SHELL_ALT_SPACE else SPACE],
     (mark_quotes q (l ++ [SPACE])).2).
Proof.
  revert q. induction l as [|c l IH]; intros q; [by exists []; destruct q|]. cbn [app mark_quotes].
  destruct (is_quote c).
  - edestruct IH as [m E]. rewrite E. cbn [fst snd]. by exists (c :: m).
  - destruct (IH q) as [m E]. rewrite E. cbn [fst snd]. by eexists (_ :: m).
Qed.
Lemma squeeze_last l : exists m, squeeze (l ++ [SPACE]) = m ++ [SPACE].
Proof.
  induction l as [|c l [m E]]; [by exists []|]. cbn [app]. rewrite squeeze_cons, E.
  destruct (_ && _); [by exists m|by exists (c :: m)].
Qed.
(** The newline added, one way or the other. *)
Definition with_newline (cmd : list Z) : list Z := if bool_decide (last cmd = Some 10) then cmd else cmd ++ NL.
Lemma with_newline_last cmd : exists l, with_newline cmd = l ++ [10].
Proof.
  unfold with_newline. destruct (bool_decide_reflect (last cmd = Some 10)) as [E|E]; [|by exists cmd].
  by apply last_Some in E.
Qed.
(** With two bytes after the text, the only question is the quotes: the text
    always ends in a space, and is never changed outside its buffer. *)
Lemma parse_run size cmd : cmd <> [] -> (Z.of_nat (length cmd) + 2 <= size) ->
  parse_command size cmd = let '(m, open) := mark_quotes None (unblank <$> with_newline cmd) in
    Some (if bool_decide (open <> None) then BadQuotes
          else if bool_decide (squeeze m = [SPACE]) then EmptyLine
          else match split_args (drop (if bool_decide (head (squeeze m) = Some SPACE) then 1 else 0) (squeeze m)) [] 0 with
               | None => TooManyArgs | Some argv => Args (argument <$> argv) end).
Proof.
  intros Hne Hs. unfold parse_command.
  destruct (Nat.eqb_spec (length cmd) 0) as [E|_]; [by destruct cmd|].
  assert ((if bool_decide (last cmd = Some 10) then Some cmd else strcat size cmd NL) = Some (with_newline cmd)) as ->.
  { unfold with_newline, strcat. destruct (bool_decide _); [done|]. by rewrite (proj2 (Z.leb_le _ _)) by (rewrite length_app; cbn; lia). }
  cbn [mbind option_bind]. destruct (with_newline_last cmd) as [l ->].
  rewrite fmap_app, fmap_cons, fmap_nil. change (unblank 10) with SPACE.
  destruct (mark_last (unblank <$> l) None) as [m E]. rewrite E.
  destruct (mark_quotes None ((unblank <$> l) ++ [SPACE])).2 as [q|]; [by rewrite !bool_decide_true by done|].
  rewrite !(bool_decide_false (None <> None)) by (intros H; by apply H).
  destruct (squeeze_last m) as [p ->]. destruct (bool_decide_reflect (p ++ [SPACE] = [SPACE])) as [Ep|Ep]; [done|].
  assert (exists p', drop (if bool_decide (head (p ++ [SPACE]) = Some SPACE) then 1 else 0) (p ++ [SPACE]) = p' ++ [SPACE]) as [p' ->].
  { destruct p as [|a p]; [done|]. cbn [app head]. destruct (bool_decide (Some a = _)).
    - by exists p.
    - by exists (a :: p). }
  rewrite last_snoc. cbn [mbind option_bind]. by rewrite Z.eqb_refl.
Qed.
Lemma shell_words size cmd args : line cmd args -> cmd <> [] -> (Z.of_nat (length cmd) + 2 <= size) ->
  parse_command size cmd = Some (match args with
    | [] => EmptyLine
    | _ => if decide (length args <= SHELL_MAX_ARGS)%nat then Args args else TooManyArgs
    end).
Proof.
  intros Hl Hne Hs. rewrite parse_run by done.
  assert (line (with_newline cmd) args) as Hl' by (unfold with_newline; destruct (bool_decide _); [done|by apply line_newline]).
  destruct (line_marked _ _ Hl') as (n & ts & E & Ha & Hts).
  { destruct (with_newline_last cmd) as [l ->]. intros c. rewrite last_snoc. intros [= <-]. unfold is_blank. auto. }
  rewrite E. rewrite bool_decide_false by (intros H; by apply H). rewrite squeeze_spaced by done.
  assert (Hm : spaced n ts <> []).
  { destruct (with_newline_last cmd) as [l El]. rewrite El, fmap_app in E.
    destruct (mark_last (unblank <$> l) None) as [m Em]. change (unblank <$> [10]) with [SPACE] in E.
    rewrite Em in E. injection E as <- _. by destruct m. }
  set (ts0 := (fun t : list Z * nat => (t.1, 0%nat)) <$> ts).
  assert (Hts0 : Forall (fun t : list Z * nat => solid t.1) ts0) by (by apply Forall_fmap).
  destruct ts as [|t ts].
  { cbn in Ha. subst args. destruct n as [|n]; [done|]. by rewrite Nat.min_r by lia. }
  rewrite bool_decide_false.
  2:{ intros Eq. apply (f_equal length) in Eq. unfold ts0 in Eq. rewrite fmap_cons, spaced_cons, !length_app in Eq.
      apply Forall_cons in Hts as [[Ht _] _]. cbn [fst] in Eq. destruct (t.1); [done|]. cbn in Eq. lia. }
  assert (drop (if bool_decide (head (spaced (Nat.min n 1) ts0) = Some SPACE) then 1 else 0) (spaced (Nat.min n 1) ts0)
    = spaced 0 ts0) as ->.
  { destruct n as [|n]; [|by rewrite Nat.min_r by lia]. cbn [Nat.min]. rewrite bool_decide_false; [done|].
    intros Eh. by destruct (spaced_head 0 ts0 Hts0 Eh). }
  unfold ts0. rewrite split_spaced by (done || lia). cbn [Nat.add].
  destruct args as [|a args]; [by rewrite fmap_cons in Ha|]. rewrite <- Ha, length_fmap.
  destruct (decide _); [|done]. do 2 f_equal. by rewrite <- list_fmap_compose.
Qed.

(** *** Running a line *)

Section Running.
Context {S : Type} (shell_commands : list (@SHELL_COMMAND S)).
Abbreviation W := (world S).

(** What the words of a line do in the interactive shell. *)
Definition run_words (argv : list (list Z)) : M W executed :=
  match argv with
  | [] => mret Nothing
  | name :: _ =>
      if decide (length argv <= SHELL_MAX_ARGS)%nat then
        match find_command shell_commands name with
        | None => _ ← printf SHELL_ERRMSG; mret TableEnd
        | Some c => match handler_func c with Some f => _ ← f argv; mret (Command c) | None => mret (Command c) end
        end
      else _ ← printf (lit "Error: too many arguments" ++ NL); mret Nothing
  end.
Lemma execute_words size cmd argv w : line cmd argv -> cmd <> [] -> Z.of_nat (length cmd) + 2 <= size ->
  shellh_execute_command shell_commands size cmd true w = run_words argv w.
Proof.
  intros Hl Hne Hs. unfold shellh_execute_command.
  erewrite M_bind_run by (unfold ret_opt; rewrite (shell_words size cmd argv Hl Hne Hs); reflexivity).
  unfold run_words. destruct argv as [|name args]; [done|].
  destruct (decide (length (name :: args) <= SHELL_MAX_ARGS)%nat); [|done].
  erewrite M_bind_run by (unfold ret_opt; reflexivity).
  destruct (find_command shell_commands name) as [c|]; [|done].
  cbn [orb negb andb]. destruct (handler_func c); [done|]. by erewrite M_bind_run.
Qed.
End Running.

(** *** A line typed at the prompt *)

Lemma printable_plain c : isprint c = true -> c < 256.
Proof. unfold isprint. rewrite andb_true_iff, !Z.leb_le. lia. Qed.
Lemma printable_edits ks : Forall (fun c => isprint c = true) ks -> Forall edits ks.
Proof.
  intros H. eapply Forall_impl; [exact H|]. intros c Hc%printable_plain.
  unfold edits, KC_ENTER, KC_CTRL_C, KC_CTRL_Z. lia.
Qed.
Lemma type_text cap ks h i : forall l, Forall (fun c => isprint c = true) ks -> (length (l ++ ks) <= cap)%nat ->
  arun cap (mkAe l [] h i) ks = mkAe (l ++ ks) [] h i.
Proof.
  induction ks as [|c ks IH]; intros l Hks Hl; [by rewrite app_nil_r|]. apply Forall_cons in Hks as [Hc Hks].
  unfold arun in *. cbn [foldl]. assert (astep cap c (mkAe l [] h i) = mkAe (l ++ [c]) [] h i) as ->.
  { pose proof (printable_plain c Hc). unfold astep, KC_BACKSPACE, KC_LEFT, KC_RIGHT, KC_UP, KC_DOWN, KC_DEL, KC_HOME,
      KC_END, KC_CTRL_U, KC_CTRL_K. rewrite !(proj2 (Z.eqb_neq c _)) by lia. rewrite Hc. unfold text. cbn [al ar ah ai].
    rewrite app_nil_r. rewrite (proj2 (Nat.ltb_lt _ _)); [done|]. rewrite length_app in Hl. cbn in Hl. lia. }
  rewrite IH; rewrite <- ?app_assoc; done.
Qed.

Section Typed.
Context {S : Type} (shell_commands : list (@SHELL_COMMAND S)) (max cols : nat).
Context (hist_of : S -> history) (set_hist : history -> S -> S).
Context (Hget : forall h s, hist_of (set_hist h s) = h) (Hset : forall h h' s, set_hist h (set_hist h' s) = set_hist h s).
Context (Hmax : (0 < max)%nat) (Hcols : (6 < cols)%nat).
Abbreviation W := (world S).
Abbreviation loop := (shell_loop shell_commands max cols hist_of set_hist).

(** The history holds [es], at most [max] lines; there is memory. *)
Definition history_ok (h : history) (es : list (list Z)) : Prop :=
  mem h = [] /\ (lines h = Some (Some <$> es) \/ (lines h = None /\ es = [])) /\
  (length es <= max)%nat /\ Forall (Forall line_char) es.
Definition history_with (es : list (list Z)) : history := mkHistory (Some (Some <$> es)) [].

Lemma push_room es l : (length es <= max)%nat ->
  push max (take (length (push max es []) - 1) (push max es [])) l = push max es l.
Proof.
  intros Hle. unfold push at 2 3. rewrite length_app. cbn [length]. rewrite Nat.add_sub, take_app_length.
  unfold push. destruct (Nat.eqb_spec (length es) max) as [E|E]; [|by rewrite (proj2 (Nat.eqb_neq _ _))].
  destruct es as [|e es]; [cbn in E; lia|]. cbn [tail]. cbn in E. by rewrite (proj2 (Nat.eqb_neq _ _)) by lia.
Qed.
Lemma add_line es l : l <> [] -> Forall (fun c => isprint c = true) l ->
  linenoise_addhistory max l (history_with es) = Some (1, history_with (push max es l)).
Proof.
  intros Hne Hp. pose proof (linenoise_addhistory_ok max es [l] Hmax) as H. cbn [join_lines] in H.
  unfold history_with. rewrite H; [by rewrite filter_cons_True|done|]. apply Forall_singleton.
  eapply Forall_impl; [exact Hp|]. intros c Hc%isprint_line_char. apply Hc.
Qed.
Lemma getline_typed buffer (w : W) es l rest : history_ok (hist_of (w_sys w)) es ->
  (SHELL_MAXSIZE - 1 <= length buffer)%nat -> w_keys w = l ++ KC_ENTER :: rest ->
  Forall (fun c => isprint c = true) l -> (length l <= SHELL_MAXSIZE - 2)%nat ->
  exists b o, getline max cols hist_of set_hist buffer w = Some ((Z.of_nat (length l), b),
      World rest (w_out w ++ o)
        (set_hist (history_with (take (length (push max es []) - 1) (push max es []))) (w_sys w))) /\
    str_at b 0 = Some l /\ length b = length buffer.
Proof.
  intros (Hm & Hh & Hle & Hes) Hb Hk Hp Hl. unfold getline.
  change (SHELL_MAXSIZE - 1)%nat with (Datatypes.S (SHELL_MAXSIZE - 2)) in *.
  destruct (getline_full (length buffer - (SHELL_MAXSIZE - 1)) max cols (SHELL_MAXSIZE - 2) SHELL_PROMPT buffer es
    Hmax Hle Hes) with (h0 := hist_of (w_sys w)) (ks := l) (rest := rest) as (b & h & o & E & Hstr & _ & Hlen & Hh' & _);
    [cbn; lia|by_decide|cbn in *; lia|done|done|by apply printable_edits|].
  unfold start in *. rewrite type_text in * by done. cbn [app text al ar] in *. rewrite app_nil_r in *.
  rewrite Hk, E. cbn [mbind option_bind e_res e_buf e_keys e_out e_hist].
  exists b, (bytes_of o). split; [|done]. by rewrite Hh'.
Qed.

Lemma getline_until_done keys buffer (w w' : W) r b : getline max cols hist_of set_hist buffer w = Some ((r, b), w') ->
  r <> -1 -> getline_until max cols hist_of set_hist keys buffer w = Some (b, w').
Proof.
  intros E Hr. destruct keys; cbn [getline_until]; rewrite (M_bind_run _ _ _ _ _ E), (proj2 (Z.eqb_neq r (-1))) by done; done.
Qed.
(** A line of printable characters and Enter, at the prompt: its words are run,
    with the keys that follow still to come, and the line is the newest one of
    the history. *)
Lemma loop_typed fuel buffer (w : W) es l argv rest : history_ok (hist_of (w_sys w)) es ->
  (SHELL_MAXSIZE + 1 <= length buffer)%nat -> w_keys w = l ++ KC_ENTER :: rest ->
  Forall (fun c => isprint c = true) l -> (length l <= SHELL_MAXSIZE - 2)%nat -> l <> [] -> line l argv ->
  exists b o, length b = length buffer /\
    loop (Datatypes.S fuel) buffer w = (pcmd ← run_words shell_commands argv;
        match pcmd with
        | Command c => if bool_decide (is_Some (handler_func c)) then loop fuel b else mret ()
        | _ => loop fuel b
        end) (World rest (w_out w ++ o) (set_hist (history_with (push max es l)) (w_sys w))).
Proof.
  intros Hh Hb Hk Hp Hl Hne Hline. pose proof Hh as (_ & _ & Hle & _).
  destruct (getline_typed buffer w es l rest Hh ltac:(lia) Hk Hp Hl) as (b & o & E & Hstr & Hlen).
  exists b, o. split; [done|]. cbn [shell_loop]. erewrite M_bind_run by (unfold keys_now; reflexivity).
  erewrite M_bind_run.
  2:{ apply (getline_until_done _ _ _ _ _ _ E). lia. }
  erewrite M_bind_run by (unfold ret_opt; rewrite Hstr; reflexivity).
  rewrite (proj2 (Nat.eqb_neq _ 0)) by (by destruct l).
  erewrite M_bind_run.
  2:{ unfold addhistory. cbn [w_sys w_keys w_out]. rewrite Hget.
      rewrite (add_line _ l) by done. cbn [mbind option_bind]. rewrite push_room, Hset by done.
      reflexivity. }
  unfold history_with. cbn [mbind]. unfold mbind, M_bind.
  rewrite (execute_words shell_commands _ l argv _ Hline Hne); [done|].
  rewrite Hlen. unfold SHELL_MAXSIZE in *. lia.
Qed.

(** *** The keys are enough for the rounds *)

Definition eats {A} (m : M W A) : Prop := forall w a w', m w = Some (a, w') -> (length (w_keys w') <= length (w_keys w))%nat.
Lemma eats_ret {A} (a : A) : eats (mret a).
Proof. by intros w x w' [= -> ->]. Qed.
Lemma eats_bind {A B} (m : M W A) (k : A -> M W B) : eats m -> (forall a, eats (k a)) -> eats (m ≫= k).
Proof.
  intros Hm Hk w b w'. unfold mbind, M_bind. destruct (m w) as [[a w1]|] eqn:E; [|done]. cbn.
  intros E'. apply Hm in E. apply Hk in E'. lia.
Qed.
Lemma edit_loop_eats prompt n keys : forall s e, edit_loop cols prompt n keys s = Some e -> (length (e_keys e) < length keys)%nat.
Proof.
  induction keys as [|c keys IH]; intros s e; [done|]. cbn [edit_loop length]. destruct (_ || _).
  - destruct (pop_history (hist s)); [|done]. intros [= <-]. cbn. lia.
  - destruct (key cols prompt n c s) as [s'|]; [|done]. cbn [mbind option_bind]. intros H%IH. lia.
Qed.
Lemma getline_loop_eats fuel : forall buffer n prompt h out keys e,
  getline_loop max cols fuel buffer n prompt h out keys = Some e -> (length (e_keys e) < length keys)%nat.
Proof.
  induction fuel as [|fuel IH]; intros buffer n prompt h out keys e; [done|]. cbn [getline_loop].
  unfold linenoisePrompt. destruct (store buffer 0 0) as [b|]; [|done]. cbn [mbind option_bind].
  destruct (linenoise_internal_addhistory max [] true h) as [[x h']|]; [|done]. cbn [mbind option_bind].
  destruct (edit_loop _ _ _ keys _) as [e'|] eqn:E; [|done]. cbn [mbind option_bind].
  apply edit_loop_eats in E. destruct (negb (e_res e' =? LINENOISE_CTRL_C)).
  - destruct (if e_res e' >? 0 then _ else _) as [b'|]; [|done]. cbn [mbind option_bind]. intros [= <-]. exact E.
  - intros H%IH. lia.
Qed.
Lemma getline_eats buffer w a w' : getline max cols hist_of set_hist buffer w = Some (a, w') ->
  (length (w_keys w') < length (w_keys w))%nat.
Proof.
  unfold getline, linenoise_getline. destruct (getline_loop _ _ _ _ _ _ _ _ _) as [e|] eqn:E; [|done].
  cbn. intros [= _ <-]. by apply getline_loop_eats in E.
Qed.
Lemma getline_until_eats keys : forall buffer w b w', getline_until max cols hist_of set_hist keys buffer w = Some (b, w') ->
  (length (w_keys w') < length (w_keys w))%nat.
Proof.
  induction keys as [|k keys IH]; intros buffer w b w'; cbn [getline_until]; unfold mbind, M_bind;
    destruct (getline _ _ _ _ buffer w) as [[[r b1] w1]|] eqn:E; try done; apply getline_eats in E; cbn [mbind option_bind];
    (destruct (r =? -1); [|by intros [= <- <-]]); [done|]. cbn. intros H%IH. cbn in H. lia.
Qed.
Definition handlers_eat : Prop :=
  Forall (fun c => match handler_func c with Some f => forall argv, eats (f argv) | None => True end) shell_commands.
Lemma execute_eats size l b : handlers_eat -> eats (shellh_execute_command shell_commands size l b).
Proof.
  intros He. apply eats_bind.
  { unfold ret_opt. intros w a w'. destruct (parse_command size l); [|done]. cbn. intros [= -> ->]. done. }
  intros [| | |argv]; try apply eats_ret; try (apply eats_bind; [by intros w a w' [= <- <-]|intros; apply eats_ret]).
  apply eats_bind.
  { unfold ret_opt. intros w a w'. destruct (head argv); [|done]. cbn. intros [= -> ->]. done. }
  intros name. destruct (find_command shell_commands name) as [c|] eqn:Ec.
  - apply eats_bind; [|intros; apply eats_ret]. unfold find_command in Ec.
    destruct (list_find _ _) as [[i c']|] eqn:Ef; [|done]. injection Ec as ->. apply list_find_Some in Ef as (Ef & _ & _).
    pose proof (Forall_lookup_1 _ _ _ _ He Ef) as Hc. cbn in Hc. destruct (handler_func c) as [f|]; [|apply eats_ret].
    destruct (_ || _); [apply Hc|apply eats_ret].
  - apply eats_bind; [by intros w a w' [= <- <-]|]. intros _. destruct b; [apply eats_ret|by intros w a w'].
Qed.
(** With fuel for the keys there are, more fuel changes nothing. *)
Lemma loop_fuel : handlers_eat -> forall fuel buffer w, (length (w_keys w) < fuel)%nat ->
  loop (Datatypes.S fuel) buffer w = loop fuel buffer w.
Proof.
  intros He. induction fuel as [|fuel IH]; intros buffer w Hf; [lia|].
  change (loop (Datatypes.S (Datatypes.S fuel)) buffer w) with
    ((keys ← keys_now; buffer ← getline_until max cols hist_of set_hist keys buffer;
      line ← ret_opt (str_at buffer 0);
      if (length line =? 0)%nat then loop (Datatypes.S fuel) buffer
      else _ ← addhistory max hist_of set_hist line;
        pcmd ← shellh_execute_command shell_commands (Z.of_nat (length buffer)) line true;
        match pcmd with
        | Command c => if bool_decide (is_Some (handler_func c)) then loop (Datatypes.S fuel) buffer else mret ()
        | _ => loop (Datatypes.S fuel) buffer
        end) w).
  cbn [shell_loop]. unfold mbind, M_bind. cbn [keys_now mbind option_bind].
  destruct (getline_until _ _ _ _ _ buffer w) as [[b w1]|] eqn:E; [|done]. apply getline_until_eats in E. cbn [mbind option_bind].
  unfold ret_opt. destruct (str_at b 0) as [l|]; [|done]. cbn [mbind option_bind].
  destruct (length l =? 0)%nat; [apply IH; lia|].
  unfold addhistory. destruct (linenoise_addhistory max l _) as [[x h]|]; [|done]. cbn [mbind option_bind].
  destruct (shellh_execute_command _ _ l true _) as [[p w2]|] eqn:E2; [|done]. cbn [mbind option_bind].
  apply (execute_eats _ _ _ He) in E2. cbn in E2.
  destruct p as [| |c]; try (apply IH; lia). destruct (bool_decide _); [apply IH; lia|done].
Qed.

(** C8: what is typed at the prompt is what is run: a line of words and Enter
    makes the shell call the handler of the command that the first word names,
    once, with exactly these words, the keys typed after Enter still to come;
    the line becomes the newest of the history, and another line is read unless
    the command was "exit". More fuel than keys changes nothing. *)
Theorem typed_command fuel buffer (w : W) es l argv rest : history_ok (hist_of (w_sys w)) es ->
  (SHELL_MAXSIZE + 1 <= length buffer)%nat -> w_keys w = l ++ KC_ENTER :: rest ->
  Forall (fun c => isprint c = true) l -> (length l <= SHELL_MAXSIZE - 2)%nat -> l <> [] -> line l argv ->
  handlers_eat -> (length (w_keys w) < fuel)%nat ->
  exists b o, length b = length buffer /\
    loop fuel buffer w = (pcmd ← run_words shell_commands argv;
        match pcmd with
        | Command c => if bool_decide (is_Some (handler_func c)) then loop fuel b else mret ()
        | _ => loop fuel b
        end) (World rest (w_out w ++ o) (set_hist (history_with (push max es l)) (w_sys w))).
Proof.
  intros Hh Hb Hk Hp Hl Hne Hline He Hf. rewrite <- loop_fuel by done. by apply (loop_typed fuel buffer w es l argv rest).
Qed.
End Typed.

(** A command line is cut into its words: blanks separate them, in any
    number and at both ends; a word in quotes keeps the blanks inside, each as
    a space, and loses its quotes; no word at all is an empty line, and more
    than ten are too many. Whatever the line is, with two bytes more than it
    in the buffer the work stays inside the buffer. *)
Theorem command_line_words size cmd : cmd <> [] -> Z.of_nat (length cmd) + 2 <= size ->
  is_Some (parse_command size cmd) /\
  forall args, line cmd args -> parse_command size cmd = Some (match args with
    | [] => EmptyLine
    | _ => if decide (length args <= SHELL_MAX_ARGS)%nat then Args args else TooManyArgs
    end).
Proof.
  intros Hne Hs. split; [|intros args Hl; by apply shell_words].
  rewrite parse_run by done. destruct (mark_quotes _ _) as [m o]. eauto.
Qed.

(** ** Examples *)

(** A shell with one command of its own, which logs what it is called with. *)
Definition ex_state : Type := history * list (list (list Z)).
Definition ex_say (argv : list (list Z)) : M (world ex_state) unit := fun w =>
  Some ((), World (w_keys w) (w_out w) ((w_sys w).1, (w_sys w).2 ++ [argv])).
Definition ex_commands : list (@SHELL_COMMAND ex_state) :=
  [mkCommand (lit "say") (Some ex_say); mkCommand (lit "exit") None].
Definition ex_set (h : history) (s : ex_state) : ex_state := (h, s.2).
Definition ex_quoted : list Z := [39] ++ lit "a  b" ++ [39].
Definition ex_line : list Z := lit " SAY " ++ ex_quoted ++ lit "   c".
Definition ex_words : list (list Z) := [lit "SAY"; lit "a  b"; lit "c"].
Lemma ex_line_words : line ex_line ex_words.
Proof.
  change ex_line with (lit " " ++ lit "SAY" ++ (lit " " ++ ex_quoted ++ (lit "   " ++ lit "c" ++ []))).
  constructor; [by_decide|by apply word_plain; [|by_decide]| |right; eexists _, _; split; [done|by left]].
  constructor; [by_decide|exact (word_quoted 39 (lit "a  b") eq_refl ltac:(by_decide))|
    |right; eexists _, _; split; [done|by left]].
  constructor; [by_decide|by apply word_plain; [|by_decide]| |by left]. by constructor.
Qed.

Lemma command_line_words_witness : parse_command 51 ex_line = Some (Args ex_words).
Proof.
  exact (proj2 (command_line_words 51 ex_line ltac:(discriminate) ltac:(vm_compute; discriminate)) ex_words ex_line_words).
Defined.
Lemma typed_command_witness : exists b o,
  shell_loop ex_commands 3 80 fst ex_set 50 (replicate 51 255)
    (World (ex_line ++ KC_ENTER :: lit "exit" ++ [KC_ENTER; 113]) [] (mkHistory None [], []))
  = shell_loop ex_commands 3 80 fst ex_set 50 b
    (World (lit "exit" ++ [KC_ENTER; 113]) o (mkHistory (Some [Some ex_line]) [], [ex_words])).
Proof.
  set (w := World (ex_line ++ KC_ENTER :: lit "exit" ++ [KC_ENTER; 113]) [] (mkHistory None [], [])).
  destruct (typed_command ex_commands 3 80 fst ex_set ltac:(done) ltac:(done) ltac:(lia) ltac:(lia) 50 (replicate 51 255) w []
    ex_line ex_words (lit "exit" ++ [KC_ENTER; 113])) as (b & o & Hb & E).
  - split; [done|]. split; [right; done|]. split; [cbn; lia|constructor].
  - vm_compute. lia.
  - done.
  - by_decide.
  - vm_compute. lia.
  - discriminate.
  - exact ex_line_words.
  - repeat constructor. intros argv w1 a w2 [= _ <-]. done.
  - vm_compute. lia.
  - exists b, o. rewrite E. erewrite M_bind_run by reflexivity. reflexivity.
Defined.

(** A session: the second line ends it. *)
Example session : exists w, shell_start ex_commands 3 80 fst ex_set (lit "0.9") (replicate 51 255)
    (World (ex_line ++ KC_ENTER :: lit "exit" ++ [KC_ENTER; 113]) [] (mkHistory None [], [])) = Some ((), w) /\
  w_keys w = [113] /\ w_sys w = (mkHistory (Some [Some ex_line; Some (lit "exit")]) [], [ex_words]).
Proof. eexists. split; [vm_compute; reflexivity|]. split; reflexivity. Qed.
(** A word of several quoted pieces loses its outermost quotes only. *)
Example outer_quotes : parse_command 51 (lit "say " ++ [39; 97; 39; 98; 39; 99; 39]) =
  Some (Args [lit "say"; [97; 39; 98; 39; 99]]).
Proof. reflexivity. Qed.
(** A character 7 of the line becomes a space. *)
Example bell_is_space : parse_command 51 (lit "say a" ++ [7; 98]) = Some (Args [lit "say"; lit "a b"]).
Proof. reflexivity. Qed.
(** A command that is not in the table, from a program: a null pointer is
    compared. *)
Example unknown_from_program : forall w, elua_shell ex_commands (lit "nothing") w = None.
Proof. reflexivity. Qed.
(** ["exit"] and ["lua"] do nothing there. *)
Example exit_from_program : forall w, elua_shell ex_commands (lit "exit") w = Some (Nothing, w).
Proof. reflexivity. Qed.
