(* ===== verification/ShellFiles.v ===== *)
(** * ShellFiles: the commands on files

    Models the commands of the shell on files: copying one file (src/shell/shell.c),
    cp and mv (shell_adv_cp_mv.c), rm (shell_adv_rm.c), ls (shell_ls.c), cat,
    mkdir, recv, wofmt, ver, help and lua, over the directory walk of CommonFs
    and the dialogue of Shell.

    What the commands call in the C library is the class [Libc]; the calls on
    directories are the record [FileSys] of CommonFs. *)

From S2P Require Import Prelude Devman CommonFs Term Xmodem Shell.

Definition SHELL_F_RECURSIVE : Z := 1.
Definition SHELL_F_FORCE_DESTINATION : Z := 2.
Definition SHELL_F_ASK_CONFIRMATION : Z := 4.
Definition SHELL_F_SIMULATE_ONLY : Z := 8.
Definition SHELL_F_SILENT : Z := 16.
Definition SHELL_F_MOVE : Z := 32.
Definition CMN_FS_TYPE_FILE_NOT_FOUND : Z := 4.
Definition has_flag (flags f : Z) : bool := negb (Z.land flags f =? 0).

Definition O_RDONLY : Z := 0.
(** [O_WRONLY | O_CREAT | O_TRUNC], of newlib. *)
Definition O_REWRITE : Z := 0x601.
Definition EXDEV : Z := 18.
Definition EOF : Z := -1.

(** The calls of the C library: on descriptors and names, on streams ([F]; the
    flag: whether for writing), and for memory. [sys_read] also returns the bytes
    it stores; [sys_malloc]: what is in the memory it finds. *)
Class Libc (S F : Type) := {
  sys_open : list Z -> Z -> S -> Z * S;
  sys_read : Z -> Z -> S -> (Z * list Z) * S;
  sys_write : Z -> list Z -> S -> Z * S;
  sys_close : Z -> S -> Z * S;
  sys_unlink : list Z -> S -> Z * S;
  sys_rmdir : list Z -> S -> Z * S;
  sys_mkdir : list Z -> S -> Z * S;
  sys_rename : list Z -> list Z -> S -> Z * S;
  sys_errno : S -> Z * S;
  sys_malloc : Z -> S -> option (list Z) * S;
  sys_free : S -> unit * S;
  f_open : list Z -> bool -> S -> option F * S;
  f_getc : F -> S -> Z * S;
  f_write : F -> list Z -> S -> Z * S;
  f_close : F -> S -> Z * S
}.

(** The bytes a [u8] pointer finds where an [unsigned] is. *)
Definition byte_at_int (big_endian : bool) (x : Z) : Z := if big_endian then u8 (Z.shiftr x 24) else u8 x.
Definition quote (s : list Z) : list Z := [39] ++ s ++ [39].
(** ["%-30s"], ["%-6s"]. *)
Definition pad (n : nat) (s : list Z) : list Z := s ++ replicate (n - length s) 32.

Section Files.
Context {S F D : Type} {libc : Libc S F} (fs : FileSys S D).
Abbreviation W := (world S).
(** The size of the copy buffer. *)
Context (SHELL_COPY_BUFSIZE : Z).

(** A call, in the shell. *)
Definition os {A} (f : S -> A * S) : M W A := fun w =>
  let '(a, s) := f (w_sys w) in Some (a, World (w_keys w) (w_out w) s).
Definition when (b : bool) (m : M W unit) : M W unit := if b then m else mret ().
Definition close_ (fd : Z) : M W unit := if fd =? -1 then mret () else _ ← os (sys_close fd); mret ().
(** [printf], or nothing. *)
Definition plog (flags : Z) (s : list Z) : M W unit := when (negb (has_flag flags SHELL_F_SILENT)) (printf s).

(** ** Copying a file *)

(** The total; [None]: after an error, which was shown. [buf]: the buffer. *)
Fixpoint copy_loop (fuel : nat) (flags : Z) (psrcname pdestname : list Z) (fds fdd : Z) (buf : list Z) (total : Z)
  : M W (option Z) :=
  match fuel with
  | O => fail
  | Datatypes.S fuel =>
      '(datalen, data) ← os (sys_read fds SHELL_COPY_BUFSIZE);
      if datalen =? -1 then _ ← plog flags (lit "Error reading source file " ++ quote psrcname ++ lit "." ++ NL); mret None
      else
        let buf := data ++ drop (length data) buf in
        datawrote ← os (sys_write fdd (take (Z.to_nat datalen) buf));
        if datawrote =? -1 then
          _ ← plog flags (lit "Error writing destination file " ++ quote pdestname ++ lit "." ++ NL); mret None
        else if datawrote <? datalen then
          _ ← plog flags (lit "Copy error (no space left on target?)" ++ NL); mret None
        else
          let total := u32 (total + datalen) in
          if datalen <? SHELL_COPY_BUFSIZE then mret (Some total)
          else copy_loop fuel flags psrcname pdestname fds fdd buf total
  end.
(** [done:]; a null [buf] is [None]. *)
Definition cp_done (fds fdd : Z) (buf : option (list Z)) (res : Z) : M W Z :=
  _ ← close_ fds; _ ← close_ fdd; _ ← match buf with Some _ => os sys_free | None => mret () end; mret res.
Definition shellh_cp_file (fuel : nat) (psrcname pdestname : list Z) (flags : Z) : M W Z :=
  if strcaseeq psrcname pdestname then
    _ ← plog flags (lit "Cannot copy " ++ quote psrcname ++ lit " into itself." ++ NL); cp_done (-1) (-1) None 0
  else
  go ← (if has_flag flags SHELL_F_ASK_CONFIRMATION then
          _ ← printf (lit "Copy " ++ quote psrcname ++ lit " to " ++ quote pdestname ++ lit " ? [y/n] ");
          shellh_ask_yes_no None
        else mret 1);
  if go =? 0 then cp_done (-1) (-1) None 0 else
  fds ← os (sys_open psrcname O_RDONLY);
  if fds =? -1 then
    _ ← plog flags (lit "Error: unable to open source file " ++ quote psrcname ++ NL); cp_done (-1) (-1) None 0
  else
  go ← (if negb (has_flag flags SHELL_F_FORCE_DESTINATION) then
          fdd ← os (sys_open pdestname O_RDONLY);
          if fdd =? -1 then mret 1
          else
            _ ← os (sys_close fdd);
            _ ← printf (lit "Destination " ++ quote pdestname ++
                        lit " already exists, are you sure you want to overwrite it ? [y/n] ");
            shellh_ask_yes_no None
        else mret 1);
  if go =? 0 then cp_done fds (-1) None 0 else
  buf ← os (sys_malloc SHELL_COPY_BUFSIZE);
  match buf with
  | None => _ ← plog flags (lit "ERROR: unable to allocate buffer for copy operation." ++ NL); cp_done fds (-1) None 0
  | Some b =>
      _ ← plog flags (lit "Copying " ++ quote psrcname ++ lit " to " ++ quote pdestname ++ lit " ... ");
      if has_flag flags SHELL_F_SIMULATE_ONLY then
        _ ← plog flags (lit "done (0 bytes)." ++ NL); cp_done fds (-1) buf 1
      else
        fdd ← os (sys_open pdestname O_REWRITE);
        if fdd =? -1 then
          _ ← plog flags (lit "ERROR: unable to open " ++ quote pdestname ++ lit " for writing." ++ NL);
          cp_done fds (-1) buf 0
        else
          total ← copy_loop fuel flags psrcname pdestname fds fdd b 0;
          match total with
          | None => cp_done fds fdd buf 0
          | Some total => _ ← plog flags (lit "done (" ++ decimal total ++ lit " bytes)." ++ NL); cp_done fds fdd buf 1
          end
  end.

Definition shellh_cp_or_mv_file (fuel : nat) (psrc pdest : list Z) (flags : Z) : M W Z :=
  let move := has_flag flags SHELL_F_MOVE in
  (* the result of renaming; [None]: go on *)
  renamed ← (if move then
      r ← os (sys_rename psrc pdest);
      if r =? -1 then
        e ← os sys_errno;
        if negb (e =? EXDEV) then _ ← printf (lit "Unable to rename " ++ quote psrc ++ lit "." ++ NL); mret (Some 0)
        else mret None
      else _ ← printf (lit "Moved " ++ quote psrc ++ lit " to " ++ quote pdest ++ lit "." ++ NL); mret (Some 1)
    else mret None);
  match renamed with
  | Some r => mret r
  | None =>
      r ← shellh_cp_file fuel psrc pdest flags;
      if r =? 0 then mret 0
      else if move then
        u ← os (sys_unlink psrc);
        if u =? -1 then _ ← printf (lit "Unable to remove original file " ++ quote psrc ++ lit "." ++ NL); mret 0
        else mret 1
      else mret 1
  end.

(** ** Walking over directories

    The function that is called may ask the user, and it has data of its own,
    [T]; [None]: it was stopped by undefined behaviour, or by a question nobody
    answers. *)
Section Walks.
Context {T : Type}.
Definition inside {A} (none : A) (f : S -> A * S) (x : option (W * T)) : A * option (W * T) :=
  match x with
  | None => (none, None)
  | Some (w, t) => let '(a, s) := f (w_sys w) in (a, Some (World (w_keys w) (w_out w) s, t))
  end.
Definition lift_fs : FileSys (option (W * T)) D := {|
  fopen p := inside false (fopen fs p);
  opendir p := inside None (opendir fs p);
  readdir d := inside None (readdir fs d);
  closedir d := fun x => (inside () (fun s => ((), closedir fs d s)) x).2;
  alloc := inside false (alloc fs)
|}.
Definition lift_cb (cb : list Z -> option dirent -> Z -> T -> M W (bool * T)) (path : list Z) (e : option dirent) (info : Z)
  (x : option (W * T)) : bool * option (W * T) :=
  match x with
  | None => (false, None)
  | Some (w, t) => match cb path e info t w with None => (false, None) | Some ((go, t), w) => (go, Some (w, t)) end
  end.
Definition walk (cb : list Z -> option dirent -> Z -> T -> M W (bool * T)) (hasdirs0 : list Z -> bool) (fuel : nat)
  (path : list Z) (recursive : bool) (t : T) : M W (Z * T) := fun w =>
  '(r, x) ← cmn_fs_walkdir lift_fs (lift_cb cb) hasdirs0 fuel (Some path) recursive (Some (w, t));
  '(w, t) ← x;
  Some ((r, t), w).
End Walks.

Definition path_join (es : list (list Z)) : M W (option (list Z)) :=
  ok ← os (alloc fs); ret_opt (cmn_fs_path_join ok es).
(** The arguments end with the first null pointer. *)
Definition join_dest (dir : option (list Z)) (es : list (list Z)) : M W (option (list Z)) :=
  path_join (match dir with None => [] | Some dir => dir :: es end).
Definition get_type (path : list Z) : M W Z := os (cmn_fs_get_type fs (Some path)).
Definition split_path (path : list Z) : M W (option (list Z * list Z)) := os (cmn_fs_split_path fs (Some path)).
Definition no_memory : M W unit := printf (lit "Not enough memory." ++ NL).

(** ** cp and mv *)

(** [fuel] is for one file. *)
Context (fuel : nat).

(** [pdestdir]: [None] for a null pointer. *)
Record SHELL_CP_STATE := mkCp { pdestdir : option (list Z); psrcdir : list Z; dloc : list Z; cp_flags : Z }.
Definition under (dir path : list Z) : bool := bool_decide (take (length dir) path = dir).
(** [path + strlen( ps->psrcdir ) - strlen( ps->dloc )]. *)
Definition cp_target (ps : SHELL_CP_STATE) (path : list Z) : list Z := drop (length (psrcdir ps) - length (dloc ps)) path.
Definition cp_error (path : list Z) : M W unit :=
  printf (lit "ERROR: unable to handle directory " ++ quote path ++ lit " (internal error?), aborting." ++ NL).

Definition shellh_cp_walkdir_cb (ps : SHELL_CP_STATE) (path : list Z) (pent : option dirent) (info : Z) (t : unit)
  : M W (bool * unit) :=
  if info =? CMN_FS_INFO_BEFORE_READDIR then
    if negb (under (psrcdir ps) path) then _ ← cp_error path; mret (false, t) else
    tmp ← join_dest (pdestdir ps) [cp_target ps path];
    match tmp with
    | None => _ ← no_memory; mret (false, t)
    | Some tmp =>
        d ← os (opendir fs tmp);
        match d with
        | Some d => _ ← os (fun s => ((), closedir fs d s)); mret (true, t)
        | None =>
            _ ← printf (lit "Creating directory " ++ tmp ++ lit " ... ");
            if has_flag (cp_flags ps) SHELL_F_SIMULATE_ONLY then _ ← printf (lit "done." ++ NL); mret (true, t)
            else
              r ← os (sys_mkdir tmp);
              if r =? -1 then _ ← printf (lit "ERROR! (aborting)." ++ NL); mret (false, t)
              else _ ← printf (lit "done." ++ NL); mret (true, t)
        end
    end
  else if info =? CMN_FS_INFO_INSIDE_READDIR then
    pent ← ret_opt pent;
    if is_dir pent then mret (true, t)
    else if negb (under (psrcdir ps) path) then _ ← cp_error path; mret (false, t)
    else
      tmp ← path_join [path; fname pent];
      match tmp with
      | None => _ ← no_memory; mret (false, t)
      | Some tmp =>
          tmp2 ← join_dest (pdestdir ps) [cp_target ps path; fname pent];
          match tmp2 with
          | None => _ ← no_memory; mret (false, t)
          | Some tmp2 => _ ← shellh_cp_or_mv_file fuel tmp tmp2 (cp_flags ps); mret (true, t)
          end
      end
  else if info =? CMN_FS_INFO_OPENDIR_FAILED then
    _ ← printf (lit "ERROR: unable to read directory " ++ quote path ++ lit ", aborting." ++ NL); mret (false, t)
  else mret (true, t).

(** The options: the flags, the source and the destination. *)
Fixpoint cp_options (args : list (list Z)) (flags : Z) (srcpath dstpath : option (list Z))
  : M W (Z * option (list Z) * option (list Z)) :=
  match args with
  | [] => mret (flags, srcpath, dstpath)
  | a :: args =>
      if bool_decide (a = lit "-R") then cp_options args (Z.lor flags SHELL_F_RECURSIVE) srcpath dstpath
      else if bool_decide (a = lit "-f") then cp_options args (Z.lor flags SHELL_F_FORCE_DESTINATION) srcpath dstpath
      else if bool_decide (a = lit "-c") then cp_options args (Z.lor flags SHELL_F_ASK_CONFIRMATION) srcpath dstpath
      else if bool_decide (a = lit "-s") then cp_options args (Z.lor flags SHELL_F_SIMULATE_ONLY) srcpath dstpath
      else
        let ignored : M W (Z * option (list Z) * option (list Z)) :=
          _ ← printf (lit "WARNING: ignoring argument " ++ quote a ++ NL); cp_options args flags srcpath dstpath in
        if firstchar (Some a) =? SLASH then
          match srcpath, dstpath with
          | None, _ => cp_options args flags (Some a) dstpath
          | _, None => cp_options args flags srcpath (Some a)
          | _, _ => ignored
          end
        else ignored
  end.

Definition shell_help_cp : list Z :=
  lit "<source> <destination> [-R] [-f] [-c] [-s]" ++ NL ++
  lit "  <source>: source file/directory/file mask." ++ NL ++
  lit "  <destination>: destination file/directory." ++ NL ++
  lit "  [-R]: recursive" ++ NL ++
  lit "  [-f]: force destination override (default is to ask confirmation)." ++ NL ++
  lit "  [-c]: confirm each operation." ++ NL ++
  lit "  [-s]: simulate only (no actual operation)." ++ NL.

Definition shellh_adv_cp_mv_common (hasdirs0 : list Z -> bool) (argv : list (list Z)) (is_move : bool) : M W unit :=
  if (length argv <? 3)%nat then shellh_show_help (lit (if is_move then "mv" else "cp")) shell_help_cp else
  '(flags, srcpath, dstpath) ← cp_options (tail argv) (if is_move then SHELL_F_MOVE else 0) None None;
  match srcpath, dstpath with
  | Some srcpath, Some dstpath =>
      srctype ← get_type srcpath;
      dsttype ← get_type dstpath;
      let invalid : M W unit := printf (lit "Invalid destination " ++ quote dstpath ++ lit "." ++ NL) in
      if dsttype =? CMN_FS_TYPE_PATTERN then invalid
      else if (srctype =? CMN_FS_TYPE_ERROR) || (srctype =? CMN_FS_TYPE_FILE_NOT_FOUND) ||
              (srctype =? CMN_FS_TYPE_DIR_NOT_FOUND) || (srctype =? CMN_FS_TYPE_UNKNOWN_NOT_FOUND) ||
              (dsttype =? CMN_FS_TYPE_ERROR) || (dsttype =? CMN_FS_TYPE_DIR_NOT_FOUND) then
        _ ← printf (decimal srctype ++ lit " " ++ decimal dsttype ++ NL);
        printf (lit "Invalid source and/or destination." ++ NL)
      else
        src ← split_path srcpath;
        dst ← split_path dstpath;
        if srctype =? CMN_FS_TYPE_FILE then
          if (dsttype =? CMN_FS_TYPE_FILE) || (dsttype =? CMN_FS_TYPE_FILE_NOT_FOUND) ||
             (dsttype =? CMN_FS_TYPE_UNKNOWN_NOT_FOUND) then
            _ ← shellh_cp_or_mv_file fuel srcpath dstpath flags; mret ()
          else if dsttype =? CMN_FS_TYPE_DIR then
            tmp ← match dst with
                  | None => path_join []
                  | Some (dstdir, _) => '(_, srcfile) ← ret_opt src; join_dest (Some dstdir) [srcfile]
                  end;
            match tmp with
            | None => no_memory
            | Some tmp => _ ← shellh_cp_or_mv_file fuel srcpath tmp flags; mret ()
            end
          else printf (lit "Invalid destination." ++ NL)
        else if (dsttype =? CMN_FS_TYPE_FILE) || (dsttype =? CMN_FS_TYPE_FILE_NOT_FOUND) then invalid
        else
          '(srcdir, _) ← ret_opt src;
          let rec := has_flag flags SHELL_F_RECURSIVE in
          let loc := match strrchr srcdir with Some k => drop k srcdir | None => [] end in
          _ ← walk (shellh_cp_walkdir_cb (mkCp (fst <$> dst) srcdir (if rec then loc else []) (u8 flags))) hasdirs0 fuel srcpath rec ();
          mret ()
  | _, _ => printf (lit "Source and/or destination not specified." ++ NL)
  end.
Definition shell_cp (hasdirs0 : list Z -> bool) (argv : list (list Z)) : M W unit := shellh_adv_cp_mv_common hasdirs0 argv false.
Definition shell_adv_mv (hasdirs0 : list Z -> bool) (argv : list (list Z)) : M W unit := shellh_adv_cp_mv_common hasdirs0 argv true.

(** ** rm *)

Definition shellh_rm_one (path : list Z) (flags : Z) : M W unit :=
  ftype ← get_type path;
  go ← (if has_flag flags SHELL_F_ASK_CONFIRMATION then
          _ ← printf (lit "Are you sure you want to remove " ++ path ++ lit " ? [y/n] "); shellh_ask_yes_no None
        else mret 1);
  if go =? 0 then mret () else
  (* [None]: no file and no directory *)
  res ← (if has_flag flags SHELL_F_SIMULATE_ONLY then mret (Some 0)
         else if ftype =? CMN_FS_TYPE_FILE then r ← os (sys_unlink path); mret (Some r)
         else if ftype =? CMN_FS_TYPE_DIR then r ← os (sys_rmdir path); mret (Some r)
         else _ ← printf (lit "WARNING: invalid argument " ++ quote path ++ NL); mret None);
  match res with
  | None => mret ()
  | Some res =>
      if negb (res =? 0) then
        if has_flag flags SHELL_F_SILENT then mret ()
        else printf (lit "WARNING: unable to remove " ++ path ++ NL)
      else printf (lit "Removed " ++ path ++ NL)
  end.

(** [*pflags]: one byte of an [unsigned]. *)
Definition shellh_rm_walkdir_cb (pflags : Z) (path : list Z) (pent : option dirent) (info : Z) (t : unit)
  : M W (bool * unit) :=
  if info =? CMN_FS_INFO_BEFORE_READDIR then mret (true, t)
  else if info =? CMN_FS_INFO_INSIDE_READDIR then
    pent ← ret_opt pent;
    tmp ← path_join [path; fname pent];
    match tmp with
    | None => _ ← no_memory; mret (false, t)
    | Some tmp =>
        ty ← get_type tmp;
        _ ← (if ty =? CMN_FS_TYPE_FILE then shellh_rm_one tmp pflags else mret ());
        mret (true, t)
    end
  else if info =? CMN_FS_INFO_OPENDIR_FAILED then
    _ ← printf (lit "ERROR: unable to read directory " ++ quote path ++ lit ", aborting." ++ NL); mret (false, t)
  else if info =? CMN_FS_INFO_DIRECTORY_DONE then
    _ ← (if has_flag pflags SHELL_F_RECURSIVE && negb (cmn_fs_is_root_dir (Some path))
         then shellh_rm_one path (Z.lor pflags SHELL_F_SILENT) else mret ());
    mret (true, t)
  else mret (true, t).

Fixpoint rm_options (args : list (list Z)) (flags : Z) (fmask : option (list Z)) : M W (Z * option (list Z)) :=
  match args with
  | [] => mret (flags, fmask)
  | a :: args =>
      let ignored : M W (Z * option (list Z)) :=
        _ ← printf (lit "Warning: ignoring argument " ++ quote a ++ NL); rm_options args flags fmask in
      if firstchar (Some a) =? SLASH then
        match fmask with None => rm_options args flags (Some a) | Some _ => ignored end
      else if bool_decide (a = lit "-R") then rm_options args (Z.lor flags SHELL_F_RECURSIVE) fmask
      else if bool_decide (a = lit "-c") then rm_options args (Z.lor flags SHELL_F_ASK_CONFIRMATION) fmask
      else if bool_decide (a = lit "-s") then rm_options args (Z.lor flags SHELL_F_SIMULATE_ONLY) fmask
      else ignored
  end.
Definition shell_help_rm : list Z :=
  lit "<filemask> [-R] [-c] [-s]" ++ NL ++
  lit "  <filemask>: file, directory or file mask to remove." ++ NL ++
  lit "  -R: remove recursively." ++ NL ++
  lit "  -c: confirm each remove." ++ NL ++
  lit "  -s: simulate only (no actual operation)." ++ NL.
Definition shell_adv_rm (big_endian : bool) (hasdirs0 : list Z -> bool) (argv : list (list Z)) : M W unit :=
  if (length argv <? 2)%nat then shellh_show_help (lit "rm") shell_help_rm else
  '(flags, fmask) ← rm_options (tail argv) 0 None;
  match fmask with
  | None => printf (lit "rm target not specified." ++ NL)
  | Some fmask =>
      masktype ← get_type fmask;
      if masktype =? CMN_FS_TYPE_FILE then shellh_rm_one fmask flags
      else if (masktype =? CMN_FS_TYPE_ERROR) || (masktype =? CMN_FS_TYPE_FILE_NOT_FOUND) ||
              (masktype =? CMN_FS_TYPE_DIR_NOT_FOUND) || (masktype =? CMN_FS_TYPE_UNKNOWN_NOT_FOUND) then
        printf (lit "Invalid argument " ++ quote fmask ++ lit "." ++ NL)
      else if (masktype =? CMN_FS_TYPE_DIR) && negb (has_flag flags SHELL_F_RECURSIVE) then
        printf (quote fmask ++ lit ": unable to remove directory (use " ++ quote (lit "-R") ++ lit ")." ++ NL)
      else
        _ ← walk (shellh_rm_walkdir_cb (byte_at_int big_endian flags)) hasdirs0 fuel fmask (has_flag flags SHELL_F_RECURSIVE) ();
        mret ()
  end.

(** ** ls *)

Record SHELL_LS_STATE := mkLs { dir_total : Z; total : Z; ndirs : Z }.
Definition shellh_ls_walkdir_cb (path : list Z) (pent : option dirent) (info : Z) (ps : SHELL_LS_STATE)
  : M W (bool * SHELL_LS_STATE) :=
  if info =? CMN_FS_INFO_BEFORE_READDIR then
    _ ← printf (path ++ NL);
    mret (true, mkLs 0 (total ps) (if ndirs ps =? 0xFF then ndirs ps else ndirs ps + 1))
  else if info =? CMN_FS_INFO_INSIDE_READDIR then
    pent ← ret_opt pent;
    _ ← printf (lit "  " ++ pad 30 (fname pent));
    if is_dir pent then _ ← printf (lit "<DIR>" ++ NL); mret (true, ps)
    else
      _ ← printf (decimal (u32 (fsize pent)) ++ lit " bytes" ++ NL);
      mret (true, mkLs (u32 (dir_total ps + fsize pent)) (total ps) (ndirs ps))
  else if info =? CMN_FS_INFO_AFTER_CLOSEDIR then
    _ ← printf (lit "Total on " ++ path ++ lit ": " ++ decimal (dir_total ps) ++ lit " bytes" ++ NL ++ NL);
    mret (true, mkLs (dir_total ps) (u32 (total ps + dir_total ps)) (ndirs ps))
  else if info =? CMN_FS_INFO_OPENDIR_FAILED then
    _ ← printf (lit "WARNING: unable to open " ++ path ++ NL); mret (true, ps)
  else mret (true, ps).

Fixpoint ls_options (args : list (list Z)) (recursive : bool) (pname : option (list Z)) : M W (bool * option (list Z)) :=
  match args with
  | [] => mret (recursive, pname)
  | a :: args =>
      if bool_decide (a = lit "-R") then ls_options args true pname
      else if (firstchar (Some a) =? SLASH) && bool_decide (pname = None) then ls_options args recursive (Some a)
      else _ ← printf (lit "Warning: ignoring argument " ++ quote a ++ lit " of ls" ++ NL); ls_options args recursive pname
  end.
Section Ls.
Context {Wd P Dd Ent : Type}.
Abbreviation instance := (DM_INSTANCE_DATA Wd P Dd Ent).
Definition lists_directories (pinst : instance) : bool :=
  bool_decide (is_Some (p_opendir_r (pdev pinst))) && bool_decide (is_Some (p_readdir_r (pdev pinst))) &&
  bool_decide (is_Some (p_closedir_r (pdev pinst))).
(** For the devices that list directories, or those whose name begins the path. *)
Fixpoint ls_devices (hasdirs0 : list Z -> bool) (recursive : bool) (pname : option (list Z)) (l : list instance)
  : M W unit :=
  match l with
  | [] => mret ()
  | pinst :: l =>
      if negb (lists_directories pinst) ||
         match pname with Some p => negb (under (name pinst) p) | None => false end
      then ls_devices hasdirs0 recursive pname l
      else
        let crtname := default (name pinst) pname in
        '(_, state) ← walk shellh_ls_walkdir_cb hasdirs0 fuel crtname recursive (mkLs 0 0 0);
        _ ← (if recursive && (ndirs state >? 1) then
               printf (lit "Total on " ++ crtname ++ lit " with all subdirectories: " ++ decimal (total state) ++ lit " bytes" ++ NL ++ NL)
             else mret ());
        ls_devices hasdirs0 recursive pname l
  end.
Definition shell_ls (hasdirs0 : list Z -> bool) (dm_list : list instance) (argv : list (list Z)) : M W unit :=
  '(recursive, pname) ← ls_options (tail argv) false None; ls_devices hasdirs0 recursive pname dm_list.
End Ls.
End Files.

(** ** The other commands *)

Section Others.
Context {S F : Type} {libc : Libc S F}.
Abbreviation W := (world S).

(** *** cat *)

Definition shell_help_cat : list Z :=
  lit "<file> [<file2>] ... [<filen>]" ++ lit "  <file>: the file to list." ++ NL ++
  lit "  [<file2>] ... [<filen>]: other files to list." ++ NL.
(** Characters up to the end of the file, [c] being the next one. *)
Fixpoint cat_loop (fuel : nat) (fp : F) (c : Z) : M W unit :=
  match fuel with
  | O => fail
  | Datatypes.S fuel =>
      if c =? EOF then mret () else _ ← printf [u8 c]; c ← os (f_getc fp); cat_loop fuel fp c
  end.
Fixpoint cat_files (fuel : nat) (args : list (list Z)) : M W unit :=
  match args with
  | [] => mret ()
  | a :: args =>
      fp ← os (f_open a false);
      _ ← match fp with
          | Some fp => c ← os (f_getc fp); _ ← cat_loop fuel fp c; _ ← os (f_close fp); mret ()
          | None => printf (lit "Unable to open " ++ quote a ++ NL)
          end;
      cat_files fuel args
  end.
Definition shell_cat (fuel : nat) (argv : list (list Z)) : M W unit :=
  if (length argv <? 2)%nat then name ← ret_opt (head argv); shellh_show_help name shell_help_cat
  else cat_files fuel (tail argv).

(** *** mkdir *)

Definition shell_help_mkdir : list Z := lit "<path>" ++ NL ++ lit "  <path>: the directory to create." ++ NL.
Definition shell_mkdir (argv : list (list Z)) : M W unit :=
  match argv with
  | [_; path] =>
      r ← os (sys_mkdir path);
      _ ← (if negb (r =? 0) then printf (lit "Error creating directory " ++ quote path ++ NL) else mret ());
      printf (lit "Created directory " ++ quote path ++ lit "." ++ NL)
  | _ => shellh_show_help (lit "mkdir") shell_help_mkdir
  end.

(** *** recv

    What the transfer needs from the serial line, and Lua: [lua_run] gives [None]
    when there is no state, and the message of an error otherwise. *)
Context (xmodem_in_func : Z -> S -> Z * S) (xmodem_out_func : Z -> S -> S) (has_mem : Z -> bool).
Context (lua_run : list Z -> M W (option (option (list Z)))).

(** How many of the [n] bytes are left without the padding at the end; [None]:
    there are no others, and the search leaves the buffer. *)
Fixpoint strip_pad (prog : list Z) (n : nat) : option nat :=
  match n with
  | O => None
  | Datatypes.S k => c ← load prog k; if c =? 0x1A then strip_pad prog k else Some n
  end.
Definition shell_help_recv : list Z :=
  lit "[<path>]" ++ NL ++ lit "  [<path>] - the data received via XMODEM will be saved to this file." ++ NL ++
  lit "Without arguments it runs Lua to execute the data it receives." ++ NL.
Definition receive (flush_fuel fuel : nat) (buf dest : list Z) : M W (Z * list Z) := fun w =>
  '(r, d, s) ← xmodem_receive xmodem_in_func xmodem_out_func has_mem flush_fuel fuel buf dest (w_sys w);
  Some ((r, d), World (w_keys w) (w_out w) s).
Definition shell_recv (flush_fuel fuel : nat) (buf : list Z) (argv : list (list Z)) : M W unit :=
  if (2 <? length argv)%nat then shellh_show_help (lit "recv") shell_help_recv else
  prog ← os (sys_malloc XMODEM_INITIAL_BUFFER_SIZE);
  match prog with
  | None => printf (lit "Unable to allocate memory" ++ NL)
  | Some dest =>
      _ ← printf (lit "Waiting for file ... ");
      '(actsize, prog) ← receive flush_fuel fuel buf dest;
      _ ← (if actsize <? 0 then
             if actsize =? XMODEM_ERROR_OUTOFMEM then printf (lit "file too big" ++ NL) else printf (lit "XMODEM error" ++ NL)
           else
             n ← ret_opt (strip_pad prog (Z.to_nat actsize));
             _ ← printf (lit "done, got " ++ decimal (Z.of_nat n) ++ lit " bytes" ++ NL);
             match argv with
             | [_; path] =>
                 foutput ← os (f_open path true);
                 match foutput with
                 | None => printf (lit "unable to open file " ++ path ++ NL)
                 | Some f =>
                     written ← os (f_write f (take n prog));
                     _ ← (if written =? Z.of_nat n then printf (lit "received and saved as " ++ path ++ NL)
                          else printf (lit "unable to save file " ++ path ++ lit " (no space left on target?)" ++ NL));
                     _ ← os (f_close f); mret ()
                 end
             | _ =>
                 r ← lua_run (take n prog);
                 match r with
                 | None => printf (lit "Unable to create Lua state" ++ NL)
                 | Some (Some e) => printf (lit "Error: " ++ e ++ NL)
                 | Some None => mret ()
                 end
             end);
      os sys_free
  end.

(** *** wofmt, ver, lua *)

Context (wofs_format : S -> Z * S).
Definition shell_help_wofmt : list Z := NL ++ lit "Formats the WOFS, initializing it to a blank state." ++ NL.
Definition shell_wofmt (argv : list (list Z)) : M W unit :=
  match argv with
  | [_] =>
      _ ← printf (lit "Formatting the internal WOFS will DESTROY ALL THE FILES FROM WOFS." ++ NL);
      yes ← shellh_ask_yes_no (Some (lit "Are you sure you want to continue? [y/n] "));
      if yes =? 0 then mret () else
      _ ← printf (lit "Formatting ...");
      r ← os wofs_format;
      if r =? 0 then
        _ ← printf (NL ++ lit "i*** ERROR ***: unable to erase the internal flash. WOFS might be compromised." ++ NL);
        printf (lit "It is advised to re-flash the eLua image." ++ NL)
      else printf (lit " done." ++ NL)
  | _ => shellh_show_help (lit "wofmt") shell_help_wofmt
  end.
Definition shell_help_ver : list Z := NL ++
  lit "This displays the git revision of the tree used to build eLua or an official version number if applicable." ++ NL.
Definition shell_ver (ELUA_STR_VERSION : list Z) (argv : list (list Z)) : M W unit :=
  match argv with
  | [_] =>
      _ ← printf (lit "eLua version " ++ ELUA_STR_VERSION ++ NL);
      printf (lit "For more information visit www.eluaproject.net and wiki.eluaproject.net" ++ NL)
  | _ => shellh_show_help (lit "ver") shell_help_ver
  end.
(** [lua_main]: the interpreter; [eof]: the key that ends it. *)
Definition shell_lua (eof : list Z) (lua_main : list (list Z) -> M W unit) (clearerr : S -> unit * S)
  (argv : list (list Z)) : M W unit :=
  _ ← printf (lit "Press " ++ eof ++ lit " to exit Lua" ++ NL); _ ← lua_main argv; os clearerr.

(** *** help *)

Record SHELL_HELP_DATA := mkHelp { help_cmd : list Z; help_summary : list Z; help_full : list Z }.
Definition shell_help_help : list Z :=
  lit "[<command>]" ++ NL ++ lit "  [<command>] - the command to get help on." ++ NL ++
  lit "Without arguments it shows a summary of all the shell commands." ++ NL.
(** The table, without its last entry. *)
Context (shell_help_data : list SHELL_HELP_DATA).
Definition listed (ph : SHELL_HELP_DATA) : bool := (0 <? length (help_summary ph))%nat.
Definition shell_help (argv : list (list Z)) : M W unit :=
  match argv with
  | [_] =>
      _ ← printf (lit "Shell commands:" ++ NL);
      _ ← (fix show (l : list SHELL_HELP_DATA) : M W unit :=
             match l with
             | [] => mret ()
             | ph :: l =>
                 _ ← (if listed ph then printf (lit "  " ++ pad 6 (help_cmd ph) ++ lit " - " ++ help_summary ph ++ NL)
                      else mret ());
                 show l
             end) shell_help_data;
      printf (lit "For more information use " ++ quote (lit "help <command>") ++ lit "." ++ NL)
  | [_; topic] =>
      match snd <$> list_find (fun ph => help_cmd ph = topic /\ listed ph = true) shell_help_data with
      | Some ph => printf (help_cmd ph ++ lit " - " ++ help_summary ph ++ NL ++ lit "Usage: " ++ help_cmd ph ++ lit " " ++ help_full ph)
      | None => printf (lit "Unknown command " ++ quote topic ++ lit "." ++ NL)
      end
  | _ => shellh_show_help (lit "help") shell_help_help
  end.
End Others.
