(* ===== verification/ShellSpec.v ===== *)
(** * ShellSpec: what the commands on files do

    For any file system whose calls keep the promises of [CopyLaws], copying and
    moving a file; for any that does not change while it is listed, what ls
    shows. *)

From S2P Require Import Prelude Devman CommonFs Term Shell ShellFiles.

Abbreviation path := (list Z).

(** ** What a file system promises

    [name]: the file that a path names (a file system may ignore case, or what is
    after the first characters of a name); [files]: what is in each file; [fds]: the
    open descriptors, each with its file and position; [blocks]: how many blocks of
    memory are taken. Reading stops short only at the end of the file; writing, at the
    end of a file, may stop short; any call may fail, and then only the file that is
    being written, or was to be opened for it, may change: a write-once file system
    removes the old file before it looks for space for the new one. *)
Class CopyLaws {S F} (libc : Libc S F) (name : path -> path) (files : S -> gmap path (list Z)) (fds : S -> gmap Z (path * nat))
    (blocks : S -> nat) : Prop := {
  cl_open_read p s : exists fd s', sys_open p O_RDONLY s = (fd, s') /\ files s' = files s /\ blocks s' = blocks s /\
    ((fd = -1 /\ fds s' = fds s) \/
     (fd <> -1 /\ fds s !! fd = None /\ is_Some (files s !! name p) /\ fds s' = <[fd := (name p, 0%nat)]> (fds s)));
  cl_open_write p s : exists fd s', sys_open p O_REWRITE s = (fd, s') /\ blocks s' = blocks s /\
    ((fd = -1 /\ fds s' = fds s /\ forall q, q <> name p -> files s' !! q = files s !! q) \/
     (fd <> -1 /\ fds s !! fd = None /\ files s' = <[name p := []]> (files s) /\ fds s' = <[fd := (name p, 0%nat)]> (fds s)));
  cl_read fd n p pos d s : fds s !! fd = Some (p, pos) -> files s !! p = Some d -> 0 <= n ->
    exists r bs s', sys_read fd n s = ((r, bs), s') /\ files s' = files s /\ blocks s' = blocks s /\
    ((r = -1 /\ fds s' = fds s) \/
     (bs = take (Z.to_nat n) (drop pos d) /\ r = Z.of_nat (length bs) /\
      fds s' = <[fd := (p, (pos + length bs)%nat)]> (fds s)));
  cl_write fd p d bs s : fds s !! fd = Some (p, length d) -> files s !! p = Some d ->
    exists r s' d', sys_write fd bs s = (r, s') /\ blocks s' = blocks s /\ files s' = <[p := d']> (files s) /\
    ((r = -1 /\ fds s' = fds s) \/
     (0 <= r <= Z.of_nat (length bs) /\ d' = d ++ take (Z.to_nat r) bs /\
      fds s' = <[fd := (p, length d')]> (fds s)));
  cl_close fd s : exists r s', sys_close fd s = (r, s') /\ files s' = files s /\ blocks s' = blocks s /\
    fds s' = delete fd (fds s);
  cl_unlink p s : exists r s', sys_unlink p s = (r, s') /\ fds s' = fds s /\ blocks s' = blocks s /\
    files s' = if r =? -1 then files s else delete (name p) (files s);
  cl_rename a b s : exists r s', sys_rename a b s = (r, s') /\ fds s' = fds s /\ blocks s' = blocks s /\
    if r =? -1 then files s' = files s
    else exists d, files s !! name a = Some d /\ files s' = <[name b := d]> (delete (name a) (files s));
  cl_errno s : exists e s', sys_errno s = (e, s') /\ files s' = files s /\ fds s' = fds s /\ blocks s' = blocks s;
  cl_malloc n s : exists r s', sys_malloc n s = (r, s') /\ files s' = files s /\ fds s' = fds s /\
    blocks s' = (blocks s + if r is Some _ then 1 else 0)%nat;
  cl_free s : exists s', sys_free s = ((), s') /\ files s' = files s /\ fds s' = fds s /\ blocks s' = (blocks s - 1)%nat
}.

(** ** Steps of the shell *)

Lemma os_run {S A} (f : S -> A * S) k o s a s' : f s = (a, s') -> os f (World k o s) = Some (a, World k o s').
Proof. unfold os. cbn. by intros ->. Qed.
(** What is said changes only the output. *)
Definition said (flags : Z) (t : list Z) : list Z := if has_flag flags SHELL_F_SILENT then [] else t.
Lemma plog_run {S} flags t k o (s : S) : plog flags t (World k o s) = Some ((), World k (o ++ said flags t) s).
Proof. unfold plog, when, said. destruct (has_flag _ _); cbn; by rewrite ?app_nil_r. Qed.
(** One step of a run. *)
Ltac step_os E := rewrite (M_bind_run _ _ _ _ _ (os_run _ _ _ _ _ _ E)); cbv beta iota.
Ltac step_plog := rewrite (M_bind_run _ _ _ _ _ (plog_run _ _ _ _ _)); cbv beta iota.

Lemma u32_add a b : u32 (u32 a + b) = u32 (a + b).
Proof. apply Zplus_mod_idemp_l. Qed.

(** *** Questions *)

Definition is_answer (c : Z) : Prop := c = 121 \/ c = 89 \/ c = 110 \/ c = 78.
#[export] Instance is_answer_dec c : Decision (is_answer c).
Proof. unfold is_answer. solve_decision. Defined.
(** How many questions the keys answer. *)
Definition answers (ks : list Z) : nat := length (filter is_answer ks).

Lemma ask_loop_ok {S} ks o (s : S) : (0 < answers ks)%nat -> exists r w', ask_loop ks (World ks o s) = Some (r, w') /\
  (r = 0 \/ r = 1) /\ w_sys w' = s /\ (answers (w_keys w') + 1)%nat = answers ks.
Proof.
  unfold answers. induction ks as [|c ks IH] in o |- *; [cbn; lia|]. intros Hn. cbn [ask_loop].
  erewrite M_bind_run by reflexivity. rewrite filter_cons in Hn. rewrite filter_cons.
  destruct (Z.eqb_spec c 121) as [->|H1]; [|destruct (Z.eqb_spec c 89) as [->|H2]]; cbn [orb].
  1-2: erewrite M_bind_run by reflexivity; eexists 1, _; split; [reflexivity|];
    rewrite decide_True by (unfold is_answer; auto); cbn; auto using Nat.add_1_r.
  destruct (Z.eqb_spec c 110) as [->|H3]; [|destruct (Z.eqb_spec c 78) as [->|H4]]; cbn [orb].
  1-2: erewrite M_bind_run by reflexivity; eexists 0, _; split; [reflexivity|];
    rewrite decide_True by (unfold is_answer; auto); cbn; auto using Nat.add_1_r.
  rewrite decide_False in * by (unfold is_answer; tauto). by apply IH.
Qed.
Lemma ask_ok {S} ks o (s : S) : (0 < answers ks)%nat -> exists r ks' o', shellh_ask_yes_no None (World ks o s) =
  Some (r, World ks' o' s) /\ (r = 0 \/ r = 1) /\ (answers ks' + 1)%nat = answers ks.
Proof.
  intros Hn. unfold shellh_ask_yes_no. erewrite M_bind_run by reflexivity. erewrite M_bind_run by reflexivity.
  destruct (ask_loop_ok ks o s Hn) as (r & [ks' o' s'] & E & Hr & Hs & Ha). cbn in *. subst s'. by eauto 10.
Qed.

Section Copy.
Context {S F : Type} {libc : Libc S F} (name : path -> path) (files : S -> gmap path (list Z)) (fds : S -> gmap Z (path * nat)) (blocks : S -> nat).
Context {laws : CopyLaws libc name files fds blocks}.
Context (SIZE : Z) (Hsize : 0 < SIZE).
Abbreviation W := (world S).
Implicit Types w : W.

Lemma copy_loop_ok flags psrc pdst src dst fd1 fd2 d k : forall fuel pos buf total o s,
  src <> dst -> fd1 <> fd2 -> fds s !! fd1 = Some (src, pos) -> fds s !! fd2 = Some (dst, pos) ->
  files s !! src = Some d -> files s !! dst = Some (take pos d) -> (pos <= length d)%nat ->
  Z.of_nat (length d - pos) < Z.of_nat fuel * SIZE ->
  exists res o' s', copy_loop SIZE fuel flags psrc pdst fd1 fd2 buf total (World k o s) = Some (res, World k o' s') /\
    blocks s' = blocks s /\ delete fd2 (delete fd1 (fds s')) = delete fd2 (delete fd1 (fds s)) /\
    match res with
    | Some t => files s' = <[dst := d]> (files s) /\ u32 t = u32 (total + Z.of_nat (length d - pos))
    | None => exists d', files s' = <[dst := d']> (files s)
    end.
Proof.
  induction fuel as [|fuel IH]; intros pos buf total o s Hne Hfd H1 H2 Hs Hd Hpos Hf; [lia|]. cbn [copy_loop].
  destruct (cl_read fd1 SIZE src pos d s H1 Hs ltac:(lia)) as (r & bs & s1 & E1 & Hf1 & Hb1 & Hr1).
  step_os E1. destruct Hr1 as [[-> Hr1]|(Ebs & -> & Hr1)].
  { rewrite Z.eqb_refl. step_plog. eexists None, _, s1. split; [reflexivity|].
    rewrite Hf1, Hb1, Hr1. split_and!; [done..|]. exists (take pos d). by rewrite insert_id. }
  rewrite (proj2 (Z.eqb_neq _ (-1))) by lia. cbv zeta. rewrite Nat2Z.id, take_app_length.
  assert (Hn : length bs = (Z.to_nat SIZE `min` (length d - pos))%nat) by (rewrite Ebs, length_take, length_drop; done).
  assert (H2' : fds s1 !! fd2 = Some (dst, length (take pos d))).
  { rewrite Hr1, lookup_insert_ne by done. by rewrite length_take, Nat.min_l by lia. }
  assert (Hd' : files s1 !! dst = Some (take pos d)) by (by rewrite Hf1).
  destruct (cl_write fd2 dst (take pos d) bs s1 H2' Hd') as (r & s2 & d' & E2 & Hb2 & Hf2 & Hr2). step_os E2.
  assert (Hfds : forall x, delete fd2 (delete fd1 (<[fd2 := x]> (fds s1))) = delete fd2 (delete fd1 (fds s))).
  { intros x. rewrite Hr1, delete_insert_ne, !delete_insert_eq by done. done. }
  assert (Hfds0 : delete fd2 (delete fd1 (fds s1)) = delete fd2 (delete fd1 (fds s))) by (by rewrite Hr1, delete_insert_eq).
  assert (Hdst : exists d', files s2 = <[dst := d']> (files s)) by (exists d'; by rewrite Hf2, Hf1).
  destruct Hr2 as [[-> Hr2]|(Hr & Ed' & Hr2)].
  { rewrite Z.eqb_refl. step_plog. eexists None, _, s2. split; [reflexivity|]. by rewrite Hb2, Hb1, Hr2. }
  rewrite (proj2 (Z.eqb_neq r (-1))) by lia. destruct (Z.ltb_spec r (Z.of_nat (length bs))) as [Hlt|Hge].
  { step_plog. eexists None, _, s2. split; [reflexivity|]. by rewrite Hb2, Hb1, Hr2. }
  assert (Hrl : r = Z.of_nat (length bs)) by lia. rewrite Hrl, Nat2Z.id, firstn_all in Ed'.
  assert (Ed : d' = take (pos + length bs) d).
  { rewrite Ed', Hn, Ebs, take_take_drop. destruct (decide (Z.to_nat SIZE <= length d - pos)%nat).
    - by rewrite Nat.min_l by lia.
    - rewrite Nat.min_r, !take_ge by lia. done. }
  destruct (Z.ltb_spec (Z.of_nat (length bs)) SIZE) as [Hend|Hmore].
  - eexists (Some _), o, s2. split; [reflexivity|]. rewrite Hb2, Hb1, Hr2. split_and!; [done..| |].
    + rewrite Hf2, Hf1, Ed, take_ge by lia. done.
    + rewrite u32_u32. f_equal. lia.
  - edestruct (IH (pos + length bs)%nat (bs ++ drop (length bs) buf) (u32 (total + Z.of_nat (length bs))) o s2) as
      (res & o' & s' & E & Hb & Hfd' & Hres); [done|done| | | | |lia| |].
    + rewrite Hr2, lookup_insert_ne by done. rewrite Hr1. apply lookup_insert_eq.
    + rewrite Hr2, lookup_insert_eq, Ed, length_take. repeat f_equal. lia.
    + rewrite Hf2, lookup_insert_ne by done. by rewrite Hf1.
    + rewrite Hf2, lookup_insert_eq. by rewrite Ed.
    + rewrite Hn. lia.
    + exists res, o', s'. split; [exact E|]. rewrite Hb, Hb2, Hb1, Hfd', Hr2. split_and!; [done..|].
      rewrite Hf2, Hf1 in Hres. destruct res as [t|].
      * destruct Hres as [-> Ht]. rewrite insert_insert_eq. split; [done|]. rewrite Ht. rewrite u32_add. f_equal. lia.
      * destruct Hres as (d2 & ->). rewrite insert_insert_eq. by exists d2.
Qed.

(** *** One file *)

(** Closing a descriptor, unless it is -1. *)
Definition closing (fd : Z) (m : gmap Z (path * nat)) : gmap Z (path * nat) := if fd =? -1 then m else delete fd m.
Lemma close_fd_ok fd k o s : exists s', close_ fd (World k o s) = Some ((), World k o s') /\
  files s' = files s /\ blocks s' = blocks s /\ fds s' = closing fd (fds s).
Proof.
  unfold close_, closing. destruct (fd =? -1); [by exists s|]. destruct (cl_close fd s) as (r & s' & E & H).
  step_os E. exists s'. by destruct H as (-> & -> & ->).
Qed.
Lemma cp_done_ok fd1 fd2 (buf : option (list Z)) res k o s : exists s', cp_done fd1 fd2 buf res (World k o s) = Some (res, World k o s') /\
  files s' = files s /\ fds s' = closing fd2 (closing fd1 (fds s)) /\
  blocks s' = (blocks s - if buf is Some _ then 1 else 0)%nat.
Proof.
  unfold cp_done. destruct (close_fd_ok fd1 k o s) as (s1 & E1 & Hf1 & Hb1 & Hd1). rewrite (M_bind_run _ _ _ _ _ E1).
  destruct (close_fd_ok fd2 k o s1) as (s2 & E2 & Hf2 & Hb2 & Hd2). rewrite (M_bind_run _ _ _ _ _ E2).
  destruct buf.
  - destruct (cl_free s2) as (s3 & E3 & Hf3 & Hd3 & Hb3). step_os E3. exists s3. by rewrite Hf3, Hd3, Hb3, Hf2, Hd2, Hb2, Hf1, Hd1, Hb1.
  - exists s2. rewrite Nat.sub_0_r. by rewrite Hf2, Hd2, Hb2, Hf1, Hd1, Hb1.
Qed.

(** What copying [src] to [dst] does to the files; [sim]: it is simulated. *)
Definition copied (sim : bool) (src dst : path) (r : Z) (m m' : gmap path (list Z)) : Prop :=
  (r = 1 /\ if sim then m' = m else src <> dst /\ exists d, m !! src = Some d /\ m' = <[dst := d]> m) \/
  (r = 0 /\ (m' = m \/ (sim = false /\ src <> dst /\ forall p, p <> dst -> m' !! p = m !! p))).
(** A run that ends in a state with the same descriptors and memory. *)
Definition ends (m : M W Z) (n : nat) (k : list Z) (o : list Z) (s : S) (post : Z -> gmap path (list Z) -> Prop) : Prop :=
  exists r k' o' s', m (World k o s) = Some (r, World k' o' s') /\ (answers k <= answers k' + n)%nat /\
    fds s' = fds s /\ blocks s' = blocks s /\ post r (files s').

Lemma ends_done (fd1 fd2 : Z) (buf : option (list Z)) (res : Z) (n : nat) (k k0 o o0 : list Z) (s s0 : S) (post : Z -> gmap path (list Z) -> Prop) (m : M W Z) :
  m (World k0 o0 s0) = cp_done fd1 fd2 buf res (World k o s) -> (answers k0 <= answers k + n)%nat ->
  closing fd2 (closing fd1 (fds s)) = fds s0 -> (blocks s = blocks s0 + if buf is Some _ then 1 else 0)%nat ->
  post res (files s) -> ends m n k0 o0 s0 post.
Proof.
  intros E Hk Hd Hb Hp. destruct (cp_done_ok fd1 fd2 buf res k o s) as (s' & E' & Hf' & Hd' & Hb').
  exists res, k, o, s'. rewrite E, E', Hd', Hb', Hf', Hd. split_and!; try done. destruct buf; lia.
Qed.

(** A question, if there is one. *)
Lemma maybe_ask (b : bool) (t k o : list Z) (s : S) : (1 <= answers k)%nat -> exists go k' o',
  ((if b then _ ← printf t; shellh_ask_yes_no None else mret 1) : M W Z) (World k o s) = Some (go, World k' o' s) /\
  (go = 0 \/ go = 1) /\ (answers k <= answers k' + 1)%nat.
Proof.
  intros Hk. destruct b; [|exists 1, k, o; split; [done|split; [auto|lia]]].
  erewrite M_bind_run by reflexivity. destruct (ask_ok k (o ++ t) s Hk) as (r & k' & o' & E & Hr & Ha).
  exists r, k', o'. split; [exact E|]. split; [done|lia].
Qed.
(** The copy itself, from an open source to a destination that is opened. *)
Lemma cp_body_ok (fuel : nat) (flags : Z) (src dst : path) (fd1 : Z) (b d : list Z) (n : nat) (k0 k o o0 : list Z) (s s0 : S) :
  name src <> name dst -> fds s = <[fd1 := (name src, 0%nat)]> (fds s0) -> fd1 <> -1 -> fds s0 !! fd1 = None ->
  files s = files s0 -> blocks s = (blocks s0 + 1)%nat -> files s0 !! name src = Some d ->
  Z.of_nat (length d) < Z.of_nat fuel * SIZE -> (answers k0 <= answers k + n)%nat ->
  forall m : M W Z, m (World k0 o0 s0) = (fdd ← os (sys_open dst O_REWRITE);
    if fdd =? -1 then
      _ ← plog flags (lit "ERROR: unable to open " ++ quote dst ++ lit " for writing." ++ NL);
      cp_done fd1 (-1) (Some b) 0
    else
      total ← copy_loop SIZE fuel flags src dst fd1 fdd b 0;
      match total with
      | None => cp_done fd1 fdd (Some b) 0
      | Some total => _ ← plog flags (lit "done (" ++ decimal total ++ lit " bytes)." ++ NL); cp_done fd1 fdd (Some b) 1
      end) (World k o s) ->
  ends m n k0 o0 s0 (fun r m' => copied false (name src) (name dst) r (files s0) m').
Proof.
  intros Hne Hfd H1 Hfree Hfs Hbl Hsrc Hfuel Hk m Em.
  assert (Hclose : forall fd2, delete fd2 (delete fd1 (fds s)) = delete fd2 (fds s0)).
  { intros fd2. by rewrite Hfd, delete_insert_id. }
  destruct (cl_open_write dst s) as (fd2 & s1 & E1 & Hb1 & Hr). revert Em. step_os E1. intros Em.
  destruct Hr as [(-> & Hd1 & Hf1)|(H2 & Hfree2 & Hf1 & Hd1)].
  - revert Em. rewrite Z.eqb_refl. step_plog. intros Em. eapply ends_done; [exact Em|done| | |].
    + unfold closing. rewrite (proj2 (Z.eqb_neq fd1 _)) by done. cbn [Z.eqb Pos.eqb]. by rewrite Hd1, Hfd, delete_insert_id.
    + by rewrite Hb1.
    + right. split; [done|]. right. rewrite <- Hfs. auto.
  - revert Em. rewrite (proj2 (Z.eqb_neq fd2 _)) by done. intros Em.
    assert (H12 : fd1 <> fd2) by (intros ->; by rewrite Hfd, lookup_insert_eq in Hfree2).
    destruct (copy_loop_ok flags src dst (name src) (name dst) fd1 fd2 d k fuel 0 b 0 o s1) as (res & o' & s2 & E2 & Hb2 & Hd2 & Hres); try done.
    + rewrite Hd1, lookup_insert_ne by done. rewrite Hfd. apply lookup_insert_eq.
    + rewrite Hd1. apply lookup_insert_eq.
    + rewrite Hf1, lookup_insert_ne by done. by rewrite Hfs.
    + rewrite Hf1. apply lookup_insert_eq.
    + lia.
    + lia.
    + rewrite (M_bind_run _ _ _ _ _ E2) in Em.
      assert (Hcl : closing fd2 (closing fd1 (fds s2)) = fds s0).
      { unfold closing. rewrite (proj2 (Z.eqb_neq fd1 _)), (proj2 (Z.eqb_neq fd2 _)), Hd2, Hd1 by done.
        rewrite delete_insert_ne, delete_insert_eq, Hclose by done. apply delete_id.
        rewrite Hfd, lookup_insert_ne in Hfree2 by done. done. }
      rewrite Hf1, Hfs in Hres. destruct res as [t|].
      * revert Em. step_plog. intros Em. eapply ends_done; [exact Em|done|done|by rewrite Hb2, Hb1|].
        left. split; [done|]. split; [done|]. exists d. split; [done|]. by rewrite (proj1 Hres), insert_insert_eq.
      * eapply ends_done; [exact Em|done|done|by rewrite Hb2, Hb1|].
        right. split; [done|]. right. destruct Hres as (d' & ->). rewrite insert_insert_eq. split_and!; [done..|]. intros p Hp. by rewrite lookup_insert_ne.
Qed.

(** The question about a destination that is there. *)
Lemma ask_overwrite (flags : Z) (dst : path) (k o : list Z) (s : S) : (1 <= answers k)%nat ->
  exists go k' o' s', ((if negb (has_flag flags SHELL_F_FORCE_DESTINATION) then
        fdd ← os (sys_open dst O_RDONLY);
        if fdd =? -1 then mret 1
        else
          _ ← os (sys_close fdd);
          _ ← printf (lit "Destination " ++ quote dst ++
                      lit " already exists, are you sure you want to overwrite it ? [y/n] ");
          shellh_ask_yes_no None
      else mret 1) : M W Z) (World k o s) = Some (go, World k' o' s') /\ (go = 0 \/ go = 1) /\
    (answers k <= answers k' + 1)%nat /\ files s' = files s /\ blocks s' = blocks s /\ fds s' = fds s.
Proof.
  intros Hk. destruct (negb _); [|exists 1, k, o, s; split_and!; auto; lia].
  destruct (cl_open_read dst s) as (fd & s1 & E1 & Hf1 & Hb1 & Hr). step_os E1.
  destruct Hr as [[-> Hd1]|(Hfd & Hfree & _ & Hd1)].
  { exists 1, k, o, s1. split_and!; auto; lia. }
  rewrite (proj2 (Z.eqb_neq fd _)) by done. destruct (cl_close fd s1) as (r & s2 & E2 & Hf2 & Hb2 & Hd2). step_os E2.
  destruct (maybe_ask true (lit "Destination " ++ quote dst ++
    lit " already exists, are you sure you want to overwrite it ? [y/n] ") k o s2 Hk) as (go & k' & o' & E3 & Hgo & Hk').
  exists go, k', o', s2. rewrite Hf2, Hb2, Hd2, Hf1, Hb1, Hd1, delete_insert_id by done. split_and!; auto.
Qed.
Lemma cp_file_ok (fuel : nat) (flags : Z) (src dst : path) (k o : list Z) (s : S) :
  (2 <= answers k)%nat -> (name src = name dst -> strcaseeq src dst = true) -> (forall d, files s !! name src = Some d -> Z.of_nat (length d) < Z.of_nat fuel * SIZE) ->
  ends (shellh_cp_file SIZE fuel src dst flags) 2 k o s
    (fun r m' => copied (has_flag flags SHELL_F_SIMULATE_ONLY) (name src) (name dst) r (files s) m').
Proof.
  intros Hk Hnames Hfuel. set (sim := has_flag flags SHELL_F_SIMULATE_ONLY).
  assert (Hfail : forall s' : S, files s' = files s -> copied sim (name src) (name dst) 0 (files s) (files s')) by (intros s' ->; right; eauto).
  destruct (strcaseeq src dst) eqn:Ecase.
  { eapply ends_done; [unfold shellh_cp_file; rewrite Ecase; step_plog; reflexivity|lia|done|cbn; lia|by apply Hfail]. }
  assert (Hne : name src <> name dst) by (intros E; specialize (Hnames E); done).
  destruct (maybe_ask (has_flag flags SHELL_F_ASK_CONFIRMATION)
    (lit "Copy " ++ quote src ++ lit " to " ++ quote dst ++ lit " ? [y/n] ") k o s ltac:(lia)) as (go & k1 & o1 & E1 & Hgo & Hk1).
  assert (Ecp : forall c, shellh_cp_file SIZE fuel src dst flags (World k o s) = c ->
    shellh_cp_file SIZE fuel src dst flags (World k o s) = c) by done.
  unfold shellh_cp_file in Ecp at 1. rewrite Ecase, (M_bind_run _ _ _ _ _ E1) in Ecp.
  destruct Hgo as [-> | ->].
  { eapply ends_done; [by apply Ecp|lia|done|cbn; lia|by apply Hfail]. }
  revert Ecp. cbn [Z.eqb Pos.eqb]. destruct (cl_open_read src s) as (fd1 & s1 & E2 & Hf1 & Hb1 & Hr1). step_os E2.
  destruct Hr1 as [[-> Hd1]|(Hfd1 & Hfree1 & [d Hsrc] & Hd1)].
  { rewrite Z.eqb_refl. step_plog. intros Ecp. eapply ends_done; [by apply Ecp|lia|done|cbn; lia|by apply Hfail]. }
  rewrite (proj2 (Z.eqb_neq fd1 _)) by done.
  assert (Hcl : forall m : gmap Z (path * nat), m = <[fd1 := (name src, 0%nat)]> (fds s) -> closing (-1) (closing fd1 m) = fds s).
  { intros m ->. unfold closing. rewrite (proj2 (Z.eqb_neq fd1 _)) by done. cbn [Z.eqb Pos.eqb]. by rewrite delete_insert_id. }
  destruct (ask_overwrite flags dst k1 o1 s1 ltac:(lia)) as (go & k2 & o2 & s2 & E3 & Hgo & Hk2 & Hf2 & Hb2 & Hd2).
  rewrite Hf1 in Hf2. rewrite Hb1 in Hb2. rewrite Hd1 in Hd2.
  rewrite (M_bind_run _ _ _ _ _ E3). destruct Hgo as [-> | ->].
  { cbn [Z.eqb Pos.eqb]. intros Ecp. eapply ends_done; [by apply Ecp|lia|by apply Hcl|cbn; lia|by apply Hfail]. }
  cbn [Z.eqb Pos.eqb]. destruct (cl_malloc SIZE s2) as (b & s3 & E4 & Hf3 & Hd3 & Hb3). step_os E4.
  destruct b as [b|].
  2:{ step_plog. intros Ecp. eapply ends_done; [by apply Ecp|lia|apply Hcl; by rewrite Hd3|cbn; lia|apply Hfail; by rewrite Hf3]. }
  step_plog. fold sim. destruct sim eqn:Esim.
  - step_plog. intros Ecp. eapply ends_done; [by apply Ecp|lia|apply Hcl; by rewrite Hd3|cbn; lia|].
    left. split; [done|]. by rewrite Hf3.
  - intros Ecp. eapply (cp_body_ok fuel flags src dst fd1 b d 2 k k2 _ o s3 s); [done|by rewrite Hd3|done|done|
      by rewrite Hf3|by rewrite Hb3, Hb2|done|by apply Hfuel|lia|by apply Ecp].
Qed.

(** Copying, or moving, [src] to [dst]. *)
Definition transferred (move : bool) (src dst : path) (r : Z) (m m' : gmap path (list Z)) : Prop :=
  if r =? 1 then exists d, m !! src = Some d /\ m' = <[dst := d]> (if move then delete src m else m)
  else m' !! src = m !! src /\ forall p, p <> dst -> m' !! p = m !! p.

Lemma copied_transferred src dst r m m' : copied false src dst r m m' ->
  (r = 0 \/ r = 1) /\ transferred false src dst r m m' /\ (r = 1 -> src <> dst).
Proof.
  unfold transferred. intros [(-> & Hne & d & Hd & ->)|(-> & [-> |(_ & Hne & Hrest)])]; cbn [Z.eqb Pos.eqb];
    (split; [auto|]); (split; [|done]).
  - by exists d.
  - done.
  - split; [by apply Hrest|exact Hrest].
Qed.
(** Renaming, as the first part of a move: done, refused, or the other file
    system. *)
Lemma rename_ok (src dst : path) (k o : list Z) (s : S) : exists res o' s',
  (r ← os (sys_rename src dst);
   if r =? -1 then
     e ← os sys_errno;
     if negb (e =? EXDEV) then _ ← printf (lit "Unable to rename " ++ quote src ++ lit "." ++ NL); mret (Some 0)
     else mret None
   else _ ← printf (lit "Moved " ++ quote src ++ lit " to " ++ quote dst ++ lit "." ++ NL); mret (Some 1))
  (World k o s) = Some (res, World k o' s') /\ fds s' = fds s /\ blocks s' = blocks s /\
  match res with
  | Some r => (r = 0 \/ r = 1) /\ transferred true (name src) (name dst) r (files s) (files s')
  | None => files s' = files s
  end.
Proof.
  unfold transferred. destruct (cl_rename src dst s) as (r & s1 & E1 & Hd1 & Hb1 & Hf1). step_os E1.
  destruct (Z.eqb_spec r (-1)) as [->|Hr].
  - destruct (cl_errno s1) as (e & s2 & E2 & Hf2 & Hd2 & Hb2). step_os E2.
    destruct (negb (e =? EXDEV)); [eexists (Some 0), _, s2|eexists None, _, s2]; (split; [reflexivity|]);
      cbn [Z.eqb Pos.eqb] in *; rewrite Hf2, Hd2, Hb2, Hf1; split_and!; auto.
  - eexists (Some 1), _, s1. split; [reflexivity|]. split_and!; auto.
Qed.
Lemma cp_or_mv_ok (fuel : nat) (flags : Z) (src dst : path) (k o : list Z) (s : S) :
  (2 <= answers k)%nat -> has_flag flags SHELL_F_SIMULATE_ONLY = false -> (name src = name dst -> strcaseeq src dst = true) ->
  (forall d, files s !! name src = Some d -> Z.of_nat (length d) < Z.of_nat fuel * SIZE) ->
  ends (shellh_cp_or_mv_file SIZE fuel src dst flags) 2 k o s
    (fun r m' => (r = 0 \/ r = 1) /\ transferred (has_flag flags SHELL_F_MOVE) (name src) (name dst) r (files s) m').
Proof.
  intros Hk Hsim Hnames Hfuel. unfold ends, shellh_cp_or_mv_file. cbv zeta. destruct (has_flag flags SHELL_F_MOVE).
  - destruct (rename_ok src dst k o s) as (res & o1 & s1 & E1 & Hd1 & Hb1 & Hres). rewrite (M_bind_run _ _ _ _ _ E1).
    destruct res as [r|].
    { exists r, k, o1, s1. split_and!; auto; [lia|apply Hres|apply Hres]. }
    destruct (cp_file_ok fuel flags src dst k o1 s1 Hk Hnames ltac:(by rewrite Hres)) as (r & k' & o' & s2 & E2 & Ha & Hd2 & Hb2 & Hc).
    rewrite Hsim, Hres in Hc. destruct (copied_transferred _ _ _ _ _ Hc) as (Hr & Ht & Hne).
    rewrite (M_bind_run _ _ _ _ _ E2). rewrite Hd1 in Hd2. rewrite Hb1 in Hb2. unfold transferred in *.
    destruct Hr as [-> | ->]; cbn [Z.eqb Pos.eqb] in *.
    { exists 0, k', o', s2. split_and!; auto; apply Ht. }
    destruct Ht as (d & Hd & Hf2). specialize (Hne eq_refl).
    destruct (cl_unlink src s2) as (u & s3 & E3 & Hd3 & Hb3 & Hf3). step_os E3.
    rewrite Hd2 in Hd3. rewrite Hb2 in Hb3. rewrite Hf2 in Hf3. destruct (u =? -1).
    + eexists 0, k', _, s3. split; [reflexivity|]. rewrite Hf3. cbn [Z.eqb Pos.eqb].
      split_and!; auto; try (intros p Hp); by rewrite lookup_insert_ne.
    + exists 1, k', o', s3. split_and!; auto. rewrite Hf3. exists d. split; [done|]. by rewrite delete_insert_ne.
  - erewrite M_bind_run by reflexivity.
    destruct (cp_file_ok fuel flags src dst k o s Hk Hnames Hfuel) as (r & k' & o' & s' & E & Ha & Hd & Hb & Hc).
    rewrite Hsim in Hc. destruct (copied_transferred _ _ _ _ _ Hc) as (Hr & Ht & _).
    rewrite (M_bind_run _ _ _ _ _ E). exists r, k', o', s'. destruct Hr as [-> | ->]; split_and!; auto.
Qed.
End Copy.

(** C9: cp and mv of one file, without the option that only simulates (which mv does
    not honour: [mv_simulated_loses]), on any file system with these laws, for two
    paths that do not name one file unless they differ only in case, and whatever the
    user answers to the at most two questions: it always ends; when the result is 1,
    the destination has the contents the source had, no other file has changed, and
    after a move the source is gone; when it is 0 - an error, no space, no memory, a
    "no" - the source is as it was and so is every file but the destination. In every
    case no descriptor and no memory is left behind. *)
Theorem file_transfer {S F} (libc : Libc S F) (name : path -> path) (files : S -> gmap path (list Z)) (fds : S -> gmap Z (path * nat))
  (blocks : S -> nat) (laws : CopyLaws libc name files fds blocks) (SIZE : Z) (fuel : nat) (flags : Z) (src dst : path) (k o : list Z) (s : S) :
  0 < SIZE -> (2 <= answers k)%nat -> has_flag flags SHELL_F_SIMULATE_ONLY = false -> (name src = name dst -> strcaseeq src dst = true) ->
  (forall d, files s !! name src = Some d -> Z.of_nat (length d) < Z.of_nat fuel * SIZE) ->
  exists r k' o' s', shellh_cp_or_mv_file SIZE fuel src dst flags (World k o s) = Some (r, World k' o' s') /\
    (r = 0 \/ r = 1) /\ transferred (has_flag flags SHELL_F_MOVE) (name src) (name dst) r (files s) (files s') /\
    fds s' = fds s /\ blocks s' = blocks s.
Proof.
  intros HS Hk Hsim Hn Hf. destruct (cp_or_mv_ok name files fds blocks SIZE HS fuel flags src dst k o s Hk Hsim Hn Hf)
    as (r & k' & o' & s' & E & _ & Hd & Hb & Hr & Ht). eauto 10.
Qed.

(** ** A file system in memory

    Two devices, told apart by the second character of a name; files are not
    moved from one to the other. Its disk is never full. *)

Record mem_fs := mkMem { m_files : gmap path (list Z); m_fds : gmap Z (path * nat); m_blocks : nat }.
Definition m_new (m : gmap Z (path * nat)) : Z := fresh (dom m ∪ {[-1]}).
Definition mem_open (p : path) (flags : Z) (s : mem_fs) : Z * mem_fs :=
  let fd := m_new (m_fds s) in
  let files := if flags =? O_RDONLY then m_files s else <[p := []]> (m_files s) in
  if bool_decide (is_Some (files !! p)) then (fd, mkMem files (<[fd := (p, 0%nat)]> (m_fds s)) (m_blocks s)) else (-1, s).
Definition mem_read (fd n : Z) (s : mem_fs) : (Z * list Z) * mem_fs :=
  match m_fds s !! fd with
  | Some (p, pos) =>
      let bs := take (Z.to_nat n) (drop pos (default [] (m_files s !! p))) in
      ((Z.of_nat (length bs), bs), mkMem (m_files s) (<[fd := (p, (pos + length bs)%nat)]> (m_fds s)) (m_blocks s))
  | None => ((-1, []), s)
  end.
Definition mem_write (fd : Z) (bs : list Z) (s : mem_fs) : Z * mem_fs :=
  match m_fds s !! fd with
  | Some (p, pos) =>
      let d := take pos (default [] (m_files s !! p)) ++ bs in
      (Z.of_nat (length bs), mkMem (<[p := d]> (m_files s)) (<[fd := (p, length d)]> (m_fds s)) (m_blocks s))
  | None => (-1, s)
  end.
Definition mem_unlink (p : path) (s : mem_fs) : Z * mem_fs :=
  if bool_decide (is_Some (m_files s !! p)) then (0, mkMem (delete p (m_files s)) (m_fds s) (m_blocks s)) else (-1, s).
Definition mem_rename (a b : path) (s : mem_fs) : Z * mem_fs :=
  match m_files s !! a with
  | Some d => if bool_decide (take 2 a = take 2 b) then (0, mkMem (<[b := d]> (delete a (m_files s))) (m_fds s) (m_blocks s)) else (-1, s)
  | None => (-1, s)
  end.
#[export] Instance mem_libc : Libc mem_fs unit := {|
  sys_open := mem_open; sys_read := mem_read; sys_write := mem_write;
  sys_close fd s := (0, mkMem (m_files s) (delete fd (m_fds s)) (m_blocks s));
  sys_unlink := mem_unlink; sys_rmdir p s := (-1, s); sys_mkdir p s := (-1, s); sys_rename := mem_rename;
  sys_errno s := (EXDEV, s);
  sys_malloc n s := (Some (replicate (Z.to_nat n) 255), mkMem (m_files s) (m_fds s) (Datatypes.S (m_blocks s)));
  sys_free s := ((), mkMem (m_files s) (m_fds s) (m_blocks s - 1));
  f_open p w s := (None, s); f_getc f s := (EOF, s); f_write f bs s := (0, s); f_close f s := (0, s)
|}.
Lemma m_new_free m : m_new m <> -1 /\ m !! m_new m = None.
Proof.
  pose proof (is_fresh (dom m ∪ {[-1]})) as H. fold (m_new m) in H.
  rewrite not_elem_of_union, not_elem_of_singleton, not_elem_of_dom in H. tauto.
Qed.
#[export] Instance mem_laws : CopyLaws mem_libc (fun p => p) m_files m_fds m_blocks.
Proof.
  split.
  - intros p s. cbn [sys_open mem_libc]. unfold mem_open. cbn [Z.eqb O_RDONLY]. destruct (m_new_free (m_fds s)).
    case_bool_decide; eexists _, _; (split; [reflexivity|]); cbn; split_and!; auto 10.
  - intros p s. cbn [sys_open mem_libc]. unfold mem_open. cbn [Z.eqb O_RDONLY O_REWRITE]. destruct (m_new_free (m_fds s)).
    rewrite bool_decide_true by (rewrite lookup_insert_eq; eauto).
    eexists _, _. split; [reflexivity|]. cbn. split_and!; auto 10.
  - intros fd n p pos d s Hfd Hd Hn. cbn [sys_read mem_libc]. unfold mem_read. rewrite Hfd, Hd. cbn [default id].
    eexists _, _, _. split; [reflexivity|]. cbn. split_and!; auto 10.
  - intros fd p d bs s Hfd Hd. cbn [sys_write mem_libc]. unfold mem_write. rewrite Hfd, Hd. cbn [default id].
    rewrite firstn_all. eexists _, _, _. split; [reflexivity|]. cbn. split_and!; [done|done|]. right.
    rewrite Nat2Z.id, firstn_all. split_and!; [lia|lia|done|done].
  - intros fd s. eexists _, _. split; [reflexivity|]. cbn. auto.
  - intros p s. cbn [sys_unlink mem_libc]. unfold mem_unlink. case_bool_decide; eexists _, _; (split; [reflexivity|]); cbn; auto.
  - intros a b s. cbn [sys_rename mem_libc]. unfold mem_rename. destruct (m_files s !! a) as [d|]; [case_bool_decide|];
      eexists _, _; (split; [reflexivity|]); cbn; split_and!; eauto.
  - intros s. eexists _, _. split; [reflexivity|]. auto.
  - intros n s. eexists _, _. split; [reflexivity|]. cbn. split_and!; auto. lia.
  - intros s. eexists. split; [reflexivity|]. auto.
Qed.

Definition ex_src : path := lit "/rom/a".
Definition ex_dst : path := lit "/mmc/b".
Definition ex_mem : mem_fs := mkMem {[ ex_src := lit "hello"; lit "/mmc/c" := [1] ]} ∅ 0.
(** Five bytes through a buffer of two, moved to the other device, the user
    agreeing to overwrite what is there. *)
Lemma file_transfer_witness : exists k' o' s',
  shellh_cp_or_mv_file 2 4 ex_src (lit "/mmc/c") SHELL_F_MOVE (World [120; 121; 121] [] ex_mem) = Some (1, World k' o' s') /\
  m_files s' = {[ lit "/mmc/c" := lit "hello" ]} /\ m_fds s' = ∅.
Proof.
  destruct (file_transfer mem_libc (fun p => p) m_files m_fds m_blocks mem_laws 2 4 SHELL_F_MOVE ex_src (lit "/mmc/c") [120; 121; 121] [] ex_mem
    ltac:(lia) ltac:(vm_compute; lia) eq_refl ltac:(discriminate)) as (r & k' & o' & s' & E & Hr & Ht & Hd & _).
  { intros d Hd. vm_compute in Hd. injection Hd as <-. vm_compute. reflexivity. }
  exists k', o', s'. assert (r = 1) as ->.
  { apply (f_equal (fmap fst)) in E. vm_compute in E. by injection E as <-. }
  split; [exact E|]. split; [|exact Hd]. destruct Ht as (d & Hd' & ->). vm_compute in Hd'. injection Hd' as <-.
  vm_compute. reflexivity.
Defined.
(** "mv -s" across devices: nothing is copied, and the source is removed. *)
Example mv_simulated_loses : exists o s', shellh_cp_or_mv_file 2 4 ex_src ex_dst (Z.lor SHELL_F_MOVE SHELL_F_SIMULATE_ONLY)
    (World [] [] ex_mem) = Some (1, World [] o s') /\ m_files s' = {[ lit "/mmc/c" := [1] ]}.
Proof. eexists _, _. split; [vm_compute; reflexivity|vm_compute; reflexivity]. Qed.
(** On one device it renames, without simulating. *)
Example mv_simulated_renames : exists o s', shellh_cp_or_mv_file 2 4 ex_src (lit "/rom/z") (Z.lor SHELL_F_MOVE SHELL_F_SIMULATE_ONLY)
    (World [] [] ex_mem) = Some (1, World [] o s') /\ m_files s' !! ex_src = None.
Proof. eexists _, _. split; [vm_compute; reflexivity|vm_compute; reflexivity]. Qed.

(** ** Walks of two state spaces

    When every call of one file system is the call of another one behind [f],
    so is the walk. *)
Section Simulation.
Context {S1 S2 D : Type} (fs1 : FileSys S1 D) (fs2 : FileSys S2 D) (f : S1 -> S2).
Definition behind {A} (r : A * S1) : A * S2 := (r.1, f r.2).
Record sim_fs : Prop := {
  sim_fopen p s : fopen fs2 p (f s) = behind (fopen fs1 p s);
  sim_opendir p s : opendir fs2 p (f s) = behind (opendir fs1 p s);
  sim_readdir d s : readdir fs2 d (f s) = behind (readdir fs1 d s);
  sim_closedir d s : closedir fs2 d (f s) = f (closedir fs1 d s);
  sim_alloc s : alloc fs2 (f s) = behind (alloc fs1 s)
}.
Context (Hfs : sim_fs) (cb1 : list Z -> option dirent -> Z -> S1 -> bool * S1) (cb2 : list Z -> option dirent -> Z -> S2 -> bool * S2).
(** An entry comes with the calls for entries only. *)
Context (Hcb : forall p e i s, i <> CMN_FS_INFO_INSIDE_READDIR \/ is_Some e -> cb2 p e i (f s) = behind (cb1 p e i s)).
Context (hasdirs0 : list Z -> bool) (pattern : list Z) (recursive : bool).

Lemma read_loop_sim fuel p d : forall h s, read_loop fs2 cb2 pattern fuel p d h (f s) =
  (fun r => (r.1, f r.2)) <$> read_loop fs1 cb1 pattern fuel p d h s.
Proof.
  induction fuel as [|fuel IH]; intros h s; [done|]. cbn [read_loop]. rewrite (sim_readdir Hfs). unfold behind.
  destruct (readdir fs1 d s) as [[e|] s']; [|done]. cbn [fst snd]. destruct (negb _); [apply IH|].
  rewrite Hcb by eauto. unfold behind. destruct (cb1 _ _ _ s') as [[] s'']; cbn [fst snd negb]; [apply IH|done].
Qed.
Lemma dirs_loop_sim walk1 walk2 fuel p d : (forall p s, walk2 p (f s) = behind <$> walk1 p s) ->
  forall s, dirs_loop fs2 cb2 walk2 fuel p d (f s) = behind <$> dirs_loop fs1 cb1 walk1 fuel p d s.
Proof.
  intros Hw. induction fuel as [|fuel IH]; intros s; [done|]. cbn [dirs_loop]. rewrite (sim_readdir Hfs). unfold behind at 1.
  destruct (readdir fs1 d s) as [[e|] s1]; [|done]. cbn [fst snd]. destruct (is_dir e); [|apply IH].
  rewrite (sim_alloc Hfs). unfold behind at 1. destruct (alloc fs1 s1) as [ok s2]. cbn [fst snd].
  destruct (cmn_fs_path_join ok _) as [[full|]|]; [| |done]; cbn [mbind option_bind].
  - rewrite Hw. destruct (walk1 full s2) as [[[] s3]|]; cbn; [apply IH|done|done].
  - rewrite Hcb by (by left). unfold behind at 1. destruct (cb1 _ _ _ s2) as [[] s3]; cbn; [apply IH|done].
Qed.
Lemma actual_sim fuel : forall p s, cmn_fs_actual_walkdir fs2 cb2 hasdirs0 pattern recursive fuel p (f s) =
  behind <$> cmn_fs_actual_walkdir fs1 cb1 hasdirs0 pattern recursive fuel p s.
Proof.
  induction fuel as [|fuel IH]; intros p s; [done|]. cbn [cmn_fs_actual_walkdir]. rewrite (sim_opendir Hfs). unfold behind at 1.
  destruct (opendir fs1 p s) as [[d|] s1]; cbn [fst snd].
  2:{ rewrite Hcb by (by left). unfold behind at 1. by destruct (cb1 _ _ _ s1). }
  rewrite Hcb by (by left). unfold behind at 1. destruct (cb1 _ _ _ s1) as [[] s2]; cbn [fst snd negb]; [|by rewrite (sim_closedir Hfs)].
  rewrite read_loop_sim. destruct (read_loop fs1 _ _ _ _ _ _ s2) as [[[ab h] s3]|]; [|done]. cbn [fmap option_fmap option_map mbind option_bind fst snd].
  rewrite (sim_closedir Hfs). destruct ab; [done|]. rewrite Hcb by (by left). unfold behind at 1.
  destruct (cb1 _ _ _ (closedir fs1 d s3)) as [[] s4]; cbn [fst snd negb]; [|done].
  destruct (recursive && h).
  - rewrite (sim_opendir Hfs). unfold behind at 1. destruct (opendir fs1 p s4) as [[d2|] s5]; cbn [fst snd].
    + rewrite (dirs_loop_sim _ _ fuel p d2 IH). destruct (dirs_loop fs1 _ _ _ _ _ s5) as [[ab s6]|]; [|done].
      cbn [fmap option_fmap option_map mbind option_bind behind fst snd]. rewrite (sim_closedir Hfs). destruct ab; [done|].
      rewrite Hcb by (by left). unfold behind at 1. by destruct (cb1 _ _ _ _) as [[] s7].
    + rewrite Hcb by (by left). unfold behind at 1. destruct (cb1 _ _ _ s5) as [[] s6]; cbn; [|done].
      rewrite Hcb by (by left). unfold behind at 1. by destruct (cb1 _ _ _ _) as [[] s7].
  - cbn [mbind option_bind]. rewrite Hcb by (by left). unfold behind at 1. by destruct (cb1 _ _ _ s4) as [[] s5].
Qed.
Lemma split_sim p s : cmn_fs_split_path fs2 p (f s) = behind (cmn_fs_split_path fs1 p s).
Proof.
  unfold cmn_fs_split_path. destruct p as [p|]; [|done]. destruct (_ || _); [done|].
  destruct (bool_decide _); [rewrite (sim_alloc Hfs); unfold behind; by destruct (alloc fs1 s)|].
  destruct (_ =? _); [rewrite (sim_alloc Hfs); unfold behind; by destruct (alloc fs1 s)|].
  destruct (_ || _); [rewrite (sim_alloc Hfs); unfold behind; by destruct (alloc fs1 s)|].
  rewrite (sim_fopen Hfs). unfold behind at 1. destruct (fopen fs1 p s) as [[] s1]; cbn [fst snd];
    rewrite (sim_alloc Hfs); unfold behind; by destruct (alloc fs1 s1).
Qed.
End Simulation.

(** ** What ls shows *)

Section Listing.
Context (hasdirs0 : list Z -> bool) (recursive : bool).

Definition entry_text (e : dirent) : list Z :=
  lit "  " ++ pad 30 (fname e) ++ if is_dir e then lit "<DIR>" ++ NL else decimal (u32 (fsize e)) ++ lit " bytes" ++ NL.
(** The bytes of the files that are shown. *)
Definition entries_size (es : list dirent) : Z := foldr (fun e n => (if is_dir e then 0 else fsize e) + n) 0 es.
Definition total_text (p : path) (n : Z) : list Z := lit "Total on " ++ p ++ lit ": " ++ decimal (u32 n) ++ lit " bytes" ++ NL ++ NL.

(** A directory: its name, its entries and their size, then the directories
    inside. *)
Fixpoint ls_text (pattern : list Z) (p : path) (t : tree) : list Z :=
  match t with
  | Closed => lit "WARNING: unable to open " ++ p ++ NL
  | Tree cs =>
      p ++ NL ++ concat (entry_text <$> matching pattern t) ++ total_text p (entries_size (matching pattern t)) ++
      (if descends hasdirs0 pattern recursive p t
       then flat_map (fun c => if is_dir c.1 then ls_text pattern (full_name p (fname c.1)) c.2 else []) cs else [])
  end.
(** All that is shown: bytes, and directories. *)
Fixpoint ls_size (pattern : list Z) (p : path) (t : tree) : Z :=
  match t with
  | Closed => 0
  | Tree cs => entries_size (matching pattern t) +
      (if descends hasdirs0 pattern recursive p t
       then foldr (fun c n => (if is_dir c.1 then ls_size pattern (full_name p (fname c.1)) c.2 else 0) + n) 0 cs else 0)
  end.
Fixpoint ls_dirs (pattern : list Z) (p : path) (t : tree) : Z :=
  match t with
  | Closed => 0
  | Tree cs => 1 +
      (if descends hasdirs0 pattern recursive p t
       then foldr (fun c n => (if is_dir c.1 then ls_dirs pattern (full_name p (fname c.1)) c.2 else 0) + n) 0 cs else 0)
  end.

(** *** The calls of the walk *)

Abbreviation lst := (list Z * list Z * SHELL_LS_STATE)%type.
(** The function that ls gives the walk, on the keys, the output and its own data. *)
Definition ls_step (ev : event) (x : lst) : bool * lst :=
  let '(p, e, i) := ev in let '(k, o, ps) := x in
  if i =? CMN_FS_INFO_BEFORE_READDIR then
    (true, (k, o ++ p ++ NL, mkLs 0 (total ps) (if ndirs ps =? 0xFF then ndirs ps else ndirs ps + 1)))
  else if i =? CMN_FS_INFO_INSIDE_READDIR then
    match e with
    | Some e => (true, (k, o ++ entry_text e, if is_dir e then ps else mkLs (u32 (dir_total ps + fsize e)) (total ps) (ndirs ps)))
    | None => (true, (k, o, ps))
    end
  else if i =? CMN_FS_INFO_AFTER_CLOSEDIR then
    (true, (k, o ++ lit "Total on " ++ p ++ lit ": " ++ decimal (dir_total ps) ++ lit " bytes" ++ NL ++ NL,
            mkLs (dir_total ps) (u32 (total ps + dir_total ps)) (ndirs ps)))
  else if i =? CMN_FS_INFO_OPENDIR_FAILED then (true, (k, o ++ lit "WARNING: unable to open " ++ p ++ NL, ps))
  else (true, (k, o, ps)).

Definition dirs_add (n m : Z) : Z := Z.min 0xFF (n + m).
Lemma deliver_entries p es : forall k o ps, 0 <= dir_total ps < 2 ^ 32 ->
  deliver ls_step ((fun e => (p, Some e, CMN_FS_INFO_INSIDE_READDIR)) <$> es) (k, o, ps) =
  (true, (k, o ++ concat (entry_text <$> es), mkLs (u32 (dir_total ps + entries_size es)) (total ps) (ndirs ps))).
Proof.
  induction es as [|e es IH]; intros k o ps Hps.
  - cbn. rewrite app_nil_r, Z.add_0_r, u32_small by (unfold is_u32, is_u; lia). by destruct ps.
  - rewrite !fmap_cons. cbn [deliver ls_step]. cbn [Z.eqb Pos.eqb CMN_FS_INFO_BEFORE_READDIR CMN_FS_INFO_INSIDE_READDIR].
    cbn [concat entries_size foldr]. fold (entries_size es). destruct (is_dir e) eqn:Ed.
    + rewrite IH by done. by rewrite <- app_assoc, Z.add_0_l.
    + rewrite IH by (cbn; pose proof (u32_is_u32 (dir_total ps + fsize e)); unfold is_u32, is_u in *; lia).
      cbn [dir_total total ndirs]. by rewrite <- app_assoc, u32_add, Z.add_assoc.
Qed.
(** The data of ls stays in its bounds. *)
Definition ls_wf (ps : SHELL_LS_STATE) : Prop := 0 <= dir_total ps < 2 ^ 32 /\ 0 <= total ps < 2 ^ 32 /\ 0 <= ndirs ps <= 0xFF.
(** Calls that show [x], [n] bytes and [m] directories. *)
Definition shows_all (evs : list event) (x : list Z) (n m : Z) : Prop := forall k o ps, ls_wf ps -> exists dt,
  let ps' := mkLs dt (u32 (total ps + n)) (dirs_add (ndirs ps) m) in
  ls_wf ps' /\ deliver ls_step evs (k, o, ps) = (true, (k, o ++ x, ps')).
Lemma shows_app a b x y n m n' m' : 0 <= m -> 0 <= m' -> shows_all a x n m -> shows_all b y n' m' -> shows_all (a ++ b) (x ++ y) (n + n') (m + m').
Proof.
  intros Hm Hm' Ha Hb k o ps Hps. destruct (Ha k o ps Hps) as (d1 & Hw1 & E1). cbv zeta in *.
  destruct (Hb k (o ++ x) _ Hw1) as (d2 & Hw2 & E2). cbv zeta in *. exists d2. cbn [total ndirs] in *.
  rewrite u32_add, <- Z.add_assoc in *. 
  assert (Hd : dirs_add (dirs_add (ndirs ps) m) m' = dirs_add (ndirs ps) (m + m')) by (unfold dirs_add; lia).
  rewrite Hd in *. split; [done|]. by rewrite deliver_app, E1, E2, <- app_assoc.
Qed.
Lemma shows_nil : shows_all [] [] 0 0.
Proof.
  intros k o ps (H1 & H2 & H3). exists (dir_total ps). cbv zeta. unfold dirs_add.
  rewrite !Z.add_0_r, Z.min_r, u32_small by (lia || exact H2). split; [by destruct ps|]. rewrite app_nil_r. by destruct ps.
Qed.
(** A directory without what is in those inside. *)
Lemma shows_dir pattern p t : shows_all
  ([(p, None, CMN_FS_INFO_BEFORE_READDIR)] ++
   ((fun e => (p, Some e, CMN_FS_INFO_INSIDE_READDIR)) <$> matching pattern t) ++ [(p, None, CMN_FS_INFO_AFTER_CLOSEDIR)])
  (p ++ NL ++ concat (entry_text <$> matching pattern t) ++ total_text p (entries_size (matching pattern t)))
  (entries_size (matching pattern t)) 1.
Proof.
  intros k o ps (H1 & H2 & H3). set (n := entries_size _). exists (u32 n). cbv zeta.
  pose proof (u32_is_u32 n) as Hn. unfold is_u32, is_u in Hn.
  split.
  { split; [done|]. cbn [total ndirs]. split; [apply u32_is_u32|unfold dirs_add; lia]. }
  cbn [app deliver ls_step Z.eqb Pos.eqb CMN_FS_INFO_BEFORE_READDIR].
  rewrite deliver_app, deliver_entries by (cbn; lia). cbn [deliver ls_step dir_total total ndirs].
  cbn [Z.eqb Pos.eqb CMN_FS_INFO_BEFORE_READDIR CMN_FS_INFO_INSIDE_READDIR CMN_FS_INFO_AFTER_CLOSEDIR].
  rewrite Z.add_0_l. fold n. unfold total_text. rewrite <- !app_assoc.
  assert (u32 (total ps + u32 n) = u32 (total ps + n)) as -> by (rewrite Z.add_comm, u32_add; f_equal; lia).
  assert ((if ndirs ps =? 0xFF then ndirs ps else ndirs ps + 1) = dirs_add (ndirs ps) 1) as ->; [|done].
  unfold dirs_add. destruct (Z.eqb_spec (ndirs ps) 0xFF); lia.
Qed.
Lemma ls_dirs_nonneg pattern t : forall p, 0 <= ls_dirs pattern p t.
Proof.
  induction t as [|cs IH] using tree_ind'; intros p; cbn [ls_dirs]; [lia|]. destruct (descends _ _ _ _ _); [|lia].
  assert (0 <= foldr (fun c n => (if is_dir c.1 then ls_dirs pattern (full_name p (fname c.1)) c.2 else 0) + n) 0 cs); [|lia].
  induction cs as [|[e t] cs IHcs]; cbn; [lia|]. assert (0 <= ls_dirs pattern (full_name p (fname e)) t) by (eapply IH, list_elem_of_here).
  specialize (IHcs ltac:(intros e' t' Hin; by eapply IH, list_elem_of_further)). destruct (is_dir e); lia.
Qed.
(** The directories inside. *)
Definition inside_dirs (pattern : list Z) (p : path) (cs : list (dirent * tree)) : Z :=
  foldr (fun c n => (if is_dir c.1 then ls_dirs pattern (full_name p (fname c.1)) c.2 else 0) + n) 0 cs.
Lemma inside_nonneg pattern p cs : 0 <= inside_dirs pattern p cs.
Proof.
  induction cs as [|[e t] cs IH]; cbn; [lia|]. pose proof (ls_dirs_nonneg pattern t (full_name p (fname e))).
  unfold inside_dirs in IH. destruct (is_dir e); lia.
Qed.
Lemma shows_inside pattern p cs :
  (forall e t, (e, t) ∈ cs -> forall p, shows_all (events hasdirs0 pattern recursive p t) (ls_text pattern p t)
    (ls_size pattern p t) (ls_dirs pattern p t)) ->
  shows_all (flat_map (fun c => if is_dir c.1 then events hasdirs0 pattern recursive (full_name p (fname c.1)) c.2 else []) cs)
    (flat_map (fun c => if is_dir c.1 then ls_text pattern (full_name p (fname c.1)) c.2 else []) cs)
    (foldr (fun c n => (if is_dir c.1 then ls_size pattern (full_name p (fname c.1)) c.2 else 0) + n) 0 cs)
    (inside_dirs pattern p cs).
Proof.
  induction cs as [|[e t] cs IH]; intros H; [apply shows_nil|]. cbn [flat_map foldr fst snd].
  change (inside_dirs pattern p ((e, t) :: cs)) with
    ((if is_dir e then ls_dirs pattern (full_name p (fname e)) t else 0) + inside_dirs pattern p cs).
  apply shows_app.
  - destruct (is_dir e); [apply ls_dirs_nonneg|lia].
  - apply inside_nonneg.
  - destruct (is_dir e); [eapply H, list_elem_of_here|apply shows_nil].
  - apply IH. intros e' t' Hin. eapply H. by apply list_elem_of_further.
Qed.
Lemma shows_tree pattern t : forall p, shows_all (events hasdirs0 pattern recursive p t) (ls_text pattern p t)
  (ls_size pattern p t) (ls_dirs pattern p t).
Proof.
  induction t as [|cs IH] using tree_ind'; intros p.
  - intros k o ps (H1 & H2 & H3). exists (dir_total ps). cbn [ls_size ls_dirs events ls_text]. cbv zeta. unfold dirs_add.
    rewrite !Z.add_0_r, Z.min_r, u32_small by (lia || exact H2). split; [by destruct ps|]. by destruct ps.
  - cbn [events ls_text ls_size ls_dirs]. set (es := matching pattern (Tree cs)). set (dsc := descends _ _ _ _ _).
    rewrite (app_assoc (_ <$> es)), app_assoc. 
    assert (Hsub : shows_all (if dsc then flat_map (fun c => if is_dir c.1 then events hasdirs0 pattern recursive (full_name p (fname c.1)) c.2 else []) cs else [])
      (if dsc then flat_map (fun c => if is_dir c.1 then ls_text pattern (full_name p (fname c.1)) c.2 else []) cs else [])
      (if dsc then foldr (fun c n => (if is_dir c.1 then ls_size pattern (full_name p (fname c.1)) c.2 else 0) + n) 0 cs else 0)
      (if dsc then inside_dirs pattern p cs else 0)).
    { destruct dsc; [|apply shows_nil]. by apply shows_inside. }
    assert (Hdone : shows_all [(p, None, CMN_FS_INFO_DIRECTORY_DONE)] [] 0 0) by exact shows_nil.
    assert (Hn : 0 <= if dsc then inside_dirs pattern p cs else 0) by (destruct dsc; [apply inside_nonneg|done]).
    pose proof (shows_app _ _ _ _ _ _ _ _ Hn (Z.le_refl 0) Hsub Hdone) as H. rewrite app_nil_r, !Z.add_0_r in H.
    pose proof (shows_app _ _ _ _ _ _ _ _ Z.le_0_1 Hn (shows_dir pattern p (Tree cs)) H) as H'.
    rewrite <- !app_assoc in *. exact H'.
Qed.
End Listing.

(** *** The command *)

Section Ls.
Context {S D : Type} {eqd : EqDecision D} (fs : FileSys S D) (ls : path -> option (list dirent)) (left : S -> D -> option (list dirent)).
(** The file system does not change, there is memory, and open directories are
    not mixed up. *)
Context {tfs : TreeFs fs (fun _ _ _ s => (true, s)) ls left (fun _ => ()) (fun _ u => (true, u))}.
Context (hasdirs0 : list Z -> bool) (recursive : bool).
Abbreviation W := (world S).
Abbreviation X := (W * SHELL_LS_STATE)%type.

(** The walk without undefined behaviour: on the world, and the data of ls. *)
Definition beside {A} (f : S -> A * S) (x : X) : A * X :=
  let '(a, s) := f (w_sys x.1) in (a, (World (w_keys x.1) (w_out x.1) s, x.2)).
Definition pair_fs : FileSys X D := {|
  fopen p := beside (fopen fs p); opendir p := beside (opendir fs p); readdir d := beside (readdir fs d);
  closedir d := fun x => (beside (fun s => ((), closedir fs d s)) x).2; alloc := beside (alloc fs)
|}.
Definition pair_cb (p : path) (e : option dirent) (i : Z) (x : X) : bool * X :=
  let '(go, (k, o, ps)) := ls_step (p, e, i) (w_keys x.1, w_out x.1, x.2) in (go, (World k o (w_sys x.1), ps)).

Lemma inside_beside {A} (none : A) (f : S -> A * S) x : inside none f (Some x) = behind Some (beside f x).
Proof. destruct x as [w t]. unfold inside, behind, beside. cbn [fst snd]. by destruct (f (w_sys w)). Qed.
Lemma lift_pair : sim_fs pair_fs (lift_fs fs) Some.
Proof.
  split; intros; cbn [fopen opendir readdir closedir alloc lift_fs pair_fs]; rewrite inside_beside; done.
Qed.
Lemma lift_pair_cb p e i x : i <> CMN_FS_INFO_INSIDE_READDIR \/ is_Some e ->
  lift_cb shellh_ls_walkdir_cb p e i (Some x) = behind Some (pair_cb p e i x).
Proof.
  destruct x as [[k o s] ps]. intros He. unfold lift_cb, shellh_ls_walkdir_cb, pair_cb, ls_step. cbn [fst snd w_keys w_out w_sys].
  destruct (i =? CMN_FS_INFO_BEFORE_READDIR).
  { erewrite M_bind_run by reflexivity. done. }
  destruct (Z.eqb_spec i CMN_FS_INFO_INSIDE_READDIR) as [->|_].
  { destruct He as [He|[ent ->]]; [done|]. erewrite M_bind_run by reflexivity. erewrite M_bind_run by reflexivity.
    unfold entry_text. destruct (is_dir ent); (erewrite M_bind_run by reflexivity); cbn; by rewrite <- !app_assoc. }
  destruct (i =? CMN_FS_INFO_AFTER_CLOSEDIR); [by erewrite M_bind_run by reflexivity|].
  destruct (i =? CMN_FS_INFO_OPENDIR_FAILED); [by erewrite M_bind_run by reflexivity|]. done.
Qed.
#[local] Instance pair_tree : TreeFs pair_fs pair_cb ls (fun x d => left (w_sys x.1) d) (fun x => (w_keys x.1, w_out x.1, x.2)) ls_step.
Proof.
  split.
  - intros p [[k o s] t]. destruct (tf_opendir p s) as (r & s' & E & _ & H). exists r, (World k o s', t).
    cbn. unfold beside. cbn. by rewrite E.
  - intros d es [[k o s] t] H. destruct (tf_readdir d es s H) as (s' & E & _ & H'). exists (World k o s', t).
    cbn. unfold beside. cbn. by rewrite E.
  - intros d es [[k o s] t] H. destruct (tf_closedir d es s H) as (_ & H'). done.
  - intros [[k o s] t]. destruct (tf_alloc s) as (s' & E & _ & H). exists (World k o s', t). cbn. unfold beside. cbn. by rewrite E.
  - intros p e i [[k o s] t]. unfold pair_cb. cbn [fst snd w_keys w_out w_sys].
    destruct (ls_step (p, e, i) (k, o, t)) as [go [[k' o'] t']]. by exists (World k' o' s, t').
Qed.
Lemma on_pair k o t : sim_fs fs pair_fs (fun s => (World k o s, t)).
Proof.
  split; intros; cbn [fopen opendir readdir closedir alloc pair_fs]; unfold beside, behind; cbn [fst snd w_keys w_out w_sys];
    [by destruct (fopen fs p s)|by destruct (opendir fs p s)|by destruct (readdir fs d s)|done|by destruct (alloc fs s)].
Qed.

(** One device: what is shown for the path. *)
Lemma ls_walk fuel crt dir pattern t k o s s1 : cmn_fs_split_path fs (Some crt) s = (Some (dir, pattern), s1) ->
  below ls dir t -> (need t <= fuel)%nat -> exists dt s',
  walk fs shellh_ls_walkdir_cb hasdirs0 fuel crt recursive (mkLs 0 0 0) (World k o s) =
    Some ((1, mkLs dt (u32 (ls_size hasdirs0 recursive pattern dir t)) (dirs_add 0 (ls_dirs hasdirs0 recursive pattern dir t))),
          World k (o ++ ls_text hasdirs0 recursive pattern dir t) s') /\
  forall d, left s' d = left s1 d.
Proof.
  intros Hsp Hb Hf. unfold walk, cmn_fs_walkdir.
  rewrite (split_sim pair_fs (lift_fs fs) Some lift_pair (Some crt) (World k o s, mkLs 0 0 0)). unfold behind.
  rewrite (split_sim fs pair_fs _ (on_pair k o (mkLs 0 0 0)) (Some crt) s), Hsp. unfold behind. cbn [fst snd].
  rewrite (actual_sim pair_fs (lift_fs fs) Some lift_pair pair_cb (lift_cb shellh_ls_walkdir_cb) lift_pair_cb).
  destruct (walk_below pair_fs pair_cb ls _ _ ls_step hasdirs0 pattern recursive dir t Hb fuel Hf (World k o s1, mkLs 0 0 0))
    as (go & [[k' o' s'] ps'] & -> & Ha & Hd).
  destruct (shows_tree hasdirs0 recursive pattern t dir k o (mkLs 0 0 0)) as (dt & _ & E); [repeat split; cbn; lia|].
  cbn [fst snd w_keys w_out w_sys] in Hd. rewrite E in Hd. injection Hd as -> -> -> ->.
  exists dt, s'. split; [done|]. intros d. apply (Ha d).
Qed.

Context {Wd P Dd Ent : Type} (pname : option path) (fuel : nat).
Abbreviation instance := (DM_INSTANCE_DATA Wd P Dd Ent).
(** For a path: the directory and the pattern that it is cut into, and the tree
    that is there. *)
Context (info : path -> path * list Z * tree).

(** Whether ls lists a device, and what it then shows. *)
Definition selected (pinst : instance) : bool :=
  lists_directories pinst && match pname with Some p => under (name pinst) p | None => true end.
Definition device_text (pinst : instance) : list Z :=
  let crt := default (name pinst) pname in
  let '(dir, pattern, t) := info crt in
  ls_text hasdirs0 recursive pattern dir t ++
  if recursive && (ls_dirs hasdirs0 recursive pattern dir t >? 1) then
    lit "Total on " ++ crt ++ lit " with all subdirectories: " ++
    decimal (u32 (ls_size hasdirs0 recursive pattern dir t)) ++ lit " bytes" ++ NL ++ NL
  else [].
(** What is there for a path. *)
Definition listable (crt : path) : Prop :=
  let '(dir, pattern, t) := info crt in below ls dir t /\ (need t <= fuel)%nat /\
  forall s, exists s1, cmn_fs_split_path fs (Some crt) s = (Some (dir, pattern), s1) /\ forall d, left s1 d = left s d.

Lemma ls_devices_ok (l : list instance) : (forall pinst, pinst ∈ l -> listable (default (name pinst) pname)) ->
  forall k o s, exists s', ls_devices fs fuel hasdirs0 recursive pname l (World k o s) =
    Some ((), World k (o ++ concat (device_text <$> filter (fun i => selected i = true) l)) s') /\
  forall d, left s' d = left s d.
Proof.
  intros Hl. induction l as [|pinst l IH]; intros k o s.
  { exists s. split; [|done]. cbn. by rewrite app_nil_r. }
  specialize (IH (fun i Hi => Hl i (list_elem_of_further _ _ _ Hi))). cbn [ls_devices].
  assert (Hsel : negb (lists_directories pinst) || match pname with Some p => negb (under (name pinst) p) | None => false end
    = negb (selected pinst)).
  { unfold selected. destruct (lists_directories pinst), pname; cbn; by rewrite ?negb_involutive. }
  rewrite Hsel. destruct (selected pinst) eqn:Es; cbn [negb].
  2:{ destruct (IH k o s) as (s' & E & H). exists s'. by rewrite filter_cons_False by congruence. }
  rewrite filter_cons_True by done.
  specialize (Hl pinst (list_elem_of_here _ _)). unfold listable in Hl.
  destruct (info (default (name pinst) pname)) as [[dir pattern] t] eqn:Ei. destruct Hl as (Hb & Hn & Hsp).
  destruct (Hsp s) as (s1 & E1 & H1). cbv zeta.
  destruct (ls_walk fuel _ dir pattern t k o s s1 E1 Hb Hn) as (dt & s2 & E2 & H2).
  rewrite (M_bind_run _ _ _ _ _ E2). cbv beta iota. cbn [ndirs total].
  set (txt := ls_text hasdirs0 recursive pattern dir t). set (n := ls_dirs hasdirs0 recursive pattern dir t).
  assert (Hg : (dirs_add 0 n >? 1) = (n >? 1)) by (unfold dirs_add; rewrite !Z.gtb_ltb; destruct (Z.ltb_spec 1 n); lia).
  rewrite Hg. assert (Hd : forall d, left s2 d = left s d) by (intros d; by rewrite H2, H1).
  assert (Ht : device_text pinst = txt ++ if recursive && (n >? 1) then
    lit "Total on " ++ default (name pinst) pname ++ lit " with all subdirectories: " ++
    decimal (u32 (ls_size hasdirs0 recursive pattern dir t)) ++ lit " bytes" ++ NL ++ NL else [])
    by (unfold device_text; by rewrite Ei).
  rewrite fmap_cons. cbn [concat]. rewrite Ht.
  destruct (recursive && (n >? 1)); (erewrite M_bind_run by reflexivity); cbn [w_keys w_out w_sys].
  - edestruct (IH k) as (s' & E & H). exists s'. rewrite E. split; [by rewrite <- !app_assoc|]. intros d. by rewrite H.
  - destruct (IH k (o ++ txt) s2) as (s' & E & H). exists s'. rewrite E, app_nil_r. split; [by rewrite <- !app_assoc|].
    intros d. by rewrite H.
Qed.
(** The arguments of ls. *)
Definition ls_argv (cmd : list Z) : list (list Z) :=
  cmd :: match pname with Some p => [p] | None => [] end ++ if recursive then [lit "-R"] else [].
Lemma ls_options_ok cmd k o (s : S) : (forall p, pname = Some p -> head p = Some SLASH) ->
  ls_options (tail (ls_argv cmd)) false None (World k o s) = Some ((recursive, pname), World k o s).
Proof.
  intros Hp. unfold ls_argv. cbn [tail]. destruct pname as [p|]; cbn [app].
  - specialize (Hp p eq_refl). cbn [ls_options]. rewrite bool_decide_false by (intros ->; discriminate Hp).
    unfold firstchar. rewrite Hp. cbn [default id]. rewrite Z.eqb_refl, bool_decide_true by done. by destruct recursive.
  - by destruct recursive.
Qed.

(** "ls", with or without a path and "-R": for every device that lists
    directories, and whose name the path begins with, it shows the directory,
    its entries that match, each with its size or as a directory, and the sum
    of the sizes; with "-R" the same for all directories inside, depth first,
    and at the end the sum over all of them. Sums are modulo 2^32. Afterwards
    no directory is open that was not open before. *)
Theorem ls_lists (dm_list : list instance) cmd k o (s : S) :
  (forall p, pname = Some p -> head p = Some SLASH) ->
  (forall pinst, pinst ∈ dm_list -> listable (default (name pinst) pname)) ->
  exists s', shell_ls fs fuel hasdirs0 dm_list (ls_argv cmd) (World k o s) =
    Some ((), World k (o ++ concat (device_text <$> filter (fun i => selected i = true) dm_list)) s') /\
  forall d, left s' d = left s d.
Proof.
  intros Hp Hl. unfold shell_ls. rewrite (M_bind_run _ _ _ _ _ (ls_options_ok cmd k o s Hp)).
  by apply ls_devices_ok.
Qed.
End Ls.

(** ** Examples of ls *)

#[export] Instance ex_tree_only : TreeFs ex_fs (fun _ _ _ s => (true, s)) ex_ls (fun s d => s.1 !! d) (fun _ => ()) (fun _ u => (true, u)).
Proof.
  split.
  - intros p s. destruct (tf_opendir (TreeFs := ex_tree_fs 0) p s) as (r & s' & E & _ & H). by exists r, s'.
  - intros d es s H. destruct (tf_readdir (TreeFs := ex_tree_fs 0) d es s H) as (s' & E & _ & H'). by exists s'.
  - intros d es s H. by destruct (tf_closedir (TreeFs := ex_tree_fs 0) d es s H) as (_ & H').
  - intros s. by exists s.
  - intros p e i s. by exists s.
Qed.
Definition ex_device : DM_DEVICE unit unit unit unit :=
  mkDevice None None None None None (Some (fun _ _ s => (None, s))) (Some (fun _ _ s => (None, s)))
    (Some (fun _ _ s => (0, s))) None None None None None.
Definition ex_dm : list (DM_INSTANCE_DATA unit unit unit unit) :=
  [mkInstance (lit "/x") () (mkDevice None None None None None None None None None None None None None);
   mkInstance (lit "/d") () ex_device].
Definition ex_info (p : path) : path * list Z * tree := (lit "/d", [STAR], ex_tree).
Definition ex_lines (ls : list string) : list Z := concat ((fun l => lit l ++ NL) <$> ls).

Lemma ls_lists_witness : exists s', shell_ls ex_fs 9 (fun _ => false) ex_dm [lit "ls"; lit "/d"; lit "-R"] (World [] [] (∅, [])) =
  Some ((), World [] (ex_lines
    ["/d"; "  a.x                           3 bytes"; "  s                             <DIR>";
     "  c                             <DIR>"; "Total on /d: 3 bytes"; ""; "/d/s"; "  b.y                           5 bytes";
     "Total on /d/s: 5 bytes"; ""; "WARNING: unable to open /d/c"; "Total on /d with all subdirectories: 8 bytes"; ""]%string) s') /\
  forall d, s'.1 !! d = None.
Proof.
  destruct (ls_lists ex_fs ex_ls (fun s d => s.1 !! d) (fun _ => false) true (Some (lit "/d")) 9 ex_info ex_dm (lit "ls") [] [] (∅, []))
    as (s' & E & H).
  - by intros p [= <-].
  - intros pinst _. split; [exact ex_below|]. split; [cbn; lia|]. intros s. exists s. split; [reflexivity|done].
  - exists s'. split; [|exact H]. refine (eq_trans E _). vm_compute. reflexivity.
Defined.

(** ** Examples of rm and recv *)

(** The files of [mem_fs], seen through the calls on directories. *)
Definition mem_dirs : FileSys mem_fs unit := {|
  fopen p s := (bool_decide (is_Some (m_files s !! p)), s);
  opendir p s := (None, s); readdir d s := (None, s); closedir d s := s; alloc s := (true, s)
|}.
Definition ex_entry : dirent := mkEnt (lit "c") 1 0.
(** "rm -R -s": for an entry of a directory nothing is removed, if the byte of
    the flags is the lowest; where integers begin with their highest byte, all
    flags are lost, and the file is removed. *)
Example rm_simulated : (fun r => m_files (w_sys r.2)) <$>
    shellh_rm_walkdir_cb mem_dirs (byte_at_int false (Z.lor SHELL_F_RECURSIVE SHELL_F_SIMULATE_ONLY)) (lit "/mmc") (Some ex_entry)
      CMN_FS_INFO_INSIDE_READDIR () (World [] [] ex_mem) = Some (m_files ex_mem).
Proof. vm_compute. reflexivity. Qed.
Example rm_big_endian : (fun r => m_files (w_sys r.2)) <$>
    shellh_rm_walkdir_cb mem_dirs (byte_at_int true (Z.lor SHELL_F_RECURSIVE SHELL_F_SIMULATE_ONLY)) (lit "/mmc") (Some ex_entry)
      CMN_FS_INFO_INSIDE_READDIR () (World [] [] ex_mem) = Some {[ ex_src := lit "hello" ]}.
Proof. vm_compute. reflexivity. Qed.
(** mkdir that fails says both that it failed and that it succeeded. *)
Example mkdir_failed : (fun r => w_out r.2) <$> shell_mkdir [lit "mkdir"; lit "/x"] (World [] [] ex_mem) =
  Some (ex_lines ["Error creating directory '/x'"; "Created directory '/x'."]%string).
Proof. vm_compute. reflexivity. Qed.
(** The padding of a received file; a file of padding only, or an empty one, is
    searched outside its buffer. *)
Example padding : strip_pad [1; 0x1A; 2; 0x1A; 0x1A; 7] 5 = Some 3%nat /\ strip_pad [0x1A; 0x1A] 2 = None /\ strip_pad [1] 0 = None.
Proof. split_and!; reflexivity. Qed.
