(* ===== verification/LuaApi.v ===== *)
(** * LuaApi: what the models of Lua modules share

    Results of functions called from Lua, and numbers. eLua is built with floating
    point numbers or with integers ([LUA_NUMBER_INTEGRAL] in src/lua/luaconf.h):
    what Luarpc and Lpack use of the type is the class [LuaNumber], its laws are
    [NumberLaws]. Two instances: 32-bit integers, and the floating point numbers of
    64 bits. *)

From S2P Require Import Prelude.

(** ** Results *)

(** A result, or the message of an error. *)
Abbreviation lres A := (A + list Z)%type.
Definition lua_error {A} (msg : list Z) : option (lres A) := Some (inr msg).
Definition lua_return {A} (a : A) : option (lres A) := Some (inl a).
Definition lua_bind {A B} (m : option (lres A)) (k : A -> option (lres B)) : option (lres B) :=
  match m with Some (inl a) => k a | Some (inr e) => Some (inr e) | None => None end.
Declare Scope lua_scope.
Notation "'let!' x := m 'in' k" := (lua_bind m (fun x => k)) (at level 10, x pattern, m at level 100, k at level 200) : lua_scope.
#[global] Open Scope lua_scope.

(** [MOD_CHECK_ID]: the error for a peripheral that is not there. *)
Definition no_such (what : list Z) (id : Z) : list Z :=
  what ++ [32] ++ (if s32 id <? 0 then 45 :: decimal (- s32 id) else decimal id) ++ lit " does not exist".

(** ** Arguments *)

(** The C string at the start of a string of Lua. *)
Definition cstring (s : list Z) : list Z := default s (str_scan s).
Lemma cstring_plain s : Forall (fun c => c <> 0) s -> cstring s = s.
Proof.
  intros Hs. unfold cstring. enough (str_scan s = None) as -> by done.
  induction Hs as [|c s Hc _ IH]; [done|]. cbn [str_scan]. by rewrite decide_False, IH.
Qed.
(** A value of Lua, as far as a module looks at it. [ANumber]: a number, as
    [lua_tointeger] gives it; [ATable]: the elements
    from 1 on, as [lua_tointeger] gives them. *)
Inductive larg := ANil | ANumber (x : Z) | AString (s : list Z) | ATable (es : list Z) | AOther.
Section Arguments.
(** The numbers strings stand for. *)
Context (str2number : list Z -> option Z).
Definition lua_isnumber (a : larg) : option Z :=
  match a with ANumber x => Some x | AString s => str2number s | _ => None end.
Definition luaL_checkinteger {A} (a : larg) (k : Z -> option (lres A)) : option (lres A) :=
  match lua_isnumber a with Some x => k x | None => lua_error (lit "number expected") end.
End Arguments.

(** ** Numbers *)

(** A number type: its size, whether it is an integer, the bytes of
    a number from the lowest to the highest, the conversions of C, and C's
    equality, which a NaN does not have with itself. *)
Class LuaNumber (N : Type) := {
  ln_size : nat; ln_integral : bool; ln_bytes : N -> list Z; ln_of_bytes : list Z -> N;
  ln_to_int : N -> Z; ln_of_int : Z -> N; ln_eqb : N -> N -> bool
}.

(** What a number type promises. *)
Class NumberLaws (N : Type) {num : LuaNumber N} : Prop := {
  nl_length x : length (ln_bytes x) = ln_size;
  nl_bytes x : Forall is_u8 (ln_bytes x);
  nl_int x : ln_integral = true -> ln_of_bytes (le_bytes ln_size x) = ln_of_int (swrap (8 * Z.of_nat ln_size) x)
}.
Lemma swrap_wrap n x : swrap n (wrap n x) = swrap n x.
Proof. unfold swrap, wrap. by rewrite Zmod_mod. Qed.

(** ** The bytes of a number, reversed in place *)

Fixpoint swap_loop (n i size : nat) (l : list Z) : list Z :=
  match n with
  | O => l
  | S n =>
      let a := default 0 (l !! i) in
      let b := default 0 (l !! (size - 1 - i)%nat) in
      swap_loop n (S i) size (<[(size - 1 - i)%nat := a]> (<[i := b]> l))
  end.
Definition swap_bytes (l : list Z) (size : nat) : list Z := swap_loop (size / 2) 0 size l.


Lemma swap_loop_rev n i l : (2 * n + 2 * i <= length l)%nat -> (length l < 2 * n + 2 * i + 2)%nat ->
  forall j, (j < length l)%nat -> swap_loop n i (length l) l !! j =
    if decide (i <= j < length l - i)%nat then l !! (length l - 1 - j)%nat else l !! j.
Proof.
  revert i l. induction n as [|n IH]; intros i l H1 H2 j Hj; cbn [swap_loop].
  - destruct (decide _); [|done]. f_equal. lia.
  - set (a := default 0 (l !! i)). set (b := default 0 (l !! (length l - 1 - i)%nat)).
    set (l' := <[(length l - 1 - i)%nat := a]> (<[i := b]> l)).
    assert (Hl : length l' = length l) by (unfold l'; by rewrite !length_insert).
    rewrite <- Hl. rewrite IH by lia. rewrite Hl.
    destruct (lookup_lt_is_Some_2 l i) as [x Hx]; [lia|]. destruct (lookup_lt_is_Some_2 l (length l - 1 - i)%nat) as [y Hy]; [lia|].
    assert (Hi : l' !! i = Some b).
    { unfold l'. rewrite list_lookup_insert_ne by lia. apply list_lookup_insert_eq. lia. }
    assert (Hi' : l' !! (length l - 1 - i)%nat = Some a).
    { unfold l'. apply list_lookup_insert_eq. rewrite length_insert. lia. }
    assert (Ho : forall k, k <> i -> k <> (length l - 1 - i)%nat -> l' !! k = l !! k).
    { intros k H3 H4. unfold l'. rewrite !list_lookup_insert_ne by lia. done. }
    unfold a, b in *. rewrite Hx, Hy in *. cbn [default id] in *.
    destruct (decide (j = i)) as [->|Hji].
    { rewrite decide_False, decide_True by lia. by rewrite Hi, Hy. }
    destruct (decide (j = length l - 1 - i)%nat) as [->|Hjj].
    { rewrite decide_False, decide_True by lia. rewrite Hi'. replace (length l - 1 - (length l - 1 - i))%nat with i by lia. done. }
    destruct (decide (S i <= j < length l - S i)%nat).
    + rewrite decide_True by lia. apply Ho; lia.
    + rewrite decide_False by lia. apply Ho; lia.
Qed.
Lemma swap_loop_length n : forall i k (l : list Z), length (swap_loop n i k l) = length l.
Proof. induction n as [|n IH]; intros i k l; cbn [swap_loop]; [done|]. by rewrite IH, !length_insert. Qed.
Lemma swap_bytes_reverse l : swap_bytes l (length l) = reverse l.
Proof.
  unfold swap_bytes. pose proof (Nat.div_mod_eq (length l) 2). pose proof (Nat.mod_upper_bound (length l) 2).
  apply list_eq. intros j. destruct (decide (j < length l)%nat) as [Hj|Hj].
  - rewrite swap_loop_rev by lia. rewrite decide_True by lia. rewrite reverse_lookup by done. f_equal. lia.
  - rewrite !lookup_ge_None_2; [done|rewrite length_reverse; lia|rewrite swap_loop_length; lia].
Qed.
(** ** Numbers in text *)

Definition isspace (c : Z) : bool := (c =? 32) || ((9 <=? c) && (c <=? 13)).
Fixpoint skip_space (s : list Z) : list Z := match s with c :: s' => if isspace c then skip_space s' else s | [] => [] end.
Fixpoint digits (n : Z) (s : list Z) : Z * list Z :=
  match s with c :: s' => if (48 <=? c) && (c <=? 57) then digits (10 * n + (c - 48)) s' else (n, s) | [] => (n, []) end.
Lemma digits_app ds : forall n rest, Forall is_digit ds -> match rest with c :: _ => ~ is_digit c | [] => True end ->
  digits n (ds ++ rest) = (foldl (fun v d => 10 * v + (d - 48)) n ds, rest).
Proof.
  induction ds as [|d ds IH]; intros n rest Hd Hr; cbn [app digits foldl].
  - destruct rest as [|c rest]; cbn [digits]; [done|]. unfold is_digit in Hr.
    assert ((48 <=? c) && (c <=? 57) = false) as -> by (rewrite andb_false_iff, !Z.leb_gt; lia). done.
  - apply Forall_cons in Hd as [Hd Hds]. unfold is_digit in Hd.
    assert ((48 <=? d) && (d <=? 57) = true) as -> by (rewrite andb_true_iff, !Z.leb_le; lia). by apply IH.
Qed.

Lemma decimal_cons n : 0 <= n < 2 ^ 64 -> exists d ds, decimal n = d :: ds /\ is_digit d.
Proof.
  intros Hn. destruct (decimal_ok n Hn) as (_ & Hd & Hne). destruct (decimal n) as [|d ds]; [done|]. exists d, ds. split; [done|]. by apply Forall_inv in Hd.
Qed.
Lemma digits_decimal n rest : 0 <= n < 2 ^ 64 -> match rest with c :: _ => ~ is_digit c | [] => True end -> digits 0 (decimal n ++ rest) = (n, rest).
Proof. intros Hn Hr. destruct (decimal_ok n Hn) as (Hv & Hd & _). rewrite digits_app by done. unfold dec_value in Hv. by rewrite Hv. Qed.
Lemma skip_digit d s : is_digit d -> skip_space (d :: s) = d :: s.
Proof.
  unfold is_digit. intros Hd. cbn [skip_space]. unfold isspace.
  by assert (((d =? 32) || ((9 <=? d) && (d <=? 13))) = false) as -> by (rewrite orb_false_iff, andb_false_iff, Z.eqb_neq, !Z.leb_gt; lia).
Qed.

(** ** Instances *)

(** 32-bit integers, and floating point numbers of 64 bits. *)
#[export] Instance int32_number : LuaNumber Z := {
  ln_size := 4; ln_integral := true; ln_bytes := le_bytes 4; ln_of_bytes bs := s32 (le_value bs); ln_to_int x := x; ln_of_int := s32; ln_eqb := Z.eqb
}.
#[export] Instance int32_laws : NumberLaws Z.
Proof.
  split; [intros x; apply le_bytes_length|intros x; apply le_bytes_u8|]. intros x _. cbn [ln_size ln_of_bytes ln_of_int int32_number].
  rewrite le_value_bytes. change (8 * Z.of_nat 4) with 32. unfold s32. rewrite swrap_wrap.
  change (8 * Z.of_nat 4) with 32. rewrite <- (swrap_wrap 32 (swrap 32 x)). symmetry. apply (s32_u32 (s32 x)), s32_is_s32.
Qed.
Record double := bits { dbl_bits : Z }.
Definition dbl_of_int (z : Z) : double :=
  if z =? 0 then bits 0
  else let e := Z.log2 (Z.abs z) in
    bits ((if z <? 0 then 2 ^ 63 else 0) + (e + 1023) * 2 ^ 52 + Z.land (Z.shiftl (Z.abs z) (52 - e)) (2 ^ 52 - 1)).
Definition dbl_to_int (d : double) : Z :=
  let b := dbl_bits d in
  let e := Z.land (Z.shiftr b 52) 2047 - 1023 in
  let m := Z.land b (2 ^ 52 - 1) + 2 ^ 52 in
  if e <? 0 then 0 else (if Z.testbit b 63 then -1 else 1) * Z.shiftr m (52 - e).
Definition dbl_eqb (x y : double) : bool :=
  let magnitude d := Z.land (dbl_bits d) (2 ^ 63 - 1) in
  let nan d := 2047 * 2 ^ 52 <? magnitude d in
  negb (nan x) && negb (nan y) && ((dbl_bits x =? dbl_bits y) || ((magnitude x =? 0) && (magnitude y =? 0))).
#[export] Instance double_number : LuaNumber double := {
  ln_size := 8; ln_integral := false; ln_bytes d := le_bytes 8 (dbl_bits d); ln_of_bytes bs := bits (le_value bs);
  ln_to_int := dbl_to_int; ln_of_int := dbl_of_int; ln_eqb := dbl_eqb
}.
#[export] Instance double_laws : NumberLaws double.
Proof. split; [intros x; apply le_bytes_length|intros x; apply le_bytes_u8|done]. Qed.
Example double_ints : map (fun z => dbl_to_int (dbl_of_int z)) [0; 1; -1; 7; 65537; -2147483648] = [0; 1; -1; 7; 65537; -2147483648].
Proof. reflexivity. Qed.

