(* ===== verification/Bitarray.v ===== *)
(** * Bitarray: arrays of small integers in Lua

    Models src/modules/bitarray.c: arrays of a fixed number of elements of 1, 2,
    4, 8, 16 or 32 bits, packed into bytes. The arguments come from Lua: [larg].
    An array is passed as a value; [bitarray_set] gives the changed array. *)

From S2P Require Import Prelude LuaApi.

(** ** The array *)

Record bitarray_t := mkBitarray { capacity : Z; elsize : Z; values : list Z }.

Section Bitarray.
(** The byte order of the processor; whether it reads words at any address: the
    field [values] is at the odd offset 5. *)
Context (little unaligned : bool).
(** The numbers strings stand for; whether there is memory for a block. *)
Context (str2number : list Z -> option Z) (enough : Z -> bool).
Abbreviation lua_isnumber := (lua_isnumber str2number).
Abbreviation luaL_checkinteger := (luaL_checkinteger str2number).

(** [( ( s ) >> 3 ) + ( ( s ) & 7 ? 1 : 0 )] of an unsigned number. *)
Definition ROUND_SIZE (s : Z) : Z := u32 (Z.shiftr s 3 + (if Z.land s 7 =? 0 then 0 else 1)).
Definition bitarray_index_shift (e : Z) : option Z := [0; 3; 2; 0; 1] !! Z.to_nat e.
Definition bitarray_index_mask (e : Z) : option Z := [0; 0x01; 0x03; 0; 0x0F] !! Z.to_nat e.

(** ** Creation *)

(** [elsize] from an argument, a u8. *)
Definition size_arg (a : larg) : Z := match lua_isnumber a with Some x => u8 x | None => 8 end.
(** What is put into a new block of [total] bytes. *)
Inductive initial := Fill (fill : Z) | Bytes (bs : list Z).
Definition bitarray_make (cap els : Z) (c : initial) : option (lres bitarray_t) :=
  if (els <=? 0) || (32 <? els) || negb (Z.land els (els - 1) =? 0) then lua_error (lit "invalid element size.")
  else
    let total := ROUND_SIZE (u32 (cap * els)) in
    if total <=? 0 then lua_error (lit "invalid arguments.")
    else if negb (enough total) then lua_error (lit "not enough memory")
    else
      match c with
      | Fill x => lua_return (mkBitarray cap els (replicate (Z.to_nat total) x))
      | Bytes bs =>
          (* as many as there is room for, or outside the block; none left over *)
          if Z.of_nat (length bs) =? total then lua_return (mkBitarray cap els bs) else None
      end.
Definition from_bytes (bs : list Z) (a2 : larg) : option (lres bitarray_t) :=
  let els := size_arg a2 in
  if els =? 0 then lua_error (lit "length is zero.")
  else
    let bits := u32 (Z.shiftl (Z.of_nat (length bs)) 3) in
    if negb (bits mod els =? 0) then lua_error (lit "length is not a multiple of element size.")
    else bitarray_make (bits / els) els (Bytes bs).
Definition bitarray_new (a1 a2 a3 : larg) : option (lres bitarray_t) :=
  match lua_isnumber a1 with
  | Some x => bitarray_make (u32 x) (size_arg a2) (Fill (match lua_isnumber a3 with Some f => u8 f | None => 0 end))
  | None =>
      match a1 with
      | AString s => from_bytes s a2
      | ATable es => from_bytes (u8 <$> es) a2
      | _ => lua_error (lit "invalid arguments.")
      end
  end.

(** ** Elements *)

(** The word of [n] bytes at index [idx]. *)
Definition word_at (pa : bitarray_t) (n : nat) (idx : Z) : option Z :=
  if unaligned then bs ← loads (values pa) (n * Z.to_nat idx) n; Some (le_value (stored little bs)) else None.
Definition bitarray_getval (pa : bitarray_t) (idx : Z) : option Z :=
  let idx := u32 (idx - 1) in
  let e := elsize pa in
  if e <? 8 then
    sh ← bitarray_index_shift e;
    im ← bitarray_index_mask e;
    let mask := u8 (Z.shiftl 1 sh) in
    let rest := u8 (Z.land idx (mask - 1)) in
    val ← values pa !! Z.to_nat (Z.shiftr idx sh);
    Some (Z.land (Z.shiftr val ((mask - 1 - rest) * e)) im)
  else if e =? 8 then values pa !! Z.to_nat idx
  else if e =? 16 then word_at pa 2 idx
  else if e =? 32 then word_at pa 4 idx
  else Some 0.
Definition bitarray_get (pa : bitarray_t) (key : larg) : option (lres Z) :=
  luaL_checkinteger key (fun x =>
    let idx := u32 x in
    if (idx <=? 0) || (capacity pa <? idx) then lua_error (lit "invalid index.")
    else v ← bitarray_getval pa idx; lua_return (s32 v)).

Definition set_values (pa : bitarray_t) (vs : list Z) : bitarray_t := mkBitarray (capacity pa) (elsize pa) vs.
Definition set_word (pa : bitarray_t) (n : nat) (idx v : Z) : option bitarray_t :=
  if unaligned then set_values pa <$> stores (values pa) (n * Z.to_nat idx) (stored little (le_bytes n v)) else None.
Definition bitarray_setval (pa : bitarray_t) (idx newval : Z) : option bitarray_t :=
  let idx := u32 (idx - 1) in
  let e := elsize pa in
  if e <? 8 then
    sh ← bitarray_index_shift e;
    im ← bitarray_index_mask e;
    let mask := u8 (Z.shiftl 1 sh) in
    let rest := u8 (Z.land idx (mask - 1)) in
    let shift := Z.to_nat (Z.shiftr idx sh) in
    val ← values pa !! shift;
    let val := Z.land val (Z.lnot (Z.shiftl im ((mask - 1 - rest) * e))) in
    let val := Z.lor val (u32 (Z.shiftl newval ((mask - 1 - rest) * e))) in
    set_values pa <$> store (values pa) shift val
  else if e =? 8 then set_values pa <$> store (values pa) (Z.to_nat idx) newval
  else if e =? 16 then set_word pa 2 idx newval
  else if e =? 32 then set_word pa 4 idx newval
  else Some pa.
Definition bitarray_set (pa : bitarray_t) (key v : larg) : option (lres bitarray_t) :=
  luaL_checkinteger key (fun x => luaL_checkinteger v (fun y =>
    let idx := u32 x in
    if (idx <=? 0) || (capacity pa <? idx) then lua_error (lit "invalid index.")
    else pa ← bitarray_setval pa idx (u32 y); lua_return pa)).
Definition bitarray_len (pa : bitarray_t) : Z := s32 (capacity pa).

(** ** Traversal and conversion *)

(** The next index and its value, or nothing at the end. *)
Definition bitarray_iter (pa : bitarray_t) (i : larg) : option (lres (option (Z * Z))) :=
  luaL_checkinteger i (fun x =>
    let idx := u32 (u32 x + 1) in
    if idx <=? capacity pa then v ← bitarray_getval pa idx; lua_return (Some (s32 idx, s32 v)) else lua_return None).
(** [for i, v in bitarray.pairs( array )]: what the loop is run with. *)
Fixpoint pairs_loop (fuel : nat) (pa : bitarray_t) (i : Z) : option (lres (list (Z * Z))) :=
  match fuel with
  | O => None
  | S fuel =>
      r ← bitarray_iter pa (ANumber i);
      match r with
      | inl (Some (i, v)) => r ← pairs_loop fuel pa i; Some (match r with inl l => inl ((i, v) :: l) | inr m => inr m end)
      | inl None => lua_return []
      | inr m => lua_error m
      end
  end.
Definition bitarray_pairs (fuel : nat) (pa : bitarray_t) : option (lres (list (Z * Z))) := pairs_loop fuel pa 0.

Definition unpack_mode (m : larg) : lres bool :=   (* whether "seq" *)
  match m with
  | AString s =>
      let s := cstring s in
      if bool_decide (s = lit "raw") then inl false else if bool_decide (s = lit "seq") then inl true else inr (lit "invalid mode string.")
  | ANumber _ => inr (lit "invalid mode string.")
  | _ => inl true
  end.
(** The values from index [idx] on. *)
Fixpoint seq_loop (fuel : nat) (pa : bitarray_t) (idx : Z) : option (list Z) :=
  match fuel with
  | O => None
  | S fuel =>
      if idx <=? capacity pa then v ← bitarray_getval pa idx; vs ← seq_loop fuel pa (u32 (idx + 1)); Some (v :: vs)
      else Some []
  end.
Definition raw_bytes (pa : bitarray_t) : option (list Z) := loads (values pa) 0 (Z.to_nat (ROUND_SIZE (u32 (capacity pa * elsize pa)))).
Definition unpacked (fuel : nat) (pa : bitarray_t) (m : larg) : option (lres (list Z)) :=
  match unpack_mode m with
  | inr e => lua_error e
  | inl sequence =>
      if sequence && (8 <? elsize pa) then lua_error (lit "element size too large.")
      else vs ← (if sequence then seq_loop fuel pa 1 else raw_bytes pa); lua_return vs
  end.
Definition bitarray_tostring (fuel : nat) (pa : bitarray_t) (m : larg) : option (lres larg) :=
  r ← unpacked fuel pa m; match r with inl vs => lua_return (AString (u8 <$> vs)) | inr e => lua_error e end.
Definition bitarray_totable (fuel : nat) (pa : bitarray_t) (m : larg) : option (lres larg) :=
  r ← unpacked fuel pa m; match r with inl vs => lua_return (ATable (s32 <$> vs)) | inr e => lua_error e end.
End Bitarray.

(** ** Arrays as lists *)

Section Elements.
Context (little unaligned : bool).

(** The element at position [i], from 0 on: for elements within a byte, the bits
    from bit [i * elsize] on, counted from the highest bit of the first byte. *)
Definition element (pa : bitarray_t) (i : nat) : Z :=
  let e := elsize pa in
  if e <? 8 then
    let p := Z.of_nat i * e in
    (default 0 (values pa !! Z.to_nat (p / 8)) / 2 ^ (8 - e - p mod 8)) mod 2 ^ e
  else
    let n := Z.to_nat (e / 8) in le_value (stored little (take n (drop (n * i) (values pa)))).
Definition elements (pa : bitarray_t) : list Z := element pa <$> seq 0 (Z.to_nat (capacity pa)).
(** An array whose elements are in its memory, on a processor that can read them. *)
Record wf (pa : bitarray_t) : Prop := {
  wf_elsize : elsize pa ∈ [1; 2; 4; 8; 16; 32];
  wf_capacity : 0 < capacity pa;
  wf_bits : capacity pa * elsize pa < 2 ^ 32;
  wf_length : Z.of_nat (length (values pa)) = ROUND_SIZE (capacity pa * elsize pa);
  wf_bytes : Forall is_u8 (values pa);
  wf_aligned : 8 < elsize pa -> unaligned = true
}.

Lemma round_size s : 0 <= s < 2 ^ 32 -> ROUND_SIZE s = (s + 7) / 8.
Proof.
  intros Hs. unfold ROUND_SIZE. change 7 with (2 ^ 3 - 1) at 1. rewrite land_mask, Z.shiftr_div_pow2 by lia. change (2 ^ 3) with 8.
  rewrite u32_small.
  - destruct (Z.eqb_spec (s mod 8) 0); Z.to_euclidean_division_equations; lia.
  - unfold is_u. change (2 ^ 32) with 4294967296 in *. destruct (s mod 8 =? 0); Z.to_euclidean_division_equations; lia.
Qed.
(** An element within a byte has its bits there. *)
Lemma sub_byte e m : e * m = 8 -> 0 < e -> 0 < m -> forall i, 0 <= i -> (i * e) / 8 = i / m /\ (i * e) mod 8 = e * (i mod m).
Proof.
  intros He H0 Hm i Hi. rewrite <- He. split.
  - rewrite (Z.mul_comm e m). by rewrite Z.div_mul_cancel_r by lia.
  - rewrite (Z.mul_comm i e). by rewrite Z.mul_mod_distr_l by lia.
Qed.
Lemma byte_index pa i : wf pa -> elsize pa <= 8 -> 0 <= i < capacity pa -> (Z.to_nat (i * elsize pa / 8) < length (values pa))%nat.
Proof.
  intros [He Hc Hb Hl _ _] H8 Hi. rewrite !elem_of_cons, elem_of_nil in He.
  assert (1 <= elsize pa) by lia. rewrite round_size in Hl by nia.
  enough (i * elsize pa / 8 < (capacity pa * elsize pa + 7) / 8) by (Z.to_euclidean_division_equations; lia).
  destruct He as [E|[E|[E|[E|[E|[E|[]]]]]]]; rewrite E in *; Z.to_euclidean_division_equations; lia.
Qed.

(** One element of a byte, read and changed. *)
Definition sub_read (e m r b : Z) : Z := Z.land (Z.shiftr b ((m - 1 - r) * e)) (2 ^ e - 1).
Definition sub_write (e m r b v : Z) : Z :=
  u8 (Z.lor (Z.land b (Z.lnot (Z.shiftl (2 ^ e - 1) ((m - 1 - r) * e)))) (u32 (Z.shiftl v ((m - 1 - r) * e)))).
Definition sub_check (e m : Z) (b : Z) : bool :=
  forallb (fun r =>
    (sub_read e m r b =? (b / 2 ^ (8 - e - e * r)) mod 2 ^ e) &&
    forallb (fun v => forallb (fun r' => sub_read e m r' (sub_write e m r b v) =? if r' =? r then v else sub_read e m r' b) (seqZ 0 m))
      (seqZ 0 (2 ^ e))) (seqZ 0 m).
Lemma sub_checked e m b : In (e, m) [(1, 8); (2, 4); (4, 2)] -> is_u8 b -> sub_check e m b = true.
Proof. intros H. apply byte_forall. destruct H as [[= <- <-]|[[= <- <-]|[[= <- <-]|[]]]]; vm_compute; reflexivity. Qed.
Lemma sub_read_spec e m r b : In (e, m) [(1, 8); (2, 4); (4, 2)] -> is_u8 b -> 0 <= r < m ->
  sub_read e m r b = (b / 2 ^ (8 - e - e * r)) mod 2 ^ e.
Proof.
  intros H Hb Hr. pose proof (seqZ_forallb _ _ r (sub_checked e m b H Hb) Hr) as E. apply andb_true_iff in E as [E _]. by apply Z.eqb_eq.
Qed.
Lemma sub_read_write e m r r' b v : In (e, m) [(1, 8); (2, 4); (4, 2)] -> is_u8 b -> 0 <= r < m -> 0 <= r' < m -> 0 <= v < 2 ^ e ->
  sub_read e m r' (sub_write e m r b v) = if r' =? r then v else sub_read e m r' b.
Proof.
  intros H Hb Hr Hr' Hv. pose proof (seqZ_forallb _ _ r (sub_checked e m b H Hb) Hr) as E. apply andb_true_iff in E as [_ E].
  pose proof (seqZ_forallb _ _ r' (seqZ_forallb _ _ v E Hv) Hr') as E'. by apply Z.eqb_eq.
Qed.

(** The two ways elements lie in memory. *)
Lemma wf_cases pa : wf pa ->
  (exists m sh, In (elsize pa, m) [(1, 8); (2, 4); (4, 2)] /\ elsize pa * m = 8 /\ m = 2 ^ sh /\ 0 <= sh /\
     bitarray_index_shift (elsize pa) = Some sh /\ bitarray_index_mask (elsize pa) = Some (2 ^ elsize pa - 1) /\
     u8 (Z.shiftl 1 sh) = m /\ elsize pa < 8 /\ 0 < elsize pa /\ 0 < m <= 8) \/
  (exists n, In n [1; 2; 4]%nat /\ elsize pa = 8 * Z.of_nat n).
Proof.
  intros [He _ _ _ _ _]. rewrite !elem_of_cons, elem_of_nil in He.
  destruct He as [E|[E|[E|[E|[E|[E|[]]]]]]]; rewrite E.
  - left. exists 8, 3. cbn. repeat split; try lia; auto.
  - left. exists 4, 2. cbn. repeat split; try lia; auto.
  - left. exists 2, 1. cbn. repeat split; try lia; auto.
  - right. exists 1%nat. cbn; auto.
  - right. exists 2%nat. cbn; auto.
  - right. exists 4%nat. cbn; auto.
Qed.
Lemma word_bound pa n i : wf pa -> elsize pa = 8 * Z.of_nat n -> 0 <= i < capacity pa -> (n * Z.to_nat i + n <= length (values pa))%nat.
Proof.
  intros [He Hc Hb Hl _ _] En Hi. rewrite round_size in Hl by nia. rewrite En in Hl.
  replace ((capacity pa * (8 * Z.of_nat n) + 7) / 8) with (capacity pa * Z.of_nat n) in Hl by (Z.to_euclidean_division_equations; nia).
  nia.
Qed.
(** The bits of [i] below and above the index shift. *)
Lemma index_parts i sh m : 0 <= i -> 0 <= sh -> m = 2 ^ sh -> 0 < m <= 8 ->
  Z.shiftr i sh = i / m /\ u8 (Z.land i (m - 1)) = i mod m.
Proof.
  intros Hi Hs -> Hm. rewrite land_mask, Z.shiftr_div_pow2 by done. split; [done|]. apply u8_small. unfold is_u.
  pose proof (Z.mod_pos_bound i (2 ^ sh)). lia.
Qed.
Lemma element_sub pa m i b : In (elsize pa, m) [(1, 8); (2, 4); (4, 2)] -> elsize pa * m = 8 -> elsize pa < 8 -> 0 < elsize pa -> 0 < m -> 0 <= i ->
  values pa !! Z.to_nat (i / m) = Some b -> is_u8 b -> element pa (Z.to_nat i) = sub_read (elsize pa) m (i mod m) b.
Proof.
  intros HIn Hem H8 H0 Hm Hi Hb Hub. unfold element. rewrite (proj2 (Z.ltb_lt _ _)) by done. rewrite Z2Nat.id by done.
  destruct (sub_byte (elsize pa) m Hem H0 Hm i Hi) as [-> ->]. rewrite Hb. cbn [default id].
  rewrite sub_read_spec; [done|done|done|]. by apply Z.mod_pos_bound.
Qed.
Lemma element_word pa n i : elsize pa = 8 * Z.of_nat n -> (0 < n)%nat ->
  element pa i = le_value (stored little (take n (drop (n * i) (values pa)))).
Proof.
  intros E Hn. unfold element. rewrite (proj2 (Z.ltb_ge _ _)) by lia. rewrite E, Z.mul_comm, Z.div_mul by done. by rewrite Nat2Z.id.
Qed.
Lemma stored_byte b : le_value (stored little [b]) = b.
Proof. unfold stored. destruct little; rewrite ?reverse_singleton; unfold le_value; lia. Qed.
Lemma getval_spec pa idx : wf pa -> 0 < idx <= capacity pa ->
  bitarray_getval little unaligned pa idx = Some (element pa (Z.to_nat (idx - 1))).
Proof.
  intros Hwf Hidx. pose proof Hwf as [He Hc Hb Hl Hbs Hal]. unfold bitarray_getval.
  assert (capacity pa < 2 ^ 32) by (rewrite !elem_of_cons, elem_of_nil in He; nia).
  rewrite u32_small by (unfold is_u; lia). set (i := idx - 1). assert (Hi : 0 <= i < capacity pa) by (unfold i; lia).
  destruct (wf_cases pa Hwf) as [(m & sh & HIn & Hem & Hm & Hsh & E1 & E2 & E3 & H8 & H0 & Hm8)|(n & HIn & En)].
  - rewrite (proj2 (Z.ltb_lt _ _)) by done. rewrite E1, E2. cbn [mbind option_bind]. rewrite E3.
    destruct (index_parts i sh m) as [-> ->]; [lia..|].
    destruct (lookup_lt_is_Some_2 (values pa) (Z.to_nat (i / m))) as [b Eb].
    { pose proof (byte_index pa i Hwf ltac:(lia) Hi) as Hbi. by rewrite (proj1 (sub_byte (elsize pa) m Hem H0 (proj1 Hm8) i (proj1 Hi))) in Hbi. }
    rewrite Eb. cbn [mbind option_bind]. f_equal. symmetry. apply (element_sub pa m i b); try done; [lia..|].
    by eapply Forall_lookup_1.
  - rewrite (proj2 (Z.ltb_ge _ _)) by (destruct HIn as [<-|[<-|[<-|[]]]]; lia).
    pose proof (word_bound pa n i Hwf En Hi) as Hw. rewrite (element_word pa n) by (destruct HIn as [<-|[<-|[<-|[]]]]; lia || done).
    assert (Hld : loads (values pa) (n * Z.to_nat i) n = Some (take n (drop (n * Z.to_nat i) (values pa)))).
    { unfold loads. by rewrite decide_True. }
    destruct HIn as [<-|[<-|[<-|[]]]]; rewrite En; cbn [Z.mul Z.of_nat Pos.mul Pos.of_succ_nat Pos.succ Z.eqb Pos.eqb].
    + rewrite !Nat.mul_1_l in *. destruct (lookup_lt_is_Some_2 (values pa) (Z.to_nat i)) as [b Eb]; [lia|]. rewrite Eb. f_equal.
      rewrite (drop_S _ b) by done. change (take 1 (b :: ?l)) with [b]. by rewrite stored_byte.
    + unfold word_at. rewrite Hal by lia. by rewrite Hld.
    + unfold word_at. rewrite Hal by lia. by rewrite Hld.
Qed.

(** An array like [pa] but for the element at [i], which is [v]. *)
Record updated (pa pa' : bitarray_t) (i : nat) (v : Z) : Prop := {
  up_capacity : capacity pa' = capacity pa;
  up_elsize : elsize pa' = elsize pa;
  up_wf : wf pa';
  up_elements : forall j, (j < Z.to_nat (capacity pa))%nat -> element pa' j = if decide (j = i) then v else element pa j
}.
Lemma set_values_wf pa vs : wf pa -> length vs = length (values pa) -> Forall is_u8 vs -> wf (set_values pa vs).
Proof. intros [] Hl Hv. split; try done. cbn [set_values values capacity elsize]. by rewrite Hl. Qed.
Lemma set_byte pa i v m b : wf pa -> In (elsize pa, m) [(1, 8); (2, 4); (4, 2)] -> elsize pa * m = 8 -> elsize pa < 8 -> 0 < elsize pa ->
  0 < m -> 0 <= i < capacity pa -> values pa !! Z.to_nat (i / m) = Some b -> 0 <= v < 2 ^ elsize pa ->
  updated pa (set_values pa (<[Z.to_nat (i / m) := sub_write (elsize pa) m (i mod m) b v]> (values pa))) (Z.to_nat i) v.
Proof.
  intros Hwf HIn Hem H8 H0 Hm Hi Eb Hv. pose proof (wf_bytes pa Hwf) as Hbs.
  assert (Hub : is_u8 b) by (by eapply Forall_lookup_1).
  assert (Hlt : (Z.to_nat (i / m) < length (values pa))%nat) by (by apply lookup_lt_is_Some_1).
  split; [done|done| |].
  - apply set_values_wf; [done|apply length_insert|]. apply Forall_insert; [done|]. unfold sub_write. apply u8_is_u8.
  - match goal with |- forall j, _ -> element ?p j = _ => set (pa' := p) end.
    intros j Hj. set (z := Z.of_nat j). assert (Hz : 0 <= z < capacity pa) by lia. 
    assert (Ej : j = Z.to_nat z) by lia. clearbody z. subst j.
    pose proof (byte_index pa z Hwf ltac:(lia) Hz) as Hbi. rewrite (proj1 (sub_byte (elsize pa) m Hem H0 Hm z (proj1 Hz))) in Hbi.
    destruct (lookup_lt_is_Some_2 _ _ Hbi) as [c Ec]. assert (Huc : is_u8 c) by (by eapply Forall_lookup_1).
    assert (Eold : element pa (Z.to_nat z) = sub_read (elsize pa) m (z mod m) c) by (apply element_sub; done || lia).
    destruct (decide (z / m = i / m)) as [E|E].
    + rewrite E in Ec. rewrite Eb in Ec. injection Ec as <-.
      rewrite (element_sub pa' m z (sub_write (elsize pa) m (i mod m) b v) HIn); try done; try lia.
      * change (elsize pa') with (elsize pa). rewrite sub_read_write by (done || (apply Z.mod_pos_bound; lia)).
        destruct (Z.eqb_spec (z mod m) (i mod m)) as [Er|Er]; [|].
        -- rewrite decide_True; [done|]. rewrite (Z.div_mod z m), (Z.div_mod i m), E, Er by lia. done.
        -- rewrite decide_False; [by rewrite Eold|]. intros Heq. apply Er. f_equal. lia.
      * cbn [pa' set_values values]. rewrite E. by apply list_lookup_insert_eq.
      * unfold sub_write. apply u8_is_u8.
    + rewrite (element_sub pa' m z c HIn); try done; try lia.
      * rewrite decide_False; [by rewrite Eold|]. intros Heq. apply E. f_equal. lia.
      * cbn [pa' set_values values]. rewrite list_lookup_insert_ne; [done|]. intros Heq. apply E.
        pose proof (Z.div_pos z m). pose proof (Z.div_pos i m). lia.
Qed.
Lemma set_bytes pa i v n : wf pa -> (0 < n)%nat -> elsize pa = 8 * Z.of_nat n -> 0 <= i < capacity pa -> 0 <= v < 2 ^ elsize pa ->
  exists vs, stores (values pa) (n * Z.to_nat i) (stored little (le_bytes n v)) = Some vs /\ updated pa (set_values pa vs) (Z.to_nat i) v.
Proof.
  intros Hwf Hn En Hi Hv. pose proof (word_bound pa n i Hwf En Hi) as Hw. set (ws := stored little (le_bytes n v)).
  assert (Hlw : length ws = n) by (unfold ws; by rewrite stored_length, le_bytes_length).
  assert (Hbw : Forall is_u8 ws) by (apply stored_bytes, le_bytes_u8).
  exists (splice (values pa) (n * Z.to_nat i) ws). split; [apply stores_splice; [done|lia]|]. split; [done|done| |].
  - apply set_values_wf; [done|rewrite length_splice; lia|]. apply splice_bytes; [apply Hwf|done].
  - intros j Hj. rewrite !(element_word _ n) by done. cbn [set_values values].
    assert (Hwj : (n * j + n <= length (values pa))%nat).
    { pose proof (word_bound pa n (Z.of_nat j) Hwf En ltac:(lia)). by rewrite Nat2Z.id in *. }
    destruct (decide (j = Z.to_nat i)) as [->|Hji].
    + assert (Et : take n (drop (n * Z.to_nat i) (splice (values pa) (n * Z.to_nat i) ws)) = ws).
      { unfold splice. rewrite drop_app_length' by (rewrite length_take; lia). by rewrite take_app_length'. }
      rewrite Et. unfold ws. assert (Es : stored little (stored little (le_bytes n v)) = le_bytes n v).
      { unfold stored. destruct little; [done|apply reverse_involutive]. }
      rewrite Es, le_value_bytes. apply wrap_small. unfold is_u. by rewrite <- En.
    + do 2 f_equal. apply list_eq. intros k. destruct (decide (k < n)%nat) as [Hk|Hk].
      * rewrite !lookup_take_lt, !lookup_drop by done. apply lookup_splice_old; [lia|]. nia.
      * by rewrite !lookup_take_ge by lia.
Qed.
Lemma setval_spec pa idx v : wf pa -> 0 < idx <= capacity pa -> 0 <= v < 2 ^ elsize pa ->
  exists pa', bitarray_setval little unaligned pa idx v = Some pa' /\ updated pa pa' (Z.to_nat (idx - 1)) v.
Proof.
  intros Hwf Hidx Hv. pose proof Hwf as [He Hc Hb Hl Hbs Hal]. unfold bitarray_setval.
  assert (capacity pa < 2 ^ 32) by (rewrite !elem_of_cons, elem_of_nil in He; nia).
  rewrite u32_small by (unfold is_u; lia). set (i := idx - 1). assert (Hi : 0 <= i < capacity pa) by (unfold i; lia).
  destruct (wf_cases pa Hwf) as [(m & sh & HIn & Hem & Hm & Hsh & E1 & E2 & E3 & H8 & H0 & Hm8)|(n & HIn & En)].
  - rewrite (proj2 (Z.ltb_lt _ _)) by done. rewrite E1, E2. cbn [mbind option_bind]. rewrite E3.
    destruct (index_parts i sh m) as [-> ->]; [lia..|].
    destruct (lookup_lt_is_Some_2 (values pa) (Z.to_nat (i / m))) as [b Eb].
    { pose proof (byte_index pa i Hwf ltac:(lia) Hi) as Hbi. by rewrite (proj1 (sub_byte (elsize pa) m Hem H0 (proj1 Hm8) i (proj1 Hi))) in Hbi. }
    rewrite Eb. cbn [mbind option_bind]. unfold store. rewrite decide_True by (by apply lookup_lt_is_Some_1).
    eexists. split; [reflexivity|]. apply (set_byte pa i v m b); done || lia.
  - rewrite (proj2 (Z.ltb_ge _ _)) by (destruct HIn as [<-|[<-|[<-|[]]]]; lia).
    destruct (set_bytes pa i v n Hwf ltac:(destruct HIn as [<-|[<-|[<-|[]]]]; lia) En Hi Hv) as (vs & Hst & Hup).
    exists (set_values pa vs). split; [|done].
    destruct HIn as [<-|[<-|[<-|[]]]]; rewrite En; cbn [Z.mul Z.of_nat Pos.mul Pos.of_succ_nat Pos.succ Z.eqb Pos.eqb].
    + rewrite Nat.mul_1_l in Hst. assert (Es : stored little (le_bytes 1 v) = [u8 v]) by (unfold stored; by destruct little).
      rewrite Es in Hst. cbn [stores] in Hst. unfold store in *. rewrite u8_u8 in Hst. case_decide; [|done]. cbn in *. by injection Hst as <-.
    + unfold set_word. rewrite Hal by lia. by rewrite Hst.
    + unfold set_word. rewrite Hal by lia. by rewrite Hst.
Qed.

Lemma elements_lookup pa i : (i < Z.to_nat (capacity pa))%nat -> elements pa !! i = Some (element pa i).
Proof. intros Hi. unfold elements. rewrite list_lookup_fmap, lookup_seq_lt by done. done. Qed.
Lemma elements_length pa : length (elements pa) = Z.to_nat (capacity pa).
Proof. unfold elements. by rewrite length_fmap, length_seq. Qed.
Lemma updated_elements pa pa' i v : (i < Z.to_nat (capacity pa))%nat -> updated pa pa' i v -> elements pa' = <[i := v]> (elements pa).
Proof.
  intros Hi [Hc _ _ He]. apply list_eq. intros j. destruct (decide (j < Z.to_nat (capacity pa))%nat) as [Hj|Hj].
  - rewrite elements_lookup by (by rewrite Hc). rewrite He by done. destruct (decide (j = i)) as [->|Hji].
    + by rewrite list_lookup_insert_eq by (by rewrite elements_length).
    + by rewrite list_lookup_insert_ne, elements_lookup by done.
  - rewrite !lookup_ge_None_2; [done|rewrite length_insert, elements_length; lia|rewrite elements_length, Hc; lia].
Qed.
Lemma wf_small pa : wf pa -> capacity pa < 2 ^ 32 /\ 0 < elsize pa.
Proof. intros [He Hc Hb _ _ _]. rewrite !elem_of_cons, elem_of_nil in He. nia. Qed.
Lemma elements_bound pa i v : wf pa -> elements pa !! i = Some v -> 0 <= v < 2 ^ elsize pa.
Proof.
  intros Hwf Hv. pose proof (lookup_lt_Some _ _ _ Hv) as Hi. rewrite elements_length in Hi. rewrite elements_lookup in Hv by done.
  injection Hv as <-. destruct (wf_cases pa Hwf) as [(m & sh & HIn & Hem & Hm & Hsh & E1 & E2 & E3 & H8 & H0 & Hm8)|(n & HIn & En)].
  - unfold element. rewrite (proj2 (Z.ltb_lt _ _)) by done. apply Z.mod_pos_bound. apply Z.pow_pos_nonneg; lia.
  - rewrite (element_word pa n) by (done || destruct HIn as [<-|[<-|[<-|[]]]]; lia).
    pose proof (word_bound pa n (Z.of_nat i) Hwf En ltac:(lia)) as Hw. rewrite Nat2Z.id in Hw.
    assert (Hb : Forall is_u8 (stored little (take n (drop (n * i) (values pa))))).
    { apply stored_bytes, Forall_take, Forall_drop, Hwf. }
    assert (Hl : length (stored little (take n (drop (n * i) (values pa)))) = n).
    { rewrite stored_length, length_take, length_drop. lia. }
    rewrite En. pose proof (le_value_bound _ Hb) as Hv. by rewrite Hl in Hv.
Qed.
End Elements.

Section Properties.
Context (little unaligned : bool) (str2number : list Z -> option Z) (enough : Z -> bool).
Abbreviation wf := (wf unaligned).
Abbreviation elements := (elements little).

(** C10: an array is a list of numbers, for every element size and byte order:
    reading gives the element at an index from 1 to the capacity, as a signed
    number; writing a number that fits changes this element and no other, and
    keeps the array well formed; with any other index both are errors. *)
Theorem bitarray_accesses pa x : wf pa ->
  (0 < u32 x <= capacity pa -> exists v, elements pa !! Z.to_nat (u32 x - 1) = Some v /\ 0 <= v < 2 ^ elsize pa /\
     bitarray_get little unaligned str2number pa (ANumber x) = lua_return (s32 v) /\
     forall y, u32 y < 2 ^ elsize pa -> exists pa', bitarray_set little unaligned str2number pa (ANumber x) (ANumber y) = lua_return pa' /\
       wf pa' /\ capacity pa' = capacity pa /\ elsize pa' = elsize pa /\ elements pa' = <[Z.to_nat (u32 x - 1) := u32 y]> (elements pa)) /\
  (~ 0 < u32 x <= capacity pa ->
     bitarray_get little unaligned str2number pa (ANumber x) = lua_error (lit "invalid index.") /\
     forall y, bitarray_set little unaligned str2number pa (ANumber x) (ANumber y) = lua_error (lit "invalid index.")).
Proof.
  intros Hwf. unfold bitarray_get, bitarray_set, luaL_checkinteger. cbn [lua_isnumber]. cbv zeta. split; intros Hx.
  - rewrite (proj2 (Z.leb_gt _ _)), (proj2 (Z.ltb_ge _ _)) by lia. cbn [orb].
    assert (Hi : (Z.to_nat (u32 x - 1) < Z.to_nat (capacity pa))%nat) by lia.
    rewrite (getval_spec little unaligned) by done. pose proof (elements_lookup little pa _ Hi) as El.
    eexists. split; [exact El|]. split; [by eapply elements_bound|]. split; [done|]. intros y Hy.
    destruct (setval_spec little unaligned pa (u32 x) (u32 y)) as (pa' & -> & Hup); [done|done|split; [apply u32_is_u32|done]|].
    exists pa'. split; [done|]. pose proof (updated_elements little unaligned _ _ _ _ Hi Hup) as He. by destruct Hup.
  - assert ((u32 x <=? 0) || (capacity pa <? u32 x) = true) as -> by (rewrite orb_true_iff, Z.leb_le, Z.ltb_lt; lia). done.
Qed.

(** ** Creation and conversion *)

Lemma seq_loop_elements pa fuel : wf pa -> capacity pa < 2 ^ 32 - 1 -> forall k, (k <= Z.to_nat (capacity pa))%nat ->
  (Z.to_nat (capacity pa) - k < fuel)%nat -> seq_loop little unaligned fuel pa (Z.of_nat k + 1) = Some (drop k (elements pa)).
Proof.
  intros Hwf Hc. induction fuel as [|fuel IH]; intros k Hk Hf; [lia|]. cbn [seq_loop].
  destruct (Z.leb_spec (Z.of_nat k + 1) (capacity pa)) as [Hle|Hgt].
  - rewrite getval_spec by (done || lia). cbn [mbind option_bind]. rewrite u32_small by (unfold is_u; lia).
    replace (Z.of_nat k + 1 + 1) with (Z.of_nat (S k) + 1) by lia. rewrite IH by lia. cbn [mbind option_bind].
    replace (Z.to_nat (Z.of_nat k + 1 - 1)) with k by lia. symmetry. f_equal. apply drop_S. apply elements_lookup. lia.
  - f_equal. symmetry. apply drop_ge. rewrite elements_length. lia.
Qed.
(** The elements with their indices, from the index after [k] on. *)
Definition numbered (k : nat) (vs : list Z) : list (Z * Z) := imap (fun i v => (s32 (Z.of_nat (k + i) + 1), s32 v)) vs.
Lemma numbered_cons k v vs : numbered k (v :: vs) = (s32 (Z.of_nat k + 1), s32 v) :: numbered (S k) vs.
Proof.
  unfold numbered. rewrite imap_cons. f_equal; [by rewrite Nat.add_0_r|]. apply imap_ext. intros i x _. cbn.
  by replace (k + S i)%nat with (S k + i)%nat by lia.
Qed.
Lemma pairs_loop_elements pa fuel : wf pa -> capacity pa < 2 ^ 32 - 1 -> forall k x, u32 x = Z.of_nat k -> (k <= Z.to_nat (capacity pa))%nat ->
  (Z.to_nat (capacity pa) - k < fuel)%nat ->
  pairs_loop little unaligned str2number fuel pa x = lua_return (numbered k (drop k (elements pa))).
Proof.
  intros Hwf Hc. induction fuel as [|fuel IH]; intros k x Hx Hk Hf; [lia|]. cbn [pairs_loop].
  unfold bitarray_iter, luaL_checkinteger. cbn [lua_isnumber]. cbv zeta. rewrite Hx. rewrite u32_small by (unfold is_u; lia).
  destruct (Z.leb_spec (Z.of_nat k + 1) (capacity pa)) as [Hle|Hgt].
  - rewrite getval_spec by (done || lia). cbn [mbind option_bind lua_return].
    rewrite (IH (S k)); [|rewrite u32_s32 by (unfold is_u; lia); lia|lia|lia]. cbn [lua_return mbind option_bind].
    replace (Z.to_nat (Z.of_nat k + 1 - 1)) with k by lia.
    rewrite (drop_S (elements pa) (element little pa k) k) by (apply elements_lookup; lia). by rewrite numbered_cons.
  - cbn [lua_return mbind option_bind]. rewrite drop_ge by (rewrite elements_length; lia). done.
Qed.
Lemma raw_bytes_all pa : wf pa -> raw_bytes pa = Some (values pa).
Proof.
  intros [He Hc Hb Hl _ _]. unfold raw_bytes. rewrite !elem_of_cons, elem_of_nil in He. rewrite u32_small by (unfold is_u; nia).
  rewrite <- Hl, Nat2Z.id. unfold loads. rewrite decide_True by done. by rewrite drop_0, take_ge.
Qed.
Lemma make_ok cap e bs : e ∈ [1; 2; 4; 8; 16; 32] -> 0 < cap -> cap * e < 2 ^ 32 -> Z.of_nat (length bs) = ROUND_SIZE (cap * e) ->
  enough (ROUND_SIZE (cap * e)) = true -> bitarray_make enough cap e (Bytes bs) = lua_return (mkBitarray cap e bs).
Proof.
  intros He Hc Hb Hl Hen. unfold bitarray_make. rewrite !elem_of_cons, elem_of_nil in He.
  assert ((e <=? 0) || (32 <? e) || negb (Z.land e (e - 1) =? 0) = false) as -> by (by destruct He as [->|[->|[->|[->|[->|[->|[]]]]]]]).
  cbv zeta. rewrite u32_small by (unfold is_u; nia). rewrite Hen.
  rewrite (proj2 (Z.leb_gt _ _)) by (rewrite round_size by nia; Z.to_euclidean_division_equations; nia). by rewrite Hl, Z.eqb_refl.
Qed.
Lemma from_bytes_ok s e : s <> [] -> Forall is_u8 s -> Z.of_nat (length s) < 2 ^ 29 -> e ∈ [1; 2; 4; 8; 16; 32] -> 8 * Z.of_nat (length s) mod e = 0 ->
  (8 < e -> unaligned = true) -> enough (Z.of_nat (length s)) = true ->
  let pa := mkBitarray (8 * Z.of_nat (length s) / e) e s in
  wf pa /\ capacity pa < 2 ^ 32 - 1 /\ from_bytes str2number enough s (ANumber e) = lua_return pa.
Proof.
  intros Hs Hb Hl He Hm Hal Hen pa. assert (0 < length s)%nat by (destruct s; [done|cbn; lia]).
  pose proof He as He'. rewrite !elem_of_cons, elem_of_nil in He'.
  assert (Hce : 8 * Z.of_nat (length s) / e * e = 8 * Z.of_nat (length s)) by (Z.to_euclidean_division_equations; nia).
  assert (Hr : ROUND_SIZE (8 * Z.of_nat (length s)) = Z.of_nat (length s)).
  { rewrite round_size by lia. Z.to_euclidean_division_equations; lia. }
  assert (Hwf : wf pa).
  { split; cbn [pa capacity elsize values]; try done; [nia|lia|by rewrite Hce]. }
  split; [done|]. split; [cbn [pa capacity]; nia|].
  unfold from_bytes, size_arg. cbn [lua_isnumber]. rewrite u8_small by (unfold is_u; lia). cbv zeta.
  rewrite (proj2 (Z.eqb_neq _ _)) by lia. rewrite Z.shiftl_mul_pow2 by lia. change (2 ^ 3) with 8. rewrite (Z.mul_comm _ 8).
  rewrite u32_small by (unfold is_u; lia). rewrite Hm. cbn [Z.eqb negb]. apply make_ok; [done|nia|lia|by rewrite Hce|by rewrite Hce, Hr].
Qed.
Lemma s32_bytes s : Forall is_u8 s -> s32 <$> s = s.
Proof.
  induction 1 as [|c s Hc _ IH]; [done|]. rewrite fmap_cons, IH. f_equal. apply s32_small. unfold is_u in Hc. change (2 ^ 8) with 256 in Hc. lia.
Qed.
Lemma u8_bytes s : Forall is_u8 s -> u8 <$> s = s.
Proof. induction 1 as [|c s Hc _ IH]; [done|]. by rewrite fmap_cons, IH, u8_small. Qed.

Lemma bytes_are_elements pa : wf pa -> elsize pa = 8 -> elements pa = values pa.
Proof.
  intros Hwf E8. pose proof Hwf as [_ Hc Hb Hl _ _].
  assert (Hlen : length (values pa) = Z.to_nat (capacity pa)).
  { rewrite E8, round_size in Hl by lia. rewrite E8 in Hb. Z.to_euclidean_division_equations; lia. }
  apply list_eq. intros i. destruct (decide (i < Z.to_nat (capacity pa))%nat) as [Hi|Hi].
  - rewrite elements_lookup by done. destruct (lookup_lt_is_Some_2 (values pa) i) as [b Eb]; [lia|]. rewrite Eb. f_equal.
    rewrite (element_word little pa 1) by (done || lia). rewrite Nat.mul_1_l, (drop_S _ b) by done.
    change (take 1 (b :: ?l)) with [b]. apply stored_byte.
  - rewrite !lookup_ge_None_2; [done|lia|rewrite elements_length; lia].
Qed.

(** An array made from a string, or a table of bytes, of any length and for
    any element size that divides it, is well formed and keeps the bytes: as a
    string and as a table in "raw" mode it gives them back, and a table so made
    gives the same array; [pairs] gives all elements with their indices in order,
    and so do "seq" strings and tables for elements of up to 8 bits. *)
Theorem bitarray_conversions s e fuel : str2number s = None -> s <> [] -> Forall is_u8 s -> Z.of_nat (length s) < 2 ^ 29 ->
  e ∈ [1; 2; 4; 8; 16; 32] -> 8 * Z.of_nat (length s) mod e = 0 -> (8 < e -> unaligned = true) -> enough (Z.of_nat (length s)) = true ->
  (8 * length s < fuel)%nat ->
  exists pa, bitarray_new str2number enough (AString s) (ANumber e) ANil = lua_return pa /\ wf pa /\ elsize pa = e /\
    capacity pa = 8 * Z.of_nat (length s) / e /\
    bitarray_tostring little unaligned fuel pa (AString (lit "raw")) = lua_return (AString s) /\
    bitarray_totable little unaligned fuel pa (AString (lit "raw")) = lua_return (ATable s) /\
    bitarray_new str2number enough (ATable s) (ANumber e) ANil = lua_return pa /\
    bitarray_pairs little unaligned str2number fuel pa = lua_return (numbered 0 (elements pa)) /\
    (e <= 8 -> bitarray_tostring little unaligned fuel pa ANil = lua_return (AString (elements pa)) /\
               bitarray_totable little unaligned fuel pa ANil = lua_return (ATable (elements pa))) /\
    (e = 8 -> elements pa = s).
Proof.
  intros Hn Hs Hb Hl He Hm Hal Hen Hf. destruct (from_bytes_ok s e Hs Hb Hl He Hm Hal Hen) as (Hwf & Hc & Hfrom).
  set (pa := mkBitarray (8 * Z.of_nat (length s) / e) e s) in *. exists pa.
  assert (Hfuel : (Z.to_nat (capacity pa) - 0 < fuel)%nat).
  { cbn [pa capacity]. rewrite !elem_of_cons, elem_of_nil in He. enough (8 * Z.of_nat (length s) / e <= 8 * Z.of_nat (length s)) by lia.
    apply Z.div_le_upper_bound; nia. }
  assert (Hraw : unpacked little unaligned fuel pa (AString (lit "raw")) = lua_return s).
  { unfold unpacked. change (unpack_mode (AString (lit "raw"))) with (inl false : lres bool). cbn [andb].
    by rewrite (raw_bytes_all pa Hwf). }
  split; [unfold bitarray_new; cbn [lua_isnumber]; by rewrite Hn|]. split; [done|]. split; [done|]. split; [done|].
  split; [unfold bitarray_tostring; rewrite Hraw; cbn [mbind option_bind lua_return]; by rewrite u8_bytes|].
  split; [unfold bitarray_totable; rewrite Hraw; cbn [mbind option_bind lua_return]; by rewrite s32_bytes|].
  split; [unfold bitarray_new; cbn [lua_isnumber]; by rewrite u8_bytes|].
  split. { unfold bitarray_pairs. rewrite (pairs_loop_elements pa fuel Hwf Hc 0 0 eq_refl) by lia. by rewrite drop_0. }
  split.
  - intros H8. assert (Hbe : Forall is_u8 (elements pa)).
    { apply Forall_lookup_2. intros i v Hv. pose proof (elements_bound little unaligned pa i v Hwf Hv) as Hv'. unfold is_u.
      cbn [pa elsize] in Hv'. pose proof (Z.pow_le_mono_r 2 e 8). lia. }
    assert (Hseq : unpacked little unaligned fuel pa ANil = lua_return (elements pa)).
    { unfold unpacked. cbn [unpack_mode]. rewrite (proj2 (Z.ltb_ge _ _)) by done. cbn [andb].
      pose proof (seq_loop_elements pa fuel Hwf Hc 0 ltac:(lia) Hfuel) as E. change (Z.of_nat 0 + 1) with 1 in E. by rewrite E. }
    unfold bitarray_tostring, bitarray_totable. rewrite Hseq. cbn [mbind option_bind lua_return]. by rewrite u8_bytes, s32_bytes.
  - intros H8. by apply bytes_are_elements.
Qed.
(** An array of a given capacity: every byte is the filler. *)
Lemma new_filled cap e f : e ∈ [1; 2; 4; 8; 16; 32] -> 0 < cap -> cap * e < 2 ^ 32 -> is_u8 f -> (8 < e -> unaligned = true) ->
  enough (ROUND_SIZE (cap * e)) = true ->
  let pa := mkBitarray cap e (replicate (Z.to_nat (ROUND_SIZE (cap * e))) f) in
  bitarray_new str2number enough (ANumber cap) (ANumber e) (ANumber f) = lua_return pa /\ wf pa.
Proof.
  intros He Hc Hb Hf Hal Hen pa. pose proof He as He'. rewrite !elem_of_cons, elem_of_nil in He'. split.
  - unfold bitarray_new, size_arg. cbn [lua_isnumber]. rewrite !u8_small by (done || (unfold is_u; lia)).
    rewrite u32_small by (unfold is_u; nia). unfold bitarray_make.
    assert ((e <=? 0) || (32 <? e) || negb (Z.land e (e - 1) =? 0) = false) as -> by (by destruct He' as [->|[->|[->|[->|[->|[->|[]]]]]]]).
    cbv zeta. rewrite u32_small by (unfold is_u; nia). rewrite Hen.
    by rewrite (proj2 (Z.leb_gt _ _)) by (rewrite round_size by nia; Z.to_euclidean_division_equations; nia).
  - split; cbn [pa capacity elsize values]; try done; [|by apply Forall_replicate].
    rewrite length_replicate, Z2Nat.id; [done|]. rewrite round_size by nia. Z.to_euclidean_division_equations; nia.
Qed.
End Properties.

(** ** Concrete arrays *)

Definition no_numbers (s : list Z) : option Z := None.
Definition bits8 : bitarray_t := mkBitarray 16 1 [0x81; 0x0F].
Lemma bits8_wf : wf false bits8.
Proof. split; try done; [by_decide|repeat constructor; by_decide]. Qed.
Lemma bitarray_accesses_witness :
  exists v, elements true bits8 !! 7%nat = Some v /\ 0 <= v < 2 /\
    bitarray_get true false no_numbers bits8 (ANumber 8) = lua_return (s32 v) /\
    forall y, u32 y < 2 -> exists pa', bitarray_set true false no_numbers bits8 (ANumber 8) (ANumber y) = lua_return pa' /\
      wf false pa' /\ capacity pa' = 16 /\ elsize pa' = 1 /\ elements true pa' = <[7%nat := u32 y]> (elements true bits8).
Proof. apply (proj1 (bitarray_accesses true false no_numbers bits8 8 bits8_wf)). by_decide. Defined.
Lemma bitarray_conversions_witness : exists pa, bitarray_new no_numbers (fun _ => true) (AString (lit "eLua")) (ANumber 4) ANil = lua_return pa /\
  wf false pa /\ elsize pa = 4 /\ capacity pa = 8 /\
  bitarray_tostring true false 99 pa (AString (lit "raw")) = lua_return (AString (lit "eLua")) /\
  bitarray_totable true false 99 pa (AString (lit "raw")) = lua_return (ATable (lit "eLua")) /\
  bitarray_new no_numbers (fun _ => true) (ATable (lit "eLua")) (ANumber 4) ANil = lua_return pa /\
  bitarray_pairs true false no_numbers 99 pa = lua_return (numbered 0 (elements true pa)) /\
  (4 <= 8 -> bitarray_tostring true false 99 pa ANil = lua_return (AString (elements true pa)) /\
             bitarray_totable true false 99 pa ANil = lua_return (ATable (elements true pa))) /\
  (4 = 8 -> elements true pa = lit "eLua").
Proof.
  apply (bitarray_conversions true false no_numbers (fun _ => true) (lit "eLua") 4 99); try done; [by_decide|by_decide|cbn; lia].
Defined.
Example elua_nibbles : elements true (mkBitarray 8 4 (lit "eLua")) = [6; 5; 4; 12; 7; 5; 6; 1].
Proof. reflexivity. Qed.

(** ** What else the code does *)

(** A value that does not fit changes the elements before it in the byte. *)
Example set_spills : bitarray_set true false no_numbers (mkBitarray 8 1 [0]) (ANumber 8) (ANumber 6) = lua_return (mkBitarray 8 1 [6]).
Proof. reflexivity. Qed.
(** The size in bits is computed in 32 bits: 2^29 + 1 bytes are one byte, and an
    index within the capacity is outside the memory. *)
Example capacity_wraps : bitarray_new no_numbers (fun _ => true) (ANumber 536870913) (ANumber 8) ANil = lua_return (mkBitarray 536870913 8 [0]) /\
  bitarray_set true false no_numbers (mkBitarray 536870913 8 [0]) (ANumber 2) (ANumber 1) = None.
Proof. split; reflexivity. Qed.
(** Words are at odd addresses: a processor that cannot read them there fails. *)
Example words_misaligned : bitarray_get true false no_numbers (mkBitarray 2 16 [1; 2; 3; 4]) (ANumber 1) = None /\
  bitarray_get true true no_numbers (mkBitarray 2 16 [1; 2; 3; 4]) (ANumber 1) = lua_return 513.
Proof. split; reflexivity. Qed.
(** A string of digits is a capacity. *)
Example digits_are_capacity : bitarray_new (fun s => if bool_decide (s = lit "12") then Some 12 else None) (fun _ => true) (AString (lit "12")) (ANumber 8) ANil =
  lua_return (mkBitarray 12 8 (replicate 12 0)).
Proof. reflexivity. Qed.
(** The iterator, called with -1, reads before the array. *)
Example iterator_before : bitarray_iter true false no_numbers bits8 (ANumber (-1)) = None.
Proof. reflexivity. Qed.
