(* ===== verification/Lpack.v ===== *)
(** * Lpack: packing Lua values into strings

    Models src/modules/lpack.c: [pack.pack] and [pack.unpack], which write and read
    numbers of the types of C and strings, as a format says. *)

From S2P Require Import Prelude LuaApi.

Definition OP_ZSTRING : Z := 122.      (* z *)
Definition OP_BSTRING : Z := 112.      (* p *)
Definition OP_WSTRING : Z := 80.       (* P *)
Definition OP_SSTRING : Z := 97.       (* a *)
Definition OP_STRING : Z := 65.        (* A *)
Definition OP_FLOAT : Z := 102.        (* f *)
Definition OP_DOUBLE : Z := 100.       (* d *)
Definition OP_NUMBER : Z := 110.       (* n *)
Definition OP_CHAR : Z := 99.          (* c *)
Definition OP_BYTE : Z := 98.          (* b *)
Definition OP_SHORT : Z := 104.        (* h *)
Definition OP_USHORT : Z := 72.        (* H *)
Definition OP_INT : Z := 105.          (* i *)
Definition OP_UINT : Z := 73.          (* I *)
Definition OP_LONG : Z := 108.         (* l *)
Definition OP_ULONG : Z := 76.         (* L *)
Definition OP_LITTLEENDIAN : Z := 60.  (* < *)
Definition OP_BIGENDIAN : Z := 62.     (* > *)
Definition OP_NATIVE : Z := 61.        (* = *)

(** An argument or a result. *)
Inductive lvalue (N : Type) := LNumber (x : N) | LString (s : list Z) | LOther.
Arguments LNumber {N} x. Arguments LString {N} s. Arguments LOther {N}.

Section Lpack.
Context {N : Type} {num : LuaNumber N}.
(** The machine: whether it stores the lowest byte first, whether [char] is
    signed, and the sizes of [long] and [size_t]. *)
Context (machine char_signed : bool) (long_size size_t_size : nat).
(** The bytes of a number as a C double and as a C float, and back. *)
Context (double_bytes float_bytes : N -> list Z) (of_double of_float : list Z -> N).
(** The strings that stand for numbers, and the conversion of numbers to strings. *)
Context (str2number : list Z -> option N) (number2str : N -> list Z).
(** The size of the buffer in which the library builds strings. *)
Context (LUAL_BUFFERSIZE : Z).

(** The error's text without the position in front. *)
Definition badcode {A} (c : Z) : option (lres A) := lua_error (lit "bad code `" ++ [c] ++ lit "'").
Definition doendian (c : Z) : bool :=
  if c =? OP_LITTLEENDIAN then negb machine else if c =? OP_BIGENDIAN then machine else false.
Definition doswap (swap : bool) (bs : list Z) : list Z := if swap then swap_bytes bs (length bs) else bs.

(** The integer types: size and sign. *)
Definition int_type (c : Z) : option (nat * bool) :=
  if c =? OP_CHAR then Some (1%nat, char_signed)
  else if c =? OP_BYTE then Some (1%nat, false)
  else if c =? OP_SHORT then Some (2%nat, true)
  else if c =? OP_USHORT then Some (2%nat, false)
  else if c =? OP_INT then Some (4%nat, true)
  else if c =? OP_UINT then Some (4%nat, false)
  else if c =? OP_LONG then Some (long_size, true)
  else if c =? OP_ULONG then Some (long_size, false)
  else None.
(** The length in front of a string. *)
Definition prefix_size (c : Z) : option nat :=
  if c =? OP_BSTRING then Some 1%nat else if c =? OP_WSTRING then Some 2%nat else if c =? OP_SSTRING then Some size_t_size else None.
Definition is_endian (c : Z) : bool := (c =? OP_LITTLEENDIAN) || (c =? OP_BIGENDIAN) || (c =? OP_NATIVE).
Definition is_filler (c : Z) : bool := (c =? 32) || (c =? 44).

(** ** The format *)

Definition isdigit (c : Z) : bool := (48 <=? c) && (c <=? 57).
(** The number that follows; an [int] that overflows is undefined. *)
Fixpoint read_count (n : Z) (f : list Z) : option (Z * list Z) :=
  match f with
  | c :: f' => if isdigit c then let n := 10 * n + c - 48 in if n <? 2 ^ 31 then read_count n f' else None else Some (n, f)
  | [] => Some (n, [])
  end.
(** How often, the rest, and whether a number is there. *)
Definition next_count (f : list Z) : option (Z * list Z * bool) :=
  match f with
  | c :: _ => if isdigit c then '(n, f) ← read_count 0 f; Some (n, f, true) else Some (1, f, false)
  | [] => Some (1, [], false)
  end.

(** ** Packing *)

Definition luaL_checklstring (a : option (lvalue N)) : option (lres (list Z)) :=
  match a with Some (LString s) => lua_return s | Some (LNumber x) => lua_return (number2str x) | _ => lua_error (lit "string expected") end.
Definition luaL_checknumber (a : option (lvalue N)) : option (lres N) :=
  let bad := lua_error (lit "number expected") in
  match a with
  | Some (LNumber x) => lua_return x
  | Some (LString s) => match str2number s with Some x => lua_return x | None => bad end
  | _ => bad
  end.
(** The argument at index [i], after [sent] bytes of the result. The buffer puts
    what it has no room for on the stack: then a missing argument is not missing,
    but a part of the result, which is not modelled. *)
Definition next_arg (sent : Z) (args : list (lvalue N)) : option (option (lvalue N)) :=
  match args with
  | a :: _ => Some (Some a)
  | [] => if LUAL_BUFFERSIZE <? sent then None else Some None
  end.
(** [(T)x]: from a floating point number that does not fit it is undefined. *)
Definition to_int (n : nat) (signed : bool) (x : N) : option Z :=
  let z := ln_to_int x in
  let fits := if signed then bool_decide (is_s (8 * Z.of_nat n) z) else bool_decide (is_u (8 * Z.of_nat n) z) in
  if ln_integral || fits then Some z else None.
(** The bytes of a number in memory, before they are swapped; [None] for a code
    that is not a number's. *)
Definition field_bytes (c : Z) (x : N) : option (option (list Z)) :=
  if c =? OP_NUMBER then Some (Some (ln_bytes x))
  else if negb ln_integral && (c =? OP_DOUBLE) then Some (Some (double_bytes x))
  else if negb ln_integral && (c =? OP_FLOAT) then Some (Some (float_bytes x))
  else '(n, signed) ← int_type c; Some (le_bytes n <$> to_int n signed x).
Definition is_number (c : Z) : bool :=
  (c =? OP_NUMBER) || (negb ln_integral && ((c =? OP_DOUBLE) || (c =? OP_FLOAT))) || (if int_type c is Some _ then true else false).

(** What one turn of the switch appends, the swapping from now on, the arguments
    that are left, and whether the count is cleared. *)
Definition pack_step (c : Z) (sent : Z) (swap : bool) (args : list (lvalue N)) : option (lres (list Z * bool * list (lvalue N) * bool)) :=
  if is_endian c then lua_return ([], doendian c, args, true)
  else if (c =? OP_STRING) || (c =? OP_ZSTRING) then
    arg ← next_arg sent args;
    let! s := luaL_checklstring arg in
    lua_return (s ++ (if c =? OP_ZSTRING then [0] else []), swap, tail args, false)
  else if prefix_size c is Some n then
    arg ← next_arg sent args;
    let! s := luaL_checklstring arg in
    lua_return (doswap swap (stored machine (le_bytes n (Z.of_nat (length s)))) ++ s, swap, tail args, false)
  else if is_number c then
    arg ← next_arg sent args;
    let! x := luaL_checknumber arg in
    bs ← field_bytes c x;
    bs ← bs;
    lua_return (doswap swap (stored machine bs), swap, tail args, false)
  else if is_filler c then lua_return ([], swap, args, false)
  else badcode c.
Fixpoint pack_times (n : nat) (c : Z) (sent : Z) (swap : bool) (args : list (lvalue N)) : option (lres (list Z * bool * list (lvalue N))) :=
  match n with
  | O => lua_return ([], swap, args)
  | S n =>
      let! (bs, swap, args, stop) := pack_step c sent swap args in
      if stop : bool then lua_return (bs, swap, args)
      else let! (bs', swap, args) := pack_times n c (sent + Z.of_nat (length bs)) swap args in lua_return (bs ++ bs', swap, args)
  end.
(** [fuel]: the length of the format. *)
Fixpoint pack_loop (fuel : nat) (f : list Z) (sent : Z) (swap : bool) (args : list (lvalue N)) : option (lres (list Z)) :=
  match f, fuel with
  | [], _ => lua_return []
  | _, O => None
  | c :: f, S fuel =>
      '(n, f, _) ← next_count f;
      let! (bs, swap, args) := pack_times (Z.to_nat n) c sent swap args in
      let! bs' := pack_loop fuel f (sent + Z.of_nat (length bs)) swap args in
      lua_return (bs ++ bs')
  end.
Definition l_pack (f : list Z) (args : list (lvalue N)) : option (lres (list Z)) :=
  let f := cstring f in pack_loop (length f) f 0 false args.

(** ** Unpacking *)

(** How many values can be returned: [LUA_MINSTACK] places on the stack, less one
    for the position and one that is a nil in the meantime; there is no check. *)
Definition MAX_VALUES : nat := 18.
Section Unpack.
Context (s : list Z).
(** [((unsigned long)i+m)>len] *)
Definition past (i m : Z) : bool := Z.of_nat (length s) <? wrap (8 * Z.of_nat long_size) (wrap (8 * Z.of_nat long_size) i + m).
(** [n] bytes at [i] of the string and the zero that ends it. *)
Definition bytes_at (i n : Z) : option (list Z) :=
  if (i <? 0) || (n <? 0) || (Z.of_nat (length s) + 1 <? i + n) then None else loads (s ++ [0]) (Z.to_nat i) (Z.to_nat n).
Definition field_value (c : Z) (bs : list Z) : option N :=
  if c =? OP_NUMBER then Some (ln_of_bytes bs)
  else if negb ln_integral && (c =? OP_DOUBLE) then Some (of_double bs)
  else if negb ln_integral && (c =? OP_FLOAT) then Some (of_float bs)
  else '(n, signed) ← int_type c; Some (ln_of_int (if signed : bool then swrap (8 * Z.of_nat n) (le_value bs) else le_value bs)).
Definition field_size (c : Z) : option nat :=
  if c =? OP_NUMBER then Some ln_size
  else if negb ln_integral && (c =? OP_DOUBLE) then Some 8%nat
  else if negb ln_integral && (c =? OP_FLOAT) then Some 4%nat
  else fst <$> int_type c.
(** The state: position, swapping, and the values so far. *)
Record ustate := mkU { pos : Z; swapping : bool; vals : list (lvalue N) }.
Definition upush (u : ustate) (v : lvalue N) (i : Z) : option ustate :=
  if (length (vals u) <? MAX_VALUES)%nat then Some (mkU i (swapping u) (vals u ++ [v])) else None.
(** How a turn of the switch ends: at [done], with the count cleared, or not. *)
Inductive step_end := Done | Last (u : ustate) | Next (u : ustate).
(** [n]: the count that is left, this turn included. *)
Definition unpack_step (c n : Z) (u : ustate) : option (lres step_end) :=
  let i := pos u in
  if is_endian c then lua_return (Last (mkU i (doendian c) (vals u)))
  else if c =? OP_STRING then
    if past i n then lua_return Done
    else bs ← bytes_at i n; u ← upush u (LString bs) (i + n); lua_return (Last u)
  else if c =? OP_ZSTRING then
    if Z.of_nat (length s) <=? wrap (8 * Z.of_nat long_size) i then lua_return Done
    else
      rest ← bytes_at i (Z.of_nat (length s) - i);
      let str := cstring rest in
      u ← upush u (LString str) (i + strlen str + 1); lua_return (Next u)
  else if prefix_size c is Some m then
    let m := Z.of_nat m in
    if past i m then lua_return Done
    else
      bs ← bytes_at i m;
      let l := le_value (stored machine (doswap (swapping u) bs)) in
      if past i (m + l) then lua_return Done
      else str ← bytes_at (i + m) l; u ← upush u (LString str) (i + m + l); lua_return (Next u)
  else if field_size c is Some m then
    let m := Z.of_nat m in
    if past i m then lua_return Done
    else
      bs ← bytes_at i m;
      x ← field_value c (stored machine (doswap (swapping u) bs));
      u ← upush u (LNumber x) (i + m); lua_return (Next u)
  else if is_filler c then lua_return (Next u)
  else badcode c.
(** The state, and whether it is [done]. *)
Fixpoint unpack_times (n : nat) (c : Z) (u : ustate) : option (lres (ustate * bool)) :=
  match n with
  | O => lua_return (u, false)
  | S n' =>
      let! t := unpack_step c (Z.of_nat n) u in
      match t with
      | Done => lua_return (u, true)
      | Last u => lua_return (u, false)
      | Next u => unpack_times n' c u
      end
  end.
Fixpoint unpack_loop (fuel : nat) (f : list Z) (u : ustate) : option (lres ustate) :=
  match f, fuel with
  | [], _ => lua_return u
  | _, O => None
  | c :: f, S fuel =>
      '(n, f, given) ← next_count f;
      u ← (if (given : bool) && (n =? 0) && (c =? OP_STRING) then upush u (LString []) (pos u) else Some u);
      let! (u, finished) := unpack_times (Z.to_nat n) c u in
      if finished : bool then lua_return u else unpack_loop fuel f u
  end.
(** The next position and the values. *)
Definition l_unpack (f : list Z) (init : Z) : option (lres (Z * list (lvalue N))) :=
  let f := cstring f in
  let! u := unpack_loop (length f) f (mkU (init - 1) false []) in
  lua_return (pos u + 1, vals u).
End Unpack.
End Lpack.

(** ** Formats and what they describe *)

Lemma read_count_digits ds : forall n rest, Forall is_digit ds -> 0 <= n -> foldl (fun v d => 10 * v + (d - 48)) n ds < 2 ^ 31 ->
  (forall c f, rest = c :: f -> isdigit c = false) ->
  read_count n (ds ++ rest) = Some (foldl (fun v d => 10 * v + (d - 48)) n ds, rest).
Proof.
  assert (Hge : forall ds n, Forall is_digit ds -> 0 <= n -> n <= foldl (fun v d => 10 * v + (d - 48)) n ds).
  { clear. induction ds as [|d ds IH]; intros n Hd Hn; cbn [foldl]; [lia|]. apply Forall_cons in Hd as [Hd Hds]. unfold is_digit in Hd.
    pose proof (IH (10 * n + (d - 48)) Hds). lia. }
  induction ds as [|d ds IH]; intros n rest Hd Hn Hv Hr; cbn [app foldl read_count] in *.
  - destruct rest as [|c f]; cbn [read_count]; [done|]. by rewrite (Hr c f).
  - apply Forall_cons in Hd as [Hd Hds]. unfold is_digit in Hd. assert (isdigit d = true) as -> by (unfold isdigit; lia).
    cbv zeta. replace (10 * n + d - 48) with (10 * n + (d - 48)) by lia. pose proof (Hge ds (10 * n + (d - 48)) Hds).
    rewrite (proj2 (Z.ltb_lt _ _)) by lia. apply IH; [done|lia|done|done].
Qed.
(** A code and its count, which is left out if it is one. *)
Definition counted (c : Z) (k : nat) : list Z := c :: (if (k =? 1)%nat then [] else decimal (Z.of_nat k)).
Definition no_digit (f : list Z) : Prop := match f with [] => True | c :: _ => isdigit c = false end.
Lemma next_counted k rest : Z.of_nat k < 2 ^ 31 -> no_digit rest ->
  next_count ((if (k =? 1)%nat then [] else decimal (Z.of_nat k)) ++ rest) = Some (Z.of_nat k, rest, negb (k =? 1)%nat).
Proof.
  intros Hk Hr. destruct (Nat.eqb_spec k 1) as [->|Hk1]; cbn [app negb].
  - destruct rest as [|c f]; cbn [next_count no_digit] in *; [done|]. by rewrite Hr.
  - destruct (decimal_ok (Z.of_nat k)) as (Hv & Hd & Hne); [lia|]. unfold dec_value in Hv.
    destruct (decimal (Z.of_nat k)) as [|d ds] eqn:E; [done|]. pose proof (Forall_inv Hd) as Hd0. unfold is_digit in Hd0.
    cbn [app next_count]. assert (isdigit d = true) as -> by (unfold isdigit; lia). change (d :: ds ++ rest) with ((d :: ds) ++ rest).
    rewrite read_count_digits; [by rewrite Hv|done|lia|by rewrite Hv|]. intros c f ->. done.
Qed.

Section Spec.
Context {N : Type} {num : LuaNumber N} (machine char_signed : bool) (long_size size_t_size : nat).
Context (double_bytes float_bytes : N -> list Z) (of_double of_float : list Z -> N).
Context (str2number : list Z -> option N) (number2str : N -> list Z) (LUAL_BUFFERSIZE : Z).
Abbreviation field_bytes := (field_bytes char_signed long_size double_bytes float_bytes).
Abbreviation field_value := (field_value char_signed long_size of_double of_float).
Abbreviation field_size := (field_size (N := N) char_signed long_size).
Abbreviation l_pack := (l_pack machine char_signed long_size size_t_size double_bytes float_bytes str2number number2str LUAL_BUFFERSIZE).
Abbreviation l_unpack := (l_unpack machine char_signed long_size size_t_size of_double of_float).

(** A part of a format with what it packs. *)
Inductive group :=
  | GEndian (c : Z)
  | GBlank (c : Z)
  | GNumbers (c : Z) (xs : list N)
  | GStrings (c : Z) (ss : list (list Z)).
(** Its format. ([A] is not among them: its count is a number of strings when
    packing, and the length of one when unpacking.) *)
Definition group_format (g : group) : list Z :=
  match g with GEndian c => [c] | GBlank c => [c] | GNumbers c xs => counted c (length xs) | GStrings c ss => counted c (length ss) end.
Definition group_values (g : group) : list (lvalue N) :=
  match g with GNumbers _ xs => map LNumber xs | GStrings _ ss => map LString ss | _ => [] end.
(** The byte order from here on, whether it is little endian; the bytes. *)
Definition little_after (little : bool) (g : group) : bool :=
  match g with GEndian c => if c =? OP_LITTLEENDIAN then true else if c =? OP_BIGENDIAN then false else machine | _ => little end.
Definition number_field (little : bool) (c : Z) (x : N) : list Z :=
  match field_bytes c x with Some (Some bs) => stored little bs | _ => [] end.
Definition string_field (little : bool) (c : Z) (s : list Z) : list Z :=
  match prefix_size size_t_size c with
  | Some n => stored little (le_bytes n (Z.of_nat (length s))) ++ s
  | None => s ++ [0]
  end.
Definition group_bytes (little : bool) (g : group) : list Z :=
  match g with
  | GNumbers c xs => flat_map (number_field little c) xs
  | GStrings c ss => flat_map (string_field little c) ss
  | _ => []
  end.
Fixpoint packed (little : bool) (gs : list group) : list Z :=
  match gs with [] => [] | g :: gs => group_bytes little g ++ packed (little_after little g) gs end.

(** A number that the type [c] can hold; a string that ends where it should. *)
Definition held (c : Z) (x : N) : Prop := exists bs, field_bytes c x = Some (Some bs) /\ field_size c = Some (length bs) /\ field_value c bs = Some x.
Definition string_fits (c : Z) (s : list Z) : Prop :=
  match prefix_size size_t_size c with Some n => Z.of_nat (length s) < 2 ^ (8 * Z.of_nat n) | None => Forall (fun x => x <> 0) s end.
Definition number_codes : list Z := [OP_NUMBER; OP_DOUBLE; OP_FLOAT; OP_CHAR; OP_BYTE; OP_SHORT; OP_USHORT; OP_INT; OP_UINT; OP_LONG; OP_ULONG].
Definition group_ok (g : group) : Prop :=
  match g with
  | GEndian c => In c [OP_LITTLEENDIAN; OP_BIGENDIAN; OP_NATIVE]
  | GBlank c => In c [32; 44]
  | GNumbers c xs => In c number_codes /\ Forall (held c) xs
  | GStrings c ss => In c [OP_ZSTRING; OP_BSTRING; OP_WSTRING; OP_SSTRING] /\ Forall (string_fits c) ss
  end.

Lemma doswap_stored swap little bs : doswap swap (stored little bs) = stored (xorb little swap) bs.
Proof. unfold doswap, stored. destruct swap, little; cbn [xorb]; rewrite ?swap_bytes_reverse, ?reverse_involutive; done. Qed.
Lemma stored_doswap swap little bs : stored little (doswap swap (stored (xorb little swap) bs)) = bs.
Proof. unfold doswap, stored. destruct swap, little; cbn [xorb]; rewrite ?swap_bytes_reverse, ?reverse_involutive; done. Qed.
Lemma number_code_facts c x : In c number_codes -> held c x -> is_endian c = false /\ (c =? OP_STRING) || (c =? OP_ZSTRING) = false /\
  (c =? OP_STRING) = false /\ (c =? OP_ZSTRING) = false /\ prefix_size size_t_size c = None /\ is_number (N := N) char_signed long_size c = true.
Proof.
  intros Hc (bs & Hb & _). repeat split; try (by repeat destruct Hc as [<-|Hc]).
  unfold is_number. unfold field_bytes in Hb.
  repeat destruct Hc as [<-|Hc]; try done; cbn [Z.eqb Pos.eqb OP_NUMBER OP_DOUBLE OP_FLOAT orb andb negb] in *; by destruct ln_integral.
Qed.

(** *** Packing *)

Abbreviation pack_times := (pack_times machine char_signed long_size size_t_size double_bytes float_bytes str2number number2str LUAL_BUFFERSIZE).
Abbreviation pack_loop := (pack_loop machine char_signed long_size size_t_size double_bytes float_bytes str2number number2str LUAL_BUFFERSIZE).
Lemma pack_numbers c xs sent swap args : In c number_codes -> Forall (held c) xs ->
  pack_times (length xs) c sent swap (map LNumber xs ++ args) = lua_return (flat_map (number_field (xorb machine swap) c) xs, swap, args).
Proof.
  intros Hc Hxs. revert sent. induction Hxs as [|x xs Hx _ IH]; intros sent; [done|]. cbn [length map app pack_times flat_map].
  destruct (number_code_facts c x Hc Hx) as (E1 & E2 & _ & _ & E3 & E4). destruct Hx as (bs & Hb & _).
  unfold pack_step. rewrite E1, E2, E3, E4. cbn [next_arg mbind option_bind luaL_checknumber lua_bind lua_return tail]. unfold number_field at 1. rewrite Hb.
  cbn [mbind option_bind lua_bind lua_return]. rewrite IH. cbn [lua_bind lua_return]. by rewrite doswap_stored.
Qed.
Lemma pack_strings c ss sent swap args : In c [OP_ZSTRING; OP_BSTRING; OP_WSTRING; OP_SSTRING] ->
  pack_times (length ss) c sent swap (map LString ss ++ args) = lua_return (flat_map (string_field (xorb machine swap) c) ss, swap, args).
Proof.
  intros Hc. revert sent. induction ss as [|x ss IH]; intros sent; [done|]. cbn [length map app pack_times flat_map].
  assert (Hstep : pack_step machine char_signed long_size size_t_size double_bytes float_bytes str2number number2str LUAL_BUFFERSIZE c sent swap
      (LString x :: map LString ss ++ args) = lua_return (string_field (xorb machine swap) c x, swap, map LString ss ++ args, false)).
  { unfold pack_step, string_field. repeat destruct Hc as [<-|Hc]; try done; cbn -[doswap stored le_bytes]; by rewrite ?doswap_stored. }
  rewrite Hstep. cbn [lua_bind lua_return]. by rewrite IH.
Qed.
Definition group_count (g : group) : nat :=
  match g with GNumbers _ xs => length xs | GStrings _ ss => length ss | _ => 1 end.
Lemma code_no_digit c : In c ([OP_LITTLEENDIAN; OP_BIGENDIAN; OP_NATIVE; 32; 44; OP_ZSTRING; OP_BSTRING; OP_WSTRING; OP_SSTRING] ++ number_codes) ->
  isdigit c = false /\ c <> 0.
Proof. intros Hc. repeat destruct Hc as [<-|Hc]; done. Qed.
Definition group_code (g : group) : Z :=
  match g with GEndian c => c | GBlank c => c | GNumbers c _ => c | GStrings c _ => c end.
Lemma group_code_ok g : group_ok g -> isdigit (group_code g) = false /\ group_code g <> 0.
Proof.
  destruct g as [c|c|c xs|c ss]; cbn [group_ok group_code]; intros H; apply code_no_digit, in_or_app.
  - left. cbn in *. tauto.
  - left. cbn in *. tauto.
  - right. apply H.
  - left. destruct H as [H _]. cbn in *. tauto.
Qed.
Lemma group_format_counted g : group_format g = counted (group_code g) (group_count g).
Proof. by destruct g. Qed.
Lemma formats_no_digit gs : Forall group_ok gs -> no_digit (flat_map group_format gs).
Proof.
  intros Hg. destruct Hg as [|g gs Hg _]; [done|]. cbn [flat_map]. rewrite group_format_counted. unfold counted. cbn [app no_digit]. by apply group_code_ok.
Qed.
Lemma formats_cstring gs : Forall group_ok gs -> Forall (fun g => Z.of_nat (group_count g) < 2 ^ 31) gs ->
  cstring (flat_map group_format gs) = flat_map group_format gs.
Proof.
  intros Hg Hk. apply cstring_plain. induction Hg as [|g gs Hg _ IH]; [constructor|]. apply Forall_cons in Hk as [Hk Hks].
  cbn [flat_map]. apply Forall_app. split; [|by apply IH].
  rewrite group_format_counted. unfold counted. apply Forall_cons. split; [by apply group_code_ok|]. destruct (group_count g =? 1)%nat; [constructor|].
  eapply Forall_impl; [apply (decimal_ok (Z.of_nat (group_count g))); lia|]. intros d Hd. unfold is_digit in Hd. lia.
Qed.
Lemma xorb_doendian c : In c [OP_LITTLEENDIAN; OP_BIGENDIAN; OP_NATIVE] ->
  xorb machine (doendian machine c) = (if c =? OP_LITTLEENDIAN then true else if c =? OP_BIGENDIAN then false else machine).
Proof. intros Hc. repeat destruct Hc as [<-|Hc]; try done; by destruct machine. Qed.
Lemma pack_group g sent swap args : group_ok g -> exists swap', xorb machine swap' = little_after (xorb machine swap) g /\
  pack_times (group_count g) (group_code g) sent swap (group_values g ++ args) = lua_return (group_bytes (xorb machine swap) g, swap', args).
Proof.
  destruct g as [c|c|c xs|c ss]; cbn [group_ok group_code group_count group_count group_values group_bytes little_after]; intros Hg.
  - exists (doendian machine c). split; [by apply xorb_doendian|]. by repeat destruct Hg as [<-|Hg].
  - exists swap. split; [done|]. repeat destruct Hg as [<-|Hg]; try done; cbn; unfold is_number; cbn; by destruct ln_integral.
  - exists swap. split; [done|]. destruct Hg; by apply pack_numbers.
  - exists swap. split; [done|]. destruct Hg; by apply pack_strings.
Qed.
Lemma pack_groups gs : Forall group_ok gs -> Forall (fun g => Z.of_nat (group_count g) < 2 ^ 31) gs -> forall fuel sent swap,
  (length (flat_map group_format gs) <= fuel)%nat ->
  pack_loop fuel (flat_map group_format gs) sent swap (flat_map group_values gs) = lua_return (packed (xorb machine swap) gs).
Proof.
  intros Hg Hk. induction Hg as [|g gs Hg Hgs IH]; intros fuel sent swap Hf; [by destruct fuel|]. apply Forall_cons in Hk as [Hk Hks].
  cbn [flat_map packed] in *. rewrite length_app in Hf. rewrite group_format_counted in *. unfold counted in *. cbn [app length] in *.
  destruct fuel as [|fuel]; [lia|]. cbn [pack_loop].
  rewrite next_counted; [|done|by apply formats_no_digit]. cbn [mbind option_bind].
  rewrite Nat2Z.id. destruct (pack_group g sent swap (flat_map group_values gs) Hg) as (swap' & <- & ->). cbn [lua_bind lua_return].
  rewrite IH by (done || lia). done.
Qed.

(** *** Unpacking *)

Context (Hlong : (4 <= long_size)%nat).
Abbreviation unpack_step := (unpack_step machine char_signed long_size size_t_size of_double of_float).
Abbreviation unpack_times := (unpack_times machine char_signed long_size size_t_size of_double of_float).
Abbreviation unpack_loop := (unpack_loop machine char_signed long_size size_t_size of_double of_float).
Implicit Types pre bs post : list Z.

Lemma long_small x : 0 <= x < 2 ^ 32 -> wrap (8 * Z.of_nat long_size) x = x.
Proof.
  intros Hx. apply wrap_small. unfold is_u. pose proof (Z.pow_le_mono_r 2 32 (8 * Z.of_nat long_size) ltac:(lia) ltac:(lia)). lia.
Qed.
Lemma past_inside s i m : 0 <= i -> 0 <= m -> i + m <= Z.of_nat (length s) -> Z.of_nat (length s) < 2 ^ 31 -> past long_size s i m = false.
Proof. intros Hi Hm Hs Hl. unfold past. rewrite !long_small by (rewrite ?long_small; lia). by apply Z.ltb_ge. Qed.
Lemma bytes_at_here pre bs post n : n = Z.of_nat (length bs) -> bytes_at (pre ++ bs ++ post) (Z.of_nat (length pre)) n = Some bs.
Proof.
  intros ->. unfold bytes_at. rewrite !length_app.
  assert ((Z.of_nat (length pre) <? 0) || (Z.of_nat (length bs) <? 0) ||
    (Z.of_nat (length pre + (length bs + length post)) + 1 <? Z.of_nat (length pre) + Z.of_nat (length bs)) = false) as ->
    by (rewrite !orb_false_iff, !Z.ltb_ge; lia).
  rewrite !Nat2Z.id. unfold loads. rewrite decide_True by (rewrite !length_app; cbn; lia).
  rewrite <- !app_assoc, drop_app_length, take_app_length. done.
Qed.
Lemma upush_some (u : ustate (N := N)) v i : (length (vals u) < MAX_VALUES)%nat -> upush u v i = Some (mkU i (swapping u) (vals u ++ [v])).
Proof. intros H. unfold upush. by rewrite (proj2 (Nat.ltb_lt _ _)). Qed.
(** Where the unpacking is, before [bs]. *)
Definition at_pos pre (swap : bool) (vs : list (lvalue N)) : ustate (N := N) := mkU (Z.of_nat (length pre)) swap vs.
Definition short (s : list Z) : Prop := Z.of_nat (length s) < 2 ^ 31.

Lemma unpack_number c x n pre post swap vs : In c number_codes -> held c x -> short (pre ++ number_field (xorb machine swap) c x ++ post) ->
  (length vs < MAX_VALUES)%nat ->
  unpack_step (pre ++ number_field (xorb machine swap) c x ++ post) c n (at_pos pre swap vs) =
    lua_return (Next (at_pos (pre ++ number_field (xorb machine swap) c x) swap (vs ++ [LNumber x]))).
Proof.
  intros Hc Hx Hs Hv. destruct (number_code_facts c x Hc Hx) as (E1 & _ & E2 & E2' & E3 & E4). destruct Hx as (bs & Hb & Hz & Hval).
  unfold number_field in *. rewrite Hb in *. set (f := stored (xorb machine swap) bs) in *.
  assert (Hlf : length f = length bs) by apply stored_length.
  unfold Lpack.unpack_step. cbn [at_pos pos swapping vals]. rewrite E1, E2, E2', E3, Hz.
  rewrite past_inside; [|lia|lia|rewrite !length_app; lia|done]. rewrite bytes_at_here by (by rewrite Hlf).
  cbn [mbind option_bind]. unfold f at 1. rewrite stored_doswap, Hval. cbn [mbind option_bind]. rewrite upush_some by done. cbn [mbind option_bind].
  unfold at_pos. rewrite length_app, Hlf, Nat2Z.inj_add. done.
Qed.
Lemma unpack_string c x n pre post swap vs : In c [OP_ZSTRING; OP_BSTRING; OP_WSTRING; OP_SSTRING] -> string_fits c x ->
  short (pre ++ string_field (xorb machine swap) c x ++ post) -> (length vs < MAX_VALUES)%nat ->
  unpack_step (pre ++ string_field (xorb machine swap) c x ++ post) c n (at_pos pre swap vs) =
    lua_return (Next (at_pos (pre ++ string_field (xorb machine swap) c x) swap (vs ++ [LString x]))).
Proof.
  intros Hc Hx Hs Hv. unfold Lpack.unpack_step. cbn [at_pos pos swapping vals].
  assert (is_endian c = false /\ (c =? OP_STRING) = false) as [-> ->] by (by repeat destruct Hc as [<-|Hc]).
  destruct (prefix_size size_t_size c) as [m|] eqn:Ep.
  - assert ((c =? OP_ZSTRING) = false) as -> by (by repeat destruct Hc as [<-|Hc]).
    unfold string_field, string_fits in *. rewrite Ep in *. set (f := stored (xorb machine swap) (le_bytes m (Z.of_nat (length x)))) in *.
    assert (Hlf : length f = m) by (unfold f; by rewrite stored_length, le_bytes_length).
    assert (Hl : le_value (stored machine (doswap swap f)) = Z.of_nat (length x)).
    { unfold f. rewrite stored_doswap, le_value_bytes. apply wrap_small. unfold is_u. lia. }
    unfold short in Hs. rewrite !length_app in Hs.
    rewrite past_inside; [|lia|lia|rewrite !length_app; lia|rewrite !length_app; lia].
    rewrite <- (app_assoc f x post). rewrite bytes_at_here by (by rewrite Hlf). cbn [mbind option_bind]. rewrite Hl.
    rewrite past_inside; [|lia|lia|rewrite !length_app; lia|rewrite !length_app; lia].
    replace (Z.of_nat (length pre) + Z.of_nat m) with (Z.of_nat (length (pre ++ f))) by (rewrite length_app, Hlf; lia).
    rewrite (app_assoc pre f (x ++ post)). rewrite bytes_at_here by done. cbn [mbind option_bind]. rewrite upush_some by done.
    cbn [mbind option_bind]. unfold at_pos. rewrite !length_app. do 3 f_equal. f_equal. lia.
  - assert (c = OP_ZSTRING) as -> by (by repeat destruct Hc as [<-|Hc]). rewrite Z.eqb_refl.
    unfold string_field, string_fits in *. rewrite Ep in *. unfold short in Hs. rewrite !length_app in Hs. cbn [length] in Hs.
    rewrite long_small by lia. rewrite (proj2 (Z.leb_gt _ _)) by (rewrite !length_app; cbn [length]; lia).
    replace (pre ++ (x ++ [0]) ++ post) with (pre ++ ((x ++ [0]) ++ post) ++ []) at 1 by (by rewrite app_nil_r).
    rewrite bytes_at_here by (rewrite !length_app; cbn [length]; lia). cbn [mbind option_bind].
    assert (cstring ((x ++ [0]) ++ post) = x) as ->.
    { unfold cstring. enough (str_scan ((x ++ [0]) ++ post) = Some x) as -> by done. clear -Hx.
      induction Hx as [|ch x Hc _ IH]; [done|]. cbn [app str_scan]. by rewrite decide_False, IH. }
    rewrite upush_some by done. cbn [mbind option_bind]. unfold at_pos, strlen. rewrite !length_app. cbn [length]. do 3 f_equal. f_equal. lia.
Qed.

(** A field by field reading of [fs], one value for each. *)
Lemma unpack_fields {A} (field : A -> list Z) (value : A -> lvalue N) c swap xs :
  (forall x n pre post vs, In x xs -> short (pre ++ field x ++ post) -> (length vs < MAX_VALUES)%nat ->
    unpack_step (pre ++ field x ++ post) c n (at_pos pre swap vs) = lua_return (Next (at_pos (pre ++ field x) swap (vs ++ [value x])))) ->
  forall pre post vs, short (pre ++ flat_map field xs ++ post) -> (length vs + length xs <= MAX_VALUES)%nat ->
  unpack_times (pre ++ flat_map field xs ++ post) (length xs) c (at_pos pre swap vs) =
    lua_return (at_pos (pre ++ flat_map field xs) swap (vs ++ map value xs), false).
Proof.
  induction xs as [|x xs IH]; intros Hstep pre post vs Hs Hv; cbn [flat_map map length app].
  - cbn [Lpack.unpack_times]. by rewrite !app_nil_r.
  - cbn [flat_map length] in *. cbn [Lpack.unpack_times]. rewrite <- (app_assoc (field x)). rewrite <- (app_assoc (field x)) in Hs.
    rewrite Hstep by (done || lia || by left). cbn [lua_bind lua_return].
    rewrite (app_assoc pre (field x)) in Hs |- *. rewrite IH; [|intros; apply Hstep; [by right|done|done]|done|rewrite length_app; cbn [length]; lia].
    by rewrite <- !app_assoc.
Qed.
Lemma unpack_group g pre post swap vs : group_ok g -> short (pre ++ group_bytes (xorb machine swap) g ++ post) ->
  (length vs + length (group_values g) <= MAX_VALUES)%nat ->
  exists swap' u, xorb machine swap' = little_after (xorb machine swap) g /\
  (if negb (group_count g =? 1)%nat && (Z.of_nat (group_count g) =? 0) && (group_code g =? OP_STRING)
   then upush (at_pos pre swap vs) (LString []) (Z.of_nat (length pre)) else Some (at_pos pre swap vs)) = Some u /\
  unpack_times (pre ++ group_bytes (xorb machine swap) g ++ post) (group_count g) (group_code g) u =
    lua_return (at_pos (pre ++ group_bytes (xorb machine swap) g) swap' (vs ++ group_values g), false).
Proof.
  destruct g as [c|c|c xs|c ss]; cbn [group_ok group_code group_count group_values group_bytes little_after]; intros Hg Hs Hv;
    rewrite ?length_map in Hv.
  - exists (doendian machine c), (at_pos pre swap vs). split; [by apply xorb_doendian|]. split; [done|]. rewrite !app_nil_r.
    by repeat destruct Hg as [<-|Hg].
  - exists swap, (at_pos pre swap vs). split; [done|]. split; [done|]. rewrite !app_nil_r.
    repeat destruct Hg as [<-|Hg]; try done; cbn; by destruct ln_integral.
  - exists swap, (at_pos pre swap vs). split; [done|]. destruct Hg as [Hc Hx]. rewrite List.Forall_forall in Hx.
    assert ((c =? OP_STRING) = false) as -> by (by repeat destruct Hc as [<-|Hc]). rewrite andb_false_r. split; [done|].
    apply unpack_fields; [|done|done]. intros x n pre' post' vs' Hin Hs' Hv'. by apply unpack_number; [|apply Hx|..].
  - exists swap, (at_pos pre swap vs). split; [done|]. destruct Hg as [Hc Hx]. rewrite List.Forall_forall in Hx.
    assert ((c =? OP_STRING) = false) as -> by (by repeat destruct Hc as [<-|Hc]). rewrite andb_false_r. split; [done|].
    apply unpack_fields; [|done|done]. intros x n pre' post' vs' Hin Hs' Hv'. by apply unpack_string; [|apply Hx|..].
Qed.
Lemma unpack_groups gs : Forall group_ok gs -> Forall (fun g => Z.of_nat (group_count g) < 2 ^ 31) gs -> forall fuel swap pre post vs,
  (length (flat_map group_format gs) <= fuel)%nat -> short (pre ++ packed (xorb machine swap) gs ++ post) ->
  (length vs + length (flat_map group_values gs) <= MAX_VALUES)%nat ->
  exists swap', unpack_loop (pre ++ packed (xorb machine swap) gs ++ post) fuel (flat_map group_format gs) (at_pos pre swap vs) =
    lua_return (at_pos (pre ++ packed (xorb machine swap) gs) swap' (vs ++ flat_map group_values gs)).
Proof.
  intros Hg Hk. induction Hg as [|g gs Hg Hgs IH]; intros fuel swap pre post vs Hf Hs Hv.
  { exists swap. cbn [packed flat_map app]. destruct fuel; cbn [Lpack.unpack_loop]; by rewrite !app_nil_r. }
  apply Forall_cons in Hk as [Hk Hks]. cbn [flat_map packed] in *. rewrite !length_app in *.
  rewrite <- (app_assoc (group_bytes _ _)) in *.
  destruct (unpack_group g pre (packed (little_after (xorb machine swap) g) gs ++ post) swap vs Hg Hs ltac:(lia)) as (swap' & u & Hsw & Hpre & Hu).
  rewrite <- Hsw in *. rewrite (app_assoc pre) in Hs.
  destruct (IH Hks (pred fuel) swap' (pre ++ group_bytes (xorb machine swap) g) post (vs ++ group_values g)) as (swap2 & Hl).
  { rewrite group_format_counted in Hf. cbn [counted length] in Hf. lia. }
  { done. }
  { rewrite length_app. lia. }
  exists swap2. rewrite group_format_counted in *. unfold counted in *. cbn [app length] in *. destruct fuel as [|fuel]; [lia|].
  cbn [Lpack.unpack_loop]. rewrite next_counted; [|done|by apply formats_no_digit]. cbn [mbind option_bind].
  rewrite Nat2Z.id. change (pos (at_pos pre swap vs)) with (Z.of_nat (length pre)). rewrite Hpre. cbn [mbind option_bind].
  rewrite Hu. cbn [lua_bind lua_return]. cbn [pred] in Hl. rewrite <- (app_assoc pre) in Hl. rewrite Hl. by rewrite <- !app_assoc.
Qed.

(** An integer that fits its type and the numbers of Lua. *)
Lemma held_int c n signed x : int_type char_signed long_size c = Some (n, signed) -> In c number_codes ->
  ((if signed then is_s else is_u) (8 * Z.of_nat n) (ln_to_int x)) -> (0 < n)%nat -> ln_of_int (ln_to_int x) = x -> held c x.
Proof.
  clear Hlong. intros Ht Hc Hf Hn Hx. exists (le_bytes n (ln_to_int x)). rewrite le_bytes_length.
  assert (Hto : to_int n signed x = Some (ln_to_int x)).
  { unfold to_int. destruct signed; rewrite bool_decide_eq_true_2 by done; by rewrite orb_true_r. }
  assert (Hv : ln_of_int (if signed then swrap (8 * Z.of_nat n) (le_value (le_bytes n (ln_to_int x))) else le_value (le_bytes n (ln_to_int x))) = x).
  { rewrite le_value_bytes. destruct signed; [rewrite swrap_wrap, swrap_small by (done || lia)|rewrite wrap_small by done]; done. }
  assert (Hcodes : (c =? OP_NUMBER) = false /\ (c =? OP_DOUBLE) = false /\ (c =? OP_FLOAT) = false) by (by repeat destruct Hc as [<-|Hc]).
  destruct Hcodes as (E1 & E2 & E3). unfold Lpack.field_bytes, Lpack.field_size, Lpack.field_value. rewrite E1, E2, E3, Ht, andb_false_r.
  cbn [mbind option_bind fmap option_fmap option_map fst]. by rewrite Hto, Hv.
Qed.

(** C16: what is packed is unpacked by the same format: one with numbers of any
    type, strings that end with a zero or come after their length, repetitions and
    changes of the byte order, which last until the next (not [A], whose count the
    two functions understand differently: [count_of_strings]), applied to at most 18
    values - Lua's stack has room for no more - that its types can hold. Packing gives
    the fields one after the other in the order asked for; unpacking at that place of
    any string of less than 2^31 bytes that contains them gives the same values and
    the position after them. A long of the machine has at least four bytes. *)
Theorem lpack_roundtrip gs pre post : Forall group_ok gs -> Forall (fun g => Z.of_nat (group_count g) < 2 ^ 31) gs ->
  (length (flat_map group_values gs) <= MAX_VALUES)%nat -> short (pre ++ packed machine gs ++ post) ->
  l_pack (flat_map group_format gs) (flat_map group_values gs) = lua_return (packed machine gs) /\
  l_unpack (pre ++ packed machine gs ++ post) (flat_map group_format gs) (Z.of_nat (length pre) + 1) =
    lua_return (Z.of_nat (length pre) + Z.of_nat (length (packed machine gs)) + 1, flat_map group_values gs).
Proof.
  intros Hg Hk Hv Hs. assert (Hx : xorb machine false = machine) by apply xorb_false_r. split.
  - unfold Lpack.l_pack. rewrite formats_cstring by done. cbv zeta. rewrite pack_groups by done. by rewrite Hx.
  - unfold Lpack.l_unpack. rewrite formats_cstring by done. cbv zeta.
    replace (Z.of_nat (length pre) + 1 - 1) with (Z.of_nat (length pre)) by lia.
    destruct (unpack_groups gs Hg Hk (length (flat_map group_format gs)) false pre post []) as (swap' & Hu); [lia|by rewrite Hx|done|].
    rewrite Hx in Hu. unfold at_pos in Hu. rewrite Hu. cbn [lua_bind lua_return pos vals app]. rewrite length_app, Nat2Z.inj_add. done.
Qed.
End Spec.

(** ** Concrete formats *)

(** A little endian machine with 32-bit integers. *)
Abbreviation pack32 := (l_pack (N := Z) true true 4 4 (fun _ => []) (fun _ => []) (fun _ => None) (fun _ => []) 1024).
Abbreviation unpack32 := (l_unpack (N := Z) true true 4 4 (fun _ => 0) (fun _ => 0)).
Definition some_groups : list (group (N := Z)) :=
  [GEndian OP_BIGENDIAN; GNumbers OP_SHORT [-2; 300]; GBlank 32; GStrings OP_BSTRING [lit "eLua"]; GEndian OP_LITTLEENDIAN;
   GNumbers OP_NUMBER [65537]; GStrings OP_ZSTRING [lit "a"; []]].
Lemma some_groups_ok : Forall (group_ok true 4 4 (fun _ => []) (fun _ => []) (fun _ => 0) (fun _ => 0)) some_groups.
Proof.
  assert (Hh : forall x, is_s 16 x -> held true 4 (fun _ => []) (fun _ => []) (fun _ => 0) (fun _ => 0) OP_SHORT x).
  { intros x Hx. apply (held_int true 4 _ _ _ _ OP_SHORT 2 true); [done|cbn; tauto|done|lia|]. cbn. apply swrap_small; [|lia].
    unfold is_s in *. change (2 ^ (16 - 1)) with 32768 in Hx. change (2 ^ (32 - 1)) with 2147483648. lia. }
  assert (Hn : held true 4 (fun _ => []) (fun _ => []) (fun _ => 0) (fun _ => 0) OP_NUMBER 65537) by (by exists [1; 0; 1; 0]).
  apply Forall_cons. split; [cbn; tauto|]. apply Forall_cons. split.
  { split; [cbn; tauto|]. apply Forall_cons. split; [apply Hh; by_decide|]. apply Forall_singleton, Hh. by_decide. }
  apply Forall_cons. split; [cbn; tauto|]. apply Forall_cons. split; [split; [cbn; tauto|by apply Forall_singleton]|].
  apply Forall_cons. split; [cbn; tauto|]. apply Forall_cons. split; [split; [cbn; tauto|by apply Forall_singleton]|].
  apply Forall_singleton. split; [cbn; tauto|].
  apply Forall_cons. split; [apply Forall_singleton; done|]. apply Forall_singleton. apply Forall_nil_2.
Qed.
Lemma lpack_roundtrip_witness :
  pack32 (lit ">h2 p<nz2") [LNumber (-2); LNumber 300; LString (lit "eLua"); LNumber 65537; LString (lit "a"); LString []] =
    lua_return ([255; 254; 1; 44; 4] ++ lit "eLua" ++ [1; 0; 1; 0] ++ [97; 0; 0]) /\
  unpack32 ([7; 7] ++ [255; 254; 1; 44; 4] ++ lit "eLua" ++ [1; 0; 1; 0] ++ [97; 0; 0]) (lit ">h2 p<nz2") 3 =
    lua_return (19, [LNumber (-2); LNumber 300; LString (lit "eLua"); LNumber 65537; LString (lit "a"); LString []]).
Proof.
  apply (lpack_roundtrip true true 4 4 (fun _ => []) (fun _ => []) (fun _ => 0) (fun _ => 0) (fun _ => None) (fun _ => []) 1024 (Nat.le_refl 4)
    some_groups [7; 7] [] some_groups_ok); [repeat (apply Forall_cons; split); try apply Forall_nil; done|by_decide|done].
Defined.

(** ** What else the code does *)

(** A count after [A] is a number of strings for one function, and a length for
    the other. *)
Example count_of_strings : pack32 (lit "A2") [LString (lit "ab"); LString (lit "c")] = lua_return (lit "abc") /\
  unpack32 (lit "abc") (lit "A2") 1 = lua_return (3, [LString (lit "ab")]).
Proof. split; reflexivity. Qed.
(** An initial position before the string is not refused, but read. *)
Example before_the_string : unpack32 (lit "abcd") (lit "i") 0 = None.
Proof. reflexivity. Qed.
(** A length near the end of the range passes the check of the bounds. *)
Example huge_length : unpack32 [255; 255; 255; 255; 97] (lit "a") 1 = None /\ unpack32 [6; 0; 0; 0; 97] (lit "a") 1 = lua_return (1, []).
Proof. split; reflexivity. Qed.
(** A string that is too long for its length is packed, with a wrong length. *)
Example length_wraps : pack32 (lit "p") [LString (replicate 256 97)] = lua_return (0 :: replicate 256 97).
Proof. reflexivity. Qed.
(** More values than the stack has room for. *)
Example many_values : unpack32 (replicate 19 1) (lit "b19") 1 = None /\ unpack32 (replicate 18 1) (lit "b18") 1 = lua_return (19, replicate 18 (LNumber 1)).
Proof. split; reflexivity. Qed.
(** A missing argument is an error, if the result so far is in the buffer. *)
Example missing_argument : pack32 (lit "A2") [LString (replicate 1024 97)] = lua_error (lit "string expected") /\
  pack32 (lit "A2") [LString (replicate 1025 97)] = None.
Proof. split; reflexivity. Qed.
(** A string that ends too early stops the unpacking. *)
Example stops_early : unpack32 [1; 0; 2] (lit "h2b") 1 = lua_return (3, [LNumber 1]).
Proof. reflexivity. Qed.
