(* ===== verification/Rotable.v ===== *)
(** * Rotable: read-only tables of Lua

    Models src/lua/lrotable.c, the functions of src/lua/ltable.c, ltm.c and lvm.c
    that work on these tables, and [luaB_index] of src/lua/lbaselib.c, which finds
    a module that is a global variable. Modules and metatables are arrays of
    entries in the program's memory, ended by an entry without a key. *)

From S2P Require Import Prelude LuaApi.

(** ** Tables *)

Inductive luaR_key := KNil | KString (s : list Z) | KNumber (n : Z).
(** The values of Lua: [VTable] and [VFunction] are in RAM, [VOther] is anything
    that is not looked at. *)
Inductive TValue (N : Type) :=
  | VNil | VNumber (x : N) | VString (s : list Z) | VLightFunction (p : Z) | VRotable (p : Z) | VTable (p : Z) | VFunction (p : Z) | VOther.
Arguments VNil {N}. Arguments VNumber {N} x. Arguments VString {N} s. Arguments VLightFunction {N} p.
Arguments VRotable {N} p. Arguments VTable {N} p. Arguments VFunction {N} p. Arguments VOther {N}.
Abbreviation luaR_entry N := (luaR_key * TValue N)%type.
Definition LUA_MAX_ROTABLE_NAME : Z := 32.
Definition MAXTAGLOOP : nat := 100.

Section Rotable.
Context {N : Type} {num : LuaNumber N}.
(** The entries in memory from an address on; whether tables may be metatables;
    where the program is. *)
Context (rom : Z -> option (list (luaR_entry N))) (LUA_META_ROTABLES : bool) (stext etext : Z).
(** The names and addresses of the modules; how numbers are written. *)
Context (lua_rotable : list (list Z * Z)) (number2str : N -> list Z).

Definition luaR_findglobal (name : list Z) (len : nat) : option Z :=
  if LUA_MAX_ROTABLE_NAME <? strlen name then None
  else
    e ← List.find (fun e => negb (bool_decide (fst e = [])) && (length (fst e) =? len)%nat && bool_decide (take len name = fst e)) lua_rotable;
    (* the address NULL is as good as none *)
    if snd e =? 0 then None else Some (snd e).

(** Without a name, the number is what is looked for. *)
Definition key_matches (strkey : option (list Z)) (numkey : Z) (k : luaR_key) : bool :=
  match strkey, k with
  | Some s, KString s' => bool_decide (s = s')
  | None, KNumber n => s32 n =? numkey
  | _, _ => false
  end.
(** The value and its index; [None] is the end of the memory. *)
Fixpoint auxfind_loop (es : list (luaR_entry N)) (strkey : option (list Z)) (numkey : Z) (i : nat) : option (option (TValue N * nat)) :=
  match es with
  | [] => None
  | (KNil, _) :: _ => Some None
  | (k, v) :: es => if key_matches strkey numkey k then Some (Some (v, i)) else auxfind_loop es strkey numkey (S i)
  end.
Definition luaR_auxfind (pentry : Z) (strkey : option (list Z)) (numkey : Z) : option (option (TValue N * nat)) :=
  if pentry =? 0 then Some None else es ← rom pentry; auxfind_loop es strkey numkey 0.
Definition luaR_findentry := luaR_auxfind.

(** An argument as a C string: what is after a zero is not looked at. *)
Definition luaL_checkstring (a : TValue N) : option (lres (list Z)) :=
  match a with VString s => lua_return (cstring s) | VNumber x => lua_return (number2str x) | _ => lua_error (lit "string expected") end.
Definition luaR_findfunction (key : TValue N) (ptable : Z) : option (lres (option (TValue N))) :=
  let! key := luaL_checkstring key in
  res ← luaR_auxfind ptable (Some key) 0;
  lua_return (match res with Some (VLightFunction f, _) => Some (VLightFunction f) | _ => None end).
Definition luaR_getmeta (data : Z) : option (option Z) :=
  if LUA_META_ROTABLES then
    res ← luaR_auxfind data (Some (lit "__metatable")) 0;
    Some (match res with Some (VRotable p, _) => if p =? 0 then None else Some p | _ => None end)
  else Some None.
Definition luaR_isrotable (p : Z) : bool := LUA_META_ROTABLES && (stext <=? p) && (p <=? etext).
(** The C string that is put at [dest]. *)
Definition luaR_getcstr (src : list Z) (maxsize : Z) : list Z :=
  if maxsize <? strlen src + 1 then [] else cstring src.

(** ** Traversal *)

Definition luaR_next_helper (pentries : list (luaR_entry N)) (pos : nat) : option (TValue N * TValue N) :=
  '(k, v) ← pentries !! pos;
  Some (match k with KNil => (VNil, VNil) | KString s => (VString s, v) | KNumber n => (VNumber (ln_of_int n), v) end).
(** What is after [key]; [val] is what was in the place for the value. The position
    of a key that is not there is not initialised. *)
Definition luaR_next (data : Z) (key val : TValue N) : option (TValue N * TValue N) :=
  pentries ← rom data;
  let after strkey numkey :=
    res ← luaR_findentry data strkey numkey;
    '(_, keypos) ← res;
    luaR_next_helper pentries (S keypos) in
  match key with
  | VNil => luaR_next_helper pentries 0
  | VString s => after (Some (luaR_getcstr s LUA_MAX_ROTABLE_NAME)) 0
  | VNumber x => after None (s32 (ln_to_int x))
  | _ => Some (key, val)
  end.
(** Whether there is a next entry. *)
Definition luaH_next_ro (t : Z) (key val : TValue N) : option (bool * TValue N * TValue N) :=
  '(key, val) ← luaR_next t key val;
  Some (match key with VNil => false | _ => true end, key, val).

(** ** Reading *)

Definition luaH_getnum_ro (t key : Z) : option (TValue N) :=
  res ← luaR_findentry t None key; Some (match res with Some (v, _) => v | None => VNil end).
Definition luaH_getstr_ro (t : Z) (key : list Z) : option (TValue N) :=
  if t =? 0 then Some VNil
  else
    res ← luaR_findentry t (Some (luaR_getcstr key LUA_MAX_ROTABLE_NAME)) 0; Some (match res with Some (v, _) => v | None => VNil end).
Definition luaH_get_ro (t : Z) (key : TValue N) : option (TValue N) :=
  match key with
  | VString s => luaH_getstr_ro t s
  | VNumber n => let k := s32 (ln_to_int n) in if ln_eqb (ln_of_int k) n then luaH_getnum_ro t k else Some VNil
  | _ => Some VNil
  end.
Fixpoint luaH_getn_ro (fuel : nat) (t i len : Z) : option Z :=
  match fuel with
  | O => None
  | S fuel => res ← luaR_findentry t None i; if res is Some _ then luaH_getn_ro fuel t (i + 1) (len + 1) else Some len
  end.

(** ** Metatables *)

(** The tag method [ename] of the values that are not read-only tables. *)
Context (ram_tm : TValue N -> list Z -> TValue N).
Definition luaT_gettm (events : Z) (ename : list Z) : option (option (TValue N)) :=
  tm ← luaH_getstr_ro events ename; Some (match tm with VNil => None | _ => Some tm end).
(** A metatable that is not in the program would be taken for a table in RAM. *)
Definition fasttm (et : option Z) (ename : list Z) : option (option (TValue N)) :=
  match et with None => Some None | Some p => if luaR_isrotable p then luaT_gettm p ename else None end.
Definition luaT_gettmbyobj (o : TValue N) (ename : list Z) : option (TValue N) :=
  match o with
  | VRotable p =>
      mt ← luaR_getmeta p;
      match mt with None => Some VNil | Some mt => if luaR_isrotable mt then luaH_getstr_ro mt ename else None end
  | _ => Some (ram_tm o ename)
  end.

(** How an access ends: with a value (or nothing stored), with the call of a tag
    method for [t], in a table in RAM, or with an error. *)
Inductive access := Got (v : TValue N) | Calls (tm t : TValue N) | InRam (t : TValue N) | IndexError (t : TValue N) | LoopError.
Definition is_function (v : TValue N) : bool := match v with VFunction _ | VLightFunction _ => true | _ => false end.
Fixpoint gettable_loop (loop : nat) (t key : TValue N) : option access :=
  match loop with
  | O => Some LoopError
  | S loop =>
      let go tm := if is_function tm then Some (Calls tm t) else gettable_loop loop tm key in
      match t with
      | VTable _ => Some (InRam t)
      | VRotable h =>
          res ← luaH_get_ro h key;
          match res with
          | VNil =>
              mt ← luaR_getmeta h; tm ← fasttm mt (lit "__index");
              match tm with None => Some (Got res) | Some tm => go tm end
          | _ => Some (Got res)
          end
      | _ => tm ← luaT_gettmbyobj t (lit "__index"); match tm with VNil => Some (IndexError t) | _ => go tm end
      end
  end.
Definition luaV_gettable (t key : TValue N) : option access := gettable_loop MAXTAGLOOP t key.

(** Storing: the top of the stack, and whether its size is fixed, with it. *)
Record lua_State := mkL { top : Z; fixedstack : bool }.
Fixpoint settable_loop (loop : nat) (L : lua_State) (t : TValue N) : option (access * lua_State) :=
  match loop with
  | O => Some (LoopError, L)
  | S loop =>
      let go tm := if is_function tm then Some (Calls tm t, mkL (top L - 1) false) else settable_loop loop L tm in
      match t with
      | VTable _ => Some (InRam t, L)
      | VRotable h =>
          mt ← luaR_getmeta h; tm ← fasttm mt (lit "__newindex");
          match tm with None => Some (Got VNil, L) | Some tm => go tm end
      | _ => tm ← luaT_gettmbyobj t (lit "__newindex"); match tm with VNil => Some (IndexError t, L) | _ => go tm end
      end
  end.
Definition luaV_settable (L : lua_State) (t : TValue N) : option (access * lua_State) :=
  settable_loop MAXTAGLOOP (mkL (top L + 1) true) t.

(** ** Modules as global variables *)

(** Functions of the base library are in a table if memory is saved. *)
Context (base_funcs_list : option Z).
Definition LUA_VERSION : list Z := lit "Lua 5.1".
Definition luaB_index (key : TValue N) : option (lres (option (TValue N))) :=
  let! fres := (if base_funcs_list is Some t then luaR_findfunction key t else lua_return None) in
  if fres is Some f then lua_return (Some f)
  else
    let! keyname := luaL_checkstring key in
    if bool_decide (keyname = lit "_VERSION") then lua_return (Some (VString LUA_VERSION))
    else lua_return (VRotable <$> luaR_findglobal keyname (length keyname)).
End Rotable.

(** ** What a table is *)

#[export] Instance luaR_key_eq_dec : EqDecision luaR_key.
Proof. solve_decision. Defined.

Section Spec.
Context {N : Type} {num : LuaNumber N}.
Context (rom : Z -> option (list (luaR_entry N))).
Abbreviation luaR_auxfind := (luaR_auxfind rom).
Abbreviation luaH_get_ro := (luaH_get_ro rom).
Abbreviation luaH_next_ro := (luaH_next_ro rom).
Implicit Types (l : list (luaR_entry N)) (v : TValue N).

(** The table at [p] has the entries [l]. *)
Definition proper_key (k : luaR_key) : Prop :=
  match k with KNil => False | KString s => Forall (fun c => c <> 0) s | KNumber n => is_s 32 n end.
Record table (p : Z) l : Prop := {
  tb_address : p <> 0;
  tb_memory : exists v rest, rom p = Some (l ++ (KNil, v) :: rest);
  tb_keys : Forall (fun e => proper_key (fst e)) l
}.
(** The first entry with a key, and its index. *)
Definition find_key l (k : luaR_key) : option (nat * luaR_entry N) := list_find (fun e => fst e = k) l.
Definition entry_for l (k : luaR_key) : option (TValue N) := (fun '(_, e) => snd e) <$> find_key l k.
(** The key a value of Lua stands for: strings that are too long are the empty name. *)
Definition key_of (key : TValue N) : option luaR_key :=
  match key with
  | VString s => Some (KString (luaR_getcstr s LUA_MAX_ROTABLE_NAME))
  | VNumber x => let k := s32 (ln_to_int x) in if ln_eqb (ln_of_int k) x then Some (KNumber k) else None
  | _ => None
  end.
Definition spec_get l (key : TValue N) : TValue N := default VNil (k ← key_of key; entry_for l k).

(** What the loop looks for. *)
Definition wanted (k : luaR_key) : option (list Z) * Z :=
  match k with KString s => (Some s, 0) | KNumber n => (None, n) | KNil => (None, 0) end.
Lemma key_matches_eq k k' : proper_key k' -> k <> KNil -> (forall n, k = KNumber n -> is_s 32 n) ->
  key_matches (fst (wanted k)) (snd (wanted k)) k' = bool_decide (k' = k).
Proof.
  intros Hk' Hk Hn. destruct k as [|s|n]; [done| |]; destruct k' as [|s'|n']; cbn [wanted fst snd key_matches proper_key] in *; try done.
  - apply bool_decide_ext. naive_solver.
  - unfold s32. rewrite swrap_small by (done || lia).
    destruct (Z.eqb_spec n' n) as [->|Hne]; [by rewrite bool_decide_eq_true_2|]. rewrite bool_decide_eq_false_2; [done|congruence].
Qed.
Lemma auxfind_loop_spec k l v rest i : Forall (fun e => proper_key (fst e)) l -> k <> KNil -> (forall n, k = KNumber n -> is_s 32 n) ->
  auxfind_loop (l ++ (KNil, v) :: rest) (fst (wanted k)) (snd (wanted k)) i =
    Some ((fun '(j, e) => (snd e, (i + j)%nat)) <$> list_find (fun e => fst e = k) l).
Proof.
  intros Hl Hk Hn. revert i. induction Hl as [|[k' v'] l Hk' _ IH]; intros i; [done|]. cbn [app auxfind_loop fst] in *.
  assert (Hnn : forall A (a b : A), match k' with KNil => a | _ => b end = b) by (by destruct k').
  rewrite Hnn, key_matches_eq by done. cbn [list_find fst]. case_bool_decide as Hb.
  - rewrite decide_True by done. cbn. by rewrite Nat.add_0_r.
  - rewrite decide_False by done. rewrite IH. destruct (list_find _ l) as [[j e]|]; [|done]. cbn. do 3 f_equal. lia.
Qed.
Lemma auxfind_spec p l k : table p l -> k <> KNil -> (forall n, k = KNumber n -> is_s 32 n) ->
  luaR_auxfind p (fst (wanted k)) (snd (wanted k)) = Some ((fun '(j, e) => (snd e, j)) <$> find_key l k).
Proof.
  intros [Ha (v & rest & Hm) Hk] Hn Hs. unfold Rotable.luaR_auxfind. rewrite (proj2 (Z.eqb_neq _ _)) by done. rewrite Hm. cbn [mbind option_bind].
  by apply auxfind_loop_spec.
Qed.
Lemma auxfind_value p l k : table p l -> k <> KNil -> (forall n, k = KNumber n -> is_s 32 n) ->
  (res ← luaR_auxfind p (fst (wanted k)) (snd (wanted k)); Some (match res with Some (v, _) => v | None => VNil end)) = Some (default VNil (entry_for l k)).
Proof. intros Ht Hn Hs. rewrite (auxfind_spec p l k) by done. unfold entry_for. by destruct (find_key l _) as [[j e]|]. Qed.
Lemma getstr_spec p l s : table p l -> luaH_getstr_ro rom p s = Some (default VNil (entry_for l (KString (luaR_getcstr s LUA_MAX_ROTABLE_NAME)))).
Proof.
  intros Ht. unfold luaH_getstr_ro. rewrite (proj2 (Z.eqb_neq _ _)) by apply Ht. by apply (auxfind_value p l (KString _) Ht).
Qed.
Lemma getnum_spec p l n : table p l -> is_s 32 n -> luaH_getnum_ro rom p n = Some (default VNil (entry_for l (KNumber n))).
Proof. intros Ht Hn. apply (auxfind_value p l (KNumber n) Ht); [done|]. by intros ? [= <-]. Qed.
Lemma get_ro_spec p l key : table p l -> luaH_get_ro p key = Some (spec_get l key).
Proof.
  intros Ht. unfold Rotable.luaH_get_ro, spec_get. destruct key as [|x|s| | | | |]; try done; cbn [key_of]; cbv zeta.
  - destruct (ln_eqb _ x); [|done]. rewrite (getnum_spec p l) by (done || apply s32_is_s32). done.
  - by rewrite (getstr_spec p l).
Qed.

(** Numbers that Lua can write, names that fit. *)
Definition exact (n : Z) : Prop := is_s 32 n /\ ln_to_int (ln_of_int n : N) = n /\ ln_eqb (ln_of_int n : N) (ln_of_int n) = true.
Definition plain_key (k : luaR_key) : Prop :=
  match k with KNil => False | KString s => Forall (fun c => c <> 0) s /\ strlen s < LUA_MAX_ROTABLE_NAME | KNumber n => exact n end.
Definition value_of (k : luaR_key) : TValue N := match k with KNil => VNil | KString s => VString s | KNumber n => VNumber (ln_of_int n) end.
Lemma getcstr_plain s : Forall (fun c => c <> 0) s -> strlen s < LUA_MAX_ROTABLE_NAME -> luaR_getcstr s LUA_MAX_ROTABLE_NAME = s.
Proof.
  intros Hs Hl. unfold luaR_getcstr. rewrite (proj2 (Z.ltb_ge _ _)) by lia. by apply cstring_plain.
Qed.
Lemma exact_s32 n : exact n -> s32 (ln_to_int (ln_of_int n : N)) = n.
Proof. intros (Hn & -> & _). unfold s32. by rewrite swrap_small by (done || lia). Qed.
Lemma key_of_plain k : plain_key k -> key_of (value_of k) = Some k.
Proof.
  destruct k as [|s|n]; cbn [plain_key value_of key_of]; [done| |].
  - intros [Hs Hl]. by rewrite getcstr_plain.
  - intros Hn. cbv zeta. rewrite exact_s32 by done. destruct Hn as (_ & _ & ->). done.
Qed.
Lemma spec_get_plain l k : plain_key k -> spec_get l (value_of k) = default VNil (entry_for l k).
Proof. intros Hk. unfold spec_get. by rewrite key_of_plain. Qed.
Lemma getn_spec p l n : table p l -> Z.of_nat n < 2 ^ 31 - 1 -> (forall i, 1 <= i <= Z.of_nat n -> is_Some (entry_for l (KNumber i))) ->
  entry_for l (KNumber (Z.of_nat n + 1)) = None -> forall k fuel, (k <= n)%nat -> (n - k < fuel)%nat ->
  luaH_getn_ro rom fuel p (Z.of_nat k + 1) (Z.of_nat k) = Some (Z.of_nat n).
Proof.
  intros Ht Hn Hin Hout k fuel. revert k. induction fuel as [|fuel IH]; intros k Hk Hf; [lia|]. cbn [luaH_getn_ro]. unfold luaR_findentry.
  assert (Hs : is_s 32 (Z.of_nat k + 1)) by (unfold is_s; change (2 ^ (32 - 1)) with 2147483648; lia).
  assert (Hfind : luaR_auxfind p None (Z.of_nat k + 1) = Some ((fun '(j, e) => (snd e, j)) <$> find_key l (KNumber (Z.of_nat k + 1)))).
  { apply (auxfind_spec p l (KNumber (Z.of_nat k + 1)) Ht); [done|]. by intros ? [= <-]. }
  rewrite Hfind. cbn [mbind option_bind]. destruct (decide (k = n)) as [->|Hne].
  - unfold entry_for in Hout. by destruct (find_key l _).
  - destruct (Hin (Z.of_nat k + 1)) as [v Hv]; [lia|]. unfold entry_for in Hv. destruct (find_key l _) as [[j e]|]; [|done]. cbn [fmap option_fmap option_map].
    replace (Z.of_nat k + 1) with (Z.of_nat (S k)) by lia. apply IH; lia.
Qed.

(** C15: reading a read-only table is looking its key up in the list of its
    entries, of which the first counts: for names of up to 31 characters and for
    numbers that are integers; for a number that is none there is no entry. The
    length is the last of the numbers that are keys from 1 on without a gap. (A name
    of 32 characters, the longest that a table may have, is not found:
    [long_name].) *)
Theorem rotable_get p l : table p l ->
  (forall k, plain_key k -> luaH_get_ro p (value_of k) = Some (default VNil (entry_for l k))) /\
  (forall x, ln_eqb (ln_of_int (s32 (ln_to_int x))) x = false -> luaH_get_ro p (VNumber x) = Some VNil) /\
  (forall n fuel, Z.of_nat n < 2 ^ 31 - 1 -> (forall i, 1 <= i <= Z.of_nat n -> is_Some (entry_for l (KNumber i))) ->
     entry_for l (KNumber (Z.of_nat n + 1)) = None -> (n < fuel)%nat -> luaH_getn_ro rom fuel p 1 0 = Some (Z.of_nat n)).
Proof.
  intros Ht. split; [|split].
  - intros k Hk. by rewrite (get_ro_spec p l), spec_get_plain.
  - intros x Hx. rewrite (get_ro_spec p l) by done. unfold spec_get, key_of. cbv zeta. by rewrite Hx.
  - intros n fuel Hn Hin Hout Hf. apply (getn_spec p l n Ht Hn Hin Hout 0); lia.
Qed.

(** *** Traversal *)

(** What [for k, v in pairs( t )] goes through, from the entry after [key] on. *)
Fixpoint traverse (fuel : nat) (p : Z) (key : TValue N) : option (list (TValue N * TValue N)) :=
  match fuel with
  | O => None
  | S fuel =>
      '(more, k, v) ← luaH_next_ro p key VNil;
      if more : bool then cons (k, v) <$> traverse fuel p k else Some []
  end.
Definition pair_of (e : luaR_entry N) : TValue N * TValue N := (value_of (fst e), snd e).
Lemma find_key_at l j k v : NoDup (fst <$> l) -> l !! j = Some (k, v) -> find_key l k = Some (j, (k, v)).
Proof.
  intros Hd Hj. apply list_find_Some. split; [done|]. split; [done|]. intros i [k' v'] Hi Hlt Heq. cbn in Heq. subst k'.
  assert (i = j); [|lia]. apply (NoDup_lookup (fst <$> l) i j k Hd); rewrite list_lookup_fmap; [by rewrite Hi|by rewrite Hj].
Qed.
Lemma next_helper_at l v rest j : Forall (fun e => proper_key (fst e)) l -> (j <= length l)%nat ->
  luaR_next_helper (l ++ (KNil, v) :: rest) j = Some (match l !! j with Some e => pair_of e | None => (VNil, VNil) end).
Proof.
  intros Hk Hj. unfold luaR_next_helper. destruct (l !! j) as [[k w]|] eqn:Hl.
  - rewrite (lookup_app_l_Some _ _ _ _ Hl). cbn [mbind option_bind]. pose proof (Forall_lookup_1 _ _ _ _ Hk Hl) as Hp. by destruct k.
  - apply lookup_ge_None_1 in Hl. assert (j = length l) as -> by lia. by rewrite list_lookup_middle.
Qed.
Lemma next_after p l j k v w : table p l -> NoDup (fst <$> l) -> plain_key k -> l !! j = Some (k, v) ->
  luaH_next_ro p (value_of k) w = Some (match l !! S j with Some e => (true, value_of (fst e), snd e) | None => (false, VNil, VNil) end).
Proof.
  intros Ht Hd Hp Hj. pose proof Ht as [Ha (v0 & rest & Hm) Hk]. unfold Rotable.luaH_next_ro, luaR_next. rewrite Hm. cbn [mbind option_bind].
  assert (Hf : forall k, plain_key k -> k <> KNil /\ (forall n, k = KNumber n -> is_s 32 n)).
  { intros [|s|n] H; [done|done|]. split; [done|]. intros ? [= <-]. apply H. }
  destruct (Hf k Hp) as [Hn Hs]. pose proof (auxfind_spec p l k Ht Hn Hs) as E. rewrite (find_key_at l j k v Hd Hj) in E. cbn in E.
  assert (Hlt : (S j <= length l)%nat) by (apply lookup_lt_Some in Hj; lia).
  assert (Hval : match l !! S j with Some e => fst e <> KNil | None => True end).
  { destruct (l !! S j) as [e|] eqn:He; [|done]. pose proof (Forall_lookup_1 _ _ _ _ Hk He) as H. by destruct e as [[]]. }
  destruct k as [|s|n]; [done| |]; cbn [value_of wanted fst snd plain_key] in *; unfold luaR_findentry.
  - rewrite getcstr_plain by apply Hp. rewrite E. cbn [mbind option_bind]. rewrite next_helper_at by done.
    destruct (l !! S j) as [[[] e]|]; done.
  - rewrite exact_s32 by done. rewrite E. cbn [mbind option_bind]. rewrite next_helper_at by done.
    destruct (l !! S j) as [[[] e]|]; done.
Qed.
Lemma traverse_from p l : table p l -> NoDup (fst <$> l) -> Forall (fun e => plain_key (fst e)) l ->
  forall fuel j k v, l !! j = Some (k, v) -> (length l - S j < fuel)%nat -> traverse fuel p (value_of k) = Some (map pair_of (drop (S j) l)).
Proof.
  intros Ht Hd Hp. induction fuel as [|fuel IH]; intros j k v Hj Hf; [lia|]. cbn [traverse].
  rewrite (next_after p l j k v) by (done || (by apply (Forall_lookup_1 _ _ _ _ Hp Hj))). cbn [mbind option_bind].
  destruct (l !! S j) as [[k' v']|] eqn:Hj'.
  - cbn [fst snd]. rewrite (IH (S j) k' v' Hj') by (apply lookup_lt_Some in Hj'; lia). by rewrite (drop_S l (k', v') (S j)).
  - apply lookup_ge_None_1 in Hj'. by rewrite drop_ge.
Qed.


(** *** Metatables *)

(** The tables of a program, with metatables that are tables of the program, and
    tag methods that are functions or tables of it. *)
Context (stext etext : Z) (ram_tm : TValue N -> list Z -> TValue N) (tables : Z -> option (list (luaR_entry N))).
Abbreviation luaV_gettable := (luaV_gettable rom true stext etext ram_tm).
Definition metatable_of l : option Z := match entry_for l (KString (lit "__metatable")) with Some (VRotable m) => Some m | _ => None end.
Definition tag_method l (name : string) : option (TValue N) :=
  m ← metatable_of l; lm ← tables m;
  match entry_for lm (KString (lit name)) with Some VNil => None | tm => tm end.
Record program : Prop := {
  pg_table p l : tables p = Some l -> table p l;
  pg_meta p l m : tables p = Some l -> metatable_of l = Some m -> is_Some (tables m) /\ stext <= m <= etext;
  pg_method p l name tm : In name ["__index"; "__newindex"]%string -> tables p = Some l -> tag_method l name = Some tm ->
    match tm with VLightFunction _ => True | VRotable q => is_Some (tables q) | _ => False end
}.
(** Reading by the metatables: how many of them are gone through, and the end. *)
Inductive inherits (key : TValue N) : Z -> nat -> access -> Prop :=
  | inherits_own p l : tables p = Some l -> spec_get l key <> VNil -> inherits key p 0 (Got (spec_get l key))
  | inherits_nothing p l : tables p = Some l -> spec_get l key = VNil -> tag_method l "__index" = None -> inherits key p 0 (Got VNil)
  | inherits_call p l f : tables p = Some l -> spec_get l key = VNil -> tag_method l "__index" = Some (VLightFunction f) ->
      inherits key p 0 (Calls (VLightFunction f) (VRotable p))
  | inherits_parent p l q n r : tables p = Some l -> spec_get l key = VNil -> tag_method l "__index" = Some (VRotable q) ->
      inherits key q n r -> inherits key p (S n) r.

Lemma getmeta_spec p l : program -> tables p = Some l -> luaR_getmeta rom true p = Some (metatable_of l).
Proof.
  intros Hpg Hp. pose proof (pg_table Hpg p l Hp) as Ht. unfold luaR_getmeta.
  pose proof (auxfind_spec p l (KString (lit "__metatable")) Ht ltac:(done) ltac:(done)) as E. cbn [wanted fst snd] in E. rewrite E.
  cbn [mbind option_bind]. unfold metatable_of, entry_for in *.
  destruct (find_key l (KString (lit "__metatable"))) as [[j e]|] eqn:Hf; [|done]. cbn. destruct (snd e) as [| | | |m| | |] eqn:He; try done.
  destruct (pg_meta Hpg p l m Hp) as [[lm Hm] _].
  { unfold metatable_of, entry_for. rewrite Hf. cbn. by rewrite He. }
  rewrite (proj2 (Z.eqb_neq _ _)); [done|]. by apply (pg_table Hpg m lm).
Qed.
Lemma fasttm_spec p l name : program -> tables p = Some l -> strlen (lit name) < LUA_MAX_ROTABLE_NAME -> Forall (fun c => c <> 0) (lit name) ->
  (mt ← luaR_getmeta rom true p; fasttm rom true stext etext mt (lit name)) = Some (tag_method l name).
Proof.
  intros Hpg Hp Hn Hz. rewrite (getmeta_spec p l) by done. cbn [mbind option_bind]. unfold tag_method, fasttm.
  destruct (metatable_of l) as [m|] eqn:Hm; [|done]. cbn [mbind option_bind]. destruct (pg_meta Hpg p l m Hp Hm) as [[lm Hlm] Hr].
  rewrite Hlm. cbn [mbind option_bind]. unfold luaR_isrotable. rewrite !(proj2 (Z.leb_le _ _)) by lia. cbn [andb].
  unfold luaT_gettm. rewrite (getstr_spec m lm) by (by apply (pg_table Hpg)). rewrite getcstr_plain by done. cbn [mbind option_bind].
  by destruct (entry_for lm _) as [[]|].
Qed.


(** Storing into a read-only table that has no __newindex stores nothing, and
    leaves the stack higher and of fixed size; what was there stays. *)
Lemma settable_leaves L p l : program -> tables p = Some l -> tag_method l "__newindex" = None ->
  luaV_settable rom true stext etext ram_tm L (VRotable p) = Some (Got VNil, mkL (top L + 1) true).
Proof.
  intros Hpg Hp Htm. unfold luaV_settable. change MAXTAGLOOP with (S 99). generalize 99%nat as loop. intros loop. cbn [settable_loop].
  pose proof (fasttm_spec p l "__newindex" Hpg Hp ltac:(by_decide) ltac:(repeat constructor; done)) as F.
  destruct (luaR_getmeta rom true p) as [mt|]; [|done]. cbn [mbind option_bind] in F |- *. rewrite F. by rewrite Htm.
Qed.
End Spec.

(** ** Concrete tables *)

(** A module with an entry for each kind of value, which is its own metatable; an
    array; and a table that takes what it has not got from the module. *)
Definition pio_map : list (luaR_entry Z) :=
  [(KString (lit "decode"), VLightFunction 7); (KString (lit "INPUT"), VNumber 1); (KString (lit "__metatable"), VRotable 1000);
   (KString (lit "__index"), VLightFunction 9)].
Definition array : list (luaR_entry Z) := [(KNumber 1, VNumber 10); (KNumber 2, VNumber 20); (KNumber 3, VNumber 30)].
Definition heir : list (luaR_entry Z) := [(KString (lit "OUTPUT"), VNumber 2); (KString (lit "__metatable"), VRotable 3500)].
Definition some_tables (p : Z) : option (list (luaR_entry Z)) :=
  if p =? 1000 then Some pio_map
  else if p =? 2000 then Some array
  else if p =? 3000 then Some heir
  else if p =? 3500 then Some [(KString (lit "__index"), VRotable 1000)]
  else None.
Definition some_rom (p : Z) : option (list (luaR_entry Z)) := (fun l => l ++ [(KNil, VNil)]) <$> some_tables p.
Definition no_methods (o : TValue Z) (name : list Z) : TValue Z := VNil.
Lemma some_tables_cases p l : some_tables p = Some l ->
  (p, l) ∈ [(1000, pio_map); (2000, array); (3000, heir); (3500, [(KString (lit "__index"), VRotable 1000)])].
Proof.
  unfold some_tables. intros H. rewrite !elem_of_cons.
  repeat (match type of H with context [p =? ?y] => destruct (Z.eqb_spec p y) as [->|_] end; [injection H as <-; tauto|]). done.
Qed.
Lemma some_program : program some_rom 1000 4000 some_tables.
Proof.
  split.
  - intros p l H. pose proof (some_tables_cases p l H) as Hc. rewrite !elem_of_cons, elem_of_nil in Hc.
    split; [by destruct Hc as [[= -> ->]|[[= -> ->]|[[= -> ->]|[[= -> ->]|[]]]]]| |].
    + exists VNil, []. unfold some_rom. by rewrite H.
    + destruct Hc as [[= -> ->]|[[= -> ->]|[[= -> ->]|[[= -> ->]|[]]]]]; repeat constructor; by_decide.
  - intros p l m H Hm. pose proof (some_tables_cases p l H) as Hc. rewrite !elem_of_cons, elem_of_nil in Hc.
    destruct Hc as [[= -> ->]|[[= -> ->]|[[= -> ->]|[[= -> ->]|[]]]]]; vm_compute in Hm; try done; injection Hm as <-; split; by eexists || lia.
  - intros p l name tm Hname H Htm. pose proof (some_tables_cases p l H) as Hc. rewrite !elem_of_cons, elem_of_nil in Hc.
    destruct Hname as [<-|[<-|[]]]; destruct Hc as [[= -> ->]|[[= -> ->]|[[= -> ->]|[[= -> ->]|[]]]]]; vm_compute in Htm; try done;
      injection Htm as <-; by try eexists.
Qed.
Lemma rotable_get_witness :
  (forall k, plain_key (N := Z) k -> luaH_get_ro some_rom 1000 (value_of k) = Some (default VNil (entry_for pio_map k))) /\
  (forall x : Z, ln_eqb (ln_of_int (s32 (ln_to_int x))) x = false -> luaH_get_ro some_rom 1000 (VNumber x) = Some VNil) /\
  (forall n fuel, Z.of_nat n < 2 ^ 31 - 1 -> (forall i, 1 <= i <= Z.of_nat n -> is_Some (entry_for pio_map (KNumber i))) ->
     entry_for pio_map (KNumber (Z.of_nat n + 1)) = None -> (n < fuel)%nat -> luaH_getn_ro some_rom fuel 1000 1 0 = Some (Z.of_nat n)).
Proof. apply (rotable_get (N := Z) some_rom 1000 pio_map), (pg_table some_rom 1000 4000 some_tables some_program). reflexivity. Defined.

Abbreviation get_in_rom := (luaV_gettable some_rom true 1000 4000 no_methods).
Example inherited : get_in_rom (VRotable 3000) (VString (lit "INPUT")) = Some (Got (VNumber 1)) /\
  get_in_rom (VRotable 3000) (VString (lit "PA_0")) = Some (Calls (VLightFunction 9) (VRotable 1000)) /\
  get_in_rom (VRotable 2000) (VString (lit "PA_0")) = Some (Got VNil).
Proof. repeat split; reflexivity. Qed.
Example array_pairs : traverse some_rom 5 2000 VNil = Some [(VNumber 1, VNumber 10); (VNumber 2, VNumber 20); (VNumber 3, VNumber 30)].
Proof. reflexivity. Qed.
Example array_length : luaH_getn_ro some_rom 9 2000 1 0 = Some 3.
Proof. reflexivity. Qed.

(** ** What else the code does *)

(** A store into a table that has no __newindex raises the top of the stack, each
    time, and does not give it back. *)
Example stores_raise_stack : luaV_settable some_rom true 1000 4000 no_methods (mkL 20 false) (VRotable 2000) = Some (Got VNil, mkL 21 true) /\
  luaV_settable some_rom true 1000 4000 no_methods (mkL 21 true) (VRotable 2000) = Some (Got VNil, mkL 22 true).
Proof. split; reflexivity. Qed.
(** What is after a zero does not count in a key. *)
Example zero_in_key : luaH_get_ro some_rom 1000 (VString (lit "INPUT" ++ [0] ++ lit "x")) = Some (VNumber 1).
Proof. reflexivity. Qed.
(** A name of 32 characters in a table is not found, and not passed either. *)
Definition long_rom (p : Z) : option (list (luaR_entry Z)) := Some [(KString (replicate 32 97), VNumber 1); (KNil, VNil)].
Example long_name : luaH_get_ro long_rom 1 (VString (replicate 32 97)) = Some VNil /\
  luaH_next_ro long_rom 1 VNil VNil = Some (true, VString (replicate 32 97), VNumber 1) /\
  luaH_next_ro long_rom 1 (VString (replicate 32 97)) VNil = None.
Proof. repeat split; reflexivity. Qed.
(** With a key twice in a table, [pairs] does not end. *)
Definition double_rom (p : Z) : option (list (luaR_entry Z)) :=
  Some [(KNumber 1, VNumber 1); (KNumber 2, VNumber 2); (KNumber 1, VNumber 3); (KNil, VNil)].
Example endless_pairs : traverse double_rom 1000 1 VNil = None.
Proof. reflexivity. Qed.
(** [next] with a key of another kind gives it back, with whatever is above it. *)
Example next_of_other : luaH_next_ro some_rom 2000 VOther (VNumber 5) = Some (true, VOther, VNumber 5).
Proof. reflexivity. Qed.
(** Global variables: modules, and a key that is not a name, which is an error. *)
Abbreviation global := (luaB_index some_rom [(lit "pio", 1000); (lit "", 2000)] (fun _ : Z => lit "1") None).
Example globals : global (VString (lit "pio")) = lua_return (Some (VRotable 1000)) /\ global (VString (lit "")) = lua_return None /\
  global (VString (lit "_VERSION")) = lua_return (Some (VString (lit "Lua 5.1"))) /\ global VOther = lua_error (lit "string expected").
Proof. repeat split; reflexivity. Qed.
