(* ===== verification/Pio.v ===== *)
(** * Pio: input and output pins

    Models src/modules/pio.c: groups of pins and ports as arguments of one
    operation, and the names of pins and ports; and the functions of src/common.c
    that say which pins there are. The platform's operation is a parameter. *)

From Stdlib Require Import Sorted.
From S2P Require Import Prelude LuaApi.

(** ** Codes of pins and ports *)

Definition PIO_DIR_OUTPUT : Z := 0.
Definition PIO_DIR_INPUT : Z := 1.
Definition PLATFORM_IO_PORTS : nat := 16.
Definition PLATFORM_IO_PORTS_BITS : Z := 4.
Definition PLATFORM_IO_PINS_BITS : Z := 5.
Definition PLATFORM_IO_FULL_PORT_MASK : Z := Z.shiftl 1 14.
Definition PLATFORM_IO_ENCODE (port pin : Z) (full : bool) : Z :=
  Z.lor (Z.lor (Z.shiftl port PLATFORM_IO_PINS_BITS) pin) (if full then PLATFORM_IO_FULL_PORT_MASK else 0).
Definition PLATFORM_IO_GET_PORT (code : Z) : Z := Z.land (Z.shiftr code PLATFORM_IO_PINS_BITS) (Z.shiftl 1 PLATFORM_IO_PORTS_BITS - 1).
Definition PLATFORM_IO_GET_PIN (code : Z) : Z := Z.land code (Z.shiftl 1 PLATFORM_IO_PINS_BITS - 1).
Definition PLATFORM_IO_IS_PORT (code : Z) : bool := negb (Z.land code PLATFORM_IO_FULL_PORT_MASK =? 0).
Definition PLATFORM_IO_ALL_PINS : Z := 0xFFFFFFFF.
Definition PLATFORM_IO_PIN_SET : Z := 0.
Definition PLATFORM_IO_PIN_CLEAR : Z := 1.
Definition PLATFORM_IO_PIN_GET : Z := 2.
Definition PLATFORM_IO_PIN_DIR_INPUT : Z := 3.
Definition PLATFORM_IO_PIN_DIR_OUTPUT : Z := 4.
Definition PLATFORM_IO_PIN_PULLUP : Z := 5.
Definition PLATFORM_IO_PIN_PULLDOWN : Z := 6.
Definition PLATFORM_IO_PIN_NOPULL : Z := 7.
Definition PLATFORM_IO_PORT_SET_VALUE : Z := 8.
Definition PLATFORM_IO_PORT_GET_VALUE : Z := 9.
Definition PLATFORM_IO_PORT_DIR_INPUT : Z := 10.
Definition PLATFORM_IO_PORT_DIR_OUTPUT : Z := 11.

(** Whether an operation is one on pins, [PIO_PIN_OP], or on ports. *)
Inductive optype := PIO_PORT_OP | PIO_PIN_OP.
(** The number of pins: the same for all ports, or one for each. *)
Inductive port_pins := PIO_PINS_PER_PORT (n : Z) | PIO_PIN_ARRAY (ns : list Z).

(** The masks of all ports, and the platform. *)
Record state (S : Type) := mkPio { pio_masks : list Z; platform : S }.
Arguments mkPio {S} pio_masks platform. Arguments pio_masks {S}. Arguments platform {S}.
(** What a function called from Lua does: a result or an error, and the state;
    [None] is undefined. *)
Definition pio (S A : Type) : Type := state S -> option (lres A * state S).
Definition pio_ret {S A} (a : A) : pio S A := fun st => Some (inl a, st).
Definition pio_error {S A} (msg : string) : pio S A := fun st => Some (inr (lit msg), st).
Definition pio_bind {S A B} (m : pio S A) (k : A -> pio S B) : pio S B :=
  fun st => match m st with Some (inl a, st) => k a st | Some (inr e, st) => Some (inr e, st) | None => None end.
Notation "'let*' x := m 'in' k" := (pio_bind m (fun x => k)) (at level 10, x pattern, m at level 100, k at level 200) : lua_scope.

Section Pio.
Context {S : Type}.
(** The platform's operation on the pins of a port, with its result. *)
Context (platform_pio_op : S -> Z -> Z -> Z -> S * Z).
(** The ports there are, and how the first is called: A or 0. *)
Context (NUM_PIO : Z) (pins_of_ports : port_pins) (PIO_PREFIX : Z) (ELUA_PLATFORM_AVR32 : bool).
Context (str2number : list Z -> option Z).

Definition platform_pio_has_port (port : Z) : bool :=
  let port := u32 port in
  match pins_of_ports with
  | PIO_PINS_PER_PORT _ => port <? NUM_PIO
  | PIO_PIN_ARRAY ns => (port <? NUM_PIO) && negb (default 0 (ns !! Z.to_nat port) =? 0)
  end.
Definition platform_pio_get_num_pins (port : Z) : Z :=
  match pins_of_ports with PIO_PINS_PER_PORT n => n | PIO_PIN_ARRAY ns => default 0 (ns !! Z.to_nat port) end.
Definition platform_pio_has_pin (port pin : Z) : bool :=
  let port := u32 port in (port <? NUM_PIO) && (u32 pin <? platform_pio_get_num_pins port).

(** ** Groups of pins and ports *)

Definition luaL_checkint (a : larg) : pio S Z :=
  match lua_isnumber str2number a with Some x => pio_ret (s32 x) | None => pio_error "number expected" end.
Definition op_on (port mask op : Z) : pio S Z :=
  fun st => let '(s, r) := platform_pio_op (platform st) port mask op in Some (inl r, mkPio (pio_masks st) s).
Definition set_mask (port pin : Z) : pio S unit := fun st =>
  Some (inl tt, mkPio (alter (fun m => Z.lor m (u32 (Z.shiftl 1 pin))) (Z.to_nat port) (pio_masks st)) (platform st)).
Definition pioh_clear_masks : pio S unit := fun st => Some (inl tt, mkPio (replicate PLATFORM_IO_PORTS 0) (platform st)).

Fixpoint collect_pins (args : list larg) : pio S unit :=
  match args with
  | [] => pio_ret tt
  | a :: args =>
      let* v := luaL_checkint a in
      let port := PLATFORM_IO_GET_PORT v in
      let pin := PLATFORM_IO_GET_PIN v in
      if PLATFORM_IO_IS_PORT v || negb (platform_pio_has_port port) || negb (platform_pio_has_pin port pin) then pio_error "invalid pin"
      else let* _ := set_mask port pin in collect_pins args
  end.
Fixpoint pins_ops (ports : list nat) (op : Z) : pio S unit :=
  match ports with
  | [] => pio_ret tt
  | i :: ports => fun st =>
      let m := default 0 (pio_masks st !! i) in
      (if m =? 0 then pins_ops ports op
       else let* r := op_on (Z.of_nat i) m op in
            if r =? 0 then pio_error "invalid PIO operation" else pins_ops ports op) st
  end.
(** [args]: from [stackidx] on. *)
Definition pioh_set_pins (args : list larg) (op : Z) : pio S unit :=
  let* _ := pioh_clear_masks in
  let* _ := collect_pins args in
  pins_ops (seq 0 PLATFORM_IO_PORTS) op.

Fixpoint collect_ports (args : list larg) (port_mask : Z) : pio S Z :=
  match args with
  | [] => pio_ret port_mask
  | a :: args =>
      let* v := luaL_checkint a in
      let port := PLATFORM_IO_GET_PORT v in
      if negb (PLATFORM_IO_IS_PORT v) || negb (platform_pio_has_port port) then pio_error "invalid port"
      else collect_ports args (u32 (Z.lor port_mask (Z.shiftl 1 port)))
  end.
Fixpoint ports_ops (ports : list nat) (port_mask op mask : Z) : pio S unit :=
  match ports with
  | [] => pio_ret tt
  | i :: ports =>
      if Z.land port_mask (Z.shiftl 1 (Z.of_nat i)) =? 0 then ports_ops ports port_mask op mask
      else let* r := op_on (Z.of_nat i) mask op in
           if r =? 0 then pio_error "invalid PIO operation" else ports_ops ports port_mask op mask
  end.
Definition pioh_set_ports (args : list larg) (op mask : Z) : pio S unit :=
  let* port_mask := collect_ports args 0 in
  ports_ops (seq 0 PLATFORM_IO_PORTS) port_mask op mask.

(** ** The functions of the module *)

Definition arg1 (args : list larg) : larg := default ANil (head args).
Definition pio_gen_setdir (optype : optype) (args : list larg) : pio S unit :=
  let* op := luaL_checkint (arg1 args) in
  let go op :=
    match optype with PIO_PIN_OP => pioh_set_pins (tail args) op | PIO_PORT_OP => pioh_set_ports (tail args) op PLATFORM_IO_ALL_PINS end in
  if op =? PIO_DIR_INPUT then go (match optype with PIO_PIN_OP => PLATFORM_IO_PIN_DIR_INPUT | PIO_PORT_OP => PLATFORM_IO_PORT_DIR_INPUT end)
  else if op =? PIO_DIR_OUTPUT then go (match optype with PIO_PIN_OP => PLATFORM_IO_PIN_DIR_OUTPUT | PIO_PORT_OP => PLATFORM_IO_PORT_DIR_OUTPUT end)
  else pio_error "invalid direction".
Definition pio_gen_setpull (optype : optype) (args : list larg) : pio S unit :=
  let* op := luaL_checkint (arg1 args) in
  if negb (op =? PLATFORM_IO_PIN_PULLUP) && negb (op =? PLATFORM_IO_PIN_PULLDOWN) && negb (op =? PLATFORM_IO_PIN_NOPULL) then
    pio_error "invalid pull type"
  else match optype with PIO_PIN_OP => pioh_set_pins (tail args) op | PIO_PORT_OP => pioh_set_ports (tail args) op PLATFORM_IO_ALL_PINS end.
(** [args]: from [stackidx] on. *)
Definition pio_gen_setval (optype : optype) (val : Z) (args : list larg) : pio S unit :=
  match optype with
  | PIO_PIN_OP =>
      if negb (val =? 1) && negb (val =? 0) then pio_error "invalid pin value"
      else pioh_set_pins args (if val =? 1 then PLATFORM_IO_PIN_SET else PLATFORM_IO_PIN_CLEAR)
  | PIO_PORT_OP => pioh_set_ports args PLATFORM_IO_PORT_SET_VALUE val
  end.
Definition pio_pin_setdir := pio_gen_setdir PIO_PIN_OP.
Definition pio_pin_output (args : list larg) : pio S unit := pioh_set_pins args PLATFORM_IO_PIN_DIR_OUTPUT.
Definition pio_pin_input (args : list larg) : pio S unit := pioh_set_pins args PLATFORM_IO_PIN_DIR_INPUT.
Definition pio_pin_setpull := pio_gen_setpull PIO_PIN_OP.
Definition pio_pin_setval (args : list larg) : pio S unit :=
  let* val := luaL_checkint (arg1 args) in pio_gen_setval PIO_PIN_OP (u32 val) (tail args).
Definition pio_pin_sethigh := pio_gen_setval PIO_PIN_OP 1.
Definition pio_pin_setlow := pio_gen_setval PIO_PIN_OP 0.
(** There is room for [LUA_MINSTACK] results, and no check. *)
Definition LUA_MINSTACK : nat := 20.
Fixpoint pin_values (room : nat) (args : list larg) : pio S (list Z) :=
  match args, room with
  | [], _ => pio_ret []
  | a :: args, room =>
      let* v := luaL_checkint a in
      let port := PLATFORM_IO_GET_PORT v in
      let pin := PLATFORM_IO_GET_PIN v in
      if PLATFORM_IO_IS_PORT v || negb (platform_pio_has_port port) || negb (platform_pio_has_pin port pin) then pio_error "invalid pin"
      else
        let* value := op_on port (u32 (Z.shiftl 1 pin)) PLATFORM_IO_PIN_GET in
        if room is Datatypes.S room then let* vs := pin_values room args in pio_ret (s32 value :: vs) else fun _ => None
  end.
Definition pio_pin_getval := pin_values LUA_MINSTACK.
Definition pio_port_setdir := pio_gen_setdir PIO_PORT_OP.
Definition pio_port_output (args : list larg) : pio S unit := pioh_set_ports args PLATFORM_IO_PIN_DIR_OUTPUT PLATFORM_IO_ALL_PINS.
Definition pio_port_input (args : list larg) : pio S unit := pioh_set_ports args PLATFORM_IO_PIN_DIR_INPUT PLATFORM_IO_ALL_PINS.
Definition pio_port_setpull := pio_gen_setpull PIO_PORT_OP.
Definition pio_port_setval (args : list larg) : pio S unit :=
  let* val := luaL_checkint (arg1 args) in pio_gen_setval PIO_PORT_OP (u32 val) (tail args).
Definition pio_port_sethigh := pio_gen_setval PIO_PORT_OP PLATFORM_IO_ALL_PINS.
Definition pio_port_setlow := pio_gen_setval PIO_PORT_OP 0.
Fixpoint port_values (room : nat) (args : list larg) : pio S (list Z) :=
  match args, room with
  | [], _ => pio_ret []
  | a :: args, room =>
      let* v := luaL_checkint a in
      let port := PLATFORM_IO_GET_PORT v in
      if negb (PLATFORM_IO_IS_PORT v) || negb (platform_pio_has_port port) then pio_error "invalid port"
      else
        let* value := op_on port PLATFORM_IO_ALL_PINS PLATFORM_IO_PORT_GET_VALUE in
        if room is Datatypes.S room then let* vs := port_values room args in pio_ret (s32 value :: vs) else fun _ => None
  end.
Definition pio_port_getval := port_values LUA_MINSTACK.

(** ** Names *)

Definition isupper (c : Z) : bool := (65 <=? c) && (c <=? 90).
(** [sscanf] with "%d": the number and what is after it, or no number; a number
    that is too large is undefined. *)
Definition scan_int (s : list Z) : option (option (Z * list Z)) :=
  let s := skip_space s in
  let (sign, s) := match s with c :: s' => if c =? 45 then (-1, s') else if c =? 43 then (1, s') else (1, s) | [] => (1, []) end in
  let '(n, rest) := digits 0 s in
  if (length rest =? length s)%nat then Some None
  else if bool_decide (is_s 32 (sign * n)) then Some (Some (sign * n, rest)) else None.
(** The number that is all of [s]. *)
Definition scan_all (s : list Z) : option (option Z) :=
  r ← scan_int s; Some (match r with Some (n, []) => Some n | _ => None end).
(** "%d_%d", all of [s]. *)
Definition scan_pair (s : list Z) : option (option (Z * Z)) :=
  match scan_int s with
  | Some (Some (n, c :: s)) =>
      if c =? 95 then match scan_all s with Some (Some m) => Some (Some (n, m)) | Some None => Some None | None => None end else Some None
  | Some _ => Some None
  | None => None
  end.
(** The pins of the AVR32 that are called PX: the number of one as the port and
    pin of the hardware. *)
Definition avr32_pin (letter port pin : Z) : option (Z * Z) :=
  if (letter =? 67) && (5 <? pin) then None
  else if letter =? 68 then None
  else if letter =? 88 then
    if pin =? 0xFFFF then None
    else if pin <? 0 then None
    else
      gpio ← (if pin <=? 10 then Some (100 - pin)
              else if pin <=? 14 then Some (109 - (pin - 11))
              else if pin <=? 34 then Some (89 - (pin - 15))
              else if pin <=? 39 then Some (105 - (pin - 35))
              else None);
      Some (Z.shiftr gpio 5, Z.land gpio 0x1F)
  else Some (port, pin).
(** What a name says: a port, or a port and a pin. *)
Inductive named := NPort (port : Z) | NPin (port pin : Z).
Definition parse_name (key : list Z) : option (option named) :=
  let at_ i := default 0 (key !! i) in
  if negb (at_ 0%nat =? 80) then Some None
  else if isupper (at_ 1%nat) then
    if negb (PIO_PREFIX =? 65) then Some None
    else
      let port := at_ 1%nat - 65 in
      if at_ 2%nat =? 0 then Some (Some (NPort port))
      else if at_ 2%nat =? 95 then
        pin ← scan_all (drop 3 key);
        match pin with
        | None => Some None
        | Some pin => Some (option_map (uncurry NPin) (if ELUA_PLATFORM_AVR32 then avr32_pin (at_ 1%nat) port pin else Some (port, pin)))
        end
      else Some (Some (NPin port 0xFFFF))
  else if negb (PIO_PREFIX =? 48) then Some None
  else if negb (existsb (Z.eqb 95) key) then port ← scan_all (drop 1 key); Some (option_map NPort port)
  else pair ← scan_pair (drop 1 key); Some (option_map (uncurry NPin) pair).
(** The code, or nothing. *)
Definition pio_mt_index (key : list Z) : option (option Z) :=
  name ← parse_name (cstring key);
  Some (match name with
        | Some (NPort port) => if platform_pio_has_port port then Some (PLATFORM_IO_ENCODE port 0 true) else None
        | Some (NPin port pin) =>
            if platform_pio_has_port port && platform_pio_has_pin port pin then Some (PLATFORM_IO_ENCODE port pin false) else None
        | None => None
        end).
Definition pio_decode (a : larg) : option (lres (Z * Z)) :=
  luaL_checkinteger str2number a (fun code =>
    let port := PLATFORM_IO_GET_PORT (s32 code) in
    let pin := PLATFORM_IO_GET_PIN (s32 code) in
    if ELUA_PLATFORM_AVR32 && (((port =? 2) && (6 <=? pin)) || ((port =? 3) && (pin <=? 13))) then
      let pin :=
        if port =? 2 then if 26 <=? pin then 26 + 10 - pin else 25 + 15 - pin
        else if pin <=? 4 then 4 - pin else if pin <=? 9 then 35 + 9 - pin else 13 + 11 - pin in
      lua_return (88 - 65, pin)
    else lua_return (port, pin)).
End Pio.

(** ** The codes of names *)

(** A board whose pins have codes. *)
Record board_ok (NUM_PIO : Z) (pins_of_ports : port_pins) : Prop := {
  bd_ports : NUM_PIO <= 16;
  bd_pins port : platform_pio_get_num_pins pins_of_ports port <= 32
}.
Definition code_check (port pin : Z) : bool :=
  forallb (fun full =>
    let code := PLATFORM_IO_ENCODE port pin full in
    (0 <=? code) && (code <? 2 ^ 31) && (PLATFORM_IO_GET_PORT code =? port) && (PLATFORM_IO_GET_PIN code =? pin) &&
    Bool.eqb (PLATFORM_IO_IS_PORT code) full) [true; false].
Lemma codes_checked : forallb (fun port => forallb (code_check port) (seqZ 0 32)) (seqZ 0 16) = true.
Proof. vm_compute. reflexivity. Qed.
Lemma code_spec port pin full : 0 <= port < 16 -> 0 <= pin < 32 -> let code := PLATFORM_IO_ENCODE port pin full in
  s32 code = code /\ PLATFORM_IO_GET_PORT code = port /\ PLATFORM_IO_GET_PIN code = pin /\ PLATFORM_IO_IS_PORT code = full.
Proof.
  intros Hp Hn code. pose proof (seqZ_forallb _ _ _ (seqZ_forallb _ _ _ codes_checked Hp) Hn) as H. unfold code_check in H.
  rewrite forallb_forall in H. specialize (H full). cbv zeta in H. fold code in H.
  rewrite !andb_true_iff, Z.leb_le, Z.ltb_lt, !Z.eqb_eq, Bool.eqb_true_iff in H.
  destruct H as ((((H1 & H2) & H3) & H4) & H5); [destruct full; cbn; tauto|]. split; [apply s32_small; lia|]. done.
Qed.

(** Numbers as [sscanf] reads them. *)
Lemma scan_decimal n rest : 0 <= n < 2 ^ 31 -> match rest with c :: _ => ~ is_digit c | [] => True end ->
  scan_int (decimal n ++ rest) = Some (Some (n, rest)).
Proof.
  intros Hn Hr. pose proof (digits_decimal n rest ltac:(lia) Hr) as Hdig. destruct (decimal_cons n) as (d & ds & E & Hd); [lia|]. rewrite E in *.
  unfold scan_int. cbn [app] in *. rewrite skip_digit by done. unfold is_digit in Hd.
  rewrite (proj2 (Z.eqb_neq d 45)), (proj2 (Z.eqb_neq d 43)) by lia. rewrite Hdig.
  assert ((length rest =? length (d :: ds ++ rest))%nat = false) as -> by (apply Nat.eqb_neq; cbn [length]; rewrite length_app; lia).
  rewrite Z.mul_1_l, bool_decide_eq_true_2; [done|]. unfold is_s. change (2 ^ (32 - 1)) with (2 ^ 31). lia.
Qed.
Lemma scan_all_decimal n : 0 <= n < 2 ^ 31 -> scan_all (decimal n) = Some (Some n).
Proof. intros Hn. unfold scan_all. pose proof (scan_decimal n [] Hn I) as E. rewrite app_nil_r in E. by rewrite E. Qed.
Lemma decimal_chars n : 0 <= n < 2 ^ 31 -> Forall (fun c => c <> 0) (decimal n) /\ existsb (Z.eqb 95) (decimal n) = false.
Proof.
  intros Hn. destruct (decimal_ok n) as (_ & Hd & _); [lia|]. split.
  - eapply Forall_impl; [exact Hd|]. unfold is_digit. lia.
  - apply not_true_is_false. intros H. apply existsb_exists in H as (c & Hin & Hc). apply Z.eqb_eq in Hc as <-.
    rewrite List.Forall_forall in Hd. apply Hd in Hin. unfold is_digit in Hin. lia.
Qed.
Lemma decimal_first n : 0 <= n < 2 ^ 31 -> isupper (default 0 (decimal n !! 0%nat)) = false.
Proof.
  intros Hn. destruct (decimal_ok n) as (_ & Hd & Hne); [lia|]. destruct (decimal n) as [|d ds]; [done|].
  pose proof (Forall_inv Hd) as H. unfold is_digit in H. cbn. unfold isupper. rewrite andb_false_iff, !Z.leb_gt. lia.
Qed.

Section Names.
Context {S : Type} (NUM_PIO : Z) (pins_of_ports : port_pins) (PIO_PREFIX : Z) (avr32 : bool) (str2number : list Z -> option Z).
Abbreviation has_port := (platform_pio_has_port NUM_PIO pins_of_ports).
Abbreviation has_pin := (platform_pio_has_pin NUM_PIO pins_of_ports).
Abbreviation pio_mt_index := (pio_mt_index NUM_PIO pins_of_ports PIO_PREFIX avr32).
Abbreviation pio_decode := (pio_decode avr32 str2number).

(** PA, PB ... or P0, P1 ...; with a pin, PA_0 ... or P0_0 ... *)
Definition port_name (port : Z) : list Z := 80 :: (if PIO_PREFIX =? 65 then [65 + port] else decimal port).
Definition pin_name (port pin : Z) : list Z := port_name port ++ 95 :: decimal pin.
Definition has_name (port : Z) : Prop := (PIO_PREFIX = 65 /\ 0 <= port < 26) \/ (PIO_PREFIX = 48 /\ avr32 = false /\ 0 <= port < 2 ^ 31).
(** Where a pin is in the hardware. *)
Definition hardware (port pin : Z) : option (Z * Z) := if avr32 then avr32_pin (65 + port) port pin else Some (port, pin).

Lemma port_name_plain port : has_name port -> Forall (fun c => c <> 0) (port_name port) /\ existsb (Z.eqb 95) (port_name port) = false.
Proof.
  unfold port_name. intros [[-> Hp]|(-> & _ & Hp)]; cbn [Z.eqb Pos.eqb].
  - split; [repeat constructor; lia|]. cbn [existsb]. by rewrite (proj2 (Z.eqb_neq 95 80)), (proj2 (Z.eqb_neq 95 (65 + port))) by lia.
  - destruct (decimal_chars port Hp) as [H1 H2]. split; [by constructor|done].
Qed.
Lemma parse_port port : has_name port -> parse_name PIO_PREFIX avr32 (port_name port) = Some (Some (NPort port)).
Proof.
  intros Hn. pose proof (port_name_plain port Hn) as [_ Hu]. unfold parse_name. rewrite Hu. unfold port_name.
  destruct Hn as [[-> Hp]|(-> & _ & Hp)]; cbn [Z.eqb Pos.eqb lookup list_lookup default id negb drop].
  - assert (isupper (65 + port) = true) as -> by (unfold isupper; rewrite andb_true_iff, !Z.leb_le; lia). do 3 f_equal. lia.
  - rewrite decimal_first by done. by rewrite drop_0, scan_all_decimal.
Qed.
Lemma parse_pin port pin : has_name port -> 0 <= pin < 2 ^ 31 ->
  parse_name PIO_PREFIX avr32 (pin_name port pin) = Some (uncurry NPin <$> hardware port pin).
Proof.
  intros Hn Hpin. unfold parse_name, pin_name. rewrite existsb_app. cbn [existsb]. rewrite Z.eqb_refl, orb_true_r. unfold port_name, hardware.
  destruct Hn as [[-> Hp]|(-> & -> & Hp)]; cbn [Z.eqb Pos.eqb lookup list_lookup default id negb drop app].
  - assert (isupper (65 + port) = true) as -> by (unfold isupper; rewrite andb_true_iff, !Z.leb_le; lia).
    rewrite drop_0, scan_all_decimal by done. cbn [mbind option_bind]. do 2 f_equal. by replace (65 + port - 65) with port by lia.
  - match goal with |- context [isupper ?c] => assert (isupper c = false) as -> end.
    { pose proof (decimal_first port Hp) as H. destruct (decimal_ok port) as (_ & _ & Hne); [lia|]. by destruct (decimal port). }
    unfold scan_pair. rewrite drop_0, scan_decimal by (done || (unfold is_digit; lia)). cbn [Z.eqb Pos.eqb]. by rewrite scan_all_decimal.
Qed.
Lemma has_port_bound port : board_ok NUM_PIO pins_of_ports -> 0 <= port < 2 ^ 32 -> has_port port = true -> port < 16.
Proof.
  intros [Hb _] Hp H. unfold platform_pio_has_port in H. rewrite u32_small in H by done.
  destruct pins_of_ports; [apply Z.ltb_lt in H; lia|]. apply andb_true_iff in H as [H _]. apply Z.ltb_lt in H. lia.
Qed.
Lemma has_pin_bound port pin : board_ok NUM_PIO pins_of_ports -> 0 <= pin < 2 ^ 32 -> has_pin port pin = true -> pin < 32.
Proof.
  intros [_ Hb] Hp H. unfold platform_pio_has_pin in H. rewrite (u32_small pin) in H by done. apply andb_true_iff in H as [_ H].
  apply Z.ltb_lt in H. specialize (Hb (u32 port)). lia.
Qed.
(** The 40 pins PX. *)
Definition px_check (pin : Z) : bool :=
  match avr32_pin 88 23 pin with
  | Some (hp, hn) =>
      (0 <=? hp) && (hp <? 16) && (0 <=? hn) && (hn <? 32) &&
      match Pio.pio_decode true (fun _ => None) (ANumber (PLATFORM_IO_ENCODE hp hn false)) with
      | Some (inl (port, n)) => (port =? 23) && (n =? pin)
      | _ => false
      end
  | None => false
  end.
Lemma px_checked pin : 0 <= pin < 40 -> px_check pin = true.
Proof. apply (seqZ_forallb px_check). vm_compute. reflexivity. Qed.
Lemma avr32_plain port pin hp hn : 0 <= port < 26 -> 0 <= pin -> avr32_pin (65 + port) port pin = Some (hp, hn) ->
  (port = 23 /\ pin < 40) \/ (hp = port /\ hn = pin /\ port <> 3 /\ (port = 2 -> pin <= 5)).
Proof.
  intros Hp Hn H. unfold avr32_pin in H. destruct (Z.eqb_spec (65 + port) 67) as [E|E].
  - right. destruct (Z.ltb_spec 5 pin); [done|]. cbn [andb] in H. rewrite !(proj2 (Z.eqb_neq _ _)) in H by lia. injection H as <- <-. lia.
  - cbn [andb] in H. destruct (Z.eqb_spec (65 + port) 68); [done|]. destruct (Z.eqb_spec (65 + port) 88).
    + left. split; [lia|]. destruct (pin =? 65535); [done|]. destruct (pin <? 0); [done|].
      destruct (Z.leb_spec pin 10); [lia|]. destruct (Z.leb_spec pin 14); [lia|]. destruct (Z.leb_spec pin 34); [lia|]. by destruct (Z.leb_spec pin 39); [lia|].
    + right. injection H as <- <-. lia.
Qed.
Lemma decode_plain port pin : 0 <= port < 16 -> 0 <= pin < 32 -> (avr32 = true -> port <> 3 /\ (port = 2 -> pin <= 5)) ->
  pio_decode (ANumber (PLATFORM_IO_ENCODE port pin false)) = lua_return (port, pin).
Proof.
  intros Hp Hn Ha. unfold Pio.pio_decode, luaL_checkinteger. cbn [lua_isnumber].
  destruct (code_spec port pin false Hp Hn) as (-> & -> & -> & _). destruct avr32; [|done]. destruct Ha as [H3 H2]; [done|].
  rewrite (proj2 (Z.eqb_neq port 3)) by done. destruct (Z.eqb_spec port 2) as [E|E]; [|done].
  rewrite (proj2 (Z.leb_gt 6 pin)) by (specialize (H2 E); lia). done.
Qed.
Lemma decode_hardware port pin hp hn : has_name port -> 0 <= pin -> hardware port pin = Some (hp, hn) ->
  board_ok NUM_PIO pins_of_ports -> 0 <= hp < 2 ^ 32 -> 0 <= hn < 2 ^ 32 -> has_port hp = true -> has_pin hp hn = true ->
  pio_decode (ANumber (PLATFORM_IO_ENCODE hp hn false)) = lua_return (port, pin).
Proof.
  intros Hn Hpin Hh Hb Hp1 Hp2 Hport Hhas. pose proof (has_port_bound hp Hb Hp1 Hport). pose proof (has_pin_bound hp hn Hb Hp2 Hhas).
  unfold hardware in Hh. destruct avr32 eqn:Ea in Hh.
  - destruct Hn as [[_ Hr]|(_ & Hf & _)]; [|congruence]. destruct (avr32_plain port pin hp hn Hr Hpin Hh) as [[-> H40]|(-> & -> & H3 & H2)].
    + pose proof (px_checked pin ltac:(lia)) as H1. unfold px_check in H1. change (65 + 23) with 88 in Hh. rewrite Hh in H1.
      rewrite !andb_true_iff in H1. destruct H1 as [_ H1]. rewrite Ea. unfold Pio.pio_decode, luaL_checkinteger in *. cbn [lua_isnumber] in *.
      cbv zeta in *. destruct (_ && _); unfold lua_return in *; rewrite andb_true_iff, !Z.eqb_eq in H1; destruct H1 as [-> ->]; done.
    + apply decode_plain; [lia|lia|done].
  - injection Hh as <- <-. apply decode_plain; [lia|lia|congruence].
Qed.
Lemma hardware_range port pin hp hn : has_name port -> 0 <= pin < 2 ^ 31 -> hardware port pin = Some (hp, hn) -> 0 <= hp < 2 ^ 32 /\ 0 <= hn < 2 ^ 32.
Proof.
  intros Hn Hpin Hh. assert (Hr : 0 <= port < 2 ^ 31) by (destruct Hn as [[_ H]|(_ & _ & H)]; lia). unfold hardware in Hh. destruct avr32 eqn:Ea in Hh.
  - destruct Hn as [[_ Hp]|(_ & Hf & _)]; [|congruence]. destruct (avr32_plain port pin hp hn Hp (proj1 Hpin) Hh) as [[-> H40]|(-> & -> & _)]; [|lia].
    pose proof (px_checked pin ltac:(lia)) as H. unfold px_check in H. change (65 + 23) with 88 in Hh. rewrite Hh in H.
    rewrite !andb_true_iff, !Z.leb_le, !Z.ltb_lt in H. lia.
  - injection Hh as <- <-. lia.
Qed.
Lemma name_pin_plain port pin : has_name port -> 0 <= pin < 2 ^ 31 -> Forall (fun c => c <> 0) (pin_name port pin).
Proof.
  intros Hn Hp. unfold pin_name. apply Forall_app. split; [by apply port_name_plain|]. constructor; [done|]. by apply decimal_chars.
Qed.

(** C13: names and codes of pins and ports: the name of a port or a pin gives its
    code if the board has it, and nothing otherwise; the code is that of the place
    in the hardware, and is decoded to the port and pin of the name - on the AVR32
    as well, where the 40 pins PX are spread over two ports of the hardware. *)
Theorem pio_names port pin : board_ok NUM_PIO pins_of_ports -> has_name port -> 0 <= pin < 2 ^ 31 ->
  pio_mt_index (port_name port) = Some (if has_port port then Some (PLATFORM_IO_ENCODE port 0 true) else None) /\
  (has_port port = true -> let code := PLATFORM_IO_ENCODE port 0 true in PLATFORM_IO_GET_PORT code = port /\ PLATFORM_IO_IS_PORT code = true) /\
  pio_mt_index (pin_name port pin) =
    Some ('(hp, hn) ← hardware port pin; if has_port hp && has_pin hp hn then Some (PLATFORM_IO_ENCODE hp hn false) else None) /\
  (forall hp hn, hardware port pin = Some (hp, hn) -> has_port hp = true -> has_pin hp hn = true ->
     let code := PLATFORM_IO_ENCODE hp hn false in
     pio_decode (ANumber code) = lua_return (port, pin) /\
     PLATFORM_IO_GET_PORT code = hp /\ PLATFORM_IO_GET_PIN code = hn /\ PLATFORM_IO_IS_PORT code = false).
Proof.
  intros Hb Hn Hpin. assert (Hp : 0 <= port < 2 ^ 31) by (destruct Hn as [[_ H]|(_ & _ & H)]; lia). split; [|split; [|split]].
  - unfold Pio.pio_mt_index. rewrite cstring_plain by (by apply port_name_plain). by rewrite parse_port.
  - intros Hport. pose proof (has_port_bound port Hb ltac:(lia) Hport). cbv zeta. destruct (code_spec port 0 true) as (_ & H1 & _ & H2); [lia|lia|done].
  - unfold Pio.pio_mt_index. rewrite cstring_plain by (by apply name_pin_plain). rewrite parse_pin by done.
    by destruct (hardware port pin) as [[hp hn]|].
  - intros hp hn Hh Hport Hhas. cbv zeta. destruct (hardware_range port pin hp hn Hn Hpin Hh) as [Hr1 Hr2].
    split; [by eapply decode_hardware; first [exact Hh|done|lia]|]. pose proof (has_port_bound hp Hb Hr1 Hport). pose proof (has_pin_bound hp hn Hb Hr2 Hhas).
    destruct (code_spec hp hn false) as (_ & H1 & H2 & H3); [lia|lia|done].
Qed.
End Names.

(** ** Groups *)

Section Groups.
Context {S : Type} (platform_pio_op : S -> Z -> Z -> Z -> S * Z) (NUM_PIO : Z) (pins_of_ports : port_pins) (str2number : list Z -> option Z).
Abbreviation has_port := (platform_pio_has_port NUM_PIO pins_of_ports).
Abbreviation has_pin := (platform_pio_has_pin NUM_PIO pins_of_ports).
Abbreviation pioh_set_pins := (pioh_set_pins platform_pio_op NUM_PIO pins_of_ports str2number).
Abbreviation pioh_set_ports := (pioh_set_ports platform_pio_op NUM_PIO pins_of_ports str2number).
Implicit Types st : state S.

(** The operations of the platform one after the other, until one fails. *)
Fixpoint run_ops (ops : list (Z * Z)) (op : Z) (s : S) : lres unit * S :=
  match ops with
  | [] => (inl tt, s)
  | (port, mask) :: ops =>
      let (s, r) := platform_pio_op s port mask op in if r =? 0 then (inr (lit "invalid PIO operation"), s) else run_ops ops op s
  end.
(** The pin or port an argument stands for. *)
Definition pin_arg (a : larg) : option (Z * Z) :=
  v ← lua_isnumber str2number a;
  let port := PLATFORM_IO_GET_PORT (s32 v) in
  let pin := PLATFORM_IO_GET_PIN (s32 v) in
  if PLATFORM_IO_IS_PORT (s32 v) || negb (has_port port) || negb (has_pin port pin) then None else Some (port, pin).
Definition port_arg (a : larg) : option Z :=
  v ← lua_isnumber str2number a;
  let port := PLATFORM_IO_GET_PORT (s32 v) in
  if negb (PLATFORM_IO_IS_PORT (s32 v)) || negb (has_port port) then None else Some port.
Lemma get_port_range v : 0 <= PLATFORM_IO_GET_PORT v < 16.
Proof. unfold PLATFORM_IO_GET_PORT. change (Z.shiftl 1 PLATFORM_IO_PORTS_BITS - 1) with (2 ^ 4 - 1). rewrite land_mask by done. by apply Z.mod_pos_bound. Qed.
Lemma get_pin_range v : 0 <= PLATFORM_IO_GET_PIN v < 32.
Proof. unfold PLATFORM_IO_GET_PIN. change (Z.shiftl 1 PLATFORM_IO_PINS_BITS - 1) with (2 ^ 5 - 1). rewrite land_mask by done. by apply Z.mod_pos_bound. Qed.
Lemma pin_arg_range a port pin : pin_arg a = Some (port, pin) -> 0 <= port < 16 /\ 0 <= pin < 32.
Proof.
  unfold pin_arg. destruct (lua_isnumber str2number a) as [v|]; [|done]. cbn [mbind option_bind]. cbv zeta. destruct (_ || _); [done|].
  intros [= <- <-]. split; [apply get_port_range|apply get_pin_range].
Qed.

Definition add_pin (ms : list Z) (p : Z * Z) : list Z := alter (fun m => Z.lor m (u32 (Z.shiftl 1 (snd p)))) (Z.to_nat (fst p)) ms.
Lemma collect_pins_ok args : forall st pins, mapM pin_arg args = Some pins ->
  collect_pins NUM_PIO pins_of_ports str2number args st = Some (inl tt, mkPio (foldl add_pin (pio_masks st) pins) (platform st)).
Proof.
  induction args as [|a args IH]; intros st pins H; cbn [mapM] in H.
  - injection H as <-. by destruct st.
  - destruct (pin_arg a) as [[port pin]|] eqn:Ha; [|done]. destruct (mapM pin_arg args) as [pins'|] eqn:Hargs; [|done]. injection H as <-.
    cbn [collect_pins foldl]. unfold pio_bind, luaL_checkint. unfold pin_arg in Ha. destruct (lua_isnumber str2number a) as [v|]; [|done].
    cbn [mbind option_bind pio_ret] in *. cbv zeta in *. destruct (_ || _); [done|]. injection Ha as <- <-. cbn [set_mask]. by rewrite (IH _ pins').
Qed.
Lemma collect_pins_bad args : forall st, mapM pin_arg args = None ->
  exists e ms, collect_pins NUM_PIO pins_of_ports str2number args st = Some (inr e, mkPio ms (platform st)).
Proof.
  induction args as [|a args IH]; intros st H; cbn [mapM] in H; [done|]. cbn [collect_pins]. unfold pio_bind, luaL_checkint.
  assert (Hc : pin_arg a = None \/ mapM pin_arg args = None).
  { destruct (pin_arg a); [|by left]. by destruct (mapM pin_arg args); [|right]. }
  clear H. unfold pin_arg at 1 in Hc. destruct st as [ms s]. destruct (lua_isnumber str2number a) as [v|]; cbn [mbind option_bind pio_ret] in *.
  - cbv zeta in *. destruct (_ || _); [eexists _, _; reflexivity|]. destruct Hc as [|Hc]; [done|]. cbn [set_mask].
    match goal with |- context [collect_pins _ _ _ args ?st] => destruct (IH st Hc) as (e & ms' & ->) end. by eexists _, _.
  - eexists _, _. reflexivity.
Qed.
Lemma testbit_pin pin p : 0 <= pin < 32 -> 0 <= p -> Z.testbit (u32 (Z.shiftl 1 pin)) p = bool_decide (p = pin).
Proof.
  intros Hn Hp. rewrite u32_small.
  - rewrite Z.shiftl_1_l, Z.pow2_bits_eqb by lia. destruct (Z.eqb_spec pin p); [by rewrite bool_decide_eq_true_2|by rewrite bool_decide_eq_false_2].
  - unfold is_u. rewrite Z.shiftl_1_l. split; [apply Z.pow_nonneg; lia|apply Z.pow_lt_mono_r; lia].
Qed.
Lemma masks_bits pins : Forall (fun q => 0 <= fst q < 16 /\ 0 <= snd q < 32) pins -> forall ms i p, (i < length ms)%nat -> 0 <= p ->
  Z.testbit (default 0 (foldl add_pin ms pins !! i)) p = Z.testbit (default 0 (ms !! i)) p || bool_decide ((Z.of_nat i, p) ∈ pins).
Proof.
  intros Hp. induction Hp as [|[port pin] pins [H1 H2] _ IH]; intros ms i p Hi Hb; cbn [foldl fst snd] in *.
  - rewrite bool_decide_eq_false_2; [by rewrite orb_false_r|]. apply not_elem_of_nil.
  - rewrite IH; [|unfold add_pin; by rewrite length_alter|done]. unfold add_pin. cbn [fst snd].
    destruct (lookup_lt_is_Some_2 ms i Hi) as [m Hm]. rewrite Hm. destruct (decide (i = Z.to_nat port)) as [->|Hne].
    + rewrite list_lookup_alter_eq, Hm. cbn [fmap option_fmap option_map default id]. rewrite Z.lor_spec, testbit_pin by lia. rewrite <- orb_assoc. f_equal.
      rewrite Z2Nat.id by lia. apply eq_true_iff_eq. rewrite orb_true_iff, !bool_decide_eq_true, elem_of_cons. split; [intros [->|]; auto|].
      intros [[= ->]|]; auto.
    + rewrite list_lookup_alter_ne by done. rewrite Hm. f_equal. apply bool_decide_ext. rewrite elem_of_cons. split; [tauto|].
      intros [[= E _]|]; [lia|done].
Qed.

(** The masks that are not empty, as operations. *)
Definition mask_ops (ms : list Z) (ports : list nat) : list (Z * Z) :=
  flat_map (fun i => let m := default 0 (ms !! i) in if m =? 0 then [] else [(Z.of_nat i, m)]) ports.
Lemma pins_ops_run ports op : forall st,
  pins_ops platform_pio_op ports op st =
    let (r, s) := run_ops (mask_ops (pio_masks st) ports) op (platform st) in Some (r, mkPio (pio_masks st) s).
Proof.
  induction ports as [|i ports IH]; intros [ms s]; cbn [pins_ops mask_ops flat_map pio_masks platform]; [done|].
  destruct (default 0 (ms !! i) =? 0); cbn [app]; [by rewrite IH|]. unfold pio_bind, op_on. cbn [run_ops pio_masks platform].
  destruct (platform_pio_op s (Z.of_nat i) (default 0 (ms !! i)) op) as [s' r]. destruct (r =? 0); [done|]. by rewrite IH.
Qed.
Lemma mask_ops_spec ms ports i m : (i, m) ∈ mask_ops ms ports <-> exists k, i = Z.of_nat k /\ k ∈ ports /\ m = default 0 (ms !! k) /\ m <> 0.
Proof.
  unfold mask_ops. rewrite list_elem_of_In, in_flat_map. split.
  - intros (k & Hk & Hin). cbv zeta in Hin. destruct (Z.eqb_spec (default 0 (ms !! k)) 0); [done|]. destruct Hin as [[= <- <-]|[]].
    exists k. rewrite list_elem_of_In. done.
  - intros (k & -> & Hk & -> & Hm). exists k. split; [by apply list_elem_of_In|]. cbv zeta. rewrite (proj2 (Z.eqb_neq _ _)) by done. by left.
Qed.
Lemma ops_sorted (f : nat -> list (Z * Z)) n : (forall i, f i = [] \/ exists m, f i = [(Z.of_nat i, m)]) -> forall k,
  StronglySorted Z.lt (fst <$> flat_map f (seq k n)) /\ Forall (fun p => Z.of_nat k <= p) (fst <$> flat_map f (seq k n)).
Proof.
  intros Hf. induction n as [|n IH]; intros k; [split; constructor|]. cbn [seq flat_map]. destruct (IH (Datatypes.S k)) as [IH1 IH2].
  assert (IH3 : Forall (fun p => Z.of_nat k < p) (fst <$> flat_map f (seq (Datatypes.S k) n))) by (eapply Forall_impl; [exact IH2|intros p Hp; cbn in Hp; lia]).
  assert (IH4 : Forall (fun p => Z.of_nat k <= p) (fst <$> flat_map f (seq (Datatypes.S k) n))) by (eapply Forall_impl; [exact IH3|intros p Hp; cbn in Hp; lia]).
  destruct (Hf k) as [->|[m ->]]; cbn [app]; [done|]. rewrite fmap_cons. cbn [fst]. split; constructor; done || lia.
Qed.

Definition add_port (m port : Z) : Z := u32 (Z.lor m (Z.shiftl 1 port)).
Lemma collect_ports_ok args : forall m st ports, mapM port_arg args = Some ports ->
  collect_ports NUM_PIO pins_of_ports str2number args m st = Some (inl (foldl add_port m ports), st).
Proof.
  induction args as [|a args IH]; intros m st ports H; cbn [mapM] in H; [by injection H as <-|].
  destruct (port_arg a) as [port|] eqn:Ha; [|done]. destruct (mapM port_arg args) as [ports'|] eqn:Hargs; [|done]. injection H as <-.
  cbn [collect_ports foldl]. unfold pio_bind, luaL_checkint. unfold port_arg in Ha. destruct (lua_isnumber str2number a) as [v|]; [|done].
  cbn [mbind option_bind pio_ret] in *. cbv zeta in *. destruct (_ || _); [done|]. injection Ha as <-. by rewrite (IH _ _ ports').
Qed.
Lemma collect_ports_bad args : forall m st, mapM port_arg args = None ->
  exists e, collect_ports NUM_PIO pins_of_ports str2number args m st = Some (inr e, st).
Proof.
  induction args as [|a args IH]; intros m st H; cbn [mapM] in H; [done|]. cbn [collect_ports]. unfold pio_bind, luaL_checkint.
  assert (Hc : port_arg a = None \/ mapM port_arg args = None).
  { destruct (port_arg a); [|by left]. by destruct (mapM port_arg args); [|right]. }
  clear H. unfold port_arg at 1 in Hc. destruct (lua_isnumber str2number a) as [v|]; cbn [mbind option_bind pio_ret] in *.
  - cbv zeta in *. destruct (_ || _); [eexists _; reflexivity|]. destruct Hc as [|Hc]; [done|]. by apply IH.
  - eexists _. reflexivity.
Qed.
Lemma ports_bits ports : Forall (fun port => 0 <= port < 16) ports -> forall m i, is_u32 m -> 0 <= i < 16 ->
  Z.testbit (foldl add_port m ports) i = Z.testbit m i || bool_decide (i ∈ ports).
Proof.
  intros Hp. induction Hp as [|port ports Hp _ IH]; intros m i Hm Hi; cbn [foldl].
  - rewrite bool_decide_eq_false_2; [by rewrite orb_false_r|]. apply not_elem_of_nil.
  - rewrite IH; [|apply u32_is_u32|done]. unfold add_port, u32, wrap. rewrite Z.mod_pow2_bits_low, Z.lor_spec by lia.
    rewrite Z.shiftl_1_l, Z.pow2_bits_eqb, <- orb_assoc by lia. f_equal. apply eq_true_iff_eq.
    rewrite orb_true_iff, !bool_decide_eq_true, elem_of_cons, Z.eqb_eq. split; intros [->|]; auto.
Qed.
Lemma land_one_bit m i : 0 <= i -> (Z.land m (Z.shiftl 1 i) =? 0) = negb (Z.testbit m i).
Proof.
  intros Hi. rewrite Z.shiftl_1_l. destruct (Z.testbit m i) eqn:E; cbn [negb].
  - apply Z.eqb_neq. intros H. assert (Hb : Z.testbit (Z.land m (2 ^ i)) i = true) by (by rewrite Z.land_spec, E, Z.pow2_bits_true).
    rewrite H in Hb. by rewrite Z.bits_0 in Hb.
  - apply Z.eqb_eq, Z.bits_inj'. intros j Hj. rewrite Z.land_spec, Z.bits_0, Z.pow2_bits_eqb by done.
    destruct (Z.eqb_spec i j) as [<-|]; [by rewrite E|by rewrite andb_false_r].
Qed.
Definition port_ops (pm mask : Z) (ports : list nat) : list (Z * Z) :=
  flat_map (fun i => if Z.testbit pm (Z.of_nat i) then [(Z.of_nat i, mask)] else []) ports.
Lemma ports_ops_run ports pm op mask : forall st,
  ports_ops platform_pio_op ports pm op mask st =
    let (r, s) := run_ops (port_ops pm mask ports) op (platform st) in Some (r, mkPio (pio_masks st) s).
Proof.
  induction ports as [|i ports IH]; intros [ms s]; cbn [ports_ops port_ops flat_map pio_masks platform]; [done|]. rewrite land_one_bit by lia.
  destruct (Z.testbit pm (Z.of_nat i)); cbn [negb app]; [|by rewrite IH]. unfold pio_bind, op_on. cbn [run_ops pio_masks platform].
  destruct (platform_pio_op s (Z.of_nat i) mask op) as [s' r]. destruct (r =? 0); [done|]. by rewrite IH.
Qed.

Lemma mapM_range {A} (f : larg -> option A) (P : A -> Prop) args l : (forall a x, f a = Some x -> P x) -> mapM f args = Some l -> Forall P l.
Proof.
  intros Hf Hm. apply mapM_Some in Hm. apply Forall_lookup_2. intros i x Hi. destruct (Forall2_lookup_r _ _ _ _ _ Hm Hi) as (a & _ & Ha). by eapply Hf.
Qed.
Lemma port_arg_range a port : port_arg a = Some port -> 0 <= port < 16.
Proof.
  unfold port_arg. destruct (lua_isnumber str2number a) as [v|]; [|done]. cbn [mbind option_bind]. cbv zeta. destruct (_ || _); [done|].
  intros [= <-]. apply get_port_range.
Qed.
(** The operations on the masks of a group of pins are those of the pins. *)
Lemma pins_group pins : Forall (fun q => 0 <= fst q < 16 /\ 0 <= snd q < 32) pins ->
  let ops := mask_ops (foldl add_pin (replicate PLATFORM_IO_PORTS 0) pins) (seq 0 PLATFORM_IO_PORTS) in
  StronglySorted Z.lt (fst <$> ops) /\
  (forall port pin, 0 <= pin -> (port, pin) ∈ pins <-> exists m, (port, m) ∈ ops /\ Z.testbit m pin = true) /\
  Forall (fun '(_, m) => m <> 0) ops.
Proof.
  intros Hr. set (ms := foldl add_pin _ pins). intros ops.
  assert (Hbits : forall i p, (i < 16)%nat -> 0 <= p -> Z.testbit (default 0 (ms !! i)) p = bool_decide ((Z.of_nat i, p) ∈ pins)).
  { intros i p Hi Hp. unfold ms. rewrite masks_bits by done. rewrite lookup_replicate_2 by done. cbn [default id]. by rewrite Z.bits_0. }
  split; [|split].
  - apply ops_sorted. intros i. cbv zeta. destruct (default 0 (ms !! i) =? 0); [by left|right; by eexists].
  - intros port pin Hpin. split.
    + intros Hin. rewrite Forall_forall in Hr. destruct (Hr _ Hin) as [H1 _]. cbn in H1. set (k := Z.to_nat port).
      assert (Hk : port = Z.of_nat k) by lia. assert (Ht : Z.testbit (default 0 (ms !! k)) pin = true).
      { rewrite Hbits by (done || lia). apply bool_decide_eq_true_2. by rewrite <- Hk. }
      exists (default 0 (ms !! k)). split; [|done]. apply mask_ops_spec. exists k. split; [done|].
      split; [apply elem_of_seq; unfold PLATFORM_IO_PORTS; lia|]. split; [done|]. intros H0. by rewrite H0, Z.bits_0 in Ht.
    + intros (m & Hin & Ht). apply mask_ops_spec in Hin as (k & -> & Hk & -> & _). apply elem_of_seq in Hk. unfold PLATFORM_IO_PORTS in Hk.
      rewrite Hbits in Ht by (done || lia). by apply bool_decide_eq_true in Ht.
  - apply Forall_forall. intros [port m] Hin. by apply mask_ops_spec in Hin as (k & _ & _ & _ & Hm).
Qed.
Lemma ports_group ports mask : Forall (fun port => 0 <= port < 16) ports ->
  let ops := port_ops (foldl add_port 0 ports) mask (seq 0 PLATFORM_IO_PORTS) in
  StronglySorted Z.lt (fst <$> ops) /\ (forall port m, (port, m) ∈ ops <-> port ∈ ports /\ m = mask).
Proof.
  intros Hr. set (pm := foldl add_port 0 ports). intros ops.
  assert (Hbits : forall i, 0 <= i < 16 -> Z.testbit pm i = bool_decide (i ∈ ports)).
  { intros i Hi. unfold pm. rewrite ports_bits; [by rewrite Z.bits_0|done|by_decide|done]. }
  split.
  - apply ops_sorted. intros i. destruct (Z.testbit pm (Z.of_nat i)); [right; by eexists|by left].
  - intros port m. unfold ops, port_ops. rewrite list_elem_of_In, in_flat_map. split.
    + intros (k & Hk & Hin). apply in_seq in Hk. unfold PLATFORM_IO_PORTS in Hk. rewrite Hbits in Hin by lia.
      case_bool_decide; [|done]. by destruct Hin as [[= <- <-]|[]].
    + intros [Hin ->]. rewrite Forall_forall in Hr. pose proof (Hr _ Hin) as H1. cbn in H1. exists (Z.to_nat port).
      split; [apply in_seq; unfold PLATFORM_IO_PORTS; lia|]. rewrite Z2Nat.id, Hbits by lia. rewrite bool_decide_eq_true_2 by done. by left.
Qed.

(** C12: an operation on a group of pins, or of ports: if every argument is a pin
    (a port) of the board, the platform is asked once for each port of the group,
    in ascending order, with the mask that has the bits of exactly the pins named
    (with the mask given), until it refuses; and if an argument is not, it is an
    error, and the platform is not asked at all. *)
Theorem pio_groups args op mask st :
  match mapM pin_arg args with
  | Some pins => exists ops ms,
      StronglySorted Z.lt (fst <$> ops) /\
      (forall port pin, 0 <= pin -> (port, pin) ∈ pins <-> exists m, (port, m) ∈ ops /\ Z.testbit m pin = true) /\
      Forall (fun '(_, m) => m <> 0) ops /\
      pioh_set_pins args op st = let (r, s) := run_ops ops op (platform st) in Some (r, mkPio ms s)
  | None => exists e ms, pioh_set_pins args op st = Some (inr e, mkPio ms (platform st))
  end /\
  match mapM port_arg args with
  | Some ports => exists ops,
      StronglySorted Z.lt (fst <$> ops) /\ (forall port m, (port, m) ∈ ops <-> port ∈ ports /\ m = mask) /\
      pioh_set_ports args op mask st = let (r, s) := run_ops ops op (platform st) in Some (r, mkPio (pio_masks st) s)
  | None => exists e, pioh_set_ports args op mask st = Some (inr e, st)
  end.
Proof.
  split.
  - unfold Pio.pioh_set_pins, pio_bind, pioh_clear_masks. destruct (mapM pin_arg args) as [pins|] eqn:Hargs.
    + rewrite (collect_pins_ok args _ pins Hargs). cbn [pio_masks platform].
      assert (Hr : Forall (fun q => 0 <= fst q < 16 /\ 0 <= snd q < 32) pins).
      { eapply mapM_range; [|exact Hargs]. intros a [port pin]. apply pin_arg_range. }
      destruct (pins_group pins Hr) as (H1 & H2 & H3). eexists _, _. split; [exact H1|]. split; [exact H2|]. split; [exact H3|].
      by rewrite pins_ops_run.
    + destruct (collect_pins_bad args (mkPio (replicate PLATFORM_IO_PORTS 0) (platform st)) Hargs) as (e & ms & ->). by exists e, ms.
  - unfold Pio.pioh_set_ports, pio_bind. destruct (mapM port_arg args) as [ports|] eqn:Hargs.
    + rewrite (collect_ports_ok args 0 st ports Hargs).
      destruct (ports_group ports mask (mapM_range _ _ _ _ port_arg_range Hargs)) as (H1 & H2). eexists. split; [exact H1|]. split; [exact H2|].
      by rewrite ports_ops_run.
    + destruct (collect_ports_bad args 0 st Hargs) as (e & ->). by exists e.
Qed.
End Groups.

(** ** Concrete boards *)

(** The pins of the LM3S8962 and of the AT32UC3A0128; a platform that notes what
    it is asked, and refuses port 6. *)
Definition lm3s8962 : port_pins := PIO_PIN_ARRAY [8; 8; 8; 8; 4; 4; 2].
Definition at32uc3a0128 : port_pins := PIO_PIN_ARRAY [31; 32; 32; 14].
Definition noted (s : list (Z * Z * Z)) (port mask op : Z) : list (Z * Z * Z) * Z := (s ++ [(port, mask, op)], if port =? 6 then 0 else 1).
Definition digits_only (s : list Z) : option Z := None.
Lemma lm3s8962_ok : board_ok 7 lm3s8962.
Proof.
  split; [lia|]. intros port. cbn [platform_pio_get_num_pins lm3s8962]. destruct (_ !! _) as [n|] eqn:E; cbn; [|lia].
  enough (Forall (fun n => n <= 32) [8; 8; 8; 8; 4; 4; 2]) as H by (exact (Forall_lookup_1 _ _ _ _ H E)). repeat constructor; lia.
Qed.
Lemma at32uc3a0128_ok : board_ok 4 at32uc3a0128.
Proof.
  split; [lia|]. intros port. cbn [platform_pio_get_num_pins at32uc3a0128]. destruct (_ !! _) as [n|] eqn:E; cbn; [|lia].
  enough (Forall (fun n => n <= 32) [31; 32; 32; 14]) as H by (exact (Forall_lookup_1 _ _ _ _ H E)). repeat constructor; lia.
Qed.
Abbreviation avr_index := (pio_mt_index 4 at32uc3a0128 65 true).
Lemma pio_names_witness :
  avr_index (lit "PX") = Some None /\ (platform_pio_has_port 4 at32uc3a0128 23 = true ->
    PLATFORM_IO_GET_PORT (PLATFORM_IO_ENCODE 23 0 true) = 23 /\ PLATFORM_IO_IS_PORT (PLATFORM_IO_ENCODE 23 0 true) = true) /\
  avr_index (lit "PX_17") = Some (Some (PLATFORM_IO_ENCODE 2 23 false)) /\
  (forall hp hn, hardware true 23 17 = Some (hp, hn) -> platform_pio_has_port 4 at32uc3a0128 hp = true -> platform_pio_has_pin 4 at32uc3a0128 hp hn = true ->
     pio_decode true digits_only (ANumber (PLATFORM_IO_ENCODE hp hn false)) = lua_return (23, 17) /\
     PLATFORM_IO_GET_PORT (PLATFORM_IO_ENCODE hp hn false) = hp /\ PLATFORM_IO_GET_PIN (PLATFORM_IO_ENCODE hp hn false) = hn /\
     PLATFORM_IO_IS_PORT (PLATFORM_IO_ENCODE hp hn false) = false).
Proof. apply (pio_names 4 at32uc3a0128 65 true digits_only 23 17 at32uc3a0128_ok); [left; lia|lia]. Defined.

Abbreviation lm3s_high := (pio_pin_sethigh noted 7 lm3s8962 digits_only).
Definition no_masks : state (list (Z * Z * Z)) := mkPio [] [].
(** PA_0, PC_2 and PA_7, in this order: two operations, on port A and on port C. *)
Example pins_set : lm3s_high [ANumber 0; ANumber 66; ANumber 7] no_masks =
  Some (inl tt, mkPio (<[2%nat := 4]> (<[0%nat := 129]> (replicate 16 0))) [(0, 129, PLATFORM_IO_PIN_SET); (2, 4, PLATFORM_IO_PIN_SET)]).
Proof. reflexivity. Qed.
(** A pin that is not there: nothing is asked of the platform. *)
Example no_such_pin : lm3s_high [ANumber 0; ANumber 8] no_masks = Some (inr (lit "invalid pin"), mkPio (<[0%nat := 1]> (replicate 16 0)) []).
Proof. reflexivity. Qed.
(** A refusal comes after the ports before it have changed. *)
Example refused : lm3s_high [ANumber 193; ANumber 0] no_masks =
  Some (inr (lit "invalid PIO operation"), mkPio (<[6%nat := 2]> (<[0%nat := 1]> (replicate 16 0))) [(0, 1, 0); (6, 2, 0)]).
Proof. reflexivity. Qed.
Example board_names : pio_mt_index 7 lm3s8962 65 false (lit "PC_2") = Some (Some 66) /\ pio_mt_index 7 lm3s8962 65 false (lit "PB") = Some (Some 16416) /\
  pio_mt_index 7 lm3s8962 65 false (lit "PC_8") = Some None /\ pio_mt_index 7 lm3s8962 48 false (lit "P2_2") = Some (Some 66).
Proof. repeat split; reflexivity. Qed.

(** ** What else the code does *)

(** On the AVR32 the code of port D is decoded as pin 4 of port X. *)
Example port_d_decoded : avr_index (lit "PD") = Some (Some (PLATFORM_IO_ENCODE 3 0 true)) /\
  pio_decode true digits_only (ANumber (PLATFORM_IO_ENCODE 3 0 true)) = lua_return (23, 4).
Proof. split; reflexivity. Qed.
(** Spaces and signs are part of a number. *)
Example name_with_space : pio_mt_index 7 lm3s8962 65 false (lit "PC_ +2") = Some (Some 66).
Proof. reflexivity. Qed.
(** More results than the stack has room for. *)
Example many_pins : pio_pin_getval noted 7 lm3s8962 digits_only (replicate 21 (ANumber 0)) no_masks = None /\
  fst <$> pio_pin_getval noted 7 lm3s8962 digits_only (replicate 20 (ANumber 0)) no_masks = Some (inl (replicate 20 1)).
Proof. split; reflexivity. Qed.
(** The direction of a port is set with the operation for pins, or for ports. *)
Example two_operations : platform <$> (snd <$> pio_port_output noted 7 lm3s8962 digits_only [ANumber 16416] no_masks) =
    Some [(1, PLATFORM_IO_ALL_PINS, PLATFORM_IO_PIN_DIR_OUTPUT)] /\
  platform <$> (snd <$> pio_port_setdir noted 7 lm3s8962 digits_only [ANumber PIO_DIR_OUTPUT; ANumber 16416] no_masks) =
    Some [(1, PLATFORM_IO_ALL_PINS, PLATFORM_IO_PORT_DIR_OUTPUT)].
Proof. split; reflexivity. Qed.
