(* ===== verification/Uart.v ===== *)
(** * Uart: serial ports of Lua, with buffers and timeouts

    Models what src/common_uart.c has besides the multiplexer (Sermux): receiving
    with timeouts, buffers and their interrupt handler, flow control; and
    src/modules/uart.c, the functions of Lua. Interrupts come between two looks at
    a buffer: [env] says which. *)

From S2P Require Import Prelude LuaApi Fifo Buf IntQueue Common Sermux.

Definition TIMER_SYS_ID : Z := 0x100.
Definition UART_INFINITE_TIMEOUT : Z := 2 ^ 32 - 2 + 1.
Definition PLATFORM_CPU_DISABLE : Z := 0.
Definition CPU_ENABLE : Z := 1.
Definition PLATFORM_INT_OK : Z := 0.

(** ** The receive side of common_uart.c *)

(** The handlers of the receive interrupt: [cmn_uart_rx_inthandler], or another. *)
Inductive rx_handler := CmnRx | OtherRx (n : Z).
#[export] Instance rx_handler_eq_dec : EqDecision rx_handler.
Proof. solve_decision. Defined.
(** The UARTs, the C handlers of all interrupts, the handler before ours, and the
    state of the processor. *)
Record ports (X : Type) := mkPorts { board : uart; c_handlers : list (option rx_handler); prev_uart_rx_handler : option rx_handler; cpu : X }.
Arguments mkPorts {X}. Arguments board {X}. Arguments c_handlers {X}. Arguments prev_uart_rx_handler {X}. Arguments cpu {X}.
(** A moment: the ports, and how many there have been. *)
Record uworld (X : Type) := mkWorld { at_ports : ports X; tick : nat }.
Arguments mkWorld {X}. Arguments at_ports {X}. Arguments tick {X}.

Section Uart.
Context {X : Type}.
(** The platform's numbers; the interrupt's number and the last one's. *)
Context (NUM_UART NUM_VUART_BUFS SERMUX_NUM_VUART SERMUX_PHYS_ID INT_UART_RX INT_ELUA_LAST : Z).
(** The interrupts of the processor; memory; what other handlers do. *)
Context (platform_cpu_get_interrupt : Z -> X -> Z) (platform_cpu_set_interrupt : Z -> Z -> X -> Z * X).
Context (realloc : option (list Z) -> Z -> option (list Z)) (other : Z -> Z -> uart -> option uart).
(** The interrupts at a moment: the UART and the bytes it has. *)
Context (env : nat -> list (Z * list Z)).
(** Receiving without a buffer; the time. *)
Context (platform_s_uart_recv : Z -> Z -> uworld X -> option (Z * uworld X)).
Context (platform_timer_start : Z -> uworld X -> Z) (platform_timer_get_diff_crt : Z -> Z -> uworld X -> Z).

Definition set_board (p : ports X) (u : uart) : ports X := mkPorts u (c_handlers p) (prev_uart_rx_handler p) (cpu p).
Definition set_handlers (p : ports X) (l : list (option rx_handler)) : ports X := mkPorts (board p) l (prev_uart_rx_handler p) (cpu p).
Definition set_prev (p : ports X) (h : option rx_handler) : ports X := mkPorts (board p) (c_handlers p) h (cpu p).
Definition set_cpu (p : ports X) (x : X) : ports X := mkPorts (board p) (c_handlers p) (prev_uart_rx_handler p) x.

(** The interrupt of a UART that has [bytes]. Our handler calls the one before it;
    if that were itself, it would not end. *)
Definition on_interrupt (p : ports X) (ev : Z * list Z) : option (ports X) :=
  let '(resnum, bytes) := ev in
  h ← elua_int_get_c_handler INT_ELUA_LAST INT_UART_RX (c_handlers p);
  match h with
  | None => Some p
  | Some (OtherRx n) => set_board p <$> other n resnum (board p)
  | Some CmnRx =>
      prev ← (match prev_uart_rx_handler p with None => Some None | Some (OtherRx n) => Some (Some (other n)) | Some CmnRx => None end);
      set_board p <$> cmn_uart_rx_inthandler NUM_UART NUM_VUART_BUFS SERMUX_NUM_VUART SERMUX_PHYS_ID prev resnum bytes (board p)
  end.
Fixpoint on_interrupts (p : ports X) (evs : list (Z * list Z)) : option (ports X) :=
  match evs with [] => Some p | ev :: evs => p ← on_interrupt p ev; on_interrupts p evs end.

(** One look at the buffer, after the interrupts of the moment. *)
Definition look (id : Z) (w : uworld X) : option (Z * uworld X) :=
  p ← on_interrupts (at_ports w) (env (tick w));
  '(r, data, b) ← buf_read NUM_UART NUM_VUART_BUFS BUF_ID_UART id (bufs (board p));
  if r =? PLATFORM_UNDERFLOW then Some (-1, mkWorld p (S (tick w)))
  else d ← head data; Some (d, mkWorld (set_board p (with_bufs (board p) b)) (S (tick w))).
(** [while( buf_read( ... ) == PLATFORM_UNDERFLOW )] *)
Fixpoint wait_byte (fuel : nat) (id : Z) (w : uworld X) : option (Z * uworld X) :=
  match fuel with
  | O => None
  | S fuel => '(d, w) ← look id w; if d =? -1 then wait_byte fuel id w else Some (d, w)
  end.
Definition recv_helper (fuel : nat) (id timeout : Z) (w : uworld X) : option (Z * uworld X) :=
  enabled ← buf_is_enabled NUM_UART NUM_VUART_BUFS BUF_ID_UART id (bufs (board (at_ports w)));
  if enabled : bool then (if timeout =? 0 then look id w else wait_byte fuel id w)
  else if (id <? NUM_UART) || (id =? CDC_UART_ID) then platform_s_uart_recv id timeout w
  else Some (-1, w).
Fixpoint recv_until (fuel : nat) (id timer_id timeout start : Z) (w : uworld X) : option (Z * uworld X) :=
  match fuel with
  | O => None
  | S fuel =>
      '(res, w) ← recv_helper 0 id 0 w;
      if 0 <=? res then Some (res, w)
      else if timeout <=? platform_timer_get_diff_crt timer_id start w then Some (res, w)
      else recv_until fuel id timer_id timeout start w
  end.
Definition platform_uart_recv (fuel : nat) (id timer_id timeout : Z) (w : uworld X) : option (Z * uworld X) :=
  if timeout =? 0 then recv_helper fuel id timeout w
  else if timeout =? UART_INFINITE_TIMEOUT then recv_helper fuel id timeout w
  else recv_until fuel id timer_id timeout (platform_timer_start timer_id w) w.

(** ** Buffers *)

Definition platform_uart_set_buffer (id log2size : Z) (p : ports X) : option (Z * ports X) :=
  let set_buf size p :=
    '(r, b) ← buf_set NUM_UART NUM_VUART_BUFS realloc BUF_ID_UART id size 0 (bufs (board p));
    Some (r, set_board p (with_bufs (board p) b)) in
  if id =? SERMUX_PHYS_ID then Some (PLATFORM_ERR, p)
  else if log2size =? 0 then
    if SERMUX_SERVICE_ID_FIRST <=? id then Some (PLATFORM_ERR, p)
    else
      p ← (if id =? CDC_UART_ID then Some p
           else
             let p := if platform_cpu_get_interrupt id (cpu p) =? CPU_ENABLE
                      then set_cpu p (snd (platform_cpu_set_interrupt id PLATFORM_CPU_DISABLE (cpu p))) else p in
             h ← elua_int_get_c_handler INT_ELUA_LAST INT_UART_RX (c_handlers p);
             if decide (h = Some CmnRx) then
               '(_, l) ← elua_int_set_c_handler INT_ELUA_LAST INT_UART_RX (prev_uart_rx_handler p) (c_handlers p); Some (set_handlers p l)
             else Some p);
      '(_, p) ← set_buf BUF_SIZE_NONE p;
      Some (PLATFORM_OK, p)
  else
    '(r, p) ← set_buf log2size p;
    if r =? PLATFORM_ERR then Some (PLATFORM_ERR, p)
    else if (id =? CDC_UART_ID) || (SERMUX_SERVICE_ID_FIRST <=? id) then Some (PLATFORM_OK, p)
    else
      h ← elua_int_get_c_handler INT_ELUA_LAST INT_UART_RX (c_handlers p);
      p ← (if decide (h = Some CmnRx) then Some p
           else '(old, l) ← elua_int_set_c_handler INT_ELUA_LAST INT_UART_RX (Some CmnRx) (c_handlers p); Some (set_prev (set_handlers p l) old));
      let '(r, x) := platform_cpu_set_interrupt id CPU_ENABLE (cpu p) in
      Some (if r <? 0 then PLATFORM_ERR else PLATFORM_OK, set_cpu p x).
(** Without the interrupt of the line there is nothing else to do than to stop. *)
Definition cmn_uart_setup_sermux (p : ports X) : option (ports X) :=
  let '(r, x) := platform_cpu_set_interrupt SERMUX_PHYS_ID CPU_ENABLE (cpu p) in
  let p := set_cpu p x in
  if r =? PLATFORM_INT_OK then
    h ← elua_int_get_c_handler INT_ELUA_LAST INT_UART_RX (c_handlers p);
    if decide (h = Some CmnRx) then Some p
    else '(old, l) ← elua_int_set_c_handler INT_ELUA_LAST INT_UART_RX (Some CmnRx) (c_handlers p); Some (set_prev (set_handlers p l) old)
  else None.
Definition platform_uart_set_flow_control (platform_s_uart_set_flow_control : Z -> Z -> X -> Z * X) (id type : Z) (p : ports X) : Z * ports X :=
  if (SERMUX_SERVICE_ID_FIRST <=? id) || (id =? CDC_UART_ID) then (PLATFORM_ERR, p)
  else let '(r, x) := platform_s_uart_set_flow_control id type (cpu p) in (r, set_cpu p x).
End Uart.

(** ** The Lua module *)

Inductive read_mode := UART_READ_MODE_LINE | UART_READ_MODE_NUMBER | UART_READ_MODE_SPACE | UART_READ_MODE_MAXSIZE.
Definition is_digit_char (c : Z) : bool := (48 <=? c) && (c <=? 57).

Section Module.
Context {W : Type}.
(** [platform_uart_recv]: the UART, the timer, the timeout. *)
Context (recv : Z -> Z -> Z -> W -> option (Z * W)).
Context (str2number : list Z -> option Z) (uart_exists : Z -> bool) (platform_timer_sys_available : bool).
Abbreviation luaL_checkinteger := (luaL_checkinteger str2number).

(** The timeout and the timer. *)
Definition uart_get_timeout_data (timeout timer : larg) : option (lres (Z * Z)) :=
  let! t := (match timeout with
             | ANumber x => if (x <? 0) || (UART_INFINITE_TIMEOUT <? x) then lua_error (lit "invalid timeout value") else lua_return x
             | _ => lua_return UART_INFINITE_TIMEOUT
             end) in
  let! id := (match timer with ANil => lua_return TIMER_SYS_ID | _ => luaL_checkinteger timer (fun x => lua_return (u32 x)) end) in
  if (id =? TIMER_SYS_ID) && negb platform_timer_sys_available then
    lua_error (lit "the system timer is not implemented on this platform")
  else lua_return (t, id).

(** Whether a character ends the reading, and is not part of what is read. *)
Definition ends_read (mode : read_mode) (count res cres : Z) : bool :=
  let issign := (count =? 1) && ((res =? 45) || (res =? 43)) in
  match mode with
  | UART_READ_MODE_LINE => cres =? 10
  | UART_READ_MODE_NUMBER => negb (is_digit_char cres) && negb issign
  | UART_READ_MODE_SPACE => isspace cres
  | UART_READ_MODE_MAXSIZE => false
  end.
(** A first try without a timeout, a second with it. *)
Definition next_byte (id timer_id timeout : Z) (w : W) : option (Z * W) :=
  '(res, w) ← recv id timer_id 0 w;
  if (res =? -1) && (0 <? timeout) then recv id timer_id timeout w else Some (res, w).
Fixpoint read_chars (fuel : nat) (id timer_id timeout : Z) (mode : read_mode) (maxsize count : Z) (w : W) : option (list Z * W) :=
  match fuel with
  | O => None
  | S fuel =>
      '(res, w) ← next_byte id timer_id timeout w;
      if res =? -1 then Some ([], w)
      else
        let cres := u8 res in
        let count := count + 1 in
        if ends_read mode count res cres then Some ([], w)
        else if (count =? maxsize) && (match mode with UART_READ_MODE_MAXSIZE => true | _ => false end) then Some ([cres], w)
        else '(cs, w) ← read_chars fuel id timer_id timeout mode maxsize count w; Some (cres :: cs, w)
  end.
(** The format: the mode and the largest size. *)
Definition read_format (fmt : larg) : option (lres (read_mode * Z)) :=
  match lua_isnumber str2number fmt with
  | Some x => if s32 x <? 0 then lua_error (lit "invalid max size") else lua_return (UART_READ_MODE_MAXSIZE, s32 x)
  | None =>
      match fmt with
      | AString f =>
          let f := cstring f in
          if bool_decide (f = lit "*l") then lua_return (UART_READ_MODE_LINE, 0)
          else if bool_decide (f = lit "*n") then lua_return (UART_READ_MODE_NUMBER, 0)
          else if bool_decide (f = lit "*s") then lua_return (UART_READ_MODE_SPACE, 0)
          else lua_error (lit "invalid format")
      | _ => lua_error (lit "string expected")
      end
  end.
Definition check_uart {A} (id : larg) (k : Z -> option (lres A)) : option (lres A) :=
  luaL_checkinteger id (fun x => if uart_exists (u32 x) then k (s32 x) else lua_error (no_such (lit "uart") (u32 x))).
(** The string or the number, and the ports afterwards. *)
Definition uart_read (fuel : nat) (id fmt timeout timer : larg) (w : W) : option (lres (larg * W)) :=
  check_uart id (fun id =>
    let! (mode, maxsize) := read_format fmt in
    let! (t, timer_id) := uart_get_timeout_data timeout timer in
    '(cs, w) ← read_chars fuel (u32 id) timer_id t mode maxsize 0 w;
    lua_return (match mode with
                | UART_READ_MODE_NUMBER => ANumber (s32 (default 0 (str2number cs)))
                | _ => AString cs
                end, w)).
Definition uart_getchar (id timeout timer : larg) (w : W) : option (lres (list Z * W)) :=
  check_uart id (fun id =>
    let! (t, timer_id) := uart_get_timeout_data timeout timer in
    '(res, w) ← recv (u32 id) timer_id t w;
    lua_return (if res =? -1 then [] else [u8 res], w)).

(** Sending: numbers are bytes. *)
Context (send : Z -> Z -> W -> W).
Fixpoint write_args (id : Z) (args : list larg) (w : W) : lres unit * W :=
  match args with
  | [] => (inl tt, w)
  | ANumber x :: args =>
      let len := u32 x in
      if 255 <? len then (inr (lit "invalid number"), w) else write_args id args (send id len w)
  | AString s :: args => write_args id args (foldl (fun w c => send id c w) w s)
  | _ :: _ => (inr (lit "string expected"), w)
  end.
Definition uart_write (args : list larg) (w : W) : option (lres unit * W) :=
  r ← check_uart (default ANil (head args)) (fun id => lua_return id);
  Some (match r with inl id => write_args (u32 id) (tail args) w | inr e => (inr e, w) end).

(** The platform's settings. *)
Context (platform_uart_setup : Z -> Z -> Z -> Z -> Z -> W -> Z * W).
Definition uart_setup (id baud databits parity stopbits : larg) (w : W) : option (lres (Z * W)) :=
  check_uart id (fun id =>
    if SERMUX_SERVICE_ID_FIRST <=? u32 id then lua_error (lit "uart.setup can't be called on virtual UARTs")
    else luaL_checkinteger baud (fun b => luaL_checkinteger databits (fun d => luaL_checkinteger parity (fun p => luaL_checkinteger stopbits (fun s =>
      let '(r, w) := platform_uart_setup (u32 id) (u32 b) (u32 d) (u32 p) (u32 s) w in lua_return (s32 r, w)))))).
Context (set_buffer : Z -> Z -> W -> option (Z * W)) (set_flow_control : Z -> Z -> W -> Z * W).
Definition uart_set_buffer (id size : larg) (w : W) : option (lres unit * W) :=
  let failed e := Some (inr e, w) in
  match luaL_checkinteger id lua_return, luaL_checkinteger size lua_return with
  | Some (inl id), Some (inl size) =>
      let size := u32 size in
      if negb (uart_exists (u32 id)) then failed (no_such (lit "uart") (u32 id))
      else if negb (size =? 0) && negb (Z.land size (size - 1) =? 0) then failed (lit "the buffer size must be a power of 2 or 0")
      else if (size =? 0) && (SERMUX_SERVICE_ID_FIRST <=? s32 id) then failed (lit "disabling buffers on virtual UARTs is not allowed")
      else '(r, w) ← set_buffer (u32 id) (intlog2 size) w;
           Some (if r =? PLATFORM_ERR then inr (lit "unable to set UART buffer") else inl tt, w)
  | Some (inr e), _ | _, Some (inr e) => failed e
  | _, _ => None
  end.
Definition uart_set_flow_control (id type : larg) (w : W) : option (lres unit * W) :=
  let failed e := Some (inr e, w) in
  match luaL_checkinteger id lua_return, luaL_checkinteger type lua_return with
  | Some (inl id), Some (inl type) =>
      if negb (uart_exists (u32 id)) then failed (no_such (lit "uart") (u32 id))
      else
        let '(r, w) := set_flow_control (u32 id) (s32 type) w in
        Some (if r =? PLATFORM_OK then inl tt
              else inr (lit "unable to set the flow control on interface " ++ (if s32 id <? 0 then 45 :: decimal (- s32 id) else decimal (s32 id))), w)
  | Some (inr e), _ | _, Some (inr e) => failed e
  | _, _ => None
  end.
End Module.
(** The name of a virtual UART: its number. *)
Definition uart_mt_index (SERMUX_NUM_VUART : Z) (key : list Z) : option Z :=
  match cstring key with
  | [86; 85; 65; 82; 84; c] => if is_digit_char c && (c - 48 <? SERMUX_NUM_VUART) then Some (SERMUX_SERVICE_ID_FIRST + (c - 48)) else None
  | _ => None
  end.

(** ** Reading what arrives *)

Section Stream.
Context {X : Type} (NUM_UART NUM_VUART_BUFS SERMUX_NUM_VUART SERMUX_PHYS_ID INT_UART_RX INT_ELUA_LAST : Z).
Context (other : Z -> Z -> uart -> option uart) (platform_s_uart_recv : Z -> Z -> uworld X -> option (Z * uworld X)).
Context (platform_timer_start : Z -> uworld X -> Z) (platform_timer_get_diff_crt : Z -> Z -> uworld X -> Z).
(** One UART, and the bytes of its interrupts at every moment. *)
Context (id : Z) (batches : nat -> list (list Z)).
Hypothesis Hid : id <> SERMUX_PHYS_ID.
Hypothesis Hbytes : forall t, Forall (Forall is_u8) (batches t).
Definition line_env (t : nat) : list (Z * list Z) := pair id <$> batches t.
Definition batch (t : nat) : list Z := concat (batches t).
Abbreviation look := (look NUM_UART NUM_VUART_BUFS SERMUX_NUM_VUART SERMUX_PHYS_ID INT_UART_RX INT_ELUA_LAST other line_env).
Abbreviation wait_byte := (wait_byte NUM_UART NUM_VUART_BUFS SERMUX_NUM_VUART SERMUX_PHYS_ID INT_UART_RX INT_ELUA_LAST other line_env).
Abbreviation getptr := (buf_getptr NUM_UART NUM_VUART_BUFS).

(** The buffer of the UART is a queue that holds [q] and has room for [cap] bytes,
    and interrupts get there. *)
Definition buf_holds (cap : nat) (q : list Z) (b : buf_array) : Prop :=
  exists d, getptr b BUF_ID_UART id = Some d /\ fifo_ok d /\ fifo_cap d = cap /\
    (forall e, fifo_elem d e <-> Forall is_u8 e /\ length e = 1%nat) /\ fifo_list d = (fun c => [c]) <$> q.
Record rx_ready (cap : nat) (q : list Z) (w : uworld X) : Prop := {
  rd_buffer : buf_holds cap q (bufs (board (at_ports w)));
  rd_handler : elua_int_get_c_handler INT_ELUA_LAST INT_UART_RX (c_handlers (at_ports w)) = Some (Some CmnRx);
  rd_prev : prev_uart_rx_handler (at_ports w) = None
}.

Lemma put_byte cap q c b : buf_holds cap q b -> is_u8 c -> (length q < cap)%nat ->
  exists b', buf_write NUM_UART NUM_VUART_BUFS BUF_ID_UART id [c] b = Some (PLATFORM_OK, b') /\ buf_holds cap (q ++ [c]) b'.
Proof.
  intros (d & Hg & Hok & Hcap & Hel & Hq) Hc Hlt.
  destruct (fifo_put_ok d [c] Hok) as (d' & Hput & Hok' & [Hc' He'] & Hq').
  { apply Hel. by rewrite Forall_singleton. }
  { by rewrite Hq, length_fmap, Hcap. }
  cbn [fifo_put buf_fifo] in Hput. unfold buf_write. rewrite Hg. cbn [mbind option_bind].
  destruct (buf_write_desc [c] d) as [[r d2]|]; [|done]. destruct (Z.eqb_spec r PLATFORM_OK) as [->|]; [|done]. injection Hput as ->.
  eexists. split; [reflexivity|]. exists d'. split; [apply getptr_putptr; by eexists|]. split; [done|]. split; [by rewrite Hc'|].
  split; [intros e; rewrite He'; apply Hel|]. by rewrite Hq', Hq, fmap_app.
Qed.
Lemma get_byte cap q b : buf_holds cap q b ->
  match q with
  | [] => exists data b', buf_read NUM_UART NUM_VUART_BUFS BUF_ID_UART id b = Some (PLATFORM_UNDERFLOW, data, b')
  | c :: q => exists b', buf_read NUM_UART NUM_VUART_BUFS BUF_ID_UART id b = Some (PLATFORM_OK, [c], b') /\ buf_holds cap q b'
  end.
Proof.
  intros (d & Hg & Hok & Hcap & Hel & Hq). unfold buf_read. rewrite Hg. cbn [mbind option_bind]. destruct q as [|c q].
  - apply (f_equal length) in Hq. cbn [fifo_list buf_fifo fmap list_fmap length] in Hq. unfold buf_queue in Hq. rewrite length_ring in Hq.
    destruct (wf_count _ _ _ _ Hok) as [Hc _]. unfold buf_read_desc, buf_read_isr. rewrite Hc, Hq, orb_true_r. by eexists _, _.
  - rewrite fmap_cons in Hq. destruct (fifo_get_ok d [c] _ Hok Hq) as (d' & Hget & Hok' & [Hc' He'] & Hq').
    cbn [fifo_get buf_fifo] in Hget. destruct (buf_read_desc d) as [[[r e] d2]|]; [|done].
    destruct (Z.eqb_spec r PLATFORM_OK) as [->|]; [|done]. injection Hget as -> ->. cbn [mbind option_bind].
    eexists. split; [done|]. exists d'. split; [apply getptr_putptr; by eexists|]. split; [done|]. split; [by rewrite Hc'|].
    split; [intros e; rewrite He'; apply Hel|done].
Qed.
Lemma holds_enabled cap q b : buf_holds cap q b -> buf_is_enabled NUM_UART NUM_VUART_BUFS BUF_ID_UART id b = Some true.
Proof.
  intros (d & Hg & Hok & _). unfold buf_is_enabled. rewrite Hg. cbn [fmap option_fmap option_map]. f_equal. unfold buf_is_enabled_desc.
  destruct (wf_logsize _ _ _ _ Hok) as [_ Hl]. by rewrite (proj2 (Z.eqb_neq _ _)).
Qed.
Lemma rx_bytes_ready cap bs : Forall is_u8 bs -> forall q u, buf_holds cap q (bufs u) -> (length q + length bs <= cap)%nat ->
  exists b, rx_bytes NUM_UART NUM_VUART_BUFS SERMUX_NUM_VUART SERMUX_PHYS_ID id bs u = Some (with_bufs u b) /\ buf_holds cap (q ++ bs) b.
Proof.
  induction 1 as [|c bs Hc _ IH]; intros q u Hq Hl; cbn [rx_bytes length] in *.
  - exists (bufs u). rewrite app_nil_r. split; [by destruct u|done].
  - unfold cmn_rx_handler. rewrite (proj2 (Z.eqb_neq id _)) by done. unfold rx_write.
    destruct (put_byte cap q c (bufs u) Hq Hc) as (b & -> & Hb); [lia|]. cbn [mbind option_bind].
    destruct (IH (q ++ [c]) (with_bufs u b) Hb) as (b' & Hrx & Hb'); [rewrite length_app; cbn [length]; lia|].
    exists b'. split; [exact Hrx|]. by rewrite <- app_assoc in Hb'.
Qed.
Lemma interrupts_ready cap bss : Forall (Forall is_u8) bss -> forall q w, rx_ready cap q w -> (length q + length (concat bss) <= cap)%nat ->
  exists p, on_interrupts NUM_UART NUM_VUART_BUFS SERMUX_NUM_VUART SERMUX_PHYS_ID INT_UART_RX INT_ELUA_LAST other (at_ports w) (pair id <$> bss) = Some p /\
    rx_ready cap (q ++ concat bss) (mkWorld p (tick w)).
Proof.
  induction 1 as [|bs bss Hb _ IH]; intros q w [Hq Hh Hp] Hl; cbn [concat] in *.
  - exists (at_ports w). rewrite app_nil_r. split; [done|]. by split.
  - rewrite fmap_cons. cbn [on_interrupts]. unfold on_interrupt. rewrite Hh, Hp. cbn [mbind option_bind].
    unfold cmn_uart_rx_inthandler. rewrite (holds_enabled cap q) by done. cbn [mbind option_bind orb]. rewrite length_app in Hl.
    destruct (rx_bytes_ready cap bs Hb q _ Hq) as (b & -> & Hq'); [lia|]. cbn [mbind option_bind fmap option_fmap option_map].
    destruct (IH (q ++ bs) (mkWorld (set_board (at_ports w) (with_bufs (board (at_ports w)) b)) (tick w))) as (p & Hon & Hr).
    + by split.
    + rewrite length_app. lia.
    + exists p. split; [exact Hon|]. by rewrite <- app_assoc in Hr.
Qed.
(** One look takes the oldest byte, if there is one, of what was there and what
    has just come. *)
Lemma poll_ready cap q w : rx_ready cap q w -> (length q + length (batch (tick w)) <= cap)%nat ->
  exists w', tick w' = S (tick w) /\
    match q ++ batch (tick w) with
    | [] => look id w = Some (-1, w') /\ rx_ready cap [] w'
    | c :: q' => look id w = Some (c, w') /\ rx_ready cap q' w'
    end.
Proof.
  intros Hr Hl. unfold Uart.look. destruct (interrupts_ready cap _ (Hbytes (tick w)) q w Hr Hl) as (p & Hon & Hr').
  change (line_env (tick w)) with (pair id <$> batches (tick w)). rewrite Hon. cbn [mbind option_bind].
  change (concat (batches (tick w))) with (batch (tick w)) in Hr'. destruct Hr' as [Hq Hh Hp]. cbn [at_ports] in *.
  pose proof (get_byte cap _ _ Hq) as Hget. destruct (q ++ batch (tick w)) as [|c q'].
  - destruct Hget as (data & b & ->). cbn [mbind option_bind]. eexists. split; [|split; [reflexivity|by split]]. done.
  - destruct Hget as (b & -> & Hq'). cbn [mbind option_bind head]. eexists. split; [|split; [reflexivity|by split]]. done.
Qed.

(** Setting a buffer up for a UART that has none yet, and the first one with
    interrupts: the UART is ready. *)
Lemma set_buffer_ready get_int set_int realloc p d lsize p' t :
  buf_getptr NUM_UART NUM_VUART_BUFS (bufs (board p)) BUF_ID_UART id = Some d -> rptr d = 0 -> wptr d = 0 -> count d = 0 ->
  1 <= lsize <= 15 -> (forall o n b, 0 <= n -> realloc o n = Some b -> Z.of_nat (length b) = n) ->
  id < CDC_UART_ID -> ELUA_INT_FIRST_ID <= INT_UART_RX <= INT_ELUA_LAST -> Z.of_nat (length (c_handlers p)) = INT_ELUA_LAST ->
  elua_int_get_c_handler INT_ELUA_LAST INT_UART_RX (c_handlers p) = Some None ->
  platform_uart_set_buffer NUM_UART NUM_VUART_BUFS SERMUX_PHYS_ID INT_UART_RX INT_ELUA_LAST get_int set_int realloc id lsize p = Some (PLATFORM_OK, p') ->
  rx_ready (Z.to_nat (2 ^ lsize)) [] (mkWorld p' t).
Proof.
  intros Hg Hr Hw Hc Hl Hre Hcdc Hint Hlen Hh. unfold platform_uart_set_buffer. rewrite (proj2 (Z.eqb_neq id _)) by done.
  rewrite (proj2 (Z.eqb_neq lsize 0)) by lia. unfold buf_set. rewrite Hg. cbn [mbind option_bind].
  pose proof (buf_set_empty realloc lsize 0 d ltac:(lia) ltac:(lia) ltac:(lia) Hr Hw Hc Hre) as Hset.
  destruct (buf_set_desc realloc lsize 0 d) as [r d'] eqn:E. cbn [mbind option_bind].
  destruct (Z.eqb_spec r PLATFORM_ERR) as [->|Hne]; [done|].
  assert (Hd' : r = PLATFORM_OK /\ logsize d' = lsize /\ logdsize d' = 0).
  { unfold buf_set_desc in E. destruct (realloc _ _); injection E as <- <-.
    - cbn. split; [done|]. split; [|done]. rewrite u8_small; [lia|unfold is_u; lia].
    - by rewrite (proj2 (Z.eqb_neq lsize BUF_SIZE_NONE)) in Hne by (unfold BUF_SIZE_NONE; lia). }
  destruct Hd' as (-> & Hls & Hld).
  change (PLATFORM_OK =? PLATFORM_OK) with true in Hset. destruct Hset as (Hwf & Hsz & _).
  rewrite (proj2 (Z.eqb_neq id CDC_UART_ID)), (proj2 (Z.leb_gt SERMUX_SERVICE_ID_FIRST id)) by (unfold SERMUX_SERVICE_ID_FIRST, CDC_UART_ID in *; lia).
  cbn [orb set_board c_handlers]. rewrite Hh. cbn [mbind option_bind]. rewrite decide_False by done.
  destruct (c_handlers_set_get INT_ELUA_LAST (c_handlers p) INT_UART_RX INT_UART_RX (Some CmnRx) Hlen Hint) as (old & l' & Hset & Hold & Hnew & _).
  rewrite Hset. cbn [mbind option_bind]. rewrite Hh in Hold. injection Hold as <-. destruct (set_int id CPU_ENABLE _) as [r x]. destruct (r <? 0); [done|].
  intros [= <-]. destruct (wf_head d' _ _ Hwf) as [Eh Eq]. split; cbn [at_ports set_cpu set_prev set_handlers c_handlers prev_uart_rx_handler board]; [|done|done].
  exists d'. split; [apply getptr_putptr; by eexists|]. cbn [fifo_ok fifo_cap fifo_elem fifo_list buf_fifo]. rewrite Eh, Eq.
  unfold nelem, dsize, BUF_REALSIZE, BUF_REALDSIZE. rewrite Hls, Hld, Z.sub_0_r, Z.shiftl_1_l. split; [done|]. split; [done|]. split; [done|]. done.
Qed.

(** What comes in [k] moments from [t] on. *)
Definition arrivals (t k : nat) : list Z := concat (batch <$> seq t k).
(** Whoever takes a byte at every moment is never too late, for [k] moments. *)
Fixpoint keeps_up (cap k : nat) (q : list Z) (t : nat) : Prop :=
  match k with O => True | S k => (length (q ++ batch t) <= cap)%nat /\ keeps_up cap k (tail (q ++ batch t)) (S t) end.
Definition in_time (cap : nat) (q : list Z) (w : uworld X) : Prop := rx_ready cap q w /\ forall k, keeps_up cap k q (tick w).
Lemma arrivals_S t k : arrivals t (S k) = batch t ++ arrivals (S t) k.
Proof. done. Qed.
Lemma in_time_poll cap q w : in_time cap q w -> exists w', tick w' = S (tick w) /\
  match q ++ batch (tick w) with
  | [] => look id w = Some (-1, w') /\ in_time cap [] w'
  | c :: q' => look id w = Some (c, w') /\ in_time cap q' w'
  end.
Proof.
  intros [Hr Hf]. destruct (poll_ready cap q w Hr) as (w' & Ht & Hp); [rewrite <- length_app; apply (Hf 1%nat)|]. exists w'. split; [done|].
  assert (Hf' : forall k, keeps_up cap k (tail (q ++ batch (tick w))) (tick w')) by (intros k; rewrite Ht; apply (Hf (S k))).
  destruct (q ++ batch (tick w)); destruct Hp as [H1 H2]; (split; [exact H1|split; [exact H2|exact Hf']]).
Qed.
(** Waiting for the next byte of the stream. *)
Lemma wait_ready cap c rest m : is_u8 c -> forall q w fuel, in_time cap q w -> (c :: rest) `prefix_of` q ++ arrivals (tick w) m -> (m < fuel)%nat ->
  exists q' w' j, wait_byte fuel id w = Some (c, w') /\ in_time cap q' w' /\ tick w' = (tick w + j)%nat /\ q ++ arrivals (tick w) j = c :: q' /\
    exists m', (m' <= m)%nat /\ rest `prefix_of` q' ++ arrivals (tick w') m'.
Proof.
  intros Hc. induction m as [|m IH]; intros q w fuel Hin Hpre Hf; (destruct fuel as [|fuel]; [lia|]); cbn [Uart.wait_byte];
    destruct (in_time_poll cap q w Hin) as (w1 & Ht & Hp).
  - change (arrivals (tick w) 0) with (@nil Z) in Hpre. rewrite app_nil_r in Hpre. destruct Hpre as [x ->]. cbn [app] in Hp. destruct Hp as [-> Hin1].
    cbn [mbind option_bind]. rewrite (proj2 (Z.eqb_neq c _)) by (unfold is_u in Hc; lia). exists ((rest ++ x) ++ batch (tick w)), w1, 1%nat.
    split; [done|]. split; [done|]. split; [lia|]. split; [rewrite arrivals_S; change (arrivals _ 0) with (@nil Z); by rewrite app_nil_r|].
    exists 0%nat. split; [done|]. rewrite <- !app_assoc. by apply prefix_app_r.
  - rewrite arrivals_S, app_assoc in Hpre. destruct (q ++ batch (tick w)) as [|c1 q1] eqn:E; destruct Hp as [-> Hin1]; cbn [mbind option_bind].
    + change (-1 =? -1) with true. cbv iota. rewrite <- Ht in Hpre.
      destruct (IH [] w1 fuel Hin1 Hpre) as (q' & w' & j & Hw & Hin' & Ht' & Hq' & m' & Hm' & Hrest); [lia|].
      exists q', w', (S j). split; [done|]. split; [done|]. split; [lia|]. split; [by rewrite arrivals_S, app_assoc, E, <- Ht|].
      exists m'. split; [lia|done].
    + destruct Hpre as [x Hx]. injection Hx as -> Hx. rewrite (proj2 (Z.eqb_neq c _)) by (unfold is_u in Hc; lia). exists q1, w1, 1%nat.
      split; [done|]. split; [done|]. split; [lia|]. split; [rewrite arrivals_S; change (arrivals _ 0) with (@nil Z); by rewrite app_nil_r, E|].
      exists m. split; [lia|]. rewrite Ht. by exists x.
Qed.

Abbreviation recv wfuel := (platform_uart_recv NUM_UART NUM_VUART_BUFS SERMUX_NUM_VUART SERMUX_PHYS_ID INT_UART_RX INT_ELUA_LAST other line_env
  platform_s_uart_recv platform_timer_start platform_timer_get_diff_crt wfuel).
Lemma recv_helper_ready cap q w wfuel timeout : rx_ready cap q w ->
  recv_helper NUM_UART NUM_VUART_BUFS SERMUX_NUM_VUART SERMUX_PHYS_ID INT_UART_RX INT_ELUA_LAST other line_env platform_s_uart_recv wfuel id timeout w =
    if timeout =? 0 then look id w else wait_byte wfuel id w.
Proof. intros [Hq _ _]. unfold recv_helper. by rewrite (holds_enabled cap q). Qed.
(** The two tries of [uart_read] are waiting for a byte. *)
Lemma next_char_waits cap q w wfuel timer_id : in_time cap q w ->
  next_byte (recv wfuel) id timer_id UART_INFINITE_TIMEOUT w = wait_byte (S wfuel) id w.
Proof.
  intros Hin. unfold next_byte, platform_uart_recv. change (0 =? 0) with true. cbv iota. rewrite (recv_helper_ready cap q) by apply Hin.
  cbn [Z.eqb Uart.wait_byte]. destruct (in_time_poll cap q w Hin) as (w1 & _ & Hp).
  destruct (q ++ batch (tick w)) as [|c q1]; destruct Hp as [-> Hin1]; cbn [mbind option_bind].
  - change ((-1 =? -1) && (0 <? UART_INFINITE_TIMEOUT)) with true. cbn [Z.eqb Pos.eqb]. change (UART_INFINITE_TIMEOUT =? 0) with false.
    rewrite Z.eqb_refl. by rewrite (recv_helper_ready cap []) by apply Hin1.
  - change (0 <? UART_INFINITE_TIMEOUT) with true. rewrite andb_true_r. destruct (Z.eqb_spec c (-1)) as [->|]; [|done].
    change (UART_INFINITE_TIMEOUT =? 0) with false. rewrite Z.eqb_refl. by rewrite (recv_helper_ready cap q1) by apply Hin1.
Qed.

(** What is taken from a stream: the text, and the rest. *)
Fixpoint taken (mode : read_mode) (maxsize count : Z) (s : list Z) : option (list Z * list Z) :=
  match s with
  | [] => None
  | c :: s =>
      if ends_read mode (count + 1) c c then Some ([], s)
      else if (count + 1 =? maxsize) && (match mode with UART_READ_MODE_MAXSIZE => true | _ => false end) then Some ([c], s)
      else '(l, r) ← taken mode maxsize (count + 1) s; Some (c :: l, r)
  end.
Lemma read_loop_taken cap mode maxsize timer_id wfuel s : Forall is_u8 s -> forall l count q w m fuel,
  taken mode maxsize count s = Some (l, []) -> in_time cap q w -> s `prefix_of` q ++ arrivals (tick w) m -> (m <= wfuel)%nat -> (length s <= fuel)%nat ->
  exists q' w' j, read_chars (recv wfuel) fuel id timer_id UART_INFINITE_TIMEOUT mode maxsize count w = Some (l, w') /\
    in_time cap q' w' /\ tick w' = (tick w + j)%nat /\ q ++ arrivals (tick w) j = s ++ q'.
Proof.
  induction 1 as [|c s Hc _ IH]; intros l count q w m fuel Htk Hin Hpre Hm Hf; [done|]. cbn [length] in Hf. destruct fuel as [|fuel]; [lia|].
  cbn [taken read_chars] in *. rewrite (next_char_waits cap q) by done.
  destruct (wait_ready cap c s m Hc q w (S wfuel) Hin Hpre) as (q1 & w1 & j1 & -> & Hin1 & Ht1 & Hq1 & m1 & Hm1 & Hpre1); [lia|].
  cbn [mbind option_bind]. rewrite (proj2 (Z.eqb_neq c _)) by (unfold is_u in Hc; lia). cbv zeta. rewrite u8_small by done.
  destruct (ends_read mode (count + 1) c c); [injection Htk as <- ->; by exists q1, w1, j1|].
  destruct (_ && _); [injection Htk as <- ->; by exists q1, w1, j1|].
  destruct (taken mode maxsize (count + 1) s) as [[l1 r]|] eqn:E; [|done]. cbn [mbind option_bind] in Htk. injection Htk as <- ->.
  destruct (IH l1 (count + 1) q1 w1 m1 fuel E Hin1 Hpre1) as (q' & w' & j & -> & Hin' & Ht' & Hq'); [lia|lia|].
  exists q', w', (j1 + j)%nat. split; [done|]. split; [done|]. split; [lia|].
  assert (Ha : arrivals (tick w) (j1 + j) = arrivals (tick w) j1 ++ arrivals (tick w1) j).
  { unfold arrivals. by rewrite seq_app, fmap_app, concat_app, Ht1. }
  rewrite Ha, app_assoc, Hq1. cbn [app]. by rewrite Hq'.
Qed.

(** A text of each format, with what ends it: a line, a number with an optional
    sign, a word, or as many characters as asked for. *)
Definition complete (mode : read_mode) (maxsize : Z) (l tl : list Z) : Prop :=
  match mode with
  | UART_READ_MODE_LINE => tl = [10] /\ Forall (fun c => c <> 10) l
  | UART_READ_MODE_SPACE => (exists e, tl = [e] /\ isspace e = true) /\ Forall (fun c => isspace c = false) l
  | UART_READ_MODE_NUMBER => exists e sign ds, tl = [e] /\ is_digit_char e = false /\ l = sign ++ ds /\
      In sign [[]; [45]; [43]] /\ Forall (fun c => is_digit_char c = true) ds /\ (l = [] -> e <> 45 /\ e <> 43)
  | UART_READ_MODE_MAXSIZE => tl = [] /\ 0 < maxsize /\ Z.of_nat (length l) = maxsize
  end.
Lemma taken_app mode maxsize tl l : mode <> UART_READ_MODE_MAXSIZE -> forall count,
  (forall i c, l !! i = Some c -> ends_read mode (count + Z.of_nat i + 1) c c = false) ->
  (exists e, tl = [e] /\ ends_read mode (count + Z.of_nat (length l) + 1) e e = true) -> taken mode maxsize count (l ++ tl) = Some (l, []).
Proof.
  intros Hm. assert (Hno : forall x : bool, x && match mode with UART_READ_MODE_MAXSIZE => true | _ => false end = false) by (intros []; by destruct mode).
  induction l as [|c l IH]; intros count Hl (e & -> & He); cbn [app taken length].
  - cbn [length] in He. rewrite Z.add_0_r in He. by rewrite He.
  - pose proof (Hl 0%nat c eq_refl) as H0. rewrite Z.add_0_r in H0. rewrite H0, Hno. rewrite IH; [done| |].
    + intros i d Hi. replace (count + 1 + Z.of_nat i + 1) with (count + Z.of_nat (S i) + 1) by lia. by apply Hl.
    + exists e. split; [done|]. cbn [length] in He. by replace (count + 1 + Z.of_nat (length l) + 1) with (count + Z.of_nat (S (length l)) + 1) by lia.
Qed.
Lemma taken_size maxsize l : l <> [] -> forall count, count + Z.of_nat (length l) = maxsize ->
  taken UART_READ_MODE_MAXSIZE maxsize count l = Some (l, []).
Proof.
  induction l as [|c l IH]; intros Hne count Hs; [done|]. cbn [taken ends_read length] in *. rewrite andb_true_r.
  destruct (Z.eqb_spec (count + 1) maxsize) as [E|E].
  - destruct l; [done|]. cbn [length] in Hs. lia.
  - rewrite IH; [done| |lia]. intros ->. cbn [length] in Hs. lia.
Qed.
Lemma complete_taken mode maxsize l tl : complete mode maxsize l tl -> taken mode maxsize 0 (l ++ tl) = Some (l, []).
Proof.
  destruct mode; cbn [complete].
  - intros [-> Hl]. apply taken_app; [done| |by exists 10]. intros i c Hi. apply Z.eqb_neq. exact (Forall_lookup_1 _ _ _ _ Hl Hi).
  - intros (e & sign & ds & -> & He & -> & Hs & Hd & Hempty). apply taken_app; [done| |].
    + intros i c Hi. cbn [ends_read]. destruct (decide (is_digit_char c = true)) as [->|Hnd]; [done|].
      destruct i as [|i].
      * destruct Hs as [<-|[<-|[<-|[]]]]; cbn in Hi; [|by injection Hi as <-..]. pose proof (Forall_lookup_1 _ _ _ _ Hd Hi). by destruct Hnd.
      * destruct Hnd. destruct Hs as [<-|[<-|[<-|[]]]]; cbn in Hi; exact (Forall_lookup_1 _ _ _ _ Hd Hi).
    + exists e. split; [done|]. cbn [ends_read]. rewrite He. cbn [negb andb].
      destruct (sign ++ ds) as [|c l]; cbn [length].
      * destruct (Hempty eq_refl). by rewrite (proj2 (Z.eqb_neq e 45)), (proj2 (Z.eqb_neq e 43)).
      * rewrite (proj2 (Z.eqb_neq (0 + _ + 1) 1)) by lia. done.
  - intros [(e & -> & He) Hl]. apply taken_app; [done| |by exists e]. intros i c Hi. exact (Forall_lookup_1 _ _ _ _ Hl Hi).
  - intros (-> & Hpos & Hl). rewrite app_nil_r. apply taken_size; [|lia]. intros ->. cbn in Hl. lia.
Qed.

(** C14: reading from a serial port: if a text in the format asked for is in the
    buffer or arrives, in whatever pieces the interrupts bring it, and the buffer
    is large enough for who takes a byte at every moment, [uart.read] returns this
    text (or number), and what is in the buffer afterwards is what has arrived
    after it. *)
Theorem uart_reads_stream str2number uart_exists cap q w m mode maxsize fmt l tl wfuel fuel :
  0 <= id < 2 ^ 31 -> uart_exists id = true -> read_format str2number fmt = lua_return (mode, maxsize) -> complete mode maxsize l tl ->
  Forall is_u8 (l ++ tl) -> in_time cap q w -> (l ++ tl) `prefix_of` q ++ arrivals (tick w) m -> (m <= wfuel)%nat -> (length (l ++ tl) <= fuel)%nat ->
  exists q' w' j, uart_read (recv wfuel) str2number uart_exists true fuel (ANumber id) fmt ANil ANil w =
      lua_return (match mode with UART_READ_MODE_NUMBER => ANumber (s32 (default 0 (str2number l))) | _ => AString l end, w') /\
    in_time cap q' w' /\ tick w' = (tick w + j)%nat /\ q ++ arrivals (tick w) j = (l ++ tl) ++ q'.
Proof.
  intros Hi He Hfmt Hc Hb Hin Hpre Hm Hf. pose proof (complete_taken _ _ _ _ Hc) as Htk.
  destruct (read_loop_taken cap mode maxsize TIMER_SYS_ID wfuel (l ++ tl) Hb l 0 q w m fuel Htk Hin Hpre Hm Hf) as (q' & w' & j & Hrd & Hin' & Ht & Hq).
  exists q', w', j. split; [|done]. unfold uart_read, check_uart, luaL_checkinteger. cbn [lua_isnumber].
  assert (Hu : is_u32 id) by (unfold is_u; lia). rewrite u32_small, He by done. rewrite Hfmt. cbn [lua_bind lua_return uart_get_timeout_data].
  unfold lua_bind at 1, lua_return at 1. cbv zeta. rewrite u32_s32 by done. change (Some (inl TIMER_SYS_ID)) with (@lua_return Z TIMER_SYS_ID).
  cbn [lua_bind lua_return]. change ((TIMER_SYS_ID =? TIMER_SYS_ID) && negb true) with false. cbn [lua_bind lua_return]. rewrite Hrd. done.
Qed.
End Stream.

(** ** A concrete board *)

(** Two UARTs, the second one with the multiplexer's line; [cpu]: the UARTs whose
    interrupt is on. *)
Definition get_int (id : Z) (on : list Z) : Z := if bool_decide (id ∈ on) then CPU_ENABLE else PLATFORM_CPU_DISABLE.
Definition set_int (id status : Z) (on : list Z) : Z * list Z :=
  (PLATFORM_INT_OK, if status =? CPU_ENABLE then id :: on else filter (fun x => x <> id) on).
Definition some_realloc (o : option (list Z)) (n : Z) : option (list Z) := Some (replicate (Z.to_nat n) 0).
Definition no_buffer : buf_desc := BufDesc 0 0 0 0 0 None.
Definition new_ports : ports (list Z) := mkPorts (uart_init [replicate 5 no_buffer; []]) [None; None; None] None [].
Abbreviation buffer_on id size := (platform_uart_set_buffer 2 2 1 2 3 get_int set_int some_realloc id size).
Definition no_other (n resnum : Z) (u : uart) : option uart := Some u.
(** UART 0 with a buffer of 8 bytes. *)
Definition with_buffer : ports (list Z) := default new_ports (snd <$> buffer_on 0 3 new_ports).
(** "hello", a new line and "!", in pieces. *)
Definition pieces (t : nat) : list (list Z) :=
  match t with 1%nat => [lit "he"] | 2%nat => [lit "l"; lit "lo" ++ [10]] | 4%nat => [lit "!"] | _ => [] end.
Definition no_hw {X} (id timeout : Z) (w : uworld X) : option (Z * uworld X) := Some (-1, w).
#[local] Instance is_digit_dec c : Decision (is_digit c).
Proof. unfold is_digit. apply _. Defined.
Definition only_digits (s : list Z) : option Z := if decide (Forall is_digit s /\ s <> []) then Some (dec_value s) else None.
Abbreviation read_board := (platform_uart_recv 2 2 1 1 2 3 no_other (line_env 0 pieces) no_hw (fun _ w => Z.of_nat (tick w)) (fun _ start w => Z.of_nat (tick w) - start)).
Abbreviation read_uart := (uart_read (read_board 9%nat) only_digits (fun id => id <? 2) true 9%nat).
Lemma buffered_ready : rx_ready 2 2 2 3 0 8 [] (mkWorld with_buffer 0).
Proof.
  apply (set_buffer_ready (X := list Z) 2 2 1 2 3 0 ltac:(done) get_int set_int some_realloc new_ports no_buffer 3 with_buffer 0); try done; try lia.
  intros o n b Hn [= <-]. rewrite length_replicate. lia.
Qed.
Lemma pieces_bytes t : Forall (Forall is_u8) (pieces t).
Proof. do 5 (destruct t as [|t]; [by_decide|]). constructor. Qed.
Lemma pieces_fit k : forall t q, (5 <= t)%nat -> (length q <= 8)%nat -> keeps_up pieces 8 k q t.
Proof.
  induction k as [|k IH]; intros t q Ht Hq; [done|]. cbn [keeps_up]. assert (batch pieces t = []) as -> by (do 5 (destruct t as [|t]; [lia|]); done).
  rewrite app_nil_r. split; [done|]. apply IH; [lia|]. destruct q; cbn in *; lia.
Qed.
Lemma pieces_in_time : in_time 2 2 2 3 0 pieces 8 [] (mkWorld with_buffer 0).
Proof.
  split; [exact buffered_ready|]. intros k. do 5 (destruct k as [|k]; [vm_compute; repeat split; lia|]). cbn [keeps_up tick].
  repeat (split; [vm_compute; lia|]). apply pieces_fit; [lia|vm_compute; lia].
Qed.
Lemma uart_reads_stream_witness : exists q' w' j, read_uart (ANumber 0) (AString (lit "*l")) ANil ANil (mkWorld with_buffer 0) = lua_return (AString (lit "hello"), w') /\
  in_time 2 2 2 3 0 pieces 8 q' w' /\ tick w' = j /\ arrivals pieces 0 j = (lit "hello" ++ [10]) ++ q'.
Proof.
  apply (uart_reads_stream (X := list Z) 2 2 1 1 2 3 no_other no_hw (fun _ w => Z.of_nat (tick w)) (fun _ start w => Z.of_nat (tick w) - start) 0 pieces ltac:(done)
    pieces_bytes only_digits (fun id => id <? 2) 8 [] (mkWorld with_buffer 0) 3 UART_READ_MODE_LINE 0
    (AString (lit "*l")) (lit "hello") [10] 9 9); try done; try lia.
  - split; [done|by_decide].
  - by_decide.
  - exact pieces_in_time.
  - cbn. lia.
Defined.

(** With a timeout, what came before it; without waiting, nothing at first. *)
Example timeout_in_gap : (fun r => match r with inl (a, w) => Some (a, tick w) | inr _ => None end) <$>
    read_uart (ANumber 0) (ANumber 9) (ANumber 1) ANil (mkWorld with_buffer 1) = Some (Some (AString (lit "hello" ++ [10] ++ lit "!"), 10%nat)) /\
  (fun r => match r with inl (a, w) => Some (a, tick w) | inr _ => None end) <$>
    read_uart (ANumber 0) (ANumber 9) (ANumber 0) ANil (mkWorld with_buffer 0) = Some (Some (AString [], 1%nat)).
Proof. split; reflexivity. Qed.
Example number_read : (fun r => match r with inl (a, w) => Some (a, buf_get_count 2 2 BUF_ID_UART 0 (bufs (board (at_ports w)))) | inr _ => None end) <$>
    uart_read (platform_uart_recv 2 2 1 1 2 3 no_other (line_env 0 (fun t => if (t =? 0)%nat then [lit "-12 3"] else [])) no_hw (fun _ w => Z.of_nat (tick w)) (fun _ start w => Z.of_nat (tick w) - start) 9)
      (fun s => match s with 45 :: s => Z.opp <$> only_digits s | _ => only_digits s end) (fun id => id <? 2) true 9
      (ANumber 0) (AString (lit "*n")) ANil ANil (mkWorld with_buffer 0) = Some (Some (ANumber (-12), Some 1)).
Proof. reflexivity. Qed.

(** ** What else the code does *)

(** With a size of 0, reading does not end while characters come. *)
Example endless_read : uart_read (platform_uart_recv 2 2 1 1 2 3 no_other (line_env 0 (fun _ => [lit "a"])) no_hw (fun _ w => Z.of_nat (tick w)) (fun _ start w => Z.of_nat (tick w) - start) 9)
  only_digits (fun id => id <? 2) true 500 (ANumber 0) (ANumber 0) ANil ANil (mkWorld with_buffer 0) = None.
Proof. vm_compute. reflexivity. Qed.
(** Turning the buffer of one UART off takes the interrupt handler away from all. *)
Abbreviation buffer3 id size := (platform_uart_set_buffer 3 2 2 2 3 get_int set_int some_realloc id size).
Definition two_then_one : option (ports (list Z)) :=
  '(_, p) ← buffer3 0 3 new_ports; '(_, p) ← buffer3 1 3 p; '(_, p) ← buffer3 1 0 p; Some p.
Example disabling_stops_others :
  (p ← two_then_one; buf_is_enabled 3 2 BUF_ID_UART 0 (bufs (board p))) = Some true /\
  (p ← two_then_one; elua_int_get_c_handler 3 2 (c_handlers p)) = Some None /\
  (p ← two_then_one; p' ← on_interrupt 3 2 1 2 2 3 no_other p (0, lit "x"); buf_get_count 3 2 BUF_ID_UART 0 (bufs (board p'))) = Some 0.
Proof. repeat split; reflexivity. Qed.
(** A buffer of one byte is no buffer. *)
Example size_one_disables :
  (fun r => (fst r, buf_is_enabled 2 2 BUF_ID_UART 0 (bufs (board (snd r))))) <$>
    uart_set_buffer only_digits (fun id => id <? 2) (fun id size p => buffer_on id size p) (ANumber 0) (ANumber 1) with_buffer = Some (inl tt, Some false).
Proof. reflexivity. Qed.
Example virtual_names : uart_mt_index 8 (lit "VUART3") = Some 0xD3 /\ uart_mt_index 8 (lit "VUART8") = None /\ uart_mt_index 8 (lit "VUART-") = None.
Proof. repeat split; reflexivity. Qed.
