(* ===== verification/Net.v ===== *)
(** * Net: TCP sockets

    Models src/elua_uip.c, which gives programs blocking calls on top of uIP's
    callbacks, with what it needs of uIP itself (src/uip/uip.c: what a connection
    does with a segment, a timer, and what the application sends), the console
    over telnet (src/newlib/stdtcp.c), and the module net of Lua
    (src/modules/net.c). NetSpec has the theorems.

    uIP runs in the Ethernet interrupt; a program that waits looks at its socket
    again and again. So an environment says what happens before each look: [env]. *)

From S2P Require Import Prelude LuaApi.

(** ** Constants *)

(** src/uip/uip.h: why the application is called, and states of a connection. *)
Definition UIP_ACKDATA : Z := 1.
Definition UIP_NEWDATA : Z := 2.
Definition UIP_REXMIT : Z := 4.
Definition UIP_POLL : Z := 8.
Definition UIP_CLOSE : Z := 16.
Definition UIP_ABORT : Z := 32.
Definition UIP_CONNECTED : Z := 64.
Definition UIP_TIMEDOUT : Z := 128.
Definition UIP_CLOSED : Z := 0.
Definition UIP_SYN_RCVD : Z := 1.
Definition UIP_SYN_SENT : Z := 2.
Definition UIP_ESTABLISHED : Z := 3.
Definition UIP_FIN_WAIT_1 : Z := 4.
Definition UIP_FIN_WAIT_2 : Z := 5.
Definition UIP_CLOSING : Z := 6.
Definition UIP_TIME_WAIT : Z := 7.
Definition UIP_LAST_ACK : Z := 8.
Definition UIP_RESERVED : Z := 9.
Definition UIP_TS_MASK : Z := 15.
Definition UIP_STOPPED : Z := 16.
(** inc/elua_uip.h and inc/elua_net.h *)
Definition ELUA_UIP_STATE_IDLE : Z := 0.
Definition ELUA_UIP_STATE_SEND : Z := 1.
Definition ELUA_UIP_STATE_RECV : Z := 2.
Definition ELUA_UIP_STATE_RECV_2 : Z := 3.
Definition ELUA_UIP_STATE_CONNECT : Z := 4.
Definition ELUA_UIP_STATE_CLOSE : Z := 5.
Definition ELUA_NET_ERR_OK : Z := 0.
Definition ELUA_NET_ERR_TIMEDOUT : Z := 1.
Definition ELUA_NET_ERR_CLOSED : Z := 2.
Definition ELUA_NET_ERR_ABORTED : Z := 3.
Definition ELUA_NET_ERR_OVERFLOW : Z := 4.
Definition ELUA_NET_ERR_LIMIT_EXCEEDED : Z := 5.
Definition ELUA_NET_ERR_WAIT_TIMEDOUT : Z := 6.
Definition ELUA_NET_TELNET_PORT : Z := 23.
Definition ELUA_NET_SOCK_STREAM : Z := 0.
Definition ELUA_NET_SOCK_DGRAM : Z := 1.
Definition ELUA_NET_NO_LASTCHAR : Z := -1.
Definition TELNET_IAC_CHAR : Z := 255.
Definition TELNET_IAC_3B_FIRST : Z := 251.
Definition TELNET_IAC_3B_LAST : Z := 254.
Definition TELNET_EOF : Z := 236.
Definition TELNET_CTRLZ : Z := 26.

(** [elua_net_size] *)
Definition s16 (x : Z) : Z := swrap 16 x.

(** ** State *)

(** What a call left for the callback to do: a place in memory, or Lua's buffer. *)
Inductive place := PNull | PMem (a : Z) | PLuaL.
#[export] Instance place_eq_dec : EqDecision place.
Proof. solve_decision. Defined.
Record elua_uip_state := mkApp { s_state : Z; s_res : Z; s_ptr : place; s_len : Z; s_readto : Z }.
(** A connection of uIP: [c_len], the bytes it waits for an acknowledgement of. *)
Record uip_conn := mkConn { tcpstateflags : Z; c_len : Z; mss : Z; initialmss : Z; lport : Z; rport : Z; ripaddr : Z; appstate : elua_uip_state }.
Record elua_uip_accept_pending_t := mkPending { accept_request : Z; p_sock : Z; p_remote : Z; p_port : Z }.
(** The static variables of both files; the memory, and the buffer of Lua, of the
    program. *)
Record net := mkNet {
  elua_uip_configured : bool; uip_conns : list uip_conn; uip_listenports : list Z; lastport : Z; elua_uip_telnet_socket : Z;
  elua_uip_accept_pending : list elua_uip_accept_pending_t; elua_net_connecting : option nat; memory : list Z; lua_buf : list Z
}.
(** What is on the line: segments with data, and those without; [Acked]: the other
    side acknowledges all that has been sent. *)
Inductive segment := PData (bytes : list Z) | PAck | PFin | PRst | PSyn | Acked.

Definition with_conns (n : net) (l : list uip_conn) : net :=
  mkNet (elua_uip_configured n) l (uip_listenports n) (lastport n) (elua_uip_telnet_socket n) (elua_uip_accept_pending n) (elua_net_connecting n) (memory n) (lua_buf n).
Definition with_memory (n : net) (m : list Z) : net :=
  mkNet (elua_uip_configured n) (uip_conns n) (uip_listenports n) (lastport n) (elua_uip_telnet_socket n) (elua_uip_accept_pending n) (elua_net_connecting n) m (lua_buf n).
Definition with_luabuf (n : net) (b : list Z) : net :=
  mkNet (elua_uip_configured n) (uip_conns n) (uip_listenports n) (lastport n) (elua_uip_telnet_socket n) (elua_uip_accept_pending n) (elua_net_connecting n) (memory n) b.
Definition with_telnet (n : net) (t : Z) : net :=
  mkNet (elua_uip_configured n) (uip_conns n) (uip_listenports n) (lastport n) t (elua_uip_accept_pending n) (elua_net_connecting n) (memory n) (lua_buf n).
Definition with_pending (n : net) (l : list elua_uip_accept_pending_t) : net :=
  mkNet (elua_uip_configured n) (uip_conns n) (uip_listenports n) (lastport n) (elua_uip_telnet_socket n) l (elua_net_connecting n) (memory n) (lua_buf n).
Definition with_connecting (n : net) (c : option nat) : net :=
  mkNet (elua_uip_configured n) (uip_conns n) (uip_listenports n) (lastport n) (elua_uip_telnet_socket n) (elua_uip_accept_pending n) c (memory n) (lua_buf n).
Definition with_ports (n : net) (l : list Z) (last : Z) : net :=
  mkNet (elua_uip_configured n) (uip_conns n) l last (elua_uip_telnet_socket n) (elua_uip_accept_pending n) (elua_net_connecting n) (memory n) (lua_buf n).
Definition set_tcpstate (f : Z) (c : uip_conn) : uip_conn := mkConn f (c_len c) (mss c) (initialmss c) (lport c) (rport c) (ripaddr c) (appstate c).
Definition set_len (l : Z) (c : uip_conn) : uip_conn := mkConn (tcpstateflags c) l (mss c) (initialmss c) (lport c) (rport c) (ripaddr c) (appstate c).
Definition set_mss (m : Z) (c : uip_conn) : uip_conn := mkConn (tcpstateflags c) (c_len c) m (initialmss c) (lport c) (rport c) (ripaddr c) (appstate c).
Definition set_app (s : elua_uip_state) (c : uip_conn) : uip_conn := mkConn (tcpstateflags c) (c_len c) (mss c) (initialmss c) (lport c) (rport c) (ripaddr c) s.
Definition on_conn (i : nat) (f : uip_conn -> uip_conn) (n : net) : net := with_conns n (alter f i (uip_conns n)).
Definition app_state (st : Z) (s : elua_uip_state) : elua_uip_state := mkApp st (s_res s) (s_ptr s) (s_len s) (s_readto s).
Definition app_res (r : Z) (s : elua_uip_state) : elua_uip_state := mkApp (s_state s) r (s_ptr s) (s_len s) (s_readto s).
Definition app_len (l : Z) (s : elua_uip_state) : elua_uip_state := mkApp (s_state s) (s_res s) (s_ptr s) l (s_readto s).
Definition app_ptr (p : place) (s : elua_uip_state) : elua_uip_state := mkApp (s_state s) (s_res s) p (s_len s) (s_readto s).

(** [uip_stop()], [uip_restart()], on the state of the connection. *)
Definition uip_stop (i : nat) : net -> net := on_conn i (fun c => set_tcpstate (Z.lor (tcpstateflags c) UIP_STOPPED) c).
Definition uip_restart (i : nat) : net -> net := on_conn i (fun c => set_tcpstate (Z.ldiff (tcpstateflags c) UIP_STOPPED) c).
Definition is_stopped (c : uip_conn) : bool := negb (Z.land (tcpstateflags c) UIP_STOPPED =? 0).
(** Whether [uip_flags] has a flag. *)
Definition has_flag (flags f : Z) : bool := negb (Z.land flags f =? 0).

Section Net.
(** The number of bytes of a segment, and the window for the other side; whether
    the byte order is that of the network; whether the console is on telnet. *)
Context (UIP_TCP_MSS UIP_RECEIVE_WINDOW : Z) (big_endian con_tcp : bool).

Definition htons (x : Z) : Z := if big_endian then x else Z.lor (Z.shiftl (Z.land x 255) 8) (Z.shiftr x 8).

(** ** Telnet *)

(** The characters of a segment, to [ptr]; sequences of telnet are left out, one
    that ends with the segment is taken from whatever follows in uIP's buffer. The
    new pointer. *)
Fixpoint telnet_input (data : list Z) (skip : nat) (orig maxsize ptr : Z) (m : list Z) : option (Z * list Z) :=
  match data, skip with
  | [], _ => Some (ptr, m)
  | _ :: data, S skip => telnet_input data skip orig maxsize ptr m
  | c :: data, O =>
      if negb (ptr - orig <? maxsize) then Some (ptr, m)
      else if negb (c =? TELNET_IAC_CHAR) then m ← store m (Z.to_nat ptr) c; telnet_input data 0 orig maxsize (ptr + 1) m
      else
        c1 ← head data;
        if (TELNET_IAC_3B_FIRST <=? c1) && (c1 <=? TELNET_IAC_3B_LAST) then telnet_input data 2 orig maxsize ptr m
        else if c1 =? TELNET_EOF then m ← store m (Z.to_nat ptr) TELNET_CTRLZ; telnet_input data 1 orig maxsize (ptr + 1) m
        else telnet_input data 1 orig maxsize ptr m
  end.
Definition elua_uip_telnet_handle_input (i : nat) (data : list Z) (s : elua_uip_state) (n : net) : option net :=
  match s_ptr s with
  | PMem orig =>
      '(ptr, m) ← telnet_input data 0 orig (s_len s) orig (memory n);
      let n := with_memory n m in
      if orig <? ptr then
        let s := mkApp ELUA_UIP_STATE_IDLE ELUA_NET_ERR_OK (PMem ptr) (s16 (s_len s - (ptr - orig))) (s_readto s) in
        Some (uip_stop i (on_conn i (set_app s) n))
      else Some n
  | _ => None
  end.
(** What is sent for characters: a carriage return comes before a new line. *)
Definition elua_uip_telnet_prep_send (src : list Z) : list Z := c ← src; if c =? 10 then [13; 10] else [c].

(** ** The callback *)

(** The first free slot for a connection to be accepted. *)
Fixpoint free_pending (new : elua_uip_accept_pending_t) (l : list elua_uip_accept_pending_t) : option (list elua_uip_accept_pending_t) :=
  match l with
  | [] => None
  | p :: l => if negb (accept_request p =? 1) then Some (new :: l) else cons p <$> free_pending new l
  end.
(** The characters of a segment up to the last one asked for, without carriage
    returns; [dest]: the next place in memory. Whether the last one was there. *)
Fixpoint copy_line (data : list Z) (dest : Z) (s : elua_uip_state) (n : net) : option (bool * elua_uip_state * net) :=
  match data with
  | [] => Some (false, s, n)
  | c :: data =>
      if c =? s_readto s then Some (true, s, n)
      else if c =? 13 then copy_line data dest s n
      else
        let s' := app_len (s16 (s_len s - 1)) s in
        if negb (s_res s =? 0) then
          match s_ptr s with PLuaL => copy_line data dest s' (with_luabuf n (lua_buf n ++ [c])) | _ => None end
        else
          match s_ptr s with PMem _ => m ← store (memory n) (Z.to_nat dest) c; copy_line data (dest + 1) s' (with_memory n m) | _ => None end
  end.
(** All characters of a segment that fit. *)
Definition copy_all (data : list Z) (s : elua_uip_state) (n : net) : option net :=
  match negb (s_res s =? 0), s_ptr s with
  | true, PLuaL => Some (with_luabuf n (lua_buf n ++ data))
  | false, PMem a => m ← stores (memory n) (Z.to_nat a) data; Some (with_memory n m)
  | _, _ => None
  end.
(** New data for a program that waits for it. *)
Definition recv_data (i : nat) (data : list Z) (s : elua_uip_state) (n : net) : option net :=
  let datalen := Z.of_nat (length data) in
  let lastfound := datalen <? UIP_RECEIVE_WINDOW in
  let '(s, temp) := if s_len s <? datalen then (app_res ELUA_NET_ERR_OVERFLOW s, s_len s) else (s, datalen) in
  '(lastfound, s, n) ← (if negb (s_readto s =? ELUA_NET_NO_LASTCHAR) then
      '(found, s, n) ← copy_line (take (Z.to_nat temp) data) (match s_ptr s with PMem a => a | _ => 0 end) s n; Some (lastfound || found, s, n)
    else if temp <? 0 then None
    else n ← copy_all (take (Z.to_nat temp) data) s n; Some (lastfound, app_len (s16 (s_len s - temp)) s, n));
  if (s_len s =? 0) || lastfound : bool then
    Some (on_conn i (set_app (app_state ELUA_UIP_STATE_IDLE (app_res ELUA_NET_ERR_OK s))) (uip_stop i n))
  else Some (on_conn i (set_app s) n).

(** The callback: socket, flags and data of uIP. The new flags, and what it wants
    to send. *)
Definition app_connected (i : nat) (flags : Z) (c : uip_conn) (n : net) : net * Z * list Z :=
  let s := appstate c in
  if (s_state s =? ELUA_UIP_STATE_CONNECT) && bool_decide (elua_net_connecting n = Some i) then
    (uip_stop i (on_conn i (set_app (app_state ELUA_UIP_STATE_IDLE s)) n), flags, [])
  else if con_tcp && (lport c =? htons ELUA_NET_TELNET_PORT) then
    if negb (elua_uip_telnet_socket n =? -1) then (n, UIP_CLOSE, [])
    else (uip_stop i (with_telnet n (Z.of_nat i)), flags, [])
  else
    match free_pending (mkPending 1 (Z.of_nat i) (ripaddr c) (htons (lport c))) (elua_uip_accept_pending n) with
    | Some l => (uip_stop i (with_pending n l), flags, [])
    | None => (n, UIP_CLOSE, [])
    end.
Definition app_send (i : nat) (flags : Z) (c : uip_conn) (n : net) : option (net * list Z) :=
  let s := appstate c in
  let s := if has_flag flags UIP_ACKDATA then
             let minlen := s16 (Z.min (s_len s) (mss c)) in
             let s := app_len (s16 (s_len s - minlen)) (app_ptr (match s_ptr s with PMem a => PMem (a + minlen) | p => p end) s) in
             if s_len s =? 0 then app_state ELUA_UIP_STATE_IDLE s else s
           else s in
  let n := on_conn i (set_app s) n in
  if 0 <? s_len s then
    match s_ptr s with
    | PMem a =>
        if con_tcp && (Z.of_nat i =? elua_uip_telnet_socket n) then
          src ← loads (memory n) (Z.to_nat a) (Z.to_nat (s_len s)); Some (n, elua_uip_telnet_prep_send src)
        else src ← loads (memory n) (Z.to_nat a) (Z.to_nat (Z.min (s_len s) (mss c))); Some (n, src)
    | _ => None
    end
  else Some (n, []).
Definition elua_uip_appcall (i : nat) (flags : Z) (data : list Z) (n : net) : option (net * Z * list Z) :=
  if negb (elua_uip_configured n) then Some (n, flags, [])
  else
    c ← uip_conns n !! i;
    let s := appstate c in
    if has_flag flags UIP_CONNECTED then Some (app_connected i flags c n)
    else if s_state s =? ELUA_UIP_STATE_IDLE then Some (n, flags, [])
    else if s_state s =? ELUA_UIP_STATE_RECV then
      Some (uip_restart i (on_conn i (set_app (app_state ELUA_UIP_STATE_RECV_2 s)) n), Z.lor flags UIP_NEWDATA, [])
    else if has_flag flags UIP_ABORT || has_flag flags UIP_TIMEDOUT || has_flag flags UIP_CLOSE then
      let r := if has_flag flags UIP_ABORT then ELUA_NET_ERR_ABORTED else if has_flag flags UIP_TIMEDOUT then ELUA_NET_ERR_TIMEDOUT else ELUA_NET_ERR_CLOSED in
      let n := if con_tcp && (Z.of_nat i =? elua_uip_telnet_socket n) then with_telnet n (-1) else n in
      Some (on_conn i (set_app (app_state ELUA_UIP_STATE_IDLE (app_res r s))) n, flags, [])
    else if (has_flag flags UIP_ACKDATA || has_flag flags UIP_REXMIT || has_flag flags UIP_POLL) && (s_state s =? ELUA_UIP_STATE_SEND) then
      '(n, sent) ← app_send i flags c n; Some (n, flags, sent)
    else if s_state s =? ELUA_UIP_STATE_CLOSE then Some (on_conn i (set_app (app_state ELUA_UIP_STATE_IDLE s)) n, UIP_CLOSE, [])
    else if has_flag flags UIP_NEWDATA then
      if s_state s =? ELUA_UIP_STATE_RECV_2 then
        n ← (if con_tcp && (Z.of_nat i =? elua_uip_telnet_socket n) then elua_uip_telnet_handle_input i data s n else recv_data i data s n);
        Some (n, flags, [])
      else Some (uip_stop i n, flags, [])
    else Some (n, flags, []).

(** ** What uIP does with a connection *)

(** After the call for a segment or a poll: what is sent. The bytes sent are the
    application's as far as it gave enough. *)
Definition uip_apprexmit (c : uip_conn) (flags : Z) (sent : list Z) : option (list segment) :=
  if negb (length sent =? 0)%nat && (0 <? c_len c) then
    if (c_len c <=? Z.of_nat (length sent)) then Some [PData (take (Z.to_nat (c_len c)) sent)] else None
  else if has_flag flags UIP_NEWDATA then Some [PAck] else Some [].
Definition uip_appsend (i : nat) (flags : Z) (sent : list Z) (n : net) : option (net * list segment) :=
  if has_flag flags UIP_ABORT then Some (on_conn i (set_tcpstate UIP_CLOSED) n, [PRst])
  else if has_flag flags UIP_CLOSE then Some (on_conn i (fun c => set_tcpstate UIP_FIN_WAIT_1 (set_len 1 c)) n, [PFin])
  else
    c ← uip_conns n !! i;
    let slen := Z.of_nat (length sent) in
    let c := if 0 <? slen then
               let c := if has_flag flags UIP_ACKDATA then set_len 0 c else c in
               if c_len c =? 0 then set_len (Z.min slen (mss c)) c else c
             else c in
    ps ← uip_apprexmit c flags sent;
    Some (on_conn i (fun _ => c) n, ps).

(** What happens to a connection: its timer, what it says if there are bytes to be
    acknowledged ([None]: not yet; [Some true]: too often), and whether the interrupt
    was asked for; a segment that is the next one, which may acknowledge all bytes
    sent, with its data and window; a reset; the answer to our SYN; a new
    connection. *)
Inductive net_event :=
  | ETimer (forced : bool) (rto : option bool)
  | ESegment (ack : bool) (data : list Z) (fin : bool) (wnd : Z)
  | EReset
  | ESynAck (peer_mss : option Z)
  | ESyn (port remote_port ip : Z) (peer_mss : option Z)
  | EEstablish (data : list Z).
Definition uip_call (i : nat) (flags : Z) (data : list Z) (n : net) : option (net * list segment) :=
  '(n, flags, sent) ← elua_uip_appcall i flags data n; uip_appsend i flags sent n.
(** The call to tell of an end, where nothing is sent afterwards. *)
Definition tell (i : nat) (flags : Z) (n : net) : option net := '(n, _, _) ← elua_uip_appcall i flags [] n; Some n.

Definition uip_timer (i : nat) (c : uip_conn) (forced : bool) (rto : option bool) (n : net) : option (net * list segment) :=
  let ts := Z.land (tcpstateflags c) UIP_TS_MASK in
  if negb forced && ((tcpstateflags c =? UIP_TIME_WAIT) || (tcpstateflags c =? UIP_FIN_WAIT_2)) then
    Some (if bool_decide (rto = Some true) then on_conn i (set_tcpstate UIP_CLOSED) n else n, [])
  else if (tcpstateflags c =? UIP_CLOSED) || (tcpstateflags c =? UIP_RESERVED) then Some (n, [])
  else if negb (c_len c =? 0) && negb forced then
    match rto with
    | None => Some (n, [])
    | Some true => n ← tell i UIP_TIMEDOUT (on_conn i (set_tcpstate UIP_CLOSED) n); Some (n, [PRst])
    | Some false =>
        if (ts =? UIP_SYN_RCVD) || (ts =? UIP_SYN_SENT) then Some (n, [PSyn])
        else if ts =? UIP_ESTABLISHED then
          '(n, flags, sent) ← elua_uip_appcall i UIP_REXMIT [] n;
          c ← uip_conns n !! i;
          ps ← uip_apprexmit c flags sent; Some (n, ps)
        else if (ts =? UIP_FIN_WAIT_1) || (ts =? UIP_CLOSING) || (ts =? UIP_LAST_ACK) then Some (n, [PFin])
        else Some (n, [])
    end
  else if ts =? UIP_ESTABLISHED then uip_call i UIP_POLL [] n
  else Some (n, []).
(** The acknowledgement of everything, if there is something. *)
Definition new_mss (wnd : Z) (c : uip_conn) : Z := if (initialmss c <? wnd) || (wnd =? 0) then initialmss c else wnd.
Definition uip_segment (i : nat) (c : uip_conn) (ack : bool) (data : list Z) (fin : bool) (wnd : Z) (n : net) : option (net * list segment) :=
  let ts := Z.land (tcpstateflags c) UIP_TS_MASK in
  let acked := ack && negb (c_len c =? 0) in
  let flags := if acked then UIP_ACKDATA else 0 in
  let c := if acked then set_len 0 c else c in
  let n := on_conn i (fun _ => c) n in
  let some_data := negb (length data =? 0)%nat in
  let ack_data := if some_data then [PAck] else [] in
  if ts =? UIP_ESTABLISHED then
    let log := if acked then [Acked] else [] in
    if fin && negb (is_stopped c) then
      if negb (c_len c =? 0) then Some (n, log)
      else
        let flags := Z.lor (Z.lor flags UIP_CLOSE) (if some_data then UIP_NEWDATA else 0) in
        '(n, _, _) ← elua_uip_appcall i flags data n;
        Some (on_conn i (fun c => set_tcpstate UIP_LAST_ACK (set_len 1 c)) n, log ++ [PFin])
    else
      let flags := if some_data && negb (is_stopped c) then Z.lor flags UIP_NEWDATA else flags in
      let n := on_conn i (set_mss (new_mss wnd c)) n in
      if has_flag flags UIP_NEWDATA || has_flag flags UIP_ACKDATA then '(n, ps) ← uip_call i flags data n; Some (n, log ++ ps) else Some (n, log)
  else if ts =? UIP_LAST_ACK then
    if acked then n ← tell i UIP_CLOSE (on_conn i (set_tcpstate UIP_CLOSED) n); Some (n, []) else Some (n, [])
  else if ts =? UIP_FIN_WAIT_1 then
    if fin then
      let n := on_conn i (if acked then fun c => set_tcpstate UIP_TIME_WAIT (set_len 0 c) else set_tcpstate UIP_CLOSING) n in
      n ← tell i UIP_CLOSE n; Some (n, [PAck])
    else if acked then Some (on_conn i (fun c => set_tcpstate UIP_FIN_WAIT_2 (set_len 0 c)) n, [])
    else Some (n, ack_data)
  else if ts =? UIP_FIN_WAIT_2 then
    if fin then n ← tell i UIP_CLOSE (on_conn i (set_tcpstate UIP_TIME_WAIT) n); Some (n, [PAck])
    else Some (n, ack_data)
  else if ts =? UIP_TIME_WAIT then Some (n, [PAck])
  else if ts =? UIP_CLOSING then Some (if acked then on_conn i (set_tcpstate UIP_TIME_WAIT) n else n, [])
  else if ts =? UIP_SYN_SENT then n ← tell i UIP_ABORT n; Some (on_conn i (set_tcpstate UIP_CLOSED) n, [PRst])
  else Some (n, []).
Definition mss_option (peer_mss : option Z) (c : uip_conn) : uip_conn :=
  match peer_mss with
  | Some m => let m := Z.min m UIP_TCP_MSS in mkConn (tcpstateflags c) (c_len c) m m (lport c) (rport c) (ripaddr c) (appstate c)
  | None => c
  end.
Definition uip_event (i : nat) (e : net_event) (n : net) : option (net * list segment) :=
  c ← uip_conns n !! i;
  let ts := Z.land (tcpstateflags c) UIP_TS_MASK in
  let flags_len f l := on_conn i (fun c => set_tcpstate f (set_len l c)) in
  match e with
  | ETimer forced rto => uip_timer i c forced rto n
  | ESegment ack data fin wnd => uip_segment i c ack data fin wnd n
  | EReset =>
      if (tcpstateflags c =? UIP_CLOSED) || (tcpstateflags c =? UIP_RESERVED) then Some (n, [])
      else n ← tell i UIP_ABORT (on_conn i (set_tcpstate UIP_CLOSED) n); Some (n, [])
  | ESynAck m =>
      if ts =? UIP_SYN_SENT then uip_call i (Z.lor UIP_CONNECTED UIP_NEWDATA) [] (flags_len UIP_ESTABLISHED 0 (on_conn i (mss_option m) n))
      else Some (n, [])
  | ESyn port remote_port ip m =>
      if ((tcpstateflags c =? UIP_CLOSED) || (tcpstateflags c =? UIP_TIME_WAIT)) && bool_decide (port ∈ uip_listenports n) then
        Some (on_conn i (fun c => mss_option m (mkConn UIP_SYN_RCVD 1 (mss c) (initialmss c) port remote_port ip (appstate c))) n, [PSyn])
      else Some (n, [])
  | EEstablish data =>
      if ts =? UIP_SYN_RCVD then
        uip_call i (Z.lor UIP_CONNECTED (if (length data =? 0)%nat then 0 else UIP_NEWDATA)) data (flags_len UIP_ESTABLISHED 0 n)
      else Some (n, [])
  end.
Fixpoint uip_events (evs : list (nat * net_event)) (n : net) : option (net * list (nat * segment)) :=
  match evs with
  | [] => Some (n, [])
  | (i, e) :: evs => '(n, ps) ← uip_event i e n; '(n, l) ← uip_events evs n; Some (n, (pair i <$> ps) ++ l)
  end.

(** [uip_listen], [uip_unlisten], and the choice of a port for a connection. *)
Fixpoint replace_first (a b : Z) (l : list Z) : list Z :=
  match l with [] => [] | x :: l => if x =? a then b :: l else x :: replace_first a b l end.
Definition uip_listen (port : Z) (n : net) : net := with_ports n (replace_first 0 port (uip_listenports n)) (lastport n).
Definition uip_unlisten (port : Z) (n : net) : net := with_ports n (replace_first port 0 (uip_listenports n)) (lastport n).
Fixpoint uip_find_unused_port (fuel : nat) (n : net) : option net :=
  match fuel with
  | O => None
  | S fuel =>
      let p := lastport n + 1 in
      let n := with_ports n (uip_listenports n) (if 32000 <=? p then 4096 else p) in
      if existsb (fun c => negb (tcpstateflags c =? UIP_CLOSED) && negb (tcpstateflags c =? UIP_RESERVED) && (lport c =? htons (lastport n))) (uip_conns n)
      then uip_find_unused_port fuel n else Some n
  end.
(** One port more than there are connections is tried. *)
Definition uip_connect_socket (i : nat) (ip port : Z) (n : net) : option (bool * net) :=
  c ← uip_conns n !! i;
  if negb (tcpstateflags c =? UIP_RESERVED) then Some (false, n)
  else
    n ← uip_find_unused_port (S (length (uip_conns n))) n;
    Some (true, on_conn i (fun c => mkConn UIP_SYN_SENT 1 UIP_TCP_MSS UIP_TCP_MSS (htons (lastport n)) port ip (appstate c)) n).

(** ** Calls of a program *)

(** A moment: the network, how many there have been, and what was on the line. *)
Record nworld := mkNW { the_net : net; moment : nat; line : list (nat * segment) }.
Definition with_net (w : nworld) (n : net) : nworld := mkNW n (moment w) (line w).
(** What happens before each look; the time. *)
Context (env : nat -> list (nat * net_event)).
Context (platform_timer_start : Z -> nworld -> Z) (platform_timer_get_diff_crt : Z -> Z -> nworld -> Z).

Definition next_moment (w : nworld) : option nworld :=
  '(n, l) ← uip_events (env (moment w)) (the_net w); Some (mkNW n (S (moment w)) (line w ++ l)).
Definition is_sock_ok (n : net) (s : Z) : bool := elua_uip_configured n && (0 <=? s) && (s <? Z.of_nat (length (uip_conns n))).
Definition uip_conn_active (n : net) (s : Z) : option bool :=
  c ← uip_conns n !! Z.to_nat s; Some (negb (tcpstateflags c =? UIP_CLOSED) && negb (tcpstateflags c =? UIP_RESERVED)).
(** [!ELUA_UIP_IS_SOCK_OK( s ) || !uip_conn_active( s )] *)
Definition not_active (n : net) (s : Z) : option bool :=
  if negb (is_sock_ok n s) then Some true else active ← uip_conn_active n s; Some (negb active).
Definition app_of (n : net) (s : Z) : option elua_uip_state := appstate <$> uip_conns n !! Z.to_nat s.
Definition elua_prep_socket_state (s : Z) (buf : place) (len readto res state : Z) : net -> net :=
  on_conn (Z.to_nat s) (set_app (mkApp state res buf len readto)).
(** [while( pstate->state != ELUA_UIP_STATE_IDLE );] *)
Fixpoint wait_idle (fuel : nat) (s : Z) (w : nworld) : option nworld :=
  match fuel with
  | O => None
  | S fuel =>
      w ← next_moment w;
      a ← app_of (the_net w) s;
      if s_state a =? ELUA_UIP_STATE_IDLE then Some w else wait_idle fuel s w
  end.

(** The first connection that is closed, which is reserved. *)
Fixpoint find_closed (l : list uip_conn) : option nat :=
  match l with [] => None | c :: l => if tcpstateflags c =? UIP_CLOSED then Some O else S <$> find_closed l end.
Definition elua_net_socket (type : Z) (w : nworld) : Z * nworld :=
  if type =? ELUA_NET_SOCK_DGRAM then (-1, w)
  else match find_closed (uip_conns (the_net w)) with
       | Some i => (Z.of_nat i, with_net w (on_conn i (set_tcpstate UIP_RESERVED) (the_net w)))
       | None => (-1, w)
       end.
Definition elua_net_send (fuel : nat) (s : Z) (buf : place) (len : Z) (w : nworld) : option (Z * nworld) :=
  bad ← not_active (the_net w) s;
  if bad : bool then Some (-1, w)
  else if len =? 0 then Some (0, w)
  else
    w ← wait_idle fuel s (with_net w (elua_prep_socket_state s buf len ELUA_NET_NO_LASTCHAR ELUA_NET_ERR_OK ELUA_UIP_STATE_SEND (the_net w)));
    a ← app_of (the_net w) s;
    Some (s16 (len - s_len a), w).
(** Waiting with a timeout: it is looked at after the socket, and it ends the
    request unless that has ended since. *)
Fixpoint recv_wait (fuel : nat) (s timer_id to_us start : Z) (w : nworld) : option nworld :=
  match fuel with
  | O => None
  | S fuel =>
      w ← next_moment w;
      a ← app_of (the_net w) s;
      if s_state a =? ELUA_UIP_STATE_IDLE then Some w
      else if (0 <? to_us) && (to_us <=? platform_timer_get_diff_crt timer_id start w) then
        w ← next_moment w;
        a ← app_of (the_net w) s;
        if negb (s_state a =? ELUA_UIP_STATE_IDLE) then
          Some (with_net w (on_conn (Z.to_nat s) (set_app (app_state ELUA_UIP_STATE_IDLE (app_res ELUA_NET_ERR_TIMEDOUT a))) (the_net w)))
        else Some w
      else recv_wait fuel s timer_id to_us start w
  end.
Definition elua_net_recv_internal (fuel : nat) (s : Z) (buf : place) (maxsize readto timer_id to_us with_buffer : Z) (w : nworld) : option (Z * nworld) :=
  bad ← not_active (the_net w) s;
  if bad : bool then Some (-1, w)
  else if maxsize =? 0 then Some (0, w)
  else
    let w := with_net w (elua_prep_socket_state s buf maxsize readto with_buffer ELUA_UIP_STATE_RECV (the_net w)) in
    let start := if 0 <? to_us then platform_timer_start timer_id w else 0 in
    w ← recv_wait fuel s timer_id to_us start w;
    a ← app_of (the_net w) s;
    Some (s16 (maxsize - s_len a), w).
Definition elua_net_recv (fuel : nat) (s a maxsize readto timer_id to_us : Z) (w : nworld) : option (Z * nworld) :=
  elua_net_recv_internal fuel s (PMem a) maxsize readto timer_id to_us 0 w.
Definition elua_net_recvbuf (fuel : nat) (s maxsize readto timer_id to_us : Z) (w : nworld) : option (Z * nworld) :=
  elua_net_recv_internal fuel s PLuaL maxsize readto timer_id to_us 1 w.
Definition elua_net_get_telnet_socket (n : net) : option Z :=
  if con_tcp && negb (elua_uip_telnet_socket n =? -1) then
    active ← uip_conn_active n (elua_uip_telnet_socket n);
    Some (if active : bool then elua_uip_telnet_socket n else -1)
  else Some (-1).
Definition elua_net_close (fuel : nat) (s : Z) (w : nworld) : option (Z * nworld) :=
  bad ← not_active (the_net w) s;
  if bad : bool then Some (-1, w)
  else
    w ← wait_idle fuel s (with_net w (elua_prep_socket_state s PNull 0 ELUA_NET_NO_LASTCHAR ELUA_NET_ERR_OK ELUA_UIP_STATE_CLOSE (the_net w)));
    a ← app_of (the_net w) s;
    Some (if s_res a =? ELUA_NET_ERR_OK then 0 else -1, w).
Definition elua_net_get_last_err (s : Z) (n : net) : option Z :=
  if negb (is_sock_ok n s) then Some (-1) else s_res <$> app_of n s.
Definition elua_listen (port : Z) (flisten : bool) (n : net) : Z * net :=
  if negb (elua_uip_configured n) then (-1, n)
  else if con_tcp && (port =? ELUA_NET_TELNET_PORT) then (-1, n)
  else
    let n := uip_unlisten (htons port) n in
    (0, if flisten then uip_listen (htons port) n else n).
Fixpoint find_pending (port : Z) (l : list elua_uip_accept_pending_t) : option nat :=
  match l with
  | [] => None
  | p :: l => if (accept_request p =? 1) && (p_port p =? port) then Some O else S <$> find_pending port l
  end.
(** The slot is free again before its socket is read. *)
Fixpoint accept_wait (fuel : nat) (port timer_id to_us start : Z) (w : nworld) : option (option (Z * Z) * nworld) :=
  match fuel with
  | O => None
  | S fuel =>
      match find_pending port (elua_uip_accept_pending (the_net w)) with
      | Some i =>
          p ← elua_uip_accept_pending (the_net w) !! i;
          let from := p_remote p in
          let n := with_pending (the_net w) (alter (fun p => mkPending 0 (p_sock p) (p_remote p) (p_port p)) i (elua_uip_accept_pending (the_net w))) in
          w ← next_moment (with_net w n);
          p ← elua_uip_accept_pending (the_net w) !! i;
          Some (Some (p_sock p, from), w)
      | None =>
          if (to_us =? 0) || (to_us <=? platform_timer_get_diff_crt timer_id start w) then Some (None, w)
          else w ← next_moment w; accept_wait fuel port timer_id to_us start w
      end
  end.
(** The socket and the address, or nothing (-1). *)
Definition elua_accept (fuel : nat) (port timer_id to_us : Z) (w : nworld) : option (option (Z * Z) * nworld) :=
  if negb (elua_uip_configured (the_net w)) then Some (None, w)
  else accept_wait fuel port timer_id to_us (if 0 <? to_us then platform_timer_start timer_id w else 0) w.
Definition elua_net_connect (fuel : nat) (s addr port : Z) (w : nworld) : option (Z * nworld) :=
  if negb (is_sock_ok (the_net w) s) then Some (-1, w)
  else
    c ← uip_conns (the_net w) !! Z.to_nat s;
    if negb (tcpstateflags c =? UIP_RESERVED) then Some (-1, w)
    else
      let n := elua_prep_socket_state s PNull 0 ELUA_NET_NO_LASTCHAR ELUA_NET_ERR_OK ELUA_UIP_STATE_CONNECT (the_net w) in
      '(ok, n) ← uip_connect_socket (Z.to_nat s) addr (htons port) n;
      let n := with_connecting n (if ok : bool then Some (Z.to_nat s) else None) in
      if negb ok then Some (-1, with_net w n)
      else
        w ← wait_idle fuel s (with_net w n);
        a ← app_of (the_net w) s;
        Some (if s_res a =? ELUA_NET_ERR_OK then 0 else -1, with_net w (with_connecting (the_net w) None)).

(** ** The console over telnet *)

(** [while( ( sock = elua_net_get_telnet_socket() ) == -1 );] *)
Fixpoint wait_telnet (fuel : nat) (w : nworld) : option (Z * nworld) :=
  match fuel with
  | O => None
  | S fuel => s ← elua_net_get_telnet_socket (the_net w); if s =? -1 then w ← next_moment w; wait_telnet fuel w else Some (s, w)
  end.
(** A result of -1 is no number of characters: looking for the end of the file
    among them leaves the buffer. *)
Fixpoint tcp_read_loop (loops fuel : nat) (sock a len actsize : Z) (w : nworld) : option (Z * nworld) :=
  match loops with
  | O => None
  | S loops =>
      '(pktsize, w) ← elua_net_recv fuel sock a (s16 len) (-1) 0 0 w;
      if pktsize <? 0 then None
      else
        got ← loads (memory (the_net w)) (Z.to_nat a) (Z.to_nat pktsize);
        if bool_decide (TELNET_CTRLZ ∈ got) then Some (0, w)
        else
          let actsize := actsize + pktsize in
          if len <=? actsize then Some (len, w)
          else if (2 <=? pktsize) && bool_decide (drop (Z.to_nat pktsize - 2) got = [13; 10]) then Some (actsize, w)
          else tcp_read_loop loops fuel sock (a + pktsize) (len - pktsize) actsize w
  end.
Definition tcp_std_read (loops fuel : nat) (fd a len : Z) (w : nworld) : option (Z * nworld) :=
  if negb (fd =? 0) then Some (-1, w) else '(sock, w) ← wait_telnet fuel w; tcp_read_loop loops fuel sock a len 0 w.
Definition tcp_std_write (fuel : nat) (fd a len : Z) (w : nworld) : option (Z * nworld) :=
  if negb (fd =? 1) && negb (fd =? 2) then Some (-1, w)
  else '(sock, w) ← wait_telnet fuel w; '(_, w) ← elua_net_send fuel sock (PMem a) (s16 len) w; Some (len, w).
End Net.
