(* ===== verification/NetSpec.v ===== *)
(** * NetSpec: what sockets do

    The callback of Net from the side of a program: what [elua_net_send] delivers
    to another side whose window is never smaller than a segment, whatever else is lost
    or repeated, and what [elua_net_recvbuf] takes of a stream until its time is up; then
    where the code does not do what it means to. *)

From S2P Require Import Prelude LuaApi Net.

(** ** The state of one connection *)

Lemma lookup_on_conn_eq i f n : uip_conns (on_conn i f n) !! i = f <$> uip_conns n !! i.
Proof. apply list_lookup_alter_eq. Qed.
Lemma lookup_on_conn_ne i j f n : i <> j -> uip_conns (on_conn i f n) !! j = uip_conns n !! j.
Proof. apply list_lookup_alter_ne. Qed.
Lemma length_on_conn i f n : length (uip_conns (on_conn i f n)) = length (uip_conns n).
Proof. apply length_alter. Qed.
Create HintDb net.
Create Rewrite HintDb net.
#[export] Hint Rewrite lookup_on_conn_eq length_on_conn : net.

Definition ts_of (c : uip_conn) : Z := Z.land (tcpstateflags c) UIP_TS_MASK.
Lemma land_stop f : Z.land (Z.lor f UIP_STOPPED) UIP_TS_MASK = Z.land f UIP_TS_MASK.
Proof. rewrite Z.land_lor_distr_l. change (Z.land UIP_STOPPED UIP_TS_MASK) with 0. by rewrite Z.lor_0_r. Qed.

(** A socket with no request, or one that waits for its connection: the callback
    sends nothing and does not touch memory. *)
Definition quiet (c : uip_conn) : Prop := s_state (appstate c) = ELUA_UIP_STATE_IDLE \/ s_state (appstate c) = ELUA_UIP_STATE_CONNECT.
(** A connection with no data on the way. *)
Definition calm (c : uip_conn) : Prop := ts_of c <> UIP_ESTABLISHED \/ c_len c = 0.
(** What an event of socket [i] leaves as it is. *)
Record moves (i : nat) (n n' : net) : Prop := {
  mv_memory : memory n' = memory n;
  mv_lua : lua_buf n' = lua_buf n;
  mv_configured : elua_uip_configured n' = elua_uip_configured n;
  mv_others : forall j, j <> i -> uip_conns n' !! j = uip_conns n !! j;
  mv_telnet : elua_uip_telnet_socket n' = elua_uip_telnet_socket n \/ elua_uip_telnet_socket n' = Z.of_nat i \/ elua_uip_telnet_socket n' = -1
}.
Lemma moves_refl i n : moves i n n.
Proof. split; auto. Qed.
Lemma moves_trans i n n1 n2 : moves i n n1 -> moves i n1 n2 -> moves i n n2.
Proof.
  intros [M1 L1 C1 O1 T1] [M2 L2 C2 O2 T2]. split; [congruence..|intros j Hj; by rewrite O2, O1|].
  destruct T2 as [-> |[-> | ->]]; [done|by right; left|by right; right].
Qed.
Lemma moves_conn i f n : moves i n (on_conn i f n).
Proof. split; [done..| |by left]. intros j Hj. by rewrite lookup_on_conn_ne. Qed.
Lemma moves_then i f n n' : moves i n n' -> moves i n (on_conn i f n').
Proof. intros H. eapply moves_trans; [done|apply moves_conn]. Qed.
Lemma moves_with i f n n' : moves i (on_conn i f n) n' -> moves i n n'.
Proof. apply moves_trans, moves_conn. Qed.
#[export] Hint Resolve moves_refl moves_conn moves_then : net.

(** What a socket without a request is afterwards: [strict] if it had none. *)
Definition same_app (c c' : uip_conn) : Prop :=
  quiet c' /\ (s_state (appstate c) = ELUA_UIP_STATE_IDLE -> appstate c' = appstate c).
Definition silent (ps : list segment) : Prop := Forall (fun p => match p with PData _ | Acked => False | _ => True end) ps.

Section Spec.
Context (UIP_TCP_MSS UIP_RECEIVE_WINDOW : Z) (big_endian con_tcp : bool).
Abbreviation appcall := (elua_uip_appcall UIP_RECEIVE_WINDOW big_endian con_tcp).
Abbreviation step_event := (uip_event UIP_TCP_MSS UIP_RECEIVE_WINDOW big_endian con_tcp).
Abbreviation step_events := (uip_events UIP_TCP_MSS UIP_RECEIVE_WINDOW big_endian con_tcp).
Abbreviation net_call := (uip_call UIP_RECEIVE_WINDOW big_endian con_tcp).
Abbreviation net_tell := (tell UIP_RECEIVE_WINDOW big_endian con_tcp).

Lemma quiet_cases c : quiet c -> (s_state (appstate c) =? ELUA_UIP_STATE_RECV) = false /\ (s_state (appstate c) =? ELUA_UIP_STATE_SEND) = false /\
  (s_state (appstate c) =? ELUA_UIP_STATE_CLOSE) = false /\ (s_state (appstate c) =? ELUA_UIP_STATE_RECV_2) = false.
Proof. intros [-> | ->]; done. Qed.
Lemma appcall_quiet i flags data n c : uip_conns n !! i = Some c -> quiet c ->
  exists n' flags' c', appcall i flags data n = Some (n', flags', []) /\ moves i n n' /\ uip_conns n' !! i = Some c' /\
    same_app c c' /\ c_len c' = c_len c /\ ts_of c' = ts_of c.
Proof.
  intros Hc Hq. destruct (quiet_cases c Hq) as (H1 & H2 & H3 & H4). unfold elua_uip_appcall.
  assert (Hsame : exists n' flags' c', Some (n, flags, @nil Z) = Some (n', flags', []) /\ moves i n n' /\ uip_conns n' !! i = Some c' /\
    same_app c c' /\ c_len c' = c_len c /\ ts_of c' = ts_of c).
  { exists n, flags, c. split_and!; auto using moves_refl. by split. }
  destruct (elua_uip_configured n); [|done]. cbn [negb]. rewrite Hc. cbn [mbind option_bind].
  destruct (has_flag flags UIP_CONNECTED).
  - unfold app_connected. repeat case_match; cbn [andb] in *; (eexists _, _, _; split; [reflexivity|]); unfold uip_stop.
    + split; [auto with net|]. rewrite !lookup_on_conn_eq, Hc. split; [reflexivity|].
      split; [|split; [done|apply land_stop]]. split; [by left|]. intros E. apply andb_prop in H as [H _]. apply Z.eqb_eq in H. by rewrite E in H.
    + split; [auto with net|]. rewrite Hc. split_and!; [done|by split|done|done].
    + split; [apply moves_then; split; auto|]. rewrite lookup_on_conn_eq. cbn [with_telnet uip_conns]. rewrite Hc. split; [reflexivity|].
      split; [by split|]. split; [done|apply land_stop].
    + split; [apply moves_then; split; auto|]. rewrite lookup_on_conn_eq. cbn [with_pending uip_conns]. rewrite Hc. split; [reflexivity|].
      split; [by split|]. split; [done|apply land_stop].
    + split; [auto with net|]. rewrite Hc. split_and!; [done|by split|done|done].
  - destruct (Z.eqb_spec (s_state (appstate c)) ELUA_UIP_STATE_IDLE) as [|Hne]; [done|]. rewrite H1.
    destruct (_ || _ || _).
    + eexists _, _, _. split; [reflexivity|]. split.
      { apply moves_then. case_match; [|apply moves_refl]. split; auto. }
      rewrite lookup_on_conn_eq. replace (uip_conns _ !! i) with (Some c) by (by case_match). split; [reflexivity|].
      split; [|done]. split; [by left|done].
    + rewrite H2, andb_false_r, H3, H4. destruct (has_flag flags UIP_NEWDATA); [|done]. eexists _, _, _. split; [reflexivity|].
      unfold uip_stop. split; [auto with net|]. rewrite lookup_on_conn_eq, Hc. split; [reflexivity|]. split; [by split|]. split; [done|apply land_stop].
Qed.

(** The same for all that happens to a connection. *)
Definition rests (i : nat) (c : uip_conn) (n : net) (r : option (net * list segment)) : Prop :=
  exists n' ps c', r = Some (n', ps) /\ moves i n n' /\ uip_conns n' !! i = Some c' /\ same_app c c' /\
    (forall bs, ~ In (PData bs) ps) /\ (calm c -> calm c' /\ ~ In Acked ps).
Lemma call_rests i flags data n c0 c : uip_conns n !! i = Some c -> quiet c -> appstate c = appstate c0 ->
  (calm c0 -> calm c) -> rests i c0 n (net_call i flags data n).
Proof.
  intros Hc Hq Ha Hcalm. unfold uip_call. destruct (appcall_quiet i flags data n c Hc Hq) as (n1 & f1 & c1 & -> & Hm & Hc1 & [Hq1 Hs1] & Hl1 & Ht1).
  assert (Hsame : same_app c0 c1) by (split; [done|by rewrite <- Ha]).
  assert (Hcalm1 : calm c0 -> calm c1) by (intros H; destruct (Hcalm H); [left|right]; congruence).
  cbn [mbind option_bind]. unfold uip_appsend, uip_apprexmit.
  destruct (has_flag f1 UIP_ABORT); [|destruct (has_flag f1 UIP_CLOSE)].
  - eexists _, _, _. split; [reflexivity|]. split; [auto with net|]. rewrite lookup_on_conn_eq, Hc1. split; [reflexivity|]. split; [done|].
    split; [intros bs [|[]]; done|]. intros _. split; [by left|intros [|[]]; done].
  - eexists _, _, _. split; [reflexivity|]. split; [auto with net|]. rewrite lookup_on_conn_eq, Hc1. split; [reflexivity|]. split; [done|].
    split; [intros bs [|[]]; done|]. intros _. split; [by left|intros [|[]]; done].
  - rewrite Hc1. cbn [mbind option_bind length Nat.eqb negb andb Z.of_nat]. change (0 <? 0) with false. cbv iota.
    assert (Hend : forall ps, ps = [PAck] \/ ps = [] -> rests i c0 n (Some (on_conn i (fun _ => c1) n1, ps))).
    { intros ps Hps. eexists _, _, _. split; [reflexivity|]. split; [auto with net|]. rewrite lookup_on_conn_eq, Hc1. split; [reflexivity|].
      split; [done|]. destruct Hps as [-> | ->]; (split; [by intros bs H; repeat destruct H as [H|H]|]); intros H; (split; [by apply Hcalm1|by intros H'; repeat destruct H' as [H'|H']]). }
    destruct (has_flag f1 UIP_NEWDATA); cbn [mbind option_bind]; apply Hend; auto.
Qed.
Lemma tell_rests i flags n c0 c ps : uip_conns n !! i = Some c -> quiet c -> appstate c = appstate c0 ->
  (calm c0 -> calm c) -> silent ps -> rests i c0 n (n ← net_tell i flags n; Some (n, ps)).
Proof.
  intros Hc Hq Ha Hcalm Hps. unfold tell. destruct (appcall_quiet i flags [] n c Hc Hq) as (n1 & f1 & c1 & -> & Hm & Hc1 & [Hq1 Hs1] & Hl1 & Ht1).
  cbn [mbind option_bind]. eexists _, _, _. split; [reflexivity|]. split; [done|]. split; [done|]. split; [split; [done|by rewrite <- Ha]|].
  unfold silent in Hps. rewrite Forall_forall in Hps.
  split; [intros bs H%list_elem_of_In; by apply (Hps _ H)|]. intros H.
  split; [destruct (Hcalm H); [left|right]; congruence|]. intros H'%list_elem_of_In. by apply (Hps _ H').
Qed.
Lemma rests_with i c f n r : rests i c (on_conn i f n) r -> rests i c n r.
Proof.
  intros (n' & ps & c' & Hr & Hm & H). exists n', ps, c'. split; [done|]. split; [by eapply moves_with|done].
Qed.
(** Only a field of uIP's changes, and what is sent is no data. *)
Lemma rests_conn i c f n ps : uip_conns n !! i = Some c -> quiet c -> appstate (f c) = appstate c -> (calm c -> calm (f c)) -> silent ps ->
  rests i c n (Some (on_conn i f n, ps)).
Proof.
  intros Hc Hq Ha Hcalm Hps. eexists _, _, _. split; [reflexivity|]. split; [auto with net|]. rewrite lookup_on_conn_eq, Hc. split; [reflexivity|].
  split; [split; [by unfold quiet; rewrite Ha|by rewrite Ha]|]. unfold silent in Hps. rewrite Forall_forall in Hps.
  split; [intros bs H%list_elem_of_In; by apply (Hps _ H)|]. intros H. split; [auto|]. intros H'%list_elem_of_In. by apply (Hps _ H').
Qed.
Lemma on_conn_id i n : on_conn i (fun c => c) n = n.
Proof. unfold on_conn. rewrite list_alter_id by done. by destruct n. Qed.
Lemma on_conn_fix i f c n : uip_conns n !! i = Some c -> f c = c -> on_conn i f n = n.
Proof.
  intros Hc Hf. unfold on_conn, with_conns. enough (alter f i (uip_conns n) = uip_conns n) as -> by (by destruct n).
  apply list_eq. intros j. destruct (decide (j = i)) as [->|Hj]; [by rewrite list_lookup_alter_eq, Hc; cbn; rewrite Hf|by apply list_lookup_alter_ne].
Qed.
Lemma rests_same i c n ps : uip_conns n !! i = Some c -> quiet c -> silent ps -> rests i c n (Some (n, ps)).
Proof. intros Hc Hq Hps. rewrite <- (on_conn_id i n) at 2. by apply rests_conn. Qed.
Lemma silent_nil : silent [].
Proof. constructor. Qed.
Lemma silent_one p : match p with PData _ | Acked => False | _ => True end -> silent [p].
Proof. intros. by apply Forall_singleton. Qed.
Hint Resolve silent_nil silent_one rests_conn rests_same : net.

Lemma timer_rests i c forced rto n : uip_conns n !! i = Some c -> quiet c ->
  rests i c n (uip_timer UIP_RECEIVE_WINDOW big_endian con_tcp i c forced rto n).
Proof.
  intros Hc Hq. unfold uip_timer.
  assert (Hend : forall ps, silent ps -> rests i c n (Some (n, ps))) by auto with net.
  destruct (_ && _).
  { case_match; [|auto with net]. apply rests_conn; auto with net. by left. }
  destruct (_ || _); [auto with net|]. destruct (negb (c_len c =? 0) && negb forced) eqn:El.
  - destruct rto as [[]|]; [| |auto with net].
    + apply (rests_with _ _ (set_tcpstate UIP_CLOSED)). eapply tell_rests; [by rewrite lookup_on_conn_eq, Hc|done|done|by left|by apply silent_one].
    + destruct (_ || _); [by apply Hend, silent_one|]. destruct (Z.eqb_spec (Z.land (tcpstateflags c) UIP_TS_MASK) UIP_ESTABLISHED) as [Et|Et].
      * destruct (appcall_quiet i UIP_REXMIT [] n c Hc Hq) as (n1 & f1 & c1 & -> & Hm & Hc1 & Hsame & Hl1 & Ht1).
        cbn [mbind option_bind]. rewrite Hc1. cbn [mbind option_bind uip_apprexmit length Nat.eqb negb andb].
        assert (Hcl : ~ calm c) by (intros [H|H]; [done|by rewrite H in El]).
        case_match; (eexists _, _, _; split; [reflexivity|]; split; [done|]; split; [done|]; split; [done|]; split; [by intros bs H'; repeat destruct H' as [H'|H']|by intros H'; destruct Hcl]).
      * destruct (_ || _); [by apply Hend, silent_one|auto with net].
  - destruct (_ =? UIP_ESTABLISHED); [by eapply call_rests|auto with net].
Qed.
Lemma segment_rests i c ack data fin wnd n : uip_conns n !! i = Some c -> quiet c ->
  rests i c n (uip_segment UIP_RECEIVE_WINDOW big_endian con_tcp i c ack data fin wnd n).
Proof.
  intros Hc Hq. unfold uip_segment. set (acked := ack && negb (c_len c =? 0)). set (c1 := if acked then set_len 0 c else c).
  assert (Ha1 : appstate c1 = appstate c) by (unfold c1; by destruct acked).
  assert (Hq1 : quiet c1) by (unfold quiet; by rewrite Ha1).
  assert (Ht1 : ts_of c1 = ts_of c) by (unfold c1; by destruct acked).
  assert (Hcalm1 : calm c -> calm c1) by (intros [H|H]; [left; congruence|right; unfold c1; by destruct acked]).
  apply (rests_with _ _ (fun _ => c1)). set (n1 := on_conn i (fun _ => c1) n).
  assert (Hc1 : uip_conns n1 !! i = Some c1) by (unfold n1; by rewrite lookup_on_conn_eq, Hc).
  (* from [c1] to [c] *)
  assert (Hfrom : forall r, rests i c1 n1 r -> rests i c n1 r).
  { intros r (n' & ps & c' & Hr & Hm & Hc' & [Hq' Hs'] & Hd & Hk). exists n', ps, c'. split_and!; auto. split; [done|by rewrite <- Ha1]. }
  assert (Hsame : forall ps, silent ps -> rests i c n1 (Some (n1, ps))) by (intros; apply Hfrom; auto with net).
  assert (Hset : forall f ps, silent ps -> appstate (f c1) = appstate c1 -> (calm c1 -> calm (f c1)) -> rests i c n1 (Some (on_conn i f n1, ps))).
  { intros. apply Hfrom. auto with net. }
  assert (Htell : forall f ps, silent ps -> appstate (f c1) = appstate c1 -> (calm c1 -> calm (f c1)) ->
    rests i c n1 (n' ← net_tell i UIP_CLOSE (on_conn i f n1); Some (n', ps))).
  { intros f ps Hps Ha Hcalm. apply (rests_with _ _ f). eapply tell_rests; [by rewrite lookup_on_conn_eq, Hc1|unfold quiet; by rewrite Ha|by rewrite Ha|auto|done]. }
  assert (Hsil : silent (if negb (length data =? 0)%nat then [PAck] else [])) by (case_match; auto with net; by apply silent_one).
  set (ts := Z.land (tcpstateflags c) UIP_TS_MASK). clearbody n1.
  destruct (Z.eqb_spec ts UIP_ESTABLISHED) as [Et|Et].
  - assert (Hlog : acked = false \/ ~ calm c).
    { destruct acked eqn:E; [right|by left]. intros [H|H]; [done|]. unfold acked in E. rewrite H in E. by rewrite andb_false_r in E. }
    set (log := if acked then [Acked] else []).
    assert (Hl : (forall bs, ~ In (PData bs) log) /\ (calm c -> ~ In Acked log)).
    { unfold log. clear -Hlog. destruct acked; (split; [by intros bs H; repeat destruct H as [H|H]|]); intros H; [|by intros []]. by destruct Hlog. }
    (* what comes after the log *)
    assert (Happ : forall r, rests i c n1 r -> rests i c n1 ('(n, ps) ← r; Some (n, log ++ ps))).
    { intros r (n' & ps & c' & -> & Hm & Hc' & Hs & Hd & Hk). destruct Hl as [Hl1 Hl2]. eexists _, _, _. split; [reflexivity|]. split_and!; try done.
      - intros bs [H|H]%in_app_or; [by apply (Hl1 bs)|by apply (Hd bs)].
      - intros H. destruct (Hk H) as [Hk1 Hk2]. split; [done|]. intros [H'|H']%in_app_or; [by apply Hl2|done]. }
    assert (Hlogsame : forall f, appstate (f c1) = appstate c1 -> (calm c1 -> calm (f c1)) -> rests i c n1 (Some (on_conn i f n1, log))).
    { intros f Ha Hcalm. rewrite <- (app_nil_r log). apply (Happ (Some (on_conn i f n1, []))). by apply Hset; auto with net. }
    destruct (fin && negb (is_stopped c1)).
    + destruct (negb (c_len c1 =? 0)); [rewrite <- (on_conn_id i n1) at 2; by apply Hlogsame|].
      destruct (appcall_quiet i (Z.lor (Z.lor (if acked then UIP_ACKDATA else 0) UIP_CLOSE) (if negb (length data =? 0)%nat then UIP_NEWDATA else 0)) data n1 c1 Hc1 Hq1)
        as (n2 & f2 & c2 & -> & Hm2 & Hc2 & [Hq2 Hs2] & _).
      cbn [mbind option_bind]. apply (Happ (Some (on_conn i (fun c => set_tcpstate UIP_LAST_ACK (set_len 1 c)) n2, [PFin]))).
      eexists _, _, _. split; [reflexivity|]. split; [auto with net|]. rewrite lookup_on_conn_eq, Hc2. split; [reflexivity|].
      split; [split; [done|by rewrite <- Ha1]|]. split; [by intros bs [|[]]|]. intros _. split; [by left|by intros [|[]]].
    + destruct (_ || _).
      * apply Happ. apply (rests_with _ _ (set_mss (new_mss wnd c1))). eapply call_rests; [by rewrite lookup_on_conn_eq, Hc1|exact Hq1|exact Ha1|exact Hcalm1].
      * by apply Hlogsame.
  - destruct (ts =? UIP_LAST_ACK); [|destruct (ts =? UIP_FIN_WAIT_1); [|destruct (ts =? UIP_FIN_WAIT_2); [|destruct (ts =? UIP_TIME_WAIT); [|destruct (ts =? UIP_CLOSING); [|destruct (ts =? UIP_SYN_SENT)]]]]].
    + destruct acked; [|by apply Hsame, silent_nil]. apply Htell; auto with net. by left.
    + destruct fin; [|destruct acked; [|by apply Hsame]].
      * apply Htell; [by apply silent_one|by destruct acked|]. intros _. left. by destruct acked.
      * apply Hset; auto with net. by left.
    + destruct fin; [|by apply Hsame]. apply Htell; [by apply silent_one|done|by left].
    + by apply Hsame, silent_one.
    + destruct acked; [|by apply Hsame, silent_nil]. apply Hset; auto with net. by left.
    + unfold tell. destruct (appcall_quiet i UIP_ABORT [] n1 c1 Hc1 Hq1) as (n2 & f2 & c2 & -> & Hm2 & Hc2 & [Hq2 Hs2] & _). cbn [mbind option_bind].
      eexists _, _, _. split; [reflexivity|]. split; [auto with net|]. rewrite lookup_on_conn_eq, Hc2. split; [reflexivity|].
      split; [split; [done|by rewrite <- Ha1]|]. split; [by intros bs [|[]]|]. intros _. split; [by left|by intros [|[]]].
    + by apply Hsame, silent_nil.
Qed.
Lemma event_rests i e c n : uip_conns n !! i = Some c -> quiet c -> rests i c n (step_event i e n).
Proof.
  intros Hc Hq. unfold uip_event. rewrite Hc. cbn [mbind option_bind].
  assert (Hsame : rests i c n (Some (n, []))) by auto with net.
  assert (Hm : forall m, appstate (mss_option UIP_TCP_MSS m c) = appstate c) by (by intros []).
  destruct e as [forced rto|ack data fin wnd| |m|port rport ip m|data]; [by apply timer_rests|by apply segment_rests|..].
  - destruct (_ || _); [done|].
    apply (rests_with _ _ (set_tcpstate UIP_CLOSED)). eapply tell_rests; [by rewrite lookup_on_conn_eq, Hc|done|done|by left|auto with net].
  - destruct (_ =? UIP_SYN_SENT); [|done].
    apply (rests_with _ _ (mss_option UIP_TCP_MSS m)), (rests_with _ _ (fun c => set_tcpstate UIP_ESTABLISHED (set_len 0 c))).
    eapply call_rests; [by rewrite !lookup_on_conn_eq, Hc|unfold quiet; simpl; by rewrite Hm|apply Hm|by right].
  - destruct (_ && _); [|done]. apply rests_conn; [done|done|by destruct m|by left; destruct m|by apply silent_one].
  - destruct (_ =? UIP_SYN_RCVD); [|done].
    apply (rests_with _ _ (fun c => set_tcpstate UIP_ESTABLISHED (set_len 0 c))). eapply call_rests; [by rewrite lookup_on_conn_eq, Hc|done|done|by right].
Qed.

(** ** Sending *)

(** What the other side has got from the segments of a connection and its own
    acknowledgements: it acknowledges the segment it was sent last, and a segment
    that is sent again must be the same. Also the segment on the way. *)
Definition peer_step (st : option (list Z * option (list Z))) (p : segment) : option (list Z * option (list Z)) :=
  '(got, cur) ← st;
  match p, cur with
  | PData bs, None => Some (got, Some bs)
  | PData bs, Some b => if decide (bs = b) then Some (got, cur) else None
  | Acked, Some b => Some (got ++ b, None)
  | Acked, None => None
  | _, _ => Some (got, cur)
  end.
Definition peer_gets : option (list Z * option (list Z)) -> list segment -> option (list Z * option (list Z)) := foldl peer_step.
Definition of_socket (i : nat) (l : list (nat * segment)) : list segment := (filter (fun x => x.1 = i) l).*2.

(** The request: the socket, the place and the bytes to send, and the size of the
    segments; the number of connections. *)
Context (i : nat) (a : Z) (buf : list Z) (M : Z) (N : nat).
Hypothesis Ha : 0 <= a.
Hypothesis HM : 0 < M < 2 ^ 15.
Hypothesis Hbuf : 0 < Z.of_nat (length buf) < 2 ^ 15.
Abbreviation L := (Z.of_nat (length buf)).
(** The bytes sent after [k]. *)
Definition chunk (k : Z) : list Z := take (Z.to_nat M) (drop (Z.to_nat k) buf).

(** Around the socket: the program's memory, and no other socket with a request. *)
Record around (n : net) : Prop := {
  ar_configured : elua_uip_configured n = true;
  ar_memory : loads (memory n) (Z.to_nat a) (length buf) = Some buf;
  ar_others : forall j c, j <> i -> uip_conns n !! j = Some c -> quiet c;
  ar_conns : forall j, (j < N)%nat -> is_Some (uip_conns n !! j)
}.
(** [k] bytes have been acknowledged; [cur]: those on the way. *)
Record is_sending (k : Z) (cur : option (list Z)) (n : net) : Prop := {
  se_around : around n;
  se_telnet : con_tcp && (Z.of_nat i =? elua_uip_telnet_socket n) = false;
  se_range : 0 <= k < L;
  se_cur : cur = None \/ cur = Some (chunk k);
  se_conn : exists f p rp ip, (f = UIP_ESTABLISHED \/ f = Z.lor UIP_ESTABLISHED UIP_STOPPED) /\
    uip_conns n !! i = Some (mkConn f (match cur with Some b => Z.of_nat (length b) | None => 0 end) M M p rp ip
      (mkApp ELUA_UIP_STATE_SEND ELUA_NET_ERR_OK (PMem (a + k)) (L - k) ELUA_NET_NO_LASTCHAR))
}.
(** The request has ended: the bytes the program is told of have been delivered;
    all, if there was no error. *)
Record sent (got : list Z) (cur : option (list Z)) (n : net) : Prop := {
  st_around : around n;
  st_prefix : got ++ default [] cur `prefix_of` buf;
  st_conn : exists c, uip_conns n !! i = Some c /\ s_state (appstate c) = ELUA_UIP_STATE_IDLE /\ calm c /\
    0 <= L - s_len (appstate c) <= Z.of_nat (length got) /\
    (s_res (appstate c) = ELUA_NET_ERR_OK -> got = buf /\ cur = None /\ s_len (appstate c) = 0) /\
    In (s_res (appstate c)) [ELUA_NET_ERR_OK; ELUA_NET_ERR_TIMEDOUT; ELUA_NET_ERR_CLOSED; ELUA_NET_ERR_ABORTED]
}.
(** uIP's events: the window of the other side is never smaller than a segment. *)
Definition wide (e : net_event) : Prop := match e with ESegment _ _ _ wnd => M <= wnd \/ wnd = 0 | _ => True end.

Lemma around_moves j n n' c : moves j n n' -> uip_conns n' !! j = Some c -> (j = i \/ quiet c) -> around n -> around n'.
Proof.
  intros Hm Hc Hq [Hcf Hmem Ho Hn]. split; [by rewrite (mv_configured _ _ _ Hm)|by rewrite (mv_memory _ _ _ Hm)|..].
  - intros j' c' Hj' Hc'. destruct (decide (j' = j)) as [->|Hne]; [rewrite Hc in Hc'; injection Hc' as <-; by destruct Hq|].
    rewrite (mv_others _ _ _ Hm) in Hc' by done. by eapply Ho.
  - intros j' Hj'. destruct (decide (j' = j)) as [->|Hne]; [by rewrite Hc|]. rewrite (mv_others _ _ _ Hm) by done. by apply Hn.
Qed.
Lemma around_conn f c n : uip_conns n !! i = Some c -> around n -> around (on_conn i f n).
Proof. intros Hc. apply (around_moves i _ _ (f c)); [apply moves_conn|by rewrite lookup_on_conn_eq, Hc|by left]. Qed.
Lemma deliver_silent st ps : (forall bs, ~ In (PData bs) ps) -> ~ In Acked ps -> peer_gets (Some st) ps = Some st.
Proof.
  destruct st as [got cur]. induction ps as [|p ps IH]; intros Hd Hk; [done|]. unfold peer_gets in *. cbn [foldl].
  assert (peer_step (Some (got, cur)) p = Some (got, cur)) as ->.
  { unfold peer_step. cbn [mbind option_bind]. destruct p as [bs| | | | |]; destruct cur; try done; first [by destruct (Hd bs); left|by destruct Hk; left]. }
  apply IH; [intros bs H; by apply (Hd bs); right|intros H; by apply Hk; right].
Qed.
(** What other sockets do. *)
Lemma other_event j e n : (j < N)%nat -> j <> i -> around n ->
  exists n' ps, step_event j e n = Some (n', ps) /\ (forall got cur, sent got cur n -> sent got cur n') /\ (forall k cur, is_sending k cur n -> is_sending k cur n').
Proof.
  intros HN Hj Har. destruct (ar_conns _ Har j HN) as [c Hc].
  destruct (event_rests j e c n Hc (ar_others _ Har j c Hj Hc)) as (n' & ps & c' & -> & Hm & Hc' & [Hq' _] & _). exists n', ps. split; [done|].
  assert (Har' : around n') by (apply (around_moves j n n' c'); auto).
  assert (Hi : uip_conns n' !! i = uip_conns n !! i) by (apply (mv_others _ _ _ Hm); done).
  split; [intros got cur [_ Hp Hcn]|intros k cur [_ Ht Hr Hcur Hcn]]; (split; try done); [by rewrite Hi| |by rewrite Hi].
  destruct con_tcp; [|done]. cbn [andb] in *. apply Z.eqb_neq in Ht. apply Z.eqb_neq.
  destruct (mv_telnet _ _ _ Hm) as [-> |[-> | ->]]; [done|lia|lia].
Qed.
(** A request that has ended stays so. *)
Lemma sent_event e n got cur : sent got cur n -> exists n' ps, step_event i e n = Some (n', ps) /\ peer_gets (Some (got, cur)) ps = Some (got, cur) /\ sent got cur n'.
Proof.
  intros [Har Hp (c & Hc & Hi & Hcalm & Hrest)]. destruct (event_rests i e c n Hc (or_introl Hi)) as (n' & ps & c' & -> & Hm & Hc' & [Hq Hs] & Hd & Hk).
  destruct (Hk Hcalm) as [Hcalm' Hnk]. exists n', ps. split; [done|]. split; [by apply deliver_silent|]. split; [apply (around_moves i n n' c'); auto|done|].
  exists c'. split; [done|]. rewrite (Hs Hi). exact (conj Hi (conj Hcalm' Hrest)).
Qed.

Lemma chunk_nonempty k : 0 <= k < L -> chunk k <> [].
Proof. intros Hk E. apply (f_equal length) in E. unfold chunk in E. rewrite length_take, length_drop in E. cbn [length] in E. lia. Qed.
Lemma length_chunk k : 0 <= k < L -> Z.of_nat (length (chunk k)) = Z.min (L - k) M.
Proof. intros Hk. unfold chunk. rewrite length_take, length_drop. lia. Qed.
Lemma take_chunk k : 0 <= k < L -> take (Z.to_nat k) buf ++ chunk k = take (Z.to_nat (k + Z.of_nat (length (chunk k)))) buf.
Proof.
  intros Hk. rewrite length_chunk by done. unfold chunk. rewrite take_take_drop.
  destruct (decide (M <= L - k)); [f_equal; lia|]. rewrite !take_ge by lia. done.
Qed.
Lemma load_chunk n k : around n -> 0 <= k < L -> loads (memory n) (Z.to_nat (a + k)) (Z.to_nat (Z.min (L - k) M)) = Some (chunk k).
Proof.
  intros [_ Hl _] Hk. unfold loads in *. destruct (decide _) as [Hd|]; [|done]. injection Hl as Hl. rewrite decide_True by lia. f_equal.
  unfold chunk. remember (length buf) as len. rewrite <- Hl, skipn_firstn_comm, take_take, drop_drop. f_equal; [lia|]. f_equal. lia.
Qed.
(** The callback when it has something to send, or to send again. *)
Lemma sends_app k cur n flags : is_sending k cur n -> has_flag flags UIP_ACKDATA = false ->
  exists c, uip_conns n !! i = Some c /\ app_send con_tcp i flags c n = Some (n, chunk k).
Proof.
  intros [Har Ht Hr Hcur (f & p & rp & ip & Hf & Hc)] Hk. eexists. split; [exact Hc|]. unfold app_send. rewrite Hk. cbn [appstate s_len s_ptr mss].
  rewrite (proj2 (Z.ltb_lt 0 (L - k))) by lia.
  rewrite (on_conn_fix i _ _ n Hc) by done. rewrite Ht, (load_chunk n k) by done. done.
Qed.
Lemma on_conn_twice f g n : on_conn i f (on_conn i g n) = on_conn i (fun c => f (g c)) n.
Proof.
  unfold on_conn, with_conns. cbn. f_equal. apply list_eq. intros j.
  destruct (decide (j = i)) as [->|]; [rewrite !list_lookup_alter_eq; by destruct (uip_conns n !! i)|by rewrite !list_lookup_alter_ne].
Qed.
(** The two ways on. *)
Lemma sends_to g k cur k' cur' n : is_sending k cur n -> 0 <= k' < L -> cur' = None \/ cur' = Some (chunk k') ->
  (forall c, uip_conns n !! i = Some c -> exists f p rp ip, (f = UIP_ESTABLISHED \/ f = Z.lor UIP_ESTABLISHED UIP_STOPPED) /\
    g c = mkConn f (match cur' with Some b => Z.of_nat (length b) | None => 0 end) M M p rp ip
      (mkApp ELUA_UIP_STATE_SEND ELUA_NET_ERR_OK (PMem (a + k')) (L - k') ELUA_NET_NO_LASTCHAR)) -> is_sending k' cur' (on_conn i g n).
Proof.
  intros [Har Ht Hr Hcur (f & p & rp & ip & Hf & Hc)] Hk' Hcur' Hg. split; [by eapply around_conn|done..|].
  destruct (Hg _ Hc) as (f' & p' & rp' & ip' & Hf' & Hgc). exists f', p', rp', ip'. split; [done|]. by rewrite lookup_on_conn_eq, Hc, <- Hgc.
Qed.
Lemma sends_ended g k cur got cur' n : is_sending k cur n -> got ++ default [] cur' `prefix_of` buf -> k <= Z.of_nat (length got) ->
  (forall c, uip_conns n !! i = Some c -> s_state (appstate (g c)) = ELUA_UIP_STATE_IDLE /\ calm (g c) /\
    (s_len (appstate (g c)) = L - k /\ In (s_res (appstate (g c))) [ELUA_NET_ERR_TIMEDOUT; ELUA_NET_ERR_CLOSED; ELUA_NET_ERR_ABORTED] \/
     s_res (appstate (g c)) = ELUA_NET_ERR_OK /\ s_len (appstate (g c)) = 0 /\ got = buf /\ cur' = None)) ->
  sent got cur' (on_conn i g n).
Proof.
  intros [Har Ht Hr Hcur (f & p & rp & ip & Hf & Hc)] Hp Hk Hg. split; [by eapply around_conn|done|].
  destruct (Hg _ Hc) as (Hi & Hcalm & Hcase). rewrite lookup_on_conn_eq, Hc. eexists. split; [reflexivity|]. split; [done|]. split; [done|].
  destruct Hcase as [[-> Hin]|(-> & -> & -> & ->)].
  - split; [lia|]. split; [|by right]. intros E. rewrite E in Hin. by destruct Hin as [|[|[|[]]]].
  - split; [lia|]. split; [done|by left].
Qed.
Lemma appcall_sends k cur n flags data : is_sending k cur n -> has_flag flags UIP_CONNECTED = false -> has_flag flags UIP_ABORT || has_flag flags UIP_TIMEDOUT || has_flag flags UIP_CLOSE = false ->
  has_flag flags UIP_ACKDATA = false -> has_flag flags UIP_REXMIT || has_flag flags UIP_POLL = true -> appcall i flags data n = Some (n, flags, chunk k).
Proof.
  intros Hs H1 H2 H3 H4. destruct (sends_app k cur n flags Hs H3) as (c & Hc & Happ). pose proof Hs as [Har Ht Hr Hcur (f & p & rp & ip & Hf & Hc')].
  rewrite Hc in Hc'. injection Hc' as ->. unfold elua_uip_appcall. rewrite (ar_configured _ Har), Hc. cbn [negb mbind option_bind appstate s_state].
  rewrite H1, H2, H3. cbn [orb]. rewrite H4. change (ELUA_UIP_STATE_SEND =? ELUA_UIP_STATE_IDLE) with false. change (ELUA_UIP_STATE_SEND =? ELUA_UIP_STATE_RECV) with false.
  cbn [andb]. change (ELUA_UIP_STATE_SEND =? ELUA_UIP_STATE_SEND) with true. cbv iota. by rewrite Happ.
Qed.
(** An end that uIP reports. *)
Lemma appcall_end k cur n flags data f0 : is_sending k cur n -> (forall c, appstate (f0 c) = appstate c) ->
  has_flag flags UIP_CONNECTED = false -> has_flag flags UIP_ABORT || has_flag flags UIP_TIMEDOUT || has_flag flags UIP_CLOSE = true ->
  exists r, In r [ELUA_NET_ERR_TIMEDOUT; ELUA_NET_ERR_CLOSED; ELUA_NET_ERR_ABORTED] /\ appcall i flags data (on_conn i f0 n) =
    Some (on_conn i (fun c => set_app (mkApp ELUA_UIP_STATE_IDLE r (PMem (a + k)) (L - k) ELUA_NET_NO_LASTCHAR) (f0 c)) n, flags, []).
Proof.
  intros [Har Ht Hr Hcur (f & p & rp & ip & Hf & Hc)] Hf0 H1 H2. eexists. split; cycle 1.
  - unfold elua_uip_appcall. cbn [on_conn with_conns elua_uip_configured elua_uip_telnet_socket]. rewrite (ar_configured _ Har). cbn [negb].
    change (with_conns n _) with (on_conn i f0 n). rewrite lookup_on_conn_eq, Hc. cbn [fmap option_fmap option_map mbind option_bind]. rewrite Hf0.
    cbn [appstate s_state]. rewrite H1, H2. change (ELUA_UIP_STATE_SEND =? ELUA_UIP_STATE_IDLE) with false.
    change (ELUA_UIP_STATE_SEND =? ELUA_UIP_STATE_RECV) with false. cbv iota. cbn [on_conn with_conns elua_uip_telnet_socket]. rewrite Ht.
    change (with_conns n _) with (on_conn i f0 n). rewrite on_conn_twice. reflexivity.
  - destruct (has_flag flags UIP_ABORT); [by right; right; left|]. destruct (has_flag flags UIP_TIMEDOUT); [by left|by right; left].
Qed.
Lemma uip_apprexmit_all c flags bs : bs <> [] -> c_len c = Z.of_nat (length bs) -> uip_apprexmit c flags bs = Some [PData bs].
Proof.
  intros Hbs Hl. unfold uip_apprexmit. rewrite Hl, Nat2Z.id, Z.leb_refl, firstn_all. destruct bs as [|x bs]; [done|]. by rewrite (proj2 (Z.ltb_lt _ _)) by (cbn; lia).
Qed.
Lemma appsend_sends k cur n flags : is_sending k cur n -> has_flag flags UIP_ABORT = false -> has_flag flags UIP_CLOSE = false -> (has_flag flags UIP_ACKDATA = true -> cur = None) ->
  exists n', uip_appsend i flags (chunk k) n = Some (n', [PData (chunk k)]) /\ is_sending k (Some (chunk k)) n'.
Proof.
  intros Hs H1 H2 H3. pose proof Hs as [Har Ht Hr Hcur (f & p & rp & ip & Hf & Hc)]. pose proof (chunk_nonempty k Hr) as Hne. pose proof (length_chunk k Hr) as Hlen.
  assert (Hpos : 0 < Z.of_nat (length (chunk k))) by (destruct (chunk k); [done|cbn [length]; lia]).
  unfold uip_appsend. rewrite H1, H2, Hc. cbn [mbind option_bind]. rewrite (proj2 (Z.ltb_lt 0 _)) by done. cbv zeta.
  set (c0 := mkConn f _ M M p rp ip _). set (c1 := set_len (Z.of_nat (length (chunk k))) c0).
  assert ((let c := if has_flag flags UIP_ACKDATA then set_len 0 c0 else c0 in
    if c_len c =? 0 then set_len (Z.min (Z.of_nat (length (chunk k))) (mss c)) c else c) = c1) as Hc1.
  { cbv zeta. destruct (has_flag flags UIP_ACKDATA) eqn:E.
    - cbn [set_len c_len mss]. change (mss c0) with M. unfold c1, set_len. cbn. f_equal. lia.
    - destruct Hcur as [-> | ->]; cbn [c0 c_len].
      + cbn [mss]. unfold c1, set_len. cbn. f_equal. lia.
      + rewrite (proj2 (Z.eqb_neq _ 0)) by lia. done. }
  cbv zeta in Hc1. rewrite Hc1, uip_apprexmit_all by done. cbn [mbind option_bind]. eexists. split; [reflexivity|].
  apply (sends_to _ k cur); [done|done|by right|]. intros c _. by exists f, p, rp, ip.
Qed.
Definition forward (e : net_event) (k k' : Z) (cur cur' : option (list Z)) : Prop :=
  k <= k' /\ (cur <> None -> cur' <> None) /\
  match e with ETimer true _ => cur' <> None | ESegment true _ false _ => cur <> None -> k + M <= k' | _ => True end.
Definition goes_on (e : net_event) (k : Z) (cur : option (list Z)) (r : option (net * list segment)) : Prop :=
  exists n' ps got' cur', r = Some (n', ps) /\ peer_gets (Some (take (Z.to_nat k) buf, cur)) ps = Some (got', cur') /\
    (sent got' cur' n' \/ exists k', got' = take (Z.to_nat k') buf /\ is_sending k' cur' n' /\ forward e k k' cur cur').
Lemma take_prefix_cur k cur : 0 <= k < L -> cur = None \/ cur = Some (chunk k) -> take (Z.to_nat k) buf ++ default [] cur `prefix_of` buf.
Proof.
  intros Hk [-> | ->]; cbn [default]; [rewrite app_nil_r|rewrite take_chunk by done]; apply prefix_take.
Qed.
Lemma timer_sends forced rto k cur n : is_sending k cur n -> goes_on (ETimer forced rto) k cur (step_event i (ETimer forced rto) n).
Proof.
  intros Hs. pose proof Hs as [Har Ht Hr Hcur (f & p & rp & ip & Hf & Hc)]. unfold uip_event. rewrite Hc. cbn [mbind option_bind].
  unfold uip_timer. cbn [tcpstateflags c_len].
  assert (Hfs : (f =? UIP_TIME_WAIT) = false /\ (f =? UIP_FIN_WAIT_2) = false /\ (f =? UIP_CLOSED) = false /\ (f =? UIP_RESERVED) = false /\
    Z.land f UIP_TS_MASK = UIP_ESTABLISHED) by (by destruct Hf as [-> | ->]).
  destruct Hfs as (-> & -> & -> & -> & ->). rewrite andb_false_r. cbn [orb].
  destruct (negb _ && negb forced) eqn:El.
  - apply andb_prop in El as [El Hforced]. destruct forced; [done|]. destruct Hcur as [-> | ->]; [done|].
    pose proof (take_prefix_cur k (Some (chunk k)) Hr (or_intror eq_refl)) as Hpre.
    destruct rto as [[]|].
    + unfold tell. destruct (appcall_end k _ n UIP_TIMEDOUT [] (set_tcpstate UIP_CLOSED) Hs) as (r & Hin & ->); [done..|]. cbn [mbind option_bind].
      eexists _, _, _, _. split; [reflexivity|]. split; [reflexivity|]. left. apply (sends_ended _ k (Some (chunk k))); [done|done|rewrite length_take; lia|].
      intros c Hc'. split; [done|]. split; [by left|]. by left.
    + change ((UIP_ESTABLISHED =? UIP_SYN_RCVD) || (UIP_ESTABLISHED =? UIP_SYN_SENT)) with false. rewrite Z.eqb_refl. cbv iota.
      rewrite (appcall_sends k (Some (chunk k))) by done. cbn [mbind option_bind]. rewrite Hc. cbn [mbind option_bind].
      rewrite uip_apprexmit_all by (try done; by apply chunk_nonempty). cbn [mbind option_bind].
      eexists _, _, _, _. split; [reflexivity|]. split; [cbn; by rewrite decide_True|]. right. exists k. split; [done|]. split; [done|]. by split.
    + eexists _, _, _, _. split; [reflexivity|]. split; [reflexivity|]. right. exists k. split; [done|]. split; [done|]. by split.
  - change (UIP_ESTABLISHED =? UIP_ESTABLISHED) with true. cbv iota. unfold uip_call. rewrite (appcall_sends k cur) by done. cbn [mbind option_bind].
    destruct (appsend_sends k cur n UIP_POLL Hs) as (n' & -> & Hs'); [done..|]. eexists _, _, (take (Z.to_nat k) buf), (Some (chunk k)). split; [reflexivity|].
    split; [|right; exists k; split; [done|]; split; [done|]; split; [done|]; split; [done|by destruct forced]].
    destruct Hcur as [-> | ->]; cbn; [done|by rewrite decide_True].
Qed.
Lemma s16_small x : 0 <= x < 2 ^ 15 -> s16 x = x.
Proof. intros. apply swrap_small; [unfold is_s; lia|lia]. Qed.
(** The callback when all that was on the way has been acknowledged. *)
Lemma appcall_acked k n flags data : is_sending k None n -> has_flag flags UIP_CONNECTED = false -> has_flag flags UIP_ABORT || has_flag flags UIP_TIMEDOUT || has_flag flags UIP_CLOSE = false ->
  has_flag flags UIP_ACKDATA = true -> let k' := k + Z.of_nat (length (chunk k)) in
  exists n' out, appcall i flags data n = Some (n', flags, out) /\
    if decide (k' = L) then n' = on_conn i (set_app (mkApp ELUA_UIP_STATE_IDLE ELUA_NET_ERR_OK (PMem (a + k')) 0 ELUA_NET_NO_LASTCHAR)) n /\ out = []
    else out = chunk k' /\ is_sending k' None n'.
Proof.
  intros Hs H1 H2 H3 k'. pose proof Hs as [Har Ht Hr Hcur (f & p & rp & ip & Hf & Hc)]. pose proof (length_chunk k Hr) as Hlen. cbv iota in Hc.
  unfold elua_uip_appcall. rewrite (ar_configured _ Har), Hc. cbn [negb mbind option_bind appstate s_state].
  rewrite H1, H2, H3. cbn [orb]. change (ELUA_UIP_STATE_SEND =? ELUA_UIP_STATE_IDLE) with false. change (ELUA_UIP_STATE_SEND =? ELUA_UIP_STATE_RECV) with false.
  cbn [andb]. change (ELUA_UIP_STATE_SEND =? ELUA_UIP_STATE_SEND) with true. cbv iota.
  unfold app_send. rewrite H3. cbn [appstate s_len s_ptr mss app_len app_ptr].
  rewrite (s16_small (Z.min (L - k) M)) by lia. rewrite <- Hlen. rewrite (s16_small (L - k - _)) by lia.
  replace (L - k - Z.of_nat (length (chunk k))) with (L - k') by lia. replace (a + k + Z.of_nat (length (chunk k))) with (a + k') by lia.
  cbn [s_len s_state s_res s_readto app_state]. destruct (decide (k' = L)) as [E|E].
  - rewrite E, Z.sub_diag. change (0 =? 0) with true. cbv iota. cbn [s_len app_state]. change (0 <? 0) with false. cbv iota.
    eexists _, _. split; [reflexivity|done].
  - rewrite (proj2 (Z.eqb_neq (L - k') 0)) by lia. cbn [app_len app_ptr s_len s_ptr]. rewrite (proj2 (Z.ltb_lt 0 (L - k'))) by lia.
    set (n' := on_conn i _ n).
    assert (Hs' : is_sending k' None n').
    { apply (sends_to _ k None); [done|lia|by left|]. intros c Hc'. rewrite Hc in Hc'. injection Hc' as <-. by exists f, p, rp, ip. }
    rewrite (se_telnet _ _ _ Hs'), (load_chunk n' k') by (apply Hs' || lia). eexists _, _. split; [reflexivity|done].
Qed.
Lemma new_mss_wide wnd c : M <= wnd \/ wnd = 0 -> initialmss c = M -> new_mss wnd c = M.
Proof.
  intros Hw Hi. unfold new_mss. rewrite Hi. destruct (Z.ltb_spec M wnd); [done|]. destruct (Z.eqb_spec wnd 0); [done|]. cbn [orb]. lia.
Qed.
(** After the acknowledgement, the rest of the call: what was on the way is
    counted. *)
Lemma acked_call k n flags data : is_sending k None n -> has_flag flags UIP_CONNECTED = false -> has_flag flags UIP_ABORT || has_flag flags UIP_TIMEDOUT || has_flag flags UIP_CLOSE = false ->
  has_flag flags UIP_ACKDATA = true -> let k' := k + Z.of_nat (length (chunk k)) in
  exists n' ps cur', net_call i flags data n = Some (n', ps) /\ peer_gets (Some (take (Z.to_nat k') buf, None)) ps = Some (take (Z.to_nat k') buf, cur') /\
    (sent (take (Z.to_nat k') buf) cur' n' \/ is_sending k' cur' n' /\ cur' <> None /\ k + M <= k').
Proof.
  intros Hs H1 H2 H3 k'. pose proof (length_chunk k (se_range _ _ _ Hs)) as Hlen. pose proof (se_range _ _ _ Hs) as Hr.
  assert (Hab : has_flag flags UIP_ABORT = false /\ has_flag flags UIP_CLOSE = false) by (destruct (has_flag flags UIP_ABORT), (has_flag flags UIP_CLOSE); try done; by rewrite orb_true_r in H2).
  destruct Hab as [Ha1 Hc1]. unfold uip_call. destruct (appcall_acked k n flags data Hs H1 H2 H3) as (n' & out & -> & Hcase). cbn [mbind option_bind].
  fold k' in Hcase. destruct (decide (k' = L)) as [E|E].
  - destruct Hcase as [-> ->]. unfold uip_appsend. rewrite Ha1, Hc1. destruct Hs as [Har Ht _ _ (f & p & rp & ip & Hf & Hc)]. cbv iota in Hc.
    rewrite lookup_on_conn_eq, Hc. cbn [fmap option_fmap option_map mbind option_bind length Z.of_nat uip_apprexmit Nat.eqb negb andb]. change (0 <? 0) with false. cbv iota.
    assert (Hend : forall ps, ps = [PAck] \/ ps = [] -> exists n' ps' cur', Some (on_conn i (fun _ => set_app (mkApp ELUA_UIP_STATE_IDLE ELUA_NET_ERR_OK (PMem (a + k')) 0 ELUA_NET_NO_LASTCHAR)
        (mkConn f 0 M M p rp ip (mkApp ELUA_UIP_STATE_SEND ELUA_NET_ERR_OK (PMem (a + k)) (L - k) ELUA_NET_NO_LASTCHAR)))
        (on_conn i (set_app (mkApp ELUA_UIP_STATE_IDLE ELUA_NET_ERR_OK (PMem (a + k')) 0 ELUA_NET_NO_LASTCHAR)) n), ps) = Some (n', ps') /\
      peer_gets (Some (take (Z.to_nat k') buf, None)) ps' = Some (take (Z.to_nat k') buf, cur') /\
      (sent (take (Z.to_nat k') buf) cur' n' \/ is_sending k' cur' n' /\ cur' <> None /\ k + M <= k')).
    { intros ps Hps. eexists _, _, None. split; [reflexivity|]. split; [by destruct Hps as [-> | ->]|]. left. rewrite on_conn_twice.
      assert (Hall : take (Z.to_nat k') buf = buf) by (apply take_ge; lia). rewrite Hall.
      apply (sends_ended _ k None); [by split; [..|exists f, p, rp, ip]; auto|cbn [default]; by rewrite app_nil_r|lia|].
      intros c _. split; [done|]. split; [by right|]. by right. }
    destruct (has_flag flags UIP_NEWDATA); cbn [mbind option_bind]; apply Hend; auto.
  - destruct Hcase as [-> Hs']. destruct (appsend_sends k' None n' flags Hs') as (n2 & -> & Hs2); [done..|].
    eexists _, _, (Some (chunk k')). split; [reflexivity|]. split; [reflexivity|]. right. split; [done|]. split; [done|]. lia.
Qed.
(** New data is not taken, and stops the other side. *)
Lemma newdata_call k cur n data : is_sending k cur n -> exists n', net_call i UIP_NEWDATA data n = Some (n', [PAck]) /\ is_sending k cur n'.
Proof.
  intros Hs. pose proof Hs as [Har Ht Hr Hcur (f & p & rp & ip & Hf & Hc)]. unfold uip_call, elua_uip_appcall. rewrite (ar_configured _ Har), Hc.
  cbn [negb mbind option_bind appstate s_state]. change (has_flag UIP_NEWDATA UIP_CONNECTED) with false.
  change (has_flag UIP_NEWDATA UIP_ABORT || has_flag UIP_NEWDATA UIP_TIMEDOUT || has_flag UIP_NEWDATA UIP_CLOSE) with false.
  change ((has_flag UIP_NEWDATA UIP_ACKDATA || has_flag UIP_NEWDATA UIP_REXMIT || has_flag UIP_NEWDATA UIP_POLL) && (ELUA_UIP_STATE_SEND =? ELUA_UIP_STATE_SEND)) with false.
  change (has_flag UIP_NEWDATA UIP_NEWDATA) with true. cbn [ELUA_UIP_STATE_SEND ELUA_UIP_STATE_IDLE ELUA_UIP_STATE_RECV ELUA_UIP_STATE_CLOSE ELUA_UIP_STATE_RECV_2 Z.eqb Pos.eqb mbind option_bind].
  unfold uip_appsend. change (has_flag UIP_NEWDATA UIP_ABORT) with false. change (has_flag UIP_NEWDATA UIP_CLOSE) with false. cbv iota.
  unfold uip_stop. rewrite lookup_on_conn_eq, Hc. cbn [fmap option_fmap option_map mbind option_bind length Z.of_nat]. change (0 <? 0) with false. cbv iota zeta.
  cbn [uip_apprexmit length Nat.eqb negb andb]. change (has_flag UIP_NEWDATA UIP_NEWDATA) with true. cbn [mbind option_bind]. eexists. split; [reflexivity|].
  rewrite on_conn_twice. apply (sends_to _ k cur); [done..|]. intros c _. eexists _, p, rp, ip. split; [|reflexivity]. right. by destruct Hf as [-> | ->].
Qed.
Lemma segment_sends ack data fin wnd k cur n : is_sending k cur n -> M <= wnd \/ wnd = 0 ->
  goes_on (ESegment ack data fin wnd) k cur (step_event i (ESegment ack data fin wnd) n).
Proof.
  intros Hs Hw. pose proof Hs as [Har Ht Hr Hcur (f & p & rp & ip & Hf & Hc)]. unfold uip_event. rewrite Hc. cbn [mbind option_bind].
  unfold uip_segment. cbn [tcpstateflags c_len].
  assert (Hest : Z.land f UIP_TS_MASK = UIP_ESTABLISHED) by (by destruct Hf as [-> | ->]). rewrite Hest, Z.eqb_refl.
  pose proof (length_chunk k Hr) as Hlen.
  set (acked := ack && _). set (app := mkApp ELUA_UIP_STATE_SEND _ _ _ _) in *.
  set (c1 := if acked then _ else _). set (n1 := on_conn i (fun _ => c1) n).
  (* the request once the acknowledgement has been counted *)
  set (cur1 := if acked then None else cur).
  assert (Hacked : acked = true -> cur = Some (chunk k)).
  { unfold acked. intros [_ H]%andb_prop. destruct Hcur as [-> | ->]; done. }
  assert (Hc1 : c1 = mkConn f (match cur1 with Some b => Z.of_nat (length b) | None => 0 end) M M p rp ip app) by (unfold c1, cur1; by destruct acked).
  assert (Hs1 : is_sending k cur1 n1).
  { apply (sends_to _ k cur); [done|done|unfold cur1; destruct acked; auto|]. intros c _. by exists f, p, rp, ip. }
  set (k1 := if acked then k + Z.of_nat (length (chunk k)) else k).
  set (log := if acked then [Acked] else []).
  assert (Hlog : peer_gets (Some (take (Z.to_nat k) buf, cur)) log = Some (take (Z.to_nat k1) buf, cur1)).
  { unfold log, k1, cur1. destruct acked eqn:E; [|done]. rewrite (Hacked eq_refl). cbn. by rewrite take_chunk. }
  assert (Hpre : take (Z.to_nat k1) buf ++ default [] None `prefix_of` buf) by (cbn [default]; rewrite app_nil_r; apply prefix_take).
  assert (Hk1 : k <= k1 <= L) by (unfold k1; destruct acked; lia).
  assert (Hlen1 : k <= Z.of_nat (length (take (Z.to_nat k1) buf))) by (rewrite length_take; lia).
  clearbody n1.
  destruct (fin && negb (is_stopped c1)) eqn:Efin.
  - apply andb_prop in Efin as [-> _]. destruct (negb (c_len c1 =? 0)) eqn:El.
    + assert (Hna : acked = false) by (destruct acked; [by rewrite Hc1 in El|done]). unfold log. rewrite Hna. unfold cur1 in Hs1. rewrite Hna in Hs1.
      eexists _, _, _, _. split; [reflexivity|]. split; [reflexivity|]. right. exists k. split; [done|]. split; [done|]. split; [done|]. split; [done|by destruct ack].
    + assert (Hcur1 : cur1 = None).
      { rewrite Hc1 in El. cbn [c_len] in El. unfold cur1 in *. destruct acked; [done|]. destruct Hcur as [-> | ->]; [done|].
        rewrite (proj2 (Z.eqb_neq _ 0)) in El; [done|]. pose proof (chunk_nonempty k Hr). destruct (chunk k); [done|cbn; lia]. }
      rewrite Hcur1 in *. destruct (appcall_end k None n1 (Z.lor (Z.lor (if acked then UIP_ACKDATA else 0) UIP_CLOSE) (if negb (length data =? 0)%nat then UIP_NEWDATA else 0)) data (fun c => c) Hs1)
        as (r & Hin & Hcall); [done|by destruct acked, (negb (length data =? 0)%nat)|by destruct acked, (negb (length data =? 0)%nat)|]. rewrite on_conn_id in Hcall. rewrite Hcall. cbn [mbind option_bind].
      eexists _, _, (take (Z.to_nat k1) buf), None. split; [reflexivity|]. split; [unfold peer_gets in *; rewrite foldl_app, Hlog; reflexivity|]. left.
      rewrite on_conn_twice. apply (sends_ended _ k None); [done..|]. intros c _. split; [done|]. split; [by left|]. by left.
  - set (n2 := on_conn i (set_mss (new_mss wnd c1)) n1).
    assert (Hs2 : is_sending k cur1 n2).
    { apply (sends_to _ k cur1); [done|done|unfold cur1; destruct acked; auto|]. intros c Hc2.
      destruct Hs1 as [_ _ _ _ (f1 & p1 & rp1 & ip1 & Hf1 & Hcn1)]. rewrite Hcn1 in Hc2. injection Hc2 as <-. exists f1, p1, rp1, ip1. split; [done|].
      rewrite (new_mss_wide wnd c1) by (try done; by rewrite Hc1). done. }
    clearbody n2. destruct acked eqn:Ea.
    + set (flags := if _ && _ then _ else UIP_ACKDATA).
      assert (Hfl : has_flag flags UIP_CONNECTED = false /\ has_flag flags UIP_ABORT || has_flag flags UIP_TIMEDOUT || has_flag flags UIP_CLOSE = false /\ has_flag flags UIP_ACKDATA = true)
        by (unfold flags; by destruct (negb (length data =? 0)%nat && negb (is_stopped c1))).
      destruct Hfl as (F1 & F2 & F3). rewrite F3, orb_true_r. destruct (acked_call k n2 flags data Hs2 F1 F2 F3) as (n' & ps & cur' & -> & Hd & Hcase).
      cbn [mbind option_bind]. eexists _, _, _, cur'. split; [reflexivity|]. split; [unfold peer_gets in *; rewrite foldl_app, Hlog; exact Hd|].
      destruct Hcase as [Hsent|(Hsend & Hne & Hk)]; [by left|right]. eexists. split; [reflexivity|]. split; [done|]. split; [lia|]. split; [done|].
      destruct ack; [|done]. destruct fin; [done|]. intros _. exact Hk.
    + assert (Hfw : forward (ESegment ack data fin wnd) k k cur cur).
      { split; [done|]. split; [done|]. destruct ack; [|done]. destruct fin; [done|]. intros Hne. unfold acked in Ea. cbn [andb] in Ea.
        destruct Hcur as [-> | ->]; [done|]. exfalso. pose proof (chunk_nonempty k Hr). rewrite (proj2 (Z.eqb_neq _ 0)) in Ea; [done|]. destruct (chunk k); [done|cbn; lia]. }
      unfold cur1, log in *. destruct (negb (length data =? 0)%nat && negb (is_stopped c1)).
      * change (has_flag (Z.lor 0 UIP_NEWDATA) UIP_NEWDATA || has_flag (Z.lor 0 UIP_NEWDATA) UIP_ACKDATA) with true. cbv iota.
        change (Z.lor 0 UIP_NEWDATA) with UIP_NEWDATA. destruct (newdata_call k cur n2 data Hs2) as (n' & -> & Hs'). cbn [mbind option_bind app].
        eexists _, _, _, cur. split; [reflexivity|]. split; [by destruct cur|]. right. exists k. done.
      * change (has_flag 0 UIP_NEWDATA || has_flag 0 UIP_ACKDATA) with false. cbv iota. eexists _, _, _, cur. split; [reflexivity|]. split; [by destruct cur|]. right. exists k. done.
Qed.
Lemma event_sends e k cur n : is_sending k cur n -> wide e -> goes_on e k cur (step_event i e n).
Proof.
  intros Hs Hw. destruct e as [forced rto|ack data fin wnd| |m|port rport ip m|data]; [by apply timer_sends|by apply segment_sends|..];
    pose proof Hs as [Har Ht Hr Hcur (f & p & rp & ip' & Hf & Hc)]; unfold uip_event; rewrite Hc; cbn [mbind option_bind tcpstateflags].
  - assert (((f =? UIP_CLOSED) || (f =? UIP_RESERVED)) = false) as -> by (by destruct Hf as [-> | ->]).
    unfold tell. destruct (appcall_end k _ n UIP_ABORT [] (set_tcpstate UIP_CLOSED) Hs) as (r & Hin & ->); [done..|]. cbn [mbind option_bind].
    eexists _, _, _, cur. split; [reflexivity|]. split; [reflexivity|]. left.
    apply (sends_ended _ k cur); [done|by apply take_prefix_cur|rewrite length_take; lia|]. intros c _. split; [done|]. split; [by left|]. by left.
  - assert ((Z.land f UIP_TS_MASK =? UIP_SYN_SENT) = false) as -> by (by destruct Hf as [-> | ->]).
    eexists _, _, _, cur. split; [reflexivity|]. split; [reflexivity|]. right. by exists k.
  - assert (((f =? UIP_CLOSED) || (f =? UIP_TIME_WAIT)) = false) as -> by (by destruct Hf as [-> | ->]).
    eexists _, _, _, cur. split; [reflexivity|]. split; [reflexivity|]. right. by exists k.
  - assert ((Z.land f UIP_TS_MASK =? UIP_SYN_RCVD) = false) as -> by (by destruct Hf as [-> | ->]).
    eexists _, _, _, cur. split; [reflexivity|]. split; [reflexivity|]. right. by exists k.
Qed.

(** ** Any sequence of events *)

(** How often segments of the other side can be acknowledgements: after an interrupt
    that was asked for. *)
Fixpoint acks (started : bool) (evs : list (nat * net_event)) : Z :=
  match evs with
  | [] => 0
  | (j, e) :: evs =>
      if decide (j = i) then
        match e with
        | ETimer true _ => acks true evs
        | ESegment true _ false _ => (if started then 1 else 0) + acks started evs
        | _ => acks started evs
        end
      else acks started evs
  end.
Definition started_by (started : bool) (x : nat * net_event) : bool :=
  started || match x with (j, ETimer true _) => bool_decide (j = i) | _ => false end.
Abbreviation started_after := (foldl started_by).
Lemma acks_app evs evs' : forall started, acks started (evs ++ evs') = acks started evs + acks (started_after started evs) evs'.
Proof.
  induction evs as [|[j e] evs IH]; intros started; [done|]. cbn [app acks foldl].
  assert (E : started_by started (j, e) = match e with ETimer true _ => if decide (j = i) then true else started | _ => started end).
  { unfold started_by. destruct e as [[]| | | | |]; rewrite ?orb_false_r; try done. destruct (decide (j = i)); [by rewrite bool_decide_true, orb_true_r|by rewrite bool_decide_false, orb_false_r]. }
  rewrite E. destruct (decide (j = i)); [|rewrite IH; by destruct e as [[]| | | | |]]. destruct e as [[] rto|[] data [] wnd| | | |]; rewrite IH; lia.
Qed.
Definition possible (x : nat * net_event) : Prop := (x.1 < N)%nat /\ (x.1 = i -> wide x.2).
Lemma of_socket_app l l' : of_socket i (l ++ l') = of_socket i l ++ of_socket i l'.
Proof. unfold of_socket. by rewrite filter_app, fmap_app. Qed.
Lemma of_socket_pair j ps : of_socket i (pair j <$> ps) = if decide (j = i) then ps else [].
Proof.
  unfold of_socket. induction ps as [|p ps IH]; [by case_decide|]. rewrite fmap_cons. destruct (decide (j = i)) as [->|Hj].
  - rewrite filter_cons_True by done. rewrite fmap_cons, IH. done.
  - rewrite filter_cons_False by done. exact IH.
Qed.
(** The requests go on or end; those that go on have got as far as the
    acknowledgements. *)
Definition reached (started : bool) (k : Z) (evs : list (nat * net_event)) (st : list Z * option (list Z)) (n : net) : Prop :=
  sent st.1 st.2 n \/ exists k', st.1 = take (Z.to_nat k') buf /\ is_sending k' st.2 n /\ k + M * acks started evs <= k' /\
    (started_after started evs = true -> st.2 <> None).
Lemma sent_events evs : Forall possible evs -> forall got cur n, sent got cur n ->
  exists n' l, step_events evs n = Some (n', l) /\ peer_gets (Some (got, cur)) (of_socket i l) = Some (got, cur) /\ sent got cur n'.
Proof.
  induction 1 as [|[j e] evs [Hj Hw] _ IH]; intros got cur n Hs; [by exists n, []|]. cbn [uip_events fst snd] in *.
  assert (exists n' ps, step_event j e n = Some (n', ps) /\ peer_gets (Some (got, cur)) (of_socket i (pair j <$> ps)) = Some (got, cur) /\ sent got cur n') as (n' & ps & -> & Hd & Hs').
  { destruct (decide (j = i)) as [->|Hne].
    - destruct (sent_event e n got cur Hs) as (n' & ps & -> & Hd & Hs'). exists n', ps. by rewrite of_socket_pair, decide_True.
    - destruct (other_event j e n Hj Hne (st_around _ _ _ Hs)) as (n' & ps & -> & Hst & _). exists n', ps. rewrite of_socket_pair, decide_False by done. auto. }
  cbn [mbind option_bind]. destruct (IH got cur n' Hs') as (n2 & l & -> & Hd2 & Hs2). cbn [mbind option_bind].
  eexists _, _. split; [reflexivity|]. rewrite of_socket_app. unfold peer_gets in *. by rewrite foldl_app, Hd.
Qed.
Lemma sends_events evs : Forall possible evs -> forall started k cur n, is_sending k cur n -> (started = true -> cur <> None) ->
  exists n' l st, step_events evs n = Some (n', l) /\ peer_gets (Some (take (Z.to_nat k) buf, cur)) (of_socket i l) = Some st /\ reached started k evs st n'.
Proof.
  induction 1 as [|[j e] evs [Hj Hw] Hevs IH]; intros started k cur n Hs Hst.
  { exists n, [], (take (Z.to_nat k) buf, cur). split; [done|]. split; [done|]. right. exists k. cbn. split; [done|]. split; [done|]. split; [lia|done]. }
  cbn [uip_events fst snd] in *. destruct (decide (j = i)) as [->|Hne].
  - destruct (event_sends e k cur n Hs (Hw eq_refl)) as (n' & ps & got' & cur' & -> & Hd & Hcase). cbn [mbind option_bind].
    assert (Hlog : forall l, peer_gets (Some (take (Z.to_nat k) buf, cur)) (of_socket i ((pair i <$> ps) ++ l)) = peer_gets (Some (got', cur')) (of_socket i l)).
    { intros l. rewrite of_socket_app, of_socket_pair, decide_True by done. unfold peer_gets in *. by rewrite foldl_app, Hd. }
    destruct Hcase as [Hsent|(k' & -> & Hs' & Hk & Hc1 & Hc2)].
    + destruct (sent_events evs Hevs got' cur' n' Hsent) as (n2 & l & -> & Hd2 & Hs2). cbn [mbind option_bind]. eexists _, _, (got', cur').
      split; [reflexivity|]. rewrite Hlog. split; [done|]. by left.
    + set (started' := started_by started (i, e)).
      assert (Est : started' = match e with ETimer true _ => true | _ => started end)
        by (unfold started', started_by; destruct e as [[]| | | | |]; rewrite ?orb_false_r; try done; by rewrite bool_decide_true, orb_true_r).
      destruct (IH started' k' cur' n' Hs') as (n2 & l & st & -> & Hd2 & Hr); [rewrite Est; destruct e as [[]| | | | |]; auto|].
      cbn [mbind option_bind]. exists n2, ((pair i <$> ps) ++ l), st. split; [reflexivity|]. rewrite Hlog. split; [done|].
      destruct Hr as [Hr|(k2 & E & Hs2 & Hk2 & Hst2)]; [by left|right]. exists k2. split; [done|]. split; [done|]. split; [|exact Hst2]. cbn [acks]. rewrite decide_True by done.
      rewrite Est in Hk2. destruct e as [[] rto|[] data [] wnd| |m|port rport ip m|data]; try lia. destruct started; [|lia]. specialize (Hc2 (Hst eq_refl)). lia.
  - destruct (other_event j e n Hj Hne (se_around _ _ _ Hs)) as (n' & ps & -> & _ & Hsn). cbn [mbind option_bind].
    destruct (IH started k cur n' (Hsn _ _ Hs) Hst) as (n2 & l & st & -> & Hd2 & Hr). cbn [mbind option_bind]. eexists _, _, st. split; [reflexivity|].
    rewrite of_socket_app, of_socket_pair, decide_False by done. split; [done|]. unfold reached. cbn [acks foldl]. rewrite decide_False by done.
    assert (started_by started (j, e) = started) as -> by (unfold started_by; destruct e as [[]| | | | |]; rewrite ?orb_false_r; try done; by rewrite bool_decide_false, orb_false_r). done.
Qed.

(** ** The call *)

Context (env : nat -> list (nat * net_event)).
Hypothesis Henv : forall t, Forall possible (env t).
Definition trace (t m : nat) : list (nat * net_event) := concat (env <$> seq t m).
Abbreviation wait_idle := (wait_idle UIP_TCP_MSS UIP_RECEIVE_WINDOW big_endian con_tcp env).
Lemma app_of_socket n : app_of n (Z.of_nat i) = appstate <$> uip_conns n !! i.
Proof. unfold app_of. by rewrite Nat2Z.id. Qed.
Lemma wait_sends m : forall fuel started k cur w, (m <= fuel)%nat -> is_sending k cur (the_net w) -> (started = true -> cur <> None) ->
  L - k <= M * acks started (trace (moment w) m) ->
  exists w' l got cur', wait_idle fuel (Z.of_nat i) w = Some w' /\ line w' = line w ++ l /\
    peer_gets (Some (take (Z.to_nat k) buf, cur)) (of_socket i l) = Some (got, cur') /\ sent got cur' (the_net w').
Proof.
  induction m as [|m IH]; intros fuel started k cur w Hf Hs Hst Hacks; [cbn in Hacks; pose proof (se_range _ _ _ Hs); lia|].
  destruct fuel as [|fuel]; [lia|]. cbn [Net.wait_idle]. unfold next_moment.
  destruct (sends_events (env (moment w)) (Henv _) started k cur (the_net w) Hs Hst) as (n' & l & [got' cur'] & -> & Hd & Hr). cbn [mbind option_bind the_net].
  rewrite app_of_socket. destruct Hr as [Hsent|(k' & E & Hs' & Hk & Hst')]; cbn [fst snd] in *.
  - pose proof (st_conn _ _ _ Hsent) as (c & -> & Hi & _). cbn [fmap option_fmap option_map mbind option_bind]. rewrite Hi. change (_ =? _) with true. cbv iota.
    eexists _, l, got', cur'. split; [reflexivity|]. done.
  - pose proof (se_conn _ _ _ Hs') as (f & p & rp & ip & _ & ->). cbn [fmap option_fmap option_map mbind option_bind appstate s_state]. change (_ =? _) with false. cbv iota.
    destruct (IH fuel (started_after started (env (moment w))) k' cur' (mkNW n' (S (moment w)) (line w ++ l))) as (w' & l2 & got & cur2 & Hw & Hl & Hd2 & Hsent); [lia|done|done| |].
    + cbn [moment]. assert (Ht : trace (moment w) (S m) = env (moment w) ++ trace (S (moment w)) m) by done. rewrite Ht, acks_app in Hacks. lia.
    + exists w', (l ++ l2), got, cur2. split; [exact Hw|]. cbn [line] in Hl. split; [by rewrite Hl, app_assoc|]. split; [|done].
      rewrite of_socket_app. unfold peer_gets in *. by rewrite foldl_app, Hd, E.
Qed.
(** A socket before the request. *)
Record can_send (n : net) : Prop := {
  sb_around : around n;
  sb_telnet : con_tcp && (Z.of_nat i =? elua_uip_telnet_socket n) = false;
  sb_conn : exists f p rp ip s, (f = UIP_ESTABLISHED \/ f = Z.lor UIP_ESTABLISHED UIP_STOPPED) /\ uip_conns n !! i = Some (mkConn f 0 M M p rp ip s)
}.
(** C3: sending, to another side whose window is never smaller than a segment (each
    acknowledgement offers at least the size of a segment, or 0; with smaller windows
    bytes may be lost: [window_shrinks]): an established connection with nothing on the
    way that is not the console's, less than 2^15 bytes, and no requests on other
    sockets. Segments may be lost and sent again, interrupts may come at any time,
    other connections may come and go, and the connection may be closed, reset or time
    out. Then the other side gets from the segments it acknowledges the bytes of the
    program, in order and nothing else, and a segment that is sent again is the same.
    If enough segments are acknowledged the call returns: without an error, all bytes
    have been delivered; with one, at least as many as the result says. *)
Theorem net_send_delivers m fuel w : can_send (the_net w) -> (m <= fuel)%nat -> L <= M * acks false (trace (moment w) m) ->
  exists r err w' l got cur, elua_net_send UIP_TCP_MSS UIP_RECEIVE_WINDOW big_endian con_tcp env fuel (Z.of_nat i) (PMem a) L w = Some (r, w') /\
    elua_net_get_last_err (Z.of_nat i) (the_net w') = Some err /\ line w' = line w ++ l /\
    peer_gets (Some ([], None)) (of_socket i l) = Some (got, cur) /\ got ++ default [] cur `prefix_of` buf /\ 0 <= r <= Z.of_nat (length got) /\
    (err = ELUA_NET_ERR_OK -> got = buf /\ r = L /\ cur = None) /\
    In err [ELUA_NET_ERR_OK; ELUA_NET_ERR_TIMEDOUT; ELUA_NET_ERR_CLOSED; ELUA_NET_ERR_ABORTED].
Proof.
  intros [Har Ht (f & p & rp & ip & s & Hf & Hc)] Hm Hacks. unfold elua_net_send, not_active, is_sock_ok, uip_conn_active.
  pose proof (lookup_lt_Some _ _ _ Hc) as Hlt. rewrite (ar_configured _ Har), Nat2Z.id, Hc. rewrite (proj2 (Z.leb_le 0 _)), (proj2 (Z.ltb_lt _ _)) by lia.
  cbn [negb andb mbind option_bind tcpstateflags]. assert (negb (negb (f =? UIP_CLOSED) && negb (f =? UIP_RESERVED)) = false) as -> by (by destruct Hf as [-> | ->]).
  rewrite (proj2 (Z.eqb_neq L 0)) by lia. set (w0 := with_net w _).
  assert (Hs : is_sending 0 None (the_net w0)).
  { unfold w0, elua_prep_socket_state. cbn [with_net the_net]. rewrite Nat2Z.id. split; [by eapply around_conn|done|lia|by left|].
    exists f, p, rp, ip. split; [done|]. rewrite lookup_on_conn_eq, Hc. cbn. by rewrite Z.add_0_r, Z.sub_0_r. }
  destruct (wait_sends m fuel false 0 None w0 Hm Hs) as (w' & l & got & cur & -> & Hl & Hd & Hsent); [done|rewrite Z.sub_0_r; exact Hacks|].
  cbn [mbind option_bind]. rewrite app_of_socket. destruct Hsent as [Har' Hp (c & Hc' & Hi & _ & Hr & Hok & Hin)]. rewrite Hc'. cbn [fmap option_fmap option_map mbind option_bind].
  assert (Hgot : Z.of_nat (length got) <= L) by (apply prefix_length in Hp; rewrite length_app in Hp; lia).
  rewrite s16_small by lia. eexists _, (s_res (appstate c)), w', l, got, cur. split; [reflexivity|].
  assert (Herr : elua_net_get_last_err (Z.of_nat i) (the_net w') = Some (s_res (appstate c))).
  { unfold elua_net_get_last_err, is_sock_ok. pose proof (lookup_lt_Some _ _ _ Hc') as Hlt'. rewrite (ar_configured _ Har'), (proj2 (Z.leb_le 0 _)), (proj2 (Z.ltb_lt _ _)) by lia.
    cbn [negb andb]. by rewrite app_of_socket, Hc'. }
  split; [done|]. split; [exact Hl|]. split; [exact Hd|]. split; [done|]. split; [done|]. split; [|done]. intros E. destruct (Hok E) as (-> & -> & ->). split_and!; [done|lia|done].
Qed.
End Spec.

(** ** Receiving *)

Section Receive.
Context (UIP_TCP_MSS UIP_RECEIVE_WINDOW : Z) (big_endian con_tcp : bool).
Abbreviation step_event := (uip_event UIP_TCP_MSS UIP_RECEIVE_WINDOW big_endian con_tcp).
Abbreviation step_events := (uip_events UIP_TCP_MSS UIP_RECEIVE_WINDOW big_endian con_tcp).
(** The socket, the number of bytes asked for, what Lua's buffer had, and the number
    of connections. *)
Context (i : nat) (maxsize : Z) (before : list Z) (N : nat).
Hypothesis Hmax : 0 < maxsize < 2 ^ 15.

Record alone (n : net) : Prop := {
  al_configured : elua_uip_configured n = true;
  al_others : forall j c, j <> i -> uip_conns n !! j = Some c -> quiet c;
  al_conns : forall j, (j < N)%nat -> is_Some (uip_conns n !! j)
}.
Lemma alone_moves j n n' c : moves j n n' -> uip_conns n' !! j = Some c -> (j = i \/ quiet c) -> alone n -> alone n'.
Proof.
  intros Hm Hc Hq [Hcf Ho Hn]. split; [by rewrite (mv_configured _ _ _ Hm)|..].
  - intros j' c' Hj' Hc'. destruct (decide (j' = j)) as [->|Hne]; [rewrite Hc in Hc'; injection Hc' as <-; by destruct Hq|].
    rewrite (mv_others _ _ _ Hm) in Hc' by done. by eapply Ho.
  - intros j' Hj'. destruct (decide (j' = j)) as [->|Hne]; [by rewrite Hc|]. rewrite (mv_others _ _ _ Hm) by done. by apply Hn.
Qed.
(** The request before uIP has seen it, and while it takes data: [got]. *)
Record is_waiting (opened : bool) (got : list Z) (n : net) : Prop := {
  wt_alone : alone n;
  wt_telnet : con_tcp && (Z.of_nat i =? elua_uip_telnet_socket n) = false;
  wt_got : lua_buf n = before ++ got /\ Z.of_nat (length got) < maxsize /\ (opened = false -> got = []);
  wt_conn : exists m im p rp ip, uip_conns n !! i = Some (mkConn (if opened then UIP_ESTABLISHED else Z.lor UIP_ESTABLISHED UIP_STOPPED) 0 m im p rp ip
    (mkApp (if opened then ELUA_UIP_STATE_RECV_2 else ELUA_UIP_STATE_RECV) 1 PLuaL (maxsize - Z.of_nat (length got)) ELUA_NET_NO_LASTCHAR))
}.
Record is_received (got : list Z) (n : net) : Prop := {
  rc_alone : alone n;
  rc_got : lua_buf n = before ++ got;
  rc_conn : exists c, uip_conns n !! i = Some c /\ s_state (appstate c) = ELUA_UIP_STATE_IDLE /\ s_res (appstate c) = ELUA_NET_ERR_OK /\
    s_len (appstate c) = maxsize - Z.of_nat (length got)
}.
(** The other side only sends: interrupts, and data. *)
Definition only_data (e : net_event) : Prop := match e with ETimer _ _ => True | ESegment _ _ fin _ => fin = false | _ => False end.
(** The segments with data that uIP takes: those after the first interrupt. *)
Definition opened_by (opened : bool) (e : net_event) : bool := match e with ETimer _ _ => true | _ => opened end.
Fixpoint arrived (opened : bool) (es : list net_event) : list (list Z) :=
  match es with
  | [] => []
  | ESegment _ (c :: d) _ _ :: es => if opened then (c :: d) :: arrived opened es else arrived opened es
  | e :: es => arrived (opened_by opened e) es
  end.
Definition last_one (got d : list Z) : Prop := Z.of_nat (length d) < UIP_RECEIVE_WINDOW \/ maxsize <= Z.of_nat (length (got ++ d)).

Lemma waits_to g opened opened' got n : is_waiting opened got n -> (opened' = false -> got = []) ->
  (forall c, uip_conns n !! i = Some c -> exists m im p rp ip, g c = mkConn (if opened' then UIP_ESTABLISHED else Z.lor UIP_ESTABLISHED UIP_STOPPED) 0 m im p rp ip
    (mkApp (if opened' then ELUA_UIP_STATE_RECV_2 else ELUA_UIP_STATE_RECV) 1 PLuaL (maxsize - Z.of_nat (length got)) ELUA_NET_NO_LASTCHAR)) ->
  is_waiting opened' got (on_conn i g n).
Proof.
  intros [Hal Ht (Hb & Hl & _) (m & im & p & rp & ip & Hc)] Hop Hg. destruct (Hg _ Hc) as (m' & im' & p' & rp' & ip' & Hgc). split; [|done|done|].
  - eapply alone_moves; [apply moves_conn|by rewrite lookup_on_conn_eq, Hc|by left|done].
  - exists m', im', p', rp', ip'. by rewrite lookup_on_conn_eq, Hc, <- Hgc.
Qed.
Lemma timer_waits opened got forced rto n : is_waiting opened got n -> exists n' ps, step_event i (ETimer forced rto) n = Some (n', ps) /\ is_waiting true got n'.
Proof.
  intros Hw. pose proof Hw as [Hal Ht (Hb & Hl & Hop) (m & im & p & rp & ip & Hc)]. unfold uip_event. rewrite Hc. cbn [mbind option_bind].
  unfold uip_timer. cbn [tcpstateflags c_len]. assert (Hfs : let f := if opened then UIP_ESTABLISHED else Z.lor UIP_ESTABLISHED UIP_STOPPED in
    (f =? UIP_TIME_WAIT) = false /\ (f =? UIP_FIN_WAIT_2) = false /\ (f =? UIP_CLOSED) = false /\ (f =? UIP_RESERVED) = false /\
    Z.land f UIP_TS_MASK = UIP_ESTABLISHED) by (by destruct opened). cbv zeta in Hfs.
  destruct Hfs as (-> & -> & -> & -> & ->). rewrite andb_false_r. cbn [orb Z.eqb negb andb]. change (UIP_ESTABLISHED =? UIP_ESTABLISHED) with true. cbv iota.
  unfold uip_call, elua_uip_appcall. rewrite (al_configured _ Hal), Hc. cbn [negb mbind option_bind]. destruct opened.
  - change (has_flag UIP_POLL UIP_CONNECTED) with false.
    change (has_flag UIP_POLL UIP_ABORT || has_flag UIP_POLL UIP_TIMEDOUT || has_flag UIP_POLL UIP_CLOSE) with false. change (has_flag UIP_POLL UIP_NEWDATA) with false.
    cbn [appstate s_state Z.eqb Pos.eqb ELUA_UIP_STATE_RECV_2 ELUA_UIP_STATE_IDLE ELUA_UIP_STATE_RECV ELUA_UIP_STATE_SEND ELUA_UIP_STATE_CLOSE]. rewrite andb_false_r. cbv iota.
    cbn [mbind option_bind]. unfold uip_appsend. change (has_flag UIP_POLL UIP_ABORT) with false. change (has_flag UIP_POLL UIP_CLOSE) with false. cbv iota. rewrite Hc.
    cbn [mbind option_bind length Z.of_nat]. change (0 <? 0) with false. cbv iota zeta. cbn [uip_apprexmit length Nat.eqb negb andb]. change (has_flag UIP_POLL UIP_NEWDATA) with false.
    cbn [mbind option_bind]. eexists _, _. split; [reflexivity|]. apply (waits_to _ true true); [done|done|]. intros c _. by exists m, im, p, rp, ip.
  - change (has_flag UIP_POLL UIP_CONNECTED) with false.
    cbn [appstate s_state Z.eqb Pos.eqb ELUA_UIP_STATE_RECV ELUA_UIP_STATE_IDLE mbind option_bind]. change (Z.lor UIP_POLL UIP_NEWDATA) with 10.
    unfold uip_appsend. change (has_flag 10 UIP_ABORT) with false. change (has_flag 10 UIP_CLOSE) with false. cbv iota. unfold uip_restart. rewrite on_conn_twice, lookup_on_conn_eq, Hc.
    cbn [fmap option_fmap option_map mbind option_bind length Z.of_nat]. change (0 <? 0) with false. cbv iota zeta. cbn [uip_apprexmit length Nat.eqb negb andb].
    change (has_flag 10 UIP_NEWDATA) with true. cbn [mbind option_bind]. eexists _, _. split; [reflexivity|]. rewrite on_conn_twice.
    apply (waits_to _ false true); [done|done|]. intros c Hc'. by exists m, im, p, rp, ip.
Qed.
(** The callback with a segment that uIP takes. *)
Lemma data_waits got d n : d <> [] -> is_waiting true got n -> exists n', recv_data UIP_RECEIVE_WINDOW i d
    (mkApp ELUA_UIP_STATE_RECV_2 1 PLuaL (maxsize - Z.of_nat (length got)) ELUA_NET_NO_LASTCHAR) n = Some n' /\
  if decide (last_one got d) then is_received (take (Z.to_nat maxsize) (got ++ d)) n' else is_waiting true (got ++ d) n'.
Proof.
  intros Hd Hw. pose proof Hw as [Hal Ht (Hb & Hl & Hop) (m & im & p & rp & ip & Hc)]. unfold recv_data. cbn [s_len].
  assert (Hpos : 0 < Z.of_nat (length d)) by (destruct d; [done|cbn [length]; lia]).
  set (len := maxsize - Z.of_nat (length got)). set (temp := Z.min len (Z.of_nat (length d))).
  (* the state after a segment that does not fit *)
  set (r := if len <? Z.of_nat (length d) then ELUA_NET_ERR_OVERFLOW else 1).
  assert ((if len <? Z.of_nat (length d) then (app_res ELUA_NET_ERR_OVERFLOW (mkApp ELUA_UIP_STATE_RECV_2 1 PLuaL len ELUA_NET_NO_LASTCHAR), len)
    else (mkApp ELUA_UIP_STATE_RECV_2 1 PLuaL len ELUA_NET_NO_LASTCHAR, Z.of_nat (length d))) = (mkApp ELUA_UIP_STATE_RECV_2 r PLuaL len ELUA_NET_NO_LASTCHAR, temp)) as ->.
  { unfold r, temp. destruct (Z.ltb_spec len (Z.of_nat (length d))); f_equal; lia. }
  change (negb (s_readto _ =? ELUA_NET_NO_LASTCHAR)) with false. cbv iota. rewrite (proj2 (Z.ltb_ge temp 0)) by lia.
  unfold copy_all. cbn [s_res s_ptr s_len]. assert (negb (r =? 0) = true) as -> by (unfold r; by destruct (_ <? _)).
  cbn [mbind option_bind app_len s_len s_state s_res s_readto s_ptr]. unfold s16. rewrite (swrap_small 16 (len - temp)) by (unfold is_s; lia).
  set (n1 := with_luabuf n _).
  assert (Hlook : uip_conns n1 !! i = uip_conns n !! i) by done.
  assert (Hm1 : alone n1) by (destruct Hal; split; done).
  assert (Htk : got ++ take (Z.to_nat temp) d = take (Z.to_nat maxsize) (got ++ d)).
  { rewrite take_app, (take_ge got) by lia. f_equal. unfold temp, len. destruct (decide (Z.of_nat (length d) <= maxsize - Z.of_nat (length got))).
    - rewrite !take_ge by lia. done.
    - f_equal. lia. }
  destruct (decide (last_one got d)) as [Hlast|Hlast].
  - assert (((len - temp =? 0) || (Z.of_nat (length d) <? UIP_RECEIVE_WINDOW)) = true) as ->.
    { destruct Hlast as [H|H]; [by rewrite (proj2 (Z.ltb_lt _ _)), orb_true_r|]. rewrite length_app in H. by rewrite (proj2 (Z.eqb_eq _ _)) by lia. }
    eexists. split; [reflexivity|]. unfold uip_stop. rewrite on_conn_twice. split.
    + eapply alone_moves; [apply moves_conn|by rewrite lookup_on_conn_eq, Hlook, Hc|by left|done].
    + cbn. by rewrite Hb, <- app_assoc, Htk.
    + rewrite lookup_on_conn_eq, Hlook, Hc. eexists. split; [reflexivity|]. split; [done|]. split; [done|]. cbn. rewrite <- Htk, length_app, length_take. lia.
  - assert (~ Z.of_nat (length d) < UIP_RECEIVE_WINDOW /\ ~ maxsize <= Z.of_nat (length (got ++ d))) as [H1 H2] by (unfold last_one in Hlast; tauto).
    rewrite length_app in H2. rewrite (proj2 (Z.eqb_neq _ _)), (proj2 (Z.ltb_ge _ _)) by lia. eexists. split; [reflexivity|].
    assert (r = 1) as -> by (unfold r; by rewrite (proj2 (Z.ltb_ge _ _)) by lia).
    assert (Htd : take (Z.to_nat temp) d = d) by (apply take_ge; lia). split.
    + eapply alone_moves; [apply moves_conn|by rewrite lookup_on_conn_eq, Hlook, Hc|by left|done].
    + done.
    + cbn. rewrite Hb, Htd, <- app_assoc. split; [done|]. rewrite length_app. split; [lia|done].
    + exists m, im, p, rp, ip. rewrite lookup_on_conn_eq, Hlook, Hc. assert (len - temp = maxsize - Z.of_nat (length (got ++ d))) as -> by (rewrite length_app; unfold len, temp; lia). reflexivity.
Qed.
Lemma appsend_nothing flags c n : uip_conns n !! i = Some c -> has_flag flags UIP_ABORT = false -> has_flag flags UIP_CLOSE = false ->
  exists ps, uip_appsend i flags [] n = Some (n, ps).
Proof.
  intros Hc H1 H2. unfold uip_appsend, uip_apprexmit. rewrite H1, H2, Hc. cbn [mbind option_bind length Z.of_nat Nat.eqb negb andb]. change (0 <? 0) with false. cbv iota zeta.
  destruct (has_flag flags UIP_NEWDATA); cbn [mbind option_bind]; rewrite (on_conn_fix i _ c n Hc) by done; by eexists.
Qed.
Definition next_got (opened : bool) (got : list Z) (e : net_event) (n' : net) : Prop :=
  match e with
  | ESegment _ (c :: d) _ _ =>
      if opened then if decide (last_one got (c :: d)) then is_received (take (Z.to_nat maxsize) (got ++ c :: d)) n' else is_waiting true (got ++ c :: d) n'
      else is_waiting opened got n'
  | _ => is_waiting (opened_by opened e) got n'
  end.
Lemma segment_waits opened got ack data wnd n : is_waiting opened got n ->
  exists n' ps, step_event i (ESegment ack data false wnd) n = Some (n', ps) /\ next_got opened got (ESegment ack data false wnd) n'.
Proof.
  intros Hw. pose proof Hw as [Hal Ht (Hb & Hl & Hop) (m & im & p & rp & ip & Hc)]. unfold uip_event. rewrite Hc. cbn [mbind option_bind].
  unfold uip_segment. cbn [tcpstateflags c_len Z.eqb negb andb]. rewrite andb_false_r. cbv iota.
  assert (Z.land (if opened then UIP_ESTABLISHED else Z.lor UIP_ESTABLISHED UIP_STOPPED) UIP_TS_MASK = UIP_ESTABLISHED) as -> by (by destruct opened).
  rewrite Z.eqb_refl. set (c0 := mkConn _ 0 m im p rp ip _). rewrite on_conn_twice. set (n2 := on_conn i _ n).
  assert (Hw2 : is_waiting opened got n2).
  { apply (waits_to _ opened opened); [done|done|]. intros c Hc'. by exists (new_mss wnd c0), im, p, rp, ip. }
  assert (Hst : is_stopped c0 = negb opened) by (by destruct opened). rewrite Hst, negb_involutive.
  destruct data as [|x d]; [|destruct opened].
  - cbn [length Nat.eqb negb andb]. change (has_flag 0 UIP_NEWDATA || has_flag 0 UIP_ACKDATA) with false. cbv iota. by eexists _, _.
  - cbn [length Nat.eqb negb andb]. change (Z.lor 0 UIP_NEWDATA) with UIP_NEWDATA. change (has_flag UIP_NEWDATA UIP_NEWDATA || has_flag UIP_NEWDATA UIP_ACKDATA) with true. cbv iota.
    pose proof Hw2 as [Hal2 Ht2 _ (m2 & im2 & p2 & rp2 & ip2 & Hc2)]. unfold uip_call, elua_uip_appcall. rewrite (al_configured _ Hal2), Hc2. cbn [negb mbind option_bind].
    change (has_flag UIP_NEWDATA UIP_CONNECTED) with false. change (has_flag UIP_NEWDATA UIP_ABORT || has_flag UIP_NEWDATA UIP_TIMEDOUT || has_flag UIP_NEWDATA UIP_CLOSE) with false.
    change (has_flag UIP_NEWDATA UIP_NEWDATA) with true. cbn [appstate s_state Z.eqb Pos.eqb ELUA_UIP_STATE_RECV_2 ELUA_UIP_STATE_IDLE ELUA_UIP_STATE_RECV ELUA_UIP_STATE_SEND ELUA_UIP_STATE_CLOSE].
    rewrite andb_false_r, Ht2. cbv iota. destruct (data_waits got (x :: d) n2) as (n' & -> & Hn'); [done|done|]. cbn [mbind option_bind next_got].
    assert (exists c, uip_conns n' !! i = Some c) as [c Hc'].
    { case_decide; [destruct Hn' as [_ _ (c & Hc' & _)]; by exists c|]. destruct Hn' as [_ _ _ (m' & im' & p' & rp' & ip' & Hc')]. by eexists. }
    destruct (appsend_nothing UIP_NEWDATA c n' Hc') as [ps ->]; [done..|]. cbn [mbind option_bind]. by eexists _, _.
  - cbn [length Nat.eqb negb andb]. change (has_flag 0 UIP_NEWDATA || has_flag 0 UIP_ACKDATA) with false. cbv iota. by eexists _, _.
Qed.
Lemma event_waits opened got e n : is_waiting opened got n -> only_data e -> exists n' ps, step_event i e n = Some (n', ps) /\ next_got opened got e n'.
Proof.
  intros Hw He. destruct e as [forced rto|ack data fin wnd| | | |]; [|cbn in He; subst fin; by apply segment_waits|done..]. by apply (timer_waits opened).
Qed.
(** Other sockets, and what comes afterwards. *)
Lemma other_waits j e n : (j < N)%nat -> j <> i -> alone n -> exists n' ps, step_event j e n = Some (n', ps) /\
  (forall opened got, is_waiting opened got n -> is_waiting opened got n') /\ (forall got, is_received got n -> is_received got n').
Proof.
  intros HN Hj Hal. destruct (al_conns _ Hal j HN) as [c Hc].
  destruct (event_rests UIP_TCP_MSS UIP_RECEIVE_WINDOW big_endian con_tcp j e c n Hc (al_others _ Hal j c Hj Hc)) as (n' & ps & c' & -> & Hm & Hc' & [Hq' _] & _).
  exists n', ps. split; [done|]. assert (Hal' : alone n') by (apply (alone_moves j n n' c'); auto).
  assert (Hi : uip_conns n' !! i = uip_conns n !! i) by (apply (mv_others _ _ _ Hm); done).
  split; [intros opened got [_ Ht Hb Hcn]|intros got [_ Hb Hcn]]; (split; try done); try (by rewrite Hi); try (by rewrite (mv_lua _ _ _ Hm)).
  destruct con_tcp; [|done]. cbn [andb] in *. apply Z.eqb_neq in Ht. apply Z.eqb_neq. destruct (mv_telnet _ _ _ Hm) as [-> |[-> | ->]]; [done|lia|lia].
Qed.
Lemma received_event e got n : is_received got n -> exists n' ps, step_event i e n = Some (n', ps) /\ is_received got n'.
Proof.
  intros [Hal Hb (c & Hc & Hi & Hrest)].
  destruct (event_rests UIP_TCP_MSS UIP_RECEIVE_WINDOW big_endian con_tcp i e c n Hc (or_introl Hi)) as (n' & ps & c' & -> & Hm & Hc' & [Hq Hs] & _).
  exists n', ps. split; [done|]. split; [apply (alone_moves i n n' c'); auto|by rewrite (mv_lua _ _ _ Hm)|]. exists c'. split; [done|]. by rewrite (Hs Hi).
Qed.

(** The events of the socket; what a request takes of the segments: [inl], all up to
    the first one that is not full or reaches the number of bytes; [inr], there is
    no such segment yet. *)
Definition own (evs : list (nat * net_event)) : list net_event := (filter (fun x => x.1 = i) evs).*2.
Fixpoint takes (got : list Z) (ds : list (list Z)) : list Z + list Z :=
  match ds with
  | [] => inr got
  | d :: ds => if decide (last_one got d) then inl (got ++ d) else takes (got ++ d) ds
  end.
Lemma takes_app got ds ds' : takes got (ds ++ ds') = match takes got ds with inl r => inl r | inr got => takes got ds' end.
Proof. revert got. induction ds as [|d ds IH]; intros got; [done|]. cbn [app takes]. case_decide; [done|]. apply IH. Qed.
Lemma arrived_app es es' : forall opened, arrived opened (es ++ es') = arrived opened es ++ arrived (foldl opened_by opened es) es'.
Proof.
  induction es as [|e es IH]; intros opened; [done|]. destruct e as [forced rto|ack [|c d] fin wnd| | | |]; cbn [app arrived foldl opened_by]; try apply IH.
  destruct opened; [|apply IH]. cbn [app]. by rewrite IH.
Qed.
Lemma takes_room ds : forall got r, takes got ds = inr r -> Z.of_nat (length got) < maxsize -> Z.of_nat (length r) < maxsize.
Proof.
  induction ds as [|d ds IH]; intros got r; cbn [takes]; [by intros [= <-]|]. case_decide as Hl; [done|]. intros E _. apply (IH _ _ E).
  unfold last_one in Hl. lia.
Qed.
Definition allowed (x : nat * net_event) : Prop := (x.1 < N)%nat /\ (x.1 = i -> only_data x.2).
Lemma own_cons j e evs : own ((j, e) :: evs) = if decide (j = i) then e :: own evs else own evs.
Proof. unfold own. destruct (decide (j = i)) as [->|]; [by rewrite filter_cons_True|by rewrite filter_cons_False]. Qed.
Lemma received_events evs : Forall allowed evs -> forall got n, is_received got n -> exists n' l, step_events evs n = Some (n', l) /\ is_received got n'.
Proof.
  induction 1 as [|[j e] evs [Hj _] _ IH]; intros got n Hr; [by exists n, []|]. cbn [uip_events fst] in *.
  assert (exists n' ps, step_event j e n = Some (n', ps) /\ is_received got n') as (n' & ps & -> & Hr').
  { destruct (decide (j = i)) as [->|Hne]; [by apply received_event|].
    destruct (other_waits j e n Hj Hne (rc_alone _ _ Hr)) as (n' & ps & -> & _ & Hn). exists n', ps. auto. }
  cbn [mbind option_bind]. destruct (IH got n' Hr') as (n2 & l & -> & Hr2). cbn [mbind option_bind]. by eexists _, _.
Qed.
Lemma waits_events evs : Forall allowed evs -> forall opened got n, is_waiting opened got n -> exists n' l, step_events evs n = Some (n', l) /\
  match takes got (arrived opened (own evs)) with inl r => is_received (take (Z.to_nat maxsize) r) n' | inr got' => is_waiting (foldl opened_by opened (own evs)) got' n' end.
Proof.
  induction 1 as [|[j e] evs [Hj He] Hevs IH]; intros opened got n Hw; [by exists n, []|]. cbn [uip_events fst snd] in *. rewrite own_cons.
  destruct (decide (j = i)) as [->|Hne].
  - destruct (event_waits opened got e n Hw (He eq_refl)) as (n' & ps & -> & Hn). cbn [mbind option_bind].
    assert (Hgo : forall opened' got', is_waiting opened' got' n' -> exists n2 l, ('(n2, l) ← step_events evs n'; Some (n2, (pair i <$> ps) ++ l)) = Some (n2, l) /\
      match takes got' (arrived opened' (own evs)) with inl r => is_received (take (Z.to_nat maxsize) r) n2 | inr got2 => is_waiting (foldl opened_by opened' (own evs)) got2 n2 end).
    { intros opened' got' Hw'. destruct (IH opened' got' n' Hw') as (n2 & l & -> & H). cbn [mbind option_bind]. by eexists _, _. }
    destruct e as [forced rto|ack [|c d] fin wnd| | | |]; try (exact (Hgo _ _ Hn)). cbn [next_got arrived foldl opened_by] in *.
    destruct opened; [|exact (Hgo _ _ Hn)]. cbn [takes]. destruct (decide (last_one got (c :: d))); [|exact (Hgo _ _ Hn)].
    destruct (received_events evs Hevs _ n' Hn) as (n2 & l2 & -> & Hr). cbn [mbind option_bind]. by eexists _, _.
  - destruct (other_waits j e n Hj Hne (wt_alone _ _ _ Hw)) as (n' & ps & -> & Hn & _). cbn [mbind option_bind].
    destruct (IH opened got n' (Hn _ _ Hw)) as (n2 & l & -> & H). cbn [mbind option_bind]. by eexists _, _.
Qed.

(** *** The call *)

Context (env : nat -> list (nat * net_event)) (platform_timer_start : Z -> nworld -> Z) (platform_timer_get_diff_crt : Z -> Z -> nworld -> Z).
Hypothesis Henv : forall t, Forall allowed (env t).
Abbreviation recv_wait := (recv_wait UIP_TCP_MSS UIP_RECEIVE_WINDOW big_endian con_tcp env platform_timer_get_diff_crt).
Lemma own_app evs evs' : own (evs ++ evs') = own evs ++ own evs'.
Proof. unfold own. by rewrite filter_app, fmap_app. Qed.
Abbreviation seen opened got w m := (takes got (arrived opened (own (trace env (moment w) m)))).
(** The request after the call: what it has taken, and its error code. *)
Definition given (r : list Z + list Z) (n : net) : Prop :=
  let data := match r with inl d => take (Z.to_nat maxsize) d | inr d => d end in
  alone n /\ lua_buf n = before ++ data /\ exists c, uip_conns n !! i = Some c /\ s_len (appstate c) = maxsize - Z.of_nat (length data) /\
    s_res (appstate c) = match r with inl _ => ELUA_NET_ERR_OK | inr _ => ELUA_NET_ERR_TIMEDOUT end.
Lemma received_given d n : is_received (take (Z.to_nat maxsize) d) n -> given (inl d) n.
Proof. intros [Hal Hb (c & Hc & _ & Hok & Hl)]. split; [done|]. split; [done|]. by exists c. Qed.
Lemma waiting_state opened got n : is_waiting opened got n -> exists a, app_of n (Z.of_nat i) = Some a /\ (s_state a =? ELUA_UIP_STATE_IDLE) = false /\
  s_len a = maxsize - Z.of_nat (length got).
Proof. intros [_ _ _ (m & im & p & rp & ip & Hc)]. unfold app_of. rewrite Nat2Z.id, Hc. eexists. split; [reflexivity|]. by destruct opened. Qed.
Lemma received_state got n : is_received got n -> exists a, app_of n (Z.of_nat i) = Some a /\ (s_state a =? ELUA_UIP_STATE_IDLE) = true.
Proof. intros [_ _ (c & Hc & Hi & _)]. unfold app_of. rewrite Nat2Z.id, Hc. eexists. split; [reflexivity|]. by rewrite Hi. Qed.
Lemma timed_out_given opened got a n : is_waiting opened got n -> app_of n (Z.of_nat i) = Some a ->
  given (inr got) (on_conn i (set_app (app_state ELUA_UIP_STATE_IDLE (app_res ELUA_NET_ERR_TIMEDOUT a))) n).
Proof.
  intros Hw Ha. destruct (waiting_state _ _ _ Hw) as (a' & Ha' & _ & Hl). rewrite Ha in Ha'. injection Ha' as <-.
  pose proof Hw as [Hal _ (Hb & _) (m & im & p & rp & ip & Hc)]. split; [|split; [done|]].
  - eapply alone_moves; [apply moves_conn|by rewrite lookup_on_conn_eq, Hc|by left|done].
  - rewrite lookup_on_conn_eq, Hc. eexists. split; [reflexivity|]. split; [exact Hl|done].
Qed.
(** One moment of a request that waits. *)
Lemma moment_waits opened got w : is_waiting opened got (the_net w) -> exists w', next_moment UIP_TCP_MSS UIP_RECEIVE_WINDOW big_endian con_tcp env w = Some w' /\
  moment w' = S (moment w) /\
  match takes got (arrived opened (own (env (moment w)))) with
  | inl r => is_received (take (Z.to_nat maxsize) r) (the_net w')
  | inr got' => is_waiting (foldl opened_by opened (own (env (moment w)))) got' (the_net w')
  end.
Proof.
  intros Hw. unfold next_moment. destruct (waits_events (env (moment w)) (Henv _) opened got (the_net w) Hw) as (n' & l & -> & Hn).
  cbn [mbind option_bind]. by eexists.
Qed.
Lemma seen_step opened got w m : seen opened got w (S m) = match takes got (arrived opened (own (env (moment w)))) with
  | inl r => inl r | inr got' => takes got' (arrived (foldl opened_by opened (own (env (moment w)))) (own (trace env (S (moment w)) m))) end.
Proof. change (trace env (moment w) (S m)) with (env (moment w) ++ trace env (S (moment w)) m). by rewrite own_app, arrived_app, takes_app. Qed.
(** The wait: the time is not up in the moments before the last of [m], and then the
    request has ended, or the time is up. *)
Lemma wait_receives m : forall fuel timer_id to_us start opened got w, (0 < m <= fuel)%nat -> 0 < to_us -> is_waiting opened got (the_net w) ->
  (forall w', (moment w' < moment w + m)%nat -> platform_timer_get_diff_crt timer_id start w' < to_us) ->
  (exists r, seen opened got w m = inl r) \/ (forall w', moment w' = (moment w + m)%nat -> to_us <= platform_timer_get_diff_crt timer_id start w') ->
  exists w', recv_wait fuel (Z.of_nat i) timer_id to_us start w = Some w' /\ given (seen opened got w (S m)) (the_net w').
Proof.
  induction m as [|m IH]; intros fuel timer_id to_us start opened got w Hf Hto Hw Hbefore Hend; [lia|]. destruct fuel as [|fuel]; [lia|].
  cbn [Net.recv_wait]. destruct (moment_waits opened got w Hw) as (w1 & -> & Hm1 & Hn). cbn [mbind option_bind]. rewrite (seen_step _ _ _ (S m)). rewrite (seen_step _ _ _ m) in Hend.
  destruct (takes got (arrived opened (own (env (moment w))))) as [r'|got'].
  { destruct (received_state _ _ Hn) as (a & -> & Ha). cbn [mbind option_bind]. rewrite Ha. exists w1. split; [done|]. by apply received_given. }
  destruct (waiting_state _ _ _ Hn) as (a & -> & Ha & _). cbn [mbind option_bind]. rewrite Ha, (proj2 (Z.ltb_lt 0 to_us)) by done. cbn [andb].
  rewrite <- Hm1 in *. destruct m as [|m].
  - destruct Hend as [[r Hr]|Hup]; [done|]. rewrite (proj2 (Z.leb_le _ _)) by (apply Hup; lia).
    destruct (moment_waits _ _ w1 Hn) as (w2 & -> & _ & Hn2). cbn [mbind option_bind].
    replace (trace env (moment w1) 1) with (env (moment w1)) by (symmetry; apply app_nil_r). destruct (takes got' _) as [r|got2].
    + destruct (received_state _ _ Hn2) as (a2 & -> & Ha2). cbn [mbind option_bind]. rewrite Ha2. exists w2. split; [done|]. by apply received_given.
    + destruct (waiting_state _ _ _ Hn2) as (a2 & Ha2 & Hi2 & _). rewrite Ha2. cbn [mbind option_bind]. rewrite Hi2, Nat2Z.id. cbn [negb]. eexists. split; [reflexivity|].
      by eapply timed_out_given.
  - rewrite (proj2 (Z.leb_gt _ _)) by (apply Hbefore; lia). apply IH; [lia|done|done|intros w' H'; apply Hbefore; lia|].
    destruct Hend as [Hend|Hup]; [by left|right]. intros w' H'. apply Hup. lia.
Qed.
(** A socket before the request: the other side was told to stop. *)
Record readable (n : net) : Prop := {
  rb_alone : alone n;
  rb_telnet : con_tcp && (Z.of_nat i =? elua_uip_telnet_socket n) = false;
  rb_buffer : lua_buf n = before;
  rb_conn : exists m im p rp ip s, uip_conns n !! i = Some (mkConn (Z.lor UIP_ESTABLISHED UIP_STOPPED) 0 m im p rp ip s)
}.
(** C4: receiving with a timeout (a positive one; that of blocking reads is the
    largest time): an established socket that is not the console's, whose other side
    was told to stop and until the call returns neither closes nor resets the
    connection, with no requests on other sockets. A program that asks for a number
    of bytes (less than 2^15) is given the data of the segments that come, in order,
    up to the first one that is not full or that reaches the number; what is more in
    the last one is dropped, and if there is none the error code is that of success.
    If the time is up before, it is given what has come, and told so. Interrupts at
    any time, repeated acknowledgements and other connections do not matter. *)
Theorem net_recv_takes m fuel timer_id to_us w : readable (the_net w) -> (0 < m <= fuel)%nat -> 0 < to_us ->
  (forall w1 w2, moment w1 = moment w -> (moment w2 < moment w + m)%nat -> platform_timer_get_diff_crt timer_id (platform_timer_start timer_id w1) w2 < to_us) ->
  (exists d, takes [] (arrived false (own (trace env (moment w) m))) = inl d) \/
  (forall w1 w2, moment w1 = moment w -> moment w2 = (moment w + m)%nat -> to_us <= platform_timer_get_diff_crt timer_id (platform_timer_start timer_id w1) w2) ->
  exists data err w', elua_net_recvbuf UIP_TCP_MSS UIP_RECEIVE_WINDOW big_endian con_tcp env platform_timer_start platform_timer_get_diff_crt fuel (Z.of_nat i) maxsize ELUA_NET_NO_LASTCHAR timer_id to_us w =
      Some (Z.of_nat (length data), w') /\
    lua_buf (the_net w') = before ++ data /\ elua_net_get_last_err (Z.of_nat i) (the_net w') = Some err /\
    match takes [] (arrived false (own (trace env (moment w) (S m)))) with
    | inl d => data = take (Z.to_nat maxsize) d /\ (Z.of_nat (length d) <= maxsize -> err = ELUA_NET_ERR_OK)
    | inr d => data = d /\ err = ELUA_NET_ERR_TIMEDOUT
    end.
Proof.
  intros [Hal Ht Hb (m0 & im & p & rp & ip & s & Hc)] Hm Hto Hbefore Hend.
  unfold elua_net_recvbuf, elua_net_recv_internal, not_active, is_sock_ok, uip_conn_active. pose proof (lookup_lt_Some _ _ _ Hc) as Hlt.
  rewrite (al_configured _ Hal), Nat2Z.id, Hc, (proj2 (Z.leb_le 0 (Z.of_nat i))), (proj2 (Z.ltb_lt (Z.of_nat i) _)) by lia. cbn [negb andb mbind option_bind tcpstateflags].
  change (negb (negb (Z.lor UIP_ESTABLISHED UIP_STOPPED =? UIP_CLOSED) && negb (Z.lor UIP_ESTABLISHED UIP_STOPPED =? UIP_RESERVED))) with false. cbv iota.
  rewrite (proj2 (Z.eqb_neq maxsize 0)), (proj2 (Z.ltb_lt 0 to_us)) by lia. cbv zeta iota. set (w0 := with_net w _).
  assert (Hw : is_waiting false [] (the_net w0)).
  { unfold w0, elua_prep_socket_state. cbn [with_net the_net]. rewrite Nat2Z.id. split; [|done| |].
    - eapply alone_moves; [apply moves_conn|by rewrite lookup_on_conn_eq, Hc|by left|done].
    - cbn. rewrite app_nil_r. split; [done|]. split; [lia|done].
    - exists m0, im, p, rp, ip. rewrite lookup_on_conn_eq, Hc. cbn. by rewrite Z.sub_0_r. }
  destruct (wait_receives m fuel timer_id to_us (platform_timer_start timer_id w0) false [] w0 Hm Hto Hw) as (w' & -> & Hg).
  { intros w2 H2. by apply Hbefore. }
  { destruct Hend as [Hend|Hup]; [by left|right]. intros w2 H2. by apply Hup. }
  change (moment w0) with (moment w) in Hg. remember (seen false [] w (S m)) as r eqn:Er. destruct Hg as (Hal' & Hb' & c & Hc' & Hl & Hres).
  cbn [mbind option_bind]. unfold app_of. rewrite Nat2Z.id, Hc'. cbn [fmap option_fmap option_map mbind option_bind].
  set (data := match r with inl d => _ | inr d => d end) in *. exists data, (s_res (appstate c)), w'.
  assert (Hdl : Z.of_nat (length data) <= maxsize).
  { unfold data. destruct r as [d|d]; [rewrite length_take; lia|]. symmetry in Er. apply takes_room in Er; cbn; lia. }
  split; [do 2 f_equal; rewrite Hl; unfold s16; rewrite swrap_small; [lia|unfold is_s; lia|lia]|]. split; [done|]. split.
  - unfold elua_net_get_last_err, is_sock_ok, app_of. pose proof (lookup_lt_Some _ _ _ Hc'). rewrite (al_configured _ Hal'), Nat2Z.id, Hc', (proj2 (Z.leb_le 0 _)), (proj2 (Z.ltb_lt _ _)) by lia. done.
  - unfold data. by destruct r.
Qed.
End Receive.

(** ** Concrete networks *)

Definition idle_app : elua_uip_state := mkApp ELUA_UIP_STATE_IDLE ELUA_NET_ERR_OK PNull 0 0.
Definition free_conn : uip_conn := mkConn UIP_CLOSED 0 0 0 0 0 0 idle_app.
(** A connection whose segments have up to four bytes. *)
Definition open_conn : uip_conn := mkConn (Z.lor UIP_ESTABLISHED UIP_STOPPED) 0 4 4 80 2000 99 idle_app.
(** Three connections; the program's memory. *)
Definition small_net (m : list Z) : net :=
  mkNet true [free_conn; open_conn; free_conn] [htons false 80; 0] 4096 (-1) (replicate 2 (mkPending 0 0 0 0)) None m [].
(** Socket 1 sends eleven bytes: the first segment is lost once, meanwhile a
    connection comes. *)
Definition sending_env (t : nat) : list (nat * net_event) :=
  match t with
  | 1%nat => [(0%nat, ETimer true None); (1%nat, ETimer true None); (2%nat, ESyn (htons false 80) 3000 77 (Some 100))]
  | 2%nat => [(1%nat, ETimer false (Some false)); (2%nat, EEstablish [])]
  | 3%nat => [(1%nat, ESegment true [] false 1000); (1%nat, ETimer true None)]
  | 4%nat => [(1%nat, ESegment false (lit "x") false 1000); (1%nat, ESegment true [] false 0)]
  | 6%nat => [(1%nat, ESegment true [] false 1000)]
  | _ => []
  end.
Definition greeting : list Z := lit "hello world".
Lemma net_send_delivers_witness : exists r err w' l got cur, elua_net_send 100 100 false true sending_env 10 1 (PMem 2) 11 (mkNW (small_net (lit "> " ++ greeting)) 0 []) = Some (r, w') /\
  elua_net_get_last_err 1 (the_net w') = Some err /\ line w' = [] ++ l /\
  peer_gets (Some ([], None)) (of_socket 1 l) = Some (got, cur) /\ got ++ default [] cur `prefix_of` greeting /\ 0 <= r <= Z.of_nat (length got) /\
  (err = ELUA_NET_ERR_OK -> got = greeting /\ r = 11 /\ cur = None) /\ In err [ELUA_NET_ERR_OK; ELUA_NET_ERR_TIMEDOUT; ELUA_NET_ERR_CLOSED; ELUA_NET_ERR_ABORTED].
Proof.
  apply (net_send_delivers 100 100 false true 1 2 greeting 4 3 ltac:(done) ltac:(lia) ltac:(done) sending_env) with (m := 7%nat).
  - intros t. do 7 (destruct t as [|t]; [repeat constructor; cbn; try lia; try (intros; lia)|]). constructor.
  - split; [split; [done|reflexivity|..]|done|].
    + intros j c Hj Hc. destruct j as [|[|[|j]]]; [|done| |done]; injection Hc as <-; by left.
    + intros j Hj. do 3 (destruct j as [|j]; [by eexists|]). lia.
    + eexists _, _, _, _, _. split; [by right|reflexivity].
  - lia.
  - vm_compute. discriminate.
Defined.
(** Socket 1 reads six bytes that come in two segments, full ones of four bytes; the
    rest of the second is dropped. *)
Definition receiving_env (t : nat) : list (nat * net_event) :=
  match t with
  | 1%nat => [(1%nat, ESegment false (lit "lost") false 9); (0%nat, ESyn (htons false 80) 3000 77 None); (1%nat, ETimer false None)]
  | 2%nat => [(0%nat, EReset); (1%nat, ESegment true (lit "abcd") false 1000)]
  | 3%nat => [(1%nat, ETimer true None)]
  | 5%nat => [(1%nat, ESegment false (lit "efgh") false 1000)]
  | _ => []
  end.
Abbreviation no_start := (fun (_ : Z) (_ : nworld) => 0).
(** The time is the number of moments. *)
Abbreviation tick_time := (fun (_ _ : Z) (w : nworld) => Z.of_nat (moment w)).
Lemma net_recv_takes_witness : exists data err w', elua_net_recvbuf 100 4 false true receiving_env no_start tick_time 10 1 6 ELUA_NET_NO_LASTCHAR 0 30 (mkNW (small_net []) 0 []) = Some (Z.of_nat (length data), w') /\
  lua_buf (the_net w') = [] ++ data /\ elua_net_get_last_err 1 (the_net w') = Some err /\ data = lit "abcdef" /\ (8 <= 6 -> err = ELUA_NET_ERR_OK).
Proof.
  apply (net_recv_takes 100 4 false true 1 6 [] 3 ltac:(done) receiving_env no_start tick_time) with (m := 6%nat).
  - intros t. do 6 (destruct t as [|t]; [repeat constructor; cbn; try lia; try (intros; lia)|]). constructor.
  - split; [split; [done|..]|done|done|].
    + intros j c Hj Hc. destruct j as [|[|[|j]]]; [|done| |done]; injection Hc as <-; by left.
    + intros j Hj. do 3 (destruct j as [|j]; [by eexists|]). lia.
    + by eexists _, _, _, _, _, _.
  - lia.
  - lia.
  - cbn. lia.
  - left. by eexists.
Defined.

(** ** What the code does besides *)

Section Examples.
Definition at_most {A B} (f : nworld -> B) (r : option (A * nworld)) : option (A * B) := '(x, w) ← r; Some (x, f w).
Abbreviation send1 env len m := (elua_net_send 100 4 false true env 20 1 (PMem 0) len (mkNW (small_net m) 0 [])).
Abbreviation recv1 env maxsize readto to_us := (elua_net_recvbuf 100 4 false true env no_start tick_time 20 1 maxsize readto 0 to_us (mkNW (small_net []) 0 [])).
Abbreviation recv_mem env maxsize readto m := (elua_net_recv 100 4 false true env no_start tick_time 20 1 0 maxsize readto 0 0 (mkNW (small_net m) 0 [])).
Abbreviation err1 := (fun w : nworld => elua_net_get_last_err 1 (the_net w)).
Definition one (e : net_event) : list (nat * net_event) := [(1%nat, e)].

(** The window of the other side gets smaller with an acknowledgement: how much has
    been acknowledged is computed with the new one; bytes are sent twice, and others
    not at all. *)
Definition shrinking (t : nat) : list (nat * net_event) :=
  match t with 0%nat => one (ETimer true None) | _ => one (ESegment true [] false (if (t =? 1)%nat then 2 else 100)) end.
Example window_shrinks : at_most (fun w => fst <$> peer_gets (Some ([], None)) (of_socket 1 (line w))) (send1 shrinking 6 (lit "abcdef")) =
  Some (6, Some (lit "abcdcd")).
Proof. reflexivity. Qed.
(** A string of 2^15 bytes has a negative length. *)
Example long_string : send1 (fun _ => one (ESegment true [] false 100) ++ one (ETimer true None)) (s16 (2 ^ 15)) (replicate 40 0) = None.
Proof. vm_compute. reflexivity. Qed.
(** A segment with more than is asked for: the error is overwritten. *)
Definition hello (t : nat) : list (nat * net_event) :=
  match t with 0%nat => one (ETimer true None) | 1%nat => one (ESegment false (lit "hello" ++ [10]) false 100) | _ => [] end.
Example overflow_forgotten : at_most err1 (recv1 hello 3 (-1) 0) = Some (3, Some ELUA_NET_ERR_OK).
Proof. reflexivity. Qed.
(** The error code is also the mark that the place is Lua's buffer: a line longer
    than the memory for it is added to a buffer that is none. *)
Example long_line : recv_mem hello 3 10 (lit "....") = None.
Proof. reflexivity. Qed.
(** Into memory, each segment goes to the same place. *)
Example second_over_first : at_most (fun w => memory (the_net w)) (recv_mem receiving_env 8 (-1) (lit "........")) = Some (8, lit "efgh....").
Proof. reflexivity. Qed.
(** A line ends with a segment that is not full. *)
Example half_a_line : at_most (fun w => lua_buf (the_net w)) (recv1 (fun t => if (t =? 0)%nat then one (ETimer true None) else one (ESegment false (lit "ab") false 9)) 50 10 0) =
  Some (2, lit "ab").
Proof. reflexivity. Qed.
(** The end of a connection comes before its last data. *)
Example last_data_lost : at_most (fun w => (lua_buf (the_net w), err1 w)) (recv1 (fun t => if (t =? 0)%nat then one (ETimer true None) else one (ESegment false (lit "bye") true 9)) 50 (-1) 0) =
  Some (0, ([], Some ELUA_NET_ERR_CLOSED)).
Proof. reflexivity. Qed.
(** An end that comes before uIP has seen the request is not noticed. *)
Example end_not_noticed : recv1 (fun t => if (t =? 0)%nat then one EReset else one (ETimer true None)) 50 (-1) 0 = None.
Proof. vm_compute. reflexivity. Qed.
(** A timeout of 0 is none. *)
Example zero_waits : recv1 (fun _ => one (ETimer true None)) 50 (-1) 0 = None /\
  at_most err1 (recv1 (fun _ => one (ETimer true None)) 50 (-1) 5) = Some (0, Some ELUA_NET_ERR_TIMEDOUT).
Proof. split; [vm_compute|]; reflexivity. Qed.
(** After a timeout the other side has not been told to stop: what it sends before
    the next call is acknowledged and dropped. *)
Definition late (t : nat) : list (nat * net_event) :=
  match t with 0%nat => one (ETimer true None) | 8%nat => one (ESegment false (lit "ab") false 9) | 10%nat => one (ETimer true None) | 11%nat => one (ESegment false (lit "cd") false 9) | _ => [] end.
Example dropped_between : ('(_, w) ← recv1 late 50 (-1) 5;
    '(n, _) ← uip_events 100 4 false true (late 8%nat) (the_net w);
    at_most (fun w => lua_buf (the_net w)) (elua_net_recvbuf 100 4 false true late no_start tick_time 20 1 50 (-1) 0 0 (mkNW n 9 []))) = Some (2, lit "cd").
Proof. reflexivity. Qed.
(** Data with the last segment of a handshake is dropped. *)
Example first_data_lost : (fun r => (map appstate (uip_conns (fst r)), elua_uip_accept_pending (fst r), snd r)) <$>
    uip_events 100 4 false true [(0%nat, ESyn (htons false 80) 3000 77 (Some 100)); (0%nat, EEstablish (lit "GET"))] (small_net []) =
  Some ([idle_app; idle_app; idle_app], [mkPending 1 0 77 80; mkPending 0 0 0 0], [(0%nat, PSyn); (0%nat, PAck)]).
Proof. reflexivity. Qed.
(** The slot of an accepted connection is free before its socket is read: a
    connection that comes there is accepted twice, and the other one never. *)
Definition waiting_net : net := with_pending (small_net []) [mkPending 1 1 99 80; mkPending 0 0 0 0].
Definition racing (t : nat) : list (nat * net_event) :=
  match t with 0%nat => [(0%nat, ESyn (htons false 80) 3000 77 (Some 100)); (0%nat, EEstablish [])] | _ => [] end.
Example accept_race : ('(r1, w) ← elua_accept 100 4 false true racing no_start tick_time 9 80 0 5 (mkNW waiting_net 0 []);
    '(r2, w) ← elua_accept 100 4 false true racing no_start tick_time 9 80 0 5 w;
    '(r3, w) ← elua_accept 100 4 false true racing no_start tick_time 9 80 0 5 w; Some (r1, r2, r3)) = Some (Some (0, 99), Some (0, 77), None).
Proof. vm_compute. reflexivity. Qed.
(** The console: the number of characters read is compared with the room that is
    left, and becomes that. *)
Definition telnet_net : net := with_telnet (small_net (lit "..........")) 1.
Definition typing (t : nat) : list (nat * net_event) :=
  match t with 0%nat | 2%nat => one (ETimer true None) | 1%nat => one (ESegment false (lit "abcdef") false 9) | 3%nat => one (ESegment false (lit "g") false 9) | _ => [] end.
Example short_count : at_most (fun w => memory (the_net w)) (tcp_std_read 100 4 false true typing no_start tick_time 9 9 0 0 10 (mkNW telnet_net 0 [])) = Some (4, lit "abcdefg...").
Proof. vm_compute. reflexivity. Qed.
(** A new line of the console goes out after a carriage return, and telnet's own
    sequences are not read. *)
Example telnet_lines : of_socket 1 <$> (snd <$> at_most line (tcp_std_write 100 4 false true (fun _ => one (ETimer true None) ++ one (ESegment true [] false 100)) 9 1 0 2
      (mkNW (with_memory telnet_net [97; 10]) 0 []))) = Some [PData [97; 13; 10]; Acked].
Proof. vm_compute. reflexivity. Qed.
End Examples.
