(* ===== verification/LuaNet.v ===== *)
(** * LuaNet: the module net of Lua

    Models src/modules/net.c over Net, with the arguments for a timeout
    ([cmn_get_timeout_data] in src/common.c) and the lookup of names
    (src/elua_uip.c). Addresses are four bytes in one number, in the byte order of
    the processor. *)

From S2P Require Import Prelude LuaApi Net NetSpec.

Definition LUA_TIMER_SYS_ID : Z := 0x100.
Definition NET_INF_TIMEOUT : Z := 2 ^ 32 - 2 + 1.

(** ** Addresses as text *)

(** [sscanf] with "%u": the number and what is after it, or no number; a number that
    is too large is undefined. *)
Definition scan_unsigned (s : list Z) : option (option (Z * list Z)) :=
  let s := skip_space s in
  let (sign, s) := match s with c :: s' => if c =? 45 then (-1, s') else if c =? 43 then (1, s') else (1, s) | [] => (1, []) end in
  let '(n, rest) := digits 0 s in
  if (length rest =? length s)%nat then Some None
  else if n <? 2 ^ 32 then Some (Some (u32 (sign * n), rest)) else None.
(** "%u.%u.%u.%u%n", with nothing after it. *)
Fixpoint scan_dotted (n : nat) (s : list Z) : option (option (list Z)) :=
  r ← scan_unsigned s;
  match r, n with
  | Some (x, []), O => Some (Some [x])
  | Some (x, c :: s), S n =>
      if c =? 46 then r ← scan_dotted n s; Some (match r with Some l => Some (x :: l) | None => None end) else Some None
  | _, _ => Some None
  end.

Section LuaNet.
Context (UIP_TCP_MSS UIP_RECEIVE_WINDOW : Z) (big_endian con_tcp : bool).
Context (env : nat -> list (nat * net_event)).
Context (platform_timer_start : Z -> nworld -> Z) (platform_timer_get_diff_crt : Z -> Z -> nworld -> Z).
Context (str2number : list Z -> option Z) (platform_timer_sys_available : bool) (BUFSIZ : Z).
Abbreviation luaL_checkinteger := (luaL_checkinteger str2number).
Abbreviation num a := (luaL_checkinteger a (fun x => lua_return x)).

(** The timer and the timeout. *)
Definition cmn_get_timeout_data (timer timeout : larg) : option (lres (Z * Z)) :=
  let! id := (match timer with ANil => lua_return LUA_TIMER_SYS_ID | _ => luaL_checkinteger timer (fun x => lua_return (u32 x)) end) in
  let! t := (match timeout with
             | ANumber x => if (x <? 0) || (NET_INF_TIMEOUT <? x) then lua_error (lit "invalid timeout value") else lua_return x
             | _ => lua_return NET_INF_TIMEOUT
             end) in
  if (id =? LUA_TIMER_SYS_ID) && negb platform_timer_sys_available then
    lua_error (lit "the system timer is not implemented on this platform")
  else lua_return (id, t).
(** A C function that may not return, as one that gives a result. *)
Definition returns {A} (r : option A) : option (lres A) := a ← r; lua_return a.

(** [ip.ipbytes] and [ip.ipaddr], two views of the same memory. *)
Definition ip_of_bytes (bs : list Z) : Z := le_value (stored (negb big_endian) bs).
Definition ip_bytes (ip : Z) : list Z := stored (negb big_endian) (le_bytes 4 ip).
Fixpoint net_pack_numbers (n : nat) (args : list larg) : option (lres (list Z)) :=
  match n with
  | O => lua_return []
  | S n =>
      let! x := num (default ANil (head args)) in
      if 255 <? u32 x then lua_error (lit "invalid IP adddress")
      else let! bs := net_pack_numbers n (tail args) in lua_return (u32 x :: bs)
  end.
Definition net_packip (args : list larg) : option (lres Z) :=
  let first := default ANil (head args) in
  match lua_isnumber str2number first with
  | Some _ => let! bs := net_pack_numbers 4 args in lua_return (s32 (ip_of_bytes bs))
  | None =>
      match first with
      | AString pip =>
          r ← scan_dotted 3 (cstring pip);
          match r with
          | Some temp => if forallb (fun x => x <=? 255) temp then lua_return (s32 (ip_of_bytes temp)) else lua_error (lit "invalid IP address")
          | None => lua_error (lit "invalid IP adddress")
          end
      | _ => lua_error (lit "string expected")
      end
  end.
Definition dotted_ip (bs : list Z) : list Z := match bs with [a; b; c; d] => decimal a ++ 46 :: decimal b ++ 46 :: decimal c ++ 46 :: decimal d | _ => [] end.
(** Four numbers, or a string. *)
Definition net_unpackip (ip fmt : larg) : option (lres (list larg)) :=
  let! x := num ip in
  let bs := ip_bytes (u32 x) in
  match (match fmt with AString f => Some (cstring f) | ANumber _ => Some [] | _ => None end) with
  | None => lua_error (lit "string expected")
  | Some f =>
      if bool_decide (f = lit "*n") then lua_return (ANumber <$> bs)
      else if bool_decide (f = lit "*s") then lua_return [AString (dotted_ip bs)]
      else lua_error (lit "invalid format")
  end.

(** ** Sockets *)

Definition net_listen (port : larg) (n : net) : option (lres (Z * net)) :=
  let! p := num port in
  let '(r, n) := elua_listen big_endian con_tcp (u16 p) true n in
  lua_return (if r =? 0 then ELUA_NET_ERR_OK else ELUA_NET_ERR_LIMIT_EXCEEDED, n).
Definition net_unlisten (port : larg) (n : net) : option (lres (Z * net)) :=
  let! p := num port in lua_return (ELUA_NET_ERR_OK, snd (elua_listen big_endian con_tcp (u16 p) false n)).
(** Socket, address, error. *)
Definition net_accept (fuel : nat) (port timer timeout : larg) (w : nworld) : option (lres (Z * Z * Z * nworld)) :=
  let! p := num port in
  let '(r, n) := elua_listen big_endian con_tcp (u16 p) true (the_net w) in
  if negb (r =? 0) then lua_return (-1, 0, ELUA_NET_ERR_LIMIT_EXCEEDED, with_net w n)
  else
    let! (timer_id, t) := cmn_get_timeout_data timer timeout in
    '(sock, w) ← elua_accept UIP_TCP_MSS UIP_RECEIVE_WINDOW big_endian con_tcp env platform_timer_start platform_timer_get_diff_crt fuel (u16 p) timer_id t (with_net w n);
    match sock with
    | Some (s, ip) => err ← elua_net_get_last_err s (the_net w); lua_return (s, s32 ip, err, w)
    | None => lua_return (-1, 0, ELUA_NET_ERR_WAIT_TIMEDOUT, w)
    end.
Definition net_socket (type : larg) (w : nworld) : option (lres (Z * nworld)) := let! t := num type in lua_return (elua_net_socket (s32 t) w).
Definition net_close (fuel : nat) (sock : larg) (w : nworld) : option (lres (Z * nworld)) :=
  let! s := num sock in returns (elua_net_close UIP_TCP_MSS UIP_RECEIVE_WINDOW big_endian con_tcp env fuel (s32 s) w).
(** The string is in memory. *)
Definition net_send (fuel : nat) (sock str : larg) (w : nworld) : option (lres (Z * Z * nworld)) :=
  let! s := num sock in
  match str with
  | AString b =>
      '(r, w) ← elua_net_send UIP_TCP_MSS UIP_RECEIVE_WINDOW big_endian con_tcp env fuel (s32 s) (PMem 0) (s16 (strlen b)) (with_net w (with_memory (the_net w) b));
      err ← elua_net_get_last_err (s32 s) (the_net w);
      lua_return (r, err, w)
  | _ => lua_error (lit "string expected")
  end.
Definition net_connect (fuel : nat) (sock ip port : larg) (w : nworld) : option (lres (Z * nworld)) :=
  let! s := num sock in
  let! p := num port in
  let! a := num ip in
  '(_, w) ← elua_net_connect UIP_TCP_MSS UIP_RECEIVE_WINDOW big_endian con_tcp env fuel (s32 s) (u32 a) (u16 p) w;
  err ← elua_net_get_last_err (s32 s) (the_net w);
  lua_return (err, w).
Definition net_recv (fuel : nat) (sock fmt timer timeout : larg) (w : nworld) : option (lres (list Z * Z * nworld)) :=
  let! s := num sock in
  let! (maxsize, lastchar) := (match lua_isnumber str2number fmt with
    | Some x => lua_return (s16 x, ELUA_NET_NO_LASTCHAR)
    | None =>
        match fmt with
        | AString f => if bool_decide (cstring f = lit "*l") then lua_return (s16 BUFSIZ, 10) else lua_error (lit "invalid second argument to recv")
        | _ => lua_error (lit "string expected")
        end
    end) in
  let! (timer_id, t) := cmn_get_timeout_data timer timeout in
  '(_, w) ← elua_net_recvbuf UIP_TCP_MSS UIP_RECEIVE_WINDOW big_endian con_tcp env platform_timer_start platform_timer_get_diff_crt fuel (s32 s) maxsize lastchar timer_id t
    (with_net w (with_luabuf (the_net w) []));
  err ← elua_net_get_last_err (s32 s) (the_net w);
  lua_return (lua_buf (the_net w), err, w).

(** ** Names *)

(** uIP's resolver: an address it knows; the moments when it calls [resolv_found]. *)
Context (resolv_lookup : list Z -> nworld -> option Z) (found : nat -> option (option Z)).
(** The address of the request, once it is done. *)
Definition resolv_found (ipaddr : option Z) : Z := match ipaddr with Some ip => ip | None => 0 end.
Fixpoint wait_resolved (fuel : nat) (w : nworld) : option (Z * nworld) :=
  match fuel with
  | O => None
  | S fuel =>
      let r := found (moment w) in
      w ← next_moment UIP_TCP_MSS UIP_RECEIVE_WINDOW big_endian con_tcp env w;
      match r with Some ip => Some (resolv_found ip, w) | None => wait_resolved fuel w end
  end.
Definition elua_net_lookup (fuel : nat) (hostname : list Z) (w : nworld) : option (Z * nworld) :=
  match resolv_lookup hostname w with Some ip => Some (ip, w) | None => wait_resolved fuel w end.
Definition net_lookup (fuel : nat) (name : larg) (w : nworld) : option (lres (Z * nworld)) :=
  match name with
  | AString s => '(ip, w) ← elua_net_lookup fuel (cstring s) w; lua_return (s32 ip, w)
  | _ => lua_error (lit "string expected")
  end.
End LuaNet.

(** ** Addresses, there and back *)

Lemma scan_unsigned_decimal x rest : is_u8 x -> match rest with c :: _ => ~ is_digit c | [] => True end ->
  scan_unsigned (decimal x ++ rest) = Some (Some (x, rest)).
Proof.
  intros Hx Hr. unfold is_u in Hx. change (2 ^ 8) with 256 in Hx. pose proof (digits_decimal x rest ltac:(lia) Hr) as Hdig. destruct (decimal_cons x) as (d & ds & E & Hd); [lia|]. rewrite E in *.
  unfold scan_unsigned. cbn [app] in *. rewrite skip_digit by done. unfold is_digit in Hd.
  rewrite (proj2 (Z.eqb_neq d 45)), (proj2 (Z.eqb_neq d 43)) by lia. rewrite Hdig.
  assert ((length rest =? length (d :: ds ++ rest))%nat = false) as -> by (apply Nat.eqb_neq; cbn [length]; rewrite length_app; lia).
  rewrite (proj2 (Z.ltb_lt x (2 ^ 32))), Z.mul_1_l, u32_small by (unfold is_u; lia). done.
Qed.
Lemma scan_dotted_ip a b c d : is_u8 a -> is_u8 b -> is_u8 c -> is_u8 d -> scan_dotted 3 (dotted_ip [a; b; c; d]) = Some (Some [a; b; c; d]).
Proof.
  intros Ha Hb Hc Hd. unfold dotted_ip. assert (H46 : ~ is_digit 46) by (unfold is_digit; lia). cbn [scan_dotted].
  rewrite scan_unsigned_decimal by done. cbn [mbind option_bind Z.eqb Pos.eqb].
  rewrite scan_unsigned_decimal by done. cbn [mbind option_bind Z.eqb Pos.eqb].
  rewrite scan_unsigned_decimal by done. cbn [mbind option_bind Z.eqb Pos.eqb].
  rewrite <- (app_nil_r (decimal d)), scan_unsigned_decimal by done. done.
Qed.
Lemma dotted_ip_chars bs : Forall is_u8 bs -> Forall (fun c => c <> 0) (dotted_ip bs).
Proof.
  intros Hbs. assert (Hdec : forall x, is_u8 x -> Forall (fun c => c <> 0) (decimal x)).
  { intros x Hx. unfold is_u in Hx. destruct (decimal_ok x) as (_ & Hd & _); [lia|]. eapply Forall_impl; [exact Hd|]. unfold is_digit. lia. }
  destruct bs as [|a [|b [|c [|d [|]]]]]; try constructor. repeat (apply Forall_cons in Hbs as [? Hbs]). unfold dotted_ip.
  repeat first [apply Forall_app; split|apply Forall_cons; split]; auto; lia.
Qed.
Lemma le_bytes_of_value bs : Forall is_u8 bs -> le_bytes (length bs) (le_value bs) = bs.
Proof.
  induction 1 as [|x bs Hx _ IH]; [done|]. cbn [length le_value le_bytes]. rewrite Z.shiftr_div_pow2 by lia. unfold u8, wrap. unfold is_u in Hx. change (2 ^ 8) with 256 in *. f_equal.
  - rewrite Z.mul_comm, Z.mod_add, Z.mod_small by lia. done.
  - rewrite Z.mul_comm, Z.div_add, Z.div_small by lia. exact IH.
Qed.
(** An address survives being packed and unpacked, as text and as numbers, and both
    ways to write it are the same. *)
Theorem ip_roundtrip str2number big a b c d : str2number (dotted_ip [a; b; c; d]) = None -> Forall is_u8 [a; b; c; d] ->
  exists ip, net_packip big str2number [AString (dotted_ip [a; b; c; d])] = lua_return ip /\
    net_packip big str2number (ANumber <$> [a; b; c; d]) = lua_return ip /\
    net_unpackip big str2number (ANumber ip) (AString (lit "*s")) = lua_return [AString (dotted_ip [a; b; c; d])] /\
    net_unpackip big str2number (ANumber ip) (AString (lit "*n")) = lua_return (ANumber <$> [a; b; c; d]).
Proof.
  intros Hn Hbs. pose proof Hbs as Hbs'. repeat (apply Forall_cons in Hbs' as [? Hbs']).
  assert (Hstored : Forall is_u8 (stored (negb big) [a; b; c; d])) by (by apply stored_bytes).
  assert (Hlen : length (stored (negb big) [a; b; c; d]) = 4%nat) by (by rewrite stored_length).
  pose proof (le_value_bound _ Hstored) as Hb. rewrite Hlen in Hb.
  assert (Hip : ip_bytes big (u32 (s32 (ip_of_bytes big [a; b; c; d]))) = [a; b; c; d]).
  { unfold ip_of_bytes, ip_bytes. rewrite u32_s32 by (unfold is_u; lia). rewrite <- Hlen, le_bytes_of_value by done. destruct big; [apply reverse_involutive|done]. }
  exists (s32 (ip_of_bytes big [a; b; c; d])). split_and!.
  - unfold net_packip. cbn [head default id lua_isnumber]. rewrite Hn, cstring_plain by (by apply dotted_ip_chars). rewrite scan_dotted_ip by done. cbn [mbind option_bind].
    assert (forallb (fun x => x <=? 255) [a; b; c; d] = true) as ->; [|done]. apply forallb_forall. intros x Hx. apply Z.leb_le.
    rewrite Forall_forall in Hbs. specialize (Hbs x (proj2 (list_elem_of_In _ _) Hx)). unfold is_u in Hbs. lia.
  - unfold net_packip. cbn [fmap list_fmap head default id lua_isnumber net_pack_numbers tail luaL_checkinteger lua_bind lua_return].
    unfold luaL_checkinteger. cbn [lua_isnumber lua_bind lua_return].
    assert (Hu : forall x, is_u8 x -> u32 x = x /\ (255 <? x) = false) by (intros x Hx; unfold is_u in Hx; split; [apply u32_small; unfold is_u; lia|apply Z.ltb_ge; lia]).
    destruct (Hu a), (Hu b), (Hu c), (Hu d); try done.
    repeat match goal with E : u32 _ = _ |- _ => rewrite ?E; revert E end. intros. by repeat match goal with E : (255 <? _) = false |- _ => rewrite ?E; clear E end.
  - unfold net_unpackip, luaL_checkinteger. cbn [lua_isnumber lua_bind lua_return]. by rewrite Hip.
  - unfold net_unpackip, luaL_checkinteger. cbn [lua_isnumber lua_bind lua_return]. by rewrite Hip.
Qed.
