(* ===== verification/Luarpc.v ===== *)
(** * Luarpc: calls of Lua functions over a serial line

    Models src/modules/luarpc.c, inc/luarpc_rpc.h and src/luarpc_elua_uart.c:
    how Lua values are written to and read from a line, how the two sides agree
    on the representation of numbers, what a client sends to call a function, to
    get or to set a variable of the other side, and how the server answers.

    A side is a program that receives and sends bytes, [io]; its state holds
    the transport, and Lua as far as the code uses it: a stack of values, tables
    on a heap, and the functions and global variables of the virtual machine,
    which are parameters ([LuaVM]). The number type of each side is an instance of the
    class [LuaNumber] of LuaApi. *)

From S2P Require Import Prelude LuaApi.

#[local] Set Warnings "-register-all".

(** ** Programs that receive and send *)

Inductive io (A : Type) :=
  | Ret (a : A)
  | Recv (fd tmr timeout : Z) (k : Z -> io A)   (* [platform_uart_recv] *)
  | Send (fd c : Z) (p : io A).                 (* [platform_uart_send] *)
Arguments Ret {A} a. Arguments Recv {A} fd tmr timeout k. Arguments Send {A} fd c p.
Fixpoint io_bind {A B} (p : io A) (f : A -> io B) : io B :=
  match p with
  | Ret a => f a
  | Recv fd tmr timeout k => Recv fd tmr timeout (fun c => io_bind (k c) f)
  | Send fd c p => Send fd c (io_bind p f)
  end.

Definition RPC_NIL : Z := 0.
Definition RPC_NUMBER : Z := 1.
Definition RPC_BOOLEAN : Z := 2.
Definition RPC_STRING : Z := 3.
Definition RPC_TABLE : Z := 4.
Definition RPC_TABLE_END : Z := 5.
Definition RPC_FUNCTION : Z := 6.
Definition RPC_FUNCTION_END : Z := 7.
Definition RPC_REMOTE : Z := 8.
Definition RPC_CMD_CALL : Z := 1.
Definition RPC_CMD_GET : Z := 2.
Definition RPC_CMD_CON : Z := 3.
Definition RPC_CMD_NEWINDEX : Z := 4.
Definition RPC_READY : Z := 64.
Definition RPC_UNSUPPORTED_CMD : Z := 65.
Definition RPC_PROTOCOL_VERSION : Z := 3.
Definition NUM_FUNCNAME_CHARS : nat := 20.
Definition MAX_LINK_ERRS : Z := 2.
Definition MAXINT : Z := 2 ^ 31 - 1.
Definition ERR_CLOSED : Z := MAXINT - 101.
Definition ERR_PROTOCOL : Z := MAXINT - 102.
Definition ERR_NODATA : Z := MAXINT - 103.
Definition ERR_COMMAND : Z := MAXINT - 106.
Definition ERR_HEADER : Z := MAXINT - 107.
Definition LUA_ERRRUN : Z := 2.
Definition INVALID_TRANSPORT : Z := -1.
Definition UART_INF_TIMEOUT : Z := 2 ^ 32 - 1.

Inductive exception_type := nonfatal | fatal.
Record exception := mkExn { etype : exception_type; errnum : Z }.

(** How a computation ends: with a value, an exception of the module, an error
    of Lua, which leaves all functions up to the caller in Lua, or undefined
    behaviour. The message of an error is without the position that
    [luaL_error] puts in front of it. *)
Inductive res (A : Type) := Ok (a : A) | Exn (e : exception) | LuaError (msg : list Z) | Undefined.
Arguments Ok {A} a. Arguments Exn {A} e. Arguments LuaError {A} msg. Arguments Undefined {A}.

(** A C structure [Transport]. *)
Record Transport := mkTpt {
  fd : Z; tmr_id : Z; loc_little : bool; loc_intnum : bool; net_little : bool; net_intnum : bool; lnum_bytes : Z
}.

(** ** Lua *)

(** What remembers the name of a function of the other side. [funcname]: [None]
    for a text that is not terminated. *)
Inductive helper := Helper (funcname : option (list Z)) (parent : option helper) (nparents : Z).
Definition hname (h : helper) : option (list Z) := let '(Helper n _ _) := h in n.
Definition hparent (h : helper) : option helper := let '(Helper _ p _) := h in p.
Definition hnparents (h : helper) : Z := let '(Helper _ _ n) := h in n.

(** Values; tables and functions by reference. The last four are not sent. *)
Inductive value (N : Type) :=
  | VNil | VNumber (n : N) | VBoolean (b : bool) | VString (s : list Z) | VTable (r : nat) | VFunction (f : nat)
  | VHelper (h : helper) | VUserdata | VThread | VLightUserdata | VLightFunction (f : nat) | VRotable (r : nat).
Arguments VNil {N}. Arguments VNumber {N} n. Arguments VBoolean {N} b. Arguments VString {N} s. Arguments VTable {N} r.
Arguments VFunction {N} f. Arguments VHelper {N} h. Arguments VUserdata {N}. Arguments VThread {N}.
Arguments VLightUserdata {N}. Arguments VLightFunction {N} f. Arguments VRotable {N} r.

(** Equality of keys; userdata have no identity here. *)
Definition raw_eq {N} {num : LuaNumber N} (a b : value N) : bool :=
  match a, b with
  | VNil, VNil => true
  | VNumber x, VNumber y => ln_eqb x y
  | VBoolean x, VBoolean y => eqb x y
  | VString x, VString y => bool_decide (x = y)
  | VTable x, VTable y => (x =? y)%nat
  | VFunction x, VFunction y => (x =? y)%nat
  | VLightFunction x, VLightFunction y => (x =? y)%nat
  | VRotable x, VRotable y => (x =? y)%nat
  | _, _ => false
  end.
(** What is in a table, in the order it was put there; the order of a traversal is
    that of [vm_next]. *)
Abbreviation entries N := (list (value N * value N)).
Fixpoint set_entry {N} {num : LuaNumber N} (es : entries N) (k v : value N) : entries N :=
  match es with
  | [] => match v with VNil => [] | _ => [(k, v)] end
  | (k', v') :: es =>
      if raw_eq k k' then match v with VNil => es | _ => (k', v) :: es end
      else (k', v') :: set_entry es k v
  end.

(** [X]: the rest of Lua. *)
Record lua (N X : Type) := mkLua { heap : list (entries N); rest : X }.
Arguments mkLua {N X} heap rest. Arguments heap {N X} l. Arguments rest {N X} l.

(** What the code asks of the virtual machine: a result, or the message of an
    error. [vm_next]: the entries of a table in the order in which [lua_next] goes
    through them, any order. [vm_pcall]: an error code, 0 for none, and the values
    left. [vm_dump]: [None] for a function of C. *)
Class LuaVM (N X : Type) := {
  vm_next : nat -> lua N X -> entries N;
  vm_getglobal : list Z -> lua N X -> (value N + list Z) * lua N X;
  vm_getfield : value N -> list Z -> lua N X -> (value N + list Z) * lua N X;
  vm_settable : value N -> value N -> value N -> lua N X -> (unit + list Z) * lua N X;
  vm_setglobal : list Z -> value N -> lua N X -> (unit + list Z) * lua N X;
  vm_pcall : value N -> list (value N) -> lua N X -> (Z * list (value N)) * lua N X;
  vm_tostring : value N -> list Z;
  vm_dump : nat -> lua N X -> option (list Z);
  vm_load : list Z -> lua N X -> value N * lua N X
}.

(** ** The state of a side *)

(** [stk]: Lua's stack, the top first. [on_error]: the handler of errors. *)
Record side (N X : Type) := mkSide {
  tpt : Transport; ltpt : Transport; link_errs : Z; adispatch_buff : Z; on_error : option (value N);
  stk : list (value N); lvm : lua N X
}.
Arguments mkSide {N X} tpt ltpt link_errs adispatch_buff on_error stk lvm. Arguments tpt {N X} s. Arguments ltpt {N X} s.
Arguments link_errs {N X} s. Arguments adispatch_buff {N X} s. Arguments on_error {N X} s. Arguments stk {N X} s. Arguments lvm {N X} s.

(** A computation of a side. *)
Definition rpc (N X A : Type) : Type := side N X -> io (res A * side N X).
#[export] Instance rpc_ret N X : MRet (rpc N X) := λ A a s, Ret (Ok a, s).
#[export] Instance rpc_bind N X : MBind (rpc N X) := λ A B f m s,
  io_bind (m s) (λ r, match r with
                      | (Ok a, s) => f a s
                      | (Exn e, s) => Ret (Exn e, s)
                      | (LuaError m, s) => Ret (LuaError m, s)
                      | (Undefined, s) => Ret (Undefined, s)
                      end).

Section Basics.
Context {N X : Type}.
Abbreviation R := (rpc N X).
Definition Throw {A} (t : exception_type) (n : Z) : R A := fun s => Ret (Exn (mkExn t n), s).
Definition undefined {A} : R A := fun s => Ret (Undefined, s).
Definition luaL_error {A} (msg : list Z) : R A := fun s => Ret (LuaError msg, s).
(** [Try ... Catch]. *)
Definition try_catch {A} (m : R A) (h : exception -> R A) : R A := fun s =>
  io_bind (m s) (fun r => match r with (Exn e, s) => h e s | _ => Ret r end).
Definition get {A} (f : side N X -> A) : R A := fun s => Ret (Ok (f s), s).
Definition set (f : side N X -> side N X) : R unit := fun s => Ret (Ok (), f s).
Definition of_opt {A} (x : option A) : R A := match x with Some a => mret a | None => undefined end.

Definition set_tpt (t : Transport) (s : side N X) : side N X :=
  mkSide t (ltpt s) (link_errs s) (adispatch_buff s) (on_error s) (stk s) (lvm s).
Definition set_link_errs (n : Z) (s : side N X) : side N X :=
  mkSide (tpt s) (ltpt s) n (adispatch_buff s) (on_error s) (stk s) (lvm s).
Definition set_buff (c : Z) (s : side N X) : side N X :=
  mkSide (tpt s) (ltpt s) (link_errs s) c (on_error s) (stk s) (lvm s).
Definition set_stk (l : list (value N)) (s : side N X) : side N X :=
  mkSide (tpt s) (ltpt s) (link_errs s) (adispatch_buff s) (on_error s) l (lvm s).
Definition set_lua (l : lua N X) (s : side N X) : side N X :=
  mkSide (tpt s) (ltpt s) (link_errs s) (adispatch_buff s) (on_error s) (stk s) l.

Definition lua_push (v : value N) : R unit := set (fun s => set_stk (v :: stk s) s).
Definition pop (n : nat) : R unit := set (fun s => set_stk (drop n (stk s)) s).
Definition gettop : R nat := get (fun s => length (stk s)).
(** [lua_settop( L, 0 )]. *)
Definition settop0 : R unit := set (set_stk []).
(** The value at an index, counted from 1 at the bottom. *)
Definition at_index (i : nat) : R (value N) := s ← get stk; of_opt (reverse s !! (i - 1)%nat).
(** A call of the virtual machine that may raise an error. *)
Definition vm {A} (f : lua N X -> (A + list Z) * lua N X) : R A := fun s =>
  let '(r, l) := f (lvm s) in
  Ret (match r with inl a => Ok a | inr m => LuaError m end, set_lua l s).
End Basics.

(** ** The transport: src/luarpc_elua_uart.c *)

Section Transport.
Context {N X : Type}.
Abbreviation R := (rpc N X).

Definition transport_init (t : Transport) : Transport :=
  mkTpt INVALID_TRANSPORT 0 (loc_little t) (loc_intnum t) (net_little t) (net_intnum t) (lnum_bytes t).
Definition TRANSPORT_VERIFY_OPEN : R unit :=
  t ← get tpt; if fd t =? INVALID_TRANSPORT then Throw fatal ERR_CLOSED else mret ().
Definition uart_recv (fd tmr timeout : Z) : R Z := fun s => Recv fd tmr timeout (fun c => Ret (Ok c, s)).
Definition uart_send (fd c : Z) : R unit := fun s => Send fd c (Ret (Ok (), s)).

(** The bytes that are left to read; [timeout]: for the first of them. *)
Fixpoint read_bytes (n : nat) (timeout : Z) : R (list Z) :=
  match n with
  | O => mret []
  | S n =>
      _ ← TRANSPORT_VERIFY_OPEN;
      b ← get adispatch_buff;
      t ← get tpt;
      c ← (if b <? 0 then uart_recv (fd t) (tmr_id t) timeout else _ ← set (set_buff (-1)); mret b);
      if c <? 0 then Throw nonfatal ERR_NODATA
      else bs ← read_bytes n 100000; mret (u8 c :: bs)
  end.
Definition transport_read_buffer (n : nat) : R (list Z) := read_bytes n UART_INF_TIMEOUT.
Fixpoint send_loop (bs : list Z) : R unit :=
  match bs with
  | [] => mret ()
  | c :: bs => t ← get tpt; _ ← uart_send (fd t) c; send_loop bs
  end.
Definition transport_write_buffer (bs : list Z) : R unit := _ ← TRANSPORT_VERIFY_OPEN; send_loop bs.
Definition transport_is_open (t : Transport) : bool := negb (fd t =? INVALID_TRANSPORT).
Definition transport_close : R unit :=
  set (fun s => let t := tpt s in
    set_tpt (mkTpt INVALID_TRANSPORT (tmr_id t) (loc_little t) (loc_intnum t) (net_little t) (net_intnum t) (lnum_bytes t)) s).
(** From the transport that listens to the one that accepts. *)
Definition transport_accept : R unit :=
  l ← get ltpt;
  if fd l =? INVALID_TRANSPORT then Throw fatal ERR_CLOSED
  else set (fun s => let t := tpt s in
    set_tpt (mkTpt (fd l) (tmr_id t) (loc_little t) (loc_intnum t) (net_little t) (net_intnum t) (lnum_bytes t)) s).
(** Of a transport with [fd] and timer. *)
Definition transport_readable (t : Transport) : R bool :=
  b ← get adispatch_buff;
  if b >=? 0 then mret true
  else
    c ← uart_recv (fd t) (tmr_id t) 0;
    if c >? 0 then _ ← set (set_buff c); mret true else mret false.

(** *** Bytes and words *)

Definition transport_read_u8 : R Z :=
  _ ← TRANSPORT_VERIFY_OPEN; bs ← transport_read_buffer 1; of_opt (head bs).
Definition transport_write_u8 (x : Z) : R unit := _ ← TRANSPORT_VERIFY_OPEN; transport_write_buffer [u8 x].
(** A text; the length is an [int]. *)
Definition transport_read_string (len : Z) : R (list Z) :=
  bs ← transport_read_buffer (Z.to_nat (s32 len));
  (* what was not read is not initialised *)
  if Z.of_nat (length bs) <? len then undefined else mret bs.
Definition transport_write_string (s : list Z) : R unit := transport_write_buffer s.

(** Of [tpt->net_little != tpt->loc_little]. *)
Definition net_order (t : Transport) (bs : list Z) : list Z :=
  if negb (eqb (net_little t) (loc_little t)) then swap_bytes bs (length bs) else bs.

(** [machine]: whether the processor stores the lowest byte first. *)
Context (machine : bool).
Definition transport_read_u32 : R Z :=
  _ ← TRANSPORT_VERIFY_OPEN; bs ← transport_read_buffer 4; t ← get tpt;
  mret (le_value (stored machine (net_order t bs))).
Definition transport_write_u32 (x : Z) : R unit :=
  _ ← TRANSPORT_VERIFY_OPEN; t ← get tpt;
  transport_write_buffer (net_order t (stored machine (le_bytes 4 (u32 x)))).

(** *** Numbers *)

Context {num : LuaNumber N}.
Definition is_int_size (n : Z) : bool := (n =? 1) || (n =? 2) || (n =? 4) || (n =? 8).
Definition transport_read_number : R N :=
  _ ← TRANSPORT_VERIFY_OPEN;
  t ← get tpt;
  bs ← transport_read_buffer (Z.to_nat (lnum_bytes t));
  let b := net_order t bs in
  if negb (eqb (net_intnum t) (loc_intnum t)) then
    if is_int_size (lnum_bytes t) then mret (ln_of_int (swrap (8 * lnum_bytes t) (le_value (stored machine b))))
    else mret (ln_of_int 0)
  else if (length b <? ln_size)%nat then undefined
  else mret (ln_of_bytes (stored machine (take ln_size b))).
Definition transport_write_number (x : N) : R unit :=
  _ ← TRANSPORT_VERIFY_OPEN;
  t ← get tpt;
  if net_intnum t then
    if is_int_size (lnum_bytes t) then
      transport_write_buffer (net_order t (stored machine (le_bytes (Z.to_nat (lnum_bytes t)) (ln_to_int x))))
    else mret ()
  else if negb (ln_size =? 8)%nat then undefined
  else transport_write_buffer (net_order t (stored machine (ln_bytes x))).
End Transport.

(** ** Lua values on the line *)

Section Variables.
Context {N X : Type} {num : LuaNumber N} {lvm_ : LuaVM N X} (machine : bool).
Abbreviation R := (rpc N X).
Abbreviation write_u32 := (transport_write_u32 (N := N) (X := X) machine).
Abbreviation read_u32 := (transport_read_u32 (N := N) (X := X) machine).

(** *** Names of functions: tables and fields, with dots between them *)

(** The names of the ancestors, the nearest first. *)
Fixpoint ancestors (n : nat) (p : option helper) : option (list (list Z)) :=
  match n with
  | O => Some []
  | S n => h ← p; name ← hname h; names ← ancestors n (hparent h); Some (name :: names)
  end.
Fixpoint send_names (names : list (list Z)) : R unit :=
  match names with
  | [] => mret ()
  | n :: names => _ ← transport_write_string n; _ ← transport_write_string [46]; send_names names
  end.
Definition helper_remote_index (h : helper) : R unit :=
  name ← of_opt (hname h);
  names ← of_opt (ancestors (Z.to_nat (hnparents h)) (hparent h));
  _ ← write_u32 (foldr (fun n l => strlen n + 1 + l) (strlen name) names);
  _ ← send_names (reverse names);
  transport_write_string name.

(** [strtok( s, "." )]: all its results. *)
Fixpoint tokens_from (cur s : list Z) : list (list Z) :=
  match s with
  | [] => match cur with [] => [] | _ => [cur] end
  | c :: s => if c =? 46 then match cur with [] => tokens_from [] s | _ => cur :: tokens_from [] s end
              else tokens_from (cur ++ [c]) s
  end.
Definition tokens (s : list Z) : list (list Z) := tokens_from [] (default s (str_scan s)).

(** *** Writing *)

(** All values of a table, keys and values in turn; [write]: for one of them. *)
Fixpoint write_entries (write : value N -> R unit) (es : entries N) : R unit :=
  match es with
  | [] => mret ()
  | (k, v) :: es => _ ← write k; _ ← write v; write_entries write es
  end.
Definition write_string (s : list Z) : R unit :=
  _ ← transport_write_u8 RPC_STRING; _ ← write_u32 (strlen s); transport_write_string s.
(** [fuel]: the depth of tables. *)
Fixpoint write_variable (fuel : nat) (v : value N) : R unit :=
  match fuel with
  | O => undefined
  | Datatypes.S fuel =>
      match v with
      | VNumber x => _ ← transport_write_u8 RPC_NUMBER; transport_write_number machine x
      | VString s => write_string s
      | VTable r =>
          _ ← transport_write_u8 RPC_TABLE;
          l ← get lvm;
          _ ← of_opt (heap l !! r);
          _ ← write_entries (write_variable fuel) (vm_next r l);
          transport_write_u8 RPC_TABLE_END
      | VNil => transport_write_u8 RPC_NIL
      | VBoolean b => _ ← transport_write_u8 RPC_BOOLEAN; transport_write_u8 (Z.b2z b)
      | VFunction f =>
          _ ← transport_write_u8 RPC_FUNCTION;
          l ← get lvm;
          dump ← of_opt (vm_dump f l);
          _ ← write_string dump;
          transport_write_u8 RPC_FUNCTION_END
      | VHelper h => _ ← transport_write_u8 RPC_REMOTE; helper_remote_index h
      | VUserdata => luaL_error (lit "userdata transmission unsupported")
      | VThread => luaL_error (lit "thread transmission unsupported")
      | VLightUserdata => luaL_error (lit "light userdata transmission unsupported")
      (* types the switch does not have *)
      | VLightFunction _ => mret ()
      | VRotable _ => mret ()
      end
  end.

(** *** Reading *)

Definition is_nil_value (v : value N) : bool := match v with VNil => true | _ => false end.
Definition is_nan_value (v : value N) : bool := match v with VNumber x => negb (ln_eqb x x) | _ => false end.
(** [lua_rawset]: the key and the value are on top of the stack. *)
Definition rawset (index : nat) : R unit :=
  s ← get stk;
  t ← at_index index;
  match t, s with
  | VTable r, v :: k :: _ =>
      if is_nil_value k then luaL_error (lit "table index is nil")
      else if is_nan_value k then luaL_error (lit "table index is NaN")
      else
        l ← get lvm;
        es ← of_opt (heap l !! r);
        _ ← set (set_lua (mkLua (<[r := set_entry es k v]> (heap l)) (rest l)));
        pop 2
  | _, _ => undefined
  end.
Definition newtable : R unit :=
  l ← get lvm; _ ← set (set_lua (mkLua (heap l ++ [[]]) (rest l))); lua_push (VTable (length (heap l))).
(** [read]: for one variable. *)
Fixpoint read_table (read : R bool) (n : nat) (table_index : nat) : R unit :=
  match n with
  | O => undefined
  | S n =>
      more ← read;
      if negb more then mret () else
      _ ← read; _ ← rawset table_index; read_table read n table_index
  end.
(** [luaL_checklstring]: numbers are strings as well. *)
Definition checkstring (v : value N) : R (list Z) :=
  match v with VString s => mret s | VNumber _ => mret (vm_tostring v) | _ => luaL_error (lit "string expected") end.
Fixpoint read_function (read : R bool) (n : nat) : R unit :=
  match n with
  | O => undefined
  | S n =>
      more ← read;
      if negb more then mret () else
      s ← get stk;
      match s with
      | v :: s =>
          b ← checkstring v;
          l ← get lvm;
          let '(f, l) := vm_load b l in
          _ ← set (set_lua l); _ ← set (set_stk (f :: s)); read_function read n
      | [] => undefined
      end
  end.
(** A global variable, and the fields of it. *)
Fixpoint get_fields (v : value N) (names : list (list Z)) : R (value N) :=
  match names with [] => mret v | n :: names => v ← vm (vm_getfield v n); get_fields v names end.
Definition find_variable (name : list Z) : R (value N) :=
  match tokens name with
  | [] => undefined
  | t :: ts => v ← vm (vm_getglobal t); get_fields v ts
  end.
Definition read_text : R (list Z) := len ← read_u32; transport_read_string len.
Definition read_index : R unit := name ← read_text; v ← find_variable name; lua_push v.
(** Whether a variable was read, or the end of a table or a function. *)
Fixpoint read_variable (fuel : nat) : R bool :=
  match fuel with
  | O => undefined
  | Datatypes.S fuel =>
      type ← transport_read_u8;
      if type =? RPC_NIL then _ ← lua_push VNil; mret true
      else if type =? RPC_BOOLEAN then b ← transport_read_u8; _ ← lua_push (VBoolean (negb (b =? 0))); mret true
      else if type =? RPC_NUMBER then x ← transport_read_number machine; _ ← lua_push (VNumber x); mret true
      else if type =? RPC_STRING then s ← read_text; _ ← lua_push (VString s); mret true
      else if type =? RPC_TABLE then
        _ ← newtable; top ← gettop; _ ← read_table (read_variable fuel) fuel top; mret true
      else if type =? RPC_TABLE_END then mret false
      else if type =? RPC_FUNCTION then _ ← read_function (read_variable fuel) fuel; mret true
      else if type =? RPC_FUNCTION_END then mret false
      else if type =? RPC_REMOTE then _ ← read_index; mret true
      else Throw fatal type
  end.
End Variables.

(** ** Connecting *)

Section Calls.
Context {N X : Type} {num : LuaNumber N} {lvm_ : LuaVM N X} (machine : bool).
Abbreviation R := (rpc N X).
Abbreviation write_u32 := (transport_write_u32 (N := N) (X := X) machine).
Abbreviation read_u32 := (transport_read_u32 (N := N) (X := X) machine).
Abbreviation write_variable := (write_variable (N := N) (X := X) machine).
Abbreviation read_variable := (read_variable (N := N) (X := X) machine).
(** The fuel for values. *)
Context (fuel : nat).

(** "LRPC" and the version. *)
Definition header_start : list Z := lit "LRPC" ++ [RPC_PROTOCOL_VERSION].
Definition header_ok (h : list Z) : bool := bool_decide (take 5 h = header_start).
Definition nth_byte (h : list Z) (i : nat) : Z := default 0 (h !! i).
(** A header byte in a field of one bit. *)
Definition flag_of (c : Z) : bool := Z.odd c.
Definition b2c (b : bool) : Z := Z.b2z b.

(** [sizeof( lua_Number )]. *)
Definition number_size : Z := Z.of_nat ln_size.
Definition client_negotiate : R unit :=
  _ ← set (fun s => let t := tpt s in
        set_tpt (mkTpt (fd t) (tmr_id t) machine ln_integral (net_little t) (net_intnum t) number_size) s);
  _ ← transport_write_string (header_start ++ [b2c machine; number_size; b2c ln_integral]);
  h ← transport_read_string 8;
  if negb (header_ok h) then Throw nonfatal ERR_HEADER
  else set (fun s => let t := tpt s in
        set_tpt (mkTpt (fd t) (tmr_id t) (loc_little t) (loc_intnum t) (flag_of (nth_byte h 5)) (flag_of (nth_byte h 7)) (nth_byte h 6)) s).
Definition server_negotiate : R unit :=
  _ ← set (fun s => let t := tpt s in
        set_tpt (mkTpt (fd t) (tmr_id t) machine ln_integral machine ln_integral number_size) s);
  h ← transport_read_string 8;
  if negb (header_ok h) then Throw nonfatal ERR_HEADER
  else
    let differ5 := negb (nth_byte h 5 =? b2c machine) in
    let h5 := if differ5 then 0 else nth_byte h 5 in
    (* the bytes of the header are [char]s, here signed *)
    let h6 := if swrap 8 (nth_byte h 6) >? number_size then number_size else nth_byte h 6 in
    let lnum := if swrap 8 h6 <? number_size then h6 else number_size in
    let differ7 := negb (nth_byte h 7 =? b2c ln_integral) in
    let h7 := if differ7 then 1 else nth_byte h 7 in
    _ ← set (fun s => let t := tpt s in
          set_tpt (mkTpt (fd t) (tmr_id t) (loc_little t) (loc_intnum t) (if differ5 then false else net_little t)
                    (if differ7 then true else net_intnum t) lnum) s);
    transport_write_string (header_start ++ [h5; h6; h7]).

(** *** Errors *)

(** Of error numbers of the system: [strerror]. *)
Context (strerror : Z -> list Z).
Definition errorString (n : Z) : list Z :=
  if n =? MAXINT - 100 then lit "connection closed unexpectedly"
  else if n =? ERR_CLOSED then lit "operation requested on closed transport"
  else if n =? ERR_PROTOCOL then lit "error in the received protocol"
  else if n =? ERR_COMMAND then lit "undefined command"
  else if n =? ERR_NODATA then lit "no data received when attempting to read"
  else if n =? ERR_HEADER then lit "header exchanged failed"
  else if n =? MAXINT - 108 then lit "function name too long"
  else strerror n.
(** A message as the format of [luaL_error], without further arguments: [None]
    when one of them would be read, or what follows the text. *)
Fixpoint pushvfstring (fmt : list Z) : option (list Z) :=
  match fmt with
  | [] => Some []
  | c :: fmt =>
      if c =? 37 then
        match fmt with
        | [] => None
        | d :: fmt =>
            if bool_decide (d ∈ lit "scdfp") then None
            else app (if d =? 37 then [37] else [37; d]) <$> pushvfstring fmt
        end
      else cons c <$> pushvfstring fmt
  end.
Definition deal_with_error (error_string : list Z) : R unit :=
  let msg := default error_string (str_scan error_string) in
  h ← get on_error;
  match h with
  | Some f => l ← get lvm; let '(_, l) := vm_pcall f [VString msg] l in set (set_lua l)
  | None => msg ← of_opt (pushvfstring msg); luaL_error msg
  end.
Definition rpc_on_error (v : value N) : R unit :=
  _ ← set (fun s => mkSide (tpt s) (ltpt s) (link_errs s) (adispatch_buff s) None (stk s) (lvm s));
  match v with
  | VFunction _ | VLightFunction _ =>
      set (fun s => mkSide (tpt s) (ltpt s) (link_errs s) (adispatch_buff s) (Some v) (stk s) (lvm s))
  | VNil => mret ()
  | _ => luaL_error (lit "bad args")
  end.
(** How many values are returned. *)
Definition generic_catch_handler (e : exception) : R nat :=
  _ ← deal_with_error (errorString (errnum e));
  match etype e with
  | nonfatal => _ ← lua_push VNil; mret 1%nat
  | fatal => _ ← transport_close; mret 0%nat
  end.

(** *** The client *)

(** [strncpy] into a field of one byte more than it copies. *)
Definition copy_name (s : list Z) : option (list Z) := if (length s <? NUM_FUNCNAME_CHARS)%nat then Some s else None.
Definition helper_create (name : list Z) : helper := Helper (copy_name name) None 0.
Definition helper_append (h : helper) (name : list Z) : helper := Helper (copy_name name) (Some h) (u8 (hnparents h + 1)).
Definition ERR_NAME : list Z := lit "function name too long".
Definition handle_index (key : value N) : R helper :=
  match key with
  | VString s => let s := default s (str_scan s) in
      if (NUM_FUNCNAME_CHARS <? length s)%nat then luaL_error ERR_NAME else mret (helper_create s)
  | _ => luaL_error (lit "can't index a handle with a non-string")
  end.
Definition helper_index (h : helper) (key : value N) : R helper :=
  match key with
  | VString s => let s := default s (str_scan s) in
      if (NUM_FUNCNAME_CHARS - 1 <? length s)%nat then luaL_error ERR_NAME else mret (helper_append h s)
  | _ => luaL_error (lit "can't index handle with non-string")
  end.
Definition helper_wait_ready (cmd : Z) : R unit :=
  _ ← transport_write_u8 cmd; r ← transport_read_u8;
  if negb (r =? RPC_READY) then Throw nonfatal ERR_PROTOCOL else mret ().
Definition helper_get (h : helper) : R nat :=
  try_catch (_ ← helper_wait_ready RPC_CMD_GET; _ ← helper_remote_index machine h; _ ← read_variable fuel; mret 1%nat)
    generic_catch_handler.
Fixpoint write_variables (vs : list (value N)) : R unit :=
  match vs with [] => mret () | v :: vs => _ ← write_variable fuel v; write_variables vs end.
Fixpoint read_variables (n : nat) : R unit :=
  match n with O => mret () | S n => _ ← read_variable fuel; read_variables n end.
(** The error that the other side reports. *)
Definition read_error : R unit :=
  _ ← read_u32; msg ← read_text machine; deal_with_error msg.
(** The answer to a call: how many values it returns. *)
Definition read_results : R nat :=
  ret_code ← transport_read_u8;
  if ret_code =? 0 then
    nret ← read_u32; _ ← read_variables (Z.to_nat (s32 nret)); mret (Z.to_nat (s32 nret))
  else _ ← read_error; mret 0%nat.
(** [args]: on the stack above the helper. *)
Definition helper_call (h : helper) (args : list (value N)) : R nat :=
  name ← of_opt (hname h);
  if bool_decide (name = lit "get") then p ← of_opt (hparent h); _ ← helper_get p; mret 1%nat
  else
    try_catch
      (_ ← helper_wait_ready RPC_CMD_CALL;
       _ ← helper_remote_index machine h;
       _ ← write_u32 (Z.of_nat (length args));
       _ ← write_variables args;
       read_results)
      generic_catch_handler.
Definition helper_newindex (h : helper) (key v : value N) : R nat :=
  match key with
  | VString _ =>
      try_catch
        (_ ← helper_wait_ready RPC_CMD_NEWINDEX;
         _ ← helper_remote_index machine h;
         _ ← write_variable fuel key;
         _ ← write_variable fuel v;
         ret_code ← transport_read_u8;
         _ ← (if negb (ret_code =? 0) then read_error else mret ());
         mret 0%nat)
        generic_catch_handler
  | _ => luaL_error (lit "string expected")
  end.
Definition handle_newindex (key v : value N) : R nat :=
  match key with
  | VString s =>
      if (NUM_FUNCNAME_CHARS - 1 <? length (default s (str_scan s)))%nat then luaL_error ERR_NAME
      else helper_newindex (helper_create []) key v
  | _ => luaL_error (lit "can't index handle with a non-string")
  end.
(** [open]: [transport_open_connection], what it does to the transport. *)
Definition rpc_connect (open : R unit) : R unit :=
  try_catch (_ ← open; _ ← transport_write_u8 RPC_CMD_CON; client_negotiate)
    (fun e => _ ← deal_with_error (errorString (errnum e)); lua_push VNil).

(** *** The server *)

Definition callable (v : value N) : bool := match v with VFunction _ | VLightFunction _ => true | _ => false end.
Definition is_table (v : value N) : bool := match v with VTable _ | VRotable _ => true | _ => false end.
Definition indexable (v : value N) : bool := callable v || is_table v.

(** The value on top of the stack, and the names that are left. *)
Fixpoint call_target (v : value N) (names : list (list Z)) : R (list (list Z)) :=
  match names with
  | [] => mret []
  | n :: names' =>
      if indexable v then
        f ← vm (vm_getfield v n);
        _ ← lua_push f;
        if indexable f then s ← get stk; _ ← set (set_stk (f :: drop 2 s)); call_target f names'
        else mret names
      else mret names
  end.
(** The function to call: on top of the stack; the names that do not lead there
    are left. *)
Definition find_function (name : list Z) : R (list (list Z)) :=
  match tokens name with
  | [] => undefined
  | t :: ts =>
      v ← vm (vm_getglobal t); _ ← lua_push v;
      if indexable v then call_target v ts else mret (t :: ts)
  end.
Definition report_error (code : Z) (msgs : list (list Z)) : R unit :=
  _ ← transport_write_u8 1; _ ← write_u32 code; _ ← write_u32 (foldr (fun m l => strlen m + l) 0 msgs);
  foldr (fun m (next : R unit) => _ ← transport_write_string m; next) (mret ()) msgs.
(** The call, and its results. *)
Definition answer_call (nargs : Z) (stackpos : nat) : R unit :=
  s ← get stk;
  let n := Z.to_nat (s32 nargs) in
  f ← of_opt (if s32 nargs <? 0 then None else s !! n);
  l ← get lvm;
  let '((error_code, vs), l) := vm_pcall f (reverse (take n s)) l in
  _ ← set (set_lua l);
  _ ← set (set_stk (reverse vs ++ drop (n + 1) s));
  _ ← (if negb (error_code =? 0) then v ← of_opt (head vs); report_error error_code [vm_tostring v]
       else
         _ ← transport_write_u8 0;
         top ← gettop;
         _ ← write_u32 (Z.of_nat top - Z.of_nat stackpos);
         s ← get stk;
         write_variables (drop stackpos (reverse s)));
  settop0.
(** Instead of a call. The message is chosen by what is on top of the stack. *)
Definition answer_no_function (names : list (list Z)) : R unit :=
  top ← gettop;
  v ← at_index top;
  let msg := match v with
             | VNil => lit "undefined: "
             | _ => if is_table v then lit "can't call table" else lit "not table/func: "
             end in
  _ ← report_error LUA_ERRRUN [msg; default [] (head names)];
  settop0.
Definition read_cmd_call : R unit :=
  name ← read_text machine;
  names ← find_function name;
  top ← gettop;
  f ← at_index top;
  nargs ← read_u32;
  _ ← read_variables (Z.to_nat (s32 nargs));
  if callable f then answer_call nargs (top - 1) else answer_no_function names.
Definition read_cmd_get : R unit :=
  name ← read_text machine;
  v ← find_variable name;
  _ ← lua_push v;
  _ ← write_variable fuel v;
  settop0.
Definition read_cmd_newindex : R unit :=
  name ← read_text machine;
  (* its length as a string *)
  _ ← (if bool_decide (default name (str_scan name) = []) then
         _ ← read_variable fuel; _ ← read_variable fuel;
         s ← get stk;
         match s with
         | v :: k :: s =>
             (* [lua_tostring], otherwise a null pointer *)
             n ← of_opt (match k with VString n => Some n | VNumber _ => Some (vm_tostring k) | _ => None end);
             _ ← vm (vm_setglobal (default n (str_scan n)) v);
             set (set_stk (k :: s))
         | _ => undefined
         end
       else
         t ← find_variable name;
         _ ← lua_push t;
         _ ← read_variable fuel; _ ← read_variable fuel;
         s ← get stk;
         match s with
         | v :: k :: t :: s => _ ← vm (vm_settable t k v); set (set_stk (t :: s))
         | _ => undefined
         end);
  _ ← transport_write_u8 0;
  settop0.

(** One command, on an open connection. *)
Definition serve_command : R unit :=
  cmd ← transport_read_u8;
  if cmd =? RPC_CMD_CALL then _ ← transport_write_u8 RPC_READY; read_cmd_call
  else if cmd =? RPC_CMD_GET then _ ← transport_write_u8 RPC_READY; read_cmd_get
  else if cmd =? RPC_CMD_CON then server_negotiate
  else if cmd =? RPC_CMD_NEWINDEX then _ ← transport_write_u8 RPC_READY; read_cmd_newindex
  else _ ← transport_write_u8 RPC_UNSUPPORTED_CMD; Throw nonfatal ERR_COMMAND.
Definition server_handle_shutdown : R unit :=
  _ ← transport_close;
  set (fun s => let t := ltpt s in
    mkSide (tpt s) (mkTpt INVALID_TRANSPORT (tmr_id t) (loc_little t) (loc_intnum t) (net_little t) (net_intnum t) (lnum_bytes t))
      (link_errs s) (adispatch_buff s) (on_error s) (stk s) (lvm s)).
Definition rpc_dispatch_helper : R unit :=
  try_catch
    (t ← get tpt;
     if transport_is_open t then
       try_catch (_ ← serve_command; set (set_link_errs 0))
         (fun e => match etype e with
                   | fatal => Throw fatal (errnum e)
                   | nonfatal =>
                       n ← get link_errs;
                       _ ← set (set_link_errs (n + 1));
                       if n + 1 >? MAX_LINK_ERRS then _ ← set (set_link_errs 0); Throw nonfatal (errnum e) else mret ()
                   end)
     else
       _ ← transport_accept;
       cmd ← transport_read_u8;
       if cmd =? RPC_CMD_CON then server_negotiate else Throw nonfatal ERR_COMMAND)
    (fun e => match etype e with
              | fatal => _ ← server_handle_shutdown; deal_with_error (errorString (errnum e))
              | nonfatal => transport_close
              end).
Definition rpc_adispatch_helper : R unit :=
  t ← get tpt;
  r ← transport_readable t;
  if r : bool then rpc_dispatch_helper else
  l ← get ltpt;
  r ← transport_readable l;
  if r : bool then rpc_dispatch_helper else mret ().
(** 1, 0, or nil. *)
Definition rpc_peek : R (option Z) :=
  t ← get tpt;
  l ← get ltpt;
  if transport_is_open t then r ← transport_readable t; mret (if r : bool then Some 1 else None)
  else if transport_is_open l then r ← transport_readable l; mret (if r : bool then Some 1 else None)
  else mret (Some 0).
(** [rounds]: how many commands are awaited at most. *)
Fixpoint rpc_server (rounds : nat) : R unit :=
  match rounds with
  | O => undefined
  | S rounds =>
      l ← get ltpt;
      if transport_is_open l then _ ← rpc_dispatch_helper; rpc_server rounds else server_handle_shutdown
  end.

(** *** Opening and closing *)

Context (platform_uart_exists platform_timer_exists : Z -> bool).
Definition open_fd (fd tmr : Z) (t : Transport) : Transport :=
  mkTpt fd tmr (loc_little t) (loc_intnum t) (net_little t) (net_intnum t) (lnum_bytes t).
Definition number_of (v : value N) : option Z := match v with VNumber x => Some (u32 (ln_to_int x)) | _ => None end.
(** [args]: all of the stack. The uart is set up to 115200 baud. *)
Definition transport_open_connection (args : list (value N)) : R unit :=
  match args with
  | [a1; a2; _] =>
      match number_of a1, number_of a2 with
      | Some uart_id, Some _ =>
          if negb (platform_uart_exists uart_id) then luaL_error (no_such (lit "uart") uart_id)
          else if negb (platform_timer_exists uart_id) then luaL_error (no_such (lit "timer") uart_id)
          else _ ← set (set_buff (-1)); set (fun s => set_tpt (open_fd (s32 uart_id) uart_id (tpt s)) s)
      | None, _ => luaL_error (lit "1st arg must be uart num")
      | _, None => luaL_error (lit "2nd arg must be timer num")
      end
  | _ => luaL_error (lit "must have 3 args")
  end.
Definition transport_open_listener (args : list (value N)) : R unit :=
  match args with
  | [a1; a2; _] =>
      match number_of a1, number_of a2 with
      | Some uart_id, Some tmr_id =>
          if negb (platform_uart_exists uart_id) then luaL_error (lit "invalid uart id")
          else if negb (platform_timer_exists tmr_id) then luaL_error (lit "invalid timer id")
          else set (fun s => mkSide (tpt s) (open_fd (s32 uart_id) tmr_id (ltpt s)) (link_errs s) (adispatch_buff s) (on_error s)
                               (stk s) (lvm s))
      | None, _ => luaL_error (lit "1st arg must be uart num")
      | _, None => luaL_error (lit "2nd arg must be timer num")
      end
  | _ => luaL_error (lit "must have 3 args")
  end.
Definition rpc_listen (args : list (value N)) : R unit :=
  try_catch
    (_ ← set (fun s => mkSide (transport_init (tpt s)) (transport_init (ltpt s)) 0 (adispatch_buff s) (on_error s) (stk s) (lvm s));
     transport_open_listener args)
    (fun e => _ ← server_handle_shutdown; _ ← deal_with_error (errorString (errnum e)); luaL_error (lit "bad handle")).
(** Of a client's handle, or a server's. *)
Definition rpc_close (server : bool) : R unit := if server then server_handle_shutdown else transport_close.
End Calls.
