(* ===== verification/LuarpcSpec.v ===== *)
(** * LuarpcSpec: two sides of a line

    What Luarpc promises: the two sides agree on a representation of numbers;
    a value that one side writes is the value that the other reads; and a call
    through the client is the call of the function on the server. *)

From S2P Require Import Prelude LuaApi Luarpc.

#[local] Set Warnings "-register-all".

(** ** Sending and receiving *)

(** A program that sends bytes and goes on as [p]; one that has received some. *)
Fixpoint sendall {A} (fd : Z) (bs : list Z) (p : io A) : io A :=
  match bs with [] => p | b :: bs => Send fd b (sendall fd bs p) end.
Fixpoint feed {A} (p : io A) (bs : list Z) {struct bs} : option (io A) :=
  match bs with
  | [] => Some p
  | b :: bs => match p with Recv _ _ _ k => feed (k b) bs | _ => None end
  end.
(** Two programs on a line: a byte that one sends is the next one the other
    receives, and none of them waits for ever. *)
Inductive talk {A B} : io A -> io B -> io A -> io B -> Prop :=
  | talk_refl p q : talk p q p q
  | talk_to fd c p fd' tmr timeout k p' q' : talk p (k (u8 c)) p' q' -> talk (Send fd c p) (Recv fd' tmr timeout k) p' q'
  | talk_from fd' tmr timeout k fd c q p' q' : talk (k (u8 c)) q p' q' -> talk (Recv fd' tmr timeout k) (Send fd c q) p' q'.

Lemma talk_trans {A B} (p : io A) (q : io B) p1 q1 p2 q2 : talk p q p1 q1 -> talk p1 q1 p2 q2 -> talk p q p2 q2.
Proof. induction 1; [done| |]; intros H'; constructor; auto. Qed.
Lemma talk_flip {A B} (p : io A) (q : io B) p' q' : talk p q p' q' -> talk q p q' p'.
Proof. induction 1; constructor; auto. Qed.
Lemma talk_send {A B} fd bs (p : io A) (q q' : io B) : Forall is_u8 bs -> feed q bs = Some q' -> talk (sendall fd bs p) q p q'.
Proof.
  intros Hb. revert q. induction Hb as [|b bs Hb _ IH]; intros q; cbn [sendall feed].
  { intros Hq. injection Hq as <-. constructor. }
  destruct q as [a|fd' tmr to k|fd' c q]; [done| |done]. intros Hf. constructor. rewrite u8_small by done. by apply IH.
Qed.
Lemma sendall_app {A} fd a b (p : io A) : sendall fd (a ++ b) p = sendall fd a (sendall fd b p).
Proof. induction a as [|c a IH]; [done|]. cbn [app sendall]. by rewrite IH. Qed.
Lemma sendall_bind {A B} fd bs (p : io A) (f : A -> io B) : io_bind (sendall fd bs p) f = sendall fd bs (io_bind p f).
Proof. induction bs as [|c bs IH]; [done|]. cbn [sendall io_bind]. by rewrite IH. Qed.
Lemma feed_app {A} (p : io A) a b : feed p (a ++ b) = q ← feed p a; feed q b.
Proof.
  revert p. induction a as [|c a IH]; intros p; [reflexivity|]. cbn [app feed]. destruct p; [reflexivity| |reflexivity]. apply IH.
Qed.
Lemma feed_bind {A B} (p : io A) (f : A -> io B) bs r : feed p bs = Some (Ret r) -> feed (io_bind p f) bs = Some (f r).
Proof.
  revert p. induction bs as [|c bs IH]; intros p; cbn [feed].
  { intros Hp. injection Hp as ->. done. }
  destruct p as [a|fd tmr to k|fd c' p]; [done| |done]. cbn [io_bind]. apply IH.
Qed.

(** *** Computations that only send, or only receive *)

Definition sends {N X A} (m : rpc N X A) (s : side N X) (bs : list Z) (a : A) (s' : side N X) : Prop :=
  m s = sendall (fd (tpt s)) bs (Ret (Ok a, s')).
Definition reads {N X A} (m : rpc N X A) (s : side N X) (bs : list Z) (a : A) (s' : side N X) : Prop :=
  feed (m s) bs = Some (Ret (Ok a, s')).

Section Steps.
Context {N X : Type}.
Abbreviation R := (rpc N X).
Implicit Types s : side N X.

Lemma sends_nothing {A} (a : A) s : sends (mret a) s [] a s.
Proof. done. Qed.
Lemma reads_nothing {A} (a : A) s : reads (mret a) s [] a s.
Proof. done. Qed.
(** The connection does not change. *)
Lemma sends_then {A B} (m : R A) (f : A -> R B) s bs a s1 bs' b s2 :
  sends m s bs a s1 -> tpt s1 = tpt s -> sends (f a) s1 bs' b s2 -> sends (m ≫= f) s (bs ++ bs') b s2.
Proof. unfold sends, mbind, rpc_bind. intros -> Ht Hf. rewrite sendall_bind. cbn [io_bind]. by rewrite Hf, Ht, sendall_app. Qed.
Lemma feed_step {A B} (m : R A) (f : A -> R B) s bs a s1 bs' : reads m s bs a s1 -> feed ((m ≫= f) s) (bs ++ bs') = feed (f a s1) bs'.
Proof. unfold reads, mbind, rpc_bind. intros Hm. rewrite feed_app. by rewrite (feed_bind _ _ _ _ Hm). Qed.
Lemma reads_then {A B} (m : R A) (f : A -> R B) s bs a s1 bs' b s2 :
  reads m s bs a s1 -> reads (f a) s1 bs' b s2 -> reads (m ≫= f) s (bs ++ bs') b s2.
Proof. intros Hm Hf. unfold reads. by rewrite (feed_step _ _ _ _ _ _ _ Hm). Qed.
(** A step that does neither. *)
Lemma sends_step {A B} (m : R A) (f : A -> R B) s a s1 bs b s2 :
  m s = Ret (Ok a, s1) -> tpt s1 = tpt s -> sends (f a) s1 bs b s2 -> sends (m ≫= f) s bs b s2.
Proof. intros E Ht H. by apply (sends_then m f s [] a s1 bs b s2). Qed.
Lemma reads_step {A B} (m : R A) (f : A -> R B) s a s1 bs b s2 :
  m s = Ret (Ok a, s1) -> reads (f a) s1 bs b s2 -> reads (m ≫= f) s bs b s2.
Proof. intros E H. apply (reads_then m f s [] a s1 bs b s2); [|done]. unfold reads. by rewrite E. Qed.

(** An open connection without a byte put back. *)
Definition ready s : Prop := fd (tpt s) <> INVALID_TRANSPORT /\ adispatch_buff s < 0.
Lemma verify_open s : ready s -> TRANSPORT_VERIFY_OPEN s = Ret (Ok (), s).
Proof. intros [H _]. unfold TRANSPORT_VERIFY_OPEN, mbind, rpc_bind, get. cbn. by rewrite (proj2 (Z.eqb_neq _ _) H). Qed.
Lemma write_buffer_sends bs s : ready s -> sends (transport_write_buffer bs) s bs () s.
Proof.
  intros Hr. unfold transport_write_buffer. eapply sends_step; [by apply verify_open|done|].
  induction bs as [|b bs IH]; [done|]. cbn [send_loop]. eapply sends_step; [done|done|].
  apply (sends_then _ _ s [b] () s); [done|done|exact IH].
Qed.
Lemma read_bytes_reads bs : forall to s, ready s -> Forall is_u8 bs -> reads (read_bytes (length bs) to) s bs bs s.
Proof.
  induction bs as [|b bs IH]; intros to s Hr Hb; [done|]. apply Forall_cons in Hb as [Hb Hbs].
  cbn [length read_bytes]. eapply reads_step; [by apply verify_open|]. eapply reads_step; [done|]. eapply reads_step; [done|].
  rewrite (proj2 (Z.ltb_lt _ _)) by apply Hr.
  apply (reads_then _ _ s [b] b s); [done|]. rewrite (proj2 (Z.ltb_ge b 0)) by (destruct Hb; lia).
  rewrite <- (app_nil_r bs) at 2. eapply reads_then; [by apply IH|]. rewrite u8_small by done. done.
Qed.
Lemma read_buffer_reads bs s : ready s -> Forall is_u8 bs -> reads (transport_read_buffer (length bs)) s bs bs s.
Proof. apply read_bytes_reads. Qed.
Lemma write_u8_sends x s : ready s -> sends (transport_write_u8 x) s [u8 x] () s.
Proof. intros Hr. eapply sends_step; [by apply verify_open|done|]. by apply write_buffer_sends. Qed.
Lemma read_u8_reads x s : ready s -> is_u8 x -> reads transport_read_u8 s [x] x s.
Proof.
  intros Hr Hx. eapply reads_step; [by apply verify_open|]. apply (reads_then _ _ s [x] [x] s [] x s); [|done].
  apply (read_buffer_reads [x]); [done|]. by constructor.
Qed.

(** *** Words *)

Lemma net_order_stored t machine bs : loc_little t = machine -> net_order t (stored machine bs) = stored (net_little t) bs.
Proof.
  intros <-. unfold net_order, stored. destruct (net_little t), (loc_little t); cbn [eqb negb];
    rewrite ?swap_bytes_reverse, ?reverse_involutive; done.
Qed.
Lemma stored_net_order t machine bs : loc_little t = machine -> stored machine (net_order t (stored (net_little t) bs)) = bs.
Proof.
  intros <-. unfold net_order, stored. destruct (net_little t), (loc_little t); cbn [eqb negb];
    rewrite ?swap_bytes_reverse, ?reverse_involutive; done.
Qed.
End Steps.

(** ** The representation both sides use *)

Record wire := mkWire { w_little : bool; w_int : bool; w_size : Z }.
Definition wire_of (t : Transport) : wire := mkWire (net_little t) (net_intnum t) (lnum_bytes t).
(** A side on a machine, connected, that uses [w]. *)
Record on_wire {N X} {num : LuaNumber N} (machine : bool) (w : wire) (s : side N X) : Prop := {
  ow_ready : ready s;
  ow_little : loc_little (tpt s) = machine;
  ow_int : loc_intnum (tpt s) = ln_integral;
  ow_wire : wire_of (tpt s) = w
}.
(** When a side can write, and read, numbers of a representation. *)
Definition can_write_numbers (N : Type) {num : LuaNumber N} (w : wire) : Prop :=
  if w_int w then is_int_size (w_size w) = true else ln_size = 8%nat /\ w_size w = 8.
Definition can_read_numbers (N : Type) {num : LuaNumber N} (w : wire) : Prop :=
  if w_int w then is_int_size (w_size w) = true /\ (ln_integral = true -> w_size w = Z.of_nat ln_size)
  else ln_integral = false /\ w_size w = Z.of_nat ln_size.

Section Words.
Context {N X : Type} {num : LuaNumber N} (machine : bool) (w : wire).
Implicit Types s : side N X.

Definition word_bytes (x : Z) : list Z := stored (w_little w) (le_bytes 4 (u32 x)).
Lemma word_bytes_u8 x : Forall is_u8 (word_bytes x).
Proof. apply stored_bytes, le_bytes_u8. Qed.
Lemma write_u32_sends x s : on_wire machine w s -> sends (transport_write_u32 machine x) s (word_bytes x) () s.
Proof.
  intros H. eapply sends_step; [apply verify_open, H|done|]. eapply sends_step; [done|done|].
  rewrite net_order_stored by apply H. unfold word_bytes. rewrite <- (ow_wire _ _ _ H). apply write_buffer_sends, H.
Qed.
Lemma read_u32_reads x s : on_wire machine w s -> reads (transport_read_u32 machine) s (word_bytes x) (u32 x) s.
Proof.
  intros H. eapply reads_step; [apply verify_open, H|]. rewrite <- (app_nil_r (word_bytes x)).
  apply (reads_then _ _ s (word_bytes x) (word_bytes x) s).
  - replace 4%nat with (length (word_bytes x)) by (unfold word_bytes; by rewrite stored_length, le_bytes_length).
    apply read_buffer_reads; [apply H|apply word_bytes_u8].
  - eapply reads_step; [done|]. unfold word_bytes, reads. rewrite <- (ow_wire _ _ _ H). cbn [wire_of w_little].
    rewrite stored_net_order by apply H. rewrite le_value_bytes. change (8 * Z.of_nat 4) with 32. by rewrite u32_u32.
Qed.

(** *** Numbers *)

Definition number_bytes (x : N) : list Z :=
  stored (w_little w) (if w_int w then le_bytes (Z.to_nat (w_size w)) (ln_to_int x) else ln_bytes x).
Lemma number_bytes_u8 {laws : NumberLaws N} x : Forall is_u8 (number_bytes x).
Proof. apply stored_bytes. destruct (w_int w); [apply le_bytes_u8|apply nl_bytes]. Qed.
Lemma write_number_sends x s : on_wire machine w s -> can_write_numbers N w ->
  sends (transport_write_number machine x) s (number_bytes x) () s.
Proof.
  intros H Hw. eapply sends_step; [apply verify_open, H|done|]. eapply sends_step; [done|done|].
  unfold number_bytes, can_write_numbers in *. rewrite <- (ow_wire _ _ _ H) in *. cbn [wire_of w_int w_little w_size] in *.
  destruct (net_intnum (tpt s)).
  - rewrite Hw. rewrite net_order_stored by apply H. apply write_buffer_sends, H.
  - rewrite (proj1 Hw). cbn [Nat.eqb negb]. rewrite net_order_stored by apply H. apply write_buffer_sends, H.
Qed.
End Words.

(** The number that a side reads when another wrote [x]. *)
Definition received {NA NB} {na : LuaNumber NA} {nb : LuaNumber NB} (w : wire) (x : NA) : NB :=
  if w_int w then ln_of_int (swrap (8 * w_size w) (ln_to_int x)) else ln_of_bytes (ln_bytes x).
Lemma int_size_nat n : is_int_size n = true -> 0 <= n.
Proof. unfold is_int_size. rewrite !orb_true_iff, !Z.eqb_eq. lia. Qed.
Lemma read_number_reads {NA NB X} {na : LuaNumber NA} {nb : LuaNumber NB} {la : NumberLaws NA} {lb : NumberLaws NB} machine w
    (x : NA) (s : side NB X) : on_wire machine w s -> can_write_numbers NA w -> can_read_numbers NB w ->
  reads (transport_read_number machine) s (number_bytes w x) (received w x) s.
Proof.
  intros H Hw Hr. eapply reads_step; [apply verify_open, H|]. eapply reads_step; [done|]. cbv zeta.
  rewrite <- (app_nil_r (number_bytes w x)).
  assert (Hl : length (number_bytes w x) = Z.to_nat (lnum_bytes (tpt s))).
  { unfold number_bytes, can_write_numbers in *. rewrite stored_length. rewrite <- (ow_wire _ _ _ H) in *. cbn [wire_of w_int w_size] in *.
    destruct (net_intnum (tpt s)); [apply le_bytes_length|]. rewrite nl_length. lia. }
  rewrite <- Hl.
  eapply (reads_then _ _ s _ (number_bytes w x) s); [apply read_buffer_reads; [apply H|apply (number_bytes_u8 w x)]|].
  unfold reads, number_bytes, received, can_write_numbers, can_read_numbers in *. rewrite <- (ow_wire _ _ _ H) in *.
  cbn [wire_of w_int w_little w_size] in *. rewrite (ow_int _ _ _ H).
  rewrite stored_length in Hl.
  assert (Ho : forall b, length (net_order (tpt s) (stored (net_little (tpt s)) b)) = length b).
  { intros b. unfold net_order. destruct (negb _); rewrite ?swap_bytes_reverse, ?length_reverse; apply stored_length. }
  assert (Ht : forall b, ln_size = length b -> take ln_size (net_order (tpt s) (stored (net_little (tpt s)) b)) =
      net_order (tpt s) (stored (net_little (tpt s)) b)) by (intros b Hb; apply take_ge; rewrite Ho; lia).
  destruct (net_intnum (tpt s)).
  - destruct Hr as [Hs Hi]. pose proof (int_size_nat _ Hs). destruct (ln_integral) eqn:Ei; cbn [eqb negb].
    + rewrite Ho, le_bytes_length. rewrite Hi, Nat2Z.id by done. rewrite (proj2 (Nat.ltb_ge _ _)) by lia.
      rewrite Ht by (by rewrite le_bytes_length). rewrite stored_net_order by apply H. by rewrite nl_int.
    + rewrite Hs. rewrite stored_net_order by apply H. rewrite le_value_bytes, Z2Nat.id, swrap_wrap by done. done.
  - destruct Hr as [Hi Hs]. rewrite Hi. cbn [eqb negb].
    assert (Hz : length (ln_bytes x) = ln_size (N := NB)) by lia.
    rewrite Ho, Hz, Nat.ltb_irrefl. rewrite Ht by done. by rewrite stored_net_order by apply H.
Qed.

(** ** Values as trees *)

(** What is sent of a value: tables by their contents. Functions are not
    values of this kind. *)
Inductive scalar (N : Type) := SNumber (n : N) | SBoolean (b : bool) | SString (s : list Z).
Arguments SNumber {N} n. Arguments SBoolean {N} b. Arguments SString {N} s.
Inductive tree (N : Type) := TNil | TScalar (k : scalar N) | TTable (es : list (scalar N * tree N)).
Arguments TNil {N}. Arguments TScalar {N} k. Arguments TTable {N} es.
Definition scalar_value {N} (k : scalar N) : value N :=
  match k with SNumber n => VNumber n | SBoolean b => VBoolean b | SString s => VString s end.
(** A value in a heap, whose tables are not below [lo]: the entries of a table are in
    any order. *)
Inductive denotes {N} (lo : nat) (h : list (entries N)) : value N -> tree N -> Prop :=
  | denotes_nil : denotes lo h VNil TNil
  | denotes_scalar k : denotes lo h (scalar_value k) (TScalar k)
  | denotes_table r es es' ts : (lo <= r)%nat -> h !! r = Some es -> es ≡ₚ es' ->
      Forall2 (fun e t => e.1 = scalar_value t.1 /\ denotes lo h e.2 t.2) es' ts -> denotes lo h (VTable r) (TTable ts).
(** Strings have a length; tables have one entry for a key, no nil and no NaN. *)
Definition scalar_ok {N} (k : scalar N) : Prop :=
  match k with SString s => Forall is_u8 s /\ strlen s < 2 ^ 31 | _ => True end.
Definition is_nil {N} (t : tree N) : bool := match t with TNil => true | _ => false end.
Definition differ {N} {num : LuaNumber N} (a b : scalar N) : Prop :=
  raw_eq (scalar_value a) (scalar_value b) = false /\ raw_eq (scalar_value b) (scalar_value a) = false.
Inductive tree_ok {N} {num : LuaNumber N} : tree N -> Prop :=
  | nil_ok : tree_ok TNil
  | scalar_tree_ok k : scalar_ok k -> tree_ok (TScalar k)
  | table_ok ts : ForallOrdPairs differ (map fst ts) ->
      Forall (fun t => scalar_ok t.1 /\ is_nan_value (scalar_value t.1) = false /\ is_nil t.2 = false /\ tree_ok t.2) ts -> tree_ok (TTable ts).
Definition map_scalar {NA NB} (f : NA -> NB) (k : scalar NA) : scalar NB :=
  match k with SNumber n => SNumber (f n) | SBoolean b => SBoolean b | SString s => SString s end.
Fixpoint map_tree {NA NB} (f : NA -> NB) (t : tree NA) : tree NB :=
  match t with
  | TNil => TNil
  | TScalar k => TScalar (map_scalar f k)
  | TTable ts => TTable (map (fun t => (map_scalar f t.1, map_tree f t.2)) ts)
  end.
Fixpoint depth {N} (t : tree N) : nat :=
  match t with TTable ts => S (foldr (fun t n => Nat.max (depth t.2) n) 1%nat ts) | _ => 1 end.
(** Fuel for reading: depth, and the length of tables. *)
Fixpoint need {N} (t : tree N) : nat :=
  match t with TTable ts => S (foldr (fun t n => Nat.max (need t.2) n) (S (length ts)) ts) | _ => 1 end.

Lemma tree_all_ind {N} (P : tree N -> Prop) : P TNil -> (forall k, P (TScalar k)) ->
  (forall ts, Forall (fun t => P t.2) ts -> P (TTable ts)) -> forall t, P t.
Proof.
  intros Hn Hk Ht. fix go 1. intros [|k|ts]; [apply Hn|apply Hk|apply Ht].
  induction ts as [|[k t] ts IH]; constructor; [apply go|apply IH].
Qed.

Lemma depth_pos {N} (t : tree N) : (1 <= depth t)%nat.
Proof. destruct t; cbn [depth]; lia. Qed.
Lemma need_pos {N} (t : tree N) : (1 <= need t)%nat.
Proof. destruct t; cbn [need]; lia. Qed.

Lemma foldr_max_le {A} (f : A -> nat) l a n : (foldr (fun x m => Nat.max (f x) m) a l <= n)%nat ->
  Forall (fun x => (f x <= n)%nat) l /\ (a <= n)%nat.
Proof.
  intros H. induction l as [|x l IH]; cbn [foldr] in H; [done|]. destruct IH as [IH Ha]; [lia|]. split; [constructor; [lia|done]|done].
Qed.

(** What is on the line. *)
Section Encoding.
Context {N : Type} {num : LuaNumber N} (w : wire).
Definition string_bytes (s : list Z) : list Z := word_bytes w (strlen s) ++ s.
Definition encode_scalar (k : scalar N) : list Z :=
  match k with
  | SNumber n => RPC_NUMBER :: number_bytes w n
  | SBoolean b => [RPC_BOOLEAN; Z.b2z b]
  | SString s => RPC_STRING :: string_bytes s
  end.
Fixpoint encode (t : tree N) : list Z :=
  match t with
  | TNil => [RPC_NIL]
  | TScalar k => encode_scalar k
  | TTable ts => RPC_TABLE :: flat_map (fun t => encode_scalar t.1 ++ encode t.2) ts ++ [RPC_TABLE_END]
  end.
Context {laws : NumberLaws N}.
Lemma encode_scalar_u8 k : scalar_ok k -> Forall is_u8 (encode_scalar k).
Proof.
  destruct k as [n|b|s]; cbn [encode_scalar scalar_ok]; intros H.
  - apply Forall_cons. split; [done|apply (number_bytes_u8 w n)].
  - apply Forall_cons. split; [done|]. by destruct b; apply Forall_singleton.
  - apply Forall_cons. split; [done|]. apply Forall_app. split; [apply word_bytes_u8|apply H].
Qed.
Lemma encode_u8 t : tree_ok t -> Forall is_u8 (encode t).
Proof.
  induction t as [|k|ts IH] using tree_all_ind; intros Ht; inversion_clear Ht; cbn [encode]; [by apply Forall_singleton|by apply encode_scalar_u8|].
  constructor; [done|]. apply Forall_app. split; [|by apply Forall_singleton].
  clear H. induction IH as [|t ts Ht _ IH]; [constructor|]. apply Forall_cons in H0 as [(Hk & _ & _ & Hv) H0]. cbn [flat_map].
  rewrite !Forall_app. split; [split; [by apply encode_scalar_u8|by apply Ht]|by apply IH].
Qed.
Lemma encode_all_u8 ts : Forall tree_ok ts -> Forall is_u8 (flat_map encode ts).
Proof. induction 1; cbn [flat_map]; [constructor|]. apply Forall_app. split; [by apply encode_u8|done]. Qed.
End Encoding.

(** ** The order of a traversal *)

(** A traversal goes through what is in the table. *)
Class NextLaws (N X : Type) {vm : LuaVM N X} : Prop := {
  next_all r (l : lua N X) es : heap l !! r = Some es -> vm_next r l ≡ₚ es
}.
(** A value with the entries of its tables as they are traversed. *)
Inductive traversed {N X} {vm : LuaVM N X} (l : lua N X) : value N -> tree N -> Prop :=
  | traversed_nil : traversed l VNil TNil
  | traversed_scalar k : traversed l (scalar_value k) (TScalar k)
  | traversed_table r es ts : heap l !! r = Some es ->
      Forall2 (fun e t => e.1 = scalar_value t.1 /\ traversed l e.2 t.2) (vm_next r l) ts -> traversed l (VTable r) (TTable ts).
(** The same tables with their entries in another order. *)
Inductive shuffled {N} : tree N -> tree N -> Prop :=
  | shuffled_nil : shuffled TNil TNil
  | shuffled_scalar k : shuffled (TScalar k) (TScalar k)
  | shuffled_table ts us us' : Forall2 (fun a b => a.1 = b.1 /\ shuffled a.2 b.2) ts us -> us ≡ₚ us' -> shuffled (TTable ts) (TTable us').

Lemma denotes_traversed {N X} {vm : LuaVM N X} {laws : NextLaws N X} lo (l : lua N X) t : forall v, denotes lo (heap l) v t ->
  exists u, traversed l v u /\ shuffled t u.
Proof.
  induction t as [|k|ts IH] using tree_all_ind; intros v Hv; inversion Hv as [|?|r es es' ts' Hlo Hr Hp He]; subst.
  - exists TNil. split; constructor.
  - exists (TScalar k). split; constructor.
  - assert (exists us, Forall2 (fun e u => e.1 = scalar_value u.1 /\ traversed l e.2 u.2) es' us /\ Forall2 (fun a b => a.1 = b.1 /\ shuffled a.2 b.2) ts us)
      as (us & Hus & Hts).
    { clear Hv Hp. induction He as [|e [k t] es' ts [Hk Hd] _ IHe]; [by exists []|]. apply Forall_cons in IH as [IHt IH].
      destruct (IHt _ Hd) as (u & Hu & Hs). destruct (IHe IH) as (us & Hus & Hts). exists ((k, u) :: us). split; by constructor. }
    assert (Hp' : es' ≡ₚ vm_next r l) by (rewrite (next_all r l es Hr); by symmetry).
    destruct (Permutation_Forall2 Hp' Hus) as (us' & Hpu & Hus'). exists (TTable us'). split; [by eapply traversed_table|by eapply shuffled_table].
Qed.
Lemma denotes_shuffled {N} lo (h : list (entries N)) t : forall u v, shuffled t u -> denotes lo h v u -> denotes lo h v t.
Proof.
  induction t as [|k|ts IH] using tree_all_ind; intros u v Hs Hv; inversion Hs as [| |? us us' Hts Hpu]; subst; try done.
  inversion Hv as [|?|r es es' ts' Hlo Hr Hp He]; subst.
  destruct (Permutation_Forall2 (symmetry Hpu) (proj2 (Forall2_flip _ _ _) He)) as (es2 & Hp2 & He2%Forall2_flip).
  apply (denotes_table _ _ r es es2); [done|done|by rewrite Hp|]. clear -IH Hts He2. revert es2 He2.
  induction Hts as [|[k t] [k' u] ts us [Hk Hs] _ IHt]; intros es2 He2; inversion He2 as [|? [k2 v] ? es3 [Hk2 Hd] He3]; subst; constructor.
  - apply Forall_cons in IH as [IH _]. cbn [fst snd] in *. subst. split; [done|]. by eapply IH.
  - apply Forall_cons in IH as [_ IH]. by apply IHt.
Qed.

Lemma ordpairs_perm {A} (R : A -> A -> Prop) l l' : (forall a b, R a b -> R b a) -> l ≡ₚ l' -> ForallOrdPairs R l -> ForallOrdPairs R l'.
Proof.
  intros HR. induction 1 as [|x l l' Hp IH|x y l|l l2 l' _ IH1 _ IH2]; intros H; [done|..|by auto].
  - inversion_clear H as [|? ? Hx Hl]. constructor; [|by apply IH]. by rewrite <- Hp.
  - inversion_clear H as [|? ? Hy H']. inversion_clear H' as [|? ? Hx Hl]. apply Forall_cons in Hy as [Hyx Hyl].
    repeat constructor; auto.
Qed.
Lemma differ_pairs {N} {num : LuaNumber N} {B} (ts : list (scalar N * B)) : ForallOrdPairs differ (map fst ts) ->
  ForallOrdPairs (fun a b => raw_eq (scalar_value b.1) (scalar_value a.1) = false) ts.
Proof.
  induction ts as [|t ts IH]; intros H; inversion_clear H as [|? ? Ht Hts]; constructor; [|by apply IH].
  eapply Forall_impl; [exact (proj1 (List.Forall_map _ _ _) Ht)|]. by intros u [_ ?].
Qed.
Lemma shuffled_is_nil {N} (t u : tree N) : shuffled t u -> is_nil u = is_nil t.
Proof. by intros []. Qed.
Lemma shuffled_ok {N} {num : LuaNumber N} t : forall u, shuffled t u -> tree_ok t -> tree_ok u.
Proof.
  induction t as [|k|ts IH] using tree_all_ind; intros u Hs Ht; inversion Hs as [| |? us us' Hts Hpu]; subst; try done.
  inversion_clear Ht as [| |? Hd Hok]. constructor.
  - eapply ordpairs_perm; [by intros a b [? ?]|by apply Permutation_map|]. replace (map fst us) with (map fst ts); [done|].
    clear -Hts. induction Hts as [|? ? ? ? [? _] _ IH]; cbn [map]; congruence.
  - rewrite <- Hpu. clear -IH Hts Hok. induction Hts as [|[k t] [k' u] ts us [Hk Hs] _ IHt]; [constructor|].
    apply Forall_cons in IH as [IH1 IH]. apply Forall_cons in Hok as [(H1 & H2 & H3 & H4) Hok]. cbn [fst snd] in *. subst k'.
    constructor; [|by apply IHt]. cbn [fst snd]. rewrite (shuffled_is_nil _ _ Hs). auto.
Qed.
Lemma shuffled_map {NA NB} (f : NA -> NB) t : forall u, shuffled t u -> shuffled (map_tree f t) (map_tree f u).
Proof.
  induction t as [|k|ts IH] using tree_all_ind; intros u Hs; inversion Hs as [| |? us us' Hts Hpu]; subst; cbn [map_tree]; [constructor..|].
  eapply shuffled_table; [|by apply Permutation_map]. clear -IH Hts. induction Hts as [|[k t] [k' u] ts us [Hk Hs] _ IHt]; cbn [map]; constructor.
  - apply Forall_cons in IH as [IH _]. cbn [fst snd] in *. subst. split; [done|]. by apply IH.
  - apply Forall_cons in IH as [_ IH]. by apply IHt.
Qed.
(** A measure by the largest part, such as the depth. *)
Lemma foldr_max_shuffled {N} (f : tree N -> nat) (ts us us' : list (scalar N * tree N)) a :
  Forall2 (fun x y => (f y.2 <= f x.2)%nat) ts us -> us ≡ₚ us' ->
  (foldr (fun t n => Nat.max (f t.2) n) a us' <= foldr (fun t n => Nat.max (f t.2) n) a ts)%nat.
Proof.
  intros H Hp. assert (Hs : foldr (fun t n => Nat.max (f t.2) n) a us = foldr (fun t n => Nat.max (f t.2) n) a us').
  { clear H. induction Hp as [|x l l' _ IH|x y l|l l2 l' _ IH1 _ IH2]; cbn [foldr]; [done|by rewrite IH|lia|by rewrite IH1]. }
  rewrite <- Hs. clear Hs Hp. induction H as [|x y ts us Hxy _ IH]; cbn [foldr]; lia.
Qed.
Lemma shuffled_depth {N} (t : tree N) : forall u, shuffled t u -> (depth u <= depth t)%nat.
Proof.
  induction t as [|k|ts IH] using tree_all_ind; intros u Hs; inversion Hs as [| |? us us' Hts Hpu]; subst; cbn [depth]; [lia..|].
  apply le_n_S, (foldr_max_shuffled depth ts us us'); [|done]. clear -IH Hts.
  induction Hts as [|? ? ? ? [_ Hs] _ IHt]; [constructor|]. apply Forall_cons in IH as [IH1 IH]. constructor; [by apply IH1|by apply IHt].
Qed.
Lemma shuffled_need {N} (t : tree N) : forall u, shuffled t u -> (need u <= need t)%nat.
Proof.
  induction t as [|k|ts IH] using tree_all_ind; intros u Hs; inversion Hs as [| |? us us' Hts Hpu]; subst; cbn [need]; [lia..|].
  rewrite <- (Permutation_length Hpu), <- (Forall2_length _ _ _ Hts).
  apply le_n_S, (foldr_max_shuffled need ts us us'); [|done]. clear -IH Hts.
  induction Hts as [|? ? ? ? [_ Hs] _ IHt]; [constructor|]. apply Forall_cons in IH as [IH1 IH]. constructor; [by apply IH1|by apply IHt].
Qed.

(** ** Writing a value *)

Section Writing.
Context {N X : Type} {num : LuaNumber N} {lvm_ : LuaVM N X} (machine : bool) (w : wire) (Hw : can_write_numbers N w).
Implicit Types s : side N X.
Abbreviation write := (write_variable (N := N) (X := X) machine).

Lemma on_wire_ready s : on_wire machine w s -> ready s.
Proof. by intros []. Qed.
Hint Resolve on_wire_ready write_u8_sends write_buffer_sends write_u32_sends write_number_sends : core.

Lemma write_string_sends x s : on_wire machine w s -> sends (write_string machine x) s (RPC_STRING :: string_bytes w x) () s.
Proof.
  intros H. apply (sends_then _ _ s [RPC_STRING] () s); [by apply write_u8_sends; auto|done|].
  eapply sends_then; [by apply write_u32_sends|done|]. by apply write_buffer_sends; auto.
Qed.
Lemma write_scalar_sends fuel k s : on_wire machine w s -> sends (write (S fuel) (scalar_value k)) s (encode_scalar w k) () s.
Proof.
  intros H. destruct k as [n|b|x]; cbn [scalar_value write_variable encode_scalar].
  - apply (sends_then _ _ s [RPC_NUMBER] () s); [by apply write_u8_sends; auto|done|]. auto.
  - apply (sends_then _ _ s [RPC_BOOLEAN] () s [Z.b2z b]); [by apply write_u8_sends; auto|done|].
    rewrite <- (u8_small (Z.b2z b)) at 2 by (by destruct b). auto.
  - by apply write_string_sends.
Qed.
Lemma write_sends t : forall fuel v s, on_wire machine w s -> (depth t <= fuel)%nat -> traversed (lvm s) v t ->
  sends (write fuel v) s (encode w t) () s.
Proof.
  induction t as [|k|ts IH] using tree_all_ind; intros fuel v s H Hf Hv; inversion Hv as [|?|r es ts' Hr He]; subst;
    (destruct fuel as [|fuel]; cbn [depth] in Hf; [lia|]).
  - by apply write_u8_sends; auto.
  - by apply write_scalar_sends.
  - cbn [write_variable encode]. apply (sends_then _ _ s [RPC_TABLE] () s); [by apply write_u8_sends; auto|done|].
    eapply sends_step; [done|done|]. rewrite Hr. eapply sends_step; [done|done|].
    eapply sends_then; [|done|by apply write_u8_sends; auto].
    clear Hv Hr. revert ts IH Hf He. generalize (vm_next r (lvm s)). clear es. intros es. induction es as [|[k v] es IHes]; intros [|[k' t] ts] IH Hf He; inversion He as [|???? [Hk Hv] Hes]; subst; [done|].
    apply Forall_cons in IH as [IHt IHts]. cbn [flat_map fst snd foldr write_entries] in *. rewrite <- app_assoc.
    pose proof (depth_pos t). destruct fuel as [|fuel]; [lia|]. rewrite Hk.
    eapply sends_then; [by apply write_scalar_sends|done|]. eapply sends_then; [apply IHt; [done|lia|done]|done|].
    apply IHes; [done|lia|done].
Qed.
Lemma write_variables_sends ts : forall fuel vs s, on_wire machine w s -> Forall (fun t => (depth t <= fuel)%nat) ts ->
  Forall2 (traversed (lvm s)) vs ts -> sends (write_variables machine fuel vs) s (flat_map (encode w) ts) () s.
Proof.
  intros fuel vs s H Hf Hv. induction Hv as [|v t vs ts Hv _ IH]; [done|]. apply Forall_cons in Hf as [Ht Hf].
  cbn [write_variables flat_map]. eapply sends_then; [by eapply write_sends|done|]. by apply IH.
Qed.
End Writing.

(** ** Reading a value *)

Lemma denotes_mono {N} (lo lo' : nat) (h h' : list (entries N)) t : (lo' <= lo)%nat ->
  (forall r es, (lo <= r)%nat -> h !! r = Some es -> h' !! r = Some es) -> forall v, denotes lo h v t -> denotes lo' h' v t.
Proof.
  intros Hlo Hh. induction t as [|k|ts IH] using tree_all_ind; intros v Hv; inversion Hv as [|?|r es es' ts' Hr Hl Hp He]; subst;
    [constructor|constructor|].
  apply (denotes_table _ _ r es es'); [lia|by apply Hh|done|]. clear Hv Hl Hp.
  induction He as [|[k v] [k' t] es' ts [Hk Hv] _ IHe]; [constructor|]. apply Forall_cons in IH as [IHt IH].
  constructor; [|by apply IHe]. split; [done|]. by apply IHt.
Qed.
Lemma set_entry_fresh {N} {num : LuaNumber N} (es : entries N) k v : Forall (fun e => raw_eq k e.1 = false) es -> v <> VNil ->
  set_entry es k v = es ++ [(k, v)].
Proof.
  intros H Hv. induction H as [|[k' v'] es Hk _ IH]; cbn [set_entry app]; [by destruct v|]. cbn [fst] in Hk. by rewrite Hk, IH.
Qed.
Lemma denotes_not_nil {N} lo h (v : value N) t : denotes lo h v t -> is_nil t = false -> v <> VNil.
Proof. intros []; try done. by destruct k. Qed.
Lemma map_tree_nil {NA NB} (f : NA -> NB) t : is_nil (map_tree f t) = is_nil t.
Proof. by destruct t. Qed.

Section Reading.
Context {NA NB X : Type} {na : LuaNumber NA} {nb : LuaNumber NB} {la : NumberLaws NA} {lb : NumberLaws NB}
  {lvm_ : LuaVM NB X} (machine : bool) (w : wire) (Hw : can_write_numbers NA w) (Hr : can_read_numbers NB w).
Implicit Types s : side NB X.
Abbreviation read := (read_variable (N := NB) (X := X) machine).
Abbreviation cv := (received w : NA -> NB).

(** [ext]: new tables; [vs]: what was put on the stack. *)
Definition grown s (ext : list (entries NB)) (vs : list (value NB)) : side NB X :=
  set_lua (mkLua (heap (lvm s) ++ ext) (rest (lvm s))) (set_stk (vs ++ stk s) s).
Lemma on_wire_grown s ext vs : on_wire machine w s -> on_wire machine w (grown s ext vs).
Proof. by intros []. Qed.
Lemma grown_nil s : grown s [] [] = s.
Proof. unfold grown. rewrite app_nil_r. by destruct s as [? ? ? ? ? ? []]. Qed.
Lemma grown_grown s ext vs ext' vs' : grown (grown s ext vs) ext' vs' = grown s (ext ++ ext') (vs' ++ vs).
Proof. unfold grown, set_lua, set_stk. cbn. by rewrite <- !app_assoc. Qed.
Lemma grown_stk s vs : grown s [] vs = set_stk (vs ++ stk s) s.
Proof. unfold grown. rewrite app_nil_r. by destruct s as [? ? ? ? ? ? []]. Qed.

Lemma read_text_reads x s : on_wire machine w s -> Forall is_u8 x -> strlen x < 2 ^ 31 ->
  reads (read_text machine) s (string_bytes w x) x s.
Proof.
  intros H Hx Hl. assert (0 <= strlen x) by (unfold strlen; lia).
  eapply reads_then; [by apply read_u32_reads|]. rewrite u32_small by (unfold is_u; lia). unfold transport_read_string.
  rewrite s32_small by done. rewrite <- (app_nil_r x) at 2. apply (reads_then _ _ s x x s [] x s).
  - unfold strlen. rewrite Nat2Z.id. apply read_buffer_reads; [apply H|done].
  - unfold strlen. by rewrite Z.ltb_irrefl.
Qed.
Lemma read_scalar_reads fuel k s : on_wire machine w s -> scalar_ok k ->
  reads (read (S fuel)) s (encode_scalar w k) true (grown s [] [scalar_value (map_scalar cv k)]).
Proof.
  intros H Hk. rewrite grown_stk. destruct k as [n|b|x]; cbn [encode_scalar read_variable].
  - apply (reads_then _ _ s [RPC_NUMBER] RPC_NUMBER s); [by apply read_u8_reads; [apply H|]|]. cbn.
    rewrite <- (app_nil_r (number_bytes w n)). eapply reads_then; [by apply read_number_reads|done].
  - apply (reads_then _ _ s [RPC_BOOLEAN] RPC_BOOLEAN s); [by apply read_u8_reads; [apply H|]|]. cbn.
    apply (reads_then _ _ s [Z.b2z b] (Z.b2z b) s []); [by apply read_u8_reads; [apply H|destruct b]|by destruct b].
  - apply (reads_then _ _ s [RPC_STRING] RPC_STRING s); [by apply read_u8_reads; [apply H|]|]. cbn.
    rewrite <- (app_nil_r (string_bytes w x)). eapply reads_then; [by apply read_text_reads; destruct Hk|done].
Qed.

(** While a table is read: [es], its entries so far; [ext], the tables in it. *)
Definition tstate s (es : entries NB) (ext : list (entries NB)) : side NB X :=
  grown s (es :: ext) [VTable (length (heap (lvm s)))].
Lemma rawset_run s es ext k v : k <> VNil -> is_nan_value k = false -> v <> VNil -> Forall (fun e => raw_eq k e.1 = false) es ->
  rawset (S (length (stk s))) (grown (tstate s es ext) [] [v; k]) = Ret (Ok (), tstate s (es ++ [(k, v)]) ext).
Proof.
  intros Hk Hnan Hv Hes. unfold rawset, mbind, rpc_bind. cbn [get io_bind tstate grown set_lua set_stk stk lvm heap rest app].
  assert (Ha : reverse (v :: k :: VTable (length (heap (lvm s))) :: stk s) !! (S (length (stk s)) - 1)%nat =
    Some (VTable (length (heap (lvm s))))).
  { rewrite !reverse_cons, <- !app_assoc. rewrite lookup_app_r; rewrite length_reverse; [|lia].
    by replace (S (length (stk s)) - 1 - length (stk s))%nat with 0%nat by lia. }
  unfold at_index, mbind, rpc_bind. cbn [get io_bind].
  change (stk (grown (tstate s es ext) [] [v; k])) with (v :: k :: VTable (length (heap (lvm s))) :: stk s). rewrite Ha. cbn [of_opt mret rpc_ret io_bind].
  assert (Hh : ((heap (lvm s) ++ es :: ext) ++ []) !! length (heap (lvm s)) = Some es).
  { rewrite app_nil_r. by rewrite list_lookup_middle. }
  assert (Hi : <[length (heap (lvm s)) := set_entry es k v]> ((heap (lvm s) ++ es :: ext) ++ []) =
     heap (lvm s) ++ (es ++ [(k, v)]) :: ext).
  { rewrite app_nil_r, set_entry_fresh by done. rewrite insert_app_r_alt by lia. by rewrite Nat.sub_diag. }
  assert (is_nil_value k = false) as -> by (by destruct k). rewrite Hnan. cbn [get io_bind].
  change (heap (lvm (grown (tstate s es ext) [] ?a))) with ((heap (lvm s) ++ es :: ext) ++ []). rewrite Hh.
  cbn [of_opt mret rpc_ret io_bind set]. by rewrite Hi.
Qed.
(** What [read_variable] does with the bytes of [t]. *)
Definition reads_tree (fuel : nat) (t : tree NA) : Prop := forall s, on_wire machine w s ->
  exists v ext, reads (read fuel) s (encode w t) true (grown s ext [v]) /\
    denotes (length (heap (lvm s))) (heap (lvm s) ++ ext) v (map_tree cv t).
Abbreviation entry_bytes := (fun t : scalar NA * tree NA => encode_scalar w t.1 ++ encode w t.2).
Abbreviation cv_entry := (fun t : scalar NA * tree NA => (map_scalar cv t.1, map_tree cv t.2)).
Lemma scalar_not_nil {N} (k : scalar N) : scalar_value k <> VNil.
Proof. by destruct k. Qed.
Lemma read_table_reads fuel ts s : on_wire machine w s ->
  Forall (fun t => scalar_ok t.1 /\ is_nan_value (scalar_value (map_scalar cv t.1)) = false /\ is_nil t.2 = false /\ reads_tree (S fuel) t.2) ts ->
  ForallOrdPairs (fun a b => raw_eq (scalar_value b.1) (scalar_value a.1) = false) (map cv_entry ts) ->
  forall n es ext, (length ts < n)%nat ->
  Forall (fun e => Forall (fun t => raw_eq (scalar_value (map_scalar cv t.1)) e.1 = false) ts) es ->
  exists es' ext', reads (read_table (read (S fuel)) n (S (length (stk s)))) (tstate s es ext)
      (flat_map entry_bytes ts ++ [RPC_TABLE_END]) () (tstate s (es ++ es') (ext ++ ext')) /\
    Forall2 (fun e t => e.1 = scalar_value t.1 /\
      denotes (S (length (heap (lvm s)))) (heap (lvm s) ++ (es ++ es') :: ext ++ ext') e.2 t.2) es' (map cv_entry ts).
Proof.
  intros H Hts. induction Hts as [|[k t] ts (Hk & Hnan & Hn & Ht) _ IH]; intros Hd [|n] es ext Hl Hes; [cbn in Hl; lia| |cbn in Hl; lia|].
  { exists [], []. rewrite !app_nil_r. split; [|constructor]. cbn [flat_map app read_table].
    apply (reads_then _ _ _ [RPC_TABLE_END] false (tstate s es ext) [] ()); [|done]. cbn [read_variable].
    apply (reads_then _ _ _ [RPC_TABLE_END] RPC_TABLE_END (tstate s es ext) [] false); [|done].
    apply read_u8_reads; [|done]. by apply (on_wire_ready machine w), on_wire_grown. }
  cbn [flat_map map fst snd length] in *. inversion Hd as [|? ? Hdk Hd']; subst. cbn [fst snd] in *.
  set (k' := scalar_value (map_scalar cv k)) in *.
  assert (Hs1 : on_wire machine w (tstate s es ext)) by by apply on_wire_grown.
  pose proof (read_scalar_reads fuel k _ Hs1 Hk) as Hrk. fold k' in Hrk.
  destruct (Ht (grown (tstate s es ext) [] [k'])) as (v & ext1 & Hrv & Hv); [by apply on_wire_grown|].
  assert (Hnv : v <> VNil) by (eapply denotes_not_nil; [done|by rewrite map_tree_nil]).
  rewrite grown_grown in Hrv. cbn [app] in Hrv.
  destruct (IH Hd' n (es ++ [(k', v)]) (ext ++ ext1)) as (es2 & ext2 & Hrest & Hden); [lia| |].
  { apply Forall_app. split.
    - eapply Forall_impl; [done|]. intros e He. by apply Forall_cons in He as [_ He].
    - apply Forall_singleton. exact (proj1 (List.Forall_map _ _ _) Hdk). }
  exists ((k', v) :: es2), (ext1 ++ ext2).
  assert (Ee : es ++ (k', v) :: es2 = (es ++ [(k', v)]) ++ es2) by (by rewrite <- app_assoc). rewrite Ee.
  rewrite (app_assoc ext ext1 ext2). split.
  - assert (Hb : forall a b c d : list Z, ((a ++ b) ++ c) ++ d = a ++ b ++ (c ++ d)) by (intros; by rewrite <- !app_assoc).
    rewrite Hb. cbn [read_table]. eapply reads_then; [exact Hrk|]. cbn [negb].
    eapply reads_then; [exact Hrv|]. eapply reads_step; [|exact Hrest].
    replace (grown (tstate s es ext) ext1 [v; k']) with (grown (tstate s es (ext ++ ext1)) [] [v; k'])
      by (unfold tstate; rewrite !grown_grown; cbn [app]; by rewrite app_nil_r).
    apply rawset_run; [apply scalar_not_nil|done|done|]. eapply Forall_impl; [exact Hes|]. intros e He. by apply Forall_cons in He as [? _].
  - constructor; [|done]. split; [done|]. cbn [fst snd].
    eapply (denotes_mono _ _ _ _ _ _ _ _ Hv). Unshelve.
    + cbn [grown tstate set_lua set_stk lvm heap app]. rewrite !length_app. cbn [length]. lia.
    + intros r e Hge. cbn [tstate grown set_lua set_stk lvm heap app] in *. rewrite !app_nil_r in *. rewrite length_app in Hge.
      cbn [length] in Hge. rewrite <- !app_assoc. cbn [app].
      rewrite !(lookup_app_r (heap (lvm s))) by lia.
      destruct (r - length (heap (lvm s)))%nat as [|i] eqn:Ei; [lia|]. cbn [lookup list_lookup].
      intros Hi. change ((ext ++ ext1) !! i = Some e) in Hi. rewrite app_assoc.
      by apply lookup_app_l_Some.
Qed.
Lemma read_sends_tree t : tree_ok t -> tree_ok (map_tree cv t) -> forall fuel, (need t <= fuel)%nat -> reads_tree fuel t.
Proof.
  induction t as [|k|ts IH] using tree_all_ind; intros Ht Hm [|fuel] Hf s H; cbn [need] in Hf; try lia.
  - exists VNil, []. split; [|constructor]. rewrite grown_stk. cbn [encode read_variable].
    apply (reads_then _ _ s [RPC_NIL] RPC_NIL s [] true); [by apply read_u8_reads; [apply H|]|done].
  - exists (scalar_value (map_scalar cv k)), []. split; [|constructor]. apply read_scalar_reads; [done|]. by inversion Ht.
  - inversion Ht as [| |? _ Hts]; inversion Hm as [| |? Hd Hms]; subst.
    destruct (foldr_max_le (fun t => need t.2) ts (S (length ts)) fuel) as [Hn Hl]; [lia|].
    destruct fuel as [|fuel]; [lia|].
    destruct (read_table_reads fuel ts s H) with (n := S fuel) (es := [] : entries NB) (ext := [] : list (entries NB))
      as (es & ext & Hrd & Hden); [|by apply differ_pairs| |constructor|].
    + clear -IH Hts Hms Hn. induction IH as [|t ts Ht _ IHts]; [constructor|]. apply Forall_cons in Hts as [(Hk & _ & Hz & Hv) Hts].
      cbn [map] in Hms. apply Forall_cons in Hms as [(_ & Hnan & _ & Hm) Hms]. apply Forall_cons in Hn as [Hnt Hn]. cbn [fst snd] in *.
      constructor; [|by apply IHts]. split; [done|]. split; [done|]. split; [done|]. by apply Ht.
    + lia.
    + exists (VTable (length (heap (lvm s)))), (es :: ext). split.
      * cbn [encode read_variable]. apply (reads_then _ _ s [RPC_TABLE] RPC_TABLE s); [by apply read_u8_reads; [apply H|]|].
        cbn [Z.eqb Pos.eqb RPC_NIL RPC_BOOLEAN RPC_NUMBER RPC_STRING RPC_TABLE].
        apply (reads_step _ _ s () (tstate s [] [])); [done|]. apply (reads_step _ _ _ (S (length (stk s))) (tstate s [] [])); [done|].
        rewrite <- (app_nil_r (flat_map _ _ ++ _)). eapply reads_then; [exact Hrd|done].
      * eapply denotes_table; [done|by rewrite list_lookup_middle|reflexivity|]. eapply Forall2_impl; [exact Hden|].
        intros e t [He Hv]. split; [done|]. eapply denotes_mono; [| |exact Hv]; [lia|done].
Qed.
End Reading.

(** ** Conversations *)

Lemma talk_bind_left {A B C} (p : io A) (q : io B) p' q' (f : A -> io C) : talk p q p' q' -> talk (io_bind p f) q (io_bind p' f) q'.
Proof. induction 1; cbn [io_bind]; constructor; done. Qed.
Lemma talk_bind_right {A B C} (p : io A) (q : io B) p' q' (f : B -> io C) : talk p q p' q' -> talk p (io_bind q f) p' (io_bind q' f).
Proof. intros H. by apply talk_flip, talk_bind_left, talk_flip. Qed.

Section Conversations.
Context {N X N' X' : Type}.
Lemma talk_left_bind {A B C} (m : rpc N X A) (f : A -> rpc N X B) (q : io C) s a s' q' :
  talk (m s) q (Ret (Ok a, s')) q' -> talk ((m ≫= f) s) q (f a s') q'.
Proof.
  intros H. unfold mbind, rpc_bind.
  change (f a s') with (io_bind (Ret (Ok a, s')) (fun r : res A * side N X => match r with
    | (Ok a, s) => f a s | (Exn e, s) => Ret (Exn e, s) | (LuaError m, s) => Ret (LuaError m, s) | (Undefined, s) => Ret (Undefined, s)
    end)).
  by apply talk_bind_left.
Qed.
Lemma talk_left {A B C} (m : rpc N X A) (f : A -> rpc N X B) (q : io C) s a s' q' p2 q2 :
  talk (m s) q (Ret (Ok a, s')) q' -> talk (f a s') q' p2 q2 -> talk ((m ≫= f) s) q p2 q2.
Proof. intros H. apply talk_trans. by apply talk_left_bind. Qed.
Lemma talk_right {A B C} (m : rpc N X A) (f : A -> rpc N X B) (p : io C) s a s' p' p2 q2 :
  talk p (m s) p' (Ret (Ok a, s')) -> talk p' (f a s') p2 q2 -> talk p ((m ≫= f) s) p2 q2.
Proof. intros H H'. apply talk_flip. eapply talk_left; by apply talk_flip. Qed.
Lemma talk_sends {A B} (m : rpc N X A) s bs a s' (m' : rpc N' X' B) t b t' :
  sends m s bs a s' -> Forall is_u8 bs -> reads m' t bs b t' -> talk (m s) (m' t) (Ret (Ok a, s')) (Ret (Ok b, t')).
Proof. intros Hs Hb Hr. unfold sends in Hs. rewrite Hs. by apply talk_send. Qed.
Lemma talk_feed {A B C} (m : rpc N X A) (f : A -> rpc N X B) (q : io C) bs s a s' q' p2 q2 :
  sends m s bs a s' -> Forall is_u8 bs -> feed q bs = Some q' -> talk (f a s') q' p2 q2 -> talk ((m ≫= f) s) q p2 q2.
Proof. intros Hs Hb Hq. apply talk_left. unfold sends in Hs. rewrite Hs. by apply talk_send. Qed.
Lemma talk_step_left {A B C} (m : rpc N X A) (f : A -> rpc N X B) (q : io C) s a s' p2 q2 :
  m s = Ret (Ok a, s') -> talk (f a s') q p2 q2 -> talk ((m ≫= f) s) q p2 q2.
Proof. intros E. apply talk_left. rewrite E. constructor. Qed.
Lemma talk_step_right {A B C} (m : rpc N X A) (f : A -> rpc N X B) (p : io C) s a s' p2 q2 :
  m s = Ret (Ok a, s') -> talk p (f a s') p2 q2 -> talk p ((m ≫= f) s) p2 q2.
Proof. intros E. apply talk_right. rewrite E. constructor. Qed.
(** Nothing is caught. *)
Definition no_exn {A} (r : res A) : Prop := match r with Exn _ => False | _ => True end.
Lemma talk_try_left {A C} (m : rpc N X A) h (q : io C) s r s' q' : no_exn r ->
  talk (m s) q (Ret (r, s')) q' -> talk (try_catch m h s) q (Ret (r, s')) q'.
Proof.
  intros Hr H. unfold try_catch.
  replace (Ret (r, s')) with (io_bind (Ret (r, s')) (fun r : res A * side N X => match r with (Exn e, s) => h e s | _ => Ret r end))
    by (by destruct r).
  by apply talk_bind_left.
Qed.
Lemma talk_try_right {A C} (m : rpc N X A) h (p : io C) s a s' p' :
  talk p (m s) p' (Ret (Ok a, s')) -> talk p (try_catch m h s) p' (Ret (Ok a, s')).
Proof. intros H. apply talk_flip, talk_try_left; [done|]. by apply talk_flip. Qed.
End Conversations.
(** One side sends what the other reads; both go on. *)
Lemma talk_to_right {N X N' X' A B C D} (m : rpc N X A) (f : A -> rpc N X B) (m' : rpc N' X' C) (f' : C -> rpc N' X' D) bs s t a s' b t' p q :
  sends m s bs a s' -> Forall is_u8 bs -> reads m' t bs b t' -> talk (f a s') (f' b t') p q ->
  talk ((m ≫= f) s) ((m' ≫= f') t) p q.
Proof.
  intros Hs Hb Hr H. pose proof (talk_sends _ _ _ _ _ _ _ _ _ Hs Hb Hr) as Hm.
  eapply talk_trans; [|exact H]. eapply talk_left; [by eapply talk_right; [exact Hm|constructor]|constructor].
Qed.
Lemma talk_to_left {N X N' X' A B C D} (m : rpc N X A) (f : A -> rpc N X B) (m' : rpc N' X' C) (f' : C -> rpc N' X' D) bs s t a s' b t' p q :
  reads m s bs a s' -> sends m' t bs b t' -> Forall is_u8 bs -> talk (f a s') (f' b t') p q ->
  talk ((m ≫= f) s) ((m' ≫= f') t) p q.
Proof. intros Hr Hs Hb H. apply talk_flip. eapply talk_to_right; [done..|]. by apply talk_flip. Qed.

(** ** Connecting *)

Lemma write_string_raw {N X} bs (s : side N X) : ready s -> sends (transport_write_string bs) s bs () s.
Proof. apply write_buffer_sends. Qed.
Lemma read_string_reads {N X} bs (s : side N X) : ready s -> Forall is_u8 bs -> strlen bs < 2 ^ 31 ->
  reads (transport_read_string (strlen bs)) s bs bs s.
Proof.
  intros H Hb Hl. unfold transport_read_string. rewrite s32_small by (unfold strlen in *; lia).
  rewrite <- (app_nil_r bs) at 2. apply (reads_then _ _ s bs bs s [] bs s).
  - unfold strlen. rewrite Nat2Z.id. by apply read_buffer_reads.
  - unfold strlen. by rewrite Z.ltb_irrefl.
Qed.
Section Connecting.
Context {NA NB XA XB : Type} {na : LuaNumber NA} {nb : LuaNumber NB} {va : LuaVM NA XA} {vb : LuaVM NB XB} (mA mB : bool).
Context (strerror strerror' : Z -> list Z).

(** What both sides will use: big endian unless both are little endian, integers
    unless both have floating point numbers, and the smaller size. *)
Definition agreed : wire :=
  mkWire (mA && mB) (ln_integral (N := NA) || ln_integral (N := NB)) (Z.min (number_size (N := NA)) (number_size (N := NB))).
Definition header (b : bool) (n : Z) (i : bool) : list Z := header_start ++ [b2c b; n; b2c i].
Lemma header_u8 b n i : is_u8 n -> Forall is_u8 (header b n i).
Proof. intros H. unfold header, header_start. cbn. repeat (apply Forall_cons; split); try done; [by destruct b|by destruct i]. Qed.
Lemma flag_of_b2c b : flag_of (b2c b) = b.
Proof. by destruct b. Qed.
Lemma swrap8_small n : 0 <= n <= 127 -> swrap 8 n = n.
Proof. intros H. unfold swrap. rewrite wrap_small by (unfold is_u; lia). change (2 ^ (8 - 1)) with 128. by rewrite (proj2 (Z.ltb_lt n 128)) by lia. Qed.

(** The transport of a side after the headers are exchanged. *)
Definition settled {N X} {num : LuaNumber N} (machine : bool) (s : side N X) : side N X :=
  set_tpt (mkTpt (fd (tpt s)) (tmr_id (tpt s)) machine ln_integral (w_little agreed) (w_int agreed) (w_size agreed)) s.
Lemma settled_on_wire {N X} {num : LuaNumber N} machine (s : side N X) : ready s -> on_wire machine agreed (settled machine s).
Proof. by constructor. Qed.
(** The sizes as the server adapts them. *)
Lemma adapted_size n m : 0 <= n <= 127 -> 0 <= m <= 127 ->
  (if swrap 8 n >? m then m else n) = Z.min n m /\ (if swrap 8 (Z.min n m) <? m then Z.min n m else m) = Z.min n m.
Proof.
  intros Hn Hm. rewrite !swrap8_small by lia. split; [destruct (Z.gtb_spec n m)|destruct (Z.ltb_spec (Z.min n m) m)]; lia.
Qed.
Context (HA : (ln_size (N := NA) <= 127)%nat) (HB : (ln_size (N := NB) <= 127)%nat).
Lemma negotiate_agrees (a : side NA XA) (b : side NB XB) : ready a -> ready b ->
  talk (client_negotiate mA a) (server_negotiate mB b) (Ret (Ok (), settled mA a)) (Ret (Ok (), settled mB b)).
Proof.
  intros Ha Hb. set (n := number_size (N := NA)). set (m := number_size (N := NB)).
  assert (Hn : 0 <= n <= 127) by (unfold n, number_size; lia). assert (Hm : 0 <= m <= 127) by (unfold m, number_size; lia).
  assert (Hh : Forall is_u8 (header mA n (ln_integral (N := NA)))) by (apply header_u8; unfold is_u; lia).
  eapply talk_step_left; [done|]. eapply talk_step_right; [done|].
  eapply talk_to_right; [by apply write_string_raw|exact Hh|by apply (read_string_reads (header _ _ _))|].
  unfold header_ok. rewrite bool_decide_eq_true_2 by done. cbn [negb]. cbv zeta.
  change (nth_byte (header ?l ?k ?i) 5) with (b2c l). change (nth_byte (header ?l ?k ?i) 6) with k.
  change (nth_byte (header ?l ?k ?i) 7) with (b2c i). fold n m. destruct (adapted_size n m Hn Hm) as [-> ->].
  apply (talk_step_right _ _ _ _ () (settled mB b)).
  { unfold set, settled, set_tpt. cbn. do 4 f_equal; by destruct mA, mB, (ln_integral (N := NA)), (ln_integral (N := NB)). }
  replace (header_start ++ _) with (header (w_little agreed) (w_size agreed) (w_int agreed)).
  2:{ unfold header, agreed. cbn [w_little w_size w_int]. do 2 f_equal; [by destruct mA, mB|]. f_equal. f_equal.
      by destruct (ln_integral (N := NA)), (ln_integral (N := NB)). }
  assert (Hh2 : Forall is_u8 (header (w_little agreed) (w_size agreed) (w_int agreed))).
  { apply header_u8. unfold agreed, is_u. cbn [w_size]. lia. }
  eapply talk_left; [apply talk_flip; eapply talk_sends; [by apply write_string_raw|exact Hh2|by apply (read_string_reads (header _ _ _))]|].
  rewrite bool_decide_eq_true_2 by done. cbn [negb].
  change (nth_byte (header ?l ?k ?i) 5) with (b2c l). change (nth_byte (header ?l ?k ?i) 6) with k.
  change (nth_byte (header ?l ?k ?i) 7) with (b2c i). rewrite !flag_of_b2c. constructor.
Qed.

(** A client that connects and a server that waits for it, of any byte
    orders, number types and sizes up to 127 bytes, both end connected, and use
    the same representation of numbers: the agreed one. Lua's state on both
    sides is as before. *)
Theorem connect_agrees (fuel : nat) (open : rpc NA XA unit) (a a' : side NA XA) (b : side NB XB) :
  open a = Ret (Ok (), a') -> ready a' -> fd (tpt b) = INVALID_TRANSPORT -> fd (ltpt b) <> INVALID_TRANSPORT -> adispatch_buff b < 0 ->
  exists a2 b2, talk (rpc_connect mA strerror open a) (rpc_dispatch_helper mB fuel strerror' b) (Ret (Ok (), a2)) (Ret (Ok (), b2)) /\
    on_wire mA agreed a2 /\ on_wire mB agreed b2 /\ stk a2 = stk a' /\ lvm a2 = lvm a' /\ stk b2 = stk b /\ lvm b2 = lvm b.
Proof.
  intros Ho Hra Hb Hl Hbuf. set (t := tpt b).
  set (b0 := set_tpt (mkTpt (fd (ltpt b)) (tmr_id t) (loc_little t) (loc_intnum t) (net_little t) (net_intnum t) (lnum_bytes t)) b).
  assert (Hrb : ready b0) by done.
  exists (settled mA a'), (settled mB b0). split; [|split; [by apply settled_on_wire|split; [by apply settled_on_wire|done]]].
  apply talk_try_left; [done|]. eapply talk_step_left; [exact Ho|]. apply talk_try_right. eapply talk_step_right; [done|].
  unfold transport_is_open. rewrite Hb. cbn [INVALID_TRANSPORT Z.eqb Pos.eqb negb].
  apply (talk_step_right _ _ _ _ () b0).
  { unfold transport_accept, mbind, rpc_bind, get. cbn [io_bind]. by rewrite (proj2 (Z.eqb_neq _ _) Hl). }
  eapply talk_to_right; [by apply write_u8_sends|by apply Forall_singleton|by apply read_u8_reads|].
  by apply negotiate_agrees.
Qed.
End Connecting.

(** ** Names *)

(** A name without dots, as [strtok] wants it. *)
Definition is_name (n : list Z) : Prop := n <> [] /\ Forall (fun c => is_u8 c /\ c <> 0 /\ c <> 46) n.
Definition dotted (front : list (list Z)) (last : list Z) : list Z := flat_map (fun n => n ++ [46]) front ++ last.
Lemma tokens_from_name n cur s : Forall (fun c => is_u8 c /\ c <> 0 /\ c <> 46) n -> tokens_from cur (n ++ s) = tokens_from (cur ++ n) s.
Proof.
  intros H. revert cur. induction H as [|c n (_ & _ & Hc) _ IH]; intros cur; [by rewrite app_nil_r|]. cbn [app tokens_from].
  rewrite (proj2 (Z.eqb_neq c 46)) by done. by rewrite IH, <- app_assoc.
Qed.
Lemma tokens_from_dotted front last : Forall is_name front -> is_name last -> tokens_from [] (dotted front last) = front ++ [last].
Proof.
  intros Hf [Hl Hn]. unfold dotted. induction Hf as [|n front [Hne H] _ IH]; cbn [flat_map app].
  - rewrite <- (app_nil_r last) at 1. rewrite tokens_from_name by done. cbn [app tokens_from]. by destruct last.
  - rewrite <- !app_assoc. rewrite tokens_from_name by done. cbn [app tokens_from Z.eqb Pos.eqb]. destruct n; [done|]. by rewrite <- IH.
Qed.
Lemma dotted_chars front last : Forall is_name front -> is_name last -> Forall (fun c => is_u8 c /\ c <> 0) (dotted front last).
Proof.
  assert (Hn : forall n, is_name n -> Forall (fun c => is_u8 c /\ c <> 0) n).
  { intros n [_ H]. eapply Forall_impl; [exact H|]. by intros c (? & ? & ?). }
  intros Hf Hl. apply Forall_app. split; [|by apply Hn]. induction Hf as [|n front H _ IH]; cbn [flat_map]; [constructor|].
  rewrite !Forall_app. split; [split; [by apply Hn|by apply Forall_singleton]|exact IH].
Qed.
Lemma str_scan_none s : Forall (fun c => is_u8 c /\ c <> 0) s -> str_scan s = None.
Proof. induction 1 as [|c s [_ Hc] _ IH]; cbn [str_scan]; [done|]. by rewrite decide_False, IH. Qed.
Lemma tokens_dotted front last : Forall is_name front -> is_name last -> tokens (dotted front last) = front ++ [last].
Proof. intros Hf Hl. unfold tokens. rewrite str_scan_none by (by apply dotted_chars). by apply tokens_from_dotted. Qed.

(** The names a helper remembers: of its ancestors, and its own. *)
Definition path_of (h : helper) : option (list (list Z) * list Z) :=
  name ← hname h; names ← ancestors (Z.to_nat (hnparents h)) (hparent h); Some (reverse names, name).
Section Names.
Context {N X : Type} {num : LuaNumber N} (machine : bool) (w : wire).
Implicit Types s : side N X.
Lemma send_names_sends names s : ready s -> sends (send_names names) s (flat_map (fun n => n ++ [46]) names) () s.
Proof.
  intros H. induction names as [|n names IH]; [done|]. cbn [send_names flat_map]. rewrite <- app_assoc.
  eapply sends_then; [by apply write_buffer_sends|done|]. eapply sends_then; [by apply write_buffer_sends|done|exact IH].
Qed.
Lemma sent_length names name : foldr (fun n l => strlen n + 1 + l) (strlen name) names = strlen (dotted (reverse names) name).
Proof.
  unfold dotted, strlen. rewrite length_app. induction names as [|n names IH]; cbn [foldr]; [done|].
  rewrite IH, reverse_cons, flat_map_app, length_app. cbn [flat_map]. rewrite app_nil_r, length_app. cbn [length]. lia.
Qed.
Lemma remote_index_sends h front last s : on_wire machine w s -> path_of h = Some (front, last) ->
  sends (helper_remote_index machine h) s (string_bytes w (dotted front last)) () s.
Proof.
  unfold path_of, helper_remote_index. intros H Hp. destruct (hname h) as [name|]; [|done].
  destruct (ancestors _ _) as [names|]; [|done]. cbn in Hp. injection Hp as <- <-.
  eapply sends_step; [done|done|]. eapply sends_step; [done|done|]. rewrite sent_length.
  eapply sends_then; [by apply write_u32_sends|done|]. eapply sends_then; [by apply send_names_sends; destruct H|done|]. apply write_buffer_sends, H.
Qed.
End Names.
(** Indexing a helper adds a name. *)
Lemma path_of_append h n front last : path_of h = Some (front, last) -> (length n < NUM_FUNCNAME_CHARS)%nat ->
  0 <= hnparents h < 255 -> path_of (helper_append h n) = Some (front ++ [last], n).
Proof.
  unfold path_of, helper_append, copy_name. intros H Hn Hp. cbn [hname hparent hnparents]. rewrite (proj2 (Nat.ltb_lt _ _)) by done.
  rewrite u8_small by (unfold is_u; lia). rewrite Z2Nat.inj_add by lia. rewrite Nat.add_1_r. cbn [mbind option_bind ancestors].
  destruct (hname h) as [name|]; [|done]. cbn [mbind option_bind] in *. destruct (ancestors _ _) as [names|]; [|done].
  cbn [mbind option_bind] in *. injection H as <- <-. by rewrite reverse_cons.
Qed.

(** ** Values from one side to the other *)

Section Remote.
Context {NA NB XA XB : Type} {na : LuaNumber NA} {nb : LuaNumber NB} {la : NumberLaws NA} {lb : NumberLaws NB}
  {va : LuaVM NA XA} {vb : LuaVM NB XB} {nxa : NextLaws NA XA} {nxb : NextLaws NB XB} (mA mB : bool) (w : wire).

Definition sendable (fuelA fuelB : nat) (t : tree NA) : Prop :=
  tree_ok t /\ tree_ok (map_tree (received w : NA -> NB) t) /\ (depth t <= fuelA)%nat /\ (need t <= fuelB)%nat.
Lemma shuffled_sendable fuelA fuelB t u : shuffled t u -> sendable fuelA fuelB t -> sendable fuelA fuelB u.
Proof.
  intros Hs (Ht & Hm & Hd & Hn). split; [by eapply shuffled_ok|]. split; [by eapply shuffled_ok; [apply shuffled_map|]|].
  pose proof (shuffled_depth _ _ Hs). pose proof (shuffled_need _ _ Hs). lia.
Qed.
(** What is written, and what the value that is read denotes. *)
Lemma sent_as fuelA fuelB lo (l : lua NA XA) v t : denotes lo (heap l) v t -> sendable fuelA fuelB t -> exists u, traversed l v u /\ sendable fuelA fuelB u /\
  forall lo' (h : list (entries NB)) v', denotes lo' h v' (map_tree (received w) u) -> denotes lo' h v' (map_tree (received w) t).
Proof.
  intros Hv Ht. destruct (denotes_traversed lo l t v Hv) as (u & Hu & Hs). exists u. split; [done|]. split; [by eapply shuffled_sendable|].
  intros lo' h v'. by apply denotes_shuffled, shuffled_map.
Qed.
Lemma all_sent_as fuelA fuelB lo (l : lua NA XA) vs ts : Forall2 (denotes lo (heap l)) vs ts -> Forall (sendable fuelA fuelB) ts ->
  exists us, length us = length ts /\ Forall2 (traversed l) vs us /\ Forall (sendable fuelA fuelB) us /\
  forall lo' (h : list (entries NB)) vs', Forall2 (denotes lo' h) vs' (map (map_tree (received w)) us) -> Forall2 (denotes lo' h) vs' (map (map_tree (received w)) ts).
Proof.
  induction 1 as [|v t vs ts Hv _ IH]; intros Hts; [by exists []|]. apply Forall_cons in Hts as [Ht Hts].
  destruct (sent_as fuelA fuelB lo l v t Hv Ht) as (u & Hu & Hou & Hd). destruct (IH Hts) as (us & Hl & Hus & Hous & Hds).
  exists (u :: us). split; [cbn [length]; congruence|]. split; [by constructor|]. split; [by constructor|].
  intros lo' h vs' H. cbn [map] in *. inversion H as [|v' ? vs2 ? Hv' Hvs2]; subst. constructor; auto.
Qed.


(** All values of a list. *)
Lemma read_variables_reads fuelA fuel ts : can_write_numbers NA w -> can_read_numbers NB w -> Forall (sendable fuelA fuel) ts ->
  forall b : side NB XB, on_wire mB w b ->
  exists vs ext, reads (read_variables mB fuel (length ts)) b (flat_map (encode w) ts) () (grown b ext (reverse vs)) /\
    Forall2 (denotes (length (heap (lvm b))) (heap (lvm b) ++ ext)) vs (map (map_tree (received w)) ts).
Proof.
  intros Hw Hr Hts. induction Hts as [|t ts (Ht & Hm & _ & Hf) _ IH]; intros b Hb.
  - exists [], []. split; [|constructor]. change (reverse []) with ([] : list (value NB)). by rewrite grown_nil.
  - destruct (read_sends_tree mB w Hw Hr t Ht Hm fuel Hf b Hb) as (v & ext & Hrd & Hd).
    destruct (IH (grown b ext [v])) as (vs & ext' & Hrd' & Hd'); [by apply on_wire_grown|].
    exists (v :: vs), (ext ++ ext'). split.
    + cbn [length read_variables flat_map]. eapply reads_then; [exact Hrd|]. rewrite grown_grown in Hrd'. by rewrite reverse_cons.
    + cbn [grown set_lua set_stk lvm heap] in Hd'. rewrite <- app_assoc in Hd'. rewrite length_app in Hd'. constructor.
      * eapply denotes_mono; [| |exact Hd]; [done|]. intros r es _ He. rewrite app_assoc. by apply lookup_app_l_Some.
      * eapply Forall2_impl; [exact Hd'|]. intros v2 t2 H2. eapply denotes_mono; [| |exact H2]; [lia|done].
Qed.
End Remote.

(** ** Calls *)

Section Calls.
Context {NA NB XA XB : Type} {na : LuaNumber NA} {nb : LuaNumber NB} {la : NumberLaws NA} {lb : NumberLaws NB}
  {va : LuaVM NA XA} {vb : LuaVM NB XB} {nxa : NextLaws NA XA} {nxb : NextLaws NB XB} (mA mB : bool) (w : wire).

(** *** The server *)

(** The value that a path of names leads to. *)
Fixpoint fields (v : value NB) (names : list (list Z)) (l : lua NB XB) : option (value NB * lua NB XB) :=
  match names with
  | [] => Some (v, l)
  | n :: names =>
      if indexable v then match vm_getfield v n l with (inl f, l) => fields f names l | _ => None end else None
  end.
Definition resolves (names : list (list Z)) (l : lua NB XB) : option (value NB * lua NB XB) :=
  match names with
  | [] => None
  | n :: names => match vm_getglobal n l with (inl v, l) => fields v names l | _ => None end
  end.
Implicit Types b : side NB XB.
Lemma callable_indexable (f : value NB) : callable f = true -> indexable f = true.
Proof. unfold indexable. by intros ->. Qed.
Lemma call_target_run names : forall v f l' st b, fields v names (lvm b) = Some (f, l') -> callable f = true -> stk b = v :: st ->
  call_target v names b = Ret (Ok [], set_lua l' (set_stk (f :: st) b)).
Proof.
  induction names as [|n names IH]; intros v f l' st b H Hf Hs; cbn [fields call_target] in *.
  - injection H as -> <-. rewrite <- Hs. by destruct b.
  - destruct (indexable v) eqn:Ev; [|done]. destruct (vm_getfield v n (lvm b)) as [[v1|] l1] eqn:Eg; [|done].
    assert (Hi : indexable v1 = true).
    { destruct names as [|n' names]; cbn [fields] in H; [injection H as -> <-; by apply callable_indexable|by destruct (indexable v1)]. }
    unfold mbind, rpc_bind, vm. rewrite Eg. cbn [io_bind lua_push set set_stk set_lua get stk lvm]. rewrite Hi. cbn [io_bind get stk set set_stk].
    rewrite Hs. cbn [drop]. by rewrite (IH v1 f l' st).
Qed.
Lemma find_function_run name t ts f l' b : tokens name = t :: ts -> resolves (t :: ts) (lvm b) = Some (f, l') -> callable f = true ->
  find_function name b = Ret (Ok [], set_lua l' (set_stk (f :: stk b) b)).
Proof.
  intros Hn Hr Hf. unfold find_function. rewrite Hn. cbn [resolves] in Hr.
  destruct (vm_getglobal t (lvm b)) as [[v|] l1] eqn:Eg; [|done].
  assert (Hi : indexable v = true).
  { destruct ts as [|n' ts]; cbn [fields] in Hr; [injection Hr as -> <-; by apply callable_indexable|by destruct (indexable v)]. }
  unfold mbind, rpc_bind, vm. rewrite Eg. cbn [io_bind lua_push set set_stk set_lua get stk lvm]. rewrite Hi.
  by rewrite (call_target_run ts v f l' (stk b)).
Qed.
Lemma on_wire_same {N X} {num : LuaNumber N} m (s s' : side N X) : tpt s' = tpt s -> adispatch_buff s' = adispatch_buff s ->
  on_wire m w s -> on_wire m w s'.
Proof. intros Ht Hb [[H1 H2] H3 H4 H5]. split; [split|..]; by rewrite ?Ht, ?Hb. Qed.
Lemma at_top {N X} (v : value N) st (s : side N X) : stk s = v :: st -> at_index (length (stk s)) s = Ret (Ok v, s).
Proof.
  intros Hs. unfold at_index, mbind, rpc_bind, get. cbn [io_bind].
  replace (reverse (stk s) !! (length (stk s) - 1)%nat) with (Some v); [done|].
  rewrite Hs, reverse_cons, lookup_app_r; rewrite length_reverse; cbn [length]; [|lia].
  by replace (S (length st) - 1 - length st)%nat with 0%nat by lia.
Qed.
(** What the server sends after a call that succeeds. *)
Definition answer_bytes (rts : list (tree NB)) : list Z := 0 :: word_bytes w (Z.of_nat (length rts)) ++ flat_map (encode w) rts.
(** The function below its arguments. *)
Lemma call_frame n vs f st b : stk b = reverse vs ++ f :: st -> n = Z.of_nat (length vs) -> n < 2 ^ 31 ->
  (if s32 n <? 0 then None else stk b !! Z.to_nat (s32 n)) = Some f /\
  reverse (take (Z.to_nat (s32 n)) (stk b)) = vs /\ drop (Z.to_nat (s32 n) + 1) (stk b) = st.
Proof.
  intros Hs Hn Hl. rewrite s32_small by lia. rewrite (proj2 (Z.ltb_ge n 0)) by lia. rewrite Hn, Nat2Z.id, Hs. split; [|split].
  - rewrite lookup_app_r by (by rewrite length_reverse). by rewrite length_reverse, Nat.sub_diag.
  - rewrite take_app_length' by (by rewrite length_reverse). by rewrite reverse_involutive.
  - by rewrite drop_app_add' by (by rewrite length_reverse).
Qed.
Lemma answer_call_sends fuel n vs f st rs rts l2 b : can_write_numbers NB w -> on_wire mB w b ->
  stk b = reverse vs ++ f :: st -> n = Z.of_nat (length vs) -> n < 2 ^ 31 ->
  vm_pcall f vs (lvm b) = ((0, rs), l2) -> Forall2 (traversed l2) rs rts -> Forall (fun t => (depth t <= fuel)%nat) rts ->
  sends (answer_call mB fuel n (length st)) b (answer_bytes rts) () (set_stk [] (set_lua l2 b)).
Proof.
  intros Hw Hb Hs Hn Hl Hc Hrs Hd. unfold answer_call. destruct (call_frame n vs f st b Hs Hn Hl) as (E1 & E2 & E3).
  eapply sends_step; [done|done|]. rewrite E1. eapply sends_step; [done|done|]. eapply sends_step; [done|done|].
  rewrite E2, Hc. eapply sends_step; [done|done|]. eapply sends_step; [done|done|]. cbn [Z.eqb negb]. rewrite E3.
  set (b2 := set_stk (reverse rs ++ st) (set_lua l2 b)).
  assert (Hb2 : on_wire mB w b2) by (eapply on_wire_same; [..|exact Hb]; done).
  rewrite <- (app_nil_r (answer_bytes rts)). eapply (sends_then _ _ _ _ () b2); [|done|done].
  apply (sends_then _ _ b2 [0] () b2); [apply write_u8_sends, Hb2|done|].
  eapply sends_step; [done|done|].
  replace (Z.of_nat (length (stk b2)) - Z.of_nat (length st)) with (Z.of_nat (length rts)).
  2:{ cbn [b2 set_stk set_lua stk]. rewrite length_app, length_reverse. rewrite (Forall2_length _ _ _ Hrs). lia. }
  eapply sends_then; [by apply write_u32_sends|done|]. eapply sends_step; [done|done|].
  cbn [b2 set_stk set_lua stk]. rewrite reverse_app, reverse_involutive, drop_app_length' by (by rewrite length_reverse).
  by eapply write_variables_sends.
Qed.
Lemma answer_bytes_u8 fuel fuel' rts : Forall (sendable (NB := NA) w fuel fuel') rts -> Forall is_u8 (answer_bytes rts).
Proof.
  intros H. apply Forall_cons. split; [done|]. apply Forall_app. split; [apply word_bytes_u8|].
  apply (encode_all_u8 w rts). eapply Forall_impl; [exact H|]. by intros ? (? & _).
Qed.
(** How the client reads it. *)
Lemma answer_reads fuel rts (a a' : side NA XA) : on_wire mA w a -> Z.of_nat (length rts) < 2 ^ 31 ->
  reads (read_variables mA fuel (length rts)) a (flat_map (encode w) rts) () a' ->
  reads (read_results mA fuel) a (answer_bytes rts) (length rts) a'.
Proof.
  intros Ha Hl Hr. apply (reads_then _ _ a [0] 0 a); [by apply read_u8_reads; [apply Ha|]|]. cbn [Z.eqb].
  eapply reads_then; [by apply read_u32_reads|]. rewrite u32_small by (unfold is_u; lia). rewrite s32_small by lia. rewrite Nat2Z.id.
  rewrite <- (app_nil_r (flat_map _ _)). eapply reads_then; [exact Hr|done].
Qed.

(** *** Both sides *)

Context (errA errB : Z -> list Z) (fuelA fuelB : nat).
(** Numbers can go both ways. *)
Record linked (a : side NA XA) b : Prop := {
  lk_writeA : can_write_numbers NA w; lk_writeB : can_write_numbers NB w; lk_readA : can_read_numbers NA w; lk_readB : can_read_numbers NB w;
  lk_a : on_wire mA w a; lk_b : on_wire mB w b
}.
(** A helper whose names lead to [f] on the server. *)
Record names_function (h : helper) (front : list (list Z)) (last : list Z) (f : value NB) (l l' : lua NB XB) : Prop := {
  nf_path : path_of h = Some (front, last);
  nf_front : Forall is_name front;
  nf_last : is_name last;
  nf_not_get : last <> lit "get";
  nf_length : strlen (dotted front last) < 2 ^ 31;
  nf_resolves : resolves (front ++ [last]) l = Some (f, l');
  nf_callable : callable f = true
}.
(** The client sends a command and waits for the server to be ready for it. *)
Lemma wait_ready_talk {C} cmd (k : Z -> rpc NB XB C) body (a : side NA XA) b : linked a b -> is_u8 cmd ->
  k cmd = (_ ← transport_write_u8 RPC_READY; body) ->
  talk (helper_wait_ready cmd a) ((transport_read_u8 ≫= k) b) (Ret (Ok (), a)) (body b).
Proof.
  intros [] Hc Hk. pose proof (on_wire_ready _ _ _ lk_a0) as Ha. pose proof (on_wire_ready _ _ _ lk_b0) as Hb.
  eapply talk_to_right; [by apply write_u8_sends|by apply Forall_singleton, u8_is_u8|rewrite (u8_small cmd) by done; by apply read_u8_reads|].
  rewrite Hk. eapply talk_to_left; [by apply (read_u8_reads RPC_READY)|by apply write_u8_sends|by apply Forall_singleton|]. constructor.
Qed.
(** A command on an open connection, all of it. *)
Lemma dispatch_talk {C} (p : io C) b p' b' : on_wire mB w b ->
  talk p (serve_command mB fuelB b) p' (Ret (Ok (), b')) ->
  talk p (rpc_dispatch_helper mB fuelB errB b) p' (Ret (Ok (), set_link_errs 0 b')).
Proof.
  intros [[Ho _] _ _ _] H. apply talk_try_right. eapply talk_step_right; [done|].
  unfold transport_is_open. rewrite (proj2 (Z.eqb_neq _ _) Ho). cbn [negb]. apply talk_try_right.
  eapply talk_right; [exact H|]. constructor.
Qed.
Lemma name_bytes_u8 front last : Forall is_name front -> is_name last -> Forall is_u8 (string_bytes w (dotted front last)).
Proof.
  intros Hf Hl. apply Forall_app. split; [apply word_bytes_u8|]. eapply Forall_impl; [by apply dotted_chars|]. by intros c [? _].
Qed.
Lemma name_plain_u8 front last : Forall is_name front -> is_name last -> Forall is_u8 (dotted front last).
Proof. intros Hf Hl. eapply Forall_impl; [by apply dotted_chars|]. by intros c [? _]. Qed.

(** The call up to its answer: the server has the function and the arguments on
    its stack. *)
Lemma call_talk h front last f l1 (args : list (value NA)) ats (a : side NA XA) b :
  linked a b -> names_function h front last f (lvm b) l1 ->
  Forall2 (denotes 0 (heap (lvm a))) args ats -> Forall (sendable (NB := NB) w fuelA fuelB) ats -> Z.of_nat (length ats) < 2 ^ 31 ->
  exists vs ext, Forall2 (denotes (length (heap l1)) (heap l1 ++ ext)) vs (map (map_tree (received w)) ats) /\
    let b1 := grown (set_lua l1 (set_stk (f :: stk b) b)) ext (reverse vs) in on_wire mB w b1 /\
    forall r a' b', no_exn r ->
      talk (read_results mA fuelA a) (answer_call mB fuelB (Z.of_nat (length vs)) (length (stk b)) b1) (Ret (r, a')) (Ret (Ok (), b')) ->
      talk (helper_call mA fuelA errA h args a) (rpc_dispatch_helper mB fuelB errB b) (Ret (r, a')) (Ret (Ok (), set_link_errs 0 b')).
Proof.
  intros Hl [Hp Hf Hla Hg Hlen Hres Hca] Hargs Hats Hna. pose proof Hl as [Hwa Hwb Hra Hrb Ha Hb].
  set (b1 := set_lua l1 (set_stk (f :: stk b) b)).
  assert (Hb1 : on_wire mB w b1) by (eapply on_wire_same; [..|exact Hb]; done).
  destruct (all_sent_as w fuelA fuelB 0 (lvm a) args ats Hargs Hats) as (uts & Elen & Hargs' & Huts & Hden).
  destruct (read_variables_reads mB w fuelA fuelB uts Hwa Hrb Huts b1 Hb1) as (vs & ext & Hrd & Hvs).
  exists vs, ext. split; [by apply Hden|]. split; [by apply on_wire_grown|]. intros r a' b' Hr Hans.
  rewrite <- Elen in Hna. clear Hargs Hats Hden.
  unfold helper_call. destruct (hname h) as [name|] eqn:Eh; [|by unfold path_of in Hp; rewrite Eh in Hp].
  assert (name = last) as ->.
  { unfold path_of in Hp. rewrite Eh in Hp. cbn in Hp. destruct (ancestors _ _); [|done]. cbn in Hp. by injection Hp. }
  eapply talk_step_left; [done|]. rewrite bool_decide_eq_false_2 by done.
  apply talk_try_left; [done|]. apply dispatch_talk; [done|]. eapply talk_left; [by eapply wait_ready_talk|].
  assert (Hn : reads (read_text mB) b (string_bytes w (dotted front last)) (dotted front last) b).
  { apply read_text_reads; [done|by apply name_plain_u8|done]. }
  eapply talk_to_right; [by apply remote_index_sends|by apply name_bytes_u8|exact Hn|].
  assert (Ht : tokens (dotted front last) = front ++ [last]) by by apply tokens_dotted.
  destruct (front ++ [last]) as [|t ts] eqn:Efl; [by destruct front|].
  eapply talk_step_right; [by eapply find_function_run|]. fold b1.
  eapply talk_step_right; [done|]. eapply talk_step_right; [by apply (at_top f (stk b))|].
  assert (Hlen2 : length vs = length uts) by (by rewrite (Forall2_length _ _ _ Hvs), length_map).
  rewrite (Forall2_length _ _ _ Hargs').
  eapply talk_to_right; [by apply write_u32_sends|by apply word_bytes_u8|by apply read_u32_reads|].
  rewrite u32_small by (unfold is_u; lia). rewrite s32_small by lia. rewrite Nat2Z.id.
  eapply talk_to_right; [eapply write_variables_sends; [exact Hwa|exact Ha| |exact Hargs']| |exact Hrd|].
  { eapply Forall_impl; [exact Huts|]. by intros ? (_ & _ & ? & _). }
  { apply (encode_all_u8 w uts). eapply Forall_impl; [exact Huts|]. by intros ? (? & _). }
  rewrite Hca. replace (length (stk b1) - 1)%nat with (length (stk b)) by (cbn [b1 set_lua set_stk stk length]; lia).
  by rewrite <- Hlen2.
Qed.


(** *** Variables *)

Lemma get_fields_run names : forall v f l' b, fields v names (lvm b) = Some (f, l') -> get_fields v names b = Ret (Ok f, set_lua l' b).
Proof.
  induction names as [|n names IH]; intros v f l' b H; cbn [fields get_fields] in *; [injection H as -> <-; by destruct b|].
  destruct (indexable v); [|done]. destruct (vm_getfield v n (lvm b)) as [[v1|] l1] eqn:Eg; [|done].
  unfold mbind, rpc_bind, vm. rewrite Eg. cbn [io_bind]. by rewrite (IH v1 f l').
Qed.
Lemma find_variable_run name t ts f l' b : tokens name = t :: ts -> resolves (t :: ts) (lvm b) = Some (f, l') ->
  find_variable name b = Ret (Ok f, set_lua l' b).
Proof.
  intros Hn Hr. unfold find_variable. rewrite Hn. cbn [resolves] in Hr. destruct (vm_getglobal t (lvm b)) as [[v|] l1] eqn:Eg; [|done].
  unfold mbind, rpc_bind, vm. rewrite Eg. cbn [io_bind]. by rewrite (get_fields_run ts v f l').
Qed.

(** A variable of the server, or a field of it, as deep as the names of the
    helper go, can be got: the client has on its stack a value that denotes what
    the variable denotes on the server, as the client receives it; the server
    goes on with an empty stack. *)
Theorem remote_get h front last v t l1 (a : side NA XA) b :
  linked a b -> path_of h = Some (front, last) -> Forall is_name front -> is_name last -> strlen (dotted front last) < 2 ^ 31 ->
  resolves (front ++ [last]) (lvm b) = Some (v, l1) -> denotes 0 (heap l1) v t -> sendable (NB := NA) w fuelB fuelA t ->
  exists v' ext, denotes (length (heap (lvm a))) (heap (lvm a) ++ ext) v' (map_tree (received w) t) /\
    talk (helper_get mA fuelA errA h a) (rpc_dispatch_helper mB fuelB errB b)
      (Ret (Ok 1%nat, grown a ext [v'])) (Ret (Ok (), set_link_errs 0 (set_stk [] (set_lua l1 b)))).
Proof.
  intros Hl Hp Hf Hla Hlen Hres Hv Ht. pose proof Hl as [_ Hwb Hra _ Ha Hb].
  destruct (sent_as (NA := NB) (NB := NA) w fuelB fuelA 0 l1 v t Hv Ht) as (u & Hu & (Hou & Hmu & Hd & Hn) & Hden). clear Hv Ht.
  destruct (read_sends_tree mA w Hwb Hra u Hou Hmu fuelA Hn a Ha) as (v' & ext & Hrd & Hv'). exists v', ext. split; [by apply Hden|].
  apply talk_try_left; [done|]. apply dispatch_talk; [done|]. eapply talk_left; [by eapply wait_ready_talk|].
  eapply talk_to_right; [by apply remote_index_sends|by apply name_bytes_u8|
    apply read_text_reads; [done|by apply name_plain_u8|done]|].
  assert (Etok : tokens (dotted front last) = front ++ [last]) by by apply tokens_dotted.
  destruct (front ++ [last]) as [|n ns] eqn:Efl; [by destruct front|].
  eapply talk_step_right; [by eapply find_variable_run|]. eapply talk_step_right; [done|].
  eapply talk_to_left; [exact Hrd| |by apply encode_u8|].
  - eapply write_sends; [done| |exact Hd|exact Hu]. by eapply on_wire_same; [..|exact Hb].
  - constructor.
Qed.

(** A global variable of the server can be set through the handle, whatever
    the name and the value: if the server's Lua sets the variable for every value
    that denotes [t] as the server receives it, the conversation ends on both
    sides, and the variable is set to such a value. *)
Theorem remote_set k v t (a : side NA XA) b :
  linked a b -> is_cstr k -> strlen k < 20 -> denotes 0 (heap (lvm a)) v t -> sendable (NB := NB) w fuelA fuelB t ->
  (forall v' ext, denotes (length (heap (lvm b))) (heap (lvm b) ++ ext) v' (map_tree (received w) t) ->
    exists l', vm_setglobal k v' (mkLua (heap (lvm b) ++ ext) (rest (lvm b))) = (inl (), l')) ->
  exists v' ext l', denotes (length (heap (lvm b))) (heap (lvm b) ++ ext) v' (map_tree (received w) t) /\
    vm_setglobal k v' (mkLua (heap (lvm b) ++ ext) (rest (lvm b))) = (inl (), l') /\
    talk (handle_newindex mA fuelA errA (VString k) v a) (rpc_dispatch_helper mB fuelB errB b)
      (Ret (Ok 0%nat, a)) (Ret (Ok (), set_link_errs 0 (set_stk [] (set_lua l' b)))).
Proof.
  intros Hl Hk Hlk Hv Ht Hset. pose proof Hl as [Hwa _ _ Hrb Ha Hb].
  destruct (sent_as w fuelA fuelB 0 (lvm a) v t Hv Ht) as (u & Hu & (Hou & Hmu & Hd & Hn) & Hden).
  set (b1 := set_stk (VString k :: stk b) b).
  assert (Hb1 : on_wire mB w b1) by (eapply on_wire_same; [..|exact Hb]; done).
  destruct (read_sends_tree mB w Hwa Hrb u Hou Hmu _ Hn b1 Hb1) as (v' & ext & Hrd & Hv'). destruct (Hset v' ext (Hden _ _ _ Hv')) as [l' Hl'].
  exists v', ext, l'. split; [by apply Hden|]. split; [done|]. clear Hv Ht Hset Hden.
  assert (Hku : scalar_ok (SString (N := NA) k)) by (split; [eapply Forall_impl; [exact Hk|by intros c [? _]]|lia]).
  assert (Hks : str_scan k = None) by (by apply str_scan_none).
  unfold handle_newindex. rewrite Hks. cbn [default]. rewrite (proj2 (Nat.ltb_ge _ _)) by (unfold NUM_FUNCNAME_CHARS, strlen in *; lia).
  unfold helper_newindex. apply talk_try_left; [done|]. apply dispatch_talk; [done|]. eapply talk_left; [by eapply wait_ready_talk|].
  eapply talk_to_right; [by apply (remote_index_sends mA w (helper_create []) [] [])|
    apply Forall_app; split; [apply word_bytes_u8|constructor]|by apply read_text_reads|]. cbn [str_scan default].
  pose proof (depth_pos u). pose proof (need_pos u).
  pose proof (write_scalar_sends mA w Hwa (pred fuelA) (SString k) a Ha) as Hws. rewrite Nat.succ_pred in Hws by lia.
  pose proof (read_scalar_reads mB w Hwa Hrb (pred fuelB) (SString k) b Hb Hku) as Hrs. rewrite Nat.succ_pred in Hrs by lia.
  rewrite grown_stk in Hrs.
  set (b2 := set_stk (VString k :: stk b) (set_lua l' b)).
  match goal with |- talk _ (?m b) _ _ => assert (Hblock : feed (m b) (encode_scalar w (SString (N := NA) k) ++ encode w u) =
    Some ((_ ← transport_write_u8 0; settop0) b2)) end.
  { rewrite <- (app_nil_r (_ ++ _)). etransitivity; [eapply (feed_step _ _ b _ () b2)|reflexivity]. rewrite bool_decide_eq_true_2 by done.
    eapply reads_then; [exact Hrs|]. rewrite <- (app_nil_r (encode w u)). eapply reads_then; [exact Hrd|].
    eapply reads_step; [done|]. cbn [app grown set_lua set_stk stk]. eapply reads_step; [done|]. rewrite Hks. cbn [default].
    eapply (reads_step _ _ _ () (set_lua l' (grown b1 ext [v']))); [|done].
    unfold vm. change (lvm (grown b1 ext [v'])) with (mkLua (heap (lvm b) ++ ext) (rest (lvm b))). by rewrite Hl'. }
  rewrite feed_app in Hblock. destruct (feed _ (encode_scalar w _)) as [q1|] eqn:Hq1; [|done]. cbn [mbind option_bind] in Hblock.
  eapply talk_feed; [exact Hws|by apply encode_scalar_u8|exact Hq1|].
  eapply talk_feed; [eapply write_sends; [done|done|exact Hd|exact Hu]|by apply encode_u8|exact Hblock|].
  eapply talk_to_left; [by apply (read_u8_reads 0); [apply Ha|]| |by apply Forall_singleton|].
  - apply (write_u8_sends 0 b2). apply Hb.
  - constructor.
Qed.

(** *** Errors *)

Definition error_bytes (code : Z) (msg : list Z) : list Z := 1 :: word_bytes w code ++ string_bytes w msg.
Lemma error_bytes_u8 code msg : Forall is_u8 msg -> Forall is_u8 (error_bytes code msg).
Proof.
  intros H. apply Forall_cons. split; [done|]. repeat (apply Forall_app; split); [apply word_bytes_u8|apply word_bytes_u8|done].
Qed.
Lemma report_error_sends code msgs b : on_wire mB w b ->
  sends (report_error mB code msgs) b (error_bytes code (concat msgs)) () b.
Proof.
  intros Hb. apply (sends_then _ _ b [1] () b); [apply write_u8_sends, Hb|done|].
  eapply sends_then; [by apply write_u32_sends|done|].
  assert (El : foldr (fun m l => strlen m + l) 0 msgs = strlen (concat msgs)).
  { unfold strlen. induction msgs as [|m msgs IH]; [done|]. cbn [foldr concat]. rewrite IH, length_app. lia. }
  rewrite El. eapply sends_then; [by apply write_u32_sends|done|]. clear El.
  induction msgs as [|m msgs IH]; [done|]. cbn [foldr concat]. eapply sends_then; [apply write_buffer_sends, Hb|done|exact IH].
Qed.
Lemma answer_call_error_sends fuel n vs f st code v l2 b : on_wire mB w b ->
  stk b = reverse vs ++ f :: st -> n = Z.of_nat (length vs) -> n < 2 ^ 31 -> vm_pcall f vs (lvm b) = ((code, [v]), l2) -> code <> 0 ->
  sends (answer_call mB fuel n (length st)) b (error_bytes code (vm_tostring (X := XB) v)) () (set_stk [] (set_lua l2 b)).
Proof.
  intros Hb Hs Hn Hl Hc Hcode. unfold answer_call.
  destruct (call_frame n vs f st b Hs Hn Hl) as (E1 & E2 & E3).
  eapply sends_step; [done|done|]. rewrite E1. eapply sends_step; [done|done|]. eapply sends_step; [done|done|].
  rewrite E2, Hc. eapply sends_step; [done|done|]. eapply sends_step; [done|done|].
  rewrite (proj2 (Z.eqb_neq code 0)) by done. cbn [negb].
  rewrite <- (app_nil_r (error_bytes _ _)). eapply sends_then; [|done|done].
  eapply sends_step; [done|done|]. cbn [head]. rewrite <- (app_nil_r (vm_tostring v)) at 2. apply (report_error_sends code [vm_tostring v]).
  by eapply on_wire_same; [..|exact Hb].
Qed.
(** What an error does to the client: the handler is called, if there is one. *)
Definition raised (msg : list Z) (a : side NA XA) : res nat * side NA XA :=
  match on_error a with
  | None => (LuaError msg, a)
  | Some f => (Ok 0%nat, set_lua (vm_pcall f [VString msg] (lvm a)).2 a)
  end.
(** A message that is a text without format directives. *)
Definition is_message (msg : list Z) : Prop := Forall (fun c => is_u8 c /\ c <> 0 /\ c <> 37) msg.
Lemma message_bytes msg : is_message msg -> Forall is_u8 msg /\ str_scan msg = None /\ pushvfstring msg = Some msg.
Proof.
  intros H. split; [eapply Forall_impl; [exact H|by intros c [? _]]|].
  split; [apply str_scan_none; eapply Forall_impl; [exact H|by intros c (? & ? & _)]|].
  induction H as [|c msg (_ & _ & Hc) _ IH]; cbn [pushvfstring]; [done|]. by rewrite (proj2 (Z.eqb_neq c 37)), IH.
Qed.
Lemma error_reads code msg a : on_wire mA w a -> is_message msg -> strlen msg < 2 ^ 31 ->
  feed (read_results mA fuelA a) (error_bytes code msg) = Some (Ret (raised msg a)).
Proof.
  intros Ha Hmsg Hl. destruct (message_bytes msg Hmsg) as (Hm & Hs & Hfmt). unfold read_results, error_bytes. change (1 :: ?l) with ([1] ++ l).
  rewrite (feed_step _ _ a [1] 1 a) by (by apply read_u8_reads; [apply Ha|]). cbn [Z.eqb Pos.eqb].
  assert (He : feed (read_error mA a) (word_bytes w code ++ string_bytes w msg) = Some (deal_with_error msg a)).
  { unfold read_error. erewrite feed_step by (by apply read_u32_reads). rewrite <- (app_nil_r (string_bytes w msg)).
    by erewrite feed_step by (by apply read_text_reads). }
  unfold raised, deal_with_error, mbind, rpc_bind, get in *. rewrite Hs in He. cbn [default io_bind] in He.
  destruct (on_error a) as [f|]; cbn [io_bind get] in He.
  - destruct (vm_pcall f [VString msg] (lvm a)) as [r l] eqn:E. by rewrite (feed_bind _ _ _ _ He).
  - rewrite Hfmt in He. by rewrite (feed_bind _ _ _ _ He).
Qed.

End Calls.

(** ** Concrete sides *)

(** Global variables by name; tables are gone through from the end; function 0 adds
    numbers, the others fail. *)
Definition find_global {N} (n : list Z) (gs : list (list Z * value N)) : value N :=
  default VNil (snd <$> List.find (fun g => bool_decide (g.1 = n)) gs).
Definition find_entry {N} {num : LuaNumber N} (k : value N) (es : entries N) : value N :=
  default VNil (snd <$> List.find (fun e => raw_eq k e.1) es).
Definition int_value {N} {num : LuaNumber N} (v : value N) : Z := match v with VNumber x => ln_to_int x | _ => 0 end.
#[export] Instance small_vm {N} {num : LuaNumber N} : LuaVM N (list (list Z * value N)) := {
  vm_next r l := reverse (default [] (heap l !! r));
  vm_getglobal n l := (inl (find_global n (rest l)), l);
  vm_getfield v n l := match v with
                       | VTable r => (inl (find_entry (VString n) (default [] (heap l !! r))), l)
                       | _ => (inr (lit "attempt to index"), l)
                       end;
  vm_settable t k v l := match t with
                         | VTable r => (inl (), mkLua (<[r := set_entry (default [] (heap l !! r)) k v]> (heap l)) (rest l))
                         | _ => (inr (lit "attempt to index"), l)
                         end;
  vm_setglobal n v l := (inl (), mkLua (heap l) ((n, v) :: rest l));
  vm_pcall f args l := match f with
                       | VFunction 0%nat => ((0, [VNumber (ln_of_int (foldr Z.add 0 (map int_value args)))]), l)
                       | _ => ((2, [VString (lit "no such thing")]), l)
                       end;
  vm_tostring v := match v with VString s => s | _ => [] end;
  vm_dump f l := None;
  vm_load s l := (VNil, l)
}.
#[export] Instance small_next {N} {num : LuaNumber N} : NextLaws N (list (list Z * value N)).
Proof. constructor. intros r l es Hr. cbn [vm_next small_vm]. rewrite Hr. apply reverse_Permutation. Qed.
(** A client with 32-bit integers on a little endian machine; a server with
    floating point numbers on a big endian machine. *)
Definition off : Transport := mkTpt INVALID_TRANSPORT 0 false false false false 0.
Definition the_client : side Z (list (list Z * value Z)) :=
  mkSide (mkTpt 1 0 false false false false 0) off 0 (-1) None [] (mkLua [[(VNumber 1, VString (lit "one"))]; [(VString (lit "t"), VTable 0); (VBoolean true, VNumber (-7))]] []).
Definition the_server : side double (list (list Z * value double)) :=
  mkSide off (mkTpt 2 0 false false false false 0) 0 (-1) None []
    (mkLua [[(VString (lit "add"), VFunction 0); (VString (lit "fail"), VFunction 1)]] [(lit "math", VTable 0)]).
Lemma connect_agrees_witness : exists a2 b2,
  talk (rpc_connect true (fun _ => []) (mret ()) the_client) (rpc_dispatch_helper false 9 (fun _ => []) the_server) (Ret (Ok (), a2)) (Ret (Ok (), b2)) /\
  on_wire true (mkWire false true 4) a2 /\ on_wire false (mkWire false true 4) b2 /\ stk a2 = [] /\ lvm a2 = lvm the_client /\ stk b2 = [] /\ lvm b2 = lvm the_server.
Proof.
  assert (H4 : (ln_size (N := Z) <= 127)%nat) by (cbn; lia). assert (H8 : (ln_size (N := double) <= 127)%nat) by (cbn; lia).
  by apply (connect_agrees true false (fun _ => []) (fun _ => []) H4 H8 9 (mret ()) the_client the_client the_server).
Defined.

(** The sides, connected. *)
Definition w4 : wire := mkWire false true 4.
Definition client4 := set_tpt (mkTpt 1 0 true true false true 4) the_client.
Definition server4 := set_tpt (mkTpt 2 0 false false false true 4) the_server.
Definition the_tree : tree Z := TTable [(SString (lit "t"), TTable [(SNumber 1, TScalar (SString (lit "one")))]); (SBoolean true, TScalar (SNumber (-7)))].
(** [tree_ok], decided. *)
Section Decided.
Context {N : Type} {num : LuaNumber N}.
Definition scalar_okb (k : scalar N) : bool :=
  match k with SString s => forallb (fun c => bool_decide (is_u8 c)) s && (strlen s <? 2 ^ 31) | _ => true end.
Definition differb (a b : scalar N) : bool := negb (raw_eq (scalar_value a) (scalar_value b)) && negb (raw_eq (scalar_value b) (scalar_value a)).
Fixpoint distinct (ts : list (scalar N)) : bool :=
  match ts with [] => true | t :: ts => forallb (differb t) ts && distinct ts end.
Fixpoint tree_okb (t : tree N) : bool :=
  match t with
  | TNil => true
  | TScalar k => scalar_okb k
  | TTable ts => distinct (map fst ts) && forallb (fun t => scalar_okb t.1 && negb (is_nan_value (scalar_value t.1)) && negb (is_nil t.2) && tree_okb t.2) ts
  end.
Lemma scalar_okb_ok k : scalar_okb k = true -> scalar_ok k.
Proof.
  destruct k as [| |s]; cbn [scalar_okb scalar_ok]; try done. intros [H1 H2]%andb_true_iff. split; [|by apply Z.ltb_lt].
  apply List.Forall_forall. intros c Hc. apply (bool_decide_eq_true_1 (is_u8 c)). by apply (proj1 (forallb_forall _ _) H1).
Qed.
Lemma distinct_ok ts : distinct ts = true -> ForallOrdPairs differ ts.
Proof.
  induction ts as [|t ts IH]; cbn [distinct]; intros H; [constructor|]. apply andb_true_iff in H as [H1 H2]. constructor; [|by apply IH].
  apply List.Forall_forall. intros u Hu. apply (proj1 (forallb_forall _ _) H1) in Hu. unfold differ. by apply andb_true_iff in Hu as [?%negb_true_iff ?%negb_true_iff].
Qed.
Lemma tree_okb_ok t : tree_okb t = true -> tree_ok t.
Proof.
  induction t as [|k|ts IH] using tree_all_ind; cbn [tree_okb]; intros H; [constructor|by constructor; apply scalar_okb_ok|].
  apply andb_true_iff in H as [Hd H]. constructor; [by apply distinct_ok|]. clear Hd.
  induction IH as [|t ts Ht _ IH]; [constructor|]. cbn [forallb] in H. apply andb_true_iff in H as [[[[Hk Hnan]%andb_true_iff Hn]%andb_true_iff Hv]%andb_true_iff H].
  constructor; [|by apply IH]. split; [by apply scalar_okb_ok|]. split; [by apply negb_true_iff|]. split; [by apply negb_true_iff|by apply Ht].
Qed.
End Decided.
Lemma the_tree_ok : tree_ok the_tree /\ tree_ok (map_tree (received w4 : Z -> double) the_tree).
Proof. split; apply tree_okb_ok; vm_compute; reflexivity. Qed.
Lemma the_tree_denoted : denotes 0 (heap (lvm client4)) (VTable 1) the_tree.
Proof.
  eapply denotes_table; [lia|reflexivity|reflexivity|]. apply Forall2_cons. split.
  - split; [done|]. eapply denotes_table; [lia|reflexivity|reflexivity|]. apply Forall2_cons. split; [|constructor].
    split; [done|apply (denotes_scalar _ _ (SString (lit "one")))].
  - apply Forall2_cons. split; [|constructor]. split; [done|apply (denotes_scalar _ _ (SNumber (-7)))].
Qed.
Lemma client4_on_wire : on_wire true w4 client4.
Proof. by constructor. Qed.
Lemma server4_on_wire : on_wire false w4 server4.
Proof. by constructor. Qed.
Lemma sides_linked : linked true false w4 client4 server4.
Proof. by split. Qed.

(** A call of [math.add] with two numbers, and one of [math.fail]. *)
Definition math_helper (n : list Z) : helper := helper_append (helper_create (lit "math")) n.
#[local] Instance is_name_dec n : Decision (is_name n).
Proof. unfold is_name. apply _. Defined.
Lemma math_function n k : In (n, k) [(lit "add", 0%nat); (lit "fail", 1%nat)] ->
  names_function (math_helper n) [lit "math"] n (VFunction k) (lvm server4) (lvm server4).
Proof.
  assert (Hm : is_name (lit "math")) by (by_decide).
  intros [[= <- <-]|[[= <- <-]|[]]]; split; try done; try (by apply Forall_singleton); by_decide.
Qed.
Lemma number_sendable {NA NB} {na : LuaNumber NA} {nb : LuaNumber NB} w fuel fuel' (x : NA) :
  sendable (NB := NB) w (S fuel) (S fuel') (TScalar (SNumber x)).
Proof. split; [by constructor|]. split; [by constructor|]. cbn [depth need]. lia. Qed.
Lemma two_numbers (x y : Z) : Forall2 (denotes 0 (heap (lvm client4))) [VNumber x; VNumber y] [TScalar (SNumber x); TScalar (SNumber y)] /\
  Forall (sendable (NB := double) w4 9 9) [TScalar (SNumber x); TScalar (SNumber y)].
Proof.
  split.
  - apply Forall2_cons. split; [apply (denotes_scalar _ _ (SNumber x))|]. apply Forall2_cons. split; [apply (denotes_scalar _ _ (SNumber y))|constructor].
  - apply Forall_cons. split; [apply number_sendable|]. apply Forall_singleton, number_sendable.
Qed.
Lemma denotes_number {N} lo h (v : value N) x : denotes lo h v (TScalar (SNumber x)) -> v = VNumber x.
Proof. intros H. by inversion H. Qed.

(** Getting [limit], a number, from the server; setting [x]. *)
Definition server5 := set_lua (mkLua (heap (lvm server4)) [(lit "limit", VNumber (dbl_of_int 65537))]) server4.
Lemma sides_linked5 : linked true false w4 client4 server5.
Proof. by split. Qed.
Lemma remote_get_witness : exists v' ext, denotes 2 (heap (lvm client4) ++ ext) v' (TScalar (SNumber 65537)) /\
  talk (helper_get true 9 (fun _ => []) (helper_create (lit "limit")) client4) (rpc_dispatch_helper false 9 (fun _ => []) server5)
    (Ret (Ok 1%nat, grown client4 ext [v'])) (Ret (Ok (), set_link_errs 0 (set_stk [] (set_lua (lvm server5) server5)))).
Proof.
  assert (Hn : is_name (lit "limit")) by (by_decide).
  assert (Hr : resolves ([] ++ [lit "limit"]) (lvm server5) = Some (VNumber (dbl_of_int 65537), lvm server5)) by (vm_compute; reflexivity).
  by apply (remote_get true false w4 (fun _ => []) (fun _ => []) 9 9 (helper_create (lit "limit")) [] (lit "limit") (VNumber (dbl_of_int 65537))
    (TScalar (SNumber (dbl_of_int 65537))) (lvm server5) client4 server5 sides_linked5 eq_refl (Forall_nil_2 _) Hn eq_refl Hr
    (denotes_scalar _ _ (SNumber _)) (number_sendable w4 8 8 _)).
Defined.
Lemma remote_set_witness : exists v' ext l',
  denotes 1 (heap (lvm server4) ++ ext) v' (TScalar (SNumber (dbl_of_int 5))) /\
  vm_setglobal (lit "x") v' (mkLua (heap (lvm server4) ++ ext) (rest (lvm server4))) = (inl (), l') /\
  talk (handle_newindex true 9 (fun _ => []) (VString (lit "x")) (VNumber 5) client4) (rpc_dispatch_helper false 9 (fun _ => []) server4)
    (Ret (Ok 0%nat, client4)) (Ret (Ok (), set_link_errs 0 (set_stk [] (set_lua l' server4)))).
Proof.
  assert (Hk : is_cstr (lit "x")) by (by_decide).
  apply (remote_set true false w4 (fun _ => []) (fun _ => []) 9 9 (lit "x") (VNumber 5) (TScalar (SNumber 5)) client4 server4 sides_linked Hk eq_refl
    (denotes_scalar _ _ (SNumber 5)) (number_sendable w4 8 8 5)).
  intros v' ext _. by eexists.
Defined.

(** *** What else the code does *)

(** What a program sends, given what it receives. *)
Fixpoint answer {A} (p : io A) (bs : list Z) : list Z :=
  match p with
  | Ret _ => []
  | Send _ c p => c :: answer p bs
  | Recv _ _ _ k => match bs with [] => [] | b :: bs => answer (k b) bs end
  end.
(** A function that is not there: the message says so only if there are no
    arguments, for it goes by what is on top of the stack. *)
Definition call_nosuch (args : list Z) (n : Z) : list Z :=
  [RPC_CMD_CALL] ++ string_bytes w4 (lit "nosuch") ++ word_bytes w4 n ++ args.
Example undefined_function : answer (serve_command false 9 server4) (call_nosuch [] 0) =
  RPC_READY :: error_bytes w4 LUA_ERRRUN (lit "undefined: nosuch").
Proof. reflexivity. Qed.
Example undefined_by_argument : answer (serve_command false 9 server4) (call_nosuch (encode_scalar w4 (SNumber (N := Z) 5)) 1) =
  RPC_READY :: error_bytes w4 LUA_ERRRUN (lit "not table/func: nosuch").
Proof. reflexivity. Qed.
(** The message of an error is a format: here one that asks for an argument. *)
Example percent_in_message : feed (read_results true 9 client4) (error_bytes w4 2 (lit "50%done")) = Some (Ret (Undefined, client4)).
Proof. reflexivity. Qed.
(** A light function as an argument is announced and not sent: the server waits
    for it. *)
Example light_function_unsent : write_variable true 9 (VLightFunction 3) client4 = Ret (Ok (), client4).
Proof. reflexivity. Qed.
(** A name of twenty bytes is accepted and stored without its end. *)
Example name_of_twenty : handle_index (VString (lit "abcdefghijklmnopqrst")) client4 = Ret (Ok (Helper None None 0), client4).
Proof. reflexivity. Qed.
(** [get] of a handle, not of a helper. *)
Example get_of_handle : helper_call true 9 (fun _ => []) (helper_create (lit "get")) [] client4 = Ret (Undefined, client4).
Proof. reflexivity. Qed.
(** A client on uart 1 with timer 5: the timer that is checked is 1. *)
Example timer_of_connection : transport_open_connection (fun _ => true) (fun t => t =? 5) [VNumber 1; VNumber 5; VUserdata] client4 =
  Ret (LuaError (lit "timer 1 does not exist"), client4).
Proof. reflexivity. Qed.
(** An error while a name is followed leaves the server, and the client has no
    answer. *)
Example get_of_nothing : answer (rpc_dispatch_helper false 9 (fun _ => []) server4) ([RPC_CMD_GET] ++ string_bytes w4 (lit "math.add.x")) = [RPC_READY].
Proof. reflexivity. Qed.
